(* ===== verification/_CoqProject ===== *)
-Q . S2P
Prelude.v
RustStd.v
StrSets.v
DataChunk.v
Search.v
AssignmentFb.v
Sealing.v
Columns.v
Instances.v
WorkerBuilder.v
WorkerReader.v
SealProps.v
WorkerTheory.v
WorkerProps.v
WorkerReach.v
WorkerTables.v
PortalAssignment.v
PortalTheory.v
PortalProps.v
LegacyAssignment.v
LegacyProps.v
FlatBuffers.v
FlatTheory.v
FlatToy.v
AssignmentGen.v
WorkerGen.v
PortalGen.v
AssignmentCodec.v
WorkerCodec.v
PortalCodec.v
WireCodec.v
BuilderTyped.v
Convert.v
ConvertTheory.v
ConvertProps.v
ConvertTotal.v
ConvertMain.v
ConvertMainProps.v
ConvertTyped.v
WireProps.v
Ranges.v
Signatures.v
ContractMerge.v
Pubsub.v
Whitelist.v
AddrCache.v
Base.v
BaseTheory.v
BaseProps.v
BitString.v
NetworkState.v
StreamShared.v
StreamTheory.v
StreamSystem.v
StreamInv.v
StreamProps.v
Wrapped.v
BaseWrapped.v
BaseNode.v
BaseRest.v
StreamIO.v
StreamClient.v
Actors.v
ActorProps.v
Tasks.v
Transports.v
TransportProps.v
ContractClient.v
ContractSetup.v
ContractProps.v
KeepAlive.v
StreamServer.v
StreamServerProps.v
Setup.v
NodeBuild.v
NodeBuildProps.v
ObserverNode.v
DebugTool.v
Bootnode.v
