(* ===== verification/Prelude.v ===== *)
(** * A verification of sqd-network

    sqd-network is the peer-to-peer layer of the SQD data network.  A scheduler
    publishes _assignments_, files that say which worker holds which chunk of
    which dataset; portals and workers read them, send each other signed
    queries over libp2p, and learn from smart contracts who takes part.  This
    development models the code that decides what is written, what is read
    back, what is trusted and whom the node stays connected to, and proves that
    these decisions are the right ones.  All paths are below src/crates.

    ** The parts and where they are modelled

    - data-chunk/src/lib.rs, the chunk id type: [DataChunk].
    - assignments/src/reader.rs, the three binary searches: [Search].
    - assignments: the tables of schema/*.fbs as records and what both split
      formats share (chunk ids, hashes, top runs, CSR columns, column checks):
      [AssignmentFb], with the theory of the columns in [Columns]; the sealing
      of per-worker headers (signatures.rs, [decrypt_headers] of reader.rs):
      [Sealing], [SealProps].
    - assignments, the worker blob: builder.rs in [WorkerBuilder], reader.rs in
      [WorkerReader]; what a staged chunk looks like in the columns in
      [WorkerTheory]; one dataset in [WorkerProps]; every sequence of builder
      calls in [WorkerReach]; table bitmaps and urls, and a concrete blob, in
      [WorkerTables].
    - assignments, the portal blob: [PortalAssignment] (builder and reader),
      [PortalTheory], [PortalProps].
    - assignments, the combined (legacy) blob: [LegacyAssignment], [LegacyProps].
    - assignments/schema/gen, the code [flatc] generated for the three formats:
      [AssignmentGen], [WorkerGen] and [PortalGen], over the interface of the
      FlatBuffers library in [FlatBuffers], with its theory in [FlatTheory] and a
      concrete library in [FlatToy]; each table read and written through that
      code in [AssignmentCodec], [WorkerCodec] and [PortalCodec]; the formats as
      codecs of the builders and readers, and the readers that skip the checks,
      in [WireCodec]; that builders and converter keep to the widths of the
      fields, and which calls leave a dataset the reader refuses, in [BuilderTyped]
      and [ConvertTyped]; theorems and a concrete run
      in [WireProps].
    - assignments/examples/convert_assignment.rs, the tool that turns a combined
      blob into a worker blob and a portal blob and verifies them: the
      conversions and [verify] in [Convert], what they append in
      [ConvertTheory], what verification finds in [ConvertProps], when they
      succeed in [ConvertTotal]; arguments, files and [main] in [ConvertMain],
      [ConvertMainProps], with a concrete file.  [StrSets] holds sets of strings
      in their order.
    - assignments/src/common.rs, the published network state: [NetworkState].
    - messages/src/range.rs: [Ranges]; messages/src/signatures.rs: [Signatures];
      bitstring.rs and versions.rs: [BitString].
    - contract-client/src: merge.rs in [ContractMerge]; the queries of client.rs
      with cli.rs and error.rs in [ContractClient]; the file-backed client, the
      trait with both implementations, transport.rs, the conversions of errors
      and [get_client] in [ContractSetup]; theorems and a concrete chain in
      [ContractProps].
    - transport/src/behaviour: pubsub.rs in [Pubsub];
      node_whitelist.rs in [Whitelist]; addr_cache.rs (and [addr_is_reachable]
      of util.rs) in [AddrCache]; base.rs in [Base], with its operations'
      lemmas in [BaseTheory] and its runs in [BaseProps]; wrapped.rs and
      request_server.rs in [Wrapped]; base.rs behind that wrapper in [BaseWrapped], the simulation that carries the
      invariants over in [BaseNode], and that it comes to rest in [BaseRest];
      keep_alive.rs and noise.rs in [KeepAlive].
    - transport/src/libp2p_stream: [StreamShared] (shared.rs, handler.rs,
      behaviour.rs, control.rs), its operations' lemmas in [StreamTheory], the
      system of controls, handlers and swarm as a step relation with its
      invariant in [StreamSystem], [StreamInv] and [StreamProps].
    - transport/src: stream_server.rs, stream_client.rs, codec.rs and
      util/queue.rs in [StreamIO]; [get_raw_stream] by its [await] points, the
      handle's semaphores, util/stream_with_payload.rs and the exchange of the two
      ends in [StreamClient]; a stream server put together with its
      stream behaviour and wrapper in [StreamServer], [StreamServerProps]; the
      actors' handling of events and their calls in [Actors], [ActorProps];
      util/task_manager.rs in [Tasks]; the actors' loops, handles
      and start-up in [Transports], [TransportProps].
    - transport/src, the set-up: command line, environment, key file and the
      builder's calls (cli.rs, util.rs, lib.rs, builder.rs) in [Setup];
      [from_cli], [build_swarm] and the [build_*] methods with the
      constructors of the actors' behaviours in [NodeBuild], [NodeBuildProps].
    - observer/src: [ObserverNode]; bootnode/src/main.rs and
      keygen/src/main.rs: [Bootnode];
      transport/examples/debug.rs: [DebugTool].

    The parts meet in these places.  [Base] calls [Whitelist] and [AddrCache];
    [KeepAlive] and [StreamServer] are built on [StreamShared]; an [Actors] call
    composes the client and server of [StreamIO] and the limits of both ends, and
    the theorems of [ActorProps] run a portal against a worker; [ContractClient]
    feeds [ContractMerge], and its theorems say what [Whitelist] is given;
    [Wrapped] is a theorem about any implementation of its trait, the class
    [BehaviourWrapper], of which the base behaviour and the stream server are
    instances; the converter runs the combined reader against both builders and
    both readers; the generated code is an instance of [Flatbuffer], the class
    through which builders and readers serialise, so that their theorems hold of
    the bytes; and [NodeBuildProps] follows a node from its command line
    through chain client, builder and actor to the base behaviour in its swarm,
    as [Bootnode] does for the boot node.

    This file holds what all of them use: outcomes of fallible code, the
    stateful-method monad, machine integers, tactics, the [sqd] hint databases.
    [RustStd] models the pieces of the Rust standard library the sources call
    (strings, UTF-8, decimal printing and parsing, slice search, ordered maps);
    [Instances] holds concrete instances of the third-party interfaces; a file
    with theorems ends with a concrete run at which they are applied.

    ** How code becomes definitions

    A Rust function is a Rocq function of the same name (prefixed where two
    types share a method name: [wk_] for WorkerChunk, [wa_] for
    WorkerAssignment, [pk_], [pa_], [pcb_] and [portal_] for the portal side,
    [lb_], [lcb_], [lw_], [as_] and [legacy_] for the combined format, [cb_] for
    the worker's chunk builder, [base_] for BaseBehaviour, [wrapped_],
    [keep_alive_], [noise_], [worker_on_], [portal_on_], [collector_], [cl_],
    [dummy_] and [tm_] for the other components; [X_of] is the constructor of the
    behaviour [X]).  A [&mut self]
    method is a [comp]: it returns an outcome and the state it leaves, also
    when it fails.  [Err] and [Panic] are different outcomes.  Unsigned integers
    are [Z] with their width written out; an addition that overflows panics or
    wraps as the [BuildProfile] says, and the theorems hold for every profile.
    Loops are structural where the source iterates over a collection; the
    searches, the polling and draining loops and the paged reads of the chain
    carry fuel, and their theorems show that the fuel given suffices (a search
    halves its range, so its length bounds the rounds; a poll or drain takes an
    item out of its queue per round; a page after the last entry ends a read; a
    wrapped behaviour ends if its wrapper cannot stay ready without producing).
    Shared, locked state that several tasks use is a step relation over all of
    them; what [select!], a random choice, a timeout or the network decides is
    an argument.  A byte stream is the bytes it delivers and how it ends.  Hash
    sets and maps are [gset] and [gmap]; a loop over one runs over [elements],
    and no theorem depends on that order.  Logging and metrics are left out,
    except where they are what the program is for (observer, debug tool).

    In the generated code a table is a buffer with a position; a read of bytes
    that hold no such value is undefined behaviour, the error [Ub], and an
    [unwrap] of a field that is not there is a [Panic].  Vectors are read at
    once, where the code reads an element when it is asked for; since every
    element is shown readable this makes no difference on accepted buffers.

    What is not in the sources is an interface (a [Class] of operations, and a
    second one with the laws the code relies on, which are the library's
    documented behaviour): the FlatBuffers library ([FlatBufferOps], with
    [FlatBufferSafety] for what its verifier promises of any bytes and
    [FlatBufferCodec] for what its builder promises), libp2p's [PeerId], the
    cryptographic primitives (both with a law that their bytes are bytes,
    [PeerBytes] and [CryptoBytes]), [Vector::lookup_by_key], JSON parsing, the LRU cache, the allow
    list, Kademlia, the delay queue, the two-way map, channels, the semaphore,
    protobuf messages, contract calls, key pairs.  Clocks, the environment
    and the answers of gossipsub are arguments.  Every theorem that uses a law
    has a witness with a concrete implementation.

    ** What the theorems show

    - Assignments: a dataset staged chunk by chunk and emitted is read back
      exactly, in both split formats; a rejected dataset leaves nothing behind;
      a finished blob is accepted by the reader's column checks, unless a dataset
      was finished after it ran out of worker references; its workers are found by
      binary search, and the scan for a
      worker's chunks returns exactly the chunks that name it; bitmaps spell the
      tables a chunk was staged with; urls and ids are the documented ones;
      looking up a block or a timestamp never panics and answers the right chunk
      or the right reason; sealed headers open for their worker.
    - The wire: what the generated code writes it reads back, field by field, in
      all three formats; bytes of any origin that pass the generated verifier are
      read without a panic or undefined behaviour; after any calls, whatever they
      answered, the builders' bytes are read as the tables built, or refused in
      the one case above; a conversion of accepted bytes yields accepted bytes; the
      readers that skip the checks agree with those that make them; a table
      without a required field is not finished.
    - Conversion: run on any well-formed combined blob without gaps the converter
      ends with success, and whatever it builds reads back, through both readers,
      as the source.
    - Messages: extending a range set keeps it sorted, separated and denoting
      the union, short of an overflow at the end of the block numbers; two queries
      or results sign the same bytes only if they agree on what a signature covers
      (of a query, not its request id, compression and chunk version); what
      is signed verifies; a portal's log entry verifies like the result it logs.
    - Contracts: one cluster per operator, without double counting; paged reads
      end and lose nothing, so that the nodes reported are those on chain;
      asking the default strategy once is as good as asking for every worker.
    - Transport: no replay and a rate limit on gossipsub topics, one verdict per
      message; the whitelist is the registry's last state; the address cache
      never claims to know an address it has not; a peer waits in one place
      only, lookups are bounded, connection counters never underflow, and no
      registered worker is forgotten, except until the next chain update one whose
      dial the swarm refused; confidence only rises; a node left alone comes to
      rest.
    - Nodes: a portal, collector or SQL client started from its command line
      keeps to the workers that the chain listed, each of them allowed and, refused
      dials apart, being taken care of, in every state its swarm can bring it to; a boot node lets
      in whom the chain and its command line name, until a signal ends it.
    - Streams: no request for a stream is lost or served twice, whatever
      interleaving of controls, handlers and swarm; a peer that is waited for is
      being dialed; failed and skipped dials answer or hand over every waiting
      request; a protocol has one acceptor; a keep-alive request reaches a
      connection of its peer on both sides of the race with the announcement; a wrapped
      behaviour keeps every event in order; a stream server accounts for every
      stream that arrives.
    - Requests: the streams to a peer that are opening or open are bounded by the
      permits they carry; an exchange delivers whole messages
      or the right error, for every combination of sizes and limits; a portal's
      query returns exactly what the worker computed, or a failure; log
      listeners are the providers of the last lookup, in every interleaving of
      the tasks that share them; collectors advertise once; an actor's events
      reach the application in order, short of a full queue, and its loop is told
      to stop when the last handle is dropped.
    - Set-up and binaries: boot nodes and the key file read back, a worker starts
      only once it can be whitelisted, the observer counts every message.
    - These theorems prove defects: [ConvertProps.gaps_are_not_converted],
      [Ranges.extend_overflows_at_max],
      [Pubsub.first_message_is_unchecked],
      [ActorProps.dropped_answers_are_taken_for_messages],
      [StreamClient.clone_does_not_share_limit],
      [ContractProps.decode_error_keeps_length_word],
      [ContractProps.zero_page_size_does_not_work],
      [Tasks.periodic_may_run_after_cancel], [KeepAlive.noise_task_ends].

    ** What is not modelled, and why

    Of the generated code the [Debug] forms, the impls that let a struct be
    pushed into a vector, and alignment; the 2 GiB limit of a FlatBuffers
    builder, so that a buffer is taken to fit; the limits of the verifier appear
    as the hypothesis [within].  The protobuf types and contract bindings, which
    are generated from files the build reads, and the sub-behaviours of libp2p
    that the code only configures.  The parsing of arguments by clap, the HTTP
    server (one route of axum) and the registration of metrics.  Benches and
    tests.  Nodes are composed in pairs where a call crosses the network
    ([ActorProps], [StreamClient]); a network of many nodes would need a model of
    libp2p's swarm, whose code is not part of the sources. *)

From Stdlib Require Import ZArith Lia Ascii String.
From stdpp Require Import base strings gmap sorting numbers list.

(** ** Outcomes of Rust code

    A call of a Rust function that returns [Result<A, E>] ends in one of three
    ways: it returns [Ok], it returns [Err], or it panics.  A function that
    does not return a [Result] is modelled polymorphically in [E], so that the
    only outcomes left to it are a value and a panic. *)
Inductive res (E A : Type) : Type :=
| Ok (a : A)
| Err (e : E)
| Panic.
Arguments Ok {E A} a.
Arguments Err {E A} e.
Arguments Panic {E A}.

(** The [?] operator. *)
#[global] Instance res_ret E : MRet (res E) := fun _ a => Ok a.
#[global] Instance res_bind E : MBind (res E) := fun A B f m =>
  match m with
  | Ok a => f a
  | Err e => Err e
  | Panic => Panic
  end.
#[global] Instance res_fmap E : FMap (res E) := fun A B f m =>
  match m with
  | Ok a => Ok (f a)
  | Err e => Err e
  | Panic => Panic
  end.

(** [Option::ok_or], [Option::expect] and the [ensure!]/[assert!] macros. *)
Definition ok_or {E A} (o : option A) (e : E) : res E A :=
  match o with Some a => Ok a | None => Err e end.

Definition expect {E A} (o : option A) : res E A :=
  match o with Some a => Ok a | None => Panic end.

Definition ensure {E} (b : bool) (e : E) : res E unit :=
  if b then Ok tt else Err e.

Definition assert {E} (b : bool) : res E unit :=
  if b then Ok tt else Panic.

Definition is_ok {E A} (r : res E A) : bool :=
  match r with Ok _ => true | _ => false end.

(** ** Stateful Rust methods

    A [&mut self] method leaves its changes to [self] behind when it returns
    [Err], so the state is threaded outside the outcome. *)
Definition comp (S E A : Type) : Type := S -> res E A * S.

Definition creturn {S E A} (a : A) : comp S E A := fun s => (Ok a, s).
Definition cbind {S E A B} (m : comp S E A) (f : A -> comp S E B) : comp S E B :=
  fun s =>
    match m s with
    | (Ok a, s') => f a s'
    | (Err e, s') => (Err e, s')
    | (Panic, s') => (Panic, s')
    end.
Definition clift {S E A} (r : res E A) : comp S E A := fun s => (r, s).
Definition cget {S E} : comp S E S := fun s => (Ok s, s).
Definition cmodify {S E} (f : S -> S) : comp S E unit := fun s => (Ok tt, f s).

Declare Scope rust_scope.
Delimit Scope rust_scope with rust.
Notation "x <- c ;; k" := (cbind c (fun x => k))
  (at level 100, c at next level, right associativity) : rust_scope.
Notation "c ;;; k" := (cbind c (fun _ => k))
  (at level 100, right associativity) : rust_scope.

(** ** Machine integers

    Unsigned integers are [Z] values; [u64 x] says [x] is one a [u64] can
    hold.  Whether [+] and [-] panic or wrap on overflow is decided by the
    build profile ([overflow-checks]), and so is whether [debug_assert!] checks
    anything; the theorems hold for every profile. *)
Definition u8 (x : Z) : Prop := (0 <= x < 2 ^ 8)%Z.
Definition u16 (x : Z) : Prop := (0 <= x < 2 ^ 16)%Z.
Definition u32 (x : Z) : Prop := (0 <= x < 2 ^ 32)%Z.
Definition u64 (x : Z) : Prop := (0 <= x < 2 ^ 64)%Z.
Definition u64_max : Z := 2 ^ 64 - 1.

Class BuildProfile := { overflow_checks : bool; debug_assertions : bool }.

Definition add_u64 `{BuildProfile} {E} (a b : Z) : res E Z :=
  if (a + b <? 2 ^ 64)%Z then Ok (a + b)%Z
  else if overflow_checks then Panic else Ok ((a + b) mod 2 ^ 64)%Z.

Definition sub_u64 `{BuildProfile} {E} (a b : Z) : res E Z :=
  if (b <=? a)%Z then Ok (a - b)%Z
  else if overflow_checks then Panic else Ok ((a - b) mod 2 ^ 64)%Z.

Definition add_u32 `{BuildProfile} {E} (a b : Z) : res E Z :=
  if (a + b <? 2 ^ 32)%Z then Ok (a + b)%Z
  else if overflow_checks then Panic else Ok ((a + b) mod 2 ^ 32)%Z.

Definition sub_u32 `{BuildProfile} {E} (a b : Z) : res E Z :=
  if (b <=? a)%Z then Ok (a - b)%Z
  else if overflow_checks then Panic else Ok ((a - b) mod 2 ^ 32)%Z.

(** [u32::try_from]. *)
Definition try_u32 {E} (e : E) (x : Z) : res E Z :=
  if (x <? 2 ^ 32)%Z then Ok x else Err e.

(** ** Automation *)
Create HintDb sqd discriminated.
Create Rewrite HintDb sqd.

(** Split the conditionals and matches of a goal on booleans and options. *)
Ltac case_step :=
  match goal with
  | |- context [match ?x with _ => _ end] => destruct x eqn:?
  | H : context [match ?x with _ => _ end] |- _ => destruct x eqn:?
  end.

(** Turn boolean tests on [Z] and [nat] into propositions. *)
Ltac zbool :=
  repeat match goal with
  | H : (_ && _)%bool = true |- _ => apply andb_true_iff in H; destruct H
  | H : (_ || _)%bool = false |- _ => apply orb_false_iff in H; destruct H
  | H : (_ <? _)%Z = true |- _ => apply Z.ltb_lt in H
  | H : (_ <? _)%Z = false |- _ => apply Z.ltb_ge in H
  | H : (_ <=? _)%Z = true |- _ => apply Z.leb_le in H
  | H : (_ <=? _)%Z = false |- _ => apply Z.leb_gt in H
  | H : (_ =? _)%Z = true |- _ => apply Z.eqb_eq in H
  | H : (_ =? _)%Z = false |- _ => apply Z.eqb_neq in H
  | H : (_ <? _) = true |- _ => apply Nat.ltb_lt in H
  | H : (_ <? _) = false |- _ => apply Nat.ltb_ge in H
  | H : (_ <=? _) = true |- _ => apply Nat.leb_le in H
  | H : (_ <=? _) = false |- _ => apply Nat.leb_gt in H
  | H : (_ =? _) = true |- _ => apply Nat.eqb_eq in H
  | H : (_ =? _) = false |- _ => apply Nat.eqb_neq in H
  | H : negb _ = true |- _ => apply negb_true_iff in H
  | H : negb _ = false |- _ => apply negb_false_iff in H
  end.

(** ** Shared lemmas *)

Lemma add_u64_ok `{BuildProfile} {E} a b :
  (a + b < 2 ^ 64)%Z -> add_u64 (E := E) a b = Ok (a + b)%Z.
Proof. intros. unfold add_u64. by rewrite (proj2 (Z.ltb_lt _ _)). Qed.

Lemma sub_u64_ok `{BuildProfile} {E} a b :
  (b <= a)%Z -> sub_u64 (E := E) a b = Ok (a - b)%Z.
Proof. intros. unfold sub_u64. by rewrite (proj2 (Z.leb_le _ _)). Qed.

Lemma try_u32_ok {E} (e : E) x : (x < 2 ^ 32)%Z -> try_u32 e x = Ok x.
Proof. intros. unfold try_u32. by rewrite (proj2 (Z.ltb_lt _ _)). Qed.

#[export] Hint Rewrite @add_u64_ok @sub_u64_ok @try_u32_ok
  using (unfold u64, u32, u16, u8, u64_max in *; lia) : sqd.

(** [Iterator::map] and [filter_map] with a callback that may panic, collected. *)
Fixpoint rmap {E A B} (f : A -> res E B) (l : list A) : res E (list B) :=
  match l with
  | [] => Ok []
  | x :: l => y ← f x; ys ← rmap f l; Ok (y :: ys)
  end.

Fixpoint rfilter_map {E A B} (f : A -> res E (option B)) (l : list A) : res E (list B) :=
  match l with
  | [] => Ok []
  | x :: l =>
    y ← f x;
    ys ← rfilter_map f l;
    Ok (match y with Some y => y :: ys | None => ys end)
  end.

Lemma rmap_ok {E A B} (f : A -> res E B) (g : A -> B) l :
  (forall x, x ∈ l -> f x = Ok (g x)) -> rmap f l = Ok (g <$> l).
Proof.
  induction l as [| x l IH]; intros H; cbn; [done |].
  rewrite H by (by left). cbn. rewrite IH by (intros; apply H; by right). done.
Qed.

Lemma rfilter_map_ok {E A B} (f : A -> res E (option B)) (g : A -> option B) l :
  (forall x, x ∈ l -> f x = Ok (g x)) -> rfilter_map f l = Ok (omap g l).
Proof.
  induction l as [| x l IH]; intros H; cbn; [done |].
  rewrite H by (by left). cbn. rewrite IH by (intros; apply H; by right). cbn.
  by destruct (g x).
Qed.

(** Inverting a successful run of a stateful method. *)
Lemma cbind_clift_Ok {S E A B} (r : res E A) (k : A -> comp S E B) s v s' :
  cbind (clift r) k s = (Ok v, s') -> exists a, r = Ok a /\ k a s = (Ok v, s').
Proof. unfold cbind, clift. destruct r; naive_solver. Qed.

Lemma cbind_Ok {S E A B} (m : comp S E A) (k : A -> comp S E B) s v s' :
  cbind m k s = (Ok v, s') -> exists a s1, m s = (Ok a, s1) /\ k a s1 = (Ok v, s').
Proof. unfold cbind. destruct (m s) as [[] ?]; naive_solver. Qed.

Lemma cbind_run {S E A B} (m : comp S E A) (k : A -> comp S E B) s a s1 :
  m s = (Ok a, s1) -> cbind m k s = k a s1.
Proof. unfold cbind. by intros ->. Qed.

Lemma ensure_Ok {E} b (e : E) u : ensure b e = Ok u -> b = true.
Proof. by destruct b. Qed.

Lemma ok_or_Ok {E A} (o : option A) (e : E) a : ok_or o e = Ok a -> o = Some a.
Proof. destruct o; naive_solver. Qed.

Lemma expect_Ok {E A} (o : option A) a : expect (E := E) o = Ok a -> o = Some a.
Proof. destruct o; naive_solver. Qed.

Lemma assert_Ok {E} b u : assert (E := E) b = Ok u -> b = true.
Proof. by destruct b. Qed.

(** [cinv H] unfolds one step of a successful method run in [H]. *)
Ltac cinv H :=
  lazymatch type of H with
  | cbind (clift _) _ _ = (Ok _, _) =>
    let a := fresh "v" in let E := fresh "Hv" in
    apply cbind_clift_Ok in H; destruct H as (a & E & H);
    try (first [apply ensure_Ok in E | apply ok_or_Ok in E | apply expect_Ok in E
               | apply assert_Ok in E])
  | cbind cget _ _ = (Ok _, _) => unfold cbind at 1, cget at 1 in H
  | cbind (cmodify _) _ _ = (Ok _, _) => unfold cbind at 1, cmodify at 1 in H
  end.

Lemma pair_Ok {S E A} (p : res E A * S) a : fst p = Ok a -> p = (Ok a, snd p).
Proof. destruct p. cbn. by intros ->. Defined.

Lemma try_u32_inv {E} (e : E) x y : try_u32 e x = Ok y -> y = x /\ (x < 2 ^ 32)%Z.
Proof. unfold try_u32. case_match; intros; simplify_eq. by zbool. Qed.

(** [Result::map_err], on a value and on a method's outcome. *)
Definition map_err {E E' A} (f : E -> E') (r : res E A) : res E' A :=
  match r with
  | Ok a => Ok a
  | Err e => Err (f e)
  | Panic => Panic
  end.

Definition cmap_err {S E E' A} (f : E -> E') (m : comp S E A) : comp S E' A :=
  fun s => let '(r, s) := m s in (map_err f r, s).

(** A [for] loop over a vector whose body may return early with [?]. *)
Fixpoint cfor {S E A} (l : list A) (body : A -> comp S E unit) : comp S E unit :=
  match l with
  | [] => creturn tt
  | x :: l => cbind (body x) (fun _ => cfor l body)
  end.

Fixpoint rfor {E A} (l : list A) (body : A -> res E unit) : res E unit :=
  match l with
  | [] => Ok tt
  | x :: l => body x;; rfor l body
  end.

Lemma map_err_Ok {E E' A} (f : E -> E') (r : res E A) a : map_err f r = Ok a -> r = Ok a.
Proof. destruct r; naive_solver. Qed.

Lemma cmap_err_Ok {S E E' A} (f : E -> E') (m : comp S E A) s a s' :
  cmap_err f m s = (Ok a, s') -> m s = (Ok a, s').
Proof. unfold cmap_err. destruct (m s) as [[] ?]; cbn; naive_solver. Qed.

Lemma rfor_Ok {E A} (l : list A) (body : A -> res E unit) :
  (forall x, x ∈ l -> body x = Ok tt) -> rfor l body = Ok tt.
Proof.
  induction l as [| x l IH]; intros Hb; [done |]. cbn. rewrite Hb by (by left).
  apply IH. intros y Hy. apply Hb. by right.
Qed.

(** A loop that went through ran its body once per element: any relation
    between the elements seen so far and the state that each round extends
    holds at the end. *)
Lemma cfor_inv {S E A} (P : list A -> S -> Prop) (l : list A) (body : A -> comp S E unit) s s' :
  P [] s ->
  (forall done x rest s1 s2, l = done ++ x :: rest -> P done s1 -> body x s1 = (Ok tt, s2) ->
     P (done ++ [x]) s2) ->
  cfor l body s = (Ok tt, s') -> P l s'.
Proof.
  intros H0 Hstep Hf.
  assert (forall rest done s1, l = done ++ rest -> P done s1 -> cfor rest body s1 = (Ok tt, s') ->
            P l s') as Hall; [| by apply (Hall l [] s)].
  induction rest as [| x rest IH]; intros done s1 Hl Hd Hr.
  - cbn in Hr. injection Hr as <-. by rewrite Hl, app_nil_r.
  - cbn [cfor] in Hr. apply cbind_Ok in Hr as ([] & s2 & Hb & Hr).
    apply (IH (done ++ [x]) s2); [by rewrite <- app_assoc | by eapply Hstep | done].
Qed.

(** A loop whose every round succeeds and extends a relation runs to its end. *)
Lemma cfor_total {S E A} (P : list A -> S -> Prop) (l : list A) (body : A -> comp S E unit) s :
  P [] s ->
  (forall done x rest s1, l = done ++ x :: rest -> P done s1 ->
     exists s2, body x s1 = (Ok tt, s2) /\ P (done ++ [x]) s2) ->
  exists s', cfor l body s = (Ok tt, s') /\ P l s'.
Proof.
  intros H0 Hstep.
  assert (forall rest done s1, l = done ++ rest -> P done s1 ->
            exists s', cfor rest body s1 = (Ok tt, s') /\ P l s') as Hall; [| by apply (Hall l [])].
  induction rest as [| x rest IH]; intros done s1 Hl Hd.
  - exists s1. split; [done |]. by rewrite Hl, app_nil_r.
  - destruct (Hstep done x rest s1 Hl Hd) as (s2 & Hb & Hp).
    destruct (IH (done ++ [x]) s2) as (s' & Hr & Hf); [by rewrite <- app_assoc | done |].
    exists s'. split; [| done]. cbn [cfor]. unfold cbind. by rewrite Hb.
Qed.
