(* ===== verification/RustStd.v ===== *)
(** * The parts of the Rust standard library the sources use

    Strings are byte strings ([str], bytes as [ascii]); [&[u8]] and [[u8; n]]
    are lists of [Z] bytes.  The functions follow the standard library's
    documentation (and, for [slice::binary_search_by], its implementation in
    the pinned toolchain, since which of several matches is returned is left
    open by the documentation). *)

From S2P Require Import Prelude.
From Stdlib Require Import ZArith Lia Ascii String.
From stdpp Require Import base sets strings gmap sorting numbers list.

Open Scope Z_scope.

Abbreviation str := (list ascii).

(** String literals. *)
Definition lit (s : string) : str := list_ascii_of_string s.

(** ** Bytes *)

Definition byte_of (c : ascii) : Z := Z.of_N (N_of_ascii c).
Definition byte_ascii (b : Z) : ascii := ascii_of_N (Z.to_N b).

(** [str::as_bytes]. *)
Definition as_bytes (s : str) : list Z := byte_of <$> s.

(** [str::from_utf8]: the well-formed byte sequences of Unicode table 3-7. *)
Definition in_range (lo hi b : Z) : bool := (lo <=? b) && (b <=? hi).

Fixpoint utf8_valid (l : list Z) : bool :=
  match l with
  | [] => true
  | b :: l1 =>
    if b <? 128 then utf8_valid l1
    else match l1 with
    | c1 :: l2 =>
      if in_range 194 223 b && in_range 128 191 c1 then utf8_valid l2
      else match l2 with
      | c2 :: l3 =>
        if in_range 128 191 c2
           && (((b =? 224) && in_range 160 191 c1)
               || (in_range 225 236 b && in_range 128 191 c1)
               || ((b =? 237) && in_range 128 159 c1)
               || (in_range 238 239 b && in_range 128 191 c1))
        then utf8_valid l3
        else match l3 with
        | c3 :: l4 =>
          if in_range 128 191 c2 && in_range 128 191 c3
             && (((b =? 240) && in_range 144 191 c1)
                 || (in_range 241 243 b && in_range 128 191 c1)
                 || ((b =? 244) && in_range 128 143 c1))
          then utf8_valid l4 else false
        | [] => false
        end
      | [] => false
      end
    | [] => false
    end
  end.

Definition from_utf8 (l : list Z) : option str :=
  if utf8_valid l then Some (byte_ascii <$> l) else None.

(** [u32::to_le_bytes] and [u64::to_le_bytes]. *)
Fixpoint to_le_bytes (n : nat) (x : Z) : list Z :=
  match n with
  | O => []
  | S n => x mod 256 :: to_le_bytes n (x / 256)
  end.

(** ** Decimal numbers *)

Definition digit_char (d : Z) : ascii := byte_ascii (48 + d).

(** The decimal digits of [x], most significant first, without leading zeros
    ("" for 0); [fuel] bounds the number of digits. *)
Fixpoint digits (fuel : nat) (x : Z) : str :=
  match fuel with
  | O => []
  | S fuel => if x =? 0 then [] else digits fuel (x / 10) ++ [digit_char (x mod 10)]
  end.

(** [u64::to_string]: a [u64] has at most 20 digits. *)
Definition u64_to_string (x : Z) : str :=
  if x =? 0 then [digit_char 0] else digits 20 x.

(** [format!("{:010}", x)]: pads with zeros on the left to ten characters. *)
Definition format_010 (x : Z) : str :=
  let s := u64_to_string x in
  replicate (10 - length s) (digit_char 0) ++ s.

(** [str::parse::<u64>]: an optional [+], then at least one decimal digit;
    values past [u64::MAX] are an error. *)
Definition char_digit (c : ascii) : option Z :=
  let b := byte_of c in
  if in_range 48 57 b then Some (b - 48) else None.

Fixpoint parse_digits (acc : Z) (s : str) : option Z :=
  match s with
  | [] => Some acc
  | c :: s =>
    match char_digit c with
    | Some d =>
      let acc := acc * 10 + d in
      if acc <? 2 ^ 64 then parse_digits acc s else None
    | None => None
    end
  end.

Definition parse_u64 (s : str) : option Z :=
  match s with
  | [] => None
  | c :: s' =>
    if bool_decide (c = "+"%char)
    then match s' with [] => None | _ => parse_digits 0 s' end
    else parse_digits 0 s
  end.

(** ** String operations *)

(** [str::split_once] on a character: around its first occurrence. *)
Fixpoint split_once (c : ascii) (s : str) : option (str * str) :=
  match s with
  | [] => None
  | x :: s =>
    if bool_decide (x = c) then Some ([], s)
    else match split_once c s with
         | Some (a, b) => Some (x :: a, b)
         | None => None
         end
  end.

(** [str::splitn(n, c)], collected. *)
Fixpoint splitn (n : nat) (c : ascii) (s : str) : list str :=
  match n with
  | O => []
  | S O => [s]
  | S n =>
    match split_once c s with
    | Some (a, b) => a :: splitn n c b
    | None => [s]
    end
  end.

(** [str::ends_with] and [str::trim_start_matches] on a character. *)
Definition ends_with (c : ascii) (s : str) : bool :=
  match last s with Some x => bool_decide (x = c) | None => false end.

Fixpoint trim_start_matches (c : ascii) (s : str) : str :=
  match s with
  | x :: s' => if bool_decide (x = c) then trim_start_matches c s' else s
  | [] => []
  end.

(** [Ord for str]: lexicographic on bytes. *)
Fixpoint str_cmp (a b : str) : comparison :=
  match a, b with
  | [], [] => Eq
  | [], _ :: _ => Lt
  | _ :: _, [] => Gt
  | x :: a, y :: b =>
    match Z.compare (byte_of x) (byte_of y) with
    | Eq => str_cmp a b
    | c => c
    end
  end.

Definition str_ltb (a b : str) : bool :=
  match str_cmp a b with Lt => true | _ => false end.

Definition str_eqb (a b : str) : bool := bool_decide (a = b).

(** ** Slices *)

(** [slice::binary_search_by]: the loop of the toolchain's implementation, on
    [size] elements from [base]; the comparison is of an element with the
    target. *)
Fixpoint bsearch_loop {A} (fuel : nat) (f : A -> comparison) (l : list A)
    (base size : nat) : nat :=
  match fuel with
  | O => base
  | S fuel =>
    if (size <=? 1)%nat then base
    else
      let half := Nat.div2 size in
      let mid := (base + half)%nat in
      let base' :=
        match f <$> l !! mid with
        | Some Gt => base
        | _ => mid
        end in
      bsearch_loop fuel f l base' (size - half)
  end.

Definition slice_binary_search_by {A} (f : A -> comparison) (l : list A) : option nat :=
  match l with
  | [] => None
  | _ =>
    let base := bsearch_loop (length l) f l 0 (length l) in
    match f <$> l !! base with
    | Some Eq => Some base
    | _ => None
    end
  end.

(** [slice::windows(2)] with a test on each pair, as [is_sorted_by]. *)
Fixpoint is_sorted_by {A} (lt : A -> A -> bool) (l : list A) : bool :=
  match l with
  | x :: ((y :: _) as l1) => lt x y && is_sorted_by lt l1
  | _ => true
  end.

(** ** Bytes: facts *)

Lemma byte_of_range c : 0 <= byte_of c < 256.
Proof.
  unfold byte_of. pose proof (N_ascii_bounded c) as H.
  split; [lia |]. change 256 with (Z.of_N 256). lia.
Qed.

Lemma byte_ascii_of c : byte_ascii (byte_of c) = c.
Proof. unfold byte_ascii, byte_of. rewrite N2Z.id. apply ascii_N_embedding. Qed.

Lemma byte_of_byte_ascii b : 0 <= b < 256 -> byte_of (byte_ascii b) = b.
Proof.
  intros. unfold byte_ascii, byte_of. rewrite N_ascii_embedding; [lia |].
  apply N2Z.inj_lt. rewrite Z2N.id; lia.
Qed.

#[global] Instance byte_of_inj : Inj (=) (=) byte_of.
Proof. intros a b H. by rewrite <- (byte_ascii_of a), H, byte_ascii_of. Qed.

#[global] Instance as_bytes_inj : Inj (=) (=) as_bytes.
Proof. unfold as_bytes. apply _. Qed.

Lemma length_as_bytes s : length (as_bytes s) = length s.
Proof. apply length_fmap. Qed.

Lemma utf8_valid_ascii l : Forall (fun b => b < 128) l -> utf8_valid l = true.
Proof.
  induction 1 as [| b l Hb _ IH]; [done |]. cbn -[Z.ltb].
  by rewrite (proj2 (Z.ltb_lt b 128) Hb).
Qed.

Lemma from_utf8_as_bytes (s : str) :
  Forall (fun c => byte_of c < 128) s -> from_utf8 (as_bytes s) = Some s.
Proof.
  intros H. unfold from_utf8, as_bytes.
  rewrite utf8_valid_ascii by (by apply Forall_fmap).
  f_equal. rewrite <- list_fmap_compose. rewrite <- (list_fmap_id s) at 2.
  apply list_fmap_ext. intros. apply byte_ascii_of.
Qed.

Lemma length_to_le_bytes n x : length (to_le_bytes n x) = n.
Proof. revert x. induction n; intros; cbn; auto. Qed.

Lemma to_le_bytes_inj n x y :
  0 <= x < 256 ^ Z.of_nat n -> 0 <= y < 256 ^ Z.of_nat n ->
  to_le_bytes n x = to_le_bytes n y -> x = y.
Proof.
  revert x y. induction n as [| n IH]; intros x y Hx Hy H.
  - cbn in *. lia.
  - rewrite Nat2Z.inj_succ, Z.pow_succ_r in Hx, Hy by lia.
    cbn [to_le_bytes] in H. injection H as Hm Hd.
    apply IH in Hd; [| split; [apply Z.div_pos | apply Z.div_lt_upper_bound]; lia ..].
    rewrite (Z.div_mod x 256), (Z.div_mod y 256) by lia. congruence.
Qed.

#[export] Hint Rewrite length_as_bytes length_to_le_bytes : sqd.

(** ** Decimal numbers: facts *)

Definition is_digit (c : ascii) : Prop := exists d, char_digit c = Some d.

Lemma char_digit_char d : 0 <= d < 10 -> char_digit (digit_char d) = Some d.
Proof.
  intros. unfold char_digit, digit_char. rewrite byte_of_byte_ascii by lia.
  unfold in_range. rewrite (proj2 (Z.leb_le _ _)), (proj2 (Z.leb_le _ _)) by lia.
  cbn. f_equal. lia.
Qed.

Lemma is_digit_char d : 0 <= d < 10 -> is_digit (digit_char d).
Proof. intros. eexists. by apply char_digit_char. Qed.

Lemma is_digit_ascii c : is_digit c -> byte_of c < 128.
Proof.
  intros [d H]. unfold char_digit, in_range in H. case_match; [| done]. zbool. lia.
Qed.

Lemma digits_Forall fuel x : 0 <= x -> Forall is_digit (digits fuel x).
Proof.
  revert x. induction fuel as [| fuel IH]; intros x Hx; cbn; [constructor |].
  case_match; [constructor |].
  apply Forall_app. split; [apply IH; apply Z.div_pos; lia |].
  repeat constructor. apply is_digit_char, Z.mod_pos_bound. lia.
Qed.

Lemma u64_to_string_Forall x : 0 <= x -> Forall is_digit (u64_to_string x).
Proof.
  intros. unfold u64_to_string. case_match; [| by apply digits_Forall].
  repeat constructor. apply is_digit_char. lia.
Qed.

Lemma format_010_Forall x : 0 <= x -> Forall is_digit (format_010 x).
Proof.
  intros. apply Forall_app. split; [| by apply u64_to_string_Forall].
  apply Forall_replicate, is_digit_char. lia.
Qed.

Lemma digits_nonempty fuel x : 0 < x -> digits (S fuel) x <> [].
Proof.
  intros Hx. cbn. rewrite (proj2 (Z.eqb_neq x 0)) by lia. intros H.
  apply (f_equal length) in H. rewrite length_app in H. cbn in H. lia.
Qed.

Lemma format_010_nonempty x : 0 <= x -> format_010 x <> [].
Proof.
  intros Hx H. apply app_eq_nil in H as [_ H]. unfold u64_to_string in H.
  destruct (x =? 0) eqn:?; [done |]. zbool.
  eapply (digits_nonempty 19 x); [lia | done].
Qed.

Lemma length_digits fuel x k :
  0 <= x < 10 ^ Z.of_nat k -> (length (digits fuel x) <= k)%nat.
Proof.
  revert x k. induction fuel as [| fuel IH]; intros x k Hx; cbn; [lia |].
  destruct (x =? 0) eqn:?; zbool; cbn; [lia |].
  destruct k as [| k]; [cbn in Hx; lia |].
  rewrite Nat2Z.inj_succ, Z.pow_succ_r in Hx by lia.
  rewrite length_app. cbn. pose proof (IH (x / 10) k).
  assert (0 <= x / 10 < 10 ^ Z.of_nat k); [| lia].
  split; [apply Z.div_pos | apply Z.div_lt_upper_bound]; lia.
Qed.

Lemma length_format_010 x : 0 <= x < 10 ^ 10 -> length (format_010 x) = 10%nat.
Proof.
  intros. unfold format_010. rewrite length_app, length_replicate.
  assert (length (u64_to_string x) <= 10)%nat; [| lia].
  unfold u64_to_string. case_match; [cbn; lia |].
  apply (length_digits 20 x 10). exact H.
Qed.

Lemma parse_digits_app acc s t :
  parse_digits acc (s ++ t) =
  match parse_digits acc s with Some a => parse_digits a t | None => None end.
Proof.
  revert acc. induction s as [| c s IH]; intros acc; cbn [parse_digits app]; [done |].
  destruct (char_digit c); [| done]. cbv zeta. case_match; [apply IH | done].
Qed.

Lemma parse_digits_zeros k s :
  parse_digits 0 (replicate k (digit_char 0) ++ s) = parse_digits 0 s.
Proof.
  induction k as [| k IH]; [done |]. cbn [replicate app parse_digits].
  rewrite char_digit_char by lia. cbn -[Z.mul]. exact IH.
Qed.

Lemma parse_digits_digits fuel x :
  0 <= x < 2 ^ 64 -> x < 10 ^ Z.of_nat fuel -> parse_digits 0 (digits fuel x) = Some x.
Proof.
  revert x. induction fuel as [| fuel IH]; intros x Hx Hf.
  - cbn in *. f_equal. lia.
  - cbn [digits]. destruct (x =? 0) eqn:E; zbool; [cbn; f_equal; lia |].
    rewrite Nat2Z.inj_succ, Z.pow_succ_r in Hf by lia.
    pose proof (Z.div_mod x 10). pose proof (Z.mod_pos_bound x 10).
    rewrite parse_digits_app, IH by lia. cbn [parse_digits].
    rewrite char_digit_char by lia. cbv zeta.
    rewrite (proj2 (Z.ltb_lt _ _)) by lia. f_equal. lia.
Qed.

Lemma parse_digits_u64_to_string x :
  u64 x -> parse_digits 0 (u64_to_string x) = Some x.
Proof.
  intros Hx. unfold u64, u64_to_string in *. destruct (x =? 0) eqn:E; zbool.
  - subst. done.
  - apply parse_digits_digits; lia.
Qed.

Lemma is_digit_not_plus c : is_digit c -> c <> "+"%char.
Proof. intros [d H] ->. done. Qed.

Lemma parse_u64_format_010 x : u64 x -> parse_u64 (format_010 x) = Some x.
Proof.
  intros Hx.
  pose proof (format_010_Forall x ltac:(unfold u64 in Hx; lia)) as HF.
  pose proof (format_010_nonempty x ltac:(unfold u64 in Hx; lia)) as HN.
  assert (parse_digits 0 (format_010 x) = Some x) as HP.
  { unfold format_010. rewrite parse_digits_zeros. by apply parse_digits_u64_to_string. }
  destruct (format_010 x) as [| c s]; [done |]. unfold parse_u64.
  inv HF. rewrite bool_decide_eq_false_2 by (by apply is_digit_not_plus). exact HP.
Qed.

(** ** Strings: facts *)

Lemma split_once_app c a b :
  c ∉ a -> split_once c (a ++ c :: b) = Some (a, b).
Proof.
  induction a as [| x a IH]; intros H; cbn.
  - by rewrite bool_decide_eq_true_2.
  - rewrite not_elem_of_cons in H. destruct H as [Hx Ha].
    rewrite bool_decide_eq_false_2 by congruence. by rewrite IH.
Qed.

Lemma split_once_Some c s a b : split_once c s = Some (a, b) -> s = a ++ c :: b /\ c ∉ a.
Proof.
  revert a b. induction s as [| x s IH]; intros a b H; cbn in H; [done |].
  case_bool_decide; simplify_eq.
  - split; [done | apply not_elem_of_nil].
  - destruct (split_once c s) as [[a' b'] |]; [| done]. simplify_eq.
    destruct (IH _ _ eq_refl) as [-> ?]. split; [done |]. by apply not_elem_of_cons.
Qed.

Lemma digits_not_elem c s : Forall is_digit s -> ¬ is_digit c -> c ∉ s.
Proof. intros H Hc Hin. rewrite Forall_forall in H. by apply Hc, H. Qed.

Lemma slash_not_digit : ¬ is_digit "/"%char.
Proof. intros [d H]. done. Qed.

Lemma dash_not_digit : ¬ is_digit "-"%char.
Proof. intros [d H]. done. Qed.

Lemma str_cmp_eq a b : str_cmp a b = Eq <-> a = b.
Proof.
  revert b. induction a as [| x a IH]; intros [| y b]; cbn; try done.
  destruct (Z.compare_spec (byte_of x) (byte_of y)) as [E | L | G].
  - apply (inj byte_of) in E as ->. rewrite IH. split; [by intros -> | by intros [=]].
  - split; [done |]. intros [=]. subst. lia.
  - split; [done |]. intros [=]. subst. lia.
Qed.

Lemma str_cmp_refl a : str_cmp a a = Eq.
Proof. by apply str_cmp_eq. Qed.

Lemma str_cmp_antisym a b : str_cmp b a = CompOpp (str_cmp a b).
Proof.
  revert b. induction a as [| x a IH]; intros [| y b]; cbn; try done.
  rewrite (Z.compare_antisym (byte_of x) (byte_of y)).
  destruct (byte_of x ?= byte_of y); cbn; auto.
Qed.

Lemma str_ltb_irrefl a : str_ltb a a = false.
Proof. unfold str_ltb. by rewrite str_cmp_refl. Qed.

Lemma str_ltb_trans a b c : str_ltb a b = true -> str_ltb b c = true -> str_ltb a c = true.
Proof.
  unfold str_ltb. revert b c.
  induction a as [| x a IH]; intros [| y b] [| z c]; cbn; try done.
  destruct (Z.compare_spec (byte_of x) (byte_of y)) as [E1 | L1 | G1];
    destruct (Z.compare_spec (byte_of y) (byte_of z)) as [E2 | L2 | G2];
    intros H1 H2; try done;
    destruct (Z.compare_spec (byte_of x) (byte_of z)); try lia; try done.
  by eapply IH.
Qed.

Lemma str_ltb_total a b : a = b \/ str_ltb a b = true \/ str_ltb b a = true.
Proof.
  unfold str_ltb. rewrite (str_cmp_antisym a b).
  destruct (str_cmp a b) eqn:E; cbn; auto. left. by apply str_cmp_eq.
Qed.

(** ** Sorted slices and binary search *)

(** The elements comparing [Less] come first, then the [Equal] ones, then the
    [Greater] ones. *)
Definition cmp_sorted {A} (f : A -> comparison) (l : list A) : Prop :=
  forall i j x y, (i < j)%nat -> l !! i = Some x -> l !! j = Some y ->
    (f x = Gt -> f y = Gt) /\ (f y = Lt -> f x = Lt).

Lemma is_sorted_by_Sorted {A} (lt : A -> A -> bool) l :
  is_sorted_by lt l = true <-> Sorted (fun x y => lt x y = true) l.
Proof.
  induction l as [| x l IH]; [by split; constructor |].
  destruct l as [| y l].
  - split; [by repeat constructor | done].
  - change (is_sorted_by lt (x :: y :: l)) with (lt x y && is_sorted_by lt (y :: l)).
    rewrite andb_true_iff, IH. split.
    + intros [? ?]. constructor; [done | by constructor].
    + intros H. inv H. by inv H3.
Qed.

Lemma bsearch_loop_spec {A} (f : A -> comparison) l fuel base size :
  cmp_sorted f l -> (size <= fuel)%nat -> (1 <= size)%nat -> (base + size <= length l)%nat ->
  (base = 0%nat \/ exists x, l !! base = Some x /\ f x <> Gt) ->
  (forall j x, (base + size <= j)%nat -> l !! j = Some x -> f x = Gt) ->
  let b := bsearch_loop fuel f l base size in
  (b < length l)%nat
  /\ (b = 0%nat \/ exists x, l !! b = Some x /\ f x <> Gt)
  /\ (forall j x, (b < j)%nat -> l !! j = Some x -> f x = Gt).
Proof.
  intros Hs. revert base size.
  induction fuel as [| fuel IH]; intros base size Hf H1 Hlen Hb Ha; [lia |].
  cbn [bsearch_loop]. destruct (size <=? 1)%nat eqn:E.
  - apply Nat.leb_le in E. cbv zeta. split; [lia |]. split; [done |].
    intros. apply (Ha j); [lia | done].
  - apply Nat.leb_gt in E. cbv zeta.
    assert (1 <= Nat.div2 size < size)%nat as Hh.
    { pose proof (Nat.div2_odd size). destruct (Nat.odd size); cbn in *; lia. }
    destruct (lookup_lt_is_Some_2 l (base + Nat.div2 size)) as [m Hm]; [lia |].
    rewrite Hm. cbn [fmap option_fmap option_map].
    assert (forall j x, (base + Nat.div2 size + (size - Nat.div2 size) <= j)%nat ->
      l !! j = Some x -> f x = Gt) as Ha' by (intros; apply (Ha j); [lia | done]).
    destruct (f m) eqn:Em.
    1,2: apply IH; [lia | lia | lia | | exact Ha'];
      right; exists m; split; [done | congruence].
    assert (Nat.div2 size <= size - Nat.div2 size)%nat.
    { pose proof (Nat.div2_odd size). destruct (Nat.odd size); cbn in *; lia. }
    apply IH; [lia | lia | lia | done |]. intros j x Hj Hx.
    destruct (decide (j = base + Nat.div2 size)%nat) as [-> | Hne]; [congruence |].
    apply (Hs (base + Nat.div2 size)%nat j m x); [lia | done..].
Qed.

Lemma slice_binary_search_by_Some {A} (f : A -> comparison) l i :
  slice_binary_search_by f l = Some i -> exists x, l !! i = Some x /\ f x = Eq.
Proof.
  unfold slice_binary_search_by. destruct l as [| y l]; [done |].
  set (b := bsearch_loop _ _ _ _ _). intros H.
  destruct ((y :: l) !! b) as [x |] eqn:Hx; cbn in H; [| done].
  destruct (f x) eqn:Ef; simplify_eq. eauto.
Qed.

Lemma slice_binary_search_by_None {A} (f : A -> comparison) l :
  cmp_sorted f l -> slice_binary_search_by f l = None ->
  forall x, x ∈ l -> f x <> Eq.
Proof.
  intros Hs HN x Hin Hx. apply list_elem_of_lookup in Hin as [i Hi].
  unfold slice_binary_search_by in HN. destruct l as [| y l]; [done |].
  set (l0 := y :: l) in *.
  pose proof (bsearch_loop_spec f l0 (length l0) 0 (length l0) Hs) as Hspec.
  cbv zeta in Hspec. destruct Hspec as (Hb & Hb0 & Ha); [cbn; lia.. | by left | |].
  { intros j z Hj Hz. apply lookup_lt_Some in Hz. lia. }
  set (b := bsearch_loop _ _ _ _ _) in *.
  destruct (lookup_lt_is_Some_2 l0 b Hb) as [z Hz]. rewrite Hz in HN. cbn in HN.
  destruct (f z) eqn:Ez; [done | |].
  - destruct (Nat.lt_trichotomy i b) as [Hlt | [-> | Hgt]].
    + pose proof (Hs i b x z Hlt Hi Hz) as [_ H]. specialize (H Ez). congruence.
    + congruence.
    + specialize (Ha i x Hgt Hi). congruence.
  - destruct Hb0 as [E0 | (z' & Hz' & Hne)]; [| congruence].
    destruct (decide (i = b)) as [-> | Hne]; [congruence |].
    specialize (Ha i x ltac:(lia) Hi). congruence.
Qed.

(** ** Ordered maps *)

(** Iteration over a [BTreeMap] with integer keys, in ascending key order. *)
Definition btree_le {V} (p q : Z * V) : Prop := p.1 <= q.1.

#[global] Instance btree_le_dec {V} : RelDecision (@btree_le V).
Proof. intros p q. unfold btree_le. apply _. Defined.

Definition btree_iter {V} (m : gmap Z V) : list (Z * V) :=
  merge_sort btree_le (map_to_list m).

Lemma elem_of_btree_iter {V} (m : gmap Z V) k v : (k, v) ∈ btree_iter m <-> m !! k = Some v.
Proof.
  unfold btree_iter. rewrite (merge_sort_Permutation btree_le). apply elem_of_map_to_list.
Qed.

Lemma btree_iter_sorted {V} (m : gmap Z V) i j p q :
  (i < j)%nat -> btree_iter m !! i = Some p -> btree_iter m !! j = Some q -> p.1 < q.1.
Proof.
  intros Hij Hi Hj.
  assert (Total (@btree_le V)) by (intros ??; unfold btree_le; lia).
  assert (Transitive (@btree_le V)) by (intros ???; unfold btree_le; lia).
  pose proof (StronglySorted_merge_sort btree_le (map_to_list m)) as Hs.
  assert (NoDup (btree_iter m).*1) as Hnd.
  { unfold btree_iter. rewrite (merge_sort_Permutation btree_le). apply NoDup_fst_map_to_list. }
  assert (p.1 <= q.1) as Hle.
  { fold (btree_iter m) in Hs. rewrite <- (take_drop_middle _ _ _ Hj) in Hs.
    apply (StronglySorted_app_1_elem_of btree_le _ _ _ _ Hs); [| by left].
    apply list_elem_of_lookup. exists i. by rewrite lookup_take_lt by lia. }
  assert (p.1 <> q.1); [| lia]. intros Heq.
  assert (i = j); [| lia]. eapply (NoDup_lookup _ _ _ p.1 Hnd).
  - by rewrite list_lookup_fmap, Hi.
  - by rewrite list_lookup_fmap, Hj, Heq.
Qed.
