(* ===== verification/StrSets.v ===== *)
(** * Sorted vectors and sets of strings (the Rust standard library)

    [Vec<String>::sort] and [dedup], [BTreeSet<String>] and [str::strip_suffix],
    as the assignment converter uses them.  A sorted, deduplicated vector and
    the iteration of a set are both the strictly ascending list of their
    elements, so they can be compared by content. *)

From S2P Require Import Prelude RustStd.
From Stdlib Require Import ZArith Lia Ascii String.
From stdpp Require Import base sets strings gmap sorting relations numbers list.

Open Scope Z_scope.

(** ** Definitions *)

Definition str_le (a b : str) : Prop := str_ltb b a = false.

#[global] Instance str_le_dec : RelDecision str_le := fun a b => decide (str_ltb b a = false).

(** [slice::sort] and [Vec::dedup]. *)
Definition sort_strs (l : list str) : list str := merge_sort str_le l.

Fixpoint dedup (l : list str) : list str :=
  match l with
  | [] => []
  | x :: rest =>
    match dedup rest with
    | [] => [x]
    | (y :: _) as rest => if str_eqb x y then rest else x :: rest
    end
  end.

(** [BTreeSet::extend] and its iteration. *)
Definition btree_extend (X : gset str) (l : list str) : gset str := X ∪ list_to_set l.

Definition btree_elements (X : gset str) : list str := sort_strs (elements X).

(** [str::strip_suffix] and [str::ends_with] on a string. *)
Definition str_ends_with (s suffix : str) : bool :=
  (length suffix <=? length s)%nat
  && bool_decide (drop (length s - length suffix) s = suffix).

Definition str_strip_suffix (suffix s : str) : option str :=
  if str_ends_with s suffix then Some (take (length s - length suffix) s) else None.

(** ** Facts *)

Lemma str_le_total a b : str_le a b \/ str_le b a.
Proof.
  unfold str_le. destruct (str_ltb a b) eqn:E; [| auto]. left.
  destruct (str_ltb b a) eqn:E'; [| done].
  pose proof (str_ltb_trans _ _ _ E E'). by rewrite str_ltb_irrefl in *.
Qed.

Lemma str_le_trans a b c : str_le a b -> str_le b c -> str_le a c.
Proof.
  unfold str_le. intros H1 H2. destruct (str_ltb c a) eqn:E; [| done].
  destruct (str_ltb_total a b) as [-> | [Hab | Hba]]; [congruence | | congruence].
  pose proof (str_ltb_trans _ _ _ E Hab). congruence.
Qed.

#[global] Instance str_le_Total : Total str_le := str_le_total.
#[global] Instance str_le_Transitive : Transitive str_le := str_le_trans.

Lemma str_le_cases a b : str_le a b <-> a = b \/ str_ltb a b = true.
Proof.
  unfold str_le. split.
  - intros H. destruct (str_ltb_total a b) as [-> | [? | ?]]; auto; congruence.
  - intros [-> | H]; [apply str_ltb_irrefl |]. destruct (str_ltb b a) eqn:E; [| done].
    pose proof (str_ltb_trans _ _ _ E H). by rewrite str_ltb_irrefl in *.
Qed.

(** Strictly ascending lists. *)
Definition ascending : list str -> Prop := StronglySorted (fun a b => str_ltb a b = true).

Lemma ascending_is_sorted l : ascending l -> is_sorted_by str_ltb l = true.
Proof. intros Ha. apply is_sorted_by_Sorted. by apply StronglySorted_Sorted. Qed.

Lemma ascending_NoDup l : ascending l -> NoDup l.
Proof.
  induction 1 as [| x l Hs IH Hx]; constructor; [| done]. intros Hin.
  rewrite Forall_forall in Hx. specialize (Hx x Hin). by rewrite str_ltb_irrefl in Hx.
Qed.

Lemma sort_strs_sorted l : StronglySorted str_le (sort_strs l).
Proof. apply (StronglySorted_merge_sort str_le). Qed.

Lemma elem_of_sort_strs l x : x ∈ sort_strs l <-> x ∈ l.
Proof. unfold sort_strs. by rewrite (merge_sort_Permutation str_le). Qed.

Lemma elem_of_dedup l x : x ∈ dedup l <-> x ∈ l.
Proof.
  induction l as [| y l IH]; [done |]. cbn [dedup]. rewrite elem_of_cons, <- IH.
  destruct (dedup l) as [| z l'] eqn:E; [by rewrite elem_of_cons |].
  destruct (str_eqb y z) eqn:Ez; [| apply elem_of_cons].
  apply bool_decide_eq_true in Ez as ->. rewrite elem_of_cons. tauto.
Qed.

Lemma dedup_ascending l : StronglySorted str_le l -> ascending (dedup l).
Proof.
  induction 1 as [| x l Hs IH Hx]; cbn [dedup]; [constructor |].
  destruct (dedup l) as [| y l'] eqn:E; [repeat constructor |].
  destruct (str_eqb x y) eqn:Exy; [done |]. apply bool_decide_eq_false in Exy.
  assert (str_ltb x y = true) as Hlt.
  { rewrite Forall_forall in Hx. specialize (Hx y). rewrite <- elem_of_dedup, E in Hx.
    specialize (Hx ltac:(by left)). apply str_le_cases in Hx as [? | ?]; done. }
  constructor; [done |]. constructor; [done |]. inversion IH as [| ?? Hs' Hy]; subst.
  eapply Forall_impl; [exact Hy |]. intros z Hz. cbn in Hz. by eapply str_ltb_trans.
Qed.

Lemma sorted_NoDup_ascending l : StronglySorted str_le l -> NoDup l -> ascending l.
Proof.
  induction 1 as [| x l Hs IH Hx]; intros Hnd; [constructor |].
  apply NoDup_cons in Hnd as [Hnin Hnd]. constructor; [by apply IH |].
  rewrite Forall_forall in Hx |- *. intros y Hy.
  destruct (proj1 (str_le_cases x y) (Hx y Hy)) as [-> | ?]; [done | done].
Qed.

Lemma btree_elements_ascending X : ascending (btree_elements X).
Proof.
  apply sorted_NoDup_ascending; [apply sort_strs_sorted |]. unfold btree_elements, sort_strs.
  rewrite (merge_sort_Permutation str_le). apply NoDup_elements.
Qed.

Lemma elem_of_btree_elements X x : x ∈ btree_elements X <-> x ∈ X.
Proof. unfold btree_elements. rewrite elem_of_sort_strs. set_solver. Qed.

(** An ascending list whose elements all occur in another one is a sublist of
    it, so two such lists of the same length are equal. *)
Lemma ascending_sublist l k : ascending l -> ascending k -> l ⊆ k -> l `sublist_of` k.
Proof.
  intros Hl Hk. revert l Hl. induction Hk as [| y k Hk IH Hy]; intros l Hl Hsub.
  - destruct l as [| x l]; [constructor |]. by specialize (Hsub x ltac:(by left)) as ?%not_elem_of_nil.
  - destruct l as [| x l]; [apply sublist_nil_l |]. inversion Hl as [| ?? Hl' Hx]; subst.
    rewrite Forall_forall in Hx, Hy.
    assert (forall z, z ∈ l -> z <> y) as Hne.
    { intros z Hz ->. specialize (Hx y Hz). cbn in Hx.
      destruct (proj1 (elem_of_cons _ _ _) (Hsub x ltac:(by left))) as [-> | Hxk].
      - by rewrite str_ltb_irrefl in Hx.
      - specialize (Hy x Hxk). cbn in Hy. pose proof (str_ltb_trans _ _ _ Hx Hy).
        by rewrite str_ltb_irrefl in *. }
    assert (l ⊆ k) as Hlk.
    { intros z Hz. destruct (proj1 (elem_of_cons _ _ _) (Hsub z ltac:(by right))); [| done].
      by destruct (Hne z Hz). }
    destruct (decide (x = y)) as [-> | Hxy]; [apply sublist_skip; by apply IH |].
    apply sublist_cons, IH; [done |]. intros z [-> | Hz]%elem_of_cons; [| by apply Hlk].
    by destruct (proj1 (elem_of_cons _ _ _) (Hsub x ltac:(by left))).
Qed.

Lemma sublist_eq_length (l k : list str) : l `sublist_of` k -> (length k <= length l)%nat -> l = k.
Proof.
  induction 1 as [| x l k Hs IH | x l k Hs IH]; cbn; intros Hl; [done | |].
  - f_equal. apply IH. lia.
  - pose proof (sublist_length _ _ Hs). lia.
Qed.

Lemma str_ends_with_app a b : str_ends_with (a ++ b) b = true.
Proof.
  unfold str_ends_with. rewrite length_app, Nat.add_sub, drop_app_length.
  rewrite (proj2 (Nat.leb_le _ _)) by lia. by rewrite bool_decide_eq_true_2.
Qed.

(** [str_strip_suffix] removes exactly the suffix. *)
Lemma str_strip_suffix_Some suffix s t : str_strip_suffix suffix s = Some t <-> s = t ++ suffix.
Proof.
  unfold str_strip_suffix. split.
  - destruct (str_ends_with s suffix) eqn:E; [| done]. intros [= <-].
    unfold str_ends_with in E. zbool. apply bool_decide_eq_true in H0.
    transitivity (take (length s - length suffix) s ++ drop (length s - length suffix) s);
      [by rewrite take_drop | by rewrite H0].
  - intros ->. rewrite str_ends_with_app, length_app, Nat.add_sub, take_app_length. done.
Qed.
