(* ===== verification/DataChunk.v ===== *)
(** * Data chunk identifiers (crates/data-chunk)

    The validated chunk identifier shared by the assignments and the messages:
    its constructor, its accessors, its [Display] and its [FromStr].  The hash
    is the NUL-padded eight-byte array of the source. *)

From S2P Require Import Prelude RustStd.
From Stdlib Require Import ZArith Lia Ascii String.
From stdpp Require Import base sets strings sorting numbers list.

Open Scope Z_scope.

Definition HASH_MIN_LEN : nat := 5.
Definition HASH_MAX_LEN : nat := 8.

Record DataChunk := mkDataChunk {
  dc_top : Z;
  dc_first_block : Z;
  dc_last_block : Z;
  dc_last_hash : list Z   (* [u8; HASH_MAX_LEN] *)
}.

#[global] Instance DataChunk_eq_dec : EqDecision DataChunk.
Proof. solve_decision. Defined.

Definition is_ascii_alphanumeric (b : Z) : bool :=
  in_range 48 57 b || in_range 65 90 b || in_range 97 122 b.

Definition valid_hash (last_hash : str) : bool :=
  ((HASH_MIN_LEN <=? length last_hash)%nat && (length last_hash <=? HASH_MAX_LEN)%nat)
  && forallb (fun b => is_ascii_alphanumeric b || (b =? 95)) (as_bytes last_hash).

(** [let mut hash = [0; 8]; hash[..s.len()].copy_from_slice(s)]. *)
Definition pad_hash (bytes : list Z) : list Z :=
  bytes ++ replicate (HASH_MAX_LEN - length bytes) 0.

Definition DataChunk_new (top first_block last_block : Z) (last_hash : str)
    : option DataChunk :=
  if negb (valid_hash last_hash && (top <=? first_block) && (first_block <=? last_block))
  then None
  else Some (mkDataChunk top first_block last_block (pad_hash (as_bytes last_hash))).

(** [&bytes[..bytes.iter().position(|&b| b == 0).unwrap_or(bytes.len())]]. *)
Fixpoint trim_nul (bytes : list Z) : list Z :=
  match bytes with
  | [] => []
  | b :: bytes => if b =? 0 then [] else b :: trim_nul bytes
  end.

(** The accessor [last_hash()]; [expect] makes it a panic for bytes that are
    not UTF-8. *)
Definition last_hash {E} (c : DataChunk) : res E str :=
  expect (from_utf8 (trim_nul (dc_last_hash c))).

(** [Display]: ["{:010}/{:010}-{:010}-{}"]. *)
Definition DataChunk_to_string {E} (c : DataChunk) : res E str :=
  h ← last_hash c;
  Ok (format_010 (dc_top c) ++ "/"%char :: format_010 (dc_first_block c)
      ++ "-"%char :: format_010 (dc_last_block c) ++ "-"%char :: h).

(** [FromStr]; its error type is [()]. *)
Definition DataChunk_from_str (s : str) : res unit DataChunk :=
  '(top, range) ← ok_or (split_once "/" s) tt;
  match splitn 3 "-" range with
  | first_block :: last_block :: hash :: _ =>
    let num s := ok_or (parse_u64 s) tt in
    top ← num top;
    first_block ← num first_block;
    last_block ← num last_block;
    ok_or (DataChunk_new top first_block last_block hash) tt
  | _ => Err tt
  end.

(** The invariant of the type: what [DataChunk::new] establishes. *)
Definition DataChunk_wf (c : DataChunk) : Prop :=
  u64 (dc_top c) /\ u64 (dc_first_block c) /\ u64 (dc_last_block c)
  /\ dc_top c <= dc_first_block c <= dc_last_block c
  /\ exists h, valid_hash h = true /\ dc_last_hash c = pad_hash (as_bytes h).

(** ** Hashes *)

Definition hash_byte (b : Z) : Prop := 48 <= b <= 122.

Lemma valid_hash_bytes h :
  valid_hash h = true ->
  (5 <= length h <= 8)%nat /\ Forall hash_byte (as_bytes h).
Proof.
  unfold valid_hash. intros H. zbool. split; [done |].
  rewrite forallb_forall in H0. apply Forall_forall. intros b Hb.
  specialize (H0 b). rewrite <- list_elem_of_In in H0. specialize (H0 Hb).
  unfold is_ascii_alphanumeric, in_range, hash_byte in *.
  repeat (apply orb_true_iff in H0; destruct H0 as [H0 | H0]); zbool; lia.
Qed.

Lemma trim_nul_app l k :
  Forall (fun b => b <> 0) l -> trim_nul (l ++ replicate k 0) = l.
Proof.
  induction 1 as [| b l Hb _ IH]; cbn.
  - by destruct k.
  - by rewrite (proj2 (Z.eqb_neq b 0) Hb), IH.
Qed.

Lemma trim_pad_hash h : valid_hash h = true -> trim_nul (pad_hash (as_bytes h)) = as_bytes h.
Proof.
  intros [_ H]%valid_hash_bytes. apply trim_nul_app.
  eapply Forall_impl; [exact H |]. unfold hash_byte. lia.
Qed.

Lemma from_utf8_hash h : valid_hash h = true -> from_utf8 (as_bytes h) = Some h.
Proof.
  intros [_ H]%valid_hash_bytes. apply from_utf8_as_bytes.
  unfold as_bytes in H. rewrite Forall_fmap in H.
  eapply Forall_impl; [exact H |]. unfold hash_byte. cbn. lia.
Qed.

Lemma length_pad_hash h : valid_hash h = true -> length (pad_hash (as_bytes h)) = 8%nat.
Proof.
  intros [H _]%valid_hash_bytes. unfold pad_hash, HASH_MAX_LEN.
  rewrite length_app, length_replicate, length_as_bytes. lia.
Qed.

Lemma last_hash_pad {E} c h :
  valid_hash h = true -> dc_last_hash c = pad_hash (as_bytes h) ->
  last_hash (E := E) c = Ok h.
Proof.
  intros Hv Hc. unfold last_hash. by rewrite Hc, trim_pad_hash, from_utf8_hash.
Qed.

(** ** The constructor *)

Lemma DataChunk_new_Some top first last h c :
  DataChunk_new top first last h = Some c <->
  valid_hash h = true /\ top <= first <= last
  /\ c = mkDataChunk top first last (pad_hash (as_bytes h)).
Proof.
  unfold DataChunk_new. split.
  - case_match; [done |]. zbool. intros [= <-]. auto with lia.
  - intros (Hv & Ho & ->). rewrite Hv, !(proj2 (Z.leb_le _ _)) by lia. done.
Qed.

Lemma DataChunk_new_wf top first last h c :
  u64 top -> u64 first -> u64 last ->
  DataChunk_new top first last h = Some c -> DataChunk_wf c.
Proof.
  intros ??? (Hv & Ho & ->)%DataChunk_new_Some.
  unfold DataChunk_wf; cbn. eauto 10.
Qed.

Lemma parse_digits_u64 acc s x : u64 acc -> parse_digits acc s = Some x -> u64 x.
Proof.
  revert acc. induction s as [| c s IH]; intros acc Ha H; cbn -[Z.mul Z.ltb] in H; [congruence |].
  destruct (char_digit c) as [d |] eqn:Hd; [| done]. case_match; [| done].
  zbool. eapply IH, H. unfold u64 in *.
  unfold char_digit, in_range in Hd. case_match; [| done]. zbool. simplify_eq. lia.
Qed.

Lemma parse_u64_u64 s x : parse_u64 s = Some x -> u64 x.
Proof.
  assert (u64 0) by (unfold u64; lia).
  destruct s as [| c s]; [done |]. unfold parse_u64. intros Hp.
  case_bool_decide; [destruct s; [done |] |]; eapply parse_digits_u64; eassumption.
Qed.

(** ** Printing and parsing *)

Lemma splitn_range first last h :
  0 <= first -> 0 <= last ->
  splitn 3 "-" (format_010 first ++ "-"%char :: format_010 last ++ "-"%char :: h)
  = [format_010 first; format_010 last; h].
Proof.
  intros. cbn [splitn].
  assert (forall x, 0 <= x -> "-"%char ∉ format_010 x) as Hn.
  { intros x Hx. apply digits_not_elem; [by apply format_010_Forall | apply dash_not_digit]. }
  rewrite split_once_app by auto. by rewrite split_once_app by auto.
Qed.

Lemma DataChunk_to_string_wf {E} c :
  DataChunk_wf c -> exists h, valid_hash h = true
  /\ dc_last_hash c = pad_hash (as_bytes h)
  /\ DataChunk_to_string (E := E) c
     = Ok (format_010 (dc_top c) ++ "/"%char :: format_010 (dc_first_block c)
           ++ "-"%char :: format_010 (dc_last_block c) ++ "-"%char :: h).
Proof.
  intros (_ & _ & _ & _ & h & Hv & Hh). exists h. split; [done |]. split; [done |].
  unfold DataChunk_to_string. by rewrite (last_hash_pad c h).
Qed.

Lemma from_str_printed top first last h :
  u64 top -> u64 first -> u64 last -> valid_hash h = true -> top <= first <= last ->
  DataChunk_from_str (format_010 top ++ "/"%char :: format_010 first
                      ++ "-"%char :: format_010 last ++ "-"%char :: h)
  = Ok (mkDataChunk top first last (pad_hash (as_bytes h))).
Proof.
  intros Ht Hf Hl Hv Ho. unfold DataChunk_from_str.
  rewrite split_once_app.
  2: { apply digits_not_elem; [apply format_010_Forall; unfold u64 in *; lia |].
       apply slash_not_digit. }
  cbn -[splitn]. rewrite splitn_range by (unfold u64 in *; lia).
  rewrite !parse_u64_format_010 by done. cbn.
  by rewrite (proj2 (DataChunk_new_Some _ _ _ _ _) (conj Hv (conj Ho eq_refl))).
Qed.

Lemma from_str_wf s c : DataChunk_from_str s = Ok c -> DataChunk_wf c.
Proof.
  unfold DataChunk_from_str. intros H.
  destruct (split_once "/" s) as [[top range] |]; [| done]. cbn -[splitn] in H.
  destruct (splitn 3 "-" range) as [| f [| l [| h ?]]]; [done.. |].
  destruct (parse_u64 top) eqn:?; [| done]. cbn in H.
  destruct (parse_u64 f) eqn:?; [| done]. cbn in H.
  destruct (parse_u64 l) eqn:?; [| done]. cbn in H.
  destruct (DataChunk_new _ _ _ _) eqn:Hn; [| done]. cbn in H. simplify_eq.
  eapply DataChunk_new_wf; [.. | exact Hn]; by eapply parse_u64_u64.
Qed.

Lemma wf_print_parse c :
  DataChunk_wf c ->
  exists s, DataChunk_to_string (E := unit) c = Ok s /\ DataChunk_from_str s = Ok c.
Proof.
  intros Hwf. destruct (DataChunk_to_string_wf (E := unit) c Hwf) as (h & Hv & Hh & Hs).
  destruct Hwf as (Ht & Hf & Hl & Ho & _).
  eexists. split; [exact Hs |]. rewrite from_str_printed by done.
  rewrite <- Hh. by destruct c.
Qed.

(** A valid chunk prints without panicking, and parsing what it prints
    gives the same chunk back. *)
Theorem DataChunk_roundtrip c (Hwf : DataChunk_wf c) :
  exists s, DataChunk_to_string (E := unit) c = Ok s /\ DataChunk_from_str s = Ok c.
Proof. by apply wf_print_parse. Qed.

Definition sample_chunk : DataChunk :=
  mkDataChunk 221000000 221000000 221000649 (pad_hash (as_bytes (lit "9QgFD"))).

Lemma sample_chunk_wf : DataChunk_wf sample_chunk.
Proof.
  unfold DataChunk_wf, u64; cbn -[Z.pow]. repeat split; try lia.
  exists (lit "9QgFD"). done.
Defined.

Lemma DataChunk_roundtrip_witness :
  exists s, DataChunk_to_string (E := unit) sample_chunk = Ok s
            /\ DataChunk_from_str s = Ok sample_chunk.
Proof. exact (DataChunk_roundtrip sample_chunk sample_chunk_wf). Defined.

(** C38: Whatever string is parsed, an accepted chunk satisfies the type's
    invariant (ordered blocks that fit in [u64], a hash of 5 to 8 word
    characters), and printing it gives an id that parses to the same chunk. *)
Theorem DataChunk_from_str_sound s c (H : DataChunk_from_str s = Ok c) :
  DataChunk_wf c
  /\ exists s', DataChunk_to_string (E := unit) c = Ok s' /\ DataChunk_from_str s' = Ok c.
Proof.
  pose proof (from_str_wf _ _ H) as Hwf. split; [done | by apply wf_print_parse].
Qed.

Lemma DataChunk_from_str_sound_witness :
  DataChunk_wf (mkDataChunk 0 5 9 (pad_hash (as_bytes (lit "ab_de")))) /\
  exists s', DataChunk_to_string (E := unit) (mkDataChunk 0 5 9 (pad_hash (as_bytes (lit "ab_de")))) = Ok s'
    /\ DataChunk_from_str s' = Ok (mkDataChunk 0 5 9 (pad_hash (as_bytes (lit "ab_de")))).
Proof. apply (DataChunk_from_str_sound (lit "0/5-9-ab_de")). reflexivity. Defined.
