(* ===== verification/Search.v ===== *)
(** * The searches of the assignment readers (crates/assignments/src/reader.rs)

    [partition_point], [lookup_index_by_key] and [binary_search_by], with the
    loops bounded by the length of the searched vector.  The callbacks may
    panic: an out-of-range [Vector::get] does, and so does the comparison of
    [get_worker] on an unreadable peer id. *)

From S2P Require Import Prelude RustStd.
From Stdlib Require Import ZArith Lia Ascii String.
From stdpp Require Import base sets strings sorting numbers list.

(** [Vector::get] asserts that the index is in range. *)
Definition vget {E A} (v : list A) (i : nat) : res E A := expect (v !! i).

(** [while low < high]: each round shrinks [high - low]. *)
Fixpoint partition_point_loop {E} (fuel : nat) (pred : nat -> res E bool)
    (low high : nat) : res E nat :=
  match fuel with
  | O => Ok low
  | S fuel =>
    if (low <? high)%nat then
      let mid := (low + (high - low) / 2)%nat in
      b ← pred mid;
      if b : bool then partition_point_loop fuel pred (mid + 1) high
      else partition_point_loop fuel pred low mid
    else Ok low
  end.

Definition partition_point {E} (len : nat) (pred : nat -> res E bool) : res E nat :=
  partition_point_loop (S len) pred 0 len.

Fixpoint lookup_index_loop {E A} (fuel : nat) (v : list A) (f : A -> res E comparison)
    (left right : nat) : res E (option nat) :=
  match fuel with
  | O => Ok None
  | S fuel =>
    if (left <=? right)%nat then
      let mid := ((left + right) / 2)%nat in
      value ← vget v mid;
      o ← f value;
      match o with
      | Eq => Ok (Some mid)
      | Lt => lookup_index_loop fuel v f (mid + 1) right
      | Gt => if (mid =? 0)%nat then Ok None
              else lookup_index_loop fuel v f left (mid - 1)
      end
    else Ok None
  end.

Definition lookup_index_by_key {E A} (v : list A) (f : A -> res E comparison)
    : res E (option nat) :=
  if (length v =? 0)%nat then Ok None
  else lookup_index_loop (S (length v)) v f 0 (length v - 1).

(** [left] and [right] are [isize] values, [left] starting at -1; the division
    truncates.  The inner [sum] is the source's [Result<usize, Option<usize>>]. *)
Fixpoint binary_search_loop {E A} (fuel : nat) (v : list A) (cmp : A -> comparison)
    (left right : Z) : res E (nat + option nat) :=
  let exit := Ok (inr (if (left =? -1)%Z then None else Some (Z.to_nat left))) in
  match fuel with
  | O => exit
  | S fuel =>
    if (left + 1 <? right)%Z then
      let mid := ((left + right) ÷ 2)%Z in
      item ← vget v (Z.to_nat mid);
      match cmp item with
      | Lt => binary_search_loop fuel v cmp mid right
      | Gt => binary_search_loop fuel v cmp left mid
      | Eq => Ok (inl (Z.to_nat mid))
      end
    else exit
  end.

Definition binary_search_by {E A} (v : list A) (cmp : A -> comparison)
    : res E (nat + option nat) :=
  binary_search_loop (S (length v)) v cmp (-1) (Z.of_nat (length v)).

(** ** Loop invariants *)

Lemma vget_Some {E A} (v : list A) i x : v !! i = Some x -> vget (E := E) v i = Ok x.
Proof. unfold vget. by intros ->. Qed.

Lemma vget_Ok {E A} (v : list A) i x : vget (E := E) v i = Ok x -> v !! i = Some x.
Proof. unfold vget. destruct (v !! i); naive_solver. Qed.

Lemma vget_lt {E A} (v : list A) i :
  (i < length v)%nat -> exists x, v !! i = Some x /\ vget (E := E) v i = Ok x.
Proof. intros [x Hx]%lookup_lt_is_Some_2. exists x. auto using vget_Some. Qed.

Lemma mid_between low high :
  (low < high)%nat -> (low <= low + (high - low) / 2 < high)%nat.
Proof.
  intros. assert ((high - low) / 2 < high - low)%nat; [apply Nat.div_lt; lia | lia].
Qed.

Lemma partition_point_loop_spec {E} (pred : nat -> res E bool) (g : nat -> bool) len fuel low high :
  (forall i, (i < len)%nat -> pred i = Ok (g i)) ->
  (high - low < fuel)%nat -> (low <= high <= len)%nat ->
  (low = 0%nat \/ g (low - 1) = true) -> (high = len \/ g high = false) ->
  exists k, partition_point_loop fuel pred low high = Ok k
  /\ (low <= k <= high)%nat
  /\ (k = 0%nat \/ g (k - 1) = true) /\ (k = len \/ g k = false).
Proof.
  intros Hp. revert low high.
  induction fuel as [| fuel IH]; intros low high Hf Hle Hl Hh; [lia |].
  cbn [partition_point_loop]. destruct (low <? high)%nat eqn:E1; zbool.
  - pose proof (mid_between low high E1) as Hm. cbv zeta.
    set (mid := (low + (high - low) / 2)%nat) in *. clearbody mid.
    rewrite (Hp mid) by lia. cbn. destruct (g mid) eqn:Eg.
    + destruct (IH (mid + 1)%nat high) as (k & ? & ? & ? & ?); [lia | lia | | done |].
      { right. by replace (mid + 1 - 1)%nat with mid by lia. }
      exists k. split; [done |]. split; [lia |]. done.
    + destruct (IH low mid) as (k & ? & ? & ? & ?); [lia | lia | done | by right |].
      exists k. split; [done |]. split; [lia |]. done.
  - exists low. replace high with low in * by lia. auto with lia.
Qed.

Lemma partition_point_boundary {E} (pred : nat -> res E bool) (g : nat -> bool) len :
  (forall i, (i < len)%nat -> pred i = Ok (g i)) ->
  exists k, partition_point len pred = Ok k /\ (k <= len)%nat
  /\ (k = 0%nat \/ g (k - 1) = true) /\ (k = len \/ g k = false).
Proof.
  intros Hp. destruct (partition_point_loop_spec pred g len (S len) 0 len Hp)
    as (k & ? & ? & ? & ?); [lia | lia | by left | by left |].
  exists k. split; [done |]. auto with lia.
Qed.

(** Uniqueness of the boundary of a predicate that holds on a prefix only. *)
Lemma partition_point_prefix {E} (pred : nat -> res E bool) (g : nat -> bool) len :
  (forall i, (i < len)%nat -> pred i = Ok (g i)) ->
  (forall i j, (i <= j < len)%nat -> g j = true -> g i = true) ->
  exists k, partition_point len pred = Ok k /\ (k <= len)%nat
  /\ (forall i, (i < len)%nat -> g i = true <-> (i < k)%nat).
Proof.
  intros Hp Hm. destruct (partition_point_boundary pred g len Hp) as (k & Hk & Hle & Hlo & Hhi).
  exists k. split; [done |]. split; [done |]. intros i Hi. split.
  - intros Hg. destruct (decide (i < k)%nat) as [? | Hn]; [done |].
    destruct Hhi as [-> | Hf]; [lia |].
    rewrite (Hm k i) in Hf; [done | lia | done].
  - intros Hik. destruct Hlo as [-> | Ht]; [lia |]. apply (Hm i (k - 1)%nat); [lia | done].
Qed.

Lemma lookup_index_loop_spec {E A} (v : list A) (f : A -> res E comparison)
    (g : A -> comparison) fuel left right :
  (forall x, x ∈ v -> f x = Ok (g x)) -> cmp_sorted g v ->
  (right < length v)%nat -> (right + 1 - left < fuel)%nat -> (left <= right + 1)%nat ->
  (forall i x, (i < left)%nat -> v !! i = Some x -> g x = Lt) ->
  (forall i x, (right < i)%nat -> v !! i = Some x -> g x = Gt) ->
  exists o, lookup_index_loop fuel v f left right = Ok o /\
  match o with
  | Some i => exists x, v !! i = Some x /\ g x = Eq
  | None => forall x, x ∈ v -> g x <> Eq
  end.
Proof.
  intros Hf Hs. revert left right.
  induction fuel as [| fuel IH]; intros left right Hr Hfu Hle Hlt Hgt; [lia |].
  cbn [lookup_index_loop]. destruct (left <=? right)%nat eqn:E1; zbool.
  - cbv zeta. set (mid := ((left + right) / 2)%nat).
    assert (left <= mid <= right)%nat as Hm.
    { split; [apply Nat.div_le_lower_bound | apply Nat.div_le_upper_bound]; lia. }
    clearbody mid.
    destruct (vget_lt (E := E) v mid) as (x & Hx & ->); [lia |]. cbn.
    rewrite (Hf x) by (by eapply list_elem_of_lookup_2). cbn.
    destruct (g x) eqn:Eg.
    + exists (Some mid). eauto.
    + apply IH; [lia | lia | lia | | done]. intros i y Hi Hy.
      destruct (decide (i = mid)) as [-> | ?]; [congruence |].
      apply (Hs i mid y x); [lia | done..].
    + assert (forall i y, (mid <= i)%nat -> v !! i = Some y -> g y = Gt) as Hgt'.
      { intros i y Hi Hy. destruct (decide (i = mid)) as [-> | ?]; [congruence |].
        apply (Hs mid i x y); [lia | done..]. }
      destruct (mid =? 0)%nat eqn:E0; zbool.
      * exists None. split; [done |]. intros y Hy. apply list_elem_of_lookup in Hy as [i Hi].
        rewrite (Hgt' i y); [done | lia | done].
      * apply IH; [lia | lia | lia | done |]. intros i y Hi. apply Hgt'. lia.
  - exists None. split; [done |]. intros y Hy. apply list_elem_of_lookup in Hy as [i Hi].
    destruct (decide (i < left)%nat) as [Hlow |].
    + rewrite (Hlt i y Hlow Hi). done.
    + rewrite (Hgt i y ltac:(lia) Hi). done.
Qed.

Lemma lookup_index_by_key_ok {E A} (v : list A) (f : A -> res E comparison) (g : A -> comparison) :
  (forall x, x ∈ v -> f x = Ok (g x)) -> cmp_sorted g v ->
  exists o, lookup_index_by_key v f = Ok o /\
  match o with
  | Some i => exists x, v !! i = Some x /\ g x = Eq
  | None => forall x, x ∈ v -> g x <> Eq
  end.
Proof.
  intros Hf Hs. unfold lookup_index_by_key. destruct (length v =? 0)%nat eqn:E0; zbool.
  - exists None. split; [done |]. apply nil_length_inv in E0 as ->.
    intros x Hx. by apply elem_of_nil in Hx.
  - eapply lookup_index_loop_spec; [done | done | lia | lia | lia | lia |].
    intros i x Hi Hx. apply lookup_lt_Some in Hx. lia.
Qed.

(** What [binary_search_by] promises for each of its three answers. *)
Definition search_answer {A} (v : list A) (cmp : A -> comparison) (r : nat + option nat) : Prop :=
  match r with
  | inl i => exists x, v !! i = Some x /\ cmp x = Eq
  | inr (Some i) =>
    (exists x, v !! i = Some x /\ cmp x = Lt)
    /\ (forall j x, (j < i)%nat -> v !! j = Some x -> cmp x = Lt)
    /\ forall j x, (i < j)%nat -> v !! j = Some x -> cmp x = Gt
  | inr None => forall x, x ∈ v -> cmp x = Gt
  end.

Lemma binary_search_loop_spec {E A} (v : list A) (cmp : A -> comparison) fuel left right :
  cmp_sorted cmp v ->
  (-1 <= left < right)%Z -> (right <= Z.of_nat (length v))%Z ->
  (right - left <= Z.of_nat fuel)%Z ->
  (left = -1 \/ exists x, v !! Z.to_nat left = Some x /\ cmp x = Lt)%Z ->
  (forall j x, (right <= Z.of_nat j)%Z -> v !! j = Some x -> cmp x = Gt) ->
  exists r, binary_search_loop (E := E) fuel v cmp left right = Ok r /\ search_answer v cmp r.
Proof.
  intros Hs. revert left right.
  induction fuel as [| fuel IH]; intros left right Hb Hr Hf Hl Hg; [lia |].
  cbn [binary_search_loop]. destruct (left + 1 <? right)%Z eqn:E1; zbool.
  - cbv zeta. set (mid := ((left + right) ÷ 2)%Z).
    assert (left < mid < right)%Z as Hm.
    { unfold mid. rewrite Z.quot_div_nonneg by lia.
      split; [apply Z.lt_le_trans with (left + 1)%Z; [lia | apply Z.div_le_lower_bound; lia]
             | apply Z.div_lt_upper_bound; lia]. }
    clearbody mid.
    destruct (vget_lt (E := E) v (Z.to_nat mid)) as (x & Hx & ->); [lia |]. cbn.
    destruct (cmp x) eqn:Ec.
    + eexists. split; [done |]. cbn. eauto.
    + apply IH; [lia | lia | lia | right; eauto | done].
    + apply IH; [lia | lia | lia | done |]. intros j y Hj Hy.
      destruct (decide (j = Z.to_nat mid)) as [-> | ?]; [congruence |].
      apply (Hs (Z.to_nat mid) j x y); [lia | done..].
  - destruct (left =? -1)%Z eqn:E2; zbool; (eexists; split; [done |]); cbn.
    + intros x Hx. apply list_elem_of_lookup in Hx as [j Hj]. apply (Hg j); [lia | done].
    + destruct Hl as [? | Hl]; [done |]. split; [done |].
      destruct Hl as (y & Hy & Ey). split; intros j x Hj Hx.
      * by apply (Hs j (Z.to_nat left) x y).
      * apply (Hg j); [lia | done].
Qed.

Lemma binary_search_by_ok {E A} (v : list A) (cmp : A -> comparison) :
  cmp_sorted cmp v ->
  exists r, binary_search_by (E := E) v cmp = Ok r /\ search_answer v cmp r.
Proof.
  intros Hs. apply binary_search_loop_spec; [done | lia | lia | lia | by left |].
  intros j x Hj Hx. apply lookup_lt_Some in Hx. lia.
Qed.

(** ** Sortedness of vectors with ascending keys *)

Lemma cmp_sorted_Z {A} (key : A -> Z) (v : list A) (k : Z) :
  (forall i j x y, (i < j)%nat -> v !! i = Some x -> v !! j = Some y -> (key x <= key y)%Z) ->
  cmp_sorted (fun x => Z.compare (key x) k) v.
Proof.
  intros Hs i j x y Hij Hx Hy. specialize (Hs i j x y Hij Hx Hy).
  rewrite !Z.compare_gt_iff, !Z.compare_lt_iff. lia.
Qed.

(** [partition_point] terminates without panicking whenever its predicate
    answers on every index, and for a predicate that holds on a prefix only the
    result is the length of that prefix.  Without that assumption it is still a
    boundary of the predicate: the index before it satisfies it and the index
    itself does not. *)
Theorem partition_point_correct {E} (pred : nat -> res E bool) (g : nat -> bool) (len : nat)
    (Hp : forall i, (i < len)%nat -> pred i = Ok (g i)) :
  exists k, partition_point len pred = Ok k /\ (k <= len)%nat
  /\ (k = 0%nat \/ g (k - 1) = true) /\ (k = len \/ g k = false)
  /\ ((forall i j, (i <= j < len)%nat -> g j = true -> g i = true) ->
      forall i, (i < len)%nat -> g i = true <-> (i < k)%nat).
Proof.
  destruct (partition_point_boundary pred g len Hp) as (k & Hk & ? & ? & ?).
  exists k. do 4 (split; [done |]). intros Hm.
  destruct (partition_point_prefix pred g len Hp Hm) as (k' & Hk' & _ & ?).
  assert (k = k') as -> by congruence. done.
Qed.

Lemma partition_point_correct_witness :
  exists k, partition_point (E := unit) 5 (fun i => Ok (i <? 3)%nat) = Ok k /\ (k <= 5)%nat
  /\ (k = 0%nat \/ (k - 1 <? 3)%nat = true) /\ (k = 5%nat \/ (k <? 3)%nat = false)
  /\ ((forall i j, (i <= j < 5)%nat -> (j <? 3)%nat = true -> (i <? 3)%nat = true) ->
      forall i, (i < 5)%nat -> (i <? 3)%nat = true <-> (i < k)%nat).
Proof.
  apply (partition_point_correct (E := unit) (fun i => Ok (i <? 3)%nat) (fun i => (i <? 3)%nat) 5).
  reflexivity.
Defined.
