(* ===== verification/AssignmentFb.v ===== *)
(** * What the assignment builders and readers share (crates/assignments)

    The tables of schema/*.fbs as records, the conversions of
    assignment_fb.rs, and the helpers of builder.rs and reader.rs that both
    split formats use: chunk hashes, top runs, CSR slices and chunk ids.

    Here a table is the record of its fields and a [WIPOffset] the value it
    points to.  Serialisation is a type class, [Flatbuffer], which the generated
    code over the FlatBuffers library implements ([AssignmentGen] to
    [WireProps]); [Vector::lookup_by_key] and [PeerId] of libp2p are not part of
    the sources and are type classes whose laws are their documented
    behaviour. *)

From S2P Require Import Prelude RustStd DataChunk Search.
From Stdlib Require Import ZArith Lia Ascii String.
From stdpp Require Import base sets strings gmap sorting numbers list.

Open Scope Z_scope.

(** ** Third-party interfaces *)

(** libp2p's [PeerId]. *)
Class PeerIdOps := {
  PeerId : Type;
  peer_to_bytes : PeerId -> list Z;
  peer_from_bytes : list Z -> option PeerId;
  peer_to_string : PeerId -> str;
  peer_cmp : PeerId -> PeerId -> comparison
}.

Class PeerIdLaws `{PeerIdOps} := {
  peer_from_to_bytes p : peer_from_bytes (peer_to_bytes p) = Some p;
  peer_cmp_eq p q : peer_cmp p q = Eq <-> p = q;
  peer_cmp_antisym p q : peer_cmp q p = CompOpp (peer_cmp p q);
  peer_cmp_trans p q r : peer_cmp p q = Lt -> peer_cmp q r = Lt -> peer_cmp p r = Lt
}.

(** Finishing a buffer with a root table, and verifying and following one.  The
    law is for the records whose numbers are in the range of their Rust types
    and whose buffer is within the limits of the verifier; the generated code
    satisfies it ([WireProps]). *)
Class Flatbuffer (T : Type) := {
  fb_typed : T -> Prop;
  fb_finish : T -> list Z;
  fb_root : list Z -> option T
}.

Class FlatbufferLaws T `{Flatbuffer T} :=
  fb_root_finish (t : T) : fb_typed t -> fb_root (fb_finish t) = Some t.

(** [Vector::lookup_by_key]: a search of a vector sorted by its key. *)
Class VectorLookup :=
  lookup_by_key : forall {A}, list A -> (A -> comparison) -> option A.

Class VectorLookupLaws `{VectorLookup} := {
  lookup_by_key_Some {A} (v : list A) f x :
    lookup_by_key v f = Some x -> x ∈ v /\ f x = Eq;
  lookup_by_key_None {A} (v : list A) f :
    cmp_sorted f v -> lookup_by_key v f = None -> forall x, x ∈ v -> f x <> Eq
}.

(** ** Data *)

Inductive WorkerStatus := StatusOk | Unreliable | DeprecatedVersion | UnsupportedVersion.

#[global] Instance WorkerStatus_eq_dec : EqDecision WorkerStatus.
Proof. solve_decision. Defined.

Record TopRun := mkTopRun { first_chunk_index : Z; run_top : Z }.

Record EncryptedHeaders := mkEncryptedHeaders {
  identity : list Z; nonce : list Z; ciphertext : list Z }.

(** [WorkerId] is the 38 bytes of a peer id; the status byte of the buffer may
    hold values the enum does not name. *)
Record WorkerEntry := mkWorkerEntry {
  we_worker_id : list Z; we_status : Z; we_encrypted_headers : option EncryptedHeaders }.

Record PortalEntry := mkPortalEntry { pe_worker_id : list Z; pe_status : Z }.

Definition status_to_fb (status : WorkerStatus) : Z :=
  match status with
  | StatusOk => 0
  | Unreliable => 1
  | DeprecatedVersion => 2
  | UnsupportedVersion => 3
  end.

Definition status_from_fb (status : Z) : WorkerStatus :=
  if status =? 0 then StatusOk
  else if status =? 1 then Unreliable
  else if status =? 2 then DeprecatedVersion
  else if status =? 3 then UnsupportedVersion
  else UnsupportedVersion.

(** [From<PeerId> for WorkerId] and [TryInto<PeerId> for WorkerId]. *)
Definition WorkerId_from `{BuildProfile, PeerIdOps} {E} (peer_id : PeerId) : res E (list Z) :=
  let buf := peer_to_bytes peer_id in
  if (length buf <? 38)%nat then Panic
  else if debug_assertions && negb (length (drop 38 buf) =? 0)%nat then Panic
  else Ok (take 38 buf).

Definition WorkerId_try_into `{PeerIdOps} (w : list Z) : option PeerId := peer_from_bytes w.

(** ** Chunk ids and urls *)

(** [while rest > 0]: at most ten rounds for a value below [PAD]. *)
Fixpoint pad_loop {E} (fuel : nat) (digits : list Z) (rest : Z) (at_ : nat) : res E (list Z) :=
  match fuel with
  | O => Ok digits
  | S fuel =>
    if 0 <? rest then
      match at_ with
      | O => Panic
      | S at_ => pad_loop fuel (<[at_ := 48 + rest mod 10]> digits) (rest / 10) at_
      end
    else Ok digits
  end.

Definition PAD : Z := 10000000000.

Definition push_padded {E} (out : str) (value : Z) : res E str :=
  if PAD <=? value then Ok (out ++ u64_to_string value)
  else
    digits ← pad_loop 20 (replicate 10 48) value 10;
    s ← expect (from_utf8 digits);
    Ok (out ++ s).

Definition push_chunk_id {E} (out : str) (top first_block last_block : Z) (hash : str)
    : res E str :=
  out ← push_padded out top;
  out ← push_padded (out ++ ["/"%char]) first_block;
  out ← push_padded (out ++ ["-"%char]) last_block;
  Ok (out ++ ["-"%char] ++ hash).

Definition push_segment (url segment : str) : str :=
  (if negb (ends_with "/" url) then url ++ ["/"%char] else url)
  ++ trim_start_matches "/" segment.

(** [chunk_hash] of builder.rs, and the NUL-trimmed reading of a [ChunkHash]. *)
Definition chunk_hash {E} (id : DataChunk) : res E (list Z) :=
  h ← last_hash id;
  Ok (pad_hash (as_bytes h)).

Definition read_hash (hash : list Z) : option str := from_utf8 (trim_nul hash).

(** ** Columns *)

(** A run is appended only when the chunk's top differs from the last run's. *)
Definition push_top (tops : list TopRun) (index t : Z) : list TopRun :=
  match last tops with
  | Some run => if run_top run =? t then tops else tops ++ [mkTopRun index t]
  | None => tops ++ [mkTopRun index t]
  end.

Inductive BuildError :=
| NoTopRun | FirstRunNotAtZero | RunsNotAscending
| EmptyDataset
| NotContiguous (last start : Z)
| TooManyChunks | ChunkTooLong | TooManyWorkerRefs
| ChunkIdUnset | ChunkIdMismatch
| SchemaUnset | SchemaUnregistered | RosterUnsorted | RosterChanged
| TableAbsent | BitmapSchemaMismatch
| VersionZeroGeneration | GenerationChanged | GenerationUnregistered.

Fixpoint check_ascending (runs : list TopRun) : res BuildError unit :=
  match runs with
  | r0 :: ((r1 :: _) as rest) =>
    ensure (first_chunk_index r0 <? first_chunk_index r1) RunsNotAscending;;
    check_ascending rest
  | _ => Ok tt
  end.

Definition check_top_runs (runs : list TopRun) : res BuildError unit :=
  match runs with
  | [] => Err NoTopRun
  | first :: _ =>
    ensure (first_chunk_index first =? 0) FirstRunNotAtZero;;
    check_ascending runs
  end.

(** The last run starting at or before [index] ([top_at] of both datasets). *)
Definition top_at {E} (tops : list TopRun) (index : Z) : res E (option Z) :=
  above ← partition_point (length tops)
            (fun i => run ← vget tops i; Ok (first_chunk_index run <=? index));
  match above with
  | O => Ok None
  | S k => run ← vget tops k; Ok (Some (run_top run))
  end.

(** A leading 0, so slot i is the start of chunk i's slice and slot i+1 its end. *)
Definition csr_offsets (ends : list Z) : list Z := 0 :: ends.

(** [(start..end.min(xs.len())).map(|i| xs.get(i))]: a reversed range is empty. *)
Definition slice_range {A} (xs : list A) (start end_ : nat) : list A :=
  take (Nat.min end_ (length xs) - start) (drop start xs).

(** The slice of chunk [index] of a CSR column, as [worker_indexes] reads it. *)
Definition csr_slice {E A} (offsets : list Z) (xs : list A) (index : Z) : res E (list A) :=
  start ← vget offsets (Z.to_nat index);
  end_ ← vget offsets (Z.to_nat index + 1);
  Ok (slice_range xs (Z.to_nat start) (Z.to_nat end_)).

(** ** Column checks of the readers *)

Inductive ColumnsDetail :=
| HoldsOf (name : string) (len chunks : nat)
| EmptyRuns (name : string)
| RunsStartAt (name : string) (first : Z).

Inductive InvalidAssignment :=
| InvalidFlatbuffer
| Columns (dataset : str) (detail : ColumnsDetail).

Fixpoint check_dense (dataset : str) (chunks : nat) (dense : list (string * nat))
    : res InvalidAssignment unit :=
  match dense with
  | [] => Ok tt
  | (name, len) :: dense =>
    if negb (len =? chunks)%nat then Err (Columns dataset (HoldsOf name len chunks))
    else check_dense dataset chunks dense
  end.

Fixpoint check_runs (dataset : str) (runs : list (string * option Z))
    : res InvalidAssignment unit :=
  match runs with
  | [] => Ok tt
  | (name, None) :: _ => Err (Columns dataset (EmptyRuns name))
  | (name, Some first) :: runs =>
    if negb (first =? 0) then Err (Columns dataset (RunsStartAt name first))
    else check_runs dataset runs
  end.

Definition check_columns (dataset : str) (chunks : nat) (dense : list (string * nat))
    (runs : list (string * option Z)) : res InvalidAssignment unit :=
  check_dense dataset chunks dense;; check_runs dataset runs.

Record ChunkRef := mkChunkRef { dataset_index : Z; chunk_index : Z }.

Inductive ChunkNotFound := UnknownDataset | BeforeFirst | AfterLast | InGap.

(** ** Statuses and worker ids *)

Lemma status_roundtrip s : status_from_fb (status_to_fb s) = s.
Proof. by destruct s. Qed.

Lemma WorkerId_roundtrip `{BuildProfile, PeerIdOps, !PeerIdLaws} {E} p w :
  length (peer_to_bytes p) = 38%nat ->
  WorkerId_from (E := E) p = Ok w -> WorkerId_try_into w = Some p.
Proof.
  unfold WorkerId_from, WorkerId_try_into. intros Hl. rewrite Hl. cbn.
  rewrite (drop_ge (peer_to_bytes p) 38) by lia. cbn. rewrite andb_false_r.
  intros [= <-]. rewrite take_ge by lia. apply peer_from_to_bytes.
Qed.
