(* ===== verification/Sealing.v ===== *)
(** * Sealed storage headers (crates/assignments/src/signatures.rs and the
    header functions of builder.rs and reader.rs)

    The scheduler seals to each worker a JSON object holding the worker's id
    and a timed HMAC of it; the worker opens it with its own key.  The
    primitives (NaCl boxes, curve conversions, hashes, base64, JSON) are
    third-party code and enter as a class of operations; the class of laws says
    what their documentation promises. *)

From S2P Require Import Prelude RustStd DataChunk Search AssignmentFb.
From Stdlib Require Import ZArith Lia Ascii String.
From stdpp Require Import base sets strings gmap sorting numbers list.

Open Scope Z_scope.

(** [json_from_str] answers [None] for text that is not JSON, [Some None] for
    JSON that is not an object, and otherwise the entries of the object, each
    with its string if its value is one. *)
Class CryptoOps := {
  Rng : Type;
  SecretKey : Type;
  PublicKey : Type;
  CompressedEdwardsY : Type;
  EdwardsPoint : Type;
  Keypair : Type;
  generate_key : Rng -> SecretKey * Rng;
  public_key : SecretKey -> PublicKey;
  pk_as_bytes : PublicKey -> list Z;
  pk_from_slice : list Z -> option PublicKey;
  sk_from_slice : list Z -> option SecretKey;
  edwards_from_slice : list Z -> option CompressedEdwardsY;
  decompress : CompressedEdwardsY -> option EdwardsPoint;
  montgomery_key : EdwardsPoint -> PublicKey;
  generate_nonce : Rng -> list Z * Rng;
  box_encrypt : PublicKey -> SecretKey -> list Z -> list Z -> option (list Z);
  box_decrypt : PublicKey -> SecretKey -> list Z -> list Z -> option (list Z);
  hmac_sha256 : list Z -> list Z -> list Z;
  sha512 : list Z -> list Z;
  base64_encode : list Z -> str;
  byte_serialize : list Z -> str;
  ed25519_secret : Keypair -> option (list Z);
  json_from_str : str -> option (option (list (str * option str)))
}.

Inductive SealError :=
| WorkerIdParse | BadEdwardsSlice | DecompressFailed | EncryptFailed
| NotEd25519 | HeadersMissing | BadPublicKey | BadSecretKey | DecryptFailed
| PlaintextNotUtf8 | NotJson | NotJsonObject.

Section sealing.
Context `{PeerIdOps, CryptoOps}.

(** The random generator's new state is returned beside the outcome. *)
Definition encrypt_with_rng (worker_id : PeerId) (secret_key : SecretKey) (plaintext : list Z)
    (rng : Rng) : res SealError (list Z * list Z) * Rng :=
  let peer_id_decoded := peer_to_bytes worker_id in
  if negb (length peer_id_decoded =? 38)%nat then (Err WorkerIdParse, rng)
  else
    match edwards_from_slice (drop 6 peer_id_decoded) with
    | None => (Err BadEdwardsSlice, rng)
    | Some compressed =>
      match decompress compressed with
      | None => (Err DecompressFailed, rng)
      | Some point =>
        let worker_public_key := montgomery_key point in
        let '(nonce, rng) := generate_nonce rng in
        match box_encrypt worker_public_key secret_key nonce plaintext with
        | None => (Err EncryptFailed, rng)
        | Some ciphertext => (Ok (ciphertext, nonce), rng)
        end
      end
    end.

Definition timed_hmac (message secret : str) (timestamp : Z) : str :=
  let digest := hmac_sha256 (as_bytes secret) (as_bytes (message ++ u64_to_string timestamp)) in
  let token := byte_serialize (as_bytes (base64_encode digest)) in
  u64_to_string timestamp ++ "-"%char :: token.

(** [_encrypt] draws from the generator of the system, [_timed_hmac_now] reads the
    clock, which panics before the epoch; seconds fit a [usize] of 64 bits. *)
Definition _encrypt (os_rng : Rng) (worker_id : PeerId) (secret_key : SecretKey) (plaintext : list Z)
  : res SealError (list Z * list Z) * Rng := encrypt_with_rng worker_id secret_key plaintext os_rng.

Definition _timed_hmac_now {E : Type} (now : Z) (message secret : str) : res E str :=
  if now <? 0 then Panic else Ok (timed_hmac message secret now).

Definition dquote : ascii := ascii_of_nat 34.

(** The format string of [generate_encrypted_headers]. *)
Definition header_json (id worker_signature : str) : str :=
  "{"%char :: dquote :: lit "worker-id" ++ [dquote; ":"%char; dquote] ++ id
  ++ [dquote; ","%char; dquote] ++ lit "worker-signature" ++ [dquote; ":"%char; dquote]
  ++ worker_signature ++ [dquote; "}"%char].

Definition decrypt_headers (headers : option EncryptedHeaders) (key : Keypair)
    : res SealError (gmap str str) :=
  secret_key ← ok_or (ed25519_secret key) NotEd25519;
  headers ← ok_or headers HeadersMissing;
  common_public_key ← ok_or (pk_from_slice (identity headers)) BadPublicKey;
  let secret_hash := sha512 secret_key in
  worker_secret_key ← ok_or (sk_from_slice (take 32 secret_hash)) BadSecretKey;
  (* [GenericArray::from_slice] asserts the nonce's length *)
  assert (length (nonce headers) =? 24)%nat;;
  plaintext_bytes ← ok_or (box_decrypt common_public_key worker_secret_key (nonce headers)
                             (ciphertext headers)) DecryptFailed;
  plaintext ← ok_or (from_utf8 plaintext_bytes) PlaintextNotUtf8;
  json ← ok_or (json_from_str plaintext) NotJson;
  entries ← ok_or json NotJsonObject;
  Ok (foldl (fun m '(k, v) =>
        match v with Some v => <[k := v]> m | None => m end) ∅ entries).

(** Characters a JSON string holds unescaped. *)
Definition json_plain (c : ascii) : Prop :=
  32 <= byte_of c < 128 /\ c <> dquote /\ c <> "\"%char.

(** [worker_peer key] is the peer id of a key pair. *)
Class CryptoLaws (worker_peer : Keypair -> PeerId) := {
  box_open pk_of sk n m c :
    box_encrypt (public_key pk_of) sk n m = Some c ->
    box_decrypt (public_key sk) pk_of n c = Some m;
  pk_bytes_roundtrip pk : pk_from_slice (pk_as_bytes pk) = Some pk;
  nonce_length rng : length (generate_nonce rng).1 = 24%nat;
  (* the Montgomery form of an ed25519 public key belongs to the first half of
     the hash of its secret *)
  worker_keys key s :
    ed25519_secret key = Some s ->
    exists y p sk,
      length (peer_to_bytes (worker_peer key)) = 38%nat
      /\ edwards_from_slice (drop 6 (peer_to_bytes (worker_peer key))) = Some y
      /\ decompress y = Some p
      /\ sk_from_slice (take 32 (sha512 s)) = Some sk
      /\ montgomery_key p = public_key sk;
  peer_string_plain p : Forall json_plain (peer_to_string p);
  byte_serialize_plain l : Forall json_plain (byte_serialize l);
  json_of_headers id sig :
    Forall json_plain id -> Forall json_plain sig ->
    json_from_str (header_json id sig)
    = Some (Some [(lit "worker-id", Some id); (lit "worker-signature", Some sig)])
}.

(** ** Sealing and opening *)

Lemma is_digit_plain c : is_digit c -> json_plain c.
Proof.
  intros [d Hd]. unfold char_digit, in_range in Hd. case_match; [| done]. zbool.
  assert (48 <= byte_of c <= 57) as Hb by lia. unfold json_plain. split; [lia |].
  split; intros ->.
  - change (byte_of dquote) with 34 in Hb. lia.
  - change (byte_of "\"%char) with 92 in Hb. lia.
Qed.

Lemma timed_hmac_plain `{!CryptoLaws wp} m s t :
  0 <= t -> Forall json_plain (timed_hmac m s t).
Proof.
  intros Ht. unfold timed_hmac. apply Forall_app. split.
  - eapply Forall_impl; [by apply u64_to_string_Forall | apply is_digit_plain].
  - constructor; [| apply byte_serialize_plain].
    unfold json_plain. change (byte_of "-"%char) with 45. split; [lia |]. by split.
Qed.

Lemma header_json_ascii id sig :
  Forall json_plain id -> Forall json_plain sig ->
  from_utf8 (as_bytes (header_json id sig)) = Some (header_json id sig).
Proof.
  intros Hi Hs. apply from_utf8_as_bytes. unfold header_json, lit.
  assert (forall l, Forall json_plain l -> Forall (fun c => byte_of c < 128) l) as Hp.
  { intros l Hl. eapply Forall_impl; [exact Hl |]. unfold json_plain. lia. }
  repeat first [apply Forall_app; split | apply Forall_cons; split | apply Forall_nil]; auto;
    try done; cbn; repeat constructor.
Qed.
End sealing.
