(* ===== verification/Columns.v ===== *)
(** * Columns: chunk ids, top runs and CSR slices

    The facts about the shared helpers of [AssignmentFb] that make a dataset's
    columns a faithful encoding of the chunks staged into it: the hand-written
    decimal padding is the formatting of the chunk id, the run-length encoded
    top column answers the top of every chunk, and a CSR column answers the
    list of every chunk. *)

From S2P Require Import Prelude RustStd DataChunk Search AssignmentFb.
From Stdlib Require Import ZArith Lia Ascii String.
From stdpp Require Import base sets strings gmap sorting numbers list.

Open Scope Z_scope.

(** What the top column says of the tops [l] of the chunks staged so far: runs
    start inside the dataset, strictly ascend, and the last run at or before a
    chunk carries its top. *)
Record runs_rep (l : list Z) (runs : list TopRun) : Prop := {
  runs_bound k r : runs !! k = Some r -> 0 <= first_chunk_index r < Z.of_nat (length l);
  runs_ascend k k' r r' : (k < k')%nat -> runs !! k = Some r -> runs !! k' = Some r' ->
    first_chunk_index r < first_chunk_index r';
  runs_cover i t : l !! i = Some t -> exists k r,
    runs !! k = Some r /\ first_chunk_index r <= Z.of_nat i /\ run_top r = t
    /\ forall k' r', (k < k')%nat -> runs !! k' = Some r' -> Z.of_nat i < first_chunk_index r'
}.

(** The end offsets of the lists [rows] laid out one after the other. *)
Fixpoint ends_of {A} (start : nat) (rows : list (list A)) : list Z :=
  match rows with
  | [] => []
  | row :: rows => Z.of_nat (start + length row) :: ends_of (start + length row) rows
  end.

Lemma chunk_hash_no_err {E} chunk (e : E) : chunk_hash chunk <> Err e.
Proof. unfold chunk_hash, last_hash, expect. by destruct (from_utf8 _). Qed.

(** The column checks never panic. *)
Lemma check_columns_total ds n dense runs :
  check_columns ds n dense runs = Ok tt \/ exists e, check_columns ds n dense runs = Err e.
Proof.
  unfold check_columns.
  assert (check_dense ds n dense = Ok tt \/ exists e, check_dense ds n dense = Err e) as [-> | [e ->]]; [| | by right; eexists].
  { induction dense as [| [name len] dense IH]; cbn; [by left |]. case_match; [by right; eexists | done]. }
  cbn. induction runs as [| [name [first |]] runs IH]; cbn; [by left | | by right; eexists].
  case_match; [by right; eexists | done].
Qed.

(** ** Decimal padding *)

Lemma length_digits_gt fuel x k :
  10 ^ Z.of_nat k <= x < 10 ^ Z.of_nat fuel -> (k < length (digits fuel x))%nat.
Proof.
  revert x k. induction fuel as [| fuel IH]; intros x k Hx.
  - cbn in Hx. assert (0 < 10 ^ Z.of_nat k) by (apply Z.pow_pos_nonneg; lia). lia.
  - assert (0 < 10 ^ Z.of_nat k) by (apply Z.pow_pos_nonneg; lia).
    cbn [digits]. rewrite (proj2 (Z.eqb_neq x 0)) by lia.
    rewrite length_app. cbn. destruct k as [| k]; [lia |].
    rewrite !Nat2Z.inj_succ, !Z.pow_succ_r in Hx by lia.
    assert (k < length (digits fuel (x / 10)))%nat; [| lia].
    apply IH. split; [apply Z.div_le_lower_bound | apply Z.div_lt_upper_bound]; lia.
Qed.

Lemma format_010_large x : PAD <= x < 2 ^ 64 -> format_010 x = u64_to_string x.
Proof.
  unfold PAD, format_010. intros Hx.
  assert (10 < length (u64_to_string x))%nat.
  { unfold u64_to_string. rewrite (proj2 (Z.eqb_neq x 0)) by lia.
    apply (length_digits_gt 20 x 10). lia. }
  by replace (10 - length (u64_to_string x))%nat with 0%nat by lia.
Qed.

Lemma byte_of_digit d : 0 <= d < 10 -> byte_of (digit_char d) = 48 + d.
Proof. intros. unfold digit_char. apply byte_of_byte_ascii. lia. Qed.

Lemma pad_loop_spec {E} fuel rest k s :
  0 <= rest < 10 ^ Z.of_nat k -> (k <= fuel)%nat ->
  pad_loop (E := E) fuel (replicate k 48 ++ s) rest k
  = Ok (replicate (k - length (digits fuel rest)) 48 ++ as_bytes (digits fuel rest) ++ s).
Proof.
  revert rest k s. induction fuel as [| fuel IH]; intros rest k s Hr Hk.
  - cbn. by replace k with 0%nat by lia.
  - cbn [pad_loop digits]. destruct (0 <? rest) eqn:E0; zbool.
    + rewrite (proj2 (Z.eqb_neq rest 0)) by lia.
      destruct k as [| k]; [cbn in Hr; lia |].
      rewrite Nat2Z.inj_succ, Z.pow_succ_r in Hr by lia.
      assert (<[k:=48 + rest mod 10]> (replicate (S k) 48 ++ s)
              = replicate k 48 ++ (48 + rest mod 10) :: s) as ->.
      { rewrite replicate_S_end, <- app_assoc. cbn.
        rewrite insert_app_r_alt by (rewrite length_replicate; lia).
        rewrite length_replicate. by rewrite Nat.sub_diag. }
      rewrite IH; [| split; [apply Z.div_pos | apply Z.div_lt_upper_bound]; lia | lia].
      unfold as_bytes. rewrite fmap_app, length_app. cbn.
      rewrite byte_of_digit by (apply Z.mod_pos_bound; lia).
      rewrite <- app_assoc. cbn. do 3 f_equal. lia.
    + replace rest with 0 in * by lia. cbn. by rewrite Nat.sub_0_r.
Qed.

Lemma as_bytes_replicate k c : as_bytes (replicate k c) = replicate k (byte_of c).
Proof. apply fmap_replicate. Qed.

Lemma pad_loop_format {E} v :
  0 <= v < PAD -> pad_loop (E := E) 20 (replicate 10 48) v 10 = Ok (as_bytes (format_010 v)).
Proof.
  unfold PAD. intros Hv. rewrite <- (app_nil_r (replicate 10 48)).
  rewrite pad_loop_spec by lia. rewrite app_nil_r. f_equal.
  unfold format_010, u64_to_string. destruct (v =? 0) eqn:E0; zbool.
  - by subst.
  - unfold as_bytes. rewrite fmap_app, fmap_replicate. done.
Qed.

Lemma push_padded_ok {E} out v : u64 v -> push_padded (E := E) out v = Ok (out ++ format_010 v).
Proof.
  unfold u64, push_padded. intros Hv. destruct (PAD <=? v) eqn:EP; zbool.
  - by rewrite format_010_large by lia.
  - rewrite pad_loop_format by lia. cbn -[from_utf8].
    rewrite from_utf8_as_bytes; [done |].
    eapply Forall_impl; [apply format_010_Forall; lia | apply is_digit_ascii].
Qed.

Lemma push_chunk_id_ok {E} out t f l h :
  u64 t -> u64 f -> u64 l ->
  push_chunk_id (E := E) out t f l h
  = Ok (out ++ format_010 t ++ "/"%char :: format_010 f ++ "-"%char :: format_010 l ++ "-"%char :: h).
Proof.
  intros. unfold push_chunk_id.
  rewrite push_padded_ok by done. cbn -[push_padded].
  rewrite push_padded_ok by done. cbn -[push_padded].
  rewrite push_padded_ok by done. cbn. f_equal. by rewrite <- !app_assoc.
Qed.

Lemma push_chunk_id_display {E} out c h :
  DataChunk_wf c -> read_hash (dc_last_hash c) = Some h ->
  exists s, DataChunk_to_string (E := E) c = Ok s /\
  push_chunk_id (E := E) out (dc_top c) (dc_first_block c) (dc_last_block c) h = Ok (out ++ s).
Proof.
  intros Hwf Hh. pose proof Hwf as (? & ? & ? & _).
  destruct (DataChunk_to_string_wf (E := E) c Hwf) as (h' & Hv & Hp & ->).
  eexists. split; [done |]. rewrite push_chunk_id_ok by done.
  unfold read_hash in Hh. rewrite Hp, trim_pad_hash, from_utf8_hash in Hh by done.
  by injection Hh as ->.
Qed.

Lemma chunk_hash_ok {E} c : DataChunk_wf c -> chunk_hash (E := E) c = Ok (dc_last_hash c).
Proof.
  intros (_ & _ & _ & _ & h & Hv & Hp). unfold chunk_hash.
  rewrite (last_hash_pad c h Hv Hp). cbn. by rewrite Hp.
Qed.

Lemma read_hash_wf c : DataChunk_wf c ->
  exists h, read_hash (dc_last_hash c) = Some h /\ last_hash (E := Empty_set) c = Ok h.
Proof.
  intros (_ & _ & _ & _ & h & Hv & Hp). exists h. split.
  - unfold read_hash. by rewrite Hp, trim_pad_hash, from_utf8_hash.
  - by apply last_hash_pad.
Qed.

(** ** Top runs *)

Lemma runs_rep_nil : runs_rep [] [].
Proof. split; intros *; rewrite ?lookup_nil; done. Qed.

Lemma runs_last l runs t :
  runs_rep (l ++ [t]) runs -> exists r, last runs = Some r /\ run_top r = t.
Proof.
  intros [Hb Ha Hc]. destruct (Hc (length l) t) as (k & r & Hk & _ & Ht & Hn).
  { by rewrite lookup_app_r, Nat.sub_diag by lia. }
  exists r. split; [| done]. rewrite last_lookup.
  destruct (decide (k = pred (length runs))) as [<- |]; [done |].
  pose proof (lookup_lt_Some _ _ _ Hk).
  destruct (lookup_lt_is_Some_2 runs (pred (length runs))) as [r' Hr']; [lia |].
  pose proof (Hn (pred (length runs)) r' ltac:(lia) Hr'). pose proof (Hb _ _ Hr').
  rewrite length_app in *. cbn in *. lia.
Qed.

(** Appending a run for the new chunk. *)
Lemma runs_rep_snoc_new l runs t :
  runs_rep l runs -> runs_rep (l ++ [t]) (runs ++ [mkTopRun (Z.of_nat (length l)) t]).
Proof.
  intros [Hb Ha Hc]. split.
  - intros k r Hk. rewrite length_app. cbn.
    apply lookup_snoc_Some in Hk as [[? Hk] | [? <-]]; [apply Hb in Hk |]; cbn; lia.
  - intros k k' r r' Hkk Hk Hk'.
    apply lookup_snoc_Some in Hk' as [[? Hk'] | [-> <-]].
    + rewrite lookup_app_l in Hk by lia. eauto.
    + rewrite lookup_app_l in Hk by lia. cbn. apply Hb in Hk. lia.
  - intros i u Hi. apply lookup_snoc_Some in Hi as [[? Hi] | [-> <-]].
    + destruct (Hc i u Hi) as (k & r & Hk & ? & ? & Hn).
      exists k, r. split; [by apply lookup_app_l_Some |]. do 2 (split; [done |]).
      intros k' r' Hkk [[? Hk'] | [_ <-]]%lookup_snoc_Some; [by eapply Hn | cbn; lia].
    + exists (length runs), (mkTopRun (Z.of_nat (length l)) t).
      rewrite lookup_app_r, Nat.sub_diag by lia. do 3 (split; [cbn; lia || done |]).
      intros k' r' Hk' Hl%lookup_lt_Some. rewrite length_app in Hl. cbn in Hl. lia.
Qed.

(** Extending the last run. *)
Lemma runs_rep_snoc_same l runs r t :
  runs_rep l runs -> last runs = Some r -> run_top r = t -> runs_rep (l ++ [t]) runs.
Proof.
  intros [Hb Ha Hc] Hl Ht. split.
  - intros k r' Hk. apply Hb in Hk. rewrite length_app. cbn. lia.
  - exact Ha.
  - intros i u Hi. apply lookup_snoc_Some in Hi as [[? Hi] | [-> <-]]; [by apply Hc |].
    rewrite last_lookup in Hl. exists (pred (length runs)), r.
    split; [done |]. split; [apply Hb in Hl; lia |]. split; [done |].
    intros k' r' ? ?%lookup_lt_Some. lia.
Qed.

Lemma push_top_rep l runs t :
  runs_rep l runs -> runs_rep (l ++ [t]) (push_top runs (Z.of_nat (length l)) t).
Proof.
  intros H. unfold push_top. destruct (last runs) as [r |] eqn:Hl.
  - destruct (run_top r =? t) eqn:E; zbool; [by eapply runs_rep_snoc_same | by apply runs_rep_snoc_new].
  - by apply runs_rep_snoc_new.
Qed.

Lemma check_ascending_ok runs :
  (forall k k' r r', (k < k')%nat -> runs !! k = Some r -> runs !! k' = Some r' ->
    first_chunk_index r < first_chunk_index r') -> check_ascending runs = Ok tt.
Proof.
  induction runs as [| r0 [| r1 runs] IH]; intros Ha; [done.. |].
  change (check_ascending (r0 :: r1 :: runs)) with
    (ensure (first_chunk_index r0 <? first_chunk_index r1) RunsNotAscending;;
     check_ascending (r1 :: runs)).
  rewrite (proj2 (Z.ltb_lt _ _)) by (apply (Ha 0%nat 1%nat); [lia | done..]). cbn [ensure].
  apply IH. intros k k' r r' Hk H1 H2. apply (Ha (S k) (S k')); [lia | done..].
Qed.

Lemma runs_head l runs :
  runs_rep l runs -> l <> [] -> exists r rest, runs = r :: rest /\ first_chunk_index r = 0.
Proof.
  intros [Hb Ha Hc] Hne. destruct l as [| t l]; [done |].
  destruct (Hc 0%nat t eq_refl) as (k & r & Hk & H0 & _).
  pose proof (Hb _ _ Hk). destruct runs as [| r0 runs]; [done |].
  exists r0, runs. split; [done |]. destruct k as [| k].
  - cbn in Hk. simplify_eq. lia.
  - pose proof (Ha 0%nat (S k) r0 r ltac:(lia) eq_refl Hk).
    pose proof (Hb 0%nat r0 eq_refl). lia.
Qed.

Lemma check_top_runs_ok l runs : runs_rep l runs -> l <> [] -> check_top_runs runs = Ok tt.
Proof.
  intros H Hne. destruct (runs_head l runs H Hne) as (r & rest & -> & H0).
  unfold check_top_runs. rewrite H0. cbn [Z.eqb ensure].
  apply check_ascending_ok. apply H.
Qed.

Lemma runs_nil l : runs_rep l [] -> l = [].
Proof.
  intros H. destruct l as [| t l]; [done |].
  destruct (runs_cover _ _ H 0%nat t eq_refl) as (k & r & Hk & _). done.
Qed.

Lemma top_at_rep {E} l runs i t :
  runs_rep l runs -> l !! i = Some t -> top_at (E := E) runs (Z.of_nat i) = Ok (Some t).
Proof.
  intros [Hb Ha Hc] Hi. destruct (Hc i t Hi) as (k & r & Hk & Hle & Ht & Hn).
  pose proof (lookup_lt_Some _ _ _ Hk) as Hlt. unfold top_at.
  set (g := fun j => match runs !! j with Some r => first_chunk_index r <=? Z.of_nat i | None => false end).
  assert (forall j, (j < length runs)%nat -> g j = true <-> (j <= k)%nat) as Hg.
  { intros j Hj. unfold g. destruct (lookup_lt_is_Some_2 runs j Hj) as [rj Hrj]. rewrite Hrj.
    split.
    - intros Hl. zbool. destruct (decide (j <= k)%nat); [done |].
      pose proof (Hn j rj ltac:(lia) Hrj). lia.
    - intros Hjk. apply Z.leb_le. destruct (decide (j = k)) as [-> |]; [by simplify_eq |].
      pose proof (Ha j k rj r ltac:(lia) Hrj Hk). lia. }
  destruct (partition_point_prefix
              (fun i0 => run ← vget runs i0; Ok (E := E) (first_chunk_index run <=? Z.of_nat i))
              g (length runs)) as (m & -> & Hm & Hspec).
  - intros j Hj. destruct (vget_lt (E := E) runs j Hj) as (rj & Hrj & ->).
    unfold g. by rewrite Hrj.
  - intros a b Hab Hgb. apply Hg; [lia |]. apply Hg in Hgb; lia.
  - assert (m = S k) as ->.
    { pose proof (proj1 (Hspec k Hlt) (proj2 (Hg k Hlt) (le_n k))).
      destruct (decide (m = S k)); [done |]. assert (S k < length runs)%nat as Hs by lia.
      pose proof (proj2 (Hspec (S k) Hs) ltac:(lia)) as Hx. apply Hg in Hx; lia. }
    cbn. rewrite (vget_Some _ _ _ Hk). cbn. by rewrite Ht.
Qed.

(** ** CSR columns *)

Lemma length_ends_of {A} start (rows : list (list A)) : length (ends_of start rows) = length rows.
Proof. revert start. induction rows; intros; cbn; auto. Qed.

Lemma ends_of_snoc {A} start (rows : list (list A)) row :
  ends_of start (rows ++ [row])
  = ends_of start rows ++ [Z.of_nat (start + length (concat rows) + length row)].
Proof.
  revert start. induction rows as [| r rows IH]; intros start; cbn.
  - by rewrite Nat.add_0_r.
  - rewrite IH, length_app. do 4 f_equal. lia.
Qed.

Lemma ends_of_lookup {A} start (rows : list (list A)) i row :
  rows !! i = Some row ->
  (Z.of_nat start :: ends_of start rows) !! i
    = Some (Z.of_nat (start + length (concat (take i rows))))
  /\ (Z.of_nat start :: ends_of start rows) !! S i
    = Some (Z.of_nat (start + length (concat (take i rows)) + length row)).
Proof.
  revert start i. induction rows as [| r rows IH]; intros start i Hi; [done |].
  destruct i as [| i].
  - cbn in *. simplify_eq. by rewrite Nat.add_0_r.
  - cbn in Hi. destruct (IH (start + length r)%nat i Hi) as [H1 H2].
    cbn [ends_of take concat]. rewrite length_app. split; cbn [lookup list_lookup].
    + rewrite Nat.add_assoc. exact H1.
    + rewrite Nat.add_assoc. exact H2.
Qed.

Lemma concat_split {A} (rows : list (list A)) i row :
  rows !! i = Some row ->
  concat rows = concat (take i rows) ++ row ++ concat (drop (S i) rows).
Proof.
  intros Hi. rewrite <- (take_drop_middle rows i row Hi) at 1.
  by rewrite concat_app, concat_cons.
Qed.

Lemma slice_range_concat {A} (rows : list (list A)) i row :
  rows !! i = Some row ->
  slice_range (concat rows) (length (concat (take i rows)))
    (length (concat (take i rows)) + length row) = row.
Proof.
  intros Hi. unfold slice_range. rewrite (concat_split rows i row Hi).
  rewrite drop_app_length. rewrite !length_app.
  rewrite Nat.min_l by lia.
  replace (_ + _ - _)%nat with (length row) by lia. apply take_app_length.
Qed.

Lemma csr_slice_rep {E A} (rows : list (list A)) i row :
  rows !! i = Some row ->
  csr_slice (E := E) (csr_offsets (ends_of 0 rows)) (concat rows) (Z.of_nat i) = Ok row.
Proof.
  intros Hi. destruct (ends_of_lookup 0 rows i row Hi) as [H1 H2].
  unfold csr_slice, csr_offsets. rewrite Nat2Z.id.
  change 0 with (Z.of_nat 0). rewrite (vget_Some _ _ _ H1). cbn -[vget].
  rewrite Nat.add_1_r, (vget_Some _ _ _ H2). cbn. rewrite !Nat2Z.id.
  f_equal. by apply slice_range_concat.
Qed.

Lemma ends_of_mod {A} (rows : list (list A)) start :
  (start + length (concat rows) < Z.to_nat (2 ^ 32))%nat ->
  (fun e => e mod 2 ^ 32) <$> ends_of start rows = ends_of start rows.
Proof.
  revert start. induction rows as [| r rows IH]; intros start H; [done |].
  cbn [ends_of fmap list_fmap]. cbn [concat] in H. rewrite length_app in H. f_equal.
  - apply Z.mod_small. lia.
  - apply IH. lia.
Qed.
