(* ===== verification/Instances.v ===== *)
(** * Concrete instances of the third-party interfaces

    Small models of serialisation and lookup, of [PeerId] and of the
    cryptographic operations, with proofs that they satisfy the laws ([FlatToy]
    has one of the FlatBuffers library itself).  They
    show that the laws can hold, and the witnesses evaluate at them. *)

From S2P Require Import Prelude RustStd DataChunk Search AssignmentFb Sealing.
From Stdlib Require Import ZArith Lia Ascii String.
From stdpp Require Import base sets strings gmap sorting countable numbers list.

Open Scope Z_scope.

Definition debug_profile : BuildProfile := {| overflow_checks := true; debug_assertions := true |}.
Definition release_profile : BuildProfile := {| overflow_checks := false; debug_assertions := false |}.

(** ** FlatBuffers *)

(** A table as the code of its fields. *)
Definition countable_fb T `{Countable T} : Flatbuffer T := {|
  fb_typed _ := True;
  fb_finish t := [Zpos (encode t)];
  fb_root l := match l with [Zpos p] => decode p | _ => None end |}.

Lemma countable_fb_laws T `{Countable T} : @FlatbufferLaws T (countable_fb T).
Proof. intros t _. cbn. apply decode_encode. Qed.

(** A linear search. *)
Definition linear_lookup : VectorLookup := fun A v f =>
  snd <$> list_find (fun x => f x = Eq) v.

Lemma linear_lookup_laws : @VectorLookupLaws linear_lookup.
Proof.
  split; unfold lookup_by_key, linear_lookup.
  - intros A v f x Hl. destruct (list_find _ v) as [[i y] |] eqn:Hf; [| done].
    apply list_find_Some in Hf as (Hy & He & _). cbn in Hl. simplify_eq.
    split; [by eapply list_elem_of_lookup_2 | done].
  - intros A v f _ Hl x Hx He. destruct (list_find _ v) as [[i y] |] eqn:Hf; [done |].
    apply list_find_None in Hf. rewrite Forall_forall in Hf. by apply (Hf x).
Qed.

(** ** Peer ids: numbers, written as 38 bytes, and as text in unary *)

Definition unary (p : Z) : str :=
  if p <? 0 then replicate (Z.to_nat (- p)) "b"%char else replicate (Z.to_nat p) "a"%char.

Definition parse_unary (s : str) : option Z :=
  match s with
  | c :: _ => if bool_decide (c = "b"%char) then Some (- Z.of_nat (length s))
              else Some (Z.of_nat (length s))
  | [] => Some 0
  end.

Lemma parse_unary_unary p : parse_unary (unary p) = Some p.
Proof.
  unfold unary. destruct (p <? 0) eqn:E; zbool.
  - destruct (Z.to_nat (- p)) as [| n] eqn:En; [lia |]. cbn.
    rewrite bool_decide_eq_true_2 by done. rewrite length_replicate. f_equal. lia.
  - destruct (Z.to_nat p) as [| n] eqn:En; cbn; [f_equal; lia |].
    rewrite length_replicate. f_equal. lia.
Qed.

Definition toy_peer : PeerIdOps := {|
  PeerId := Z;
  peer_to_bytes p := replicate 37 0 ++ [p];
  peer_from_bytes l := last l;
  peer_to_string := unary;
  peer_cmp := Z.compare |}.

Lemma toy_peer_laws : @PeerIdLaws toy_peer.
Proof.
  split; intros; cbn in *.
  - done.
  - apply Z.compare_eq_iff.
  - apply Z.compare_antisym.
  - rewrite Z.compare_lt_iff in *. lia.
Qed.

(** ** Cryptography: a box is tagged with the sum of the two keys *)

Definition strip_prefix (p s : str) : option str :=
  if decide (take (length p) s = p) then Some (drop (length p) s) else None.

(** Reads exactly the objects [header_json] writes. *)
Definition toy_json (s : str) : option (option (list (str * option str))) :=
  s ← strip_prefix ("{"%char :: dquote :: lit "worker-id" ++ [dquote; ":"%char; dquote]) s;
  '(id, s) ← split_once dquote s;
  s ← strip_prefix ([","%char; dquote] ++ lit "worker-signature" ++ [dquote; ":"%char; dquote]) s;
  '(sig, _) ← split_once dquote s;
  Some (Some [(lit "worker-id", Some id); (lit "worker-signature", Some sig)]).

Definition toy_crypto : CryptoOps := {|
  Rng := unit;
  SecretKey := Z;
  PublicKey := Z;
  CompressedEdwardsY := Z;
  EdwardsPoint := Z;
  Keypair := Z;
  generate_key r := (7, r);
  public_key sk := sk;
  pk_as_bytes pk := [pk];
  pk_from_slice l := head l;
  sk_from_slice l := head l;
  edwards_from_slice l := last l;
  decompress := Some;
  montgomery_key p := p;
  generate_nonce r := (replicate 24 0, r);
  box_encrypt pk sk n m := Some (pk + sk :: m);
  box_decrypt pk sk n c :=
    match c with t :: m => if t =? pk + sk then Some m else None | [] => None end;
  hmac_sha256 k m := k ++ m;
  sha512 l := l;
  base64_encode l := byte_ascii <$> l;
  byte_serialize _ := lit "token";
  ed25519_secret kp := Some [kp];
  json_from_str := toy_json |}.

Lemma strip_prefix_app p s : strip_prefix p (p ++ s) = Some s.
Proof. unfold strip_prefix. rewrite take_app_length, drop_app_length. by case_decide. Qed.

Lemma json_plain_no_quote l : Forall json_plain l -> dquote ∉ l.
Proof.
  intros Hl Hin. rewrite Forall_forall in Hl. apply Hl in Hin. by destruct Hin as (_ & ? & _).
Qed.

Lemma toy_json_headers id sig :
  Forall json_plain id -> Forall json_plain sig ->
  toy_json (header_json id sig)
  = Some (Some [(lit "worker-id", Some id); (lit "worker-signature", Some sig)]).
Proof.
  intros Hi Hs. unfold toy_json, header_json.
  change ("{"%char :: dquote :: lit "worker-id" ++ [dquote; ":"%char; dquote] ++ id ++ ?x)
    with (("{"%char :: dquote :: lit "worker-id" ++ [dquote; ":"%char; dquote]) ++ id ++ x).
  rewrite strip_prefix_app. cbn [mbind option_bind].
  change (id ++ [dquote; ","%char; dquote] ++ ?x)
    with (id ++ dquote :: ([","%char; dquote] ++ x)).
  rewrite split_once_app by (by apply json_plain_no_quote). cbn [mbind option_bind].
  change ([","%char; dquote] ++ lit "worker-signature" ++ [dquote; ":"%char; dquote] ++ ?x)
    with (([","%char; dquote] ++ lit "worker-signature" ++ [dquote; ":"%char; dquote]) ++ x).
  rewrite strip_prefix_app. cbn [mbind option_bind].
  by rewrite (split_once_app dquote sig ["}"%char]) by (by apply json_plain_no_quote).
Qed.

Lemma toy_crypto_laws : @CryptoLaws toy_peer toy_crypto (fun kp => kp).
Proof.
  split; cbn.
  - intros a sk n m c [= <-]. by rewrite (Z.add_comm sk a), Z.eqb_refl.
  - done.
  - done.
  - intros key s [= <-]. exists key, key, key. done.
  - intros p. unfold unary. case_match; by apply Forall_replicate.
  - intros _. repeat constructor; done.
  - apply toy_json_headers.
Qed.
