(* ===== verification/WorkerBuilder.v ===== *)
(** * The worker assignment builder (crates/assignments/src/builder.rs)

    [WorkerAssignmentBuilder] with its dataset and chunk builders.  A builder
    that borrows its parent holds the parent's state; a method that consumes a
    chunk builder returns the parent.  Here an offset is the value written; the
    buffer itself is written by the generated code ([WireCodec]). *)

From S2P Require Import Prelude RustStd DataChunk Search AssignmentFb Sealing Columns.
From Stdlib Require Import ZArith Lia Ascii String.
From stdpp Require Import base sets strings gmap sorting numbers list.

Open Scope Z_scope.

(** ** The tables of worker_assignment.fbs *)

Record TableRoster := mkTableRoster { tr_write_schema_id : Z; tr_tables : list str }.

Record GenerationEntry := mkGenerationEntry { ge_version : Z; ge_base_url : str }.

Record WorkerAssignmentDataset := mkWorkerAssignmentDataset {
  wd_id : str;
  wd_last_block : Z;
  wd_base_url : str;
  wd_generations : option (list GenerationEntry);
  wd_first_blocks : list Z;
  wd_block_deltas : list Z;
  wd_hashes : list (list Z);
  wd_tops : list TopRun;
  wd_sizes : list Z;
  wd_write_schema_ids : list Z;
  wd_tables_present_offsets : option (list Z);
  wd_tables_present : option (list Z);
  wd_versions : option (list Z);
  wd_worker_offsets : list Z;
  wd_worker_indexes : list Z
}.

Record WorkerAssignment := mkWorkerAssignment {
  wa_datasets : list WorkerAssignmentDataset;
  wa_workers : list WorkerEntry;
  wa_schemas : list TableRoster
}.

(** ** The dataset being staged *)

Record WorkerDatasetColumns := mkWorkerDatasetColumns {
  wc_first_blocks : list Z;
  wc_block_deltas : list Z;
  wc_hashes : list (list Z);
  wc_tops : list TopRun;
  wc_sizes : list Z;
  wc_write_schema_ids : list Z;
  wc_versions : list Z;
  wc_tables_present : list Z;
  wc_tables_present_ends : list Z;
  wc_any_tables_trimmed : bool;
  wc_worker_ends : list Z;
  wc_worker_indexes : list Z
}.

Definition WorkerDatasetColumns_default : WorkerDatasetColumns :=
  mkWorkerDatasetColumns [] [] [] [] [] [] [] [] [] false [] [].

(** [push_bitmap]; the end is cast with [as u32]. *)
Definition push_bitmap (c : WorkerDatasetColumns) (bits : list Z) : WorkerDatasetColumns :=
  let tables_present := wc_tables_present c ++ bits in
  mkWorkerDatasetColumns (wc_first_blocks c) (wc_block_deltas c) (wc_hashes c) (wc_tops c)
    (wc_sizes c) (wc_write_schema_ids c) (wc_versions c)
    tables_present
    (wc_tables_present_ends c ++ [Z.of_nat (length tables_present) mod 2 ^ 32])
    (wc_any_tables_trimmed c) (wc_worker_ends c) (wc_worker_indexes c).

Definition push_worker_end (c : WorkerDatasetColumns) (e : Z) : WorkerDatasetColumns :=
  mkWorkerDatasetColumns (wc_first_blocks c) (wc_block_deltas c) (wc_hashes c) (wc_tops c)
    (wc_sizes c) (wc_write_schema_ids c) (wc_versions c) (wc_tables_present c)
    (wc_tables_present_ends c) (wc_any_tables_trimmed c)
    (wc_worker_ends c ++ [e]) (wc_worker_indexes c).

(** Values staged for one worker chunk; the range is [(start, end)]. *)
Record PushChunk := mkPushChunk {
  pc_top : Z;
  pc_block_range : Z * Z;
  pc_hash : list Z;
  pc_size : Z;
  pc_write_schema_id : Z;
  pc_version : Z
}.

(** The pushes of [push_chunk] up to the worker indexes. *)
Definition push_row (c : WorkerDatasetColumns) (index delta : Z) (chunk : PushChunk)
    (bits workers : list Z) : WorkerDatasetColumns :=
  let c := mkWorkerDatasetColumns
    (wc_first_blocks c ++ [fst (pc_block_range chunk)])
    (wc_block_deltas c ++ [delta])
    (wc_hashes c ++ [pc_hash chunk])
    (push_top (wc_tops c) index (pc_top chunk))
    (wc_sizes c ++ [pc_size chunk])
    (wc_write_schema_ids c ++ [pc_write_schema_id chunk])
    (wc_versions c ++ [pc_version chunk])
    (wc_tables_present c) (wc_tables_present_ends c)
    (wc_any_tables_trimmed c || negb (length bits =? 0)%nat)
    (wc_worker_ends c) (wc_worker_indexes c ++ workers) in
  push_bitmap c bits.

(** ** The builder *)

Section builder.
Context `{BuildProfile, PeerIdOps, CryptoOps}.

Record WorkerAssignmentBuilder := mkWorkerAssignmentBuilder {
  wb_rng : Rng;
  wb_last_block : option Z;
  wb_all_datasets : list WorkerAssignmentDataset;
  wb_worker_entries : list (list Z * WorkerEntry);
  wb_last_peer_id : option PeerId;
  wb_cloudflare_storage_secret : str;
  wb_common_identity : option (list Z);
  wb_common_secret_key : SecretKey;
  wb_check_continuity : bool;
  wb_write_schemas : gmap Z (list str);
  wb_current_generations : gmap Z str;
  wb_columns : WorkerDatasetColumns;
  wb_staged_worker_indexes : list Z;
  wb_staged_tables_present : list Z
}.

Definition new_with_rng (secret : str) (rng : Rng) : WorkerAssignmentBuilder :=
  let '(key, rng) := generate_key rng in
  mkWorkerAssignmentBuilder rng None [] [] None secret None key true ∅ ∅
    WorkerDatasetColumns_default [] [].

(** Field assignments. *)
Definition set_open (b : WorkerAssignmentBuilder) (last_block : option Z)
    (datasets : list WorkerAssignmentDataset) (generations : gmap Z str)
    (columns : WorkerDatasetColumns) : WorkerAssignmentBuilder :=
  mkWorkerAssignmentBuilder (wb_rng b) last_block datasets (wb_worker_entries b)
    (wb_last_peer_id b) (wb_cloudflare_storage_secret b) (wb_common_identity b)
    (wb_common_secret_key b) (wb_check_continuity b) (wb_write_schemas b)
    generations columns (wb_staged_worker_indexes b) (wb_staged_tables_present b).

Definition set_staged (b : WorkerAssignmentBuilder) (workers bits : list Z) :=
  mkWorkerAssignmentBuilder (wb_rng b) (wb_last_block b) (wb_all_datasets b)
    (wb_worker_entries b) (wb_last_peer_id b) (wb_cloudflare_storage_secret b)
    (wb_common_identity b) (wb_common_secret_key b) (wb_check_continuity b)
    (wb_write_schemas b) (wb_current_generations b) (wb_columns b) workers bits.

Definition set_config (b : WorkerAssignmentBuilder) (check : bool) (schemas : gmap Z (list str)) :=
  mkWorkerAssignmentBuilder (wb_rng b) (wb_last_block b) (wb_all_datasets b)
    (wb_worker_entries b) (wb_last_peer_id b) (wb_cloudflare_storage_secret b)
    (wb_common_identity b) (wb_common_secret_key b) check
    schemas (wb_current_generations b) (wb_columns b)
    (wb_staged_worker_indexes b) (wb_staged_tables_present b).

Definition set_workers (b : WorkerAssignmentBuilder) (rng : Rng)
    (entries : list (list Z * WorkerEntry)) (last : option PeerId) (ident : option (list Z)) :=
  mkWorkerAssignmentBuilder rng (wb_last_block b) (wb_all_datasets b) entries last
    (wb_cloudflare_storage_secret b) ident (wb_common_secret_key b) (wb_check_continuity b)
    (wb_write_schemas b) (wb_current_generations b) (wb_columns b)
    (wb_staged_worker_indexes b) (wb_staged_tables_present b).

Definition set_columns (b : WorkerAssignmentBuilder) (c : WorkerDatasetColumns) :=
  set_open b (wb_last_block b) (wb_all_datasets b) (wb_current_generations b) c.

Definition check_continuity (check : bool) (b : WorkerAssignmentBuilder) :=
  set_config b check (wb_write_schemas b).

Definition register_write_schema (write_schema_id : Z) (tables : list str)
    : comp WorkerAssignmentBuilder BuildError unit := (
  clift (ensure (is_sorted_by str_ltb tables) RosterUnsorted) ;;;
  self <- cget ;;
  match wb_write_schemas self !! write_schema_id with
  | Some registered =>
    (* [registered.len() == tables.len() && zip(registered, tables).all(==)] *)
    let unchanged := (length registered =? length tables)%nat
      && forallb (fun '(old, new) => str_eqb old new) (zip registered tables) in
    clift (ensure unchanged RosterChanged)
  | None =>
    cmodify (fun b => set_config b (wb_check_continuity b)
                        (<[write_schema_id := tables]> (wb_write_schemas b)))
  end)%rust.

(** *** Datasets *)

Record WorkerDatasetBuilder := mkWorkerDatasetBuilder {
  wdb_p : WorkerAssignmentBuilder;
  wdb_id : str;
  wdb_base_url : str;
  wdb_emitted : bool
}.

Definition new_dataset (id base_url : str) (b : WorkerAssignmentBuilder) : WorkerDatasetBuilder :=
  mkWorkerDatasetBuilder b id base_url false.

Definition discard_dataset (b : WorkerAssignmentBuilder) : WorkerAssignmentBuilder :=
  set_open b None (wb_all_datasets b) ∅ WorkerDatasetColumns_default.

Definition create_generations (b : WorkerAssignmentBuilder) : option (list GenerationEntry) :=
  if decide (wb_current_generations b = ∅) then None
  else Some ((fun '(version, base_url) => mkGenerationEntry version base_url)
             <$> btree_iter (wb_current_generations b)).

(** The table written by [emit_dataset] for the staged columns. *)
Definition dataset_of_columns (id base_url : str) (last_block : Z)
    (generations : option (list GenerationEntry)) (columns : WorkerDatasetColumns)
    : WorkerAssignmentDataset :=
  let '(tables_present_offsets, tables_present) :=
    if wc_any_tables_trimmed columns
    then (Some (csr_offsets (wc_tables_present_ends columns)), Some (wc_tables_present columns))
    else (None, None) in
  let versions :=
    if existsb (fun version => negb (version =? 0)) (wc_versions columns)
    then Some (wc_versions columns) else None in
  mkWorkerAssignmentDataset id last_block base_url generations
    (wc_first_blocks columns) (wc_block_deltas columns) (wc_hashes columns) (wc_tops columns)
    (wc_sizes columns) (wc_write_schema_ids columns)
    tables_present_offsets tables_present versions
    (csr_offsets (wc_worker_ends columns)) (wc_worker_indexes columns).

Definition emit_dataset (id base_url : str) : comp WorkerAssignmentBuilder BuildError unit := (
  self <- cget ;;
  let chunk_count := length (wc_first_blocks (wb_columns self)) in
  clift (ensure (0 <? chunk_count)%nat EmptyDataset) ;;;
  clift (check_top_runs (wc_tops (wb_columns self))) ;;;
  let columns := wb_columns self in
  cmodify (fun b => set_columns b WorkerDatasetColumns_default) ;;;
  let generations := create_generations self in
  last_block <- clift (expect (wb_last_block self)) ;;
  cmodify (fun b => set_open b None
    (wb_all_datasets b ++ [dataset_of_columns id base_url last_block generations columns])
    ∅ (wb_columns b)))%rust.

Definition register_generation (version : Z) (base_url : str)
    : comp WorkerDatasetBuilder BuildError unit := (
  clift (ensure (negb (version =? 0)) VersionZeroGeneration) ;;;
  self <- cget ;;
  let p := wdb_p self in
  match wb_current_generations p !! version with
  | Some existing => clift (ensure (str_eqb existing base_url) GenerationChanged)
  | None =>
    cmodify (fun d => mkWorkerDatasetBuilder
      (set_open p (wb_last_block p) (wb_all_datasets p)
         (<[version := base_url]> (wb_current_generations p)) (wb_columns p))
      (wdb_id d) (wdb_base_url d) (wdb_emitted d))
  end)%rust.

(** [WorkerDatasetBuilder::finish] consumes the dataset builder; [Drop] then
    sees [emitted] and does nothing. *)
Definition dataset_finish (d : WorkerDatasetBuilder)
    : res BuildError unit * WorkerAssignmentBuilder :=
  match emit_dataset (wdb_id d) (wdb_base_url d) (wdb_p d) with
  | (Err e, p) => (Err e, discard_dataset p)
  | r => r
  end.

Definition dataset_drop (d : WorkerDatasetBuilder) : WorkerAssignmentBuilder :=
  if negb (wdb_emitted d) then discard_dataset (wdb_p d) else wdb_p d.

(** *** Chunks *)

Record WorkerAssignmentChunkBuilder := mkWorkerAssignmentChunkBuilder {
  cb_p : WorkerAssignmentBuilder;
  cb_block_range : option (Z * Z);
  cb_id : option DataChunk;
  cb_size : option Z;
  cb_version : Z;
  cb_write_schema_id : option Z;
  cb_tables_present : option Z
}.

Definition new_chunk (parent : WorkerAssignmentBuilder) : WorkerAssignmentChunkBuilder :=
  mkWorkerAssignmentChunkBuilder (set_staged parent [] []) None None None 0 None None.

(** [WorkerDatasetBuilder::new_chunk]. *)
Definition dataset_new_chunk (d : WorkerDatasetBuilder) : WorkerAssignmentChunkBuilder :=
  new_chunk (wdb_p d).

Definition cb_set_id (id : DataChunk) (c : WorkerAssignmentChunkBuilder) :=
  mkWorkerAssignmentChunkBuilder (cb_p c) (cb_block_range c) (Some id) (cb_size c)
    (cb_version c) (cb_write_schema_id c) (cb_tables_present c).

Definition cb_set_block_range (range : Z * Z) (c : WorkerAssignmentChunkBuilder) :=
  mkWorkerAssignmentChunkBuilder (cb_p c) (Some range) (cb_id c) (cb_size c)
    (cb_version c) (cb_write_schema_id c) (cb_tables_present c).

Definition cb_set_size (size : Z) (c : WorkerAssignmentChunkBuilder) :=
  mkWorkerAssignmentChunkBuilder (cb_p c) (cb_block_range c) (cb_id c) (Some size)
    (cb_version c) (cb_write_schema_id c) (cb_tables_present c).

Definition cb_set_version (version : Z) (c : WorkerAssignmentChunkBuilder) :=
  mkWorkerAssignmentChunkBuilder (cb_p c) (cb_block_range c) (cb_id c) (cb_size c)
    version (cb_write_schema_id c) (cb_tables_present c).

Definition cb_set_write_schema_id (write_schema_id : Z) (c : WorkerAssignmentChunkBuilder) :=
  mkWorkerAssignmentChunkBuilder (cb_p c) (cb_block_range c) (cb_id c) (cb_size c)
    (cb_version c) (Some write_schema_id) (cb_tables_present c).

Definition cb_set_worker_indexes (indexes : list Z) (c : WorkerAssignmentChunkBuilder) :=
  mkWorkerAssignmentChunkBuilder
    (set_staged (cb_p c) indexes (wb_staged_tables_present (cb_p c)))
    (cb_block_range c) (cb_id c) (cb_size c)
    (cb_version c) (cb_write_schema_id c) (cb_tables_present c).

(** [while index < roster.len() && roster[index] < name], on the roster from
    [index] on. *)
Fixpoint skip_below (name : str) (rest : list str) (index : nat) : nat :=
  match rest with
  | t :: rest => if str_ltb t name then skip_below name rest (S index) else index
  | [] => index
  end.

(** The loop of [tables_present]; the bits written before an error stay. *)
Fixpoint tables_loop (roster tables : list str) (index : nat) (bits : list Z)
    : res BuildError unit * list Z :=
  match tables with
  | [] => (Ok tt, bits)
  | name :: tables =>
    let index := skip_below name (drop index roster) index in
    if match roster !! index with Some t => str_eqb t name | None => false end then
      match bits !! (index / 8)%nat with
      | Some byte =>
        tables_loop roster tables (index + 1)
          (<[(index / 8)%nat := Z.lor byte (Z.shiftl 1 (Z.of_nat (index mod 8)))]> bits)
      | None => (Panic, bits)
      end
    else (Err TableAbsent, bits)
  end.

(** [roster.len().div_ceil(8)]. *)
Definition div_ceil8 (n : nat) : nat := ((n + 7) / 8)%nat.

Definition cb_tables (tables : list str)
    : comp WorkerAssignmentChunkBuilder BuildError unit := (
  clift (assert (negb debug_assertions || is_sorted_by str_ltb tables)) ;;;
  self <- cget ;;
  write_schema_id <- clift (ok_or (cb_write_schema_id self) SchemaUnset) ;;
  roster <- clift (ok_or (wb_write_schemas (cb_p self) !! write_schema_id) SchemaUnregistered) ;;
  fun c =>
    let '(r, bits) := tables_loop roster tables 0 (replicate (div_ceil8 (length roster)) 0) in
    let p := set_staged (cb_p c) (wb_staged_worker_indexes (cb_p c)) bits in
    (r, mkWorkerAssignmentChunkBuilder p (cb_block_range c) (cb_id c) (cb_size c)
          (cb_version c) (cb_write_schema_id c)
          (match r with Ok _ => Some write_schema_id | _ => cb_tables_present c end)))%rust.

(** The part of [push_chunk] after the continuity check. *)
Definition append_chunk (chunk : PushChunk) : comp WorkerAssignmentBuilder BuildError unit := (
  self <- cget ;;
  index <- clift (try_u32 TooManyChunks
                    (Z.of_nat (length (wc_first_blocks (wb_columns self))))) ;;
  span <- clift (sub_u64 (snd (pc_block_range chunk)) (fst (pc_block_range chunk))) ;;
  delta <- clift (try_u32 ChunkTooLong span) ;;
  cmodify (fun b => set_columns b
    (push_row (wb_columns b) index delta chunk
       (wb_staged_tables_present b) (wb_staged_worker_indexes b))) ;;;
  self <- cget ;;
  end_ <- clift (try_u32 TooManyWorkerRefs
                   (Z.of_nat (length (wc_worker_indexes (wb_columns self))))) ;;
  cmodify (fun b => set_open b (Some (snd (pc_block_range chunk))) (wb_all_datasets b)
    (wb_current_generations b) (push_worker_end (wb_columns b) end_)))%rust.

Definition push_chunk (chunk : PushChunk) : comp WorkerAssignmentBuilder BuildError unit :=
  fun self =>
  let start := fst (pc_block_range chunk) in
  let continuity : res BuildError unit :=
    match wb_last_block self with
    | Some last =>
      next ← add_u64 last 1;
      if negb (next =? start) then Err (NotContiguous last start) else Ok tt
    | None => Ok tt
    end in
  match continuity with
  | Panic => (Panic, self)
  | _ =>
    if negb (is_ok continuity) && wb_check_continuity self then (continuity, self)
    else (append_chunk chunk ;;; clift continuity)%rust self
  end.

Definition cb_finish (self : WorkerAssignmentChunkBuilder)
    : res BuildError unit * WorkerAssignmentBuilder := (
  block_range <- clift (expect (cb_block_range self)) ;;
  id <- clift (ok_or (cb_id self) ChunkIdUnset) ;;
  clift (ensure ((dc_first_block id =? fst block_range) && (dc_last_block id =? snd block_range))
           ChunkIdMismatch) ;;;
  write_schema_id <- clift (ok_or (cb_write_schema_id self) SchemaUnset) ;;
  p <- cget ;;
  clift (ensure (bool_decide (is_Some (wb_write_schemas p !! write_schema_id)))
           SchemaUnregistered) ;;;
  clift (ensure ((cb_version self =? 0)
                 || bool_decide (is_Some (wb_current_generations p !! cb_version self)))
           GenerationUnregistered) ;;;
  clift (match cb_tables_present self with
         | Some encoded_against =>
           ensure (encoded_against =? write_schema_id) BitmapSchemaMismatch
         | None => Ok tt
         end) ;;;
  hash <- clift (chunk_hash id) ;;
  size <- clift (expect (cb_size self)) ;;
  push_chunk (mkPushChunk (dc_top id) block_range hash size write_schema_id (cb_version self))
  )%rust (cb_p self).

(** *** Workers *)

Definition generate_encrypted_headers (peer_id : PeerId) (timestamp : Z)
    : comp WorkerAssignmentBuilder SealError EncryptedHeaders := fun self =>
  let id := peer_to_string peer_id in
  let worker_signature := timed_hmac id (wb_cloudflare_storage_secret self) timestamp in
  let plaintext := header_json id worker_signature in
  let '(r, rng) := encrypt_with_rng peer_id (wb_common_secret_key self) (as_bytes plaintext)
                     (wb_rng self) in
  let self' := set_workers self rng (wb_worker_entries self) (wb_last_peer_id self)
                 (wb_common_identity self) in
  match r with
  | Ok (ciphertext, nonce) =>
    let identity :=
      match wb_common_identity self with
      | Some identity => identity
      | None => pk_as_bytes (public_key (wb_common_secret_key self))
      end in
    (Ok (mkEncryptedHeaders identity nonce ciphertext),
     set_workers self' rng (wb_worker_entries self) (wb_last_peer_id self) (Some identity))
  | Err e => (Err e, self')
  | Panic => (Panic, self')
  end.

Definition assert_ascending (id : PeerId) (b : WorkerAssignmentBuilder) : bool :=
  match wb_last_peer_id b with
  | Some last => match peer_cmp last id with Lt => true | _ => false end
  | None => true
  end.

Definition push_worker (entry : WorkerEntry) (worker_id : list Z) (b : WorkerAssignmentBuilder) :=
  set_workers b (wb_rng b) (wb_worker_entries b ++ [(worker_id, entry)]) (wb_last_peer_id b)
    (wb_common_identity b).

Definition add_worker_with_timestamp (id : PeerId) (status : WorkerStatus) (timestamp : Z)
    : comp WorkerAssignmentBuilder BuildError unit := (
  self <- cget ;;
  clift (assert (assert_ascending id self)) ;;;
  cmodify (fun b => set_workers b (wb_rng b) (wb_worker_entries b) (Some id)
                      (wb_common_identity b)) ;;;
  worker_id <- clift (WorkerId_from id) ;;
  fun b =>
    match generate_encrypted_headers id timestamp b with
    | (Ok headers, b) =>
      (Ok tt, push_worker (mkWorkerEntry worker_id (status_to_fb status) (Some headers)) worker_id b)
    | (Err _, b) =>
      (Ok tt, push_worker (mkWorkerEntry worker_id (status_to_fb status) None) worker_id b)
    | (Panic, b) => (Panic, b)
    end)%rust.

(** [add_worker]: [now] is the time since the epoch in seconds, [None] for a
    clock set before it. *)
Definition add_worker (now : option Z) (id : PeerId) (status : WorkerStatus)
    : comp WorkerAssignmentBuilder BuildError unit := (
  timestamp <- clift (expect now) ;;
  add_worker_with_timestamp id status timestamp)%rust.

Definition add_worker_with_sealed_headers (id : PeerId) (status : WorkerStatus)
    (identity nonce ciphertext : list Z) : comp WorkerAssignmentBuilder BuildError unit := (
  self <- cget ;;
  clift (assert (assert_ascending id self)) ;;;
  cmodify (fun b => set_workers b (wb_rng b) (wb_worker_entries b) (Some id)
                      (wb_common_identity b)) ;;;
  worker_id <- clift (WorkerId_from id) ;;
  cmodify (push_worker (mkWorkerEntry worker_id (status_to_fb status)
             (Some (mkEncryptedHeaders identity nonce ciphertext))) worker_id))%rust.

(** *** The finished assignment *)

Definition create_write_schema_rosters (b : WorkerAssignmentBuilder) : list TableRoster :=
  (fun '(write_schema_id, tables) => mkTableRoster write_schema_id tables)
  <$> btree_iter (wb_write_schemas b).

Definition assignment_of (b : WorkerAssignmentBuilder) : WorkerAssignment :=
  mkWorkerAssignment (wb_all_datasets b) (snd <$> wb_worker_entries b)
    (create_write_schema_rosters b).

Definition finish `{Flatbuffer WorkerAssignment} (b : WorkerAssignmentBuilder) : list Z :=
  fb_finish (assignment_of b).

End builder.
