(* ===== verification/WorkerReader.v ===== *)
(** * The worker assignment reader (crates/assignments/src/reader.rs)

    [WorkerAssignment], the [WorkerChunk] cursor over one row of a dataset's
    columns, and [AssignedWorker].  [Vector::get] panics out of range, so the
    accessors answer in [res]; the theorems show which never do. *)

From S2P Require Import Prelude RustStd DataChunk Search AssignmentFb Sealing Columns.
From S2P Require Import WorkerBuilder.
From Stdlib Require Import ZArith Lia Ascii String.
From stdpp Require Import base sets strings gmap sorting numbers list.

Open Scope Z_scope.

Section reader.
Context `{BuildProfile, PeerIdOps, CryptoOps, VectorLookup, Flatbuffer WorkerAssignment}.

(** The columns [from_owned] compares with the chunk count. *)
Definition worker_dense (dataset : WorkerAssignmentDataset) : list (string * nat) :=
  [("block_deltas"%string, length (wd_block_deltas dataset));
   ("hashes"%string, length (wd_hashes dataset));
   ("sizes"%string, length (wd_sizes dataset));
   ("write_schema_ids"%string, length (wd_write_schema_ids dataset));
   ("worker_offsets"%string, (length (wd_worker_offsets dataset) - 1)%nat)]
  ++ match wd_versions dataset with
     | Some c => [("versions"%string, length c)]
     | None => []
     end
  ++ match wd_tables_present_offsets dataset with
     | Some c => [("tables_present_offsets"%string, (length c - 1)%nat)]
     | None => []
     end.

Definition worker_runs (dataset : WorkerAssignmentDataset) : list (string * option Z) :=
  [("tops"%string, first_chunk_index <$> head (wd_tops dataset))].

Definition check_worker_dataset (dataset : WorkerAssignmentDataset) : res InvalidAssignment unit :=
  let chunks := length (wd_first_blocks dataset) in
  check_columns (wd_id dataset) chunks (worker_dense dataset) (worker_runs dataset).

Fixpoint check_worker_datasets (datasets : list WorkerAssignmentDataset)
    : res InvalidAssignment unit :=
  match datasets with
  | [] => Ok tt
  | dataset :: datasets => check_worker_dataset dataset;; check_worker_datasets datasets
  end.

Definition worker_from_owned (buf : list Z) : res InvalidAssignment WorkerAssignment :=
  assignment ← ok_or (fb_root buf) InvalidFlatbuffer;
  check_worker_datasets (wa_datasets assignment);;
  Ok assignment.

(** ** Chunks *)

Record WorkerChunk := mkWorkerChunk { wk_dataset : WorkerAssignmentDataset; wk_index : Z }.

Definition wk_at (c : WorkerChunk) : nat := Z.to_nat (wk_index c).

Definition wk_first_block {E} (c : WorkerChunk) : res E Z :=
  vget (wd_first_blocks (wk_dataset c)) (wk_at c).

Definition wk_last_block {E} (c : WorkerChunk) : res E Z :=
  first ← wk_first_block c;
  delta ← vget (wd_block_deltas (wk_dataset c)) (wk_at c);
  add_u64 first delta.

Definition wk_size {E} (c : WorkerChunk) : res E Z :=
  vget (wd_sizes (wk_dataset c)) (wk_at c).

Definition wk_version {E} (c : WorkerChunk) : res E Z :=
  match wd_versions (wk_dataset c) with
  | None => Ok 0
  | Some column => vget column (wk_at c)
  end.

Definition wk_write_schema_id {E} (c : WorkerChunk) : res E Z :=
  vget (wd_write_schema_ids (wk_dataset c)) (wk_at c).

Definition wd_top_at {E} (d : WorkerAssignmentDataset) (index : Z) : res E (option Z) :=
  top_at (wd_tops d) index.

Definition wk_top {E} (c : WorkerChunk) : res E Z :=
  t ← wd_top_at (wk_dataset c) (wk_index c);
  expect t.

Definition wk_hash {E} (c : WorkerChunk) : res E (option str) :=
  hash ← vget (wd_hashes (wk_dataset c)) (wk_at c);
  Ok (read_hash hash).

Definition wk_id {E} (c : WorkerChunk) : res E (option str) :=
  t ← wk_top c;
  f ← wk_first_block c;
  l ← wk_last_block c;
  h ← wk_hash c;
  match h with
  | None => Ok None
  | Some h => Some <$> push_chunk_id [] t f l h
  end.

Definition wk_tables_present {E} (c : WorkerChunk) : res E (option (list Z)) :=
  match wd_tables_present_offsets (wk_dataset c) with
  | None => Ok None
  | Some offsets =>
    start ← vget offsets (wk_at c);
    end_ ← vget offsets (wk_at c + 1);
    match wd_tables_present (wk_dataset c) with
    | None => Ok None
    | Some bytes =>
      (* [bytes.get(start..end)?] *)
      if (start <=? end_) && (Z.to_nat end_ <=? length bytes)%nat then
        let bits := slice_range bytes (Z.to_nat start) (Z.to_nat end_) in
        Ok (if (length bits =? 0)%nat then None else Some bits)
      else Ok None
    end
  end.

Definition get_generation (d : WorkerAssignmentDataset) (version : Z) : option GenerationEntry :=
  match wd_generations d with
  | None => None
  | Some gs => lookup_by_key gs (fun g => Z.compare (ge_version g) version)
  end.

Definition wk_url {E} (c : WorkerChunk) : res E (option str) :=
  h ← wk_hash c;
  match h with
  | None => Ok None
  | Some hash =>
    version ← wk_version c;
    let base :=
      if negb (version =? 0) then
        g ← get_generation (wk_dataset c) version;
        Some (push_segment (wd_base_url (wk_dataset c)) (ge_base_url g))
      else Some (wd_base_url (wk_dataset c)) in
    match base with
    | None => Ok None
    | Some url =>
      let url := if negb (ends_with "/" url) then url ++ ["/"%char] else url in
      t ← wk_top c;
      f ← wk_first_block c;
      l ← wk_last_block c;
      Some <$> push_chunk_id url t f l hash
    end
  end.

Definition wk_worker_indexes {E} (c : WorkerChunk) : res E (list Z) :=
  csr_slice (wd_worker_offsets (wk_dataset c)) (wd_worker_indexes (wk_dataset c)) (wk_index c).

Definition wd_chunk_count (d : WorkerAssignmentDataset) : nat := length (wd_first_blocks d).

Definition wd_chunk (d : WorkerAssignmentDataset) (index : Z) : option WorkerChunk :=
  if (Z.to_nat index <? wd_chunk_count d)%nat then Some (mkWorkerChunk d index) else None.

(** [0..self.chunk_count() as u32]. *)
Definition wd_chunks (d : WorkerAssignmentDataset) : list WorkerChunk :=
  (fun i => mkWorkerChunk d (Z.of_nat i))
  <$> seq 0 (Z.to_nat (Z.of_nat (wd_chunk_count d) mod 2 ^ 32)).

(** ** Lookups *)

Definition wa_get_dataset (a : WorkerAssignment) (dataset : str) : option WorkerAssignmentDataset :=
  lookup_by_key (wa_datasets a) (fun ds => str_cmp (wd_id ds) dataset).

Definition wa_get_dataset_by_ref (a : WorkerAssignment) (r : ChunkRef)
    : option WorkerAssignmentDataset :=
  wa_datasets a !! Z.to_nat (dataset_index r).

Definition wa_get_chunk (a : WorkerAssignment) (r : ChunkRef) : option WorkerChunk :=
  d ← wa_get_dataset_by_ref a r;
  wd_chunk d (chunk_index r).

Definition wa_chunk_url {E} (a : WorkerAssignment) (r : ChunkRef) : res E (option str) :=
  match wa_get_chunk a r with
  | None => Ok None
  | Some c => wk_url c
  end.

Definition get_write_schema (a : WorkerAssignment) (write_schema_id : Z) : option TableRoster :=
  lookup_by_key (wa_schemas a) (fun r => Z.compare (tr_write_schema_id r) write_schema_id).

(** Is table [index] in a bitmap? Bits past its end are absent. *)
Definition bit_present (bits : list Z) (index : nat) : bool :=
  match bits !! (index / 8)%nat with
  | Some byte => negb (Z.land byte (Z.shiftl 1 (Z.of_nat (index mod 8))) =? 0)
  | None => false
  end.

Definition chunk_tables {E} (a : WorkerAssignment) (chunk : WorkerChunk)
    : res E (option (list str)) :=
  write_schema_id ← wk_write_schema_id chunk;
  match get_write_schema a write_schema_id with
  | None => Ok None
  | Some roster =>
    bits ← wk_tables_present chunk;
    Ok (Some (omap (fun '(index, table) =>
      let present := match bits with None => true | Some bits => bit_present bits index end in
      if present then Some table else None) (imap pair (tr_tables roster))))
  end.

(** ** Workers *)

Record AssignedWorker := mkAssignedWorker {
  aw_assignment : WorkerAssignment; aw_reader : WorkerEntry; aw_index : Z }.

Definition wa_get_worker_by_index {E} (a : WorkerAssignment) (index : Z) : res E AssignedWorker :=
  worker ← vget (wa_workers a) (Z.to_nat index);
  Ok (mkAssignedWorker a worker index).

Definition entry_cmp {E} (id : PeerId) (x : WorkerEntry) : res E comparison :=
  match WorkerId_try_into (we_worker_id x) with
  | Some parsed => Ok (peer_cmp parsed id)
  | None => Panic
  end.

Definition wa_get_worker {E} (a : WorkerAssignment) (id : PeerId)
    : res E (option AssignedWorker) :=
  index ← lookup_index_by_key (wa_workers a) (entry_cmp id);
  match index with
  | None => Ok None
  | Some index =>
    worker ← vget (wa_workers a) index;
    Ok (Some (mkAssignedWorker a worker (Z.of_nat index mod 2 ^ 16)))
  end.

Definition aw_peer_id (w : AssignedWorker) : option PeerId :=
  WorkerId_try_into (we_worker_id (aw_reader w)).

Definition aw_status (w : AssignedWorker) : WorkerStatus := status_from_fb (we_status (aw_reader w)).

Definition aw_decrypt_headers (w : AssignedWorker) (key : Keypair) : res SealError (gmap str str) :=
  decrypt_headers (we_encrypted_headers (aw_reader w)) key.

(** The indexes are [u32] in the code; vectors of a FlatBuffer are shorter than
    [2 ^ 32], so these casts change nothing. *)
Definition holdings {E} (w : AssignedWorker) (dataset : WorkerAssignmentDataset)
    : res E (list WorkerChunk) :=
  let offsets := wd_worker_offsets dataset in
  let indexes := wd_worker_indexes dataset in
  let len := length indexes in
  rfilter_map (fun chunk =>
    start ← vget offsets chunk;
    end_ ← vget offsets (chunk + 1);
    let slots := slice_range indexes (Z.to_nat start) (Nat.min (Z.to_nat end_) len) in
    Ok (if existsb (fun i => i =? aw_index w) slots
        then Some (mkWorkerChunk dataset (Z.of_nat chunk)) else None))
    (seq 0 (wd_chunk_count dataset)).

Definition aw_iter_chunks_with_dataset {E} (w : AssignedWorker)
    : res E (list (WorkerAssignmentDataset * WorkerChunk)) :=
  per ← rmap (fun dataset => cs ← holdings w dataset; Ok (map (pair dataset) cs))
          (wa_datasets (aw_assignment w));
  Ok (concat per).

Definition aw_iter_chunks {E} (w : AssignedWorker) : res E (list WorkerChunk) :=
  ps ← aw_iter_chunks_with_dataset w;
  Ok (map snd ps).

Definition aw_iter_chunks_with_ref {E} (w : AssignedWorker)
    : res E (list (ChunkRef * WorkerChunk)) :=
  per ← rmap (fun '(d, dataset) =>
            cs ← holdings w dataset;
            Ok (map (fun c => (mkChunkRef (Z.of_nat d) (wk_index c), c)) cs))
          (imap pair (wa_datasets (aw_assignment w)));
  Ok (concat per).

End reader.
