(* ===== verification/SealProps.v ===== *)
(** * Sealed headers: what the builder seals, the worker opens *)

From S2P Require Import Prelude RustStd DataChunk Search AssignmentFb Sealing Columns Instances.
From S2P Require Import WorkerBuilder WorkerReader.
From Stdlib Require Import ZArith Lia Ascii String.
From stdpp Require Import base sets strings gmap sorting numbers list.

Open Scope Z_scope.

(** ** Definitions *)

Section seal.
Context `{BuildProfile, PeerIdOps, CryptoOps}.

(** The identity written with the headers is the builder's public key. *)
Definition identity_inv (b : WorkerAssignmentBuilder) : Prop :=
  match wb_common_identity b with
  | Some bytes => bytes = pk_as_bytes (public_key (wb_common_secret_key b))
  | None => True
  end.

(** The headers of worker [id] as the worker reads them. *)
Definition header_map (id signature : str) : gmap str str :=
  <[lit "worker-signature" := signature]> (<[lit "worker-id" := id]> ∅).

(** ** Opening *)

Lemma identity_inv_new secret rng : identity_inv (new_with_rng secret rng).
Proof. unfold new_with_rng. by destruct (generate_key rng). Qed.

Lemma generate_headers_Ok id t b h b' :
  generate_encrypted_headers id t b = (Ok h, b') -> identity_inv b ->
  exists nonce c rng',
    encrypt_with_rng id (wb_common_secret_key b)
      (as_bytes (header_json (peer_to_string id)
         (timed_hmac (peer_to_string id) (wb_cloudflare_storage_secret b) t))) (wb_rng b)
    = (Ok (c, nonce), rng')
    /\ h = mkEncryptedHeaders (pk_as_bytes (public_key (wb_common_secret_key b))) nonce c
    /\ identity_inv b'.
Proof.
  unfold generate_encrypted_headers, identity_inv. intros Hg Hi.
  destruct (encrypt_with_rng _ _ _ _) as [[[c n] | e |] rng']; [| done..].
  destruct (wb_common_identity b) as [bytes |]; simplify_eq; cbn; eauto 10.
Qed.

Lemma encrypt_Ok id sk m rng c n rng' :
  encrypt_with_rng id sk m rng = (Ok (c, n), rng') -> exists y p,
  length (peer_to_bytes id) = 38%nat
  /\ edwards_from_slice (drop 6 (peer_to_bytes id)) = Some y /\ decompress y = Some p
  /\ n = fst (generate_nonce rng) /\ box_encrypt (montgomery_key p) sk n m = Some c.
Proof.
  unfold encrypt_with_rng. destruct (length _ =? 38)%nat eqn:Hl; [zbool | done]. cbn [negb].
  destruct (edwards_from_slice _) as [y |] eqn:Hy; [| done].
  destruct (decompress y) as [p |] eqn:Hp; [| done].
  destruct (generate_nonce rng) as [n' r1] eqn:Hn.
  destruct (box_encrypt _ _ _ _) as [c' |] eqn:Hb; [| done].
  intros [= -> -> _]. eauto 10.
Qed.

(** C37: The headers [add_worker] seals to a worker open with that worker's own
    key, and only carry its id and the timed HMAC of it: [decrypt_headers]
    neither fails nor panics on them. *)
Theorem sealed_headers_open (wp : Keypair -> PeerId) `{!CryptoLaws wp}
    (key : Keypair) s (t : Z) (b b' : WorkerAssignmentBuilder) h
    (Hkey : ed25519_secret key = Some s) (Ht : 0 <= t) (Hi : identity_inv b)
    (Hg : generate_encrypted_headers (wp key) t b = (Ok h, b')) :
  decrypt_headers (Some h) key
  = Ok (header_map (peer_to_string (wp key))
          (timed_hmac (peer_to_string (wp key)) (wb_cloudflare_storage_secret b) t))
  /\ identity_inv b'.
Proof.
  apply generate_headers_Ok in Hg as (n & c & rng' & He & -> & Hi'); [| done].
  split; [| done]. apply encrypt_Ok in He as (y & p & _ & Hy & Hp & -> & Hb).
  destruct (worker_keys key s Hkey) as (y' & p' & sk & _ & Hy' & Hp' & Hsk & Hm).
  rewrite Hy in Hy'. injection Hy' as <-. rewrite Hp in Hp'. injection Hp' as <-.
  rewrite Hm in Hb. apply box_open in Hb.
  unfold decrypt_headers. rewrite Hkey. cbn -[header_json timed_hmac take from_utf8].
  rewrite pk_bytes_roundtrip. cbn -[header_json timed_hmac take from_utf8].
  rewrite Hsk. cbn -[header_json timed_hmac take from_utf8].
  rewrite nonce_length. cbn -[header_json timed_hmac from_utf8].
  rewrite Hb. cbn -[header_json timed_hmac from_utf8].
  rewrite header_json_ascii by (apply peer_string_plain || by apply timed_hmac_plain).
  cbn -[header_json timed_hmac].
  by rewrite json_of_headers by (apply peer_string_plain || by apply timed_hmac_plain).
Qed.
End seal.

(** ** Witness *)

Definition seal_builder : @WorkerAssignmentBuilder toy_peer toy_crypto :=
  @new_with_rng toy_peer toy_crypto (lit "secret") tt.

Definition seal_result := @generate_encrypted_headers toy_peer toy_crypto 5 17 seal_builder.

Definition seal_headers : EncryptedHeaders :=
  match fst seal_result with Ok h => h | _ => mkEncryptedHeaders [] [] [] end.

Lemma seal_result_ok : fst seal_result = Ok seal_headers.
Proof. vm_compute. reflexivity. Qed.

Lemma sealed_headers_open_witness :
  @decrypt_headers toy_crypto (Some seal_headers) 5
  = Ok (header_map (@peer_to_string toy_peer 5)
          (@timed_hmac toy_crypto (@peer_to_string toy_peer 5) (lit "secret") 17))
  /\ @identity_inv toy_peer toy_crypto (snd seal_result).
Proof.
  apply (@sealed_headers_open toy_peer toy_crypto (fun kp => kp) toy_crypto_laws 5 [5] 17
           seal_builder (snd seal_result) seal_headers eq_refl ltac:(lia) I).
  exact (pair_Ok seal_result _ seal_result_ok).
Defined.
