(* ===== verification/WorkerTheory.v ===== *)
(** * The worker assignment: the columns encode the staged chunks

    The abstract state of an open dataset is the list of its rows.  [wcols_rep]
    relates it to the columns; every push keeps the relation, and reading the
    emitted dataset through [WorkerChunk] gives the rows back. *)

From S2P Require Import Prelude RustStd DataChunk Search AssignmentFb Sealing Columns.
From S2P Require Import WorkerBuilder WorkerReader.
From Stdlib Require Import ZArith Lia Ascii String.
From stdpp Require Import base sets strings gmap sorting numbers list.

Open Scope Z_scope.

(** ** Definitions *)

(** One row of an open dataset: what [push_chunk] was given and what was staged. *)
Record WorkerRow := mkWorkerRow {
  wr_chunk : PushChunk; wr_bits : list Z; wr_workers : list Z }.

Definition wr_start (r : WorkerRow) : Z := fst (pc_block_range (wr_chunk r)).
Definition wr_end (r : WorkerRow) : Z := snd (pc_block_range (wr_chunk r)).

Definition row_ok (r : WorkerRow) : Prop :=
  u64 (wr_start r) /\ u64 (wr_end r) /\ 0 <= wr_end r - wr_start r < 2 ^ 32.

Record wcols_rep (rows : list WorkerRow) (c : WorkerDatasetColumns) : Prop := {
  wrep_first : wc_first_blocks c = wr_start <$> rows;
  wrep_delta : wc_block_deltas c = (fun r => wr_end r - wr_start r) <$> rows;
  wrep_hash : wc_hashes c = (fun r => pc_hash (wr_chunk r)) <$> rows;
  wrep_tops : runs_rep ((fun r => pc_top (wr_chunk r)) <$> rows) (wc_tops c);
  wrep_size : wc_sizes c = (fun r => pc_size (wr_chunk r)) <$> rows;
  wrep_schema : wc_write_schema_ids c = (fun r => pc_write_schema_id (wr_chunk r)) <$> rows;
  wrep_version : wc_versions c = (fun r => pc_version (wr_chunk r)) <$> rows;
  wrep_bits : wc_tables_present c = concat (wr_bits <$> rows);
  wrep_bit_ends : wc_tables_present_ends c
    = (fun e => e mod 2 ^ 32) <$> ends_of 0 (wr_bits <$> rows);
  wrep_trimmed : wc_any_tables_trimmed c
    = existsb (fun r => negb (length (wr_bits r) =? 0)%nat) rows;
  wrep_ends : wc_worker_ends c = ends_of 0 (wr_workers <$> rows);
  wrep_workers : wc_worker_indexes c = concat (wr_workers <$> rows);
  wrep_ok : Forall row_ok rows
}.

(** ** Pushing a row *)

Lemma wcols_rep_default : wcols_rep [] WorkerDatasetColumns_default.
Proof. by split. Qed.

Lemma concat_fmap_snoc {A B} (f : A -> list B) l x :
  concat (f <$> (l ++ [x])) = concat (f <$> l) ++ f x.
Proof. rewrite fmap_app, concat_app. cbn. by rewrite app_nil_r. Qed.

Lemma push_row_rep rows c chunk bits workers :
  wcols_rep rows c -> row_ok (mkWorkerRow chunk bits workers) ->
  let c' := push_row c (Z.of_nat (length rows))
              (snd (pc_block_range chunk) - fst (pc_block_range chunk)) chunk bits workers in
  wcols_rep (rows ++ [mkWorkerRow chunk bits workers])
    (push_worker_end c' (Z.of_nat (length (wc_worker_indexes c')))).
Proof.
  intros [] Hok. split; cbn.
  all: rewrite ?fmap_app; cbn; try by f_equal.
  - rewrite <- (length_fmap (fun r => pc_top (wr_chunk r)) rows). by apply push_top_rep.
  - rewrite concat_app. cbn. by rewrite app_nil_r, wrep_bits0.
  - rewrite wrep_bit_ends0, ends_of_snoc, fmap_app, wrep_bits0, length_app. done.
  - rewrite existsb_app, wrep_trimmed0. cbn. by rewrite orb_false_r.
  - by rewrite wrep_ends0, ends_of_snoc, wrep_workers0, length_app.
  - rewrite concat_app. cbn. by rewrite app_nil_r, wrep_workers0.
  - apply Forall_app. auto.
Qed.

(** ** Reading the columns back *)

Section read.
Context `{BuildProfile}.
Variables (id url : str) (lb : Z) (gens : option (list GenerationEntry)).
Variables (rows : list WorkerRow) (c : WorkerDatasetColumns).
Hypothesis Hrep : wcols_rep rows c.
Let ds := dataset_of_columns id url lb gens c.

Lemma ds_fields :
  wd_first_blocks ds = wc_first_blocks c /\ wd_block_deltas ds = wc_block_deltas c
  /\ wd_hashes ds = wc_hashes c /\ wd_tops ds = wc_tops c /\ wd_sizes ds = wc_sizes c
  /\ wd_write_schema_ids ds = wc_write_schema_ids c
  /\ wd_worker_offsets ds = csr_offsets (wc_worker_ends c)
  /\ wd_worker_indexes ds = wc_worker_indexes c
  /\ wd_id ds = id /\ wd_last_block ds = lb /\ wd_base_url ds = url /\ wd_generations ds = gens.
Proof.
  unfold ds, dataset_of_columns. by destruct (wc_any_tables_trimmed c).
Qed.

Lemma ds_chunk_count : wd_chunk_count ds = length rows.
Proof.
  unfold wd_chunk_count. destruct ds_fields as (-> & _).
  by rewrite (wrep_first _ _ Hrep), length_fmap.
Qed.

Section row.
Variables (i : nat) (r : WorkerRow).
Hypothesis Hi : rows !! i = Some r.
Let k := mkWorkerChunk ds (Z.of_nat i).

Lemma wk_at_of_nat : wk_at k = i.
Proof. apply Nat2Z.id. Qed.

Lemma column_get {E A} (f : WorkerRow -> A) col :
  col = f <$> rows -> vget (E := E) col (wk_at k) = Ok (f r).
Proof. intros ->. apply vget_Some. by rewrite wk_at_of_nat, list_lookup_fmap, Hi. Qed.

Lemma read_chunk : wd_chunk ds (Z.of_nat i) = Some k.
Proof.
  unfold wd_chunk. rewrite ds_chunk_count, Nat2Z.id.
  by rewrite (proj2 (Nat.ltb_lt _ _) (lookup_lt_Some _ _ _ Hi)).
Qed.

Lemma read_row_ok : row_ok r.
Proof.
  pose proof (wrep_ok _ _ Hrep) as H0. rewrite Forall_lookup in H0. by eapply H0.
Qed.

Lemma read_first_block {E} : wk_first_block (E := E) k = Ok (wr_start r).
Proof.
  unfold wk_first_block. change (wk_dataset k) with ds. destruct ds_fields as (-> & _).
  apply column_get, Hrep.
Qed.

Lemma read_last_block {E} : wk_last_block (E := E) k = Ok (wr_end r).
Proof.
  unfold wk_last_block. rewrite read_first_block. cbn [mbind res_bind].
  change (wk_dataset k) with ds. destruct ds_fields as (_ & -> & _).
  rewrite (column_get (fun r => wr_end r - wr_start r)) by apply Hrep. cbn.
  destruct read_row_ok as (? & ? & ?).
  rewrite add_u64_ok by (unfold u64 in *; lia). f_equal. lia.
Qed.

Lemma read_size {E} : wk_size (E := E) k = Ok (pc_size (wr_chunk r)).
Proof.
  unfold wk_size. change (wk_dataset k) with ds. destruct ds_fields as (_ & _ & _ & _ & -> & _).
  apply (column_get (fun r => pc_size (wr_chunk r))), Hrep.
Qed.

Lemma read_write_schema_id {E} :
  wk_write_schema_id (E := E) k = Ok (pc_write_schema_id (wr_chunk r)).
Proof.
  unfold wk_write_schema_id. change (wk_dataset k) with ds. destruct ds_fields as (_ & _ & _ & _ & _ & -> & _).
  apply (column_get (fun r => pc_write_schema_id (wr_chunk r))), Hrep.
Qed.

Lemma read_top {E} : wk_top (E := E) k = Ok (pc_top (wr_chunk r)).
Proof.
  unfold wk_top, wd_top_at. change (wk_dataset k) with ds. destruct ds_fields as (_ & _ & _ & -> & _). change (wk_index k) with (Z.of_nat i).
  rewrite (top_at_rep _ _ i (pc_top (wr_chunk r)) (wrep_tops _ _ Hrep)); [done |].
  by rewrite list_lookup_fmap, Hi.
Qed.

Lemma read_hash_column {E} : wk_hash (E := E) k = Ok (read_hash (pc_hash (wr_chunk r))).
Proof.
  unfold wk_hash. change (wk_dataset k) with ds. destruct ds_fields as (_ & _ & -> & _).
  by rewrite (column_get (fun r => pc_hash (wr_chunk r))) by apply Hrep.
Qed.

Lemma read_worker_indexes {E} : wk_worker_indexes (E := E) k = Ok (wr_workers r).
Proof.
  unfold wk_worker_indexes. change (wk_dataset k) with ds. destruct ds_fields as (_ & _ & _ & _ & _ & _ & -> & -> & _).
  rewrite (wrep_ends _ _ Hrep), (wrep_workers _ _ Hrep). apply csr_slice_rep.
  by rewrite list_lookup_fmap, Hi.
Qed.

Lemma read_version {E} : wk_version (E := E) k = Ok (pc_version (wr_chunk r)).
Proof.
  unfold wk_version. change (wk_dataset k) with ds.
  assert (wd_versions ds = if existsb (fun v => negb (v =? 0)) (wc_versions c)
                           then Some (wc_versions c) else None) as ->.
  { unfold ds, dataset_of_columns. by destruct (wc_any_tables_trimmed c). }
  destruct (existsb _ _) eqn:Hex.
  - apply (column_get (fun r => pc_version (wr_chunk r))), Hrep.
  - f_equal. symmetry. apply not_true_iff_false in Hex.
    destruct (decide (pc_version (wr_chunk r) = 0)) as [? | Hne]; [done |].
    exfalso. apply Hex, existsb_exists. exists (pc_version (wr_chunk r)).
    split; [| by apply negb_true_iff, Z.eqb_neq].
    rewrite (wrep_version _ _ Hrep). apply list_elem_of_In, list_elem_of_fmap.
    exists r. split; [done |]. by eapply list_elem_of_lookup_2.
Qed.

Lemma read_tables_present {E} :
  Z.of_nat (length (concat (wr_bits <$> rows))) < 2 ^ 32 ->
  wk_tables_present (E := E) k
  = Ok (if (length (wr_bits r) =? 0)%nat then None else Some (wr_bits r)).
Proof.
  intros Hsz. unfold wk_tables_present. rewrite wk_at_of_nat. change (wk_dataset k) with ds.
  unfold ds, dataset_of_columns. destruct (wc_any_tables_trimmed c) eqn:Ht.
  - cbn [wd_tables_present_offsets wd_tables_present].
    rewrite (wrep_bit_ends _ _ Hrep), ends_of_mod, (wrep_bits _ _ Hrep) by lia.
    destruct (ends_of_lookup 0 (wr_bits <$> rows) i (wr_bits r)) as [H1 H2];
      [by rewrite list_lookup_fmap, Hi |].
    unfold csr_offsets. change 0 with (Z.of_nat 0) at 1 2.
    rewrite (vget_Some _ _ _ H1). cbn [mbind res_bind].
    rewrite Nat.add_1_r, (vget_Some _ _ _ H2). cbn [mbind res_bind].
    rewrite (proj2 (Z.leb_le _ _)) by lia.
    assert ((wr_bits <$> rows) !! i = Some (wr_bits r)) as Hb
      by (by rewrite list_lookup_fmap, Hi).
    rewrite (proj2 (Nat.leb_le _ _)).
    2: { rewrite (concat_split _ _ _ Hb), !length_app. lia. }
    cbn [andb]. rewrite !Nat2Z.id. cbn [Nat.add]. by rewrite (slice_range_concat _ _ _ Hb).
  - cbn [wd_tables_present_offsets]. rewrite (wrep_trimmed _ _ Hrep) in Ht.
    destruct (length (wr_bits r) =? 0)%nat eqn:El; [done |]. exfalso.
    apply not_true_iff_false in Ht. apply Ht, existsb_exists. exists r.
    split; [by eapply list_elem_of_In, list_elem_of_lookup_2 | by rewrite El].
Qed.

End row.

(** The emitted dataset passes the reader's column checks. *)
Lemma emitted_checks : rows <> [] -> check_worker_dataset ds = Ok tt.
Proof.
  intros Hne. unfold check_worker_dataset, check_columns, worker_dense, worker_runs.
  assert (length (wd_worker_offsets ds) - 1 = length rows)%nat as Hwo.
  { destruct ds_fields as (_ & _ & _ & _ & _ & _ & -> & _). cbn.
    by rewrite (wrep_ends _ _ Hrep), length_ends_of, length_fmap, Nat.sub_0_r. }
  rewrite Hwo. destruct ds_fields as (-> & -> & -> & -> & -> & -> & _).
  rewrite (wrep_first _ _ Hrep), (wrep_delta _ _ Hrep), (wrep_hash _ _ Hrep),
    (wrep_size _ _ Hrep), (wrep_schema _ _ Hrep). rewrite !length_fmap.
  assert (forall l, Forall (fun p => p.2 = length rows) l -> check_dense (wd_id ds) (length rows) l = Ok tt) as Hd.
  { induction 1 as [| [n k] l Hk _ IH]; [done |]. cbn in *. subst k. by rewrite Nat.eqb_refl. }
  rewrite Hd.
  - destruct (runs_head _ _ (wrep_tops _ _ Hrep)) as (r & rest & -> & Hr0).
    { intros H0. by apply fmap_nil_inv in H0. }
    cbn. by rewrite Hr0.
  - unfold ds, dataset_of_columns. repeat constructor; cbn.
    destruct (wc_any_tables_trimmed c); cbn; destruct (existsb _ _); cbn; repeat constructor; cbn;
      rewrite ?(wrep_version _ _ Hrep), ?(wrep_bit_ends _ _ Hrep), ?length_fmap, ?length_ends_of,
        ?length_fmap; lia.
Qed.
End read.
