(* ===== verification/WorkerProps.v ===== *)
(** * The worker assignment: staging, emitting, and reading back

    The clients' use of the builder: stage each chunk of a dataset, emit the
    dataset, finish, and read the buffer.  Every chunk reads back as staged,
    its tables included, and a rejected chunk or dataset leaves nothing behind. *)

From S2P Require Import Prelude RustStd DataChunk Search AssignmentFb Sealing Columns.
From S2P Require Import WorkerBuilder WorkerReader WorkerTheory.
From Stdlib Require Import ZArith Lia Ascii String.
From stdpp Require Import base sets strings gmap sorting numbers list.

Open Scope Z_scope.

(** ** Definitions *)

(** What a client says of one chunk; [ws_tables] is [None] when every table of
    the write schema is present. *)
Record WorkerChunkSpec := mkWorkerChunkSpec {
  ws_id : DataChunk;
  ws_size : Z;
  ws_version : Z;
  ws_write_schema_id : Z;
  ws_tables : option (list str);
  ws_workers : list Z
}.

Definition row_of (s : WorkerChunkSpec) (bits : list Z) : WorkerRow :=
  mkWorkerRow
    (mkPushChunk (dc_top (ws_id s)) (dc_first_block (ws_id s), dc_last_block (ws_id s))
       (dc_last_hash (ws_id s)) (ws_size s) (ws_write_schema_id s) (ws_version s))
    bits (ws_workers s).

(** The tables of a roster that a bitmap selects, from position [k] on. *)
Fixpoint select (bits : list Z) (k : nat) (rest : list str) : list str :=
  match rest with
  | [] => []
  | t :: rest => if bit_present bits k then t :: select bits (S k) rest else select bits (S k) rest
  end.

Section staging.
Context `{BuildProfile, PeerIdOps, CryptoOps}.

(** Stage one chunk the way the scheduler does. *)
Definition stage (s : WorkerChunkSpec) (b : WorkerAssignmentBuilder)
    : res BuildError unit * WorkerAssignmentBuilder :=
  let c := cb_set_worker_indexes (ws_workers s)
             (cb_set_write_schema_id (ws_write_schema_id s)
                (cb_set_version (ws_version s)
                   (cb_set_size (ws_size s)
                      (cb_set_block_range (dc_first_block (ws_id s), dc_last_block (ws_id s))
                         (cb_set_id (ws_id s) (new_chunk b)))))) in
  match ws_tables s with
  | None => cb_finish c
  | Some tables =>
    match cb_tables tables c with
    | (Ok _, c) => cb_finish c
    | (Err e, c) => (Err e, cb_p c)
    | (Panic, c) => (Panic, cb_p c)
    end
  end.

Fixpoint stage_all (specs : list WorkerChunkSpec) : comp WorkerAssignmentBuilder BuildError unit :=
  match specs with
  | [] => creturn tt
  | s :: specs => (stage s ;;; stage_all specs)%rust
  end.

(** The bitmap staged for a chunk. *)
Definition staged_bits (schemas : gmap Z (list str)) (s : WorkerChunkSpec) (bits : list Z) : Prop :=
  exists roster, schemas !! ws_write_schema_id s = Some roster /\
  match ws_tables s with
  | None => bits = []
  | Some tables =>
    tables_loop roster tables 0 (replicate (div_ceil8 (length roster)) 0) = (Ok tt, bits)
  end.

(** What staging never touches. *)
Definition frame (b b' : WorkerAssignmentBuilder) : Prop :=
  wb_write_schemas b' = wb_write_schemas b
  /\ wb_current_generations b' = wb_current_generations b
  /\ wb_all_datasets b' = wb_all_datasets b
  /\ wb_worker_entries b' = wb_worker_entries b
  /\ wb_check_continuity b' = wb_check_continuity b
  /\ wb_last_peer_id b' = wb_last_peer_id b.

(** No dataset is open, or nothing was staged into the open one. *)
Definition clean (b : WorkerAssignmentBuilder) : Prop :=
  wb_columns b = WorkerDatasetColumns_default /\ wb_last_block b = None.
End staging.

(** ** Bitmaps *)

Lemma land_shiftl_testbit b k : 0 <= k -> negb (Z.land b (Z.shiftl 1 k) =? 0) = Z.testbit b k.
Proof.
  intros Hk. rewrite Z.shiftl_1_l.
  assert (Z.land b (2 ^ k) = if Z.testbit b k then 2 ^ k else 0) as ->.
  { apply Z.bits_inj'. intros n Hn. rewrite Z.land_spec, Z.pow2_bits_eqb by done.
    destruct (Z.eqb_spec k n) as [<- | Hne].
    - rewrite andb_true_r. destruct (Z.testbit b k) eqn:E; [| by rewrite Z.bits_0].
      by rewrite Z.pow2_bits_true.
    - rewrite andb_false_r. destruct (Z.testbit b k); [| by rewrite Z.bits_0].
      by rewrite Z.pow2_bits_false. }
  destruct (Z.testbit b k); [| done].
  apply negb_true_iff, Z.eqb_neq. pose proof (Z.pow_pos_nonneg 2 k). lia.
Qed.

Lemma bit_present_set bits m byte i :
  bits !! (m / 8)%nat = Some byte ->
  bit_present (<[(m / 8)%nat := Z.lor byte (Z.shiftl 1 (Z.of_nat (m mod 8)))]> bits) i
  = (i =? m)%nat || bit_present bits i.
Proof.
  intros Hb. unfold bit_present.
  pose proof (Nat.div_mod i 8). pose proof (Nat.div_mod m 8).
  destruct (decide (i / 8 = m / 8)%nat) as [He | Hne].
  - rewrite He, list_lookup_insert_eq by (by eapply lookup_lt_Some). rewrite Hb.
    rewrite !land_shiftl_testbit by lia. rewrite Z.lor_spec, Z.shiftl_1_l, Z.pow2_bits_eqb by lia.
    rewrite orb_comm. f_equal. apply eq_true_iff_eq. rewrite Z.eqb_eq, Nat.eqb_eq.
    split; [intros; lia | intros ->; done].
  - rewrite list_lookup_insert_ne by done.
    destruct (Nat.eqb_spec i m) as [-> |]; [done | done].
Qed.

Lemma skip_below_ge name rest index : (index <= skip_below name rest index)%nat.
Proof.
  revert index. induction rest as [| t rest IH]; intros index; cbn; [lia |].
  case_match; [| lia]. specialize (IH (S index)). lia.
Qed.

Lemma bit_present_zeros k i : bit_present (replicate k 0) i = false.
Proof.
  unfold bit_present. destruct (replicate k 0 !! (i / 8)%nat) eqn:E; [| done].
  apply lookup_replicate in E as [-> _]. by rewrite Z.land_0_l.
Qed.

Lemma select_skip bits m roster k :
  (k <= m)%nat -> (forall i, (k <= i < m)%nat -> bit_present bits i = false) ->
  select bits k (drop k roster) = select bits m (drop m roster).
Proof.
  intros Hkm. remember (m - k)%nat as n eqn:Hn. revert k Hkm Hn.
  induction n as [| n IH]; intros k Hkm Hn Hf.
  - by replace k with m by lia.
  - destruct (decide (k < length roster)%nat) as [Hlt | Hge].
    + destruct (lookup_lt_is_Some_2 roster k Hlt) as [t Ht].
      rewrite (drop_S _ _ _ Ht). cbn [select]. rewrite Hf by lia.
      apply IH; [lia | lia |]. intros i Hi. apply Hf. lia.
    + by rewrite !drop_ge by lia.
Qed.

Lemma tables_loop_sound roster tables index bits bits' :
  tables_loop roster tables index bits = (Ok tt, bits') ->
  (forall i, (index <= i)%nat -> bit_present bits i = false) ->
  select bits' index (drop index roster) = tables
  /\ (forall i, (i < index)%nat -> bit_present bits' i = bit_present bits i)
  /\ length bits' = length bits.
Proof.
  revert index bits. induction tables as [| name tables IH]; intros index bits Hl Hz.
  - cbn in Hl. simplify_eq. split; [| done].
    rewrite (select_skip bits' (index + length (drop index roster))%nat); [| lia | intros; apply Hz; lia].
    rewrite length_drop. destruct (decide (index <= length roster)%nat).
    + replace (index + _)%nat with (length roster) by lia. by rewrite drop_all.
    + rewrite drop_ge by lia. done.
  - cbn [tables_loop] in Hl. pose proof (skip_below_ge name (drop index roster) index) as Hge.
    set (m := skip_below name (drop index roster) index) in *. clearbody m.
    destruct (roster !! m) as [t |] eqn:Hm; [| done].
    destruct (str_eqb t name) eqn:Ht; [| done]. apply bool_decide_eq_true in Ht as ->.
    destruct (bits !! (m / 8)%nat) as [byte |] eqn:Hb; [| done].
    apply IH in Hl as (Hs & Hlow & Hlen).
    2: { intros i Hi. rewrite (bit_present_set _ _ _ _ Hb), Hz by lia.
         rewrite (proj2 (Nat.eqb_neq i m)) by lia. done. }
    assert (forall i, (i <= m)%nat -> bit_present bits' i = ((i =? m)%nat || bit_present bits i)) as Hbit.
    { intros i Hi. by rewrite Hlow, (bit_present_set _ _ _ _ Hb) by lia. }
    split; [| split; [| by rewrite Hlen, length_insert]].
    + rewrite (select_skip bits' m) by
        (lia || (intros i Hi; rewrite Hbit, Hz, (proj2 (Nat.eqb_neq i m)) by lia; done)).
      rewrite (drop_S _ _ _ Hm). cbn [select]. rewrite Hbit, Nat.eqb_refl by lia. cbn.
      f_equal. by rewrite <- Nat.add_1_r.
    + intros i Hi. rewrite Hbit, (proj2 (Nat.eqb_neq i m)) by lia. done.
Qed.

Lemma select_imap bits roster k :
  omap (fun '(index, table) => if bit_present bits index then Some table else None)
    (imap (fun i => pair (k + i)%nat) roster) = select bits k roster.
Proof.
  revert k. induction roster as [| t roster IH]; intros k; cbn; [done |].
  rewrite Nat.add_0_r. rewrite (imap_ext _ (fun i => pair (S k + i)%nat)) by (intros; cbn; f_equal; lia).
  rewrite IH. by destruct (bit_present bits k).
Qed.

Lemma roster_full roster k :
  omap (fun '(index, table) => Some table) (imap (fun i => pair (k + i)%nat) roster)
  = (roster : list str).
Proof.
  revert k. induction roster as [| t roster IH]; intros k; cbn; [done |]. f_equal.
  rewrite (imap_ext _ (fun i => pair (S k + i)%nat)) by (intros; cbn; f_equal; lia). apply IH.
Qed.

(** ** Staging *)

Section staging_facts.
Context `{BuildProfile, PeerIdOps, CryptoOps}.

(** The row a push appends. *)
Definition staged_row (b : WorkerAssignmentBuilder) (chunk : PushChunk) : WorkerRow :=
  mkWorkerRow chunk (wb_staged_tables_present b) (wb_staged_worker_indexes b).

(** [b'] is [b] with [chunk] appended to the open dataset. *)
Definition appended (rows : list WorkerRow) (chunk : PushChunk) (b b' : WorkerAssignmentBuilder) :=
  exists c', b' = set_open b (Some (snd (pc_block_range chunk))) (wb_all_datasets b)
                    (wb_current_generations b) c'
  /\ wcols_rep (rows ++ [staged_row b chunk]) c'.

Definition range_ok (range : Z * Z) : Prop := u64 range.1 /\ u64 range.2 /\ range.1 <= range.2.

Lemma append_chunk_cases b chunk rows :
  wcols_rep rows (wb_columns b) -> range_ok (pc_block_range chunk) ->
  match append_chunk chunk b with
  | (Ok _, b') => appended rows chunk b b'
  | (Err TooManyWorkerRefs, _) => True
  | (Err (TooManyChunks | ChunkTooLong), b') | (Panic, b') => b' = b
  | _ => False
  end.
Proof.
  intros Hrep (Hs & He & Hle). unfold append_chunk, cbind, clift, cget, cmodify.
  rewrite (wrep_first _ _ Hrep), length_fmap.
  destruct (try_u32 TooManyChunks _) as [ix | ? |] eqn:E1.
  2,3: unfold try_u32 in E1; by case_match; simplify_eq.
  apply try_u32_inv in E1 as [-> _]. rewrite sub_u64_ok by done.
  destruct (try_u32 ChunkTooLong _) as [dl | ? |] eqn:E2.
  2,3: unfold try_u32 in E2; by case_match; simplify_eq.
  apply try_u32_inv in E2 as [-> E2]. cbn [wb_columns set_columns set_open].
  pose proof (push_row_rep rows (wb_columns b) chunk (wb_staged_tables_present b)
    (wb_staged_worker_indexes b) Hrep) as Hpush. cbv zeta in Hpush.
  set (c1 := push_row _ _ _ _ _ _) in *.
  destruct (try_u32 TooManyWorkerRefs _) as [en | ? |] eqn:E3.
  2,3: unfold try_u32 in E3; by case_match; simplify_eq.
  apply try_u32_inv in E3 as [-> _]. eexists. split; [reflexivity |].
  apply Hpush. unfold row_ok, wr_start, wr_end; cbn. auto with lia.
Qed.

(** Whatever [push_chunk] answers: it appended one row (and reports a gap only
    when the check is off), or it changed nothing, or the dataset ran out of
    worker references. *)
Lemma push_chunk_cases b chunk rows :
  wcols_rep rows (wb_columns b) -> range_ok (pc_block_range chunk) ->
  match push_chunk chunk b with
  | (Ok _, b') => appended rows chunk b b'
  | (Err TooManyWorkerRefs, _) => True
  | (Err (NotContiguous last start), b') =>
    wb_last_block b = Some last /\ start = fst (pc_block_range chunk)
    /\ if wb_check_continuity b then b' = b else appended rows chunk b b'
  | (_, b') => b' = b
  end.
Proof.
  intros Hrep Hr. pose proof (append_chunk_cases b chunk rows Hrep Hr) as Ha.
  unfold push_chunk. cbv zeta. set (start := fst _) in *.
  set (cont := match wb_last_block b with Some _ => _ | None => _ end).
  assert (cont = Panic \/ cont = Ok tt \/ exists last, wb_last_block b = Some last
          /\ cont = Err (NotContiguous last start)) as Hcont.
  { unfold cont. destruct (wb_last_block b) as [last |]; [| auto].
    unfold add_u64. repeat case_match; cbn; eauto; case_match; eauto. }
  clearbody cont. destruct Hcont as [-> | [-> | (last & Hl & ->)]]; [done | |].
  - cbn. unfold cbind. destruct (append_chunk chunk b) as [[[] | [] |] b']; done.
  - cbn. destruct (wb_check_continuity b) eqn:Ek; [done |]. unfold cbind.
    destruct (append_chunk chunk b) as [[[] | [] |] b']; done.
Qed.
End staging_facts.

Section stage_facts.
Context `{BuildProfile, PeerIdOps, CryptoOps}.

Lemma cb_finish_Ok (c : WorkerAssignmentChunkBuilder) b' :
  cb_finish c = (Ok tt, b') -> exists range id ws hash size,
  cb_block_range c = Some range /\ cb_id c = Some id
  /\ dc_first_block id = fst range /\ dc_last_block id = snd range
  /\ cb_write_schema_id c = Some ws /\ is_Some (wb_write_schemas (cb_p c) !! ws)
  /\ (cb_version c = 0 \/ is_Some (wb_current_generations (cb_p c) !! cb_version c))
  /\ chunk_hash (E := BuildError) id = Ok hash /\ cb_size c = Some size
  /\ push_chunk (mkPushChunk (dc_top id) range hash size ws (cb_version c)) (cb_p c) = (Ok tt, b').
Proof.
  unfold cb_finish. intros Hf. repeat cinv Hf. zbool.
  apply bool_decide_eq_true in Hv3. apply orb_true_iff in Hv4.
  rewrite Z.eqb_eq, bool_decide_eq_true in Hv4. eauto 20.
Qed.

Lemma DataChunk_range_ok c : DataChunk_wf c -> range_ok (dc_first_block c, dc_last_block c).
Proof. intros (? & ? & ? & ? & _). split; [done |]. split; [done |]. cbn. lia. Qed.

(** A chunk builder whose staged bitmap is [bits], finished successfully. *)
Lemma finish_spec_Ok s b b' bits rows tp :
  DataChunk_wf (ws_id s) -> wcols_rep rows (wb_columns b) ->
  cb_finish (mkWorkerAssignmentChunkBuilder (set_staged b (ws_workers s) bits)
    (Some (dc_first_block (ws_id s), dc_last_block (ws_id s))) (Some (ws_id s))
    (Some (ws_size s)) (ws_version s) (Some (ws_write_schema_id s)) tp) = (Ok tt, b') ->
  is_Some (wb_write_schemas b !! ws_write_schema_id s)
  /\ (ws_version s = 0 \/ is_Some (wb_current_generations b !! ws_version s))
  /\ wcols_rep (rows ++ [row_of s bits]) (wb_columns b')
  /\ wb_last_block b' = Some (dc_last_block (ws_id s)) /\ frame b b'.
Proof.
  intros Hwf Hrep Hf. apply cb_finish_Ok in Hf
    as (range & id & ws & hash & size & H2 & H3 & _ & _ & H4 & H5 & H6 & H7 & H8 & Hp).
  cbn in *. simplify_eq. rewrite chunk_hash_ok in H7 by done. simplify_eq.
  pose proof (push_chunk_cases (set_staged b (ws_workers s) bits)
    (wr_chunk (row_of s bits)) rows Hrep (DataChunk_range_ok _ Hwf)) as Hc.
  cbn [wr_chunk row_of] in Hc.
  rewrite Hp in Hc. destruct Hc as (c' & -> & Hrep'). cbn.
  do 4 (split; [done |]). done.
Qed.

Lemma cb_tables_Ok tables (c c' : WorkerAssignmentChunkBuilder) :
  cb_tables tables c = (Ok tt, c') -> exists ws roster bits,
  cb_write_schema_id c = Some ws /\ wb_write_schemas (cb_p c) !! ws = Some roster
  /\ tables_loop roster tables 0 (replicate (div_ceil8 (length roster)) 0) = (Ok tt, bits)
  /\ c' = mkWorkerAssignmentChunkBuilder
       (set_staged (cb_p c) (wb_staged_worker_indexes (cb_p c)) bits)
       (cb_block_range c) (cb_id c) (cb_size c) (cb_version c) (cb_write_schema_id c) (Some ws).
Proof.
  unfold cb_tables. intros Hf. repeat cinv Hf.
  destruct (tables_loop _ _ _ _) as [r bits] eqn:Hl. simplify_eq. eauto 10.
Qed.

Lemma stage_Ok s b b' rows :
  DataChunk_wf (ws_id s) -> wcols_rep rows (wb_columns b) -> stage s b = (Ok tt, b') ->
  exists bits, staged_bits (wb_write_schemas b) s bits
  /\ (ws_version s = 0 \/ is_Some (wb_current_generations b !! ws_version s))
  /\ wcols_rep (rows ++ [row_of s bits]) (wb_columns b')
  /\ wb_last_block b' = Some (dc_last_block (ws_id s)) /\ frame b b'.
Proof.
  intros Hwf Hrep. unfold stage. cbv zeta. destruct (ws_tables s) as [tables |] eqn:Ht.
  - destruct (cb_tables _ _) as [[[] | |] c] eqn:Hc; [| done..]. intros Hf.
    apply cb_tables_Ok in Hc as (ws & roster & bits & H2 & H3 & Hl & ->).
    cbn in H2. simplify_eq. cbn in H3.
    apply (finish_spec_Ok _ _ _ bits rows) in Hf as (H4 & H5 & H6 & H7 & H8); [| done..].
    exists bits. split; [| done]. exists roster. by rewrite Ht.
  - intros Hf. apply (finish_spec_Ok _ _ _ [] rows) in Hf as ([roster ?] & H5 & H6 & H7 & H8); [| done..].
    exists []. split; [| done]. exists roster. by rewrite Ht.
Qed.

Lemma frame_trans b1 b2 b3 : frame b1 b2 -> frame b2 b3 -> frame b1 b3.
Proof. unfold frame. intuition congruence. Qed.

(** Staging a whole list extends the rows with one row per chunk. *)
Lemma stage_all_Ok specs b b' rows :
  Forall (fun s => DataChunk_wf (ws_id s)) specs -> wcols_rep rows (wb_columns b) ->
  stage_all specs b = (Ok tt, b') ->
  exists bitss, Forall2 (staged_bits (wb_write_schemas b)) specs bitss
  /\ wcols_rep (rows ++ zip_with row_of specs bitss) (wb_columns b')
  /\ frame b b'
  /\ wb_last_block b' = match last specs with
       | Some s => Some (dc_last_block (ws_id s)) | None => wb_last_block b end.
Proof.
  intros Hwf. revert b rows. induction Hwf as [| s specs Hs _ IH]; intros b rows Hrep Hf.
  - cbn in Hf. injection Hf as <-. exists []. cbn. rewrite app_nil_r. split; [constructor |]. by do 2 (split; [done |]).
  - cbn [stage_all] in Hf. apply cbind_Ok in Hf as ([] & b1 & Hf1 & Hf).
    apply (stage_Ok s b b1 rows) in Hf1 as (bits & Hb & _ & Hrep1 & Hl1 & Hfr1); [| done..].
    apply IH with (rows := rows ++ [row_of s bits]) in Hf
      as (bitss & Hbs & Hrep' & Hfr & Hl); [| done].
    exists (bits :: bitss). split; [| split; [| split]].
    + constructor; [done |]. destruct Hfr1 as (<- & _). done.
    + cbn. by rewrite <- app_assoc in Hrep'.
    + by eapply frame_trans.
    + rewrite Hl, last_cons. by destruct (last specs).
Qed.
End stage_facts.

(** ** Emitting *)

Section emit_facts.
Context `{BuildProfile, PeerIdOps, CryptoOps}.

Lemma emit_Ok (b : WorkerAssignmentBuilder) rows lb name url emitted :
  wcols_rep rows (wb_columns b) -> rows <> [] -> wb_last_block b = Some lb ->
  dataset_finish (mkWorkerDatasetBuilder b name url emitted)
  = (Ok tt, set_open b None
       (wb_all_datasets b
        ++ [dataset_of_columns name url lb (create_generations b) (wb_columns b)])
       ∅ WorkerDatasetColumns_default).
Proof.
  intros Hrep Hne Hlb. unfold dataset_finish, emit_dataset. cbn [wdb_id wdb_base_url wdb_p].
  unfold cbind, clift, cget, cmodify. rewrite (wrep_first _ _ Hrep), length_fmap.
  rewrite (proj2 (Nat.ltb_lt _ _)) by (destruct rows; [done | cbn; lia]). cbn [ensure].
  rewrite (check_top_runs_ok _ _ (wrep_tops _ _ Hrep)).
  2: { intros H2. by apply fmap_nil_inv in H2. }
  rewrite Hlb. done.
Qed.

(** [emit_dataset] is [Err] only before it has changed anything. *)
Lemma emit_Err name url (b b' : WorkerAssignmentBuilder) e :
  emit_dataset name url b = (Err e, b') -> b' = b.
Proof.
  unfold emit_dataset, cbind, clift, cget, cmodify.
  destruct (ensure _ _) as [[] | ? |]; [| by intros [= _ <-] | done].
  destruct (check_top_runs _) as [[] | ? |]; [| by intros [= _ <-] | done].
  by destruct (wb_last_block b).
Qed.

(** How chunk [i] of a dataset reads, through every accessor that does not
    need the whole assignment. *)
Definition chunk_reads (ds : WorkerAssignmentDataset) (i : nat) (s : WorkerChunkSpec) : Prop :=
  exists k, wd_chunk ds (Z.of_nat i) = Some k
  /\ wk_first_block (E := Empty_set) k = Ok (dc_first_block (ws_id s))
  /\ wk_last_block (E := Empty_set) k = Ok (dc_last_block (ws_id s))
  /\ wk_size (E := Empty_set) k = Ok (ws_size s)
  /\ wk_version (E := Empty_set) k = Ok (ws_version s)
  /\ wk_write_schema_id (E := Empty_set) k = Ok (ws_write_schema_id s)
  /\ wk_top (E := Empty_set) k = Ok (dc_top (ws_id s))
  /\ wk_worker_indexes (E := Empty_set) k = Ok (ws_workers s)
  /\ exists id, DataChunk_to_string (E := Empty_set) (ws_id s) = Ok id
     /\ wk_id (E := Empty_set) k = Ok (Some id).

Lemma chunk_reads_row name url lb gens rows c i s bits :
  wcols_rep rows c -> rows !! i = Some (row_of s bits) -> DataChunk_wf (ws_id s) ->
  chunk_reads (dataset_of_columns name url lb gens c) i s.
Proof.
  intros Hrep Hi Hwf. eexists. split; [by apply (read_chunk name url lb gens rows c Hrep i _ Hi) |].
  split; [apply (read_first_block name url lb gens rows c Hrep i _ Hi) |]. split; [apply (read_last_block name url lb gens rows c Hrep i _ Hi) |].
  split; [apply (read_size name url lb gens rows c Hrep i _ Hi) |]. split; [apply (read_version name url lb gens rows c Hrep i _ Hi) |].
  split; [apply (read_write_schema_id name url lb gens rows c Hrep i _ Hi) |]. split; [apply (read_top name url lb gens rows c Hrep i _ Hi) |].
  split; [apply (read_worker_indexes name url lb gens rows c Hrep i _ Hi) |].
  destruct (read_hash_wf _ Hwf) as (h & Hh & _).
  destruct (push_chunk_id_display (E := Empty_set) [] _ h Hwf Hh) as (str & Hs & Hp).
  exists str. split; [done |]. unfold wk_id.
  rewrite (read_top _ _ _ _ _ _ Hrep _ _ Hi), (read_first_block _ _ _ _ _ _ Hrep _ _ Hi),
    (read_last_block _ _ _ _ _ _ Hrep _ _ Hi), (read_hash_column _ _ _ _ _ _ Hrep _ _ Hi).
  cbn -[push_chunk_id]. rewrite Hh. unfold wr_start, wr_end. cbn -[push_chunk_id].
  by rewrite Hp.
Qed.

Lemma zip_row_lookup specs bitss i s :
  Forall2 (fun _ _ => True) specs bitss -> specs !! i = Some s ->
  exists bits, bitss !! i = Some bits /\ zip_with row_of specs bitss !! i = Some (row_of s bits).
Proof.
  intros Hf Hi. destruct (Forall2_lookup_l _ _ _ _ _ Hf Hi) as (bits & Hb & _).
  exists bits. split; [done |]. apply lookup_zip_with_Some. eauto.
Qed.
End emit_facts.

Section worker_properties.
Context `{BuildProfile, PeerIdOps, CryptoOps}.

(** C1: A dataset whose chunks were all staged without error into a clean builder
    is always emitted: exactly one dataset is appended, with as many chunks as
    were staged; chunk i of it reads back, through every accessor, as the i-th
    staged chunk (its id string is the [Display] of the staged id), and the
    builder is clean again. *)
Theorem worker_dataset_roundtrip (b b' : WorkerAssignmentBuilder) specs name url
    (Hclean : clean b) (Hne : specs <> [])
    (Hwf : Forall (fun s => DataChunk_wf (ws_id s)) specs)
    (Hst : stage_all specs b = (Ok tt, b')) :
  exists ds b'',
    dataset_finish (mkWorkerDatasetBuilder b' name url false) = (Ok tt, b'')
    /\ wb_all_datasets b'' = wb_all_datasets b ++ [ds]
    /\ clean b'' /\ wb_current_generations b'' = ∅
    /\ wd_id ds = name /\ wd_base_url ds = url
    /\ (forall s, last specs = Some s -> wd_last_block ds = dc_last_block (ws_id s))
    /\ wd_chunk_count ds = length specs
    /\ forall i s, specs !! i = Some s -> chunk_reads ds i s.
Proof.
  destruct Hclean as [Hc Hl].
  destruct (stage_all_Ok specs b b' [] Hwf) as (bitss & Hbits & Hrep & Hfr & Hlast); [| done |].
  { rewrite Hc. apply wcols_rep_default. }
  cbn in Hrep. pose proof (Forall2_length _ _ _ Hbits) as Hlen.
  destruct (last specs) as [s0 |] eqn:Hls; [| by apply last_None in Hls].
  eexists _, _. split.
  { eapply emit_Ok; [done | | done]. destruct specs, bitss; done. }
  cbn. destruct Hfr as (_ & _ & -> & _). do 2 (split; [done |]). split; [done |].
  edestruct (ds_fields name url (dc_last_block (ws_id s0)) (create_generations b')
    (wb_columns b')) as (_ & _ & _ & _ & _ & _ & _ & _ & -> & -> & -> & _).
  do 2 (split; [done |]). split; [by intros ? [= ->] |]. split.
  - erewrite ds_chunk_count by done. rewrite length_zip_with. lia.
  - intros i s Hi. destruct (zip_row_lookup specs bitss i s) as (bits & _ & Hr); [| done |].
    { eapply Forall2_impl; [exact Hbits | done]. }
    eapply chunk_reads_row; [done | done |]. rewrite Forall_lookup in Hwf. eauto.
Qed.

(** Whatever makes emitting a dataset fail, the builder that comes back has
    no staged chunk, no generation and the datasets it had before: a rejected
    dataset cannot leak into the next one.  Dropping an unfinished dataset does
    the same. *)
Theorem rejected_dataset_leaves_nothing (d : WorkerDatasetBuilder) e b'
    (Hf : dataset_finish d = (Err e, b')) (Hd : wdb_emitted d = false) :
  clean b' /\ wb_current_generations b' = ∅ /\ wb_all_datasets b' = wb_all_datasets (wdb_p d)
  /\ dataset_drop d = b'.
Proof.
  unfold dataset_finish in Hf. destruct (emit_dataset _ _ _) as [[| e' |] p] eqn:He; [done | | done].
  apply emit_Err in He as ->. injection Hf as <- <-.
  unfold dataset_drop. rewrite Hd. done.
Qed.
End worker_properties.
