(* ===== verification/WorkerReach.v ===== *)
(** * The worker assignment: every reachable builder

    The calls a client may make on a [WorkerAssignmentBuilder], in any order,
    as a step relation, with the invariant they all keep.  From it: the reader
    accepts what any such sequence of calls finishes, a worker is found by its
    id, and the scan of a worker's chunks agrees with the chunk accessors. *)

From S2P Require Import Prelude RustStd DataChunk Search AssignmentFb Sealing Columns Instances.
From S2P Require Import WorkerBuilder WorkerReader WorkerTheory WorkerProps.
From Stdlib Require Import ZArith Lia Ascii String.
From stdpp Require Import base sets strings gmap sorting relations numbers list.

Open Scope Z_scope.

(** ** Definitions *)

Section reach.
Context `{BuildProfile, PeerIdOps, CryptoOps}.

(** One call on the builder.  A chunk builder may hold any fields and any
    staged lists; a chunk that exhausts the worker references of its dataset
    is excluded, since the code then leaves a half-appended row behind
    ([BuilderTyped] has the calls without this exclusion). *)
Inductive wstep : WorkerAssignmentBuilder -> WorkerAssignmentBuilder -> Prop :=
| wstep_continuity b check : wstep b (check_continuity check b)
| wstep_schema b n tables r b' :
    register_write_schema n tables b = (r, b') -> wstep b b'
| wstep_generation b name url v u r d' :
    register_generation v u (new_dataset name url b) = (r, d') -> wstep b (wdb_p d')
| wstep_new_chunk b workers bits : wstep b (set_staged b workers bits)
| wstep_chunk c r b' :
    (forall chunk, cb_id c = Some chunk -> DataChunk_wf chunk) ->
    cb_finish c = (r, b') -> r <> Err TooManyWorkerRefs -> wstep (cb_p c) b'
| wstep_finish b name url r b' :
    dataset_finish (new_dataset name url b) = (r, b') -> wstep b b'
| wstep_drop b name url : wstep b (dataset_drop (new_dataset name url b))
| wstep_worker b id status t b' :
    add_worker_with_timestamp id status t b = (Ok tt, b') -> wstep b b'
| wstep_sealed b id status i n c b' :
    add_worker_with_sealed_headers id status i n c b = (Ok tt, b') -> wstep b b'.

Definition reachable (b : WorkerAssignmentBuilder) : Prop :=
  exists secret rng, rtc wstep (new_with_rng secret rng) b.

Definition peer_lt (p q : PeerId) : Prop := peer_cmp p q = Lt.

(** The entries belong to peers in ascending order, the last one recorded. *)
Definition workers_inv (b : WorkerAssignmentBuilder) : Prop :=
  exists ids, Forall2 (fun id e => WorkerId_from (E := BuildError) id = Ok (we_worker_id (snd e)))
                ids (wb_worker_entries b)
  /\ Sorted peer_lt ids /\ wb_last_peer_id b = last ids.

Definition open_inv (b : WorkerAssignmentBuilder) : Prop :=
  exists rows, wcols_rep rows (wb_columns b) /\ (rows <> [] -> is_Some (wb_last_block b)).

Definition datasets_inv (b : WorkerAssignmentBuilder) : Prop :=
  Forall (fun ds => check_worker_dataset ds = Ok tt) (wb_all_datasets b).

Definition winv (b : WorkerAssignmentBuilder) : Prop :=
  open_inv b /\ datasets_inv b /\ workers_inv b.

(** ** Each call keeps the invariant *)

Lemma winv_same b b' :
  winv b -> wb_columns b' = wb_columns b -> wb_last_block b' = wb_last_block b ->
  wb_all_datasets b' = wb_all_datasets b -> wb_worker_entries b' = wb_worker_entries b ->
  wb_last_peer_id b' = wb_last_peer_id b -> winv b'.
Proof.
  intros (Ho & Hd & Hw) E1 E2 E3 E4 E5. unfold winv, open_inv, datasets_inv, workers_inv.
  by rewrite E1, E2, E3, E4, E5.
Qed.

Lemma clean_open_inv b : clean b -> open_inv b.
Proof.
  intros [Hc Hl]. exists []. rewrite Hc. split; [apply wcols_rep_default | done].
Qed.

Lemma register_write_schema_frame n tables b r b' :
  register_write_schema n tables b = (r, b') ->
  b' = b \/ b' = set_config b (wb_check_continuity b) (<[n := tables]> (wb_write_schemas b)).
Proof.
  unfold register_write_schema, cbind, clift, cget, cmodify.
  destruct (ensure _ _) as [[] | |]; [| naive_solver..].
  destruct (wb_write_schemas b !! n); [destruct (ensure _ _) as [[] | |] |]; naive_solver.
Qed.

Lemma register_generation_frame v u d r d' :
  register_generation v u d = (r, d') ->
  wdb_p d' = wdb_p d \/ exists g, wdb_p d' =
    set_open (wdb_p d) (wb_last_block (wdb_p d)) (wb_all_datasets (wdb_p d)) g (wb_columns (wdb_p d)).
Proof.
  unfold register_generation, cbind, clift, cget, cmodify.
  destruct (ensure _ _) as [[] | |]; [| intros; simplify_eq; auto..].
  destruct (wb_current_generations (wdb_p d) !! v).
  - destruct (ensure _ _) as [[] | |]; intros; simplify_eq; auto.
  - intros. simplify_eq. cbn. eauto.
Qed.

Lemma cb_finish_cases c r b' :
  cb_finish c = (r, b') ->
  b' = cb_p c \/ exists range chunk ws hash size,
    cb_id c = Some chunk /\ dc_first_block chunk = fst range /\ dc_last_block chunk = snd range
    /\ push_chunk (mkPushChunk (dc_top chunk) range hash size ws (cb_version c)) (cb_p c) = (r, b').
Proof.
  unfold cb_finish, cbind at 1, clift at 1.
  destruct (cb_block_range c) as [range |]; cbn [expect]; [| intros; simplify_eq; auto].
  unfold cbind at 1, clift at 1.
  destruct (cb_id c) as [chunk |]; cbn [ok_or]; [| intros; simplify_eq; auto].
  unfold cbind at 1, clift at 1.
  destruct (_ && _) eqn:Er; cbn [ensure]; [zbool | intros; simplify_eq; auto].
  unfold cbind at 1, clift at 1.
  destruct (cb_write_schema_id c) as [ws |]; cbn [ok_or]; [| intros; simplify_eq; auto].
  unfold cbind, clift, cget.
  destruct (ensure _ _) as [[] | |]; [| intros; simplify_eq; auto ..].
  destruct (ensure _ _) as [[] | |]; [| intros; simplify_eq; auto ..].
  destruct (match cb_tables_present c with Some _ => _ | None => _ end) as [[] | |];
    [| intros; simplify_eq; auto ..].
  destruct (chunk_hash chunk) as [hash | |]; [| intros; simplify_eq; auto ..].
  destruct (cb_size c) as [size |]; cbn [expect]; [| intros; simplify_eq; auto].
  intros Hp. right. eauto 12.
Qed.

Lemma cb_finish_push c r b' :
  cb_finish c = (r, b') ->
  (b' = cb_p c /\ r <> Err TooManyWorkerRefs) \/ exists chunk, push_chunk chunk (cb_p c) = (r, b').
Proof.
  intros Hf. destruct (cb_finish_cases c r b' Hf) as [-> | (range & chunk & ws & hash & size & _ & _ & _ & Hp)];
    [| eauto].
  destruct r as [[] | e |]; [by left | | by left]. destruct e; try by left. right.
  revert Hf. unfold cb_finish, cbind, clift, cget.
  destruct (cb_block_range c) as [range |]; cbn [expect]; [| done].
  destruct (cb_id c) as [chunk |]; cbn [ok_or]; [| done].
  destruct (ensure _ ChunkIdMismatch) as [[] | e |] eqn:E1; [| unfold ensure in E1; by case_match; simplify_eq ..].
  destruct (cb_write_schema_id c) as [ws |]; cbn [ok_or]; [| done].
  destruct (ensure _ SchemaUnregistered) as [[] | e |] eqn:E2; [| unfold ensure in E2; by case_match; simplify_eq ..].
  destruct (ensure _ GenerationUnregistered) as [[] | e |] eqn:E3; [| unfold ensure in E3; by case_match; simplify_eq ..].
  destruct (match cb_tables_present c with Some _ => _ | None => _ end) as [[] | e |] eqn:E4;
    [| unfold ensure in E4; by repeat case_match; simplify_eq ..].
  destruct (chunk_hash chunk) as [hash | e |] eqn:E5; [| by apply chunk_hash_no_err in E5 | done].
  destruct (cb_size c) as [size |]; cbn [expect]; [eauto | done].
Qed.

Lemma appended_inv rows chunk b b' :
  appended rows chunk b b' -> datasets_inv b -> open_inv b' /\ datasets_inv b'.
Proof.
  intros (c' & -> & Hrep) Hd. split; [| done]. eexists. split; [exact Hrep |].
  intros _. cbn. eauto.
Qed.

Lemma chunk_step_inv c r b' :
  (forall chunk, cb_id c = Some chunk -> DataChunk_wf chunk) ->
  cb_finish c = (r, b') -> r <> Err TooManyWorkerRefs ->
  open_inv (cb_p c) -> datasets_inv (cb_p c) -> open_inv b' /\ datasets_inv b'.
Proof.
  intros Hwf Hf Hr Ho Hd. apply cb_finish_cases in Hf as [-> | Hf]; [done |].
  destruct Hf as (range & chunk & ws & hash & size & Hid & E1 & E2 & Hp).
  pose proof Ho as (rows & Hrep & _).
  apply Hwf, DataChunk_range_ok in Hid. rewrite E1, E2, <- surjective_pairing in Hid.
  pose proof (push_chunk_cases (cb_p c)
    (mkPushChunk (dc_top chunk) range hash size ws (cb_version c)) rows Hrep Hid) as Hc.
  rewrite Hp in Hc. destruct r as [[] | e |]; [by eapply appended_inv | | by subst].
  destruct e; try by subst; try done.
  destruct Hc as (_ & _ & Hc). destruct (wb_check_continuity (cb_p c)); [by subst |].
  by eapply appended_inv.
Qed.

(** What any finish of a chunk changes: the open dataset, by a row, whose worker
    offset is missing exactly when the dataset ran out of worker references. *)
Definition row_frame (r : res BuildError unit) (b b' : WorkerAssignmentBuilder) : Prop :=
  exists lb c k, b' = set_open b lb (wb_all_datasets b) (wb_current_generations b) c
  /\ length (wc_first_blocks c) = (k + length (wc_first_blocks (wb_columns b)))%nat
  /\ match r with
     | Err TooManyWorkerRefs => k = 1%nat /\ length (wc_worker_ends c) = length (wc_worker_ends (wb_columns b))
     | _ => length (wc_worker_ends c) = (k + length (wc_worker_ends (wb_columns b)))%nat
     end.

Lemma row_frame_refl r b : r <> Err TooManyWorkerRefs -> row_frame r b b.
Proof.
  intros Hr. exists (wb_last_block b), (wb_columns b), 0%nat. split; [by destruct b |]. split; [done |].
  by destruct r as [| [] |].
Qed.

Lemma append_chunk_frame chunk b : row_frame (fst (append_chunk chunk b)) b (snd (append_chunk chunk b)).
Proof.
  unfold append_chunk, cbind, clift, cget, cmodify.
  destruct (try_u32 TooManyChunks _) as [ix | e |] eqn:E1; [| unfold try_u32 in E1; case_match; simplify_eq ..];
    [| by apply row_frame_refl].
  destruct (sub_u64 _ _) as [span | e |] eqn:E2; [| unfold sub_u64 in E2; repeat case_match; simplify_eq ..];
    [| by apply row_frame_refl].
  destruct (try_u32 ChunkTooLong _) as [dl | e |] eqn:E3; [| unfold try_u32 in E3; case_match; simplify_eq ..];
    [| by apply row_frame_refl].
  destruct (try_u32 TooManyWorkerRefs _) as [en | e |] eqn:E4; [| unfold try_u32 in E4; case_match; simplify_eq ..];
    eexists _, _, 1%nat; (split; [reflexivity |]); cbn; rewrite ?length_app; cbn; split; try split; lia.
Qed.

Lemma push_chunk_frame chunk b : row_frame (fst (push_chunk chunk b)) b (snd (push_chunk chunk b)).
Proof.
  unfold push_chunk. cbv zeta. set (start := fst (pc_block_range chunk)).
  set (cont := match wb_last_block b with Some _ => _ | None => _ end).
  assert (cont = Panic \/ cont = Ok tt \/ exists last, cont = Err (NotContiguous last start)) as Hcont.
  { unfold cont. destruct (wb_last_block b) as [last |]; [| auto].
    unfold add_u64. repeat case_match; cbn; eauto; case_match; eauto. }
  clearbody cont. pose proof (append_chunk_frame chunk b) as Ha.
  destruct Hcont as [-> | [-> | (last & ->)]]; [by apply row_frame_refl | |]; cbn;
    [| destruct (wb_check_continuity b); [by apply row_frame_refl |]];
    unfold cbind; destruct (append_chunk chunk b) as [[[] | e |] b']; exact Ha.
Qed.

Lemma cb_finish_frame c : row_frame (fst (cb_finish c)) (cb_p c) (snd (cb_finish c)).
Proof.
  destruct (cb_finish c) as [r b'] eqn:Hf. cbn. apply cb_finish_push in Hf as [[-> Hr] | [chunk Hp]].
  - by apply row_frame_refl.
  - pose proof (push_chunk_frame chunk (cb_p c)) as Hc. by rewrite Hp in Hc.
Qed.

Lemma chunk_step_workers c r b' : cb_finish c = (r, b') -> workers_inv (cb_p c) -> workers_inv b'.
Proof.
  intros Hf Hw. pose proof (cb_finish_frame c) as Hr. rewrite Hf in Hr.
  destruct Hr as (lb & cols & k & E & _). cbn in E. by subst b'.
Qed.

(** A dataset is emitted, or discarded. *)
Lemma dataset_finish_cases b name url r b' :
  dataset_finish (new_dataset name url b) = (r, b') ->
  (r = Ok tt /\ exists lb, wb_last_block b = Some lb /\
     b' = set_open b None (wb_all_datasets b ++ [dataset_of_columns name url lb (create_generations b) (wb_columns b)])
            ∅ WorkerDatasetColumns_default)
  \/ (r <> Ok tt /\ exists lb gens cols, b' = set_open b lb (wb_all_datasets b) gens cols)
     /\ (forall e, r = Err e -> clean b').
Proof.
  unfold dataset_finish, emit_dataset, cbind, clift, cget, cmodify. cbn [wdb_p wdb_id wdb_base_url new_dataset].
  destruct (ensure _ _) as [[] | e |] eqn:E1; [| unfold ensure in E1; case_match; simplify_eq ..].
  2: { intros [= <- <-]. right. split; [split; [done |]; by eexists _, _, _ | done]. }
  destruct (check_top_runs _) as [[] | e |].
  - destruct (wb_last_block b) as [lb |]; cbn [expect]; intros [= <- <-]; [left; split; [done |]; by exists lb |].
    right. split; [split; [done |]; by eexists _, _, _ | done].
  - intros [= <- <-]. right. split; [split; [done |]; by eexists _, _, _ | done].
  - intros [= <- <-]. right. split; [split; [done |] | done].
    exists (wb_last_block b), (wb_current_generations b), (wb_columns b). by destruct b.
Qed.

Lemma finish_step_inv b name url r b' :
  dataset_finish (new_dataset name url b) = (r, b') ->
  open_inv b -> datasets_inv b -> open_inv b' /\ datasets_inv b'.
Proof.
  intros Hf (rows & Hrep & Hl) Hd. destruct rows as [| row rows].
  - unfold dataset_finish, emit_dataset, cbind, clift, cget in Hf.
    cbn [wdb_p new_dataset] in Hf. rewrite (wrep_first _ _ Hrep) in Hf. cbn in Hf. simplify_eq.
    split; [by apply clean_open_inv | done].
  - destruct (Hl ltac:(done)) as [lb Hlb]. unfold new_dataset in Hf.
    erewrite emit_Ok in Hf by done. simplify_eq. split; [by apply clean_open_inv |].
    unfold datasets_inv. cbn. apply Forall_app. split; [done |].
    repeat constructor. by eapply emitted_checks.
Qed.

Lemma finish_step_workers b name url r b' :
  dataset_finish (new_dataset name url b) = (r, b') -> workers_inv b -> workers_inv b'.
Proof.
  intros [(_ & lb & _ & ->) | [(_ & lb & gens & cols & ->) _]]%dataset_finish_cases; done.
Qed.

Lemma peer_sorted_snoc ids p id :
  Sorted peer_lt ids -> last ids = Some p -> peer_lt p id -> Sorted peer_lt (ids ++ [id]).
Proof.
  intros Hs. revert p. induction Hs as [| x ids Hs IH Hh]; intros p Hl Hp; [done |].
  cbn. destruct ids as [| y ids].
  - cbn in Hl. simplify_eq. repeat constructor. done.
  - constructor; [by eapply IH |]. inv Hh. by constructor.
Qed.

(** Adding an entry for a peer above the last one. *)
Lemma push_worker_inv b id e wid rng ident :
  winv b -> assert_ascending id b = true ->
  WorkerId_from (E := BuildError) id = Ok (we_worker_id e) ->
  winv (set_workers b rng (wb_worker_entries b ++ [(wid, e)]) (Some id) ident).
Proof.
  intros (Ho & Hd & (ids & Hf & Hs & Hl)) Ha He. split; [exact Ho |]. split; [exact Hd |].
  exists (ids ++ [id]). cbn. split; [| split].
  - apply Forall2_app; [done |]. by repeat constructor.
  - unfold assert_ascending in Ha. rewrite Hl in Ha.
    destruct (last ids) as [p |] eqn:Hlast.
    + eapply peer_sorted_snoc; [done | done |]. unfold peer_lt. by destruct (peer_cmp p id).
    + apply last_None in Hlast as ->. repeat constructor.
  - by rewrite last_snoc.
Qed.

Lemma generate_headers_frame id t b r b' :
  generate_encrypted_headers id t b = (r, b') ->
  exists rng ident, b' = set_workers b rng (wb_worker_entries b) (wb_last_peer_id b) ident.
Proof.
  unfold generate_encrypted_headers. destruct (encrypt_with_rng _ _ _ _) as [[[c n] | e |] rng].
  all: intros; simplify_eq; eauto.
Qed.

Lemma add_worker_inv id status t b b' :
  add_worker_with_timestamp id status t b = (Ok tt, b') -> winv b -> winv b'.
Proof.
  unfold add_worker_with_timestamp. intros Hf Hinv. repeat cinv Hf.
  destruct (generate_encrypted_headers _ _ _) as [r b1] eqn:Hg.
  apply generate_headers_frame in Hg as (rng & ident & ->).
  destruct r as [h | e |]; [| | done]; simplify_eq; unfold push_worker; cbn;
    by apply (push_worker_inv b id).
Qed.

Lemma add_sealed_inv id status i n c b b' :
  add_worker_with_sealed_headers id status i n c b = (Ok tt, b') -> winv b -> winv b'.
Proof.
  unfold add_worker_with_sealed_headers. intros Hf Hinv. repeat cinv Hf.
  unfold cmodify in Hf. simplify_eq. unfold push_worker; cbn. by apply (push_worker_inv b id).
Qed.

Lemma wstep_inv b b' : wstep b b' -> winv b -> winv b'.
Proof.
  destruct 1; intros Hinv.
  - by eapply winv_same.
  - apply register_write_schema_frame in H2 as [-> | ->]; [done | by eapply winv_same].
  - apply register_generation_frame in H2 as [-> | [g ->]]; [done | by eapply winv_same].
  - by eapply winv_same.
  - destruct Hinv as (Ho & Hd & Hw). pose proof (chunk_step_workers _ _ _ H3 Hw).
    by destruct (chunk_step_inv c r b' H2 H3 H4 Ho Hd).
  - destruct Hinv as (Ho & Hd & Hw). pose proof (finish_step_workers _ _ _ _ _ H2 Hw).
    by destruct (finish_step_inv b name url r b' H2 Ho Hd).
  - split; [by apply clean_open_inv | apply Hinv].
  - by eapply add_worker_inv.
  - by eapply add_sealed_inv.
Qed.

Lemma reachable_inv b : reachable b -> winv b.
Proof.
  intros (secret & rng & Hr). unfold new_with_rng in Hr.
  destruct (generate_key rng) as [key rng'].
  remember (mkWorkerAssignmentBuilder _ _ _ _ _ _ _ _ _ _ _ _ _ _) as b0 eqn:Hb0.
  assert (winv b0) as Hinit.
  { subst. split; [by apply clean_open_inv |]. split; [constructor |].
    exists []. split; [constructor |]. split; [constructor | done]. }
  clear Hb0. induction Hr; eauto using wstep_inv.
Qed.
End reach.

(** ** Reading a reachable builder's buffer *)

Section reach_facts.
Context `{BuildProfile, PeerIdOps, CryptoOps}.

Lemma check_datasets_ok l :
  Forall (fun ds => check_worker_dataset ds = Ok tt) l -> check_worker_datasets l = Ok tt.
Proof. induction 1 as [| ds l Hd _ IH]; [done |]. cbn [check_worker_datasets]. by rewrite Hd. Qed.

Lemma peer_sorted_lookup `{!PeerIdLaws} ids i j p q :
  Sorted peer_lt ids -> (i < j)%nat -> ids !! i = Some p -> ids !! j = Some q -> peer_lt p q.
Proof.
  intros Hs Hij Hi Hj.
  assert (Transitive peer_lt) by (intros ???; apply peer_cmp_trans).
  apply Sorted_StronglySorted in Hs; [| done].
  rewrite <- (take_drop_middle _ _ _ Hj) in Hs.
  apply (StronglySorted_app_1_elem_of peer_lt _ _ _ _ Hs); [| by left].
  apply list_elem_of_lookup. exists i. by rewrite lookup_take_lt by lia.
Qed.

Lemma peer_cmp_sorted `{!PeerIdLaws} ids id :
  Sorted peer_lt ids -> cmp_sorted (fun p => peer_cmp p id) ids.
Proof.
  intros Hs i j p q Hij Hi Hj. pose proof (peer_sorted_lookup _ _ _ _ _ Hs Hij Hi Hj) as Hpq.
  unfold peer_lt in Hpq. split.
  - intros Hp. assert (peer_cmp id p = Lt) as Hip by (by rewrite peer_cmp_antisym, Hp).
    rewrite (peer_cmp_antisym id q), (peer_cmp_trans id p q); done.
  - intros Hq. by apply (peer_cmp_trans p q id).
Qed.

(** The peer of an entry: its id parses back. *)
Definition entry_peer (e : WorkerEntry) : option PeerId := WorkerId_try_into (we_worker_id e).

Lemma workers_parse `{!PeerIdLaws} (b : WorkerAssignmentBuilder) :
  (forall p, length (peer_to_bytes p) = 38%nat) -> workers_inv b ->
  exists ids, Sorted peer_lt ids /\ entry_peer <$> (snd <$> wb_worker_entries b) = Some <$> ids.
Proof.
  intros H38 (ids & Hf & Hs & _). exists ids. split; [done |].
  induction Hf as [| id e ids es He _ IH]; [done |]. cbn. f_equal.
  - by eapply WorkerId_roundtrip.
  - apply IH. by inv Hs.
Qed.

Lemma entry_cmp_ok {E} id (es : list WorkerEntry) (ids : list PeerId) :
  entry_peer <$> es = Some <$> ids -> forall e, e ∈ es ->
  exists p, p ∈ ids /\ entry_peer e = Some p /\ entry_cmp (E := E) id e = Ok (peer_cmp p id).
Proof.
  intros Hm e He. assert (entry_peer e ∈ entry_peer <$> es) as Hin by (by apply list_elem_of_fmap_2).
  rewrite Hm in Hin. apply list_elem_of_fmap in Hin as (p & Hp & Hin).
  exists p. split; [done |]. split; [done |]. unfold entry_cmp.
  unfold entry_peer in Hp. by rewrite Hp.
Qed.

Lemma check_dense_In ds n l name len :
  check_dense ds n l = Ok tt -> (name, len) ∈ l -> len = n.
Proof.
  induction l as [| [name' len'] l IH]; intros Hc Hin; [by apply elem_of_nil in Hin |].
  cbn in Hc. destruct (len' =? n)%nat eqn:He; cbn in Hc; [zbool | done].
  apply elem_of_cons in Hin as [[= -> ->] | Hin]; [done | by apply IH].
Qed.

Lemma checked_offsets ds i :
  check_worker_dataset ds = Ok tt -> (i < wd_chunk_count ds)%nat ->
  is_Some (wd_worker_offsets ds !! i) /\ is_Some (wd_worker_offsets ds !! (i + 1)%nat).
Proof.
  unfold check_worker_dataset, check_columns. intros Hc Hi.
  destruct (check_dense _ _ _) as [[] | |] eqn:Hd; [| done..].
  assert (length (wd_worker_offsets ds) - 1 = wd_chunk_count ds)%nat.
  { eapply check_dense_In; [exact Hd |]. unfold worker_dense.
    do 4 right. left. }
  split; apply lookup_lt_is_Some_2; lia.
Qed.

(** One round of the scan. *)
Definition holds (w : AssignedWorker) (ds : WorkerAssignmentDataset) (i : nat)
    : option WorkerChunk :=
  match csr_slice (E := Empty_set) (wd_worker_offsets ds) (wd_worker_indexes ds) (Z.of_nat i) with
  | Ok ws => if existsb (fun j => j =? aw_index w) ws then Some (mkWorkerChunk ds (Z.of_nat i)) else None
  | _ => None
  end.

Lemma slice_range_min {A} (xs : list A) a b :
  slice_range xs a (Nat.min b (length xs)) = slice_range xs a b.
Proof. unfold slice_range. by rewrite <- Nat.min_assoc, Nat.min_id. Qed.

Lemma holds_ok (w : AssignedWorker) ds i :
  (i < wd_chunk_count ds)%nat /\ (is_Some (wd_worker_offsets ds !! i)
     /\ is_Some (wd_worker_offsets ds !! (i + 1)%nat)) ->
  (start ← vget (wd_worker_offsets ds) i;
   end_ ← vget (wd_worker_offsets ds) (i + 1);
   Ok (E := Empty_set)
     (if existsb (fun j => j =? aw_index w)
           (slice_range (wd_worker_indexes ds) (Z.to_nat start)
              (Nat.min (Z.to_nat end_) (length (wd_worker_indexes ds))))
      then Some (mkWorkerChunk ds (Z.of_nat i)) else None)) = Ok (holds w ds i).
Proof.
  intros (_ & [s Hs] & [e He]). unfold holds, csr_slice. rewrite Nat2Z.id.
  rewrite !(vget_Some _ _ _ Hs), !(vget_Some _ _ _ He). cbn. by rewrite slice_range_min.
Qed.

Lemma holds_Some w ds i k :
  holds w ds i = Some k <-> exists ws, k = mkWorkerChunk ds (Z.of_nat i)
    /\ wk_worker_indexes (E := Empty_set) k = Ok ws /\ aw_index w ∈ ws.
Proof.
  unfold holds, wk_worker_indexes. split.
  - destruct (csr_slice _ _ _) as [ws | |] eqn:Hc; [| done..].
    destruct (existsb _ ws) eqn:He; [| done]. intros [= <-]. exists ws. cbn.
    split; [done |]. split; [done |]. apply existsb_exists in He as (j & Hj & Hw).
    apply Z.eqb_eq in Hw as ->. by apply list_elem_of_In.
  - intros (ws & -> & Hws & Hin). cbn in Hws. rewrite Hws.
    rewrite (proj2 (existsb_exists _ _)); [done |].
    exists (aw_index w). split; [by apply list_elem_of_In | apply Z.eqb_refl].
Qed.

Lemma holds_index w ds i k : holds w ds i = Some k -> wk_index k = Z.of_nat i.
Proof. intros (? & -> & _)%holds_Some. done. Qed.

Lemma omap_seq_sorted (g : nat -> option WorkerChunk) a n :
  (forall i k, g i = Some k -> wk_index k = Z.of_nat i) ->
  StronglySorted (fun k k' => wk_index k < wk_index k') (omap g (seq a n)).
Proof.
  intros Hg. revert a. induction n as [| n IH]; intros a; cbn; [constructor |].
  destruct (g a) as [k |] eqn:Hk; [| apply IH]. constructor; [apply IH |].
  apply Forall_forall. intros k' Hk'. apply list_elem_of_omap in Hk' as (i & Hi & Hgi).
  apply elem_of_seq in Hi. rewrite (Hg _ _ Hk), (Hg _ _ Hgi). lia.
Qed.

(** Staging a chunk is made of the calls of [wstep]. *)
Lemma stage_steps s b b' :
  DataChunk_wf (ws_id s) -> stage s b = (Ok tt, b') -> rtc wstep b b'.
Proof.
  intros Hwf. unfold stage. destruct (ws_tables s) as [tables |] eqn:Ht.
  - destruct (cb_tables _ _) as [[[] | |] c] eqn:Hc; [| done..]. intros Hf.
    apply cb_tables_Ok in Hc as (ws & roster & bits & _ & _ & _ & ->).
    eapply rtc_l; [eapply (wstep_new_chunk b (ws_workers s) bits) |].
    apply rtc_once. eapply (wstep_chunk _ _ _ _ Hf). done.
  - intros Hf. eapply rtc_l; [eapply (wstep_new_chunk b (ws_workers s) []) |].
    apply rtc_once. eapply (wstep_chunk _ _ _ _ Hf). done.
  Unshelve. all: cbn; by intros ? [= <-].
Qed.

Lemma stage_all_steps specs b b' :
  Forall (fun s => DataChunk_wf (ws_id s)) specs -> stage_all specs b = (Ok tt, b') ->
  rtc wstep b b'.
Proof.
  intros Hwf. revert b. induction Hwf as [| s specs Hs _ IH]; intros b Hf.
  - cbn in Hf. by injection Hf as <-.
  - cbn [stage_all] in Hf. apply cbind_Ok in Hf as ([] & b1 & Hf1 & Hf).
    etrans; [by eapply stage_steps | by apply IH].
Qed.
End reach_facts.

Section reach_properties.
Context `{BuildProfile, PeerIdOps, CryptoOps}.

Lemma worker_accepts `{!Flatbuffer WorkerAssignment} `{!FlatbufferLaws WorkerAssignment}
    (b : WorkerAssignmentBuilder) (Hb : reachable b) (Ht : fb_typed (assignment_of b)) :
  worker_from_owned (finish b) = Ok (assignment_of b).
Proof.
  apply reachable_inv in Hb as (_ & Hd & _). unfold worker_from_owned, finish.
  rewrite fb_root_finish by done. cbn. by rewrite check_datasets_ok.
Qed.

(** Whatever calls of [wstep] built it, the buffer a builder finishes, of numbers
    within their Rust types, is accepted by [WorkerAssignment::from_owned] and reads
    as the tables that were written: the columns of every dataset agree in length
    and its top runs start at chunk 0. *)
Theorem worker_reader_accepts_builder `{!Flatbuffer WorkerAssignment}
    `{!FlatbufferLaws WorkerAssignment} (b : WorkerAssignmentBuilder) (Hb : reachable b)
    (Ht : fb_typed (assignment_of b)) :
  worker_from_owned (finish b) = Ok (assignment_of b).
Proof. by apply worker_accepts. Qed.

(** In what any calls of [wstep] finished, [get_worker] never panics and
    finds exactly the workers that were added: it answers an entry carrying the
    id asked for together with its position, and [None] only when no entry
    carries it. *)
Theorem get_worker_correct `{!PeerIdLaws} (b : WorkerAssignmentBuilder) (id : PeerId)
    (Hb : reachable b) (H38 : forall p, length (peer_to_bytes p) = 38%nat) :
  exists o, wa_get_worker (E := Empty_set) (assignment_of b) id = Ok o /\
  match o with
  | Some w => aw_peer_id w = Some id /\ exists i,
      wa_workers (assignment_of b) !! i = Some (aw_reader w)
      /\ aw_index w = Z.of_nat i mod 2 ^ 16
  | None => forall e, e ∈ wa_workers (assignment_of b) -> entry_peer e <> Some id
  end.
Proof.
  apply reachable_inv in Hb as (_ & _ & Hw).
  destruct (workers_parse b H38 Hw) as (ids & Hs & Hm).
  set (es := wa_workers (assignment_of b)). change (entry_peer <$> es = Some <$> ids) in Hm.
  set (g := fun e => match entry_peer e with Some p => peer_cmp p id | None => Eq end).
  destruct (lookup_index_by_key_ok es (entry_cmp (E := Empty_set) id) g) as (o & Ho & Hspec).
  { intros e He. destruct (entry_cmp_ok (E := Empty_set) id es ids Hm e He) as (p & _ & Hp & ->).
    unfold g. by rewrite Hp. }
  { intros i j x y Hij Hx Hy.
    assert (forall k z, es !! k = Some z -> exists p, ids !! k = Some p /\ g z = peer_cmp p id) as Hk.
    { intros k z Hz. assert ((entry_peer <$> es) !! k = Some (entry_peer z)) as Hl
        by (by rewrite list_lookup_fmap, Hz).
      rewrite Hm, list_lookup_fmap in Hl. destruct (ids !! k) as [p |]; [| done].
      exists p. split; [done |]. unfold g. cbn in Hl. by injection Hl as <-. }
    destruct (Hk _ _ Hx) as (p & Hp & ->), (Hk _ _ Hy) as (q & Hq & ->).
    by apply (peer_cmp_sorted ids id Hs i j). }
  unfold wa_get_worker. fold es. rewrite Ho. cbn [mbind res_bind].
  destruct o as [i |].
  - destruct Hspec as (e & He & Hg). rewrite (vget_Some _ _ _ He).
    eexists. split; [reflexivity |]. cbn.
    destruct (entry_cmp_ok (E := Empty_set) id es ids Hm e) as (p & _ & Hp & _);
      [by eapply list_elem_of_lookup_2 |].
    unfold g in Hg. rewrite Hp in Hg. apply peer_cmp_eq in Hg as ->. eauto.
  - eexists. split; [reflexivity |]. intros e He Hp. apply (Hspec e He).
    unfold g. rewrite Hp. by apply peer_cmp_eq.
Qed.

(** C12: On a dataset the reader accepted, the scan that finds a worker's chunks
    answers, in order, exactly the chunks whose own [worker_indexes] name the
    worker, and never panics. *)
Theorem holdings_correct (w : AssignedWorker) (ds : WorkerAssignmentDataset)
    (Hds : check_worker_dataset ds = Ok tt) :
  exists cs, holdings (E := Empty_set) w ds = Ok cs
  /\ StronglySorted (fun k k' => wk_index k < wk_index k') cs
  /\ forall k, k ∈ cs <-> exists i ws,
       (i < wd_chunk_count ds)%nat /\ k = mkWorkerChunk ds (Z.of_nat i)
       /\ wk_worker_indexes (E := Empty_set) k = Ok ws /\ aw_index w ∈ ws.
Proof.
  pose proof (fun i => checked_offsets ds i Hds) as Hoff.
  eexists. split.
  { unfold holdings. cbv zeta. apply (rfilter_map_ok _ (holds w ds)).
    intros i Hi. apply elem_of_seq in Hi. apply holds_ok. split; [lia | apply Hoff; lia]. }
  split; [apply omap_seq_sorted, holds_index |].
  intros k. rewrite list_elem_of_omap. split.
  - intros (i & Hi & Hh). apply elem_of_seq in Hi.
    apply holds_Some in Hh as (ws & -> & Hws & Hin). exists i, ws. split; [lia | done].
  - intros (i & ws & Hi & -> & Hws & Hin). exists i. split; [apply elem_of_seq; lia |].
    apply holds_Some. eauto.
Qed.
End reach_properties.
