(* ===== verification/WorkerTables.v ===== *)
(** * The worker assignment: tables and urls

    The bitmap of a chunk's tables, from [tables_present] of the chunk builder
    to [chunk_tables] of the reader, and the url of a chunk through the
    generation its version names.  The witnesses of the worker assignment's
    properties are here, on a two-chunk dataset. *)

From S2P Require Import Prelude RustStd DataChunk Search AssignmentFb Sealing Columns Instances WorkerBuilder.
From S2P Require Import WorkerReader WorkerTheory WorkerProps WorkerReach.
From Stdlib Require Import ZArith Lia Ascii String.
From stdpp Require Import base sets strings gmap sorting relations numbers countable list.

Open Scope Z_scope.

(** ** Definitions *)

(** A url that ends in exactly the separator the chunk id is appended to. *)
Definition with_slash (url : str) : str :=
  if negb (ends_with "/" url) then url ++ ["/"%char] else url.

(** ** The loop of [tables_present] accepts the sublists of a roster *)

Lemma select_sublist bits k rest : select bits k rest `sublist_of` rest.
Proof.
  revert k. induction rest as [| t rest IH]; intros k; cbn; [done |].
  case_match; by constructor.
Qed.

Lemma sublist_cons_drop (name : str) tables roster index :
  name :: tables `sublist_of` drop index roster ->
  exists m, (index <= m)%nat /\ roster !! m = Some name /\ tables `sublist_of` drop (S m) roster.
Proof.
  intros Hs. apply sublist_cons_l in Hs as (k1 & k2 & Hd & Hs).
  assert (roster !! (index + length k1)%nat = Some name) as Hm.
  { rewrite <- lookup_drop, Hd, lookup_app_r, Nat.sub_diag by lia. done. }
  exists (index + length k1)%nat. split; [lia |]. split; [done |].
  assert (drop (S (index + length k1)) roster = k2) as ->; [| done].
  replace (S (index + length k1))%nat with (index + (length k1 + 1))%nat by lia.
  rewrite <- drop_drop, Hd, <- drop_drop, drop_app_length. done.
Qed.

Lemma skip_below_drop roster name index m :
  (index <= m)%nat -> roster !! m = Some name ->
  (forall i t, (index <= i < m)%nat -> roster !! i = Some t -> str_ltb t name = true) ->
  skip_below name (drop index roster) index = m.
Proof.
  intros Hle Hm Hlt. remember (m - index)%nat as n eqn:Hn. revert index Hle Hn Hlt.
  induction n as [| n IH]; intros index Hle Hn Hlt.
  - replace index with m by lia. rewrite (drop_S _ _ _ Hm). cbn. by rewrite str_ltb_irrefl.
  - pose proof (lookup_lt_Some _ _ _ Hm).
    destruct (lookup_lt_is_Some_2 roster index) as [t Ht]; [lia |].
    rewrite (drop_S _ _ _ Ht). cbn. rewrite (Hlt index t) by (lia || done).
    apply IH; [lia | lia |]. intros i t' Hi. apply Hlt. lia.
Qed.

Lemma roster_sorted_lookup roster i j s t :
  is_sorted_by str_ltb roster = true -> (i < j)%nat ->
  roster !! i = Some s -> roster !! j = Some t -> str_ltb s t = true.
Proof.
  intros Hs Hij Hi Hj. apply is_sorted_by_Sorted in Hs.
  apply Sorted_StronglySorted in Hs; [| intros ???; apply str_ltb_trans].
  rewrite <- (take_drop_middle _ _ _ Hj) in Hs.
  apply (StronglySorted_app_1_elem_of _ _ _ _ _ Hs); [| by left].
  apply list_elem_of_lookup. exists i. by rewrite lookup_take_lt by lia.
Qed.

Lemma bit_index_in_range (roster : list str) (bits : list Z) m t :
  length bits = div_ceil8 (length roster) -> roster !! m = Some t -> is_Some (bits !! (m / 8)%nat).
Proof.
  intros Hl Hm%(lookup_lt_Some (A := str)). apply lookup_lt_is_Some_2.
  rewrite Hl. unfold div_ceil8.
  apply Nat.lt_le_trans with (m / 8 + 1)%nat; [lia |].
  replace (m / 8 + 1)%nat with ((m + 1 * 8) / 8)%nat by (by rewrite Nat.div_add).
  apply Nat.Div0.div_le_mono. lia.
Qed.

Lemma tables_loop_complete roster tables index bits :
  is_sorted_by str_ltb roster = true -> length bits = div_ceil8 (length roster) ->
  tables `sublist_of` drop index roster ->
  exists bits', tables_loop roster tables index bits = (Ok tt, bits').
Proof.
  intros Hs. revert index bits. induction tables as [| name tables IH]; intros index bits Hl Hsub.
  - eexists. done.
  - apply sublist_cons_drop in Hsub as (m & Hle & Hm & Hsub). cbn [tables_loop].
    rewrite (skip_below_drop roster name index m Hle Hm).
    2: { intros i t Hi Ht. apply (roster_sorted_lookup roster i m); [done | lia | done..]. }
    rewrite Hm. unfold str_eqb. rewrite bool_decide_eq_true_2 by done.
    destruct (bit_index_in_range roster bits m name Hl Hm) as [byte Hb]. rewrite Hb.
    apply IH; [by rewrite length_insert |]. by rewrite Nat.add_1_r.
Qed.

Lemma tables_loop_no_panic roster tables index bits :
  length bits = div_ceil8 (length roster) ->
  match tables_loop roster tables index bits with
  | (Ok _, _) | (Err TableAbsent, _) => True
  | _ => False
  end.
Proof.
  revert index bits. induction tables as [| name tables IH]; intros index bits Hl; [done |].
  cbn [tables_loop]. set (m := skip_below _ _ _). destruct (roster !! m) as [t |] eqn:Hm; [| done].
  destruct (str_eqb t name); [| done].
  destruct (bit_index_in_range roster bits m t Hl Hm) as [byte ->].
  apply IH. by rewrite length_insert.
Qed.

(** For a registered (strictly ascending) roster, [tables_present] accepts a
    list of tables exactly when it is a sublist of the roster, which includes
    being ascending and duplicate-free; the bitmap it stages then selects that
    very list.  Any other list is the "absent from the roster" error, never a
    panic or a wrong bitmap. *)
Theorem tables_present_correct (roster tables : list str)
    (Hs : is_sorted_by str_ltb roster = true) :
  match tables_loop roster tables 0 (replicate (div_ceil8 (length roster)) 0) with
  | (Ok _, bits) => tables `sublist_of` roster /\ select bits 0 roster = tables
      /\ length bits = div_ceil8 (length roster)
  | (Err TableAbsent, _) => ~ tables `sublist_of` roster
  | _ => False
  end.
Proof.
  set (zeros := replicate _ _).
  assert (length zeros = div_ceil8 (length roster)) as Hz by apply length_replicate.
  pose proof (tables_loop_no_panic roster tables 0 zeros Hz) as Hp.
  destruct (tables_loop roster tables 0 zeros) as [[[] | e |] bits] eqn:Hl.
  - apply tables_loop_sound in Hl as (Hsel & _ & Hlen); [| intros; apply bit_present_zeros].
    rewrite drop_0 in Hsel. rewrite <- Hsel at 1. split; [apply select_sublist |].
    split; [done | by rewrite Hlen].
  - destruct e; try done. intros Hsub.
    destruct (tables_loop_complete roster tables 0 zeros Hs Hz) as (bits' & Hl'); [done |].
    rewrite Hl' in Hl. done.
  - done.
Qed.

(** ** Rosters and generations are found again *)

Section lookup_facts.
Context `{VectorLookup, !VectorLookupLaws}.

(** Looking an integer key up in what a [BTreeMap] emits. *)
Lemma lookup_btree {V A} (m : gmap Z V) (f : Z * V -> A) (key : A -> Z) k v :
  (forall p, key (f p) = p.1) -> m !! k = Some v ->
  lookup_by_key (f <$> btree_iter m) (fun x => Z.compare (key x) k) = Some (f (k, v)).
Proof.
  intros Hkey Hm. destruct (lookup_by_key _ _) as [x |] eqn:Hl.
  - apply lookup_by_key_Some in Hl as [Hin Hc]. apply Z.compare_eq_iff in Hc.
    apply list_elem_of_fmap in Hin as ([k' v'] & -> & Hin). rewrite Hkey in Hc. cbn in Hc. subst.
    apply elem_of_btree_iter in Hin. by simplify_eq.
  - exfalso. eapply (lookup_by_key_None _ _); [| exact Hl | |].
    + apply cmp_sorted_Z. intros i j x y Hij Hx Hy.
      rewrite list_lookup_fmap in Hx, Hy.
      destruct (btree_iter m !! i) as [p |] eqn:Hp; [| done].
      destruct (btree_iter m !! j) as [q |] eqn:Hq; [| done].
      cbn in Hx, Hy. simplify_eq. rewrite !Hkey.
      pose proof (btree_iter_sorted m i j p q Hij Hp Hq). lia.
    + apply list_elem_of_fmap. exists (k, v). split; [done |]. by apply elem_of_btree_iter.
    + cbn. apply Z.compare_eq_iff. by rewrite Hkey.
Qed.
End lookup_facts.

Section tables_properties.
Context `{BuildProfile, PeerIdOps, CryptoOps, VectorLookup, !VectorLookupLaws}.

Lemma get_write_schema_ok (b : WorkerAssignmentBuilder) n roster :
  wb_write_schemas b !! n = Some roster ->
  get_write_schema (assignment_of b) n = Some (mkTableRoster n roster).
Proof.
  intros Hn. unfold get_write_schema. cbn. unfold create_write_schema_rosters.
  by apply (lookup_btree _ (fun '(k, t) => mkTableRoster k t) tr_write_schema_id n roster);
    [intros [] |].
Qed.

Lemma chunk_tables_ok {E : Type} (b : WorkerAssignmentBuilder) k n roster bits :
  wb_write_schemas b !! n = Some roster -> wk_write_schema_id (E := E) k = Ok n ->
  wk_tables_present (E := E) k = Ok (if (length bits =? 0)%nat then None else Some bits) ->
  chunk_tables (E := E) (assignment_of b) k
  = Ok (Some (if (length bits =? 0)%nat then roster else select bits 0 roster)).
Proof.
  intros Hr Hn Ht. unfold chunk_tables. rewrite Hn. cbn [mbind res_bind].
  rewrite (get_write_schema_ok b n roster Hr), Ht. cbn [mbind res_bind tr_tables].
  do 2 f_equal. case_match.
  - apply (roster_full roster 0).
  - apply (select_imap bits roster 0).
Qed.

(** The tables a chunk was staged with are the tables the reader lists for
    it: the given subset of its write schema's roster, or the whole roster when
    none was given. *)
Theorem worker_tables_roundtrip (b b' : WorkerAssignmentBuilder) specs name url
    (Hclean : clean b)
    (Hwf : Forall (fun s => DataChunk_wf (ws_id s)) specs)
    (Hst : stage_all specs b = (Ok tt, b'))
    (Hsize : Z.of_nat (length (wc_tables_present (wb_columns b'))) < 2 ^ 32) :
  forall i s, specs !! i = Some s -> exists ds b'' k roster,
    dataset_finish (mkWorkerDatasetBuilder b' name url false) = (Ok tt, b'')
    /\ last (wb_all_datasets b'') = Some ds /\ wd_chunk ds (Z.of_nat i) = Some k
    /\ wb_write_schemas b !! ws_write_schema_id s = Some roster
    /\ chunk_tables (E := Empty_set) (assignment_of b'') k
       = Ok (Some (match ws_tables s with Some tables => tables | None => roster end)).
Proof.
  intros i s Hi. destruct Hclean as [Hc _].
  destruct (stage_all_Ok specs b b' [] Hwf) as (bitss & Hbits & Hrep & Hfr & Hlast); [| done |].
  { rewrite Hc. apply wcols_rep_default. }
  cbn in Hrep. destruct (Forall2_lookup_l _ _ _ _ _ Hbits Hi) as (bits & Hb & roster & Hro & Hsb).
  assert (zip_with row_of specs bitss !! i = Some (row_of s bits)) as Hrow
    by (apply lookup_zip_with_Some; eauto).
  destruct (last specs) as [s0 |] eqn:Hls; [| apply last_None in Hls; by subst].
  eexists _, _, _, roster. split.
  { eapply emit_Ok; [done | | done]. intros H4. by rewrite H4 in Hrow. }
  cbn. rewrite last_snoc. split; [done |].
  split; [by apply (read_chunk _ _ _ _ _ _ Hrep i _ Hrow) |]. split; [done |].
  erewrite (chunk_tables_ok _ _ (ws_write_schema_id s) roster bits).
  - destruct (ws_tables s) as [tables |]; [| by subst bits].
    apply tables_loop_sound in Hsb as (Hsel & _ & Hlen); [| intros; apply bit_present_zeros].
    rewrite drop_0 in Hsel. rewrite length_replicate in Hlen. do 2 f_equal.
    destruct (length bits =? 0)%nat eqn:E0; [| done]. zbool.
    assert (roster = []) as ->; [| done].
    destruct roster as [| t roster]; [done |]. exfalso.
    assert (0 < div_ceil8 (length (t :: roster)))%nat; [| lia].
    unfold div_ceil8. cbn [length]. apply Nat.div_str_pos. lia.
  - cbn. destruct Hfr as (-> & _). done.
  - apply (read_write_schema_id _ _ _ _ _ _ Hrep i _ Hrow).
  - apply (read_tables_present _ _ _ _ _ _ Hrep i _ Hrow).
    by rewrite <- (wrep_bits _ _ Hrep).
Qed.
End tables_properties.

(** ** Urls *)

Section url_properties.
Context `{BuildProfile, PeerIdOps, CryptoOps, VectorLookup, !VectorLookupLaws}.

Lemma stage_all_versions specs b b' rows :
  Forall (fun s => DataChunk_wf (ws_id s)) specs -> wcols_rep rows (wb_columns b) ->
  stage_all specs b = (Ok tt, b') ->
  Forall (fun s => ws_version s = 0 \/ is_Some (wb_current_generations b !! ws_version s)) specs.
Proof.
  intros Hwf. revert b rows. induction Hwf as [| s specs Hs _ IH]; intros b rows Hrep Hf; [done |].
  cbn [stage_all] in Hf. apply cbind_Ok in Hf as ([] & b1 & Hf1 & Hf).
  apply (stage_Ok s b b1 rows) in Hf1 as (bits & _ & Hv & Hrep1 & _ & Hfr); [| done..].
  constructor; [done |]. destruct Hfr as (_ & <- & _). by eapply IH.
Qed.

Lemma get_generation_ok (b : WorkerAssignmentBuilder) ds v prefix :
  wd_generations ds = create_generations b -> wb_current_generations b !! v = Some prefix ->
  get_generation ds v = Some (mkGenerationEntry v prefix).
Proof.
  intros Hg Hv. unfold get_generation. rewrite Hg. unfold create_generations.
  destruct (decide (wb_current_generations b = ∅)) as [He | _].
  { rewrite He, lookup_empty in Hv. done. }
  by apply (lookup_btree _ (fun '(k, u) => mkGenerationEntry k u) ge_version v prefix);
    [intros [] |].
Qed.

(** The url of an emitted chunk is the dataset's base url, for a non-zero
    version extended with the prefix registered for that generation, then one
    separator and the chunk id; it never fails for a staged chunk. *)
Theorem worker_url_correct (b b' : WorkerAssignmentBuilder) specs name url
    (Hclean : clean b)
    (Hwf : Forall (fun s => DataChunk_wf (ws_id s)) specs)
    (Hst : stage_all specs b = (Ok tt, b')) :
  forall i s, specs !! i = Some s -> exists ds b'' k id base,
    dataset_finish (mkWorkerDatasetBuilder b' name url false) = (Ok tt, b'')
    /\ last (wb_all_datasets b'') = Some ds /\ wd_chunk ds (Z.of_nat i) = Some k
    /\ DataChunk_to_string (E := Empty_set) (ws_id s) = Ok id
    /\ (if ws_version s =? 0 then base = url
        else exists prefix, wb_current_generations b !! ws_version s = Some prefix
             /\ base = push_segment url prefix)
    /\ wk_url (E := Empty_set) k = Ok (Some (with_slash base ++ id)).
Proof.
  intros i s Hi. destruct Hclean as [Hc _].
  assert (wcols_rep [] (wb_columns b)) as Hrep0 by (rewrite Hc; apply wcols_rep_default).
  pose proof (stage_all_versions specs b b' [] Hwf Hrep0 Hst) as Hver.
  destruct (stage_all_Ok specs b b' [] Hwf Hrep0 Hst) as (bitss & Hbits & Hrep & Hfr & Hlast).
  cbn in Hrep. destruct (Forall2_lookup_l _ _ _ _ _ Hbits Hi) as (bits & Hb & _).
  assert (zip_with row_of specs bitss !! i = Some (row_of s bits)) as Hrow
    by (apply lookup_zip_with_Some; eauto).
  destruct (last specs) as [s0 |] eqn:Hls; [| apply last_None in Hls; by subst].
  rewrite Forall_lookup in Hwf, Hver. specialize (Hwf i s Hi). specialize (Hver i s Hi).
  destruct (read_hash_wf _ Hwf) as (h & Hh & _).
  set (ds := dataset_of_columns name url (dc_last_block (ws_id s0)) (create_generations b')
               (wb_columns b')).
  assert (exists base, (if ws_version s =? 0 then base = url
        else exists prefix, wb_current_generations b !! ws_version s = Some prefix
             /\ base = push_segment url prefix)
    /\ (if negb (ws_version s =? 0) then
          g ← get_generation ds (ws_version s);
          Some (push_segment (wd_base_url ds) (ge_base_url g))
        else Some (wd_base_url ds)) = Some base) as (base & Hbase & Hlook).
  { edestruct (ds_fields name url (dc_last_block (ws_id s0)) (create_generations b')
      (wb_columns b')) as (_ & _ & _ & _ & _ & _ & _ & _ & _ & _ & Hu & Hg).
    fold ds in Hu, Hg. rewrite Hu. destruct (ws_version s =? 0) eqn:E0; cbn [negb]; [by exists url |].
    zbool. destruct Hver as [? | [prefix Hp]]; [done |].
    exists (push_segment url prefix). split; [by exists prefix |].
    rewrite (get_generation_ok b' ds _ prefix Hg); [done |]. by destruct Hfr as (_ & -> & _). }
  destruct (push_chunk_id_display (E := Empty_set) (with_slash base) _ h Hwf Hh) as (id & Hs & Hp).
  eexists ds, _, _, id, base. split.
  { eapply emit_Ok; [done | | done]. intros H4. by rewrite H4 in Hrow. }
  cbn [wb_all_datasets set_open]. rewrite last_snoc. split; [done |].
  split; [by apply (read_chunk _ _ _ _ _ _ Hrep i _ Hrow) |]. do 2 (split; [done |]).
  unfold wk_url. rewrite (read_hash_column _ _ _ _ _ _ Hrep _ _ Hrow).
  cbn [mbind res_bind]. cbn [pc_hash wr_chunk row_of]. rewrite Hh.
  rewrite (read_version _ _ _ _ _ _ Hrep _ _ Hrow). cbn [mbind res_bind].
  cbn [pc_version wr_chunk row_of wk_dataset]. fold ds. rewrite Hlook. fold (with_slash base).
  unfold ds. rewrite (read_top _ _ _ _ _ _ Hrep _ _ Hrow),
    (read_first_block _ _ _ _ _ _ Hrep _ _ Hrow), (read_last_block _ _ _ _ _ _ Hrep _ _ Hrow).
  cbn [mbind res_bind]. unfold wr_start, wr_end. cbn [fst snd pc_block_range pc_top wr_chunk row_of].
  by rewrite Hp.
Qed.
End url_properties.

(** * The worker assignment: a two-chunk dataset

    A concrete run of the worker builder and reader, with the third-party
    interfaces instantiated, at which the worker assignment's properties are
    applied. *)

#[local] Existing Instances debug_profile toy_peer toy_peer_laws toy_crypto
  linear_lookup linear_lookup_laws.

(** ** Tables are countable, so that they have a codec *)

#[global] Instance TopRun_eq_dec : EqDecision TopRun.
Proof. solve_decision. Defined.
#[global] Instance TopRun_countable : Countable TopRun :=
  inj_countable' (fun r => (first_chunk_index r, run_top r)) (fun '(i, t) => mkTopRun i t)
    (fun r => match r with mkTopRun _ _ => eq_refl end).

#[global] Instance EncryptedHeaders_eq_dec : EqDecision EncryptedHeaders.
Proof. solve_decision. Defined.
#[global] Instance EncryptedHeaders_countable : Countable EncryptedHeaders :=
  inj_countable' (fun r => (identity r, nonce r, ciphertext r))
    (fun '(i, n, c) => mkEncryptedHeaders i n c)
    (fun r => match r with mkEncryptedHeaders _ _ _ => eq_refl end).

#[global] Instance WorkerEntry_eq_dec : EqDecision WorkerEntry.
Proof. solve_decision. Defined.
#[global] Instance WorkerEntry_countable : Countable WorkerEntry :=
  inj_countable' (fun r => (we_worker_id r, we_status r, we_encrypted_headers r))
    (fun '(i, n, c) => mkWorkerEntry i n c)
    (fun r => match r with mkWorkerEntry _ _ _ => eq_refl end).

#[global] Instance TableRoster_eq_dec : EqDecision TableRoster.
Proof. solve_decision. Defined.
#[global] Instance TableRoster_countable : Countable TableRoster :=
  inj_countable' (fun r => (tr_write_schema_id r, tr_tables r)) (fun '(i, t) => mkTableRoster i t)
    (fun r => match r with mkTableRoster _ _ => eq_refl end).

#[global] Instance GenerationEntry_eq_dec : EqDecision GenerationEntry.
Proof. solve_decision. Defined.
#[global] Instance GenerationEntry_countable : Countable GenerationEntry :=
  inj_countable' (fun r => (ge_version r, ge_base_url r)) (fun '(i, t) => mkGenerationEntry i t)
    (fun r => match r with mkGenerationEntry _ _ => eq_refl end).

#[global] Instance WorkerAssignmentDataset_eq_dec : EqDecision WorkerAssignmentDataset.
Proof. solve_decision. Defined.
#[global] Instance WorkerAssignmentDataset_countable : Countable WorkerAssignmentDataset.
Proof.
  refine (inj_countable'
    (fun d => (wd_id d, wd_last_block d, wd_base_url d, wd_generations d, wd_first_blocks d,
               wd_block_deltas d, wd_hashes d, wd_tops d, wd_sizes d, wd_write_schema_ids d,
               wd_tables_present_offsets d, wd_tables_present d, wd_versions d,
               wd_worker_offsets d, wd_worker_indexes d))
    (fun '(a, b, c, d, e, f, g, h, i, j, k, l, m, n, o) =>
       mkWorkerAssignmentDataset a b c d e f g h i j k l m n o) _).
  by intros [].
Defined.

#[global] Instance WorkerAssignment_eq_dec : EqDecision WorkerAssignment.
Proof. solve_decision. Defined.
#[global] Instance WorkerAssignment_countable : Countable WorkerAssignment :=
  inj_countable' (fun r => (wa_datasets r, wa_workers r, wa_schemas r))
    (fun '(i, n, c) => mkWorkerAssignment i n c)
    (fun r => match r with mkWorkerAssignment _ _ _ => eq_refl end).

(** ** The run *)

Definition demo_schema : list str := [lit "blocks"; lit "logs"; lit "transactions"].

Definition demo_chunk (top first last : Z) : DataChunk :=
  mkDataChunk top first last (pad_hash (as_bytes (lit "9QgFD"))).

Definition demo_trimmed : WorkerChunkSpec :=
  mkWorkerChunkSpec (demo_chunk 100 100 249) 20 3 1 (Some [lit "blocks"; lit "transactions"]) [2].

Definition demo_specs : list WorkerChunkSpec :=
  [mkWorkerChunkSpec (demo_chunk 0 0 99) 10 0 1 None [0; 2]; demo_trimmed].

(** A builder with a schema and a generation registered, and nothing staged. *)
Definition demo_open : WorkerAssignmentBuilder :=
  let b := snd (register_write_schema 1 demo_schema (new_with_rng (lit "secret") tt)) in
  wdb_p (snd (register_generation 3 (lit "/_bf/01HQ") (new_dataset (lit "ds") (lit "s3://ds") b))).

Definition demo_staged : WorkerAssignmentBuilder := snd (stage_all demo_specs demo_open).

Definition demo_done : WorkerAssignmentBuilder :=
  snd (dataset_finish (new_dataset (lit "ds") (lit "s3://ds") demo_staged)).

Definition demo_first : WorkerAssignmentBuilder :=
  snd (add_worker_with_timestamp 5 Unreliable 17 demo_done).

Definition demo_workers : WorkerAssignmentBuilder :=
  snd (add_worker_with_timestamp 9 StatusOk 17 demo_first).

Lemma demo_wf : Forall (fun s => DataChunk_wf (ws_id s)) demo_specs.
Proof.
  repeat constructor; unfold u64; cbn -[Z.pow]; try lia; try by exists (lit "9QgFD").
Defined.

Lemma demo_stages_ok : fst (stage_all demo_specs demo_open) = Ok tt.
Proof. vm_compute. reflexivity. Qed.

Lemma demo_first_ok : fst (add_worker_with_timestamp 5 Unreliable 17 demo_done) = Ok tt.
Proof. vm_compute. reflexivity. Qed.

Lemma demo_workers_ok : fst (add_worker_with_timestamp 9 StatusOk 17 demo_first) = Ok tt.
Proof. vm_compute. reflexivity. Qed.

Lemma demo_stages : stage_all demo_specs demo_open = (Ok tt, demo_staged).
Proof. exact (pair_Ok _ _ demo_stages_ok). Defined.

Lemma demo_clean : clean demo_open.
Proof. split; vm_compute; reflexivity. Defined.

Lemma demo_step_finish : wstep demo_staged demo_done.
Proof. exact (wstep_finish _ (lit "ds") (lit "s3://ds") _ _ (surjective_pairing _)). Qed.

Lemma demo_step_first : wstep demo_done demo_first.
Proof. exact (wstep_worker _ _ _ _ _ (pair_Ok _ _ demo_first_ok)). Qed.

Lemma demo_step_workers : wstep demo_first demo_workers.
Proof. exact (wstep_worker _ _ _ _ _ (pair_Ok _ _ demo_workers_ok)). Qed.

Lemma demo_steps_open : rtc wstep (new_with_rng (lit "secret") tt) demo_open.
Proof.
  eapply rtc_l; [exact (wstep_schema _ 1 demo_schema _ _ (surjective_pairing _)) |].
  apply rtc_once. exact (wstep_generation _ (lit "ds") (lit "s3://ds") 3 (lit "/_bf/01HQ") _ _
                   (surjective_pairing _)).
Qed.

Lemma demo_reachable : reachable demo_workers.
Proof.
  exists (lit "secret"), tt.
  eapply (transitivity demo_steps_open), (transitivity (stage_all_steps _ _ _ demo_wf demo_stages)).
  eapply rtc_l, rtc_l, rtc_once;
    [exact demo_step_finish | exact demo_step_first | exact demo_step_workers].
Qed.

(** ** Witnesses *)

Lemma worker_dataset_roundtrip_witness :
  demo_specs <> [] /\ exists ds b'',
    dataset_finish (mkWorkerDatasetBuilder demo_staged (lit "ds") (lit "s3://ds") false) = (Ok tt, b'')
    /\ wb_all_datasets b'' = wb_all_datasets demo_open ++ [ds]
    /\ clean b'' /\ wb_current_generations b'' = ∅
    /\ wd_id ds = lit "ds" /\ wd_base_url ds = lit "s3://ds"
    /\ (forall s, last demo_specs = Some s -> wd_last_block ds = dc_last_block (ws_id s))
    /\ wd_chunk_count ds = length demo_specs
    /\ forall i s, demo_specs !! i = Some s -> chunk_reads ds i s.
Proof.
  split; [discriminate |].
  exact (worker_dataset_roundtrip demo_open demo_staged demo_specs (lit "ds") (lit "s3://ds")
           demo_clean ltac:(discriminate) demo_wf demo_stages).
Defined.

Lemma rejected_dataset_leaves_nothing_witness :
  exists b', clean b' /\ wb_current_generations b' = ∅
  /\ wb_all_datasets b' = wb_all_datasets demo_open
  /\ dataset_drop (new_dataset (lit "ds") (lit "s3://ds") demo_open) = b'.
Proof.
  eexists. apply (rejected_dataset_leaves_nothing
    (new_dataset (lit "ds") (lit "s3://ds") demo_open) EmptyDataset); reflexivity.
Defined.

Lemma worker_reader_accepts_builder_witness :
  @worker_from_owned (countable_fb WorkerAssignment)
    (@finish _ _ (countable_fb WorkerAssignment) demo_workers)
  = Ok (assignment_of demo_workers).
Proof.
  apply (@worker_reader_accepts_builder _ _ _ (countable_fb WorkerAssignment)
    (countable_fb_laws WorkerAssignment) demo_workers demo_reachable I).
Defined.

Lemma get_worker_correct_witness :
  exists o, wa_get_worker (E := Empty_set) (assignment_of demo_workers) (5 : @PeerId toy_peer) = Ok o /\
  match o with
  | Some w => aw_peer_id w = Some (5 : @PeerId toy_peer) /\ exists i,
      wa_workers (assignment_of demo_workers) !! i = Some (aw_reader w)
      /\ aw_index w = Z.of_nat i mod 2 ^ 16
  | None => forall e, e ∈ wa_workers (assignment_of demo_workers) ->
      entry_peer e <> Some (5 : @PeerId toy_peer)
  end.
Proof. exact (get_worker_correct demo_workers 5 demo_reachable (fun _ => eq_refl)). Defined.

Definition demo_dataset : WorkerAssignmentDataset :=
  mkWorkerAssignmentDataset (lit "ds") 249 (lit "s3://ds") None [0; 100] [99; 149]
    [pad_hash (as_bytes (lit "9QgFD")); pad_hash (as_bytes (lit "abcde"))] [mkTopRun 0 0]
    [10; 20] [1; 1] None None None [0; 2; 3] [0; 2; 2].

Definition demo_worker : AssignedWorker :=
  mkAssignedWorker (mkWorkerAssignment [demo_dataset] [] []) (mkWorkerEntry [] 0 None) 2.

Lemma holdings_correct_witness :
  exists cs, holdings (E := Empty_set) demo_worker demo_dataset = Ok cs
  /\ StronglySorted (fun k k' => wk_index k < wk_index k') cs
  /\ forall k, k ∈ cs <-> exists i ws,
       (i < wd_chunk_count demo_dataset)%nat /\ k = mkWorkerChunk demo_dataset (Z.of_nat i)
       /\ wk_worker_indexes (E := Empty_set) k = Ok ws /\ aw_index demo_worker ∈ ws.
Proof. apply (holdings_correct demo_worker demo_dataset). vm_compute. reflexivity. Defined.

Lemma tables_present_correct_witness :
  match tables_loop demo_schema [lit "logs"] 0 (replicate (div_ceil8 (length demo_schema)) 0) with
  | (Ok _, bits) => [lit "logs"] `sublist_of` demo_schema /\ select bits 0 demo_schema = [lit "logs"]
      /\ length bits = div_ceil8 (length demo_schema)
  | (Err TableAbsent, _) => ~ [lit "logs"] `sublist_of` demo_schema
  | _ => False
  end.
Proof. apply (tables_present_correct demo_schema [lit "logs"]). vm_compute. reflexivity. Defined.

Lemma demo_bitmap_size : Z.of_nat (length (wc_tables_present (wb_columns demo_staged))) < 2 ^ 32.
Proof. vm_compute. reflexivity. Qed.

Lemma worker_tables_roundtrip_witness :
  exists ds b'' k roster,
    dataset_finish (mkWorkerDatasetBuilder demo_staged (lit "ds") (lit "s3://ds") false) = (Ok tt, b'')
    /\ last (wb_all_datasets b'') = Some ds /\ wd_chunk ds (Z.of_nat 1) = Some k
    /\ wb_write_schemas demo_open !! ws_write_schema_id demo_trimmed = Some roster
    /\ chunk_tables (E := Empty_set) (assignment_of b'') k
       = Ok (Some (match ws_tables demo_trimmed with Some tables => tables | None => roster end)).
Proof.
  exact (worker_tables_roundtrip demo_open demo_staged demo_specs (lit "ds") (lit "s3://ds")
           demo_clean demo_wf demo_stages demo_bitmap_size 1%nat demo_trimmed eq_refl).
Defined.

Lemma worker_url_correct_witness :
  exists ds b'' k id base,
    dataset_finish (mkWorkerDatasetBuilder demo_staged (lit "ds") (lit "s3://ds") false) = (Ok tt, b'')
    /\ last (wb_all_datasets b'') = Some ds /\ wd_chunk ds (Z.of_nat 1) = Some k
    /\ DataChunk_to_string (E := Empty_set) (ws_id demo_trimmed) = Ok id
    /\ (if ws_version demo_trimmed =? 0 then base = lit "s3://ds"
        else exists prefix, wb_current_generations demo_open !! ws_version demo_trimmed = Some prefix
             /\ base = push_segment (lit "s3://ds") prefix)
    /\ wk_url (E := Empty_set) k = Ok (Some (with_slash base ++ id)).
Proof.
  exact (worker_url_correct demo_open demo_staged demo_specs (lit "ds") (lit "s3://ds")
           demo_clean demo_wf demo_stages 1%nat demo_trimmed eq_refl).
Defined.
