(* ===== verification/PortalAssignment.v ===== *)
(** * The portal assignment (crates/assignments: builder.rs and reader.rs)

    [PortalAssignmentBuilder] with its dataset and chunk builders, and the
    [PortalAssignment] reader with its searches by block and by timestamp. *)

From S2P Require Import Prelude RustStd DataChunk Search AssignmentFb.
From Stdlib Require Import ZArith Lia Ascii String.
From stdpp Require Import base sets strings gmap sorting numbers list.

Open Scope Z_scope.

(** ** The tables of portal_assignment.fbs *)

Record PortalAssignmentDataset := mkPortalAssignmentDataset {
  pd_id : str;
  pd_last_block : Z;
  pd_read_schema_id : Z;
  pd_last_block_hash : option str;
  pd_first_blocks : list Z;
  pd_block_deltas : list Z;
  pd_hashes : list (list Z);
  pd_tops : list TopRun;
  pd_timestamps : list Z;
  pd_versions : option (list Z);
  pd_worker_offsets : list Z;
  pd_worker_indexes : list Z
}.

Record PortalAssignment := mkPortalAssignment {
  pa_datasets : list PortalAssignmentDataset;
  pa_workers : list PortalEntry
}.

(** ** The dataset being staged *)

Record PortalDatasetColumns := mkPortalDatasetColumns {
  pcol_first_blocks : list Z;
  pcol_block_deltas : list Z;
  pcol_hashes : list (list Z);
  pcol_tops : list TopRun;
  pcol_timestamps : list Z;
  pcol_versions : list Z;
  pcol_worker_ends : list Z;
  pcol_worker_indexes : list Z
}.

Definition PortalDatasetColumns_default : PortalDatasetColumns :=
  mkPortalDatasetColumns [] [] [] [] [] [] [] [].

(** The arguments of [push_chunk]; the range is [(start, end)]. *)
Record PortalPush := mkPortalPush {
  pp_top : Z; pp_block_range : Z * Z; pp_hash : list Z; pp_version : Z; pp_timestamp : Z }.

(** The pushes of [push_chunk] up to the worker indexes, and the last one. *)
Definition portal_push_row (c : PortalDatasetColumns) (index delta : Z) (chunk : PortalPush)
    (workers : list Z) : PortalDatasetColumns :=
  mkPortalDatasetColumns
    (pcol_first_blocks c ++ [fst (pp_block_range chunk)])
    (pcol_block_deltas c ++ [delta])
    (pcol_hashes c ++ [pp_hash chunk])
    (push_top (pcol_tops c) index (pp_top chunk))
    (pcol_timestamps c ++ [pp_timestamp chunk])
    (pcol_versions c ++ [pp_version chunk])
    (pcol_worker_ends c)
    (pcol_worker_indexes c ++ workers).

Definition portal_push_end (c : PortalDatasetColumns) (e : Z) : PortalDatasetColumns :=
  mkPortalDatasetColumns (pcol_first_blocks c) (pcol_block_deltas c) (pcol_hashes c) (pcol_tops c)
    (pcol_timestamps c) (pcol_versions c) (pcol_worker_ends c ++ [e]) (pcol_worker_indexes c).

(** ** The builder *)

Section builder.
Context `{BuildProfile, PeerIdOps}.

Record PortalAssignmentBuilder := mkPortalAssignmentBuilder {
  pb_last_block : option Z;
  pb_all_datasets : list PortalAssignmentDataset;
  pb_worker_entries : list (list Z * PortalEntry);
  pb_last_peer_id : option PeerId;
  pb_check_continuity : bool;
  pb_columns : PortalDatasetColumns;
  pb_staged_worker_indexes : list Z
}.

Definition portal_new : PortalAssignmentBuilder :=
  mkPortalAssignmentBuilder None [] [] None true PortalDatasetColumns_default [].

Definition pb_set_open (b : PortalAssignmentBuilder) (last_block : option Z)
    (datasets : list PortalAssignmentDataset) (columns : PortalDatasetColumns) :=
  mkPortalAssignmentBuilder last_block datasets (pb_worker_entries b) (pb_last_peer_id b)
    (pb_check_continuity b) columns (pb_staged_worker_indexes b).

Definition pb_set_staged (b : PortalAssignmentBuilder) (workers : list Z) :=
  mkPortalAssignmentBuilder (pb_last_block b) (pb_all_datasets b) (pb_worker_entries b)
    (pb_last_peer_id b) (pb_check_continuity b) (pb_columns b) workers.

Definition portal_check_continuity (check : bool) (b : PortalAssignmentBuilder) :=
  mkPortalAssignmentBuilder (pb_last_block b) (pb_all_datasets b) (pb_worker_entries b)
    (pb_last_peer_id b) check (pb_columns b) (pb_staged_worker_indexes b).

Record PortalDatasetBuilder := mkPortalDatasetBuilder {
  pdb_p : PortalAssignmentBuilder;
  pdb_id : str;
  pdb_read_schema_id : Z;
  pdb_emitted : bool
}.

Definition portal_new_dataset (id : str) (read_schema_id : Z) (b : PortalAssignmentBuilder) :=
  mkPortalDatasetBuilder b id read_schema_id false.

Definition portal_discard_dataset (b : PortalAssignmentBuilder) : PortalAssignmentBuilder :=
  pb_set_open b None (pb_all_datasets b) PortalDatasetColumns_default.

(** The table written for the staged columns. *)
Definition portal_dataset_of (id : str) (read_schema_id : Z) (last_block_hash : option str)
    (last_block : Z) (columns : PortalDatasetColumns) : PortalAssignmentDataset :=
  let versions :=
    if existsb (fun version => negb (version =? 0)) (pcol_versions columns)
    then Some (pcol_versions columns) else None in
  mkPortalAssignmentDataset id last_block read_schema_id last_block_hash
    (pcol_first_blocks columns) (pcol_block_deltas columns) (pcol_hashes columns)
    (pcol_tops columns) (pcol_timestamps columns) versions
    (csr_offsets (pcol_worker_ends columns)) (pcol_worker_indexes columns).

Definition portal_emit_dataset (id : str) (read_schema_id : Z) (last_block_hash : option str)
    : comp PortalAssignmentBuilder BuildError unit := (
  self <- cget ;;
  let chunk_count := length (pcol_first_blocks (pb_columns self)) in
  clift (ensure (0 <? chunk_count)%nat EmptyDataset) ;;;
  clift (check_top_runs (pcol_tops (pb_columns self))) ;;;
  let columns := pb_columns self in
  cmodify (fun b => pb_set_open b (pb_last_block b) (pb_all_datasets b)
                      PortalDatasetColumns_default) ;;;
  last_block <- clift (expect (pb_last_block self)) ;;
  cmodify (fun b => pb_set_open b None
    (pb_all_datasets b
     ++ [portal_dataset_of id read_schema_id last_block_hash last_block columns])
    (pb_columns b)))%rust.

Definition portal_dataset_finish (last_block_hash : option str) (d : PortalDatasetBuilder)
    : res BuildError unit * PortalAssignmentBuilder :=
  match portal_emit_dataset (pdb_id d) (pdb_read_schema_id d) last_block_hash (pdb_p d) with
  | (Err e, p) => (Err e, portal_discard_dataset p)
  | r => r
  end.

Definition portal_dataset_drop (d : PortalDatasetBuilder) : PortalAssignmentBuilder :=
  if negb (pdb_emitted d) then portal_discard_dataset (pdb_p d) else pdb_p d.

Definition portal_add_worker (id : PeerId) (status : WorkerStatus)
    : comp PortalAssignmentBuilder BuildError unit := (
  self <- cget ;;
  clift (assert (match pb_last_peer_id self with
                 | Some last => match peer_cmp last id with Lt => true | _ => false end
                 | None => true
                 end)) ;;;
  cmodify (fun b => mkPortalAssignmentBuilder (pb_last_block b) (pb_all_datasets b)
    (pb_worker_entries b) (Some id) (pb_check_continuity b) (pb_columns b)
    (pb_staged_worker_indexes b)) ;;;
  worker_id <- clift (WorkerId_from id) ;;
  cmodify (fun b => mkPortalAssignmentBuilder (pb_last_block b) (pb_all_datasets b)
    (pb_worker_entries b ++ [(worker_id, mkPortalEntry worker_id (status_to_fb status))])
    (pb_last_peer_id b) (pb_check_continuity b) (pb_columns b) (pb_staged_worker_indexes b)))%rust.

Definition portal_assignment_of (b : PortalAssignmentBuilder) : PortalAssignment :=
  mkPortalAssignment (pb_all_datasets b) (snd <$> pb_worker_entries b).

Definition portal_finish `{Flatbuffer PortalAssignment} (b : PortalAssignmentBuilder) : list Z :=
  fb_finish (portal_assignment_of b).

(** The part of [push_chunk] after the continuity check. *)
Definition portal_append_chunk (chunk : PortalPush) : comp PortalAssignmentBuilder BuildError unit := (
  self <- cget ;;
  index <- clift (try_u32 TooManyChunks
                    (Z.of_nat (length (pcol_first_blocks (pb_columns self))))) ;;
  span <- clift (sub_u64 (snd (pp_block_range chunk)) (fst (pp_block_range chunk))) ;;
  delta <- clift (try_u32 ChunkTooLong span) ;;
  cmodify (fun b => pb_set_open b (pb_last_block b) (pb_all_datasets b)
    (portal_push_row (pb_columns b) index delta chunk (pb_staged_worker_indexes b))) ;;;
  self <- cget ;;
  end_ <- clift (try_u32 TooManyWorkerRefs
                   (Z.of_nat (length (pcol_worker_indexes (pb_columns self))))) ;;
  cmodify (fun b => pb_set_open b (Some (snd (pp_block_range chunk))) (pb_all_datasets b)
    (portal_push_end (pb_columns b) end_)))%rust.

Definition portal_push_chunk (chunk : PortalPush) : comp PortalAssignmentBuilder BuildError unit :=
  fun self =>
  let start := fst (pp_block_range chunk) in
  let continuity : res BuildError unit :=
    match pb_last_block self with
    | Some last =>
      next ← add_u64 last 1;
      if negb (next =? start) then Err (NotContiguous last start) else Ok tt
    | None => Ok tt
    end in
  match continuity with
  | Panic => (Panic, self)
  | _ =>
    if negb (is_ok continuity) && pb_check_continuity self then (continuity, self)
    else (portal_append_chunk chunk ;;; clift continuity)%rust self
  end.

(** *** Chunks *)

Record PortalAssignmentChunkBuilder := mkPortalAssignmentChunkBuilder {
  pcb_p : PortalAssignmentBuilder;
  pcb_block_range : option (Z * Z);
  pcb_id : option DataChunk;
  pcb_version : Z;
  pcb_last_block_timestamp : Z
}.

Definition portal_new_chunk (parent : PortalAssignmentBuilder) : PortalAssignmentChunkBuilder :=
  mkPortalAssignmentChunkBuilder (pb_set_staged parent []) None None 0 0.

Definition pcb_set_id (id : DataChunk) (c : PortalAssignmentChunkBuilder) :=
  mkPortalAssignmentChunkBuilder (pcb_p c) (pcb_block_range c) (Some id) (pcb_version c)
    (pcb_last_block_timestamp c).

Definition pcb_set_block_range (range : Z * Z) (c : PortalAssignmentChunkBuilder) :=
  mkPortalAssignmentChunkBuilder (pcb_p c) (Some range) (pcb_id c) (pcb_version c)
    (pcb_last_block_timestamp c).

Definition pcb_set_last_block_timestamp (timestamp : Z) (c : PortalAssignmentChunkBuilder) :=
  mkPortalAssignmentChunkBuilder (pcb_p c) (pcb_block_range c) (pcb_id c) (pcb_version c) timestamp.

Definition pcb_set_version (version : Z) (c : PortalAssignmentChunkBuilder) :=
  mkPortalAssignmentChunkBuilder (pcb_p c) (pcb_block_range c) (pcb_id c) version
    (pcb_last_block_timestamp c).

Definition pcb_set_worker_indexes (indexes : list Z) (c : PortalAssignmentChunkBuilder) :=
  mkPortalAssignmentChunkBuilder (pb_set_staged (pcb_p c) indexes) (pcb_block_range c) (pcb_id c)
    (pcb_version c) (pcb_last_block_timestamp c).

(** [PortalDatasetBuilder::new_chunk]. *)
Definition portal_dataset_new_chunk (d : PortalDatasetBuilder) : PortalAssignmentChunkBuilder :=
  portal_new_chunk (pdb_p d).

Definition portal_cb_finish (self : PortalAssignmentChunkBuilder)
    : res BuildError unit * PortalAssignmentBuilder := (
  block_range <- clift (expect (pcb_block_range self)) ;;
  id <- clift (ok_or (pcb_id self) ChunkIdUnset) ;;
  clift (ensure ((dc_first_block id =? fst block_range) && (dc_last_block id =? snd block_range))
           ChunkIdMismatch) ;;;
  hash <- clift (chunk_hash id) ;;
  portal_push_chunk (mkPortalPush (dc_top id) block_range hash (pcb_version self)
                       (pcb_last_block_timestamp self)))%rust (pcb_p self).
End builder.

(** ** The reader *)

Section reader.
Context `{BuildProfile, PeerIdOps, VectorLookup, Flatbuffer PortalAssignment}.

Definition portal_dense (dataset : PortalAssignmentDataset) : list (string * nat) :=
  [("block_deltas"%string, length (pd_block_deltas dataset));
   ("hashes"%string, length (pd_hashes dataset));
   ("timestamps"%string, length (pd_timestamps dataset));
   ("worker_offsets"%string, (length (pd_worker_offsets dataset) - 1)%nat)]
  ++ match pd_versions dataset with
     | Some c => [("versions"%string, length c)]
     | None => []
     end.

Definition check_portal_dataset (dataset : PortalAssignmentDataset) : res InvalidAssignment unit :=
  let chunks := length (pd_first_blocks dataset) in
  check_columns (pd_id dataset) chunks (portal_dense dataset)
    [("tops"%string, first_chunk_index <$> head (pd_tops dataset))].

Fixpoint check_portal_datasets (datasets : list PortalAssignmentDataset)
    : res InvalidAssignment unit :=
  match datasets with
  | [] => Ok tt
  | dataset :: datasets => check_portal_dataset dataset;; check_portal_datasets datasets
  end.

Definition portal_from_owned (buf : list Z) : res InvalidAssignment PortalAssignment :=
  assignment ← ok_or (fb_root buf) InvalidFlatbuffer;
  check_portal_datasets (pa_datasets assignment);;
  Ok assignment.

Record PortalChunk := mkPortalChunk { pk_dataset : PortalAssignmentDataset; pk_index : Z }.

Definition pk_at (c : PortalChunk) : nat := Z.to_nat (pk_index c).

Definition pk_first_block {E} (c : PortalChunk) : res E Z :=
  vget (pd_first_blocks (pk_dataset c)) (pk_at c).

Definition pk_last_block {E} (c : PortalChunk) : res E Z :=
  first ← pk_first_block c;
  delta ← vget (pd_block_deltas (pk_dataset c)) (pk_at c);
  add_u64 first delta.

Definition pk_last_block_timestamp {E} (c : PortalChunk) : res E Z :=
  vget (pd_timestamps (pk_dataset c)) (pk_at c).

Definition pk_version {E} (c : PortalChunk) : res E Z :=
  match pd_versions (pk_dataset c) with
  | None => Ok 0
  | Some versions => vget versions (pk_at c)
  end.

Definition pd_top_at {E} (d : PortalAssignmentDataset) (index : Z) : res E (option Z) :=
  top_at (pd_tops d) index.

Definition pk_top {E} (c : PortalChunk) : res E Z :=
  t ← pd_top_at (pk_dataset c) (pk_index c);
  expect t.

Definition pk_hash {E} (c : PortalChunk) : res E (option str) :=
  hash ← vget (pd_hashes (pk_dataset c)) (pk_at c);
  Ok (read_hash hash).

Definition pk_id {E} (c : PortalChunk) : res E (option str) :=
  t ← pk_top c;
  f ← pk_first_block c;
  l ← pk_last_block c;
  h ← pk_hash c;
  match h with
  | None => Ok None
  | Some h => Some <$> push_chunk_id [] t f l h
  end.

Definition pk_worker_indexes {E} (c : PortalChunk) : res E (list Z) :=
  csr_slice (pd_worker_offsets (pk_dataset c)) (pd_worker_indexes (pk_dataset c)) (pk_index c).

Definition pd_chunk_count (d : PortalAssignmentDataset) : nat := length (pd_first_blocks d).

Definition pd_first_block {E} (d : PortalAssignmentDataset) : res E Z := vget (pd_first_blocks d) 0.

Definition pd_chunk (d : PortalAssignmentDataset) (index : Z) : option PortalChunk :=
  if (Z.to_nat index <? pd_chunk_count d)%nat then Some (mkPortalChunk d index) else None.

(** [0..self.chunk_count() as u32]. *)
Definition pd_chunks (d : PortalAssignmentDataset) : list PortalChunk :=
  (fun i => mkPortalChunk d (Z.of_nat i))
  <$> seq 0 (Z.to_nat (Z.of_nat (pd_chunk_count d) mod 2 ^ 32)).

Definition pa_get_dataset (a : PortalAssignment) (dataset : str) : option PortalAssignmentDataset :=
  lookup_by_key (pa_datasets a) (fun ds => str_cmp (pd_id ds) dataset).

Definition pa_get_chunk (a : PortalAssignment) (r : ChunkRef) : option PortalChunk :=
  match pa_datasets a !! Z.to_nat (dataset_index r) with
  | None => None
  | Some d => pd_chunk d (chunk_index r)
  end.

Definition pa_get_worker_id {E} (a : PortalAssignment) (index : Z) : res E (option PeerId) :=
  worker ← vget (pa_workers a) (Z.to_nat index);
  Ok (WorkerId_try_into (pe_worker_id worker)).

Record PortalWorker := mkPortalWorker { pw_reader : PortalEntry }.

Definition pa_get_worker_by_index {E} (a : PortalAssignment) (index : Z) : res E PortalWorker :=
  worker ← vget (pa_workers a) (Z.to_nat index);
  Ok (mkPortalWorker worker).

Definition pw_peer_id (w : PortalWorker) : option PeerId :=
  WorkerId_try_into (pe_worker_id (pw_reader w)).

Definition pw_status (w : PortalWorker) : WorkerStatus := status_from_fb (pe_status (pw_reader w)).

(** [index as u32]: the index came from a column of at most [u32::MAX] chunks. *)
Definition as_u32 (n : nat) : Z := Z.of_nat n mod 2 ^ 32.

Definition find_chunk (a : PortalAssignment) (dataset : str) (block : Z)
    : res ChunkNotFound PortalChunk :=
  dataset ← ok_or (pa_get_dataset a dataset) UnknownDataset;
  if pd_last_block dataset <? block then Err AfterLast
  else
    let first_blocks := pd_first_blocks dataset in
    above ← partition_point (length first_blocks)
              (fun i => first ← vget first_blocks i; Ok (first <=? block));
    match above with
    | O => Err BeforeFirst
    | S index =>
      chunk ← expect (pd_chunk dataset (as_u32 index));
      last ← pk_last_block chunk;
      if last <? block then Err InGap else Ok chunk
    end.

Definition find_chunk_by_timestamp (a : PortalAssignment) (dataset : str) (ts : Z)
    : res ChunkNotFound PortalChunk :=
  dataset ← ok_or (pa_get_dataset a dataset) UnknownDataset;
  let count := pd_chunk_count dataset in
  let timestamps := pd_timestamps dataset in
  index ← partition_point count (fun i => t ← vget timestamps i; Ok (t <? ts));
  if (index =? count)%nat then Err AfterLast
  else expect (pd_chunk dataset (as_u32 index)).
End reader.
