(* ===== verification/PortalTheory.v ===== *)
(** * The portal assignment: columns, staging and reading back *)

From S2P Require Import Prelude RustStd DataChunk Search AssignmentFb Columns PortalAssignment.
From Stdlib Require Import ZArith Lia Ascii String.
From stdpp Require Import base sets strings gmap sorting relations numbers list.

Open Scope Z_scope.

(** ** Definitions *)

Record PortalRow := mkPortalRow { pr_chunk : PortalPush; pr_workers : list Z }.

Definition pr_start (r : PortalRow) : Z := fst (pp_block_range (pr_chunk r)).
Definition pr_end (r : PortalRow) : Z := snd (pp_block_range (pr_chunk r)).

Definition prow_ok (r : PortalRow) : Prop :=
  u64 (pr_start r) /\ u64 (pr_end r) /\ 0 <= pr_end r - pr_start r < 2 ^ 32.

Record pcols_rep (rows : list PortalRow) (c : PortalDatasetColumns) : Prop := {
  prep_first : pcol_first_blocks c = pr_start <$> rows;
  prep_delta : pcol_block_deltas c = (fun r => pr_end r - pr_start r) <$> rows;
  prep_hash : pcol_hashes c = (fun r => pp_hash (pr_chunk r)) <$> rows;
  prep_tops : runs_rep ((fun r => pp_top (pr_chunk r)) <$> rows) (pcol_tops c);
  prep_time : pcol_timestamps c = (fun r => pp_timestamp (pr_chunk r)) <$> rows;
  prep_version : pcol_versions c = (fun r => pp_version (pr_chunk r)) <$> rows;
  prep_ends : pcol_worker_ends c = ends_of 0 (pr_workers <$> rows);
  prep_workers : pcol_worker_indexes c = concat (pr_workers <$> rows);
  prep_ok : Forall prow_ok rows;
  prep_count : Z.of_nat (length rows) <= 2 ^ 32
}.

(** What a client says of one chunk. *)
Record PortalChunkSpec := mkPortalChunkSpec {
  ps_id : DataChunk; ps_version : Z; ps_timestamp : Z; ps_workers : list Z }.

Definition prow_of (s : PortalChunkSpec) : PortalRow :=
  mkPortalRow
    (mkPortalPush (dc_top (ps_id s)) (dc_first_block (ps_id s), dc_last_block (ps_id s))
       (dc_last_hash (ps_id s)) (ps_version s) (ps_timestamp s))
    (ps_workers s).

(** How chunk [i] of a dataset reads. *)
Definition portal_chunk_reads `{BuildProfile} (ds : PortalAssignmentDataset) (i : nat)
    (s : PortalChunkSpec) : Prop :=
  exists k, pd_chunk ds (Z.of_nat i) = Some k
  /\ pk_first_block (E := Empty_set) k = Ok (dc_first_block (ps_id s))
  /\ pk_last_block (E := Empty_set) k = Ok (dc_last_block (ps_id s))
  /\ pk_version (E := Empty_set) k = Ok (ps_version s)
  /\ pk_last_block_timestamp (E := Empty_set) k = Ok (ps_timestamp s)
  /\ pk_top (E := Empty_set) k = Ok (dc_top (ps_id s))
  /\ pk_worker_indexes (E := Empty_set) k = Ok (ps_workers s)
  /\ exists id, DataChunk_to_string (E := Empty_set) (ps_id s) = Ok id
     /\ pk_id (E := Empty_set) k = Ok (Some id).

Section staging.
Context `{BuildProfile, PeerIdOps}.

Definition portal_stage (s : PortalChunkSpec) (b : PortalAssignmentBuilder)
    : res BuildError unit * PortalAssignmentBuilder :=
  portal_cb_finish
    (pcb_set_worker_indexes (ps_workers s)
       (pcb_set_last_block_timestamp (ps_timestamp s)
          (pcb_set_version (ps_version s)
             (pcb_set_block_range (dc_first_block (ps_id s), dc_last_block (ps_id s))
                (pcb_set_id (ps_id s) (portal_new_chunk b)))))).

Fixpoint portal_stage_all (specs : list PortalChunkSpec)
    : comp PortalAssignmentBuilder BuildError unit :=
  match specs with
  | [] => creturn tt
  | s :: specs => (portal_stage s ;;; portal_stage_all specs)%rust
  end.

Definition portal_clean (b : PortalAssignmentBuilder) : Prop :=
  pb_columns b = PortalDatasetColumns_default /\ pb_last_block b = None.

(** Each chunk starts where the one before ended. *)
Fixpoint contiguous_from (prev : option Z) (rows : list PortalRow) : Prop :=
  match rows with
  | [] => True
  | r :: rows =>
    match prev with Some p => p + 1 = pr_start r | None => True end
    /\ contiguous_from (Some (pr_end r)) rows
  end.

(** [b'] is [b] with [chunk] appended to the open dataset. *)
Definition portal_appended (rows : list PortalRow) (chunk : PortalPush)
    (b b' : PortalAssignmentBuilder) : Prop :=
  exists c', b' = pb_set_open b (Some (snd (pp_block_range chunk))) (pb_all_datasets b) c'
  /\ pcols_rep (rows ++ [mkPortalRow chunk (pb_staged_worker_indexes b)]) c'.
End staging.

(** ** Pushing a row *)

Lemma pcols_rep_default : pcols_rep [] PortalDatasetColumns_default.
Proof. split; done. Qed.

Lemma portal_push_row_rep rows c chunk workers :
  pcols_rep rows c -> prow_ok (mkPortalRow chunk workers) -> Z.of_nat (length rows) < 2 ^ 32 ->
  let c' := portal_push_row c (Z.of_nat (length rows))
              (snd (pp_block_range chunk) - fst (pp_block_range chunk)) chunk workers in
  pcols_rep (rows ++ [mkPortalRow chunk workers])
    (portal_push_end c' (Z.of_nat (length (pcol_worker_indexes c')))).
Proof.
  intros [] Hok Hn. split; cbn.
  all: rewrite ?fmap_app; cbn; try by f_equal.
  - rewrite <- (length_fmap (fun r => pp_top (pr_chunk r)) rows). by apply push_top_rep.
  - by rewrite prep_ends0, ends_of_snoc, prep_workers0, length_app.
  - rewrite concat_app. cbn. by rewrite app_nil_r, prep_workers0.
  - apply Forall_app. auto.
  - rewrite length_app. cbn. lia.
Qed.

(** ** Reading the columns back *)

Section read.
Context `{BuildProfile}.
Variables (name : str) (rs : Z) (lbh : option str) (lb : Z).
Variables (rows : list PortalRow) (c : PortalDatasetColumns).
Hypothesis Hrep : pcols_rep rows c.
Let ds := portal_dataset_of name rs lbh lb c.

Lemma pds_chunk_count : pd_chunk_count ds = length rows.
Proof. unfold pd_chunk_count. cbn. by rewrite (prep_first _ _ Hrep), length_fmap. Qed.

Section row.
Variables (i : nat) (r : PortalRow).
Hypothesis Hi : rows !! i = Some r.
Let k := mkPortalChunk ds (Z.of_nat i).

Lemma pcolumn_get {E A} (f : PortalRow -> A) col :
  col = f <$> rows -> vget (E := E) col (pk_at k) = Ok (f r).
Proof.
  intros ->. apply vget_Some. unfold pk_at, k. cbn. by rewrite Nat2Z.id, list_lookup_fmap, Hi.
Qed.

Lemma pread_chunk : pd_chunk ds (Z.of_nat i) = Some k.
Proof.
  unfold pd_chunk. rewrite pds_chunk_count, Nat2Z.id.
  by rewrite (proj2 (Nat.ltb_lt _ _) (lookup_lt_Some _ _ _ Hi)).
Qed.

Lemma pread_row_ok : prow_ok r.
Proof. pose proof (prep_ok _ _ Hrep) as H0. rewrite Forall_lookup in H0. by eapply H0. Qed.

Lemma pread_first_block {E} : pk_first_block (E := E) k = Ok (pr_start r).
Proof. apply pcolumn_get, Hrep. Qed.

Lemma pread_last_block {E} : pk_last_block (E := E) k = Ok (pr_end r).
Proof.
  unfold pk_last_block. rewrite pread_first_block. cbn [mbind res_bind].
  rewrite (pcolumn_get (fun r => pr_end r - pr_start r)) by apply Hrep. cbn.
  destruct pread_row_ok as (? & ? & ?).
  rewrite add_u64_ok by (unfold u64 in *; lia). f_equal. lia.
Qed.

Lemma pread_timestamp {E} : pk_last_block_timestamp (E := E) k = Ok (pp_timestamp (pr_chunk r)).
Proof. apply (pcolumn_get (fun r => pp_timestamp (pr_chunk r))), Hrep. Qed.

Lemma pread_top {E} : pk_top (E := E) k = Ok (pp_top (pr_chunk r)).
Proof.
  unfold pk_top, pd_top_at. change (pk_index k) with (Z.of_nat i).
  change (pd_tops (pk_dataset k)) with (pcol_tops c).
  rewrite (top_at_rep _ _ i (pp_top (pr_chunk r)) (prep_tops _ _ Hrep)); [done |].
  by rewrite list_lookup_fmap, Hi.
Qed.

Lemma pread_hash {E} : pk_hash (E := E) k = Ok (read_hash (pp_hash (pr_chunk r))).
Proof.
  unfold pk_hash. by rewrite (pcolumn_get (fun r => pp_hash (pr_chunk r))) by apply Hrep.
Qed.

Lemma pread_worker_indexes {E} : pk_worker_indexes (E := E) k = Ok (pr_workers r).
Proof.
  unfold pk_worker_indexes. change (pk_index k) with (Z.of_nat i). cbn -[csr_offsets].
  rewrite (prep_ends _ _ Hrep), (prep_workers _ _ Hrep). apply csr_slice_rep.
  by rewrite list_lookup_fmap, Hi.
Qed.

Lemma pread_version {E} : pk_version (E := E) k = Ok (pp_version (pr_chunk r)).
Proof.
  unfold pk_version. change (pd_versions (pk_dataset k)) with
    (if existsb (fun v => negb (v =? 0)) (pcol_versions c) then Some (pcol_versions c) else None).
  destruct (existsb _ _) eqn:Hex.
  - apply (pcolumn_get (fun r => pp_version (pr_chunk r))), Hrep.
  - f_equal. symmetry. apply not_true_iff_false in Hex.
    destruct (decide (pp_version (pr_chunk r) = 0)) as [? | Hne]; [done |].
    exfalso. apply Hex, existsb_exists. exists (pp_version (pr_chunk r)).
    split; [| by apply negb_true_iff, Z.eqb_neq].
    rewrite (prep_version _ _ Hrep). apply list_elem_of_In, list_elem_of_fmap.
    exists r. split; [done |]. by eapply list_elem_of_lookup_2.
Qed.
End row.

Lemma portal_emitted_checks : rows <> [] -> check_portal_dataset ds = Ok tt.
Proof.
  intros Hne. unfold check_portal_dataset, check_columns, portal_dense. cbn [ds portal_dataset_of
    pd_first_blocks pd_block_deltas pd_hashes pd_timestamps pd_worker_offsets pd_versions pd_tops].
  assert (forall l, Forall (fun p => p.2 = length rows) l -> check_dense (pd_id ds) (length rows) l = Ok tt) as Hd.
  { induction 1 as [| [n k] l Hk _ IH]; [done |]. cbn in *. subst k. by rewrite Nat.eqb_refl. }
  unfold csr_offsets. cbn [length]. rewrite Nat.sub_succ, Nat.sub_0_r.
  rewrite (prep_first _ _ Hrep), (prep_delta _ _ Hrep), (prep_hash _ _ Hrep),
    (prep_time _ _ Hrep), (prep_ends _ _ Hrep), length_ends_of, !length_fmap.
  rewrite Hd.
  - destruct (runs_head _ _ (prep_tops _ _ Hrep)) as (r & rest & -> & Hr0).
    { intros H0. by apply fmap_nil_inv in H0. }
    cbn. by rewrite Hr0.
  - repeat constructor. destruct (existsb _ _); repeat constructor. cbn.
    by rewrite (prep_version _ _ Hrep), length_fmap.
Qed.
End read.

Lemma check_portal_datasets_ok l :
  Forall (fun ds => check_portal_dataset ds = Ok tt) l -> check_portal_datasets l = Ok tt.
Proof. induction 1 as [| ds l Hd _ IH]; [done |]. cbn [check_portal_datasets]. by rewrite Hd. Qed.

(** ** Staging *)

Section staging_facts.
Context `{BuildProfile, PeerIdOps}.

Lemma portal_append_cases b chunk rows :
  pcols_rep rows (pb_columns b) ->
  u64 (fst (pp_block_range chunk)) -> u64 (snd (pp_block_range chunk)) ->
  fst (pp_block_range chunk) <= snd (pp_block_range chunk) ->
  match portal_append_chunk chunk b with
  | (Ok _, b') => portal_appended rows chunk b b'
  | (Err TooManyWorkerRefs, _) => True
  | (Err (TooManyChunks | ChunkTooLong), b') | (Panic, b') => b' = b
  | _ => False
  end.
Proof.
  intros Hrep Hs He Hle. unfold portal_append_chunk, cbind, clift, cget, cmodify.
  rewrite (prep_first _ _ Hrep), length_fmap.
  destruct (try_u32 TooManyChunks _) as [ix | ? |] eqn:E1.
  2,3: unfold try_u32 in E1; by case_match; simplify_eq.
  apply try_u32_inv in E1 as [-> E1]. rewrite sub_u64_ok by done.
  destruct (try_u32 ChunkTooLong _) as [dl | ? |] eqn:E2.
  2,3: unfold try_u32 in E2; by case_match; simplify_eq.
  apply try_u32_inv in E2 as [-> E2]. cbn [pb_columns pb_set_open].
  pose proof (portal_push_row_rep rows (pb_columns b) chunk (pb_staged_worker_indexes b) Hrep)
    as Hpush. cbv zeta in Hpush.
  set (c1 := portal_push_row _ _ _ _ _) in *.
  destruct (try_u32 TooManyWorkerRefs _) as [en | ? |] eqn:E3.
  2,3: unfold try_u32 in E3; by case_match; simplify_eq.
  apply try_u32_inv in E3 as [-> _]. eexists. split; [reflexivity |].
  apply Hpush; [| done]. unfold prow_ok, pr_start, pr_end; cbn. auto with lia.
Qed.

(** Every outcome of [push_chunk]; a successful push is contiguous. *)
Lemma portal_push_cases b chunk rows :
  pcols_rep rows (pb_columns b) -> (forall l, pb_last_block b = Some l -> u64 l) ->
  u64 (fst (pp_block_range chunk)) -> u64 (snd (pp_block_range chunk)) ->
  fst (pp_block_range chunk) <= snd (pp_block_range chunk) ->
  match portal_push_chunk chunk b with
  | (Ok _, b') => portal_appended rows chunk b b'
      /\ (forall l, pb_last_block b = Some l -> l < u64_max -> l + 1 = fst (pp_block_range chunk))
  | (Err TooManyWorkerRefs, _) => True
  | (Err (NotContiguous last start), b') =>
    pb_last_block b = Some last /\ start = fst (pp_block_range chunk)
    /\ if pb_check_continuity b then b' = b else portal_appended rows chunk b b'
  | (_, b') => b' = b
  end.
Proof.
  intros Hrep Hlu Hs He Hle. pose proof (portal_append_cases b chunk rows Hrep Hs He Hle) as Ha.
  unfold portal_push_chunk. cbv zeta. set (start := fst _) in *.
  set (cont := match pb_last_block b with Some _ => _ | None => _ end).
  assert (cont = Panic
          \/ (cont = Ok tt /\ forall l, pb_last_block b = Some l -> l < u64_max -> l + 1 = start)
          \/ exists last, pb_last_block b = Some last /\ cont = Err (NotContiguous last start)) as Hcont.
  { unfold cont. destruct (pb_last_block b) as [last |]; [| right; left; by split].
    specialize (Hlu last eq_refl). unfold u64, u64_max in *. unfold add_u64.
    destruct (last + 1 <? 2 ^ 64) eqn:E1; zbool.
    - cbn [mbind res_bind]. destruct (last + 1 =? start) eqn:E2; cbn [negb]; [| eauto].
      zbool. right; left. split; [done |]. intros ? [= <-]. done.
    - destruct overflow_checks; [auto |]. cbn [mbind res_bind]. destruct (negb _); [eauto |].
      right; left. split; [done |]. intros ? [= <-]. lia. }
  clearbody cont. destruct Hcont as [-> | [[-> Hc] | (last & Hl & ->)]]; [done | |].
  - cbn. unfold cbind. destruct (portal_append_chunk chunk b) as [[[] | [] |] b']; done.
  - cbn. destruct (pb_check_continuity b) eqn:Ek; [done |]. unfold cbind.
    destruct (portal_append_chunk chunk b) as [[[] | [] |] b']; done.
Qed.

Lemma portal_cb_finish_Ok c b' :
  portal_cb_finish c = (Ok tt, b') -> exists range chunk hash,
  pcb_block_range c = Some range /\ pcb_id c = Some chunk
  /\ dc_first_block chunk = fst range /\ dc_last_block chunk = snd range
  /\ chunk_hash (E := BuildError) chunk = Ok hash
  /\ portal_push_chunk (mkPortalPush (dc_top chunk) range hash (pcb_version c)
       (pcb_last_block_timestamp c)) (pcb_p c) = (Ok tt, b').
Proof. unfold portal_cb_finish. intros Hf. repeat cinv Hf. zbool. eauto 20. Qed.

Lemma portal_stage_Ok s b b' rows :
  DataChunk_wf (ps_id s) -> (forall l, pb_last_block b = Some l -> u64 l) ->
  pcols_rep rows (pb_columns b) -> portal_stage s b = (Ok tt, b') ->
  pcols_rep (rows ++ [prow_of s]) (pb_columns b')
  /\ pb_last_block b' = Some (dc_last_block (ps_id s))
  /\ pb_all_datasets b' = pb_all_datasets b
  /\ (forall l, pb_last_block b = Some l -> l < u64_max -> l + 1 = dc_first_block (ps_id s)).
Proof.
  intros Hwf Hlu Hrep Hf. pose proof Hwf as (_ & Hf1 & Hl1 & Ho & _).
  unfold portal_stage in Hf. apply portal_cb_finish_Ok in Hf
    as (range & chunk & hash & H2 & H3 & _ & _ & H7 & Hp).
  cbn in *. simplify_eq. rewrite chunk_hash_ok in H7 by done. simplify_eq.
  pose proof (portal_push_cases (pb_set_staged b (ps_workers s)) (pr_chunk (prow_of s)) rows Hrep
    Hlu Hf1 Hl1 ltac:(cbn; lia)) as Hc. cbn [pr_chunk prow_of] in Hc.
  change (pb_set_staged (pb_set_staged b []) (ps_workers s)) with (pb_set_staged b (ps_workers s)) in Hp.
  rewrite Hp in Hc. destruct Hc as ((c' & -> & Hrep') & Hcont). cbn. auto.
Qed.

Lemma portal_stage_all_Ok specs b b' rows :
  Forall (fun s => DataChunk_wf (ps_id s)) specs -> pcols_rep rows (pb_columns b) ->
  (forall l, pb_last_block b = Some l -> u64 l) -> portal_stage_all specs b = (Ok tt, b') ->
  pcols_rep (rows ++ (prow_of <$> specs)) (pb_columns b')
  /\ pb_all_datasets b' = pb_all_datasets b
  /\ pb_last_block b' = match last specs with
       | Some s => Some (dc_last_block (ps_id s)) | None => pb_last_block b end
  /\ ((forall l, pb_last_block b = Some l -> l < u64_max) ->
      (forall i s, specs !! i = Some s -> (i + 1 < length specs)%nat ->
         dc_last_block (ps_id s) < u64_max) ->
      contiguous_from (pb_last_block b) (prow_of <$> specs)).
Proof.
  intros Hwf. revert b rows. induction Hwf as [| s specs Hs _ IH]; intros b rows Hrep Hlu Hf.
  - cbn in Hf. injection Hf as <-. cbn. rewrite app_nil_r. done.
  - cbn [portal_stage_all] in Hf. apply cbind_Ok in Hf as ([] & b1 & Hf1 & Hf).
    apply (portal_stage_Ok s b b1 rows) in Hf1 as (Hrep1 & Hl1 & Hd1 & Hc1); [| done..].
    apply IH with (rows := rows ++ [prow_of s]) in Hf as (Hrep' & Hd & Hl & Hc); [| done |].
    2: { rewrite Hl1. intros ? [= <-]. apply Hs. }
    cbn [fmap list_fmap]. split; [by rewrite <- app_assoc in Hrep' |].
    split; [by rewrite Hd, Hd1 |]. split; [rewrite Hl, last_cons; by destruct (last specs) |].
    intros Hmax Hall. cbn [contiguous_from]. split.
    + destruct (pb_last_block b) as [l |]; [| done]. apply Hc1; [done | by apply Hmax].
    + rewrite Hl1 in Hc. destruct specs as [| s' specs']; [done |]. apply Hc.
      * intros ? [= <-]. apply (Hall 0%nat); [done | cbn; lia].
      * intros i s0 Hi0 Hlt. apply (Hall (S i)); [done |]. cbn in *. lia.
Qed.

(** Staging leaves the entries of the workers alone. *)
Lemma portal_stage_frame s b r b' :
  portal_stage s b = (r, b') ->
  pb_worker_entries b' = pb_worker_entries b /\ pb_last_peer_id b' = pb_last_peer_id b.
Proof.
  unfold portal_stage, portal_cb_finish, portal_push_chunk, portal_append_chunk.
  unfold cbind, clift, cget, cmodify. cbn -[chunk_hash].
  intros Hf. repeat (case_match; simplify_eq; try done).
Qed.

Lemma portal_stage_all_frame specs b b' :
  portal_stage_all specs b = (Ok tt, b') ->
  pb_worker_entries b' = pb_worker_entries b /\ pb_last_peer_id b' = pb_last_peer_id b.
Proof.
  revert b. induction specs as [| s specs IH]; intros b Hf; [by injection Hf as <- |].
  cbn [portal_stage_all] in Hf. apply cbind_Ok in Hf as ([] & b1 & Hf1 & Hf).
  destruct (IH _ Hf) as [-> ->]. by eapply portal_stage_frame.
Qed.

Lemma portal_emit_Ok (b : PortalAssignmentBuilder) rows lb name rs h e :
  pcols_rep rows (pb_columns b) -> rows <> [] -> pb_last_block b = Some lb ->
  portal_dataset_finish h (mkPortalDatasetBuilder b name rs e)
  = (Ok tt, pb_set_open b None (pb_all_datasets b ++ [portal_dataset_of name rs h lb (pb_columns b)])
       PortalDatasetColumns_default).
Proof.
  intros Hrep Hne Hlb. unfold portal_dataset_finish, portal_emit_dataset.
  cbn [pdb_id pdb_read_schema_id pdb_p].
  unfold cbind, clift, cget, cmodify. rewrite (prep_first _ _ Hrep), length_fmap.
  rewrite (proj2 (Nat.ltb_lt _ _)) by (destruct rows; [done | cbn; lia]). cbn [ensure].
  rewrite (check_top_runs_ok _ _ (prep_tops _ _ Hrep)).
  2: { intros H2. by apply fmap_nil_inv in H2. }
  by rewrite Hlb.
Qed.

Lemma portal_reads_row name rs h lb rows c i s :
  pcols_rep rows c -> rows !! i = Some (prow_of s) -> DataChunk_wf (ps_id s) ->
  portal_chunk_reads (portal_dataset_of name rs h lb c) i s.
Proof.
  intros Hrep Hi Hwf. eexists. split; [by apply (pread_chunk name rs h lb rows c Hrep i _ Hi) |].
  split; [apply (pread_first_block name rs h lb rows c Hrep i _ Hi) |].
  split; [apply (pread_last_block name rs h lb rows c Hrep i _ Hi) |].
  split; [apply (pread_version name rs h lb rows c Hrep i _ Hi) |].
  split; [apply (pread_timestamp name rs h lb rows c Hrep i _ Hi) |].
  split; [apply (pread_top name rs h lb rows c Hrep i _ Hi) |].
  split; [apply (pread_worker_indexes name rs h lb rows c Hrep i _ Hi) |].
  destruct (read_hash_wf _ Hwf) as (hh & Hh & _).
  destruct (push_chunk_id_display (E := Empty_set) [] _ hh Hwf Hh) as (str & Hs & Hp).
  exists str. split; [done |]. unfold pk_id.
  rewrite (pread_top _ _ _ _ _ _ Hrep _ _ Hi), (pread_first_block _ _ _ _ _ _ Hrep _ _ Hi),
    (pread_last_block _ _ _ _ _ _ Hrep _ _ Hi), (pread_hash _ _ _ _ _ _ Hrep _ _ Hi).
  cbn -[push_chunk_id]. rewrite Hh. unfold pr_start, pr_end. cbn -[push_chunk_id]. by rewrite Hp.
Qed.
End staging_facts.
