(* ===== verification/PortalProps.v ===== *)
(** * The portal assignment: properties

    What is staged reads back; what any sequence of builder calls finishes is
    accepted; and the two searches answer what their callers rely on. *)

From S2P Require Import Prelude RustStd DataChunk Search AssignmentFb Columns Instances WorkerTables.
From S2P Require Import PortalAssignment PortalTheory.
From Stdlib Require Import ZArith Lia Ascii String.
From stdpp Require Import base sets strings gmap sorting relations countable numbers list.

Open Scope Z_scope.

(** ** Definitions *)

(** The block ranges of a dataset's chunks, in column order: each range is not
    empty and lies above the one before (gaps are legal). *)
Definition ranges_ascend (ranges : list (Z * Z)) : Prop :=
  (forall i f l, ranges !! i = Some (f, l) -> 0 <= f <= l /\ l < 2 ^ 64)
  /\ forall i j f l f' l', (i < j)%nat -> ranges !! i = Some (f, l) -> ranges !! j = Some (f', l') ->
       l < f'.

Definition dataset_ranges (ds : PortalAssignmentDataset) (ranges : list (Z * Z)) : Prop :=
  pd_first_blocks ds = fst <$> ranges
  /\ pd_block_deltas ds = (fun r => snd r - fst r) <$> ranges
  /\ Z.of_nat (length ranges) <= 2 ^ 32
  /\ (forall r, last ranges = Some r -> pd_last_block ds = snd r).

Section reach.
Context `{BuildProfile, PeerIdOps}.

(** One call on the builder, as for the worker assignment. *)
Inductive pstep : PortalAssignmentBuilder -> PortalAssignmentBuilder -> Prop :=
| pstep_continuity b check : pstep b (portal_check_continuity check b)
| pstep_new_chunk b workers : pstep b (pb_set_staged b workers)
| pstep_chunk c r b' :
    (forall chunk, pcb_id c = Some chunk -> DataChunk_wf chunk) ->
    portal_cb_finish c = (r, b') -> r <> Err TooManyWorkerRefs -> pstep (pcb_p c) b'
| pstep_finish b name rs h r b' :
    portal_dataset_finish h (portal_new_dataset name rs b) = (r, b') -> pstep b b'
| pstep_drop b name rs : pstep b (portal_dataset_drop (portal_new_dataset name rs b))
| pstep_worker b id status r b' : portal_add_worker id status b = (r, b') -> pstep b b'.

Definition preachable (b : PortalAssignmentBuilder) : Prop := rtc pstep portal_new b.

Definition pinv (b : PortalAssignmentBuilder) : Prop :=
  (exists rows, pcols_rep rows (pb_columns b) /\ (rows <> [] -> is_Some (pb_last_block b)))
  /\ (forall l, pb_last_block b = Some l -> u64 l)
  /\ Forall (fun ds => check_portal_dataset ds = Ok tt) (pb_all_datasets b).

(** ** Every call keeps the invariant *)

Lemma pinv_same b b' :
  pinv b -> pb_columns b' = pb_columns b -> pb_last_block b' = pb_last_block b ->
  pb_all_datasets b' = pb_all_datasets b -> pinv b'.
Proof. unfold pinv. intros Hi -> -> ->. done. Qed.

Lemma pinv_discard b : pinv b -> pinv (portal_discard_dataset b).
Proof.
  intros (_ & _ & Hd). split; [| done]. exists []. split; [apply pcols_rep_default | done].
Qed.

Lemma pinv_appended rows chunk b b' :
  portal_appended rows chunk b b' -> u64 (snd (pp_block_range chunk)) -> pinv b -> pinv b'.
Proof.
  intros (c' & -> & Hrep) Hu (_ & _ & Hd). split; [| split; [| done]].
  - eexists. split; [exact Hrep |]. cbn. eauto.
  - cbn. by intros ? [= <-].
Qed.

Lemma portal_cb_finish_cases c r b' :
  portal_cb_finish c = (r, b') -> b' = pcb_p c \/ exists range chunk hash,
    pcb_id c = Some chunk /\ dc_first_block chunk = fst range /\ dc_last_block chunk = snd range
    /\ portal_push_chunk (mkPortalPush (dc_top chunk) range hash (pcb_version c)
         (pcb_last_block_timestamp c)) (pcb_p c) = (r, b').
Proof.
  unfold portal_cb_finish, cbind, clift.
  destruct (pcb_block_range c) as [range |]; cbn [expect]; [| intros; simplify_eq; auto].
  destruct (pcb_id c) as [chunk |]; cbn [ok_or]; [| intros; simplify_eq; auto].
  destruct (_ && _) eqn:Er; cbn [ensure]; [zbool | intros; simplify_eq; auto].
  destruct (chunk_hash chunk) as [hash | |]; [| intros; simplify_eq; auto ..].
  intros Hp. right. eauto 10.
Qed.

Lemma portal_chunk_inv c r b' :
  (forall chunk, pcb_id c = Some chunk -> DataChunk_wf chunk) ->
  portal_cb_finish c = (r, b') -> r <> Err TooManyWorkerRefs -> pinv (pcb_p c) -> pinv b'.
Proof.
  intros Hwf Hf Hr Hinv.
  apply portal_cb_finish_cases in Hf as [-> | (range & chunk & hash & Hid & E1 & E2 & Hp)]; [done |].
  pose proof Hinv as ((rows & Hrep & _) & Hlu & _).
  destruct (Hwf _ Hid) as (_ & Hf & Hl & Ho & _). rewrite E1, E2 in *.
  pose proof (portal_push_cases (pcb_p c) (mkPortalPush (dc_top chunk) range hash (pcb_version c)
    (pcb_last_block_timestamp c)) rows Hrep Hlu Hf Hl ltac:(cbn; lia)) as Hc.
  rewrite Hp in Hc. destruct r as [[] | e |]; [| | by subst].
  - destruct Hc as [Hc _]. by eapply pinv_appended.
  - destruct e; try by subst; try done.
    destruct Hc as (_ & _ & Hc). destruct (pb_check_continuity (pcb_p c)); [by subst |].
    by eapply pinv_appended.
Qed.

Lemma portal_finish_inv b name rs h r b' :
  portal_dataset_finish h (portal_new_dataset name rs b) = (r, b') -> pinv b -> pinv b'.
Proof.
  intros Hf ((rows & Hrep & Hl) & Hlu & Hd). destruct rows as [| row rows].
  - unfold portal_dataset_finish, portal_emit_dataset, cbind, clift, cget in Hf.
    cbn [pdb_p portal_new_dataset] in Hf. rewrite (prep_first _ _ Hrep) in Hf. cbn in Hf.
    simplify_eq. apply pinv_discard. split; [by exists [] | done].
  - destruct (Hl ltac:(done)) as [lb Hlb]. unfold portal_new_dataset in Hf.
    erewrite portal_emit_Ok in Hf by done. simplify_eq. split; [| split; [done |]].
    + exists []. split; [apply pcols_rep_default | done].
    + cbn. apply Forall_app. split; [done |]. repeat constructor. by eapply portal_emitted_checks.
Qed.

Lemma portal_worker_frame id status b r b' :
  portal_add_worker id status b = (r, b') ->
  pb_columns b' = pb_columns b /\ pb_last_block b' = pb_last_block b /\ pb_all_datasets b' = pb_all_datasets b.
Proof.
  unfold portal_add_worker, cbind, cget, clift, cmodify. intros Hf.
  destruct (assert _) as [[] | |]; [| simplify_eq; done ..].
  destruct (WorkerId_from id); simplify_eq; done.
Qed.

(** What any finish of a chunk changes, as for the worker assignment. *)
Definition portal_row_frame (r : res BuildError unit) (b b' : PortalAssignmentBuilder) : Prop :=
  exists lb c k, b' = pb_set_open b lb (pb_all_datasets b) c
  /\ length (pcol_first_blocks c) = (k + length (pcol_first_blocks (pb_columns b)))%nat
  /\ match r with
     | Err TooManyWorkerRefs => k = 1%nat /\ length (pcol_worker_ends c) = length (pcol_worker_ends (pb_columns b))
     | _ => length (pcol_worker_ends c) = (k + length (pcol_worker_ends (pb_columns b)))%nat
     end.

Lemma portal_row_frame_refl r b : r <> Err TooManyWorkerRefs -> portal_row_frame r b b.
Proof.
  intros Hr. exists (pb_last_block b), (pb_columns b), 0%nat. split; [by destruct b |]. split; [done |].
  by destruct r as [| [] |].
Qed.

Lemma portal_append_frame chunk b :
  portal_row_frame (fst (portal_append_chunk chunk b)) b (snd (portal_append_chunk chunk b)).
Proof.
  unfold portal_append_chunk, cbind, clift, cget, cmodify.
  destruct (try_u32 TooManyChunks _) as [ix | e |] eqn:E1; [| unfold try_u32 in E1; case_match; simplify_eq ..];
    [| by apply portal_row_frame_refl].
  destruct (sub_u64 _ _) as [span | e |] eqn:E2; [| unfold sub_u64 in E2; repeat case_match; simplify_eq ..];
    [| by apply portal_row_frame_refl].
  destruct (try_u32 ChunkTooLong _) as [dl | e |] eqn:E3; [| unfold try_u32 in E3; case_match; simplify_eq ..];
    [| by apply portal_row_frame_refl].
  destruct (try_u32 TooManyWorkerRefs _) as [en | e |] eqn:E4; [| unfold try_u32 in E4; case_match; simplify_eq ..];
    eexists _, _, 1%nat; (split; [reflexivity |]); cbn; rewrite ?length_app; cbn; split; try split; lia.
Qed.

Lemma portal_cb_finish_frame c : portal_row_frame (fst (portal_cb_finish c)) (pcb_p c) (snd (portal_cb_finish c)).
Proof.
  unfold portal_cb_finish, cbind, clift.
  destruct (pcb_block_range c) as [range |]; cbn [expect]; [| by apply portal_row_frame_refl].
  destruct (pcb_id c) as [chunk |]; cbn [ok_or]; [| by apply portal_row_frame_refl].
  destruct (_ && _); cbn [ensure]; [| by apply portal_row_frame_refl].
  destruct (chunk_hash chunk) as [hash | e |] eqn:E; [| by apply chunk_hash_no_err in E | by apply portal_row_frame_refl].
  unfold portal_push_chunk. cbv zeta. cbn [pp_block_range].
  set (b := pcb_p c). set (cont := match pb_last_block b with Some _ => _ | None => _ end).
  assert (cont = Panic \/ cont = Ok tt \/ exists last, cont = Err (NotContiguous last (fst range))) as Hcont.
  { unfold cont. destruct (pb_last_block b) as [last |]; [| auto].
    unfold add_u64. repeat case_match; cbn; eauto; case_match; eauto. }
  clearbody cont. match goal with |- context [portal_append_chunk ?x] => pose proof (portal_append_frame x b) as Ha end.
  destruct Hcont as [-> | [-> | (last & ->)]]; [by apply portal_row_frame_refl | |]; cbn;
    [| destruct (pb_check_continuity b); [by apply portal_row_frame_refl |]];
    unfold cbind; destruct (portal_append_chunk _ b) as [[[] | e |] b']; exact Ha.
Qed.

Lemma portal_finish_cases b name rs h r b' :
  portal_dataset_finish h (portal_new_dataset name rs b) = (r, b') ->
  (r = Ok tt /\ exists lb, pb_last_block b = Some lb /\
     b' = pb_set_open b None (pb_all_datasets b ++ [portal_dataset_of name rs h lb (pb_columns b)])
            PortalDatasetColumns_default)
  \/ (r <> Ok tt /\ exists lb cols, b' = pb_set_open b lb (pb_all_datasets b) cols)
     /\ (forall e, r = Err e -> b' = portal_discard_dataset b').
Proof.
  unfold portal_dataset_finish, portal_emit_dataset, cbind, clift, cget, cmodify.
  cbn [pdb_p pdb_id pdb_read_schema_id portal_new_dataset].
  destruct (ensure _ _) as [[] | e |] eqn:E1; [| unfold ensure in E1; case_match; simplify_eq ..].
  2: { intros [= <- <-]. right. split; [split; [done |]; by eexists _, _ | done]. }
  destruct (check_top_runs _) as [[] | e |].
  - destruct (pb_last_block b) as [lb |]; cbn [expect]; intros [= <- <-]; [left; split; [done |]; by exists lb |].
    right. split; [split; [done |]; by eexists _, _ | done].
  - intros [= <- <-]. right. split; [split; [done |]; by eexists _, _ | done].
  - intros [= <- <-]. right. split; [split; [done |] | done].
    exists (pb_last_block b), (pb_columns b). by destruct b.
Qed.

Lemma pstep_inv b b' : pstep b b' -> pinv b -> pinv b'.
Proof.
  destruct 1; intros Hinv; [by eapply pinv_same.. | | | by apply pinv_discard |].
  - by eapply portal_chunk_inv.
  - by eapply portal_finish_inv.
  - apply portal_worker_frame in H1 as (E1 & E2 & E3). by eapply pinv_same.
Qed.

Lemma preachable_inv b : preachable b -> pinv b.
Proof.
  intros Hr. assert (pinv portal_new) as Hinit.
  { split; [exists []; split; [apply pcols_rep_default | done] |]. split; [done | constructor]. }
  unfold preachable in Hr. set (b0 := portal_new) in *. clearbody b0.
  induction Hr; eauto using pstep_inv.
Qed.

(** Staging a list of chunks is made of the calls of [pstep]. *)
Lemma portal_stage_all_steps specs b b' :
  Forall (fun s => DataChunk_wf (ps_id s)) specs -> portal_stage_all specs b = (Ok tt, b') ->
  rtc pstep b b'.
Proof.
  intros Hwf. revert b. induction Hwf as [| s specs Hs _ IH]; intros b Hf.
  - cbn in Hf. by injection Hf as <-.
  - cbn [portal_stage_all] in Hf. apply cbind_Ok in Hf as ([] & b1 & Hf1 & Hf).
    eapply rtc_l; [apply (pstep_new_chunk b (ps_workers s)) |].
    eapply rtc_l; [| by apply IH]. refine (pstep_chunk _ _ _ _ Hf1 _); [| done].
    cbn. by intros ? [= <-].
Qed.
End reach.

(** ** Searching *)

Section search.
Context `{BuildProfile}.
Variables (ds : PortalAssignmentDataset) (ranges : list (Z * Z)).
Hypothesis Hds : dataset_ranges ds ranges.
Hypothesis Hasc : ranges_ascend ranges.

Lemma as_u32_small i : (i < length ranges)%nat -> as_u32 i = Z.of_nat i.
Proof. destruct Hds as (_ & _ & Hn & _). intros. unfold as_u32. apply Z.mod_small. lia. Qed.

Lemma pd_chunk_range i f l :
  ranges !! i = Some (f, l) ->
  pd_chunk ds (as_u32 i) = Some (mkPortalChunk ds (Z.of_nat i))
  /\ pk_last_block (E := ChunkNotFound) (mkPortalChunk ds (Z.of_nat i)) = Ok l.
Proof.
  intros Hi. pose proof (lookup_lt_Some _ _ _ Hi). destruct Hds as (Hf & Hd & _).
  rewrite as_u32_small by done. split.
  - unfold pd_chunk, pd_chunk_count. rewrite Hf, length_fmap, Nat2Z.id.
    by rewrite (proj2 (Nat.ltb_lt _ _)) by done.
  - unfold pk_last_block, pk_first_block, pk_at. cbn [pk_dataset pk_index]. rewrite Nat2Z.id.
    rewrite (vget_Some (pd_first_blocks ds) i f) by (by rewrite Hf, list_lookup_fmap, Hi).
    rewrite (vget_Some (pd_block_deltas ds) i (l - f)) by (by rewrite Hd, list_lookup_fmap, Hi).
    cbn. destruct Hasc as [Hr _]. destruct (Hr i f l Hi).
    rewrite add_u64_ok by lia. f_equal. lia.
Qed.

(** One past the last chunk starting at or before [block]. *)
Lemma first_blocks_partition {E} block :
  exists k, partition_point (E := E) (length (pd_first_blocks ds))
    (fun i => first ← vget (pd_first_blocks ds) i; Ok (first <=? block)) = Ok k
  /\ (k <= length ranges)%nat
  /\ forall i f l, ranges !! i = Some (f, l) -> f <= block <-> (i < k)%nat.
Proof.
  destruct Hds as (Hf & _). destruct Hasc as [Hr Ho]. rewrite Hf, length_fmap.
  set (g := fun i => match ranges !! i with Some (f, _) => f <=? block | None => false end).
  destruct (partition_point_prefix (E := E)
    (fun i => first ← vget (fst <$> ranges) i; Ok (first <=? block)) g (length ranges))
    as (k & Hk & Hle & Hspec).
  - intros i Hi. destruct (lookup_lt_is_Some_2 ranges i Hi) as [[f l] Hfl].
    rewrite (vget_Some (fst <$> ranges) i f) by (by rewrite list_lookup_fmap, Hfl). unfold g. by rewrite Hfl.
  - intros i j Hij. unfold g.
    destruct (lookup_lt_is_Some_2 ranges i) as [[f l] Hfl]; [lia |].
    destruct (lookup_lt_is_Some_2 ranges j) as [[f' l'] Hfl']; [lia |]. rewrite Hfl, Hfl'.
    rewrite !Z.leb_le. destruct (decide (i = j)) as [-> |]; [simplify_eq; done |].
    pose proof (Ho i j f l f' l' ltac:(lia) Hfl Hfl'). destruct (Hr i f l Hfl). lia.
  - exists k. split; [done |]. split; [done |]. intros i f l Hi.
    rewrite <- (Hspec i (lookup_lt_Some _ _ _ Hi)). unfold g. rewrite Hi. symmetry. apply Z.leb_le.
Qed.
End search.

Section portal_properties.
Context `{BuildProfile, PeerIdOps, VectorLookup}.

(** C11: A portal dataset whose chunks were all staged without error into a clean
    builder is always emitted: exactly one dataset is appended, whose chunk i
    reads back, through every accessor, as the i-th staged chunk; the builder is
    clean again. *)
Theorem portal_dataset_roundtrip (b b' : PortalAssignmentBuilder) specs name rs h
    (Hclean : portal_clean b) (Hne : specs <> [])
    (Hwf : Forall (fun s => DataChunk_wf (ps_id s)) specs)
    (Hst : portal_stage_all specs b = (Ok tt, b')) :
  exists ds b'',
    portal_dataset_finish h (mkPortalDatasetBuilder b' name rs false) = (Ok tt, b'')
    /\ pb_all_datasets b'' = pb_all_datasets b ++ [ds] /\ portal_clean b''
    /\ pd_id ds = name /\ pd_read_schema_id ds = rs /\ pd_last_block_hash ds = h
    /\ pd_chunk_count ds = length specs
    /\ forall i s, specs !! i = Some s -> portal_chunk_reads ds i s.
Proof.
  destruct Hclean as [Hc Hl].
  destruct (portal_stage_all_Ok specs b b' [] Hwf) as (Hrep & Hd & Hlast & _);
    [rewrite Hc; apply pcols_rep_default | by rewrite Hl | done |].
  cbn in Hrep. destruct (last specs) as [s0 |] eqn:Hls; [| by apply last_None in Hls].
  eexists _, _. split; [eapply portal_emit_Ok; [done | | done] |].
  { intros H2. by apply fmap_nil_inv in H2. }
  cbn. rewrite Hd. do 5 (split; [done |]). split.
  - erewrite pds_chunk_count by done. by rewrite length_fmap.
  - intros i s Hi. eapply portal_reads_row; [done | by rewrite list_lookup_fmap, Hi |].
    rewrite Forall_lookup in Hwf. eauto.
Qed.

(** C2: [find_chunk] on a dataset of ascending chunks never panics and classifies
    every block: it answers the chunk whose range holds the block; [AfterLast]
    past the end, [BeforeFirst] before every chunk, and [InGap] only for a block
    strictly between two neighbouring chunks. *)
Theorem find_chunk_correct (a : PortalAssignment) name block ds ranges
    (Hget : pa_get_dataset a name = Some ds)
    (Hds : dataset_ranges ds ranges) (Hasc : ranges_ascend ranges) :
  match find_chunk a name block with
  | Ok k => exists i f l, ranges !! i = Some (f, l) /\ k = mkPortalChunk ds (Z.of_nat i)
              /\ f <= block <= l
  | Err BeforeFirst => forall i f l, ranges !! i = Some (f, l) -> block < f
  | Err AfterLast => pd_last_block ds < block
  | Err InGap => exists i f l f' l', ranges !! i = Some (f, l) /\ ranges !! S i = Some (f', l')
              /\ l < block < f'
  | Err UnknownDataset => False
  | Panic => False
  end.
Proof.
  unfold find_chunk. rewrite Hget. cbn [mbind res_bind ok_or].
  destruct (pd_last_block ds <? block) eqn:Elast; zbool; [done |].
  destruct (first_blocks_partition ds ranges Hds Hasc (E := ChunkNotFound) block)
    as (k & -> & Hle & Hspec). cbn [mbind res_bind].
  destruct k as [| k].
  - intros i f l Hi. pose proof (proj1 (Hspec i f l Hi)). lia.
  - destruct (lookup_lt_is_Some_2 ranges k) as [[f l] Hk]; [lia |].
    destruct (pd_chunk_range ds ranges Hds Hasc k f l Hk) as [-> Hl]. cbn [mbind res_bind expect].
    rewrite Hl. cbn [mbind res_bind]. destruct (l <? block) eqn:El; zbool.
    + destruct (decide (S k < length ranges)%nat) as [Hlt | Hge].
      * destruct (lookup_lt_is_Some_2 ranges (S k) Hlt) as [[f' l'] Hk'].
        exists k, f, l, f', l'. split; [done |]. split; [done |].
        split; [done |]. destruct (decide (f' <= block)) as [Hf' |]; [| lia].
        apply (Hspec (S k) f' l' Hk') in Hf'. lia.
      * exfalso. destruct Hds as (_ & _ & _ & Hlast).
        assert (last ranges = Some (f, l)) as Hlr
          by (rewrite last_lookup; replace (pred (length ranges)) with k by lia; done).
        rewrite (Hlast _ Hlr) in Elast. cbn in Elast. lia.
    + exists k, f, l. split; [done |]. split; [done |]. split; [| done].
      apply (Hspec k f l Hk). lia.
Qed.
End portal_properties.

(** ** Contiguous datasets *)

Definition spec_range (s : PortalChunkSpec) : Z * Z :=
  (dc_first_block (ps_id s), dc_last_block (ps_id s)).

Lemma contiguous_lookup prev rows i r r' :
  contiguous_from prev rows -> rows !! i = Some r -> rows !! S i = Some r' ->
  pr_end r + 1 = pr_start r'.
Proof.
  revert prev i. induction rows as [| r0 rows IH]; intros prev i Hc Hi Hi'; [done |].
  destruct Hc as [_ Hc]. destruct i as [| i].
  - cbn in Hi. simplify_eq. destruct rows as [| r1 rows]; [done |]. cbn in Hi'. simplify_eq.
    by destruct Hc.
  - cbn in Hi, Hi'. by apply (IH (Some (pr_end r0)) i).
Qed.

Lemma contiguous_ranges specs prev i f l f' l' :
  contiguous_from prev (prow_of <$> specs) ->
  (spec_range <$> specs) !! i = Some (f, l) -> (spec_range <$> specs) !! S i = Some (f', l') ->
  l + 1 = f'.
Proof.
  intros Hc Hi Hi'. rewrite list_lookup_fmap in Hi, Hi'.
  destruct (specs !! i) as [s |] eqn:Hs; [| done]. destruct (specs !! S i) as [s' |] eqn:Hs'; [| done].
  cbn in Hi, Hi'. unfold spec_range in Hi, Hi'. simplify_eq.
  pose proof (contiguous_lookup _ _ i (prow_of s) (prow_of s') Hc) as He.
  rewrite !list_lookup_fmap, Hs, Hs' in He. exact (He eq_refl eq_refl).
Qed.

Lemma contiguous_ascend specs prev :
  Forall (fun s => DataChunk_wf (ps_id s)) specs -> contiguous_from prev (prow_of <$> specs) ->
  ranges_ascend (spec_range <$> specs).
Proof.
  intros Hwf Hc.
  assert (forall i f l, (spec_range <$> specs) !! i = Some (f, l) -> 0 <= f <= l /\ l < 2 ^ 64) as Hr.
  { intros i f l Hi. rewrite list_lookup_fmap in Hi.
    destruct (specs !! i) as [s |] eqn:Hs; [| done]. cbn in Hi. unfold spec_range in Hi.
    rewrite Forall_lookup in Hwf. destruct (Hwf _ _ Hs) as (? & ? & ? & ? & _).
    simplify_eq. unfold u64 in *. lia. }
  split; [done |]. intros i j f l f' l' Hij Hi Hj.
  remember (j - i - 1)%nat as n eqn:Hn. revert i f l Hij Hi Hn.
  induction n as [| n IH]; intros i f l Hij Hi Hn.
  - replace j with (S i) in Hj by lia. pose proof (contiguous_ranges _ _ _ _ _ _ _ Hc Hi Hj). lia.
  - destruct (lookup_lt_is_Some_2 (spec_range <$> specs) (S i)) as [[f1 l1] H1];
      [pose proof (lookup_lt_Some _ _ _ Hj); lia |].
    pose proof (contiguous_ranges _ _ _ _ _ _ _ Hc Hi H1).
    pose proof (IH (S i) f1 l1 ltac:(lia) H1 ltac:(lia)). pose proof (Hr _ _ _ H1). lia.
Qed.

(** The emitted dataset has the ranges of the staged chunks. *)
Lemma emitted_ranges name rs h s0 c specs :
  pcols_rep (prow_of <$> specs) c -> last specs = Some s0 ->
  dataset_ranges (portal_dataset_of name rs h (dc_last_block (ps_id s0)) c) (spec_range <$> specs).
Proof.
  intros Hrep Hl. unfold dataset_ranges. cbn.
  rewrite (prep_first _ _ Hrep), (prep_delta _ _ Hrep), <- !list_fmap_compose, length_fmap.
  split; [done |]. split; [done |].
  split; [pose proof (prep_count _ _ Hrep) as Hn; by rewrite length_fmap in Hn |].
  intros r. rewrite fmap_last, Hl. by intros [= <-].
Qed.

Section contiguous_properties.
Context `{BuildProfile, PeerIdOps, VectorLookup}.

Lemma find_chunk_ok (a : PortalAssignment) name block ds ranges :
  pa_get_dataset a name = Some ds -> dataset_ranges ds ranges -> ranges_ascend ranges ->
  (forall i f l f' l', ranges !! i = Some (f, l) -> ranges !! S i = Some (f', l') ->
     ~ (l < block < f')) ->
  block <= pd_last_block ds -> (exists f l, ranges !! 0%nat = Some (f, l) /\ f <= block) ->
  exists i f l, ranges !! i = Some (f, l) /\ f <= block <= l
    /\ find_chunk a name block = Ok (mkPortalChunk ds (Z.of_nat i)).
Proof.
  intros Hget Hds Hasc Hgap Hle (f0 & l0 & Hr0 & Hf0). unfold find_chunk. rewrite Hget.
  cbn [mbind res_bind ok_or]. rewrite (proj2 (Z.ltb_ge _ _)) by done.
  destruct (first_blocks_partition ds ranges Hds Hasc (E := ChunkNotFound) block)
    as (k & -> & Hk & Hspec). cbn [mbind res_bind].
  destruct k as [| k]; [apply (Hspec 0%nat f0 l0 Hr0) in Hf0; lia |].
  destruct (lookup_lt_is_Some_2 ranges k) as [[f l] Hkr]; [lia |].
  destruct (pd_chunk_range ds ranges Hds Hasc k f l Hkr) as [-> Hl].
  cbn [mbind res_bind expect]. rewrite Hl. cbn [mbind res_bind].
  assert (f <= block) by (apply (Hspec k f l Hkr); lia).
  assert (block <= l); [| rewrite (proj2 (Z.ltb_ge _ _)) by done; eauto 10].
  destruct (decide (S k < length ranges)%nat) as [Hlt | Hge].
  - destruct (lookup_lt_is_Some_2 ranges (S k) Hlt) as [[f' l'] Hk'].
    pose proof (Hgap k f l f' l' Hkr Hk').
    assert (~ f' <= block) by (intros Hx; apply (Hspec (S k) f' l' Hk') in Hx; lia). lia.
  - destruct Hds as (_ & _ & _ & Hlast). rewrite (Hlast (f, l)) in Hle; [done |].
    rewrite last_lookup. by replace (pred (length ranges)) with k by lia.
Qed.

(** In a dataset staged without error, chunks are contiguous, so every block
    from the first chunk's start to the last chunk's end is found: [find_chunk]
    answers the staged chunk that holds it, and never [InGap]. *)
Theorem staged_blocks_are_found (b b' : PortalAssignmentBuilder) specs s0 name rs h
    (a : PortalAssignment) ds block first
    (Hclean : portal_clean b)
    (Hwf : Forall (fun s => DataChunk_wf (ps_id s)) specs)
    (Hmax : Forall (fun s => dc_last_block (ps_id s) < u64_max) specs)
    (Hst : portal_stage_all specs b = (Ok tt, b'))
    (Hlast : last specs = Some s0) (Hfirst : head specs = Some first)
    (Hds : ds = portal_dataset_of name rs h (dc_last_block (ps_id s0)) (pb_columns b'))
    (Hget : pa_get_dataset a name = Some ds)
    (Hblock : dc_first_block (ps_id first) <= block <= dc_last_block (ps_id s0)) :
  exists i s, specs !! i = Some s
    /\ dc_first_block (ps_id s) <= block <= dc_last_block (ps_id s)
    /\ find_chunk a name block = Ok (mkPortalChunk ds (Z.of_nat i)).
Proof.
  destruct Hclean as [Hc Hl].
  destruct (portal_stage_all_Ok specs b b' [] Hwf) as (Hrep & _ & _ & Hcont);
    [rewrite Hc; apply pcols_rep_default | by rewrite Hl | done |].
  cbn in Hrep. rewrite Hl in Hcont. rewrite Forall_lookup in Hmax.
  specialize (Hcont ltac:(done) (fun i s Hi _ => Hmax i s Hi)).
  destruct (find_chunk_ok a name block ds (spec_range <$> specs)) as (i & f & l & Hi & Hb & Hf).
  - done.
  - subst ds. by apply emitted_ranges.
  - by eapply contiguous_ascend.
  - intros j f l f' l' Hj Hj'. pose proof (contiguous_ranges _ _ _ _ _ _ _ Hcont Hj Hj'). lia.
  - subst ds. cbn. lia.
  - destruct specs as [| s specs]; [done |]. cbn in Hfirst. simplify_eq. cbn.
    eexists _, _. split; [done |]. lia.
  - rewrite list_lookup_fmap in Hi. destruct (specs !! i) as [s |] eqn:Hs; [| done].
    cbn in Hi. unfold spec_range in Hi. simplify_eq. eauto.
Qed.

(** C30: On a dataset whose timestamps ascend and whose column of them is as long as
    the dataset has chunks (which the reader checks), at most [2 ^ 32] of them,
    [find_chunk_by_timestamp] never panics and answers the first chunk whose last
    block is at or after the timestamp, and [AfterLast] only when every chunk is
    before it. *)
Theorem find_chunk_by_timestamp_correct (a : PortalAssignment) name ts ds
    (Hget : pa_get_dataset a name = Some ds)
    (Hlen : length (pd_timestamps ds) = pd_chunk_count ds)
    (Hcount : Z.of_nat (pd_chunk_count ds) <= 2 ^ 32)
    (Hasc : forall i j t t', (i <= j)%nat -> pd_timestamps ds !! i = Some t ->
              pd_timestamps ds !! j = Some t' -> t <= t') :
  match find_chunk_by_timestamp a name ts with
  | Ok k => exists i t, k = mkPortalChunk ds (Z.of_nat i) /\ pd_timestamps ds !! i = Some t
              /\ ts <= t /\ forall j u, (j < i)%nat -> pd_timestamps ds !! j = Some u -> u < ts
  | Err AfterLast => forall j u, pd_timestamps ds !! j = Some u -> u < ts
  | _ => False
  end.
Proof.
  unfold find_chunk_by_timestamp. rewrite Hget. cbn [mbind res_bind ok_or]. cbv zeta.
  set (g := fun i => match pd_timestamps ds !! i with Some t => t <? ts | None => false end).
  destruct (partition_point_prefix (E := ChunkNotFound)
    (fun i => t ← vget (pd_timestamps ds) i; Ok (t <? ts)) g (pd_chunk_count ds))
    as (k & -> & Hk & Hspec).
  - intros i Hi. rewrite <- Hlen in Hi. destruct (lookup_lt_is_Some_2 _ _ Hi) as [t Ht].
    rewrite (vget_Some _ _ _ Ht). unfold g. by rewrite Ht.
  - intros i j Hij. unfold g. rewrite <- Hlen in Hij.
    destruct (lookup_lt_is_Some_2 (pd_timestamps ds) i) as [t Ht]; [lia |].
    destruct (lookup_lt_is_Some_2 (pd_timestamps ds) j) as [t' Ht']; [lia |]. rewrite Ht, Ht'.
    rewrite !Z.ltb_lt. pose proof (Hasc i j t t' ltac:(lia) Ht Ht'). lia.
  - assert (forall j u, (j < k)%nat -> pd_timestamps ds !! j = Some u -> u < ts) as Hbelow.
    { intros j u Hj Hu. pose proof (lookup_lt_Some _ _ _ Hu).
      pose proof (proj2 (Hspec j ltac:(lia)) Hj) as Hg. unfold g in Hg. rewrite Hu in Hg. by zbool. }
    cbn [mbind res_bind]. destruct (k =? pd_chunk_count ds)%nat eqn:Ek; zbool.
    + intros j u Hu. apply (Hbelow j u); [| done]. apply lookup_lt_Some in Hu. lia.
    + unfold pd_chunk, as_u32. rewrite Z.mod_small, Nat2Z.id by lia.
      rewrite (proj2 (Nat.ltb_lt _ _)) by lia. cbn [expect].
      destruct (lookup_lt_is_Some_2 (pd_timestamps ds) k) as [t Ht]; [lia |].
      exists k, t. split; [done |]. split; [done |]. split; [| done].
      destruct (decide (ts <= t)); [done |].
      assert (g k = true) as Hg by (unfold g; rewrite Ht; apply Z.ltb_lt; lia).
      apply (Hspec k) in Hg; lia.
Qed.
End contiguous_properties.

(** * The portal assignment: a two-chunk dataset

    A concrete run of the portal builder and reader at which the portal
    assignment's properties are applied. *)

#[local] Existing Instances release_profile toy_peer toy_peer_laws linear_lookup linear_lookup_laws.

#[global] Instance PortalEntry_eq_dec : EqDecision PortalEntry.
Proof. solve_decision. Defined.
#[global] Instance PortalEntry_countable : Countable PortalEntry :=
  inj_countable' (fun r => (pe_worker_id r, pe_status r)) (fun '(i, n) => mkPortalEntry i n)
    (fun r => match r with mkPortalEntry _ _ => eq_refl end).

#[global] Instance PortalAssignmentDataset_eq_dec : EqDecision PortalAssignmentDataset.
Proof. solve_decision. Defined.
#[global] Instance PortalAssignmentDataset_countable : Countable PortalAssignmentDataset.
Proof.
  refine (inj_countable'
    (fun d => (pd_id d, pd_last_block d, pd_read_schema_id d, pd_last_block_hash d,
               pd_first_blocks d, pd_block_deltas d, pd_hashes d, pd_tops d, pd_timestamps d,
               pd_versions d, pd_worker_offsets d, pd_worker_indexes d))
    (fun '(a, b, c, d, e, f, g, h, i, j, k, l) =>
       mkPortalAssignmentDataset a b c d e f g h i j k l) _).
  by intros [].
Defined.

#[global] Instance PortalAssignment_eq_dec : EqDecision PortalAssignment.
Proof. solve_decision. Defined.
#[global] Instance PortalAssignment_countable : Countable PortalAssignment :=
  inj_countable' (fun r => (pa_datasets r, pa_workers r)) (fun '(i, n) => mkPortalAssignment i n)
    (fun r => match r with mkPortalAssignment _ _ => eq_refl end).

Definition pdemo_head : PortalChunkSpec := mkPortalChunkSpec (demo_chunk 0 0 99) 0 1000 [0; 2].
Definition pdemo_tail : PortalChunkSpec := mkPortalChunkSpec (demo_chunk 100 100 249) 3 2000 [2].
Definition pdemo_specs : list PortalChunkSpec := [pdemo_head; pdemo_tail].

Definition pdemo_staged : PortalAssignmentBuilder := snd (portal_stage_all pdemo_specs portal_new).

Definition pdemo_dataset : PortalAssignmentDataset :=
  portal_dataset_of (lit "ds") 4 None 249 (pb_columns pdemo_staged).

Definition pdemo_done : PortalAssignmentBuilder :=
  snd (portal_dataset_finish None (portal_new_dataset (lit "ds") 4 pdemo_staged)).

Definition pdemo_assignment : PortalAssignment := mkPortalAssignment [pdemo_dataset] [].

Definition pdemo_ranges : list (Z * Z) := [(0, 99); (100, 249)].

Lemma pdemo_wf : Forall (fun s => DataChunk_wf (ps_id s)) pdemo_specs.
Proof.
  repeat constructor; unfold u64; cbn -[Z.pow]; try lia; try by exists (lit "9QgFD").
Defined.

Lemma pdemo_stages_ok : fst (portal_stage_all pdemo_specs portal_new) = Ok tt.
Proof. vm_compute. reflexivity. Qed.

Lemma pdemo_stages : portal_stage_all pdemo_specs portal_new = (Ok tt, pdemo_staged).
Proof. exact (pair_Ok _ _ pdemo_stages_ok). Defined.

Lemma pdemo_clean : portal_clean portal_new.
Proof. by split. Defined.

Lemma pdemo_step_finish : pstep pdemo_staged pdemo_done.
Proof. exact (pstep_finish _ (lit "ds") 4 None _ _ (surjective_pairing _)). Qed.

Lemma pdemo_reachable : preachable pdemo_done.
Proof.
  eapply (transitivity (portal_stage_all_steps _ _ _ pdemo_wf pdemo_stages)), rtc_once.
  exact pdemo_step_finish.
Qed.

(** ** Witnesses *)

Lemma portal_dataset_roundtrip_witness :
  pdemo_specs <> [] /\ exists ds b'',
    portal_dataset_finish None (mkPortalDatasetBuilder pdemo_staged (lit "ds") 4 false) = (Ok tt, b'')
    /\ pb_all_datasets b'' = pb_all_datasets portal_new ++ [ds] /\ portal_clean b''
    /\ pd_id ds = lit "ds" /\ pd_read_schema_id ds = 4 /\ pd_last_block_hash ds = None
    /\ pd_chunk_count ds = length pdemo_specs
    /\ forall i s, pdemo_specs !! i = Some s -> portal_chunk_reads ds i s.
Proof.
  split; [discriminate |].
  exact (portal_dataset_roundtrip portal_new pdemo_staged pdemo_specs (lit "ds") 4 None
           pdemo_clean ltac:(discriminate) pdemo_wf pdemo_stages).
Defined.

Lemma pdemo_dataset_ranges : dataset_ranges pdemo_dataset pdemo_ranges.
Proof.
  split; [vm_compute; reflexivity |]. split; [vm_compute; reflexivity |].
  split; [vm_compute; discriminate |]. intros r [= <-]. reflexivity.
Defined.

Lemma pdemo_ranges_ascend : ranges_ascend pdemo_ranges.
Proof.
  split.
  - intros [| [| i]] f l; cbn; intros; simplify_eq; lia.
  - intros [| [| i]] [| [| j]] f l f' l'; cbn; intros; simplify_eq; lia.
Defined.

Lemma pdemo_get : pa_get_dataset pdemo_assignment (lit "ds") = Some pdemo_dataset.
Proof. vm_compute. reflexivity. Defined.

Lemma find_chunk_correct_witness :
  match find_chunk pdemo_assignment (lit "ds") 120 with
  | Ok k => exists i f l, pdemo_ranges !! i = Some (f, l)
              /\ k = mkPortalChunk pdemo_dataset (Z.of_nat i) /\ f <= 120 <= l
  | Err BeforeFirst => forall i f l, pdemo_ranges !! i = Some (f, l) -> 120 < f
  | Err AfterLast => pd_last_block pdemo_dataset < 120
  | Err InGap => exists i f l f' l', pdemo_ranges !! i = Some (f, l)
              /\ pdemo_ranges !! S i = Some (f', l') /\ l < 120 < f'
  | Err UnknownDataset => False
  | Panic => False
  end.
Proof.
  exact (find_chunk_correct pdemo_assignment (lit "ds") 120 pdemo_dataset pdemo_ranges
           pdemo_get pdemo_dataset_ranges pdemo_ranges_ascend).
Defined.

Lemma staged_blocks_are_found_witness :
  exists i s, pdemo_specs !! i = Some s
    /\ dc_first_block (ps_id s) <= 120 <= dc_last_block (ps_id s)
    /\ find_chunk pdemo_assignment (lit "ds") 120 = Ok (mkPortalChunk pdemo_dataset (Z.of_nat i)).
Proof.
  apply (staged_blocks_are_found portal_new pdemo_staged pdemo_specs pdemo_tail (lit "ds") 4 None
           pdemo_assignment pdemo_dataset 120 pdemo_head pdemo_clean pdemo_wf).
  - repeat constructor.
  - exact pdemo_stages.
  - reflexivity.
  - reflexivity.
  - reflexivity.
  - exact pdemo_get.
  - cbn. lia.
Defined.

Lemma find_chunk_by_timestamp_correct_witness :
  match find_chunk_by_timestamp pdemo_assignment (lit "ds") 1500 with
  | Ok k => exists i t, k = mkPortalChunk pdemo_dataset (Z.of_nat i)
              /\ pd_timestamps pdemo_dataset !! i = Some t
              /\ 1500 <= t
              /\ forall j u, (j < i)%nat -> pd_timestamps pdemo_dataset !! j = Some u -> u < 1500
  | Err AfterLast => forall j u, pd_timestamps pdemo_dataset !! j = Some u -> u < 1500
  | _ => False
  end.
Proof.
  apply (find_chunk_by_timestamp_correct pdemo_assignment (lit "ds") 1500 pdemo_dataset pdemo_get).
  - vm_compute. reflexivity.
  - vm_compute. discriminate.
  - change (pd_timestamps pdemo_dataset) with [1000; 2000].
    intros [| [| i]] [| [| j]] t t'; cbn; intros; simplify_eq; lia.
Defined.
