(* ===== verification/LegacyAssignment.v ===== *)
(** * The combined assignment (crates/assignments: builder.rs and reader.rs)

    [AssignmentBuilder], its [ChunkBuilder], and the [Assignment] reader that
    serves workers and portals alike.  The generated [create] functions assert
    that required fields are set, so a chunk finished without one panics. *)

From S2P Require Import Prelude RustStd DataChunk Search AssignmentFb Sealing.
From Stdlib Require Import ZArith Lia Ascii String.
From stdpp Require Import base sets strings gmap sorting numbers list.

Open Scope Z_scope.

(** ** The tables of assignment.fbs *)

Record FileUrl := mkFileUrl { fu_filename : str; fu_url : str }.

Record Chunk := mkChunk {
  ch_first_block : Z;
  ch_id : str;
  ch_dataset_id : str;
  ch_size : Z;
  ch_last_block_hash : option str;
  ch_last_block_timestamp : option Z;
  ch_dataset_base_url : str;
  ch_base_url : str;
  ch_files : list FileUrl;
  ch_worker_indexes : list Z
}.

Record Dataset := mkDataset { ld_id : str; ld_chunks : list Chunk; ld_last_block : Z }.

Record Assignment := mkAssignment { as_datasets : list Dataset; as_workers : list WorkerEntry }.

(** [Dataset::first_block] and [Dataset::last_block_hash] of assignment_fb.rs. *)
Definition ld_first_block {E} (d : Dataset) : res E Z :=
  c ← vget (ld_chunks d) 0;
  Ok (ch_first_block c).

Definition ld_last_block_hash {E} (d : Dataset) : res E (option str) :=
  match length (ld_chunks d) with
  | O => Panic (* [len() - 1] underflows, or the index is out of range *)
  | S n => c ← vget (ld_chunks d) n; Ok (ch_last_block_hash c)
  end.

(** ** The builder *)

Section builder.
Context `{BuildProfile, PeerIdOps, CryptoOps}.

Record AssignmentBuilder := mkAssignmentBuilder {
  lb_rng : Rng;
  lb_files_list_offsets : gmap (list str) (list FileUrl);
  lb_all_chunks : list Chunk;
  lb_last_block : option Z;
  lb_current_chunks : list Chunk;
  lb_current_dataset_id : option str;
  lb_all_datasets : list Dataset;
  lb_worker_assignments : list (list Z * WorkerEntry);
  lb_last_peer_id : option PeerId;
  lb_cloudflare_storage_secret : str;
  lb_common_identity : list Z;
  lb_common_secret_key : SecretKey;
  lb_check_continuity : bool
}.

Definition legacy_new_with_rng (secret : str) (rng : Rng) : AssignmentBuilder :=
  let '(key, rng) := generate_key rng in
  mkAssignmentBuilder rng ∅ [] None [] None [] [] None secret (pk_as_bytes (public_key key)) key true.

Definition lb_set_chunks (b : AssignmentBuilder) (all_chunks : list Chunk) (last_block : option Z)
    (current : list Chunk) (id : option str) (datasets : list Dataset) :=
  mkAssignmentBuilder (lb_rng b) (lb_files_list_offsets b) all_chunks last_block current id datasets
    (lb_worker_assignments b) (lb_last_peer_id b) (lb_cloudflare_storage_secret b)
    (lb_common_identity b) (lb_common_secret_key b) (lb_check_continuity b).

Definition lb_set_workers (b : AssignmentBuilder) (rng : Rng) (ws : list (list Z * WorkerEntry))
    (last : option PeerId) :=
  mkAssignmentBuilder rng (lb_files_list_offsets b) (lb_all_chunks b) (lb_last_block b)
    (lb_current_chunks b) (lb_current_dataset_id b) (lb_all_datasets b) ws last
    (lb_cloudflare_storage_secret b) (lb_common_identity b) (lb_common_secret_key b)
    (lb_check_continuity b).

Definition lb_set_files (b : AssignmentBuilder) (files : gmap (list str) (list FileUrl)) (check : bool) :=
  mkAssignmentBuilder (lb_rng b) files (lb_all_chunks b) (lb_last_block b)
    (lb_current_chunks b) (lb_current_dataset_id b) (lb_all_datasets b) (lb_worker_assignments b)
    (lb_last_peer_id b) (lb_cloudflare_storage_secret b) (lb_common_identity b)
    (lb_common_secret_key b) check.

Definition legacy_check_continuity (check : bool) (b : AssignmentBuilder) :=
  lb_set_files b (lb_files_list_offsets b) check.

(** Both the dataset id and the last block are taken before [expect] can panic. *)
Definition finish_dataset : comp AssignmentBuilder BuildError unit := (
  self <- cget ;;
  let chunks := lb_current_chunks self in
  let id := lb_current_dataset_id self in
  cmodify (fun b => lb_set_chunks b (lb_all_chunks b) None (lb_current_chunks b) None
                      (lb_all_datasets b)) ;;;
  last_block <- clift (expect (lb_last_block self)) ;;
  id <- clift (expect id) ;;
  cmodify (fun b => lb_set_chunks b (lb_all_chunks b) (lb_last_block b) []
    (lb_current_dataset_id b) (lb_all_datasets b ++ [mkDataset id chunks last_block])))%rust.

Definition legacy_generate_encrypted_headers (peer_id : PeerId) (timestamp : Z)
    : comp AssignmentBuilder SealError EncryptedHeaders := fun self =>
  let id := peer_to_string peer_id in
  let worker_signature := timed_hmac id (lb_cloudflare_storage_secret self) timestamp in
  let plaintext := header_json id worker_signature in
  let '(r, rng) := encrypt_with_rng peer_id (lb_common_secret_key self) (as_bytes plaintext)
                     (lb_rng self) in
  let self' := lb_set_workers self rng (lb_worker_assignments self) (lb_last_peer_id self) in
  match r with
  | Ok (ciphertext, nonce) => (Ok (mkEncryptedHeaders (lb_common_identity self) nonce ciphertext), self')
  | Err e => (Err e, self')
  | Panic => (Panic, self')
  end.

(** [chunk_indexes] is ignored, as in the source. *)
Definition legacy_add_worker_with_timestamp (id : PeerId) (status : WorkerStatus)
    (chunk_indexes : list Z) (timestamp : Z) : comp AssignmentBuilder BuildError unit := (
  self <- cget ;;
  clift (assert (match lb_last_peer_id self with
                 | Some last => match peer_cmp last id with Lt => true | _ => false end
                 | None => true
                 end)) ;;;
  cmodify (fun b => lb_set_workers b (lb_rng b) (lb_worker_assignments b) (Some id)) ;;;
  worker_id <- clift (WorkerId_from id) ;;
  fun b =>
    let '(r, b) := legacy_generate_encrypted_headers id timestamp b in
    let push headers := lb_set_workers b (lb_rng b)
      (lb_worker_assignments b
       ++ [(worker_id, mkWorkerEntry worker_id (status_to_fb status) headers)])
      (lb_last_peer_id b) in
    match r with
    | Ok h => (Ok tt, push (Some h))
    | Err _ => (Ok tt, push None)
    | Panic => (Panic, b)
    end)%rust.

Definition legacy_add_worker (now : option Z) (id : PeerId) (status : WorkerStatus)
    (chunk_indexes : list Z) : comp AssignmentBuilder BuildError unit := (
  timestamp <- clift (expect now) ;;
  legacy_add_worker_with_timestamp id status chunk_indexes timestamp)%rust.

Definition legacy_assignment_of (b : AssignmentBuilder) : Assignment :=
  mkAssignment (lb_all_datasets b) (snd <$> lb_worker_assignments b).

Definition legacy_finish `{Flatbuffer Assignment} (b : AssignmentBuilder) : list Z :=
  fb_finish (legacy_assignment_of b).

Definition add_chunk (chunk : Chunk) (dataset : str) (block_range : Z * Z)
    : comp AssignmentBuilder BuildError unit := fun self =>
  let result : res BuildError unit :=
    match lb_last_block self with
    | Some last =>
      next ← add_u64 last 1;
      if negb (next =? fst block_range) then Err (NotContiguous last (fst block_range)) else Ok tt
    | None => Ok tt
    end in
  match result with
  | Panic => (Panic, self)
  | _ =>
    if is_ok result || negb (lb_check_continuity self) then
      (result, lb_set_chunks self (lb_all_chunks self ++ [chunk]) (Some (snd block_range))
                 (lb_current_chunks self ++ [chunk]) (Some dataset) (lb_all_datasets self))
    else (result, self)
  end.

Definition cache_files_list (files : list str) (b : AssignmentBuilder)
    : list FileUrl * AssignmentBuilder :=
  match lb_files_list_offsets b !! files with
  | Some offset => (offset, b)
  | None =>
    let offset := (fun f => mkFileUrl f f) <$> files in
    (offset, lb_set_files b (<[files := offset]> (lb_files_list_offsets b)) (lb_check_continuity b))
  end.

(** *** Chunks *)

Record ChunkBuilder := mkChunkBuilder {
  lcb_p : AssignmentBuilder;
  lcb_block_range : option (Z * Z);
  lcb_id : option str;
  lcb_dataset_id : option str;
  lcb_size : option Z;
  lcb_last_block_hash : option str;
  lcb_last_block_timestamp : option Z;
  lcb_dataset_base_url : option str;
  lcb_files : option (list FileUrl);
  lcb_worker_indexes : option (list Z)
}.

Definition ChunkBuilder_new (parent : AssignmentBuilder) : ChunkBuilder :=
  mkChunkBuilder parent None None None None None None None None None.

Definition lcb_set_id (id : DataChunk) (c : ChunkBuilder) : res BuildError ChunkBuilder :=
  s ← DataChunk_to_string id;
  Ok (mkChunkBuilder (lcb_p c) (lcb_block_range c) (Some s) (lcb_dataset_id c) (lcb_size c)
        (lcb_last_block_hash c) (lcb_last_block_timestamp c) (lcb_dataset_base_url c)
        (lcb_files c) (lcb_worker_indexes c)).

Definition lcb_set_dataset_id (dataset_id : str) (c : ChunkBuilder) :=
  mkChunkBuilder (lcb_p c) (lcb_block_range c) (lcb_id c) (Some dataset_id) (lcb_size c)
    (lcb_last_block_hash c) (lcb_last_block_timestamp c) (lcb_dataset_base_url c)
    (lcb_files c) (lcb_worker_indexes c).

Definition lcb_set_block_range (range : Z * Z) (c : ChunkBuilder) :=
  mkChunkBuilder (lcb_p c) (Some range) (lcb_id c) (lcb_dataset_id c) (lcb_size c)
    (lcb_last_block_hash c) (lcb_last_block_timestamp c) (lcb_dataset_base_url c)
    (lcb_files c) (lcb_worker_indexes c).

Definition lcb_set_size (size : Z) (c : ChunkBuilder) :=
  mkChunkBuilder (lcb_p c) (lcb_block_range c) (lcb_id c) (lcb_dataset_id c) (Some size)
    (lcb_last_block_hash c) (lcb_last_block_timestamp c) (lcb_dataset_base_url c)
    (lcb_files c) (lcb_worker_indexes c).

Definition lcb_set_last_block_hash (hash : str) (c : ChunkBuilder) :=
  mkChunkBuilder (lcb_p c) (lcb_block_range c) (lcb_id c) (lcb_dataset_id c) (lcb_size c)
    (Some hash) (lcb_last_block_timestamp c) (lcb_dataset_base_url c)
    (lcb_files c) (lcb_worker_indexes c).

Definition lcb_set_last_block_timestamp (timestamp : Z) (c : ChunkBuilder) :=
  mkChunkBuilder (lcb_p c) (lcb_block_range c) (lcb_id c) (lcb_dataset_id c) (lcb_size c)
    (lcb_last_block_hash c) (Some timestamp) (lcb_dataset_base_url c)
    (lcb_files c) (lcb_worker_indexes c).

Definition lcb_set_dataset_base_url (url : str) (c : ChunkBuilder) :=
  mkChunkBuilder (lcb_p c) (lcb_block_range c) (lcb_id c) (lcb_dataset_id c) (lcb_size c)
    (lcb_last_block_hash c) (lcb_last_block_timestamp c) (Some url)
    (lcb_files c) (lcb_worker_indexes c).

Definition lcb_set_worker_indexes (indexes : list Z) (c : ChunkBuilder) :=
  mkChunkBuilder (lcb_p c) (lcb_block_range c) (lcb_id c) (lcb_dataset_id c) (lcb_size c)
    (lcb_last_block_hash c) (lcb_last_block_timestamp c) (lcb_dataset_base_url c)
    (lcb_files c) (Some indexes).

Definition lcb_set_files (files : list str) (c : ChunkBuilder) :=
  let '(offset, p) := cache_files_list files (lcb_p c) in
  mkChunkBuilder p (lcb_block_range c) (lcb_id c) (lcb_dataset_id c) (lcb_size c)
    (lcb_last_block_hash c) (lcb_last_block_timestamp c) (lcb_dataset_base_url c)
    (Some offset) (lcb_worker_indexes c).

Definition ChunkBuilder_finish (self : ChunkBuilder) : res BuildError unit * AssignmentBuilder := (
  block_range <- clift (expect (lcb_block_range self)) ;;
  size <- clift (expect (lcb_size self)) ;;
  (* [Chunk::create] requires these *)
  id <- clift (expect (lcb_id self)) ;;
  dataset_id <- clift (expect (lcb_dataset_id self)) ;;
  dataset_base_url <- clift (expect (lcb_dataset_base_url self)) ;;
  files <- clift (expect (lcb_files self)) ;;
  worker_indexes <- clift (expect (lcb_worker_indexes self)) ;;
  add_chunk (mkChunk (fst block_range) id dataset_id size (lcb_last_block_hash self)
               (lcb_last_block_timestamp self) dataset_base_url id files worker_indexes)
    dataset_id block_range)%rust (lcb_p self).
End builder.

(** ** The reader *)

Section reader.
Context `{BuildProfile, PeerIdOps, CryptoOps, VectorLookup, Flatbuffer Assignment}.

Definition legacy_from_owned (buf : list Z) : res InvalidAssignment Assignment :=
  ok_or (fb_root buf) InvalidFlatbuffer.

Record Worker := mkWorker { lw_assignment : Assignment; lw_reader : WorkerEntry; lw_index : Z }.

Definition as_get_worker_id {E} (a : Assignment) (index : Z) : res E (option PeerId) :=
  worker ← vget (as_workers a) (Z.to_nat index);
  Ok (WorkerId_try_into (we_worker_id worker)).

Definition as_get_worker_by_index {E} (a : Assignment) (index : Z) : res E Worker :=
  worker ← vget (as_workers a) (Z.to_nat index);
  Ok (mkWorker a worker index).

Definition as_get_worker {E} (a : Assignment) (id : PeerId) : res E (option Worker) :=
  index ← lookup_index_by_key (as_workers a) (fun x =>
    match WorkerId_try_into (we_worker_id x) with
    | Some parsed => Ok (peer_cmp parsed id)
    | None => Panic
    end);
  match index with
  | None => Ok None
  | Some index =>
    worker ← vget (as_workers a) index;
    Ok (Some (mkWorker a worker (Z.of_nat index mod 2 ^ 16)))
  end.

Definition as_get_dataset (a : Assignment) (dataset : str) : option Dataset :=
  lookup_by_key (as_datasets a) (fun ds => str_cmp (ld_id ds) dataset).

Definition as_get_chunk (a : Assignment) (r : ChunkRef) : option Chunk :=
  match as_datasets a !! Z.to_nat (dataset_index r) with
  | None => None
  | Some d => ld_chunks d !! Z.to_nat (chunk_index r)
  end.

Definition legacy_find_chunk (a : Assignment) (dataset : str) (block : Z) : res ChunkNotFound Chunk :=
  dataset ← ok_or (as_get_dataset a dataset) UnknownDataset;
  if ld_last_block dataset <? block then Err AfterLast
  else
    let chunks := ld_chunks dataset in
    r ← binary_search_by chunks (fun itm => Z.compare (ch_first_block itm) block);
    index ← match r with
            | inl idx => Ok idx
            | inr (Some idx) => Ok idx
            | inr None => Err BeforeFirst
            end;
    vget chunks index.

Definition timestamp_of (c : Chunk) : Z :=
  match ch_last_block_timestamp c with Some t => t | None => 0 end.

(** [for i in (0..idx + 1).rev()]: [n] is [i + 1]. *)
Fixpoint walk_back {E} (chunks : list Chunk) (ts : Z) (n : nat) : res E (option Chunk) :=
  match n with
  | O => Ok None
  | S i =>
    c ← vget chunks i;
    if negb (bool_decide (ch_last_block_timestamp c = Some ts)) then Some <$> vget chunks (i + 1)
    else if (i =? 0)%nat then Some <$> vget chunks 0
    else walk_back chunks ts i
  end.

Definition legacy_find_chunk_by_timestamp (a : Assignment) (dataset : str) (ts : Z)
    : res ChunkNotFound Chunk :=
  dataset ← ok_or (as_get_dataset a dataset) UnknownDataset;
  let chunks := ld_chunks dataset in
  r ← binary_search_by chunks (fun itm => Z.compare (timestamp_of itm) ts);
  idx ← match r with
        | inl idx => Ok idx
        | inr (Some idx) => if (idx + 1 <? length chunks)%nat then Ok (idx + 1)%nat else Err AfterLast
        | inr None => if negb (length chunks =? 0)%nat then Ok 0%nat else Err AfterLast
        end;
  c ← vget chunks idx;
  found ← (if bool_decide (ch_last_block_timestamp c = Some ts)
           then walk_back chunks ts (idx + 1) else Ok None);
  match found with
  | Some c => Ok c
  | None => vget chunks idx
  end.

Definition lw_iter_chunks (w : Worker) : list Chunk :=
  d ← as_datasets (lw_assignment w);
  filter (fun chunk => lw_index w ∈ ch_worker_indexes chunk) (ld_chunks d).

Definition lw_iter_chunks_with_ref (w : Worker) : list (ChunkRef * Chunk) :=
  '(d, dataset) ← imap pair (as_datasets (lw_assignment w));
  (fun '(c, chunk) => (mkChunkRef (Z.of_nat d) (Z.of_nat c), chunk))
  <$> filter (fun p => lw_index w ∈ ch_worker_indexes (snd p)) (imap pair (ld_chunks dataset)).

Definition lw_peer_id (w : Worker) : option PeerId := WorkerId_try_into (we_worker_id (lw_reader w)).

Definition lw_status (w : Worker) : WorkerStatus := status_from_fb (we_status (lw_reader w)).

Definition lw_decrypt_headers (w : Worker) (key : Keypair) : res SealError (gmap str str) :=
  decrypt_headers (we_encrypted_headers (lw_reader w)) key.
End reader.
