(* ===== verification/LegacyProps.v ===== *)
(** * The combined assignment: properties *)

From S2P Require Import Prelude RustStd DataChunk Search AssignmentFb Sealing Instances.
From S2P Require Import LegacyAssignment.
From Stdlib Require Import ZArith Lia Ascii String.
From stdpp Require Import base sets strings gmap sorting numbers list.

Open Scope Z_scope.

(** ** Definitions *)

Definition keys_ascend {A} (key : A -> Z) (l : list A) : Prop :=
  forall i j x y, (i < j)%nat -> l !! i = Some x -> l !! j = Some y -> key x <= key y.

(** Chunk [c] is the first of [chunks] with a timestamp of at least [ts]. *)
Definition first_at_or_after (chunks : list Chunk) (ts : Z) (c : Chunk) : Prop :=
  exists i, chunks !! i = Some c /\ ts <= timestamp_of c
  /\ forall j d, (j < i)%nat -> chunks !! j = Some d -> timestamp_of d < ts.

(** ** Searches *)

Section facts.
Context `{BuildProfile, PeerIdOps, CryptoOps, VectorLookup}.

Lemma timestamp_Some c t : ch_last_block_timestamp c = Some t -> timestamp_of c = t.
Proof. unfold timestamp_of. by intros ->. Qed.

(** The walk back over a run of equal timestamps ends at its first member. *)
Lemma walk_back_first {E} chunks ts idx n :
  keys_ascend timestamp_of chunks ->
  (forall i c, chunks !! i = Some c -> is_Some (ch_last_block_timestamp c)) ->
  (n <= idx + 1)%nat -> (0 < n)%nat ->
  (forall j c, (n - 1 <= j <= idx)%nat -> chunks !! j = Some c -> ch_last_block_timestamp c = Some ts) ->
  (idx < length chunks)%nat ->
  exists c, walk_back (E := E) chunks ts n = Ok (Some c) /\ first_at_or_after chunks ts c.
Proof.
  intros Hasc Hsome. induction n as [| i IH]; intros Hn Hpos Hrun Hidx; [lia |].
  cbn [walk_back]. destruct (vget_lt (E := E) chunks i) as (c & Hc & ->); [lia |].
  cbn [mbind res_bind]. pose proof (Hrun i c ltac:(lia) Hc) as Hts.
  rewrite bool_decide_eq_true_2 by done. cbn [negb].
  destruct (i =? 0)%nat eqn:E0; zbool.
  - subst i. rewrite (vget_Some _ _ _ Hc). exists c. split; [done |]. exists 0%nat.
    rewrite (timestamp_Some _ _ Hts). split; [done |]. split; [lia |]. lia.
  - destruct i as [| i]; [done |].
    destruct (lookup_lt_is_Some_2 chunks i) as [d Hd]; [lia |].
    destruct (decide (ch_last_block_timestamp d = Some ts)) as [Hdt | Hdt].
    + apply IH; [lia | lia | | done]. intros j c' Hj Hc'.
      destruct (decide (j = i)) as [-> |]; [congruence |]. apply (Hrun j); [lia | done].
    + cbn [walk_back]. rewrite (vget_Some _ _ _ Hd). cbn [mbind res_bind].
      rewrite bool_decide_eq_false_2 by done. cbn [negb].
      rewrite Nat.add_1_r, (vget_Some _ _ _ Hc). exists c. split; [done |]. exists (S i).
      rewrite (timestamp_Some _ _ Hts). split; [done |]. split; [lia |].
      intros j e Hj He. destruct (Hsome i d Hd) as [td Htd].
      pose proof (Hasc i (S i) d c ltac:(lia) Hd Hc) as Hle.
      rewrite (timestamp_Some _ _ Hts), (timestamp_Some _ _ Htd) in Hle.
      assert (td < ts) by (assert (td <> ts) by congruence; lia).
      destruct (decide (j = i)) as [-> |]; [simplify_eq; by rewrite (timestamp_Some _ _ Htd) |].
      pose proof (Hasc j i e d ltac:(lia) He Hd) as Hle2. rewrite (timestamp_Some _ _ Htd) in Hle2. lia.
Qed.

(** On ascending chunks, the combined assignment's [find_chunk] never panics:
    it answers the last chunk starting at or before the block, [AfterLast] past
    the dataset's end, and [BeforeFirst] only when every chunk starts later. *)
Theorem legacy_find_chunk_correct (a : Assignment) name block ds
    (Hget : as_get_dataset a name = Some ds) (Hasc : keys_ascend ch_first_block (ld_chunks ds)) :
  match legacy_find_chunk a name block with
  | Ok c => exists i, ld_chunks ds !! i = Some c /\ ch_first_block c <= block
              /\ forall j d, (i < j)%nat -> ld_chunks ds !! j = Some d ->
                   ch_first_block c < block -> block < ch_first_block d
  | Err AfterLast => ld_last_block ds < block
  | Err BeforeFirst => forall c, c ∈ ld_chunks ds -> block < ch_first_block c
  | _ => False
  end.
Proof.
  unfold legacy_find_chunk. rewrite Hget. cbn [mbind res_bind ok_or].
  destruct (ld_last_block ds <? block) eqn:Elast; zbool; [done |].
  destruct (binary_search_by_ok (E := ChunkNotFound) (ld_chunks ds)
    (fun itm => Z.compare (ch_first_block itm) block)) as (r & -> & Hr).
  { by apply cmp_sorted_Z. }
  cbn [mbind res_bind]. destruct r as [i | [i |]]; cbn [search_answer] in Hr.
  - destruct Hr as (c & Hc & He). apply Z.compare_eq_iff in He. cbn [mbind res_bind].
    rewrite (vget_Some _ _ _ Hc). exists i. split; [done |]. split; [lia |].
    intros j d Hj Hd Hlt. lia.
  - destruct Hr as ((c & Hc & Hlt) & _ & Hgt). cbn [mbind res_bind]. rewrite (vget_Some _ _ _ Hc).
    cbn in Hlt. rewrite Z.compare_lt_iff in Hlt. exists i. split; [done |]. split; [lia |].
    intros j d Hj Hd _. apply Z.compare_gt_iff. by apply (Hgt j).
  - intros c Hc. apply Z.compare_gt_iff. by apply Hr.
Qed.

(** On recorded, ascending timestamps, the combined assignment's search by
    timestamp answers the first chunk at or after it - the walk back over equal
    timestamps included - and [AfterLast] exactly when there is none. *)
Theorem legacy_find_chunk_by_timestamp_correct (a : Assignment) name ts ds
    (Hget : as_get_dataset a name = Some ds)
    (Hasc : keys_ascend timestamp_of (ld_chunks ds))
    (Hsome : forall i c, ld_chunks ds !! i = Some c -> is_Some (ch_last_block_timestamp c)) :
  match legacy_find_chunk_by_timestamp a name ts with
  | Ok c => first_at_or_after (ld_chunks ds) ts c
  | Err AfterLast => forall i c, ld_chunks ds !! i = Some c -> timestamp_of c < ts
  | _ => False
  end.
Proof.
  unfold legacy_find_chunk_by_timestamp. rewrite Hget. cbn [mbind res_bind ok_or]. cbv zeta.
  destruct (binary_search_by_ok (E := ChunkNotFound) (ld_chunks ds)
    (fun itm => Z.compare (timestamp_of itm) ts)) as (r & -> & Hr).
  { by apply cmp_sorted_Z. }
  cbn [mbind res_bind]. destruct r as [i | [i |]]; cbn [search_answer] in Hr.
  - destruct Hr as (c & Hc & He). apply Z.compare_eq_iff in He. cbn [mbind res_bind].
    rewrite (vget_Some _ _ _ Hc). cbn [mbind res_bind].
    destruct (Hsome i c Hc) as [t Ht]. rewrite (timestamp_Some _ _ Ht) in He. subst t.
    rewrite bool_decide_eq_true_2 by done. pose proof (lookup_lt_Some _ _ _ Hc).
    destruct (walk_back_first (E := ChunkNotFound) (ld_chunks ds) ts i (i + 1)) as (d & -> & Hd);
      [done | done | lia | lia | | done | done].
    intros j e Hj He. replace j with i in He by lia. congruence.
  - destruct Hr as ((c & Hc & Hlt) & Hbelow & Hgt). cbn in Hlt. rewrite Z.compare_lt_iff in Hlt.
    destruct (i + 1 <? length (ld_chunks ds))%nat eqn:Ei; zbool; cbn [mbind res_bind].
    + destruct (lookup_lt_is_Some_2 _ _ Ei) as [d Hd]. rewrite !(vget_Some _ _ _ Hd). cbn [mbind res_bind].
      assert (ts < timestamp_of d) as Hd2 by (apply Z.compare_gt_iff, (Hgt (i + 1)%nat); [lia | done]).
      rewrite bool_decide_eq_false_2 by (intros Hx; rewrite (timestamp_Some _ _ Hx) in Hd2; lia).
      exists (i + 1)%nat. split; [done |]. split; [lia |]. intros j e Hj He.
      destruct (decide (j = i)) as [-> |]; [simplify_eq; lia |].
      apply Z.compare_lt_iff, (Hbelow j); [lia | done].
    + intros j e He. pose proof (lookup_lt_Some _ _ _ He).
      destruct (decide (j = i)) as [-> |]; [simplify_eq; lia |].
      apply Z.compare_lt_iff, (Hbelow j); [lia | done].
  - destruct (length (ld_chunks ds) =? 0)%nat eqn:El; zbool; cbn [negb mbind res_bind].
    + intros j e He%lookup_lt_Some. lia.
    + destruct (lookup_lt_is_Some_2 (ld_chunks ds) 0) as [d Hd]; [lia |].
      rewrite !(vget_Some _ _ _ Hd). cbn [mbind res_bind].
      assert (ts < timestamp_of d) as Hd2
        by (apply Z.compare_gt_iff, Hr; by eapply list_elem_of_lookup_2).
      rewrite bool_decide_eq_false_2 by (intros Hx; rewrite (timestamp_Some _ _ Hx) in Hd2; lia).
      exists 0%nat. split; [done |]. split; [lia |]. lia.
Qed.
End facts.

(** ** Staging *)

Section build.
Context `{BuildProfile, PeerIdOps, CryptoOps}.

(** The cache answers what it would compute. *)
Definition files_inv (b : AssignmentBuilder) : Prop :=
  forall files offset, lb_files_list_offsets b !! files = Some offset ->
    offset = (fun f => mkFileUrl f f) <$> files.

(** The cache of file lists is transparent: the list written for a chunk is
    always the one its file names spell, whether it was cached or not, and the
    cache stays so. *)
Theorem cache_files_list_correct files (b b' : AssignmentBuilder) offset
    (Hinv : files_inv b) (Hc : cache_files_list files b = (offset, b')) :
  offset = (fun f => mkFileUrl f f) <$> files /\ files_inv b'
  /\ lb_current_chunks b' = lb_current_chunks b /\ lb_last_block b' = lb_last_block b.
Proof.
  unfold cache_files_list in Hc. destruct (lb_files_list_offsets b !! files) as [o |] eqn:Ho.
  - simplify_eq. auto.
  - simplify_eq. split; [done |]. split; [| done]. intros files' offset' Hl. cbn in Hl.
    apply lookup_insert_Some in Hl as [[<- <-] | [_ Hl]]; [done | by apply Hinv].
Qed.

(** [add_chunk] keeps its documented contract: a chunk that continues the
    dataset (or opens it) is appended; one that breaks continuity is reported
    either way, left out when the check is on and appended when it is off. *)
Theorem add_chunk_contract chunk dataset range (b b' : AssignmentBuilder) r
    (Hlast : forall l, lb_last_block b = Some l -> 0 <= l < u64_max)
    (Hc : add_chunk chunk dataset range b = (r, b')) :
  let continues := match lb_last_block b with Some l => l + 1 = fst range | None => True end in
  let appended := lb_current_chunks b' = lb_current_chunks b ++ [chunk]
                  /\ lb_last_block b' = Some (snd range)
                  /\ lb_current_dataset_id b' = Some dataset in
  (continues -> r = Ok tt /\ appended)
  /\ (~ continues -> exists l, lb_last_block b = Some l /\ r = Err (NotContiguous l (fst range))
        /\ if lb_check_continuity b then b' = b else appended).
Proof.
  unfold add_chunk in Hc. cbv zeta. destruct (lb_last_block b) as [l |] eqn:Hl.
  - specialize (Hlast l eq_refl). unfold u64_max in *. rewrite add_u64_ok in Hc by lia.
    cbn [mbind res_bind] in Hc. destruct (l + 1 =? fst range) eqn:E; zbool; cbn in Hc.
    + simplify_eq. split; [| done]. intros _. done.
    + split; [done |]. intros _. exists l. split; [done |].
      destruct (lb_check_continuity b); cbn in Hc; simplify_eq; done.
  - cbn in Hc. simplify_eq. split; [done |]. by intros [].
Qed.
End build.

(** ** Witnesses *)

#[local] Existing Instances debug_profile toy_peer toy_crypto linear_lookup linear_lookup_laws.

Definition ldemo_chunk (first : Z) (ts : Z) : Chunk :=
  mkChunk first (lit "id") (lit "ds") 1 None (Some ts) (lit "s3://ds") (lit "id") [] [].

Definition ldemo_dataset : Dataset :=
  mkDataset (lit "ds") [ldemo_chunk 0 10; ldemo_chunk 100 20; ldemo_chunk 200 20] 299.

Definition ldemo_assignment : Assignment := mkAssignment [ldemo_dataset] [].

Lemma legacy_find_chunk_correct_witness :
  match legacy_find_chunk ldemo_assignment (lit "ds") 150 with
  | Ok c => exists i, ld_chunks ldemo_dataset !! i = Some c /\ ch_first_block c <= 150
              /\ forall j d, (i < j)%nat -> ld_chunks ldemo_dataset !! j = Some d ->
                   ch_first_block c < 150 -> 150 < ch_first_block d
  | Err AfterLast => ld_last_block ldemo_dataset < 150
  | Err BeforeFirst => forall c, c ∈ ld_chunks ldemo_dataset -> 150 < ch_first_block c
  | _ => False
  end.
Proof.
  apply (legacy_find_chunk_correct ldemo_assignment (lit "ds") 150 ldemo_dataset); [reflexivity |].
  intros [| [| [| i]]] [| [| [| j]]] x y; cbn; intros; simplify_eq; cbn; lia.
Defined.

Lemma legacy_find_chunk_by_timestamp_correct_witness :
  match legacy_find_chunk_by_timestamp ldemo_assignment (lit "ds") 20 with
  | Ok c => first_at_or_after (ld_chunks ldemo_dataset) 20 c
  | Err AfterLast => forall i c, ld_chunks ldemo_dataset !! i = Some c -> timestamp_of c < 20
  | _ => False
  end.
Proof.
  apply (legacy_find_chunk_by_timestamp_correct ldemo_assignment (lit "ds") 20 ldemo_dataset);
    [reflexivity | |].
  - intros [| [| [| i]]] [| [| [| j]]] x y; cbn; intros; simplify_eq; cbn; lia.
  - intros [| [| [| i]]] c; cbn; intros; simplify_eq; cbn; eauto.
Defined.

Definition ldemo_builder : AssignmentBuilder := legacy_new_with_rng (lit "secret") tt.

Lemma cache_files_list_correct_witness :
  exists offset b', offset = (fun f => mkFileUrl f f) <$> [lit "blocks.parquet"] /\ files_inv b'
  /\ lb_current_chunks b' = lb_current_chunks ldemo_builder
  /\ lb_last_block b' = lb_last_block ldemo_builder.
Proof.
  eexists _, _. apply (cache_files_list_correct [lit "blocks.parquet"] ldemo_builder); [| reflexivity].
  intros files offset Hl. discriminate Hl.
Defined.

Lemma add_chunk_contract_witness :
  fst (add_chunk (ldemo_chunk 0 10) (lit "ds") (0, 99) ldemo_builder) = Ok tt
  /\ lb_current_chunks (snd (add_chunk (ldemo_chunk 0 10) (lit "ds") (0, 99) ldemo_builder))
     = [ldemo_chunk 0 10]
  /\ lb_last_block (snd (add_chunk (ldemo_chunk 0 10) (lit "ds") (0, 99) ldemo_builder)) = Some 99
  /\ lb_current_dataset_id (snd (add_chunk (ldemo_chunk 0 10) (lit "ds") (0, 99) ldemo_builder))
     = Some (lit "ds").
Proof.
  refine (proj1 (add_chunk_contract (ldemo_chunk 0 10) (lit "ds") (0, 99) ldemo_builder _ _ _
                   (surjective_pairing _)) I). done.
Defined.
