(* ===== verification/FlatBuffers.v ===== *)
(** * The FlatBuffers library, as the generated code uses it

    The generated files of crates/assignments/schema/gen are written against
    the [flatbuffers] crate, which is not part of the sources.  [FlatBufferOps]
    is what they call of it: the [Follow] and [Verifiable] implementations of
    its own types, table access, the table verifier, the buffer builder and the
    root functions.  The laws are its documented behaviour, in two groups:

    - [FlatBufferSafety]: a value the verifier accepted can be followed, so the
      unsafe reads of the accessors are defined, in whatever bytes;
    - [FlatBufferCodec]: what a builder writes is kept by later writes, and in
      the finished buffer every object verifies and reads back.

    A read of bytes that hold no such value is undefined behaviour, [Err Ub].
    The 2 GiB limit of the builder is left out: a buffer is taken to fit. *)

From S2P Require Import Prelude RustStd.
From Stdlib Require Import ZArith Lia Ascii String.
From stdpp Require Import base sets strings gmap sorting numbers list.

Open Scope Z_scope.

(** ** Values and positions *)

Inductive Ub := UndefinedBehaviour.

Notation VOffsetT := Z (only parsing).
Notation WIPOffset := Z (only parsing).

(** The scalar types the schemas use. *)
Inductive Scalar := I8 | U8 | U16 | U32 | U64.

#[global] Instance Scalar_eq_dec : EqDecision Scalar.
Proof. solve_decision. Defined.

Definition scalar_size (s : Scalar) : nat :=
  match s with I8 | U8 => 1 | U16 => 2 | U32 => 4 | U64 => 8 end.

Definition scalar_ok (s : Scalar) (v : Z) : Prop :=
  match s with
  | I8 => - 2 ^ 7 <= v < 2 ^ 7
  | U8 => 0 <= v < 2 ^ 8
  | U16 => 0 <= v < 2 ^ 16
  | U32 => 0 <= v < 2 ^ 32
  | U64 => 0 <= v < 2 ^ 64
  end.

#[global] Instance scalar_ok_dec s v : Decision (scalar_ok s v).
Proof. destruct s; apply _. Defined.

(** The bytes of a struct of [n] bytes. *)
Definition bytes_n (n : nat) (bs : list Z) : Prop :=
  length bs = n /\ Forall (scalar_ok U8) bs.

(** What is pushed into a table slot or a vector: a scalar, the bytes of a
    struct, or the offset of an object. *)
Inductive Pushed :=
| PScalar (s : Scalar) (v : Z)
| PStruct (bs : list Z)
| POffset (o : WIPOffset).

#[global] Instance Pushed_eq_dec : EqDecision Pushed.
Proof. solve_decision. Defined.

Definition push_size (p : Pushed) : nat :=
  match p with
  | PScalar s _ => scalar_size s
  | PStruct bs => length bs
  | POffset _ => 4
  end.

(** [Follow] and [Verifiable]: how a type is read at a position of a buffer,
    and how the verifier checks that position first. *)
Record Follow (A : Type) := mkFollow {
  fo_size : nat;
  follow : list Z -> Z -> res Ub A;
  run_verifier : list Z -> Z -> option unit
}.
Arguments mkFollow {A} _ _ _.
Arguments fo_size {A} _.
Arguments follow {A} _ _ _.
Arguments run_verifier {A} _ _ _.

(** [Table]: a buffer and the position of a table in it. *)
Definition Table : Type := list Z * Z.

(** The limits a verifier is run with. *)
Record VerifierOptions := mkVerifierOptions {
  max_depth : Z;
  max_tables : Z;
  max_apparent_size : Z;
  ignore_missing_null_terminator : bool
}.

(** ** The operations *)

Class FlatBufferOps := {
  read_scalar_at : Scalar -> list Z -> Z -> res Ub Z;
  fb_scalar : Scalar -> Follow Z;
  fb_str : Follow str;
  Vector : forall {A}, Follow A -> Follow (list A);
  ForwardsUOffset : forall {A}, Follow A -> Follow A;
  follow_cast_ref : nat -> list Z -> Z -> res Ub (list Z);
  in_buffer : nat -> list Z -> Z -> option unit;
  Array_follow : nat -> list Z -> Z -> res Ub (list Z);
  emplace_scalar_array : list Z -> Z -> list Z -> list Z;

  tab_get : forall {A}, Follow A -> Table -> VOffsetT -> option A -> res Ub (option A);
  visit_table : list Z -> Z -> option Table;
  visit_field : forall {A}, Follow A -> string -> VOffsetT -> bool -> Table -> option Table;

  default_opts : VerifierOptions;
  root_with_opts : forall {A}, VerifierOptions -> Follow A -> list Z -> option A;
  root_unchecked : forall {A}, Follow A -> list Z -> res Ub A;
  size_prefixed_root_with_opts : forall {A}, VerifierOptions -> Follow A -> list Z -> option A;
  size_prefixed_root_unchecked : forall {A}, Follow A -> list Z -> res Ub A;

  FlatBufferBuilder : Type;
  fbb_new : FlatBufferBuilder;
  create_string : str -> comp FlatBufferBuilder Ub WIPOffset;
  create_shared_string : str -> comp FlatBufferBuilder Ub WIPOffset;
  create_vector : list Pushed -> comp FlatBufferBuilder Ub WIPOffset;
  start_table : comp FlatBufferBuilder Ub WIPOffset;
  push_slot : VOffsetT -> Pushed -> Pushed -> comp FlatBufferBuilder Ub unit;
  push_slot_always : VOffsetT -> Pushed -> comp FlatBufferBuilder Ub unit;
  end_table : WIPOffset -> comp FlatBufferBuilder Ub WIPOffset;
  required : WIPOffset -> VOffsetT -> string -> comp FlatBufferBuilder Ub unit;
  fbb_finish : WIPOffset -> FlatBufferBuilder -> list Z;
  fbb_finish_size_prefixed : WIPOffset -> FlatBufferBuilder -> list Z
}.

(** [root] and [size_prefixed_root]: the default options. *)
Definition root `{FlatBufferOps} {A} (f : Follow A) : list Z -> option A :=
  root_with_opts default_opts f.
Definition size_prefixed_root `{FlatBufferOps} {A} (f : Follow A) : list Z -> option A :=
  size_prefixed_root_with_opts default_opts f.

(** [Option::unwrap] on what an accessor got. *)
Definition get_unwrap `{FlatBufferOps} {A} (f : Follow A) (t : Table) (vt : VOffsetT)
    (d : option A) : res Ub A :=
  o ← tab_get f t vt d; expect o.

(** [if let Some(x) = o { k(x) }]. *)
Definition if_let_Some {S E A} (o : option A) (k : A -> comp S E unit) : comp S E unit :=
  match o with Some x => k x | None => creturn tt end.

(** ** What the verifier promises *)

Section soundness.
Context `{FlatBufferOps}.

(** What the verifier of [f] accepts is followed, to a value with [P]. *)
Definition sound {A} (f : Follow A) (P : A -> Prop) : Prop :=
  forall buf l, run_verifier f buf l = Some tt -> exists v, follow f buf l = Ok v /\ P v.

Class FlatBufferSafety := {
  scalar_follow s buf l : follow (fb_scalar s) buf l = read_scalar_at s buf l;
  scalar_sound s : sound (fb_scalar s) (scalar_ok s);
  str_sound : sound fb_str (fun _ => True);
  vector_sound {A} (f : Follow A) P : sound f P -> sound (Vector f) (Forall P);
  offset_sound {A} (f : Follow A) P : sound f P -> sound (ForwardsUOffset f) P;
  struct_sound n buf l : in_buffer n buf l = Some tt ->
    exists bs, follow_cast_ref n buf l = Ok bs /\ bytes_n n bs;
  visit_table_same buf l tv : visit_table buf l = Some tv -> tv = (buf, l);
  visit_field_same {A} (f : Follow A) name vt req t tv :
    visit_field f name vt req t = Some tv -> tv = t;
  field_sound {A} (f : Follow A) P buf l name vt req tv :
    visit_table buf l = Some (buf, l) ->
    visit_field f name vt req (buf, l) = Some tv -> sound f P ->
    forall d, exists o, tab_get f (buf, l) vt d = Ok o
      /\ ((req = false /\ o = d) \/ exists v, o = Some v /\ P v);
  root_sound {A} opts (f : Follow A) buf v :
    root_with_opts opts f buf = Some v ->
    exists l, run_verifier f buf l = Some tt /\ follow f buf l = Ok v
              /\ root_unchecked f buf = Ok v;
  array_follow n bs : length bs = n -> Array_follow n bs 0 = Ok bs;
  array_emplace bs items : length items = length bs -> emplace_scalar_array bs 0 items = items
}.
End soundness.

(** ** What the builder and the reader promise of each other *)

(** The objects of a buffer: strings, vectors, and tables by slot. *)
Inductive Obj :=
| OStr (s : str)
| OVec (ps : list Pushed)
| OTab (slots : gmap Z Pushed).

(** Add a slot, unless there is nothing to add. *)
Definition insert_opt (vt : Z) (o : option Pushed) (m : gmap Z Pushed) : gmap Z Pushed :=
  match o with Some p => <[vt := p]> m | None => m end.

(** The slot of a field equal to its default is left out. *)
Definition unless_default (p d : Pushed) : option Pushed :=
  if decide (p = d) then None else Some p.

(** Observations of a builder: its objects, the table being written (with the
    token [start_table] gave), the position an object and a pushed value have
    in the finished buffer, and the buffers within the limits of the options. *)
Class FlatBufferGhost `{FlatBufferOps} := {
  fbb_obj : FlatBufferBuilder -> WIPOffset -> option Obj;
  fbb_open : FlatBufferBuilder -> option (WIPOffset * gmap Z Pushed);
  fbb_loc : FlatBufferBuilder -> WIPOffset -> Z;
  slot_at : FlatBufferBuilder -> Pushed -> Z -> Prop;
  within : VerifierOptions -> list Z -> Prop
}.

Section codec.
Context `{FlatBufferGhost}.

(** Later writes keep the objects already written. *)
Definition grows (b b' : FlatBufferBuilder) : Prop :=
  forall o x, fbb_obj b o = Some x -> fbb_obj b' o = Some x.

(** The run of a builder method that succeeds and keeps what was written. *)
Definition wpf {A} (c : comp FlatBufferBuilder Ub A) (b : FlatBufferBuilder)
    (Q : A -> FlatBufferBuilder -> Prop) : Prop :=
  exists x b', c b = (Ok x, b') /\ grows b b' /\ Q x b'.

(** [f] verifies at position [l] and reads [v] there. *)
Definition reads {A} (f : Follow A) (buf : list Z) (l : Z) (v : A) : Prop :=
  run_verifier f buf l = Some tt /\ follow f buf l = Ok v.

(** In the buffer finished from [b], the pushed [p] reads as [v] wherever it is. *)
Definition stored {A} (b : FlatBufferBuilder) (buf : list Z) (f : Follow A) (p : Pushed) (v : A)
    : Prop :=
  fo_size f = push_size p /\ forall l, slot_at b p l -> reads f buf l v.

(** A method that writes an object [x], outside of a table. *)
Definition writes (c : comp FlatBufferBuilder Ub WIPOffset) (x : Obj) : Prop :=
  forall b, fbb_open b = None ->
  wpf c b (fun o b' => fbb_open b' = None /\ fbb_obj b' o = Some x).

(** A method that adds to the table being written. *)
Definition adds (c : comp FlatBufferBuilder Ub unit) (h : gmap Z Pushed -> gmap Z Pushed) : Prop :=
  forall b st m, fbb_open b = Some (st, m) ->
  wpf c b (fun _ b' => fbb_open b' = Some (st, h m)).

Class FlatBufferCodec := {
  new_closed : fbb_open fbb_new = None;
  string_writes s : writes (create_string s) (OStr s);
  shared_string_writes s : writes (create_shared_string s) (OStr s);
  vector_writes ps : writes (create_vector ps) (OVec ps);
  start_opens b : fbb_open b = None ->
    wpf start_table b (fun st b' => fbb_open b' = Some (st, ∅));
  slot_adds vt p d : adds (push_slot vt p d) (insert_opt vt (unless_default p d));
  slot_always_adds vt p : adds (push_slot_always vt p) (insert_opt vt (Some p));
  end_closes b st m : fbb_open b = Some (st, m) ->
    wpf (end_table st) b (fun o b' => fbb_open b' = None /\ fbb_obj b' o = Some (OTab m));
  required_checks b o vt name m : fbb_obj b o = Some (OTab m) ->
    required o vt name b = (assert (bool_decide (is_Some (m !! vt))), b);

  scalar_fo_size s : fo_size (fb_scalar s) = scalar_size s;
  offset_fo_size {A} (f : Follow A) : fo_size (ForwardsUOffset f) = 4%nat;

  str_reads b r o s : fbb_open b = None -> fbb_obj b o = Some (OStr s) ->
    reads fb_str (fbb_finish r b) (fbb_loc b o) s;
  vector_reads {A} (f : Follow A) b r o ps vs : fbb_open b = None ->
    fbb_obj b o = Some (OVec ps) -> Forall2 (stored b (fbb_finish r b) f) ps vs ->
    reads (Vector f) (fbb_finish r b) (fbb_loc b o) vs;
  table_visits b r o m : fbb_open b = None -> fbb_obj b o = Some (OTab m) ->
    visit_table (fbb_finish r b) (fbb_loc b o) = Some (fbb_finish r b, fbb_loc b o);
  absent_field {A} (f : Follow A) b r o m vt : fbb_open b = None ->
    fbb_obj b o = Some (OTab m) -> m !! vt = None ->
    let t := (fbb_finish r b, fbb_loc b o) in
    (forall name, visit_field f name vt false t = Some t) /\ (forall d, tab_get f t vt d = Ok d);
  present_field {A} (f : Follow A) b r o m vt p v : fbb_open b = None ->
    fbb_obj b o = Some (OTab m) -> m !! vt = Some p -> stored b (fbb_finish r b) f p v ->
    let t := (fbb_finish r b, fbb_loc b o) in
    (forall name req, visit_field f name vt req t = Some t)
    /\ (forall d, tab_get f t vt d = Ok (Some v));
  scalar_slot b r s v l : fbb_open b = None -> scalar_ok s v -> slot_at b (PScalar s v) l ->
    reads (fb_scalar s) (fbb_finish r b) l v;
  struct_slot b r bs l : fbb_open b = None -> Forall (scalar_ok U8) bs -> slot_at b (PStruct bs) l ->
    in_buffer (length bs) (fbb_finish r b) l = Some tt
    /\ follow_cast_ref (length bs) (fbb_finish r b) l = Ok bs;
  offset_slot {A} (f : Follow A) b r o v l : fbb_open b = None -> slot_at b (POffset o) l ->
    reads f (fbb_finish r b) (fbb_loc b o) v ->
    reads (ForwardsUOffset f) (fbb_finish r b) l v;
  root_reads {A} opts (f : Follow A) b r v : fbb_open b = None ->
    within opts (fbb_finish r b) -> reads f (fbb_finish r b) (fbb_loc b r) v ->
    root_with_opts opts f (fbb_finish r b) = Some v
}.
End codec.

(** ** Writing several objects *)

Section write_many.
Context `{FlatBufferOps}.

(** Write the objects of a list one after the other; write an optional one. *)
Fixpoint write_all {A} (w : A -> comp FlatBufferBuilder Ub WIPOffset) (xs : list A)
    : comp FlatBufferBuilder Ub (list WIPOffset) :=
  match xs with
  | [] => creturn []
  | x :: xs => (o <- w x ;; os <- write_all w xs ;; creturn (o :: os))%rust
  end.

Definition write_vector {A} (w : A -> comp FlatBufferBuilder Ub WIPOffset) (xs : list A)
    : comp FlatBufferBuilder Ub WIPOffset :=
  (os <- write_all w xs ;; create_vector (POffset <$> os))%rust.

Definition write_scalars (s : Scalar) (vs : list Z) : comp FlatBufferBuilder Ub WIPOffset :=
  create_vector (PScalar s <$> vs).

Definition write_opt {A} (w : A -> comp FlatBufferBuilder Ub WIPOffset) (o : option A)
    : comp FlatBufferBuilder Ub (option WIPOffset) :=
  match o with
  | Some x => (o <- w x ;; creturn (Some o))%rust
  | None => creturn None
  end.
End write_many.
