(* ===== verification/FlatTheory.v ===== *)
(** * Running a FlatBuffers builder, and reading back what it wrote

    Lemmas and tactics on [FlatBuffers] that the generated tables share: the
    run of a [create], the denotation of what was written in every buffer
    finished later, the fields of a written table, and the accessors of a
    verified one. *)

From S2P Require Import Prelude RustStd FlatBuffers.
From Stdlib Require Import ZArith Lia Ascii String.
From stdpp Require Import base sets strings gmap sorting numbers list.

Open Scope Z_scope.

Create HintDb writers.
Create HintDb sounds.

(** ** Slots *)

Lemma lookup_insert_opt_eq k o (m : gmap Z Pushed) : m !! k = None -> insert_opt k o m !! k = o.
Proof. intros Hm. destruct o; cbn; [apply lookup_insert_eq | done]. Qed.

Lemma lookup_insert_opt_ne k k' o (m : gmap Z Pushed) :
  k <> k' -> insert_opt k o m !! k' = m !! k'.
Proof. intros Hk. destruct o; cbn; [by apply lookup_insert_ne | done]. Qed.

Lemma is_Some_eq {A} (x y : option A) : x = y -> is_Some y -> is_Some x.
Proof. by intros ->. Qed.

(** Look a slot up in a map written out as insertions at distinct constants. *)
Ltac slots :=
  lazymatch goal with
  | |- ∅ !! _ = _ => apply lookup_empty
  | |- insert_opt ?k _ _ !! ?k' = _ =>
    first [ constr_eq k k'; rewrite lookup_insert_opt_eq; [reflexivity | slots]
          | rewrite lookup_insert_opt_ne; [slots | by vm_compute] ]
  end.

(** ** Running the builder *)

Section writing.
Context `{FlatBufferGhost, !FlatBufferCodec}.

#[global] Instance grows_preorder : PreOrder grows.
Proof. split; [by intros b o x | intros b1 b2 b3 H12 H23 o x Hx; by apply H23, H12]. Qed.

Lemma wpf_ret {A} (a : A) b (Q : A -> FlatBufferBuilder -> Prop) : Q a b -> wpf (creturn a) b Q.
Proof. intros HQ. by exists a, b. Qed.

Lemma wpf_bind {A B} (c : comp FlatBufferBuilder Ub A) (k : A -> comp FlatBufferBuilder Ub B) b Q :
  wpf c b (fun x b1 => wpf (k x) b1 Q) -> wpf (cbind c k) b Q.
Proof.
  intros (x & b1 & Hc & Hg & y & b2 & Hk & Hg2 & HQ). exists y, b2.
  split; [unfold cbind; by rewrite Hc | split; [by etrans | done]].
Qed.

(** Consume the first step of a method, keeping that it only adds objects. *)
Lemma wpf_step {A B} (c : comp FlatBufferBuilder Ub A) (k : A -> comp FlatBufferBuilder Ub B) b P Q :
  wpf c b P -> (forall x b1, grows b b1 -> P x b1 -> wpf (k x) b1 Q) -> wpf (cbind c k) b Q.
Proof.
  intros (x & b1 & Hc & Hg & HP) Hk. apply wpf_bind. exists x, b1. auto.
Qed.

Lemma wpf_mono {A} (c : comp FlatBufferBuilder Ub A) b (P Q : A -> FlatBufferBuilder -> Prop) :
  wpf c b P -> (forall x b', grows b b' -> P x b' -> Q x b') -> wpf c b Q.
Proof. intros (x & b1 & Hc & Hg & HP) HQ. exists x, b1. auto. Qed.

Lemma wpf_required b o vt name m {A} (k : unit -> comp FlatBufferBuilder Ub A) Q :
  fbb_obj b o = Some (OTab m) -> is_Some (m !! vt) -> wpf (k tt) b Q ->
  wpf (cbind (required o vt name) k) b Q.
Proof.
  intros Ho Hm Hk. apply wpf_bind. exists tt, b.
  rewrite (required_checks b o vt name m Ho), bool_decide_eq_true_2 by done. done.
Qed.

Lemma adds_if_let {A} (o : option A) k (g : A -> Pushed) vt :
  (forall x, adds (k x) (insert_opt vt (Some (g x)))) ->
  adds (if_let_Some o k) (insert_opt vt (g <$> o)).
Proof.
  intros Hk. destruct o as [x |]; [apply Hk |]. intros b st m Hb. by apply wpf_ret.
Qed.

(** ** Denotation: what an object or a pushed value reads as, from now on *)

(** In every buffer finished from [b] or later, the object at [o] verifies as
    an [f] and is followed to a value with [P]. *)
Definition Den {A} (f : Follow A) (b : FlatBufferBuilder) (o : WIPOffset) (P : A -> Prop) : Prop :=
  forall b' r, grows b b' -> fbb_open b' = None ->
  exists v, reads f (fbb_finish r b') (fbb_loc b' o) v /\ P v.

Definition DenP {A} (f : Follow A) (b : FlatBufferBuilder) (p : Pushed) (P : A -> Prop) : Prop :=
  forall b' r, grows b b' -> fbb_open b' = None ->
  exists v, stored b' (fbb_finish r b') f p v /\ P v.

Lemma Den_grows {A} (f : Follow A) b b' o P : grows b b' -> Den f b o P -> Den f b' o P.
Proof. intros Hg Hd b2 r Hg2. apply Hd. by etrans. Qed.

Lemma DenP_grows {A} (f : Follow A) b b' p P : grows b b' -> DenP f b p P -> DenP f b' p P.
Proof. intros Hg Hd b2 r Hg2. apply Hd. by etrans. Qed.

Lemma DenP_scalar b s v : scalar_ok s v -> DenP (fb_scalar s) b (PScalar s v) (eq v).
Proof.
  intros Hv b' r _ Ho. exists v. split; [| done]. split; [apply scalar_fo_size |].
  intros l. by apply scalar_slot.
Qed.

Lemma DenP_offset {A} (f : Follow A) b o P :
  Den f b o P -> DenP (ForwardsUOffset f) b (POffset o) P.
Proof.
  intros Hd b' r Hg Ho. destruct (Hd b' r Hg Ho) as (v & Hr & HP). exists v.
  split; [| done]. split; [apply offset_fo_size |]. intros l Hl. by apply (offset_slot f b' r o v l).
Qed.

Lemma Den_str b o s : fbb_obj b o = Some (OStr s) -> Den fb_str b o (eq s).
Proof. intros Hb b' r Hg Ho. exists s. split; [apply str_reads; auto | done]. Qed.

Lemma Den_vector {A B} (f : Follow A) b o ps (xs : list B) (P : B -> A -> Prop) :
  fbb_obj b o = Some (OVec ps) -> Forall2 (fun p x => DenP f b p (P x)) ps xs ->
  Den (Vector f) b o (fun vs => Forall2 P xs vs).
Proof.
  intros Hb Hps b' r Hg Ho.
  assert (exists vs, Forall2 (stored b' (fbb_finish r b') f) ps vs /\ Forall2 P xs vs)
    as (vs & Hs & HP).
  { clear Hb. induction Hps as [| p x ps xs Hp _ (vs & Hs & HP)]; [by exists [] |].
    destruct (Hp b' r Hg Ho) as (v & Hv & Hx). exists (v :: vs). auto. }
  exists vs. split; [| done]. apply (vector_reads f b' r o ps vs); auto.
Qed.

(** [w] writes values with [ok], read back through [f] as [P] says. *)
Definition writer {A B} (w : B -> comp FlatBufferBuilder Ub WIPOffset) (ok : B -> Prop)
    (f : Follow A) (P : B -> A -> Prop) : Prop :=
  forall x b, ok x -> fbb_open b = None ->
  wpf (w x) b (fun o b' => fbb_open b' = None /\ Den f b' o (P x)).

Lemma writer_run {A B} (w : B -> comp FlatBufferBuilder Ub WIPOffset) ok (f : Follow A) P x b :
  writer w ok f P -> ok x -> fbb_open b = None ->
  wpf (w x) b (fun o b' => fbb_open b' = None /\ Den f b' o (P x)).
Proof. intros Hw. apply Hw. Qed.

Lemma writer_mono {A B} (w : B -> comp FlatBufferBuilder Ub WIPOffset) ok (f : Follow A)
    (P Q : B -> A -> Prop) :
  writer w ok f P -> (forall x v, P x v -> Q x v) -> writer w ok f Q.
Proof.
  intros Hw HPQ x b Hx Hb. eapply wpf_mono; [by apply Hw |]. intros o b' _ [Hb' Hd].
  split; [done |]. intros b2 r Hg Hb2. destruct (Hd b2 r Hg Hb2) as (v & Hr & HP). eauto.
Qed.

Lemma create_string_writer : writer create_string (fun _ => True) fb_str eq.
Proof.
  intros s b _ Hb. eapply wpf_mono; [by apply string_writes |].
  intros o b' _ [Ho Hx]. eauto using Den_str.
Qed.

Lemma create_shared_string_writer : writer create_shared_string (fun _ => True) fb_str eq.
Proof.
  intros s b _ Hb. eapply wpf_mono; [by apply shared_string_writes |].
  intros o b' _ [Ho Hx]. eauto using Den_str.
Qed.

Lemma create_vector_den {A B} (f : Follow A) ps (xs : list B) (P : B -> A -> Prop) b :
  fbb_open b = None -> Forall2 (fun p x => DenP f b p (P x)) ps xs ->
  wpf (create_vector ps) b
    (fun o b' => fbb_open b' = None /\ Den (Vector f) b' o (fun vs => Forall2 P xs vs)).
Proof.
  intros Hb Hps. eapply wpf_mono; [by apply vector_writes |].
  intros o b' Hg [Ho Hx]. split; [done |]. eapply Den_vector; [done |].
  eapply Forall2_impl; [done |]. intros p x. by apply DenP_grows.
Qed.

(** A vector whose elements are pushed one by one. *)
Lemma create_vector_writer {A B} (f : Follow A) (g : B -> Pushed) (ok : B -> Prop)
    (P : B -> A -> Prop) :
  (forall x b, ok x -> DenP f b (g x) (P x)) ->
  writer (fun xs => create_vector (g <$> xs)) (Forall ok) (Vector f) (fun xs vs => Forall2 P xs vs).
Proof.
  intros Hg xs b Hxs Hb. apply create_vector_den; [done |].
  induction Hxs; constructor; auto.
Qed.

Lemma Forall2_eq {A} (xs ys : list A) : Forall2 eq xs ys -> xs = ys.
Proof. induction 1; congruence. Qed.

Lemma write_scalars_writer s :
  writer (write_scalars s) (Forall (scalar_ok s)) (Vector (fb_scalar s)) eq.
Proof.
  eapply writer_mono; [apply (create_vector_writer (fb_scalar s) (PScalar s) _ eq) |].
  - intros v b. apply DenP_scalar.
  - intros xs vs. apply Forall2_eq.
Qed.

(** Lists of objects, each written by [w]. *)
Lemma write_all_den {A B} (w : B -> comp FlatBufferBuilder Ub WIPOffset) (f : Follow A) ok P xs b :
  writer w ok f P -> Forall ok xs -> fbb_open b = None ->
  wpf (write_all w xs) b
    (fun os b' => fbb_open b' = None /\ Forall2 (fun o x => Den f b' o (P x)) os xs).
Proof.
  intros Hw Hxs. revert b. induction Hxs as [| x xs Hx _ IH]; intros b Hb; cbn [write_all].
  - by apply wpf_ret.
  - eapply wpf_step; [by apply Hw |]. intros o b1 _ [Hb1 Hd].
    eapply wpf_step; [by apply IH |]. intros os b2 Hg [Hb2 Hds].
    apply wpf_ret. split; [done |]. constructor; [by eapply Den_grows | done].
Qed.

Lemma write_vector_writer {A B} (w : B -> comp FlatBufferBuilder Ub WIPOffset) (f : Follow A) ok P :
  writer w ok f P ->
  writer (write_vector w) (Forall ok) (Vector (ForwardsUOffset f)) (fun xs vs => Forall2 P xs vs).
Proof.
  intros Hw xs b Hxs Hb. eapply wpf_step; [by eapply write_all_den |]. intros os b1 _ [Hb1 Hds].
  apply create_vector_den; [done |]. rewrite Forall2_fmap_l.
  eapply Forall2_impl; [done |]. intros o x. apply DenP_offset.
Qed.

Lemma write_strings_writer :
  writer (write_vector create_shared_string) (fun _ => True) (Vector (ForwardsUOffset fb_str)) eq.
Proof.
  intros xs b _ Hb.
  apply (writer_mono _ _ _ _ eq (write_vector_writer _ _ _ _ create_shared_string_writer));
    [intros ? ?; apply Forall2_eq | by apply Forall_true | done].
Qed.

(** Tables, read back by [g]. *)
Lemma write_tables_writer {B} (w : B -> comp FlatBufferBuilder Ub WIPOffset) (f : Follow Table) ok
    (g : Table -> res Ub B) :
  writer w ok f (fun x t => g t = Ok x) ->
  writer (write_vector w) (Forall ok) (Vector (ForwardsUOffset f)) (fun xs ts => rmap g ts = Ok xs).
Proof.
  intros Hw. eapply writer_mono; [by apply write_vector_writer |].
  intros xs ts Hts. induction Hts as [| x t xs ts Ht _ IH]; cbn; [done |].
  by rewrite Ht, IH.
Qed.

(** An optional object. *)
Definition DenO {A B} (f : Follow A) (b : FlatBufferBuilder) (o : option WIPOffset) (x : option B)
    (P : B -> A -> Prop) : Prop :=
  option_Forall2 (fun o x => Den f b o (P x)) o x.

Lemma DenO_grows {A B} (f : Follow A) b b' o (x : option B) P :
  grows b b' -> DenO f b o x P -> DenO f b' o x P.
Proof. intros Hg [o' y Hd |]; constructor. by eapply Den_grows. Qed.

Lemma write_opt_den {A B} (w : B -> comp FlatBufferBuilder Ub WIPOffset) (f : Follow A) ok P x b :
  writer w ok f P -> from_option ok True x -> fbb_open b = None ->
  wpf (write_opt w x) b (fun o b' => fbb_open b' = None /\ DenO f b' o x P).
Proof.
  intros Hw Hx Hb. destruct x as [x |]; cbn [write_opt].
  - eapply wpf_step; [by apply Hw |]. intros o b1 _ [Hb1 Hd].
    apply wpf_ret. split; [done | by constructor].
  - apply wpf_ret. split; [done | constructor].
Qed.

(** ** Fields of a written table *)

(** In the table at [t] the field [vt] reads as the [w] of a default [d]. *)
Definition field_is {A} (f : Follow A) (t : Table) (vt : VOffsetT) (req : bool) (d w : option A)
    : Prop :=
  (forall name, visit_field f name vt req t = Some t) /\ tab_get f t vt d = Ok w.

Lemma field_set {A} (f : Follow A) b o m vt p P req d b' r :
  fbb_obj b o = Some (OTab m) -> m !! vt = Some p -> DenP f b p P ->
  grows b b' -> fbb_open b' = None ->
  exists v, field_is f (fbb_finish r b', fbb_loc b' o) vt req d (Some v) /\ P v.
Proof.
  intros Ho Hm Hd Hg Hb. destruct (Hd b' r Hg Hb) as (v & Hs & HP). exists v.
  destruct (present_field f b' r o m vt p v Hb (Hg _ _ Ho) Hm Hs) as [Hv Hget].
  repeat split; auto.
Qed.

Lemma field_unset {A} (f : Follow A) b o m vt d b' r :
  fbb_obj b o = Some (OTab m) -> m !! vt = None -> grows b b' -> fbb_open b' = None ->
  field_is f (fbb_finish r b', fbb_loc b' o) vt false d d.
Proof.
  intros Ho Hm Hg Hb.
  destruct (absent_field f b' r o m vt Hb (Hg _ _ Ho) Hm) as [Hv Hget]. by split.
Qed.

(** A scalar left out when it is the default still reads as itself. *)
Lemma field_default (f : Follow Z) b o m vt s v d b' r :
  fbb_obj b o = Some (OTab m) -> m !! vt = unless_default (PScalar s v) (PScalar s d) ->
  DenP f b (PScalar s v) (eq v) -> grows b b' -> fbb_open b' = None ->
  field_is f (fbb_finish r b', fbb_loc b' o) vt false (Some d) (Some v).
Proof.
  intros Ho Hm Hd Hg Hb. unfold unless_default in Hm. case_decide as Heq; simplify_eq.
  - by apply (field_unset f b o m).
  - destruct (field_set f b o m vt _ (eq v) false (Some d) b' r Ho Hm Hd Hg Hb) as (u & Hf & <-).
    done.
Qed.

(** An optional field is present when its argument is. *)
Lemma field_optional {A B} (f : Follow A) b o m vt (ow : option WIPOffset) (x : option B)
    (P : B -> A -> Prop) b' r :
  fbb_obj b o = Some (OTab m) -> m !! vt = POffset <$> ow -> DenO f b ow x P ->
  grows b b' -> fbb_open b' = None ->
  exists w, field_is (ForwardsUOffset f) (fbb_finish r b', fbb_loc b' o) vt false None w
            /\ option_Forall2 P x w.
Proof.
  intros Ho Hm Hd Hg Hb. destruct Hd as [w y Hd |]; cbn in Hm.
  - destruct (field_set _ b o m vt _ _ false None b' r Ho Hm (DenP_offset _ _ _ _ Hd) Hg Hb)
      as (v & Hf & HP).
    exists (Some v). split; [done | by constructor].
  - exists None. split; [by apply (field_unset _ b o m) | constructor].
Qed.

Lemma field_opt_scalar b o m vt s (x : option Z) b' r :
  fbb_obj b o = Some (OTab m) -> m !! vt = PScalar s <$> x -> from_option (scalar_ok s) True x ->
  grows b b' -> fbb_open b' = None ->
  field_is (fb_scalar s) (fbb_finish r b', fbb_loc b' o) vt false None x.
Proof.
  intros Ho Hm Hx Hg Hb. destruct x as [v |]; cbn in Hm, Hx.
  - destruct (field_set _ b o m vt _ _ false None b' r Ho Hm (DenP_scalar b s v Hx) Hg Hb)
      as (u & Hf & <-). done.
  - by apply (field_unset _ b o m).
Qed.

Lemma table_den {A} (f : Follow Table) (g : Table -> res Ub A) b o m x :
  (forall buf l, follow f buf l = Ok (buf, l)) -> fbb_obj b o = Some (OTab m) ->
  (forall b' r, grows b b' -> fbb_open b' = None ->
     let t := (fbb_finish r b', fbb_loc b' o) in
     visit_table (fbb_finish r b') (fbb_loc b' o) = Some t ->
     run_verifier f (fbb_finish r b') (fbb_loc b' o) = Some tt /\ g t = Ok x) ->
  Den f b o (fun t => g t = Ok x).
Proof.
  intros Hf Ho Hall b' r Hg Hb.
  destruct (Hall b' r Hg Hb (table_visits b' r o m Hb (Hg _ _ Ho))) as [Hv Hx].
  eexists. split; [split; [done | apply Hf] | done].
Qed.
End writing.

(** Run a generated [create]: open a table, add its slots, close it and check
    the required ones. *)
Ltac step_in :=
  let x := fresh "x" in let b := fresh "b" in let Hg := fresh "Hg" in let Ho := fresh "Ho" in
  intros x b Hg Ho; cbv beta in Ho.

Ltac create_step :=
  lazymatch goal with
  | |- wpf (cbind start_table _) _ _ =>
    eapply wpf_step; [eapply start_opens; eassumption | step_in]
  | |- wpf (cbind (if_let_Some ?o ?k) _) _ _ =>
    eapply wpf_step;
      [eapply (adds_if_let o k); [intros ?; apply slot_always_adds | eassumption] | step_in]
  | |- wpf (cbind (end_table _) _) _ _ =>
    eapply wpf_step; [eapply end_closes; eassumption | step_in];
    lazymatch goal with H : fbb_open _ = None /\ fbb_obj _ _ = Some _ |- _ => destruct H end
  | |- wpf (cbind (required _ _ _) _) _ _ =>
    eapply wpf_required;
      [eassumption | eapply is_Some_eq; [slots | by apply fmap_is_Some] |]
  | |- wpf (creturn _) _ _ => apply wpf_ret
  | |- wpf (cbind _ _) _ _ =>
    eapply wpf_step; [eapply slot_adds; eassumption | step_in]
  end.

Ltac create_ok_with tac :=
  intros; tac; repeat create_step; split; [assumption |]; eexists; split; [eassumption |];
  repeat split; slots.

(** ** Reading what was verified *)

Section reading.
Context `{FlatBufferOps, !FlatBufferSafety}.

(** What a visited field holds: a value with [P], or nothing. *)
Definition field_holds {A} (f : Follow A) (t : Table) (vt : VOffsetT) (req : bool) (P : A -> Prop)
    : Prop :=
  forall d, exists o, tab_get f t vt d = Ok o
    /\ ((req = false /\ o = d) \/ exists v, o = Some v /\ P v).

Lemma visit_inv {A} (f : Follow A) P buf l name vt req (k : Table -> option unit) :
  sound f P -> visit_table buf l = Some (buf, l) ->
  (visit_field f name vt req (buf, l) ≫= k) = Some tt ->
  field_holds f (buf, l) vt req P /\ k (buf, l) = Some tt.
Proof.
  intros Hf Ht Hv. destruct (visit_field f name vt req (buf, l)) as [tv |] eqn:E; [| done].
  pose proof (visit_field_same f name vt req (buf, l) tv E) as ->. split; [| done].
  intros d. by eapply field_sound.
Qed.

Lemma visit_table_inv buf l (k : Table -> option unit) :
  (visit_table buf l ≫= k) = Some tt ->
  visit_table buf l = Some (buf, l) /\ k (buf, l) = Some tt.
Proof.
  intros Hv. destruct (visit_table buf l) as [tv |] eqn:E; [| done].
  by pose proof (visit_table_same buf l tv E) as ->.
Qed.

Lemma holds_required {A} (f : Follow A) t vt P :
  field_holds f t vt true P -> exists v, get_unwrap f t vt None = Ok v /\ P v.
Proof.
  intros Hf. destruct (Hf None) as (o & Hg & [[? _] | (v & -> & HP)]); [done |].
  exists v. unfold get_unwrap. by rewrite Hg.
Qed.

Lemma holds_default {A} (f : Follow A) t vt P d :
  field_holds f t vt false P -> P d -> exists v, get_unwrap f t vt (Some d) = Ok v /\ P v.
Proof.
  intros Hf Hd. unfold get_unwrap.
  destruct (Hf (Some d)) as (o & Hg & [[_ ->] | (v & -> & HP)]); rewrite Hg; eauto.
Qed.

Lemma holds_optional {A} (f : Follow A) t vt P :
  field_holds f t vt false P -> exists o, tab_get f t vt None = Ok o /\ from_option P True o.
Proof.
  intros Hf. destruct (Hf None) as (o & Hg & [[_ ->] | (v & -> & HP)]); eexists; by split.
Qed.

(** The next step of a reader, and readers of lists and options. *)
Lemma ok_bind {A B} (m : res Ub A) (k : A -> res Ub B) (P : A -> Prop) (Q : B -> Prop) :
  (exists v, m = Ok v /\ P v) -> (forall v, P v -> exists x, k v = Ok x /\ Q x) ->
  exists x, (m ≫= k) = Ok x /\ Q x.
Proof. intros (v & -> & HP) Hk. by apply Hk. Qed.

Lemma ok_rmap {A B} (g : A -> res Ub B) (Q : B -> Prop) ts :
  Forall (fun t => exists x, g t = Ok x /\ Q x) ts ->
  exists xs, rmap g ts = Ok xs /\ Forall Q xs.
Proof.
  induction 1 as [| t ts (x & Hx & HQ) _ (xs & Hxs & HQs)]; [by exists [] |].
  exists (x :: xs). cbn. rewrite Hx, Hxs. auto.
Qed.
End reading.

(** [Option::map] with a reader, and [transpose]. *)
Definition ropt {E A B} (g : A -> res E B) (o : option A) : res E (option B) :=
  match o with
  | Some a => b ← g a; Ok (Some b)
  | None => Ok None
  end.

Lemma ok_ropt {A B} (g : A -> res Ub B) (P : A -> Prop) (Q : B -> Prop) o :
  (forall a, P a -> exists x, g a = Ok x /\ Q x) -> from_option P True o ->
  exists x, ropt g o = Ok x /\ from_option Q True x.
Proof.
  intros Hg. destruct o as [a |]; cbn; [| by exists None].
  intros (x & -> & HQ)%Hg. by exists (Some x).
Qed.

Lemma ropt_read {E A B} (g : A -> res E B) (x : option B) w :
  option_Forall2 (fun x a => g a = Ok x) x w -> ropt g w = Ok x.
Proof. intros [y a Hy |]; cbn; [by rewrite Hy | done]. Qed.

Lemma option_Forall2_eq {A} (x w : option A) : option_Forall2 eq x w -> w = x.
Proof. intros [y a -> |]; done. Qed.

Lemma some_bind {A} (m : option A) (k : A -> option unit) a :
  m = Some a -> k a = Some tt -> (m ≫= k) = Some tt.
Proof. by intros ->. Qed.

Lemma rok_bind {E A B} (m : res E A) (k : A -> res E B) a x :
  m = Ok a -> k a = Ok x -> (m ≫= k) = Ok x.
Proof. by intros ->. Qed.

Lemma get_unwrap_ok `{FlatBufferOps} {A} (f : Follow A) t vt d v :
  tab_get f t vt d = Ok (Some v) -> get_unwrap f t vt d = Ok v.
Proof. intros Hg. unfold get_unwrap. by rewrite Hg. Qed.
