(* ===== verification/FlatToy.v ===== *)
(** * A FlatBuffers library that satisfies the laws

    Objects are kept in a heap, a buffer is the code of a heap with its root,
    and a position is the code of an object or of a slot of one.  It shows that
    the laws of [FlatBuffers] can hold together, and the witnesses evaluate at
    it. *)

From S2P Require Import Prelude RustStd FlatBuffers.
From Stdlib Require Import ZArith Lia Ascii String.
From stdpp Require Import base sets strings gmap sorting countable numbers list.

Open Scope Z_scope.

(** ** Codes *)

#[global] Instance Scalar_countable : Countable Scalar.
Proof.
  refine (inj_countable'
    (fun s => match s with I8 => 0 | U8 => 1 | U16 => 2 | U32 => 3 | U64 => 4 end)
    (fun n => match n with 0 => I8 | 1 => U8 | 2 => U16 | 3 => U32 | _ => U64 end) _).
  by intros [].
Defined.

#[global] Instance Pushed_countable : Countable Pushed.
Proof.
  refine (inj_countable'
    (fun p => match p with
              | PScalar s v => inl (s, v) | PStruct bs => inr (inl bs) | POffset o => inr (inr o) end)
    (fun x => match x with
              | inl (s, v) => PScalar s v | inr (inl bs) => PStruct bs | inr (inr o) => POffset o end) _).
  by intros [].
Defined.

#[global] Instance Obj_eq_dec : EqDecision Obj.
Proof. solve_decision. Defined.

#[global] Instance Obj_countable : Countable Obj.
Proof.
  refine (inj_countable'
    (fun p => match p with OStr s => inl s | OVec ps => inr (inl ps) | OTab m => inr (inr m) end)
    (fun x => match x with inl s => OStr s | inr (inl ps) => OVec ps | inr (inr m) => OTab m end) _).
  by intros [].
Defined.

Definition pos_code {A} `{Countable A} (x : A) : Z := Zpos (encode x).
Definition pos_decode {A} `{Countable A} (z : Z) : option A :=
  match z with Zpos p => decode p | _ => None end.

Lemma pos_decode_code {A} `{Countable A} (x : A) : pos_decode (pos_code x) = Some x.
Proof. apply decode_encode. Qed.

(** ** Positions and buffers *)

Definition obj_loc (o : Z) : Z := pos_code (inl o : Z + Z * Z).
Definition slot_loc (o k : Z) : Z := pos_code (inr (o, k) : Z + Z * Z).
Definition toy_buf (heap : list Obj) (r : Z) : list Z := [pos_code (heap, r)].

Definition toy_heap (buf : list Z) : option (list Obj * Z) :=
  match buf with [z] => pos_decode z | _ => None end.

Definition heap_obj (heap : list Obj) (o : Z) : option Obj :=
  if o <? 0 then None else heap !! Z.to_nat o.

Definition obj_slot (x : Obj) (k : Z) : option Pushed :=
  match x with
  | OStr _ => None
  | OVec ps => if k <? 0 then None else ps !! Z.to_nat k
  | OTab m => m !! k
  end.

(** The object, and the pushed value, at a position of a buffer. *)
Definition at_obj (buf : list Z) (l : Z) : option (Z * Obj) :=
  '(heap, _) ← toy_heap buf;
  match pos_decode l : option (Z + Z * Z) with
  | Some (inl o) => x ← heap_obj heap o; Some (o, x)
  | _ => None
  end.

Definition at_slot (buf : list Z) (l : Z) : option Pushed :=
  '(heap, _) ← toy_heap buf;
  match pos_decode l : option (Z + Z * Z) with
  | Some (inr (o, k)) => x ← heap_obj heap o; obj_slot x k
  | _ => None
  end.

Lemma at_obj_buf heap r o : at_obj (toy_buf heap r) (obj_loc o) = (x ← heap_obj heap o; Some (o, x)).
Proof. unfold at_obj, toy_buf, toy_heap, obj_loc. by rewrite !pos_decode_code. Qed.

Lemma at_slot_buf heap r o k :
  at_slot (toy_buf heap r) (slot_loc o k) = (x ← heap_obj heap o; obj_slot x k).
Proof. unfold at_slot, toy_buf, toy_heap, slot_loc. by rewrite !pos_decode_code. Qed.

(** ** Reading *)

Definition ub {A} : res Ub A := Err UndefinedBehaviour.
Definition toy_accept (b : bool) : option unit := if b then Some tt else None.

(** A follow whose verifier is that the read is defined. *)
Definition toy_follow {A} (n : nat) (read : list Z -> Z -> res Ub A) : Follow A :=
  mkFollow n read (fun buf l => toy_accept (is_ok (read buf l))).

Definition toy_scalar (s : Scalar) (buf : list Z) (l : Z) : res Ub Z :=
  match at_slot buf l with
  | Some (PScalar s' v) => if decide (s = s' /\ scalar_ok s v) then Ok v else ub
  | _ => ub
  end.

Definition toy_str (buf : list Z) (l : Z) : res Ub str :=
  match at_obj buf l with Some (_, OStr s) => Ok s | _ => ub end.

Definition toy_struct (n : nat) (buf : list Z) (l : Z) : res Ub (list Z) :=
  match at_slot buf l with
  | Some (PStruct bs) => if decide (bytes_n n bs) then Ok bs else ub
  | _ => ub
  end.

Definition elem_locs (o : Z) (ps : list Pushed) : list Z :=
  (fun k => slot_loc o (Z.of_nat k)) <$> seq 0 (length ps).

Definition toy_vector {A} (f : Follow A) : Follow (list A) := mkFollow 4
  (fun buf l => match at_obj buf l with
                | Some (o, OVec ps) => rmap (follow f buf) (elem_locs o ps)
                | _ => ub
                end)
  (fun buf l => match at_obj buf l with
                | Some (o, OVec ps) =>
                  toy_accept (forallb (fun l => bool_decide (run_verifier f buf l = Some tt)) (elem_locs o ps))
                | _ => None
                end).

Definition toy_offset {A} (f : Follow A) : Follow A := mkFollow 4
  (fun buf l => match at_slot buf l with Some (POffset o) => follow f buf (obj_loc o) | _ => ub end)
  (fun buf l => match at_slot buf l with Some (POffset o) => run_verifier f buf (obj_loc o) | _ => None end).

Definition toy_get {A} (f : Follow A) (t : Table) (vt : Z) (d : option A) : res Ub (option A) :=
  match at_obj (fst t) (snd t) with
  | Some (o, OTab m) =>
    match m !! vt with
    | Some _ => v ← follow f (fst t) (slot_loc o vt); Ok (Some v)
    | None => Ok d
    end
  | _ => ub
  end.

Definition toy_visit_table (buf : list Z) (l : Z) : option Table :=
  match at_obj buf l with Some (_, OTab _) => Some (buf, l) | _ => None end.

Definition toy_visit_field {A} (f : Follow A) (name : string) (vt : Z) (req : bool) (t : Table)
    : option Table :=
  match at_obj (fst t) (snd t) with
  | Some (o, OTab m) =>
    match m !! vt with
    | Some _ => run_verifier f (fst t) (slot_loc o vt);; Some t
    | None => if req then None else Some t
    end
  | _ => None
  end.

Definition toy_root {A} (opts : VerifierOptions) (f : Follow A) (buf : list Z) : option A :=
  '(_, r) ← toy_heap buf;
  run_verifier f buf (obj_loc r);;
  match follow f buf (obj_loc r) with Ok v => Some v | _ => None end.

Definition toy_root_unchecked {A} (f : Follow A) (buf : list Z) : res Ub A :=
  match toy_heap buf with Some (_, r) => follow f buf (obj_loc r) | None => ub end.

(** ** Writing *)

Record ToyBuilder := mkToyBuilder { tb_heap : list Obj; tb_open : option (Z * gmap Z Pushed) }.

Definition toy_alloc (x : Obj) : comp ToyBuilder Ub Z := fun b =>
  match tb_open b with
  | None => (Ok (Z.of_nat (length (tb_heap b))), mkToyBuilder (tb_heap b ++ [x]) None)
  | Some _ => (Panic, b)
  end.

Definition toy_start : comp ToyBuilder Ub Z := fun b =>
  match tb_open b with
  | None => (Ok 0, mkToyBuilder (tb_heap b) (Some (0, ∅)))
  | Some _ => (Panic, b)
  end.

Definition toy_push (vt : Z) (p : option Pushed) : comp ToyBuilder Ub unit := fun b =>
  match tb_open b with
  | Some (st, m) => (Ok tt, mkToyBuilder (tb_heap b) (Some (st, insert_opt vt p m)))
  | None => (Panic, b)
  end.

Definition toy_end (st : Z) : comp ToyBuilder Ub Z := fun b =>
  match tb_open b with
  | Some (st', m) =>
    if decide (st = st') then toy_alloc (OTab m) (mkToyBuilder (tb_heap b) None) else (Panic, b)
  | None => (Panic, b)
  end.

Definition toy_required (o vt : Z) (name : string) : comp ToyBuilder Ub unit := fun b =>
  match heap_obj (tb_heap b) o with
  | Some (OTab m) => (assert (bool_decide (is_Some (m !! vt))), b)
  | _ => (Panic, b)
  end.

Definition toy_finish (r : Z) (b : ToyBuilder) : list Z := toy_buf (tb_heap b) r.

#[global] Instance toy_ops : FlatBufferOps := {|
  read_scalar_at := toy_scalar;
  fb_scalar s := toy_follow (scalar_size s) (toy_scalar s);
  fb_str := toy_follow 4 toy_str;
  Vector := @toy_vector;
  ForwardsUOffset := @toy_offset;
  follow_cast_ref := toy_struct;
  in_buffer n buf l := toy_accept (is_ok (toy_struct n buf l));
  Array_follow n bs l := if decide (l = 0 /\ length bs = n) then Ok bs else ub;
  emplace_scalar_array bs l items :=
    take (Z.to_nat l) bs ++ items ++ drop (Z.to_nat l + length items) bs;
  tab_get := @toy_get;
  visit_table := toy_visit_table;
  visit_field := @toy_visit_field;
  default_opts := mkVerifierOptions 64 1000000 (Z.shiftl 1 31) false;
  root_with_opts := @toy_root;
  root_unchecked := @toy_root_unchecked;
  size_prefixed_root_with_opts A opts f buf := toy_root opts f (tail buf);
  size_prefixed_root_unchecked A f buf := toy_root_unchecked f (tail buf);
  FlatBufferBuilder := ToyBuilder;
  fbb_new := mkToyBuilder [] None;
  create_string s := toy_alloc (OStr s);
  create_shared_string s := toy_alloc (OStr s);
  create_vector ps := toy_alloc (OVec ps);
  start_table := toy_start;
  push_slot vt p d := toy_push vt (unless_default p d);
  push_slot_always vt p := toy_push vt (Some p);
  end_table := toy_end;
  required := toy_required;
  fbb_finish := toy_finish;
  fbb_finish_size_prefixed r b := 0 :: toy_finish r b |}.

#[global] Instance toy_ghost : FlatBufferGhost := {|
  fbb_obj b o := heap_obj (tb_heap b) o;
  fbb_open b := tb_open b;
  fbb_loc _ o := obj_loc o;
  slot_at b p l := exists o k x, l = slot_loc o k /\ heap_obj (tb_heap b) o = Some x
                   /\ obj_slot x k = Some p;
  within _ _ := True |}.

(** ** The laws *)

Lemma accept_Some b : toy_accept b = Some tt -> b = true.
Proof. by destruct b. Qed.

Lemma toy_follow_sound {A} n (read : list Z -> Z -> res Ub A) (P : A -> Prop) :
  (forall buf l v, read buf l = Ok v -> P v) -> sound (toy_follow n read) P.
Proof.
  intros HP buf l Hv. cbn in Hv. apply accept_Some in Hv. cbn.
  destruct (read buf l) as [v | |] eqn:E; [eauto | done | done].
Qed.

Lemma toy_scalar_ok s buf l v : toy_scalar s buf l = Ok v -> scalar_ok s v.
Proof.
  unfold toy_scalar. destruct (at_slot buf l) as [[s' u | |] |]; [| done..].
  case_decide as Hd; [| done]. intros [= <-]. by destruct Hd.
Qed.

Lemma toy_struct_ok n buf l v : toy_struct n buf l = Ok v -> bytes_n n v.
Proof.
  unfold toy_struct. destruct (at_slot buf l) as [[| bs |] |]; [done | | done | done].
  case_decide; [| done]. by intros [= <-].
Qed.

Lemma rmap_sound {A} (f : Follow A) P buf ls :
  sound f P -> forallb (fun l => bool_decide (run_verifier f buf l = Some tt)) ls = true ->
  exists vs, rmap (follow f buf) ls = Ok vs /\ Forall P vs.
Proof.
  intros Hf. induction ls as [| l ls IH]; cbn; intros Hv; [by exists [] |].
  apply andb_true_iff in Hv as [Hl%bool_decide_eq_true Hv].
  destruct (Hf buf l Hl) as (v & Hr & HP). destruct (IH Hv) as (vs & Hrs & HPs).
  exists (v :: vs). rewrite Hr, Hrs. auto.
Qed.

#[global] Instance toy_safety : FlatBufferSafety.
Proof.
  split; cbn.
  - done.
  - intros s. apply toy_follow_sound, toy_scalar_ok.
  - by apply toy_follow_sound.
  - intros A f P Hf buf l. cbn. destruct (at_obj buf l) as [[o [| ps |]] |]; [done | | done | done].
    intros Hv%accept_Some. by apply rmap_sound.
  - intros A f P Hf buf l. cbn. destruct (at_slot buf l) as [[| | o] |]; [done | done | | done].
    apply Hf.
  - intros n buf l Hv%accept_Some.
    destruct (toy_struct n buf l) as [bs | |] eqn:E; [| done | done]. eauto using toy_struct_ok.
  - intros buf l tv. unfold toy_visit_table. repeat case_match; naive_solver.
  - intros A f name vt req t tv. unfold toy_visit_field.
    destruct (at_obj _ _) as [[o [| | m]] |]; [done | done | | done].
    destruct (m !! vt); [destruct (run_verifier _ _ _); cbn; [| done] | destruct req; [done |]];
      by intros [= <-].
  - intros A f P buf l name vt req tv _ Hv Hf d. unfold toy_visit_field, toy_get in *. cbn in *.
    destruct (at_obj buf l) as [[o [| | m]] |]; [done | done | | done].
    destruct (m !! vt).
    + destruct (run_verifier f buf _) as [[] |] eqn:Hr; [| done].
      destruct (Hf _ _ Hr) as (v & -> & HP). cbn. eauto 10.
    + destruct req; [done |]. cbn. eauto 10.
  - intros A opts f buf v. unfold toy_root, toy_root_unchecked.
    destruct (toy_heap buf) as [[heap r] |]; [| done]. cbn.
    destruct (run_verifier f buf _) as [[] |] eqn:Hr; [| done]. cbn.
    destruct (follow f buf (obj_loc r)) eqn:Hf; [| done | done]. intros [= <-]. eauto.
  - intros n bs Hl. by rewrite decide_True.
  - intros bs items Hl. rewrite drop_ge by lia. cbn. by rewrite app_nil_r.
Qed.

Lemma heap_obj_alloc heap x o y : heap_obj heap o = Some y -> heap_obj (heap ++ [x]) o = Some y.
Proof. unfold heap_obj. case_match; [done |]. apply lookup_app_l_Some. Qed.

Lemma toy_alloc_writes x : writes (H := toy_ops) (toy_alloc x) x.
Proof.
  intros b Hb. cbn in Hb. unfold wpf, toy_alloc. rewrite Hb. do 2 eexists. split; [reflexivity |].
  split; [intros o y; cbn; apply heap_obj_alloc |]. split; [done |]. cbn. unfold heap_obj.
  destruct (_ <? 0) eqn:E; zbool; [lia |]. by rewrite Nat2Z.id, lookup_app_r, Nat.sub_diag by lia.
Qed.

Lemma toy_push_adds vt p : adds (H := toy_ops) (toy_push vt p) (insert_opt vt p).
Proof.
  intros b st m Hb. cbn in Hb. unfold wpf, toy_push. rewrite Hb. do 2 eexists. split; [reflexivity |].
  split; [by intros o y | done].
Qed.

Lemma heap_slot b o k x p r :
  heap_obj (tb_heap b) o = Some x -> obj_slot x k = Some p ->
  at_slot (toy_finish r b) (slot_loc o k) = Some p.
Proof. intros Ho Hk. unfold toy_finish. rewrite at_slot_buf, Ho. done. Qed.

Lemma heap_at b o x r :
  heap_obj (tb_heap b) o = Some x -> at_obj (toy_finish r b) (obj_loc o) = Some (o, x).
Proof. intros Ho. unfold toy_finish. by rewrite at_obj_buf, Ho. Qed.

Lemma toy_elems {A} (f : Follow A) b r o ps vs :
  heap_obj (tb_heap b) o = Some (OVec ps) -> Forall2 (stored b (toy_finish r b) f) ps vs ->
  Forall2 (reads f (toy_finish r b)) (elem_locs o ps) vs.
Proof.
  intros Ho Hps. unfold elem_locs. apply Forall2_fmap_l, Forall2_same_length_lookup.
  split; [rewrite length_seq; by eapply Forall2_length |]. intros i k v Hk Hv.
  apply lookup_seq in Hk as [-> Hi]. destruct (Forall2_lookup_r _ _ _ _ _ Hps Hv) as (p & Hp & _ & Hr).
  apply Hr. exists o, (Z.of_nat (0 + i)), (OVec ps). split; [done |]. split; [done |]. cbn.
  destruct (_ <? 0) eqn:E; zbool; [lia |]. by rewrite Nat2Z.id.
Qed.

#[global] Instance toy_codec : FlatBufferCodec.
Proof.
  split; cbn -[toy_finish].
  - done.
  - intros s. apply toy_alloc_writes.
  - intros s. apply toy_alloc_writes.
  - intros ps. apply toy_alloc_writes.
  - intros b Hb. unfold wpf. cbn. unfold toy_start. rewrite Hb. do 2 eexists. split; [reflexivity |].
    split; [by intros o y | done].
  - intros vt p d. apply toy_push_adds.
  - intros vt p. apply toy_push_adds.
  - intros b st m Hb. unfold wpf. cbn. unfold toy_end. rewrite Hb, decide_True by done.
    apply (toy_alloc_writes (OTab m) (mkToyBuilder (tb_heap b) None)). done.
  - intros b o vt name m Ho. unfold toy_required. by rewrite Ho.
  - done.
  - done.
  - intros b r o s _ Ho. split; cbn -[toy_finish obj_loc]; unfold toy_str; by rewrite (heap_at b o _ r Ho).
  - intros A f b r o ps vs _ Ho Hps. pose proof (toy_elems f b r o ps vs Ho Hps) as Hl.
    split; cbn -[toy_finish]; rewrite (heap_at b o _ r Ho).
    + rewrite (proj2 (forallb_forall _ _)); [done |]. intros l Hin%list_elem_of_In.
      apply list_elem_of_lookup in Hin as [i Hi].
      destruct (Forall2_lookup_l _ _ _ _ _ Hl Hi) as (v & _ & Hv & _). by apply bool_decide_eq_true.
    + clear Hps. revert Hl. generalize (elem_locs o ps). intros ls Hl.
      induction Hl as [| l v ls vs' [_ Hf] _ IH]; cbn [rmap]; [done |]. by rewrite Hf, IH.
  - intros b r o m _ Ho. unfold toy_visit_table. by rewrite (heap_at b o _ r Ho).
  - intros A f b r o m vt _ Ho Hm. unfold toy_visit_field, toy_get. cbn [fst snd].
    by rewrite (heap_at b o _ r Ho), Hm.
  - intros A f b r o m vt p v _ Ho Hm [_ Hs].
    destruct (Hs (slot_loc o vt)) as [Hv Hf]; [by exists o, vt, (OTab m) |].
    unfold toy_visit_field, toy_get. cbn [fst snd]. rewrite (heap_at b o _ r Ho), Hm. cbn -[toy_finish] in *.
    by rewrite Hv, Hf.
  - intros b r s v l _ Hv (o & k & x & -> & Ho & Hk).
    split; cbn -[toy_finish]; unfold toy_scalar; rewrite (heap_slot b o k x _ r Ho Hk), decide_True; done.
  - intros b r bs l _ Hb (o & k & x & -> & Ho & Hk). unfold toy_struct.
    by rewrite (heap_slot b o k x _ r Ho Hk), decide_True.
  - intros A f b r o v l _ (o' & k & x & -> & Ho & Hk) [Hv Hf].
    split; cbn -[toy_finish]; rewrite (heap_slot b o' k x _ r Ho Hk); done.
  - intros A opts f b r v _ _ [Hv Hf]. unfold toy_root.
    assert (toy_heap (toy_finish r b) = Some (tb_heap b, r)) as -> by apply pos_decode_code.
    cbn -[toy_finish] in *. by rewrite Hv, Hf.
Qed.
