(* ===== verification/AssignmentGen.v ===== *)
(** * The generated code of assignment.fbs (schema/gen/assignment_generated.rs)

    The enum, the structs and the tables of the combined assignment, as [flatc]
    wrote them over the [flatbuffers] crate ([FlatBuffers]).  A struct is its
    bytes, a [WIPOffset] the builder's token for an object, and the generated
    table type a [Table], the buffer with a position.  The builder of a table
    is the token of the table it writes; its methods run on the
    [FlatBufferBuilder] it borrows. *)

From S2P Require Import Prelude RustStd FlatBuffers FlatTheory.
From Stdlib Require Import ZArith Lia Ascii String.
From stdpp Require Import base sets strings gmap sorting numbers list.

Open Scope Z_scope.

(** ** [WorkerStatus] *)

Definition WorkerStatus_Ok : Z := 0.
Definition WorkerStatus_Unreliable : Z := 1.
Definition WorkerStatus_DeprecatedVersion : Z := 2.
Definition WorkerStatus_UnsupportedVersion : Z := 3.
Definition WorkerStatus_ENUM_MIN : Z := 0.
Definition WorkerStatus_ENUM_MAX : Z := 3.
Definition WorkerStatus_ENUM_VALUES : list Z :=
  [WorkerStatus_Ok; WorkerStatus_Unreliable; WorkerStatus_DeprecatedVersion;
   WorkerStatus_UnsupportedVersion].

Definition WorkerStatus_variant_name (self : Z) : option string :=
  if self =? WorkerStatus_Ok then Some "Ok"%string
  else if self =? WorkerStatus_Unreliable then Some "Unreliable"%string
  else if self =? WorkerStatus_DeprecatedVersion then Some "DeprecatedVersion"%string
  else if self =? WorkerStatus_UnsupportedVersion then Some "UnsupportedVersion"%string
  else None.

Definition WorkerStatus_push (self : Z) : Pushed := PScalar I8 self.

(** ** The structs: their bytes *)

Definition ChunkHash_default : list Z := replicate 8 0.
Definition TopRun_default : list Z := replicate 16 0.
Definition WorkerId_default : list Z := replicate 38 0.

Definition ChunkHash_push (self : list Z) : Pushed := PStruct self.
Definition TopRun_push (self : list Z) : Pushed := PStruct self.
Definition WorkerId_push (self : list Z) : Pushed := PStruct self.

(** Little-endian reads and writes of the bytes of a scalar field. *)
Definition from_le_bytes (bs : list Z) : Z := foldr (fun b x => b + 256 * x) 0 bs.

Definition read_field (n : nat) (size : nat) (self : list Z) : Z :=
  from_le_bytes (take size (drop n self)).

Definition write_field (n : nat) (size : nat) (x : Z) (self : list Z) : list Z :=
  take n self ++ to_le_bytes size x ++ drop (n + size) self.

Definition TopRun_first_chunk_index (self : list Z) : Z := read_field 0 4 self.
Definition TopRun_set_first_chunk_index (self : list Z) (x : Z) : list Z := write_field 0 4 x self.
Definition TopRun_top (self : list Z) : Z := read_field 8 8 self.
Definition TopRun_set_top (self : list Z) (x : Z) : list Z := write_field 8 8 x self.

Definition TopRun_new (first_chunk_index top : Z) : list Z :=
  let s := TopRun_default in
  let s := TopRun_set_first_chunk_index s first_chunk_index in
  TopRun_set_top s top.

Section generated.
Context `{FlatBufferOps}.

Definition WorkerStatus_run_verifier (buf : list Z) (pos : Z) : option unit :=
  run_verifier (fb_scalar I8) buf pos.
Definition ChunkHash_run_verifier (buf : list Z) (pos : Z) : option unit := in_buffer 8 buf pos.
Definition TopRun_run_verifier (buf : list Z) (pos : Z) : option unit := in_buffer 16 buf pos.
Definition WorkerId_run_verifier (buf : list Z) (pos : Z) : option unit := in_buffer 38 buf pos.

Definition WorkerStatus_Follow : Follow Z :=
  mkFollow 1 (fun buf loc => read_scalar_at I8 buf loc) WorkerStatus_run_verifier.
Definition ChunkHash_Follow : Follow (list Z) :=
  mkFollow 8 (fun buf loc => follow_cast_ref 8 buf loc) ChunkHash_run_verifier.
Definition TopRun_Follow : Follow (list Z) :=
  mkFollow 16 (fun buf loc => follow_cast_ref 16 buf loc) TopRun_run_verifier.
Definition WorkerId_Follow : Follow (list Z) :=
  mkFollow 38 (fun buf loc => follow_cast_ref 38 buf loc) WorkerId_run_verifier.

Definition ChunkHash_bytes (self : list Z) : res Ub (list Z) := Array_follow 8 self 0.
Definition ChunkHash_set_bytes (self items : list Z) : list Z := emplace_scalar_array self 0 items.
Definition ChunkHash_new (bytes : list Z) : list Z :=
  let s := ChunkHash_default in ChunkHash_set_bytes s bytes.

Definition WorkerId_peer_id (self : list Z) : res Ub (list Z) := Array_follow 38 self 0.
Definition WorkerId_set_peer_id (self items : list Z) : list Z := emplace_scalar_array self 0 items.
Definition WorkerId_new (peer_id : list Z) : list Z :=
  let s := WorkerId_default in WorkerId_set_peer_id s peer_id.

(** ** The tables *)

(** *** [FileUrl] *)

Definition FileUrl_VT_FILENAME : VOffsetT := 4.
Definition FileUrl_VT_URL : VOffsetT := 6.

Definition FileUrl_init_from_table (table : Table) : Table := table.

Record FileUrlArgs := mkFileUrlArgs {
  FileUrlArgs_filename : option WIPOffset;
  FileUrlArgs_url : option WIPOffset
}.

Definition FileUrlArgs_default : FileUrlArgs :=
  mkFileUrlArgs None None.

Definition FileUrlBuilder_new : comp FlatBufferBuilder Ub WIPOffset := start_table.

Definition FileUrlBuilder_add_filename (filename : WIPOffset) : comp FlatBufferBuilder Ub unit :=
  push_slot_always FileUrl_VT_FILENAME (POffset filename).

Definition FileUrlBuilder_add_url (url : WIPOffset) : comp FlatBufferBuilder Ub unit :=
  push_slot_always FileUrl_VT_URL (POffset url).

Definition FileUrlBuilder_finish (start_ : WIPOffset) : comp FlatBufferBuilder Ub WIPOffset := (
  o <- end_table start_ ;;
  required o FileUrl_VT_FILENAME "filename" ;;;
  required o FileUrl_VT_URL "url" ;;;
  creturn o)%rust.

Definition FileUrl_create (args : FileUrlArgs) : comp FlatBufferBuilder Ub WIPOffset := (
  builder <- FileUrlBuilder_new ;;
  if_let_Some (FileUrlArgs_url args) FileUrlBuilder_add_url ;;;
  if_let_Some (FileUrlArgs_filename args) FileUrlBuilder_add_filename ;;;
  FileUrlBuilder_finish builder)%rust.

Definition FileUrl_filename (t : Table) : res Ub str :=
  get_unwrap (ForwardsUOffset fb_str) t FileUrl_VT_FILENAME None.

Definition FileUrl_url (t : Table) : res Ub str :=
  get_unwrap (ForwardsUOffset fb_str) t FileUrl_VT_URL None.

Definition FileUrl_run_verifier (buf : list Z) (pos : Z) : option unit :=
  v ← visit_table buf pos;
  v ← visit_field (ForwardsUOffset fb_str) "filename" FileUrl_VT_FILENAME true v;
  v ← visit_field (ForwardsUOffset fb_str) "url" FileUrl_VT_URL true v;
  Some tt.

Definition FileUrl_Follow : Follow Table :=
  mkFollow 0 (fun buf loc => Ok (buf, loc)) FileUrl_run_verifier.

(** *** [Chunk] *)

Definition Chunk_VT_FIRST_BLOCK : VOffsetT := 4.
Definition Chunk_VT_ID : VOffsetT := 6.
Definition Chunk_VT_DATASET_ID : VOffsetT := 8.
Definition Chunk_VT_SIZE : VOffsetT := 10.
Definition Chunk_VT_LAST_BLOCK_HASH : VOffsetT := 12.
Definition Chunk_VT_LAST_BLOCK_TIMESTAMP : VOffsetT := 14.
Definition Chunk_VT_DATASET_BASE_URL : VOffsetT := 16.
Definition Chunk_VT_BASE_URL : VOffsetT := 18.
Definition Chunk_VT_FILES : VOffsetT := 20.
Definition Chunk_VT_WORKER_INDEXES : VOffsetT := 22.

Definition Chunk_init_from_table (table : Table) : Table := table.

Record ChunkArgs := mkChunkArgs {
  ChunkArgs_first_block : Z;
  ChunkArgs_id : option WIPOffset;
  ChunkArgs_dataset_id : option WIPOffset;
  ChunkArgs_size : Z;
  ChunkArgs_last_block_hash : option WIPOffset;
  ChunkArgs_last_block_timestamp : option Z;
  ChunkArgs_dataset_base_url : option WIPOffset;
  ChunkArgs_base_url : option WIPOffset;
  ChunkArgs_files : option WIPOffset;
  ChunkArgs_worker_indexes : option WIPOffset
}.

Definition ChunkArgs_default : ChunkArgs :=
  mkChunkArgs 0 None None 0 None None None None None None.

Definition ChunkBuilder_new : comp FlatBufferBuilder Ub WIPOffset := start_table.

Definition ChunkBuilder_add_first_block (first_block : Z) : comp FlatBufferBuilder Ub unit :=
  push_slot Chunk_VT_FIRST_BLOCK (PScalar U64 first_block) (PScalar U64 0).

Definition ChunkBuilder_add_id (id : WIPOffset) : comp FlatBufferBuilder Ub unit :=
  push_slot_always Chunk_VT_ID (POffset id).

Definition ChunkBuilder_add_dataset_id (dataset_id : WIPOffset) : comp FlatBufferBuilder Ub unit :=
  push_slot_always Chunk_VT_DATASET_ID (POffset dataset_id).

Definition ChunkBuilder_add_size (size : Z) : comp FlatBufferBuilder Ub unit :=
  push_slot Chunk_VT_SIZE (PScalar U32 size) (PScalar U32 0).

Definition ChunkBuilder_add_last_block_hash (last_block_hash : WIPOffset) : comp FlatBufferBuilder Ub unit :=
  push_slot_always Chunk_VT_LAST_BLOCK_HASH (POffset last_block_hash).

Definition ChunkBuilder_add_last_block_timestamp (last_block_timestamp : Z) : comp FlatBufferBuilder Ub unit :=
  push_slot_always Chunk_VT_LAST_BLOCK_TIMESTAMP (PScalar U64 last_block_timestamp).

Definition ChunkBuilder_add_dataset_base_url (dataset_base_url : WIPOffset) : comp FlatBufferBuilder Ub unit :=
  push_slot_always Chunk_VT_DATASET_BASE_URL (POffset dataset_base_url).

Definition ChunkBuilder_add_base_url (base_url : WIPOffset) : comp FlatBufferBuilder Ub unit :=
  push_slot_always Chunk_VT_BASE_URL (POffset base_url).

Definition ChunkBuilder_add_files (files : WIPOffset) : comp FlatBufferBuilder Ub unit :=
  push_slot_always Chunk_VT_FILES (POffset files).

Definition ChunkBuilder_add_worker_indexes (worker_indexes : WIPOffset) : comp FlatBufferBuilder Ub unit :=
  push_slot_always Chunk_VT_WORKER_INDEXES (POffset worker_indexes).

Definition ChunkBuilder_finish (start_ : WIPOffset) : comp FlatBufferBuilder Ub WIPOffset := (
  o <- end_table start_ ;;
  required o Chunk_VT_ID "id" ;;;
  required o Chunk_VT_DATASET_ID "dataset_id" ;;;
  required o Chunk_VT_DATASET_BASE_URL "dataset_base_url" ;;;
  required o Chunk_VT_BASE_URL "base_url" ;;;
  required o Chunk_VT_FILES "files" ;;;
  required o Chunk_VT_WORKER_INDEXES "worker_indexes" ;;;
  creturn o)%rust.

Definition Chunk_create (args : ChunkArgs) : comp FlatBufferBuilder Ub WIPOffset := (
  builder <- ChunkBuilder_new ;;
  if_let_Some (ChunkArgs_last_block_timestamp args) ChunkBuilder_add_last_block_timestamp ;;;
  ChunkBuilder_add_first_block (ChunkArgs_first_block args) ;;;
  if_let_Some (ChunkArgs_worker_indexes args) ChunkBuilder_add_worker_indexes ;;;
  if_let_Some (ChunkArgs_files args) ChunkBuilder_add_files ;;;
  if_let_Some (ChunkArgs_base_url args) ChunkBuilder_add_base_url ;;;
  if_let_Some (ChunkArgs_dataset_base_url args) ChunkBuilder_add_dataset_base_url ;;;
  if_let_Some (ChunkArgs_last_block_hash args) ChunkBuilder_add_last_block_hash ;;;
  ChunkBuilder_add_size (ChunkArgs_size args) ;;;
  if_let_Some (ChunkArgs_dataset_id args) ChunkBuilder_add_dataset_id ;;;
  if_let_Some (ChunkArgs_id args) ChunkBuilder_add_id ;;;
  ChunkBuilder_finish builder)%rust.

Definition Chunk_first_block (t : Table) : res Ub Z :=
  get_unwrap (fb_scalar U64) t Chunk_VT_FIRST_BLOCK (Some 0).

Definition Chunk_id (t : Table) : res Ub str :=
  get_unwrap (ForwardsUOffset fb_str) t Chunk_VT_ID None.

Definition Chunk_dataset_id (t : Table) : res Ub str :=
  get_unwrap (ForwardsUOffset fb_str) t Chunk_VT_DATASET_ID None.

Definition Chunk_size (t : Table) : res Ub Z :=
  get_unwrap (fb_scalar U32) t Chunk_VT_SIZE (Some 0).

Definition Chunk_last_block_hash (t : Table) : res Ub (option str) :=
  tab_get (ForwardsUOffset fb_str) t Chunk_VT_LAST_BLOCK_HASH None.

Definition Chunk_last_block_timestamp (t : Table) : res Ub (option Z) :=
  tab_get (fb_scalar U64) t Chunk_VT_LAST_BLOCK_TIMESTAMP None.

Definition Chunk_dataset_base_url (t : Table) : res Ub str :=
  get_unwrap (ForwardsUOffset fb_str) t Chunk_VT_DATASET_BASE_URL None.

Definition Chunk_base_url (t : Table) : res Ub str :=
  get_unwrap (ForwardsUOffset fb_str) t Chunk_VT_BASE_URL None.

Definition Chunk_files (t : Table) : res Ub (list Table) :=
  get_unwrap (ForwardsUOffset (Vector (ForwardsUOffset FileUrl_Follow))) t Chunk_VT_FILES None.

Definition Chunk_worker_indexes (t : Table) : res Ub (list Z) :=
  get_unwrap (ForwardsUOffset (Vector (fb_scalar U16))) t Chunk_VT_WORKER_INDEXES None.

Definition Chunk_key_compare_less_than (t o : Table) : res Ub bool :=
  a ← Chunk_first_block t; b ← Chunk_first_block o; Ok (a <? b).

Definition Chunk_key_compare_with_value (t : Table) (val : Z) : res Ub comparison :=
  key ← Chunk_first_block t; Ok (Z.compare key val).

Definition Chunk_run_verifier (buf : list Z) (pos : Z) : option unit :=
  v ← visit_table buf pos;
  v ← visit_field (fb_scalar U64) "first_block" Chunk_VT_FIRST_BLOCK false v;
  v ← visit_field (ForwardsUOffset fb_str) "id" Chunk_VT_ID true v;
  v ← visit_field (ForwardsUOffset fb_str) "dataset_id" Chunk_VT_DATASET_ID true v;
  v ← visit_field (fb_scalar U32) "size" Chunk_VT_SIZE false v;
  v ← visit_field (ForwardsUOffset fb_str) "last_block_hash" Chunk_VT_LAST_BLOCK_HASH false v;
  v ← visit_field (fb_scalar U64) "last_block_timestamp" Chunk_VT_LAST_BLOCK_TIMESTAMP false v;
  v ← visit_field (ForwardsUOffset fb_str) "dataset_base_url" Chunk_VT_DATASET_BASE_URL true v;
  v ← visit_field (ForwardsUOffset fb_str) "base_url" Chunk_VT_BASE_URL true v;
  v ← visit_field (ForwardsUOffset (Vector (ForwardsUOffset FileUrl_Follow))) "files" Chunk_VT_FILES true v;
  v ← visit_field (ForwardsUOffset (Vector (fb_scalar U16))) "worker_indexes" Chunk_VT_WORKER_INDEXES true v;
  Some tt.

Definition Chunk_Follow : Follow Table :=
  mkFollow 0 (fun buf loc => Ok (buf, loc)) Chunk_run_verifier.

(** *** [Dataset] *)

Definition Dataset_VT_ID : VOffsetT := 4.
Definition Dataset_VT_CHUNKS : VOffsetT := 6.
Definition Dataset_VT_LAST_BLOCK : VOffsetT := 8.

Definition Dataset_init_from_table (table : Table) : Table := table.

Record DatasetArgs := mkDatasetArgs {
  DatasetArgs_id : option WIPOffset;
  DatasetArgs_chunks : option WIPOffset;
  DatasetArgs_last_block : Z
}.

Definition DatasetArgs_default : DatasetArgs :=
  mkDatasetArgs None None 0.

Definition DatasetBuilder_new : comp FlatBufferBuilder Ub WIPOffset := start_table.

Definition DatasetBuilder_add_id (id : WIPOffset) : comp FlatBufferBuilder Ub unit :=
  push_slot_always Dataset_VT_ID (POffset id).

Definition DatasetBuilder_add_chunks (chunks : WIPOffset) : comp FlatBufferBuilder Ub unit :=
  push_slot_always Dataset_VT_CHUNKS (POffset chunks).

Definition DatasetBuilder_add_last_block (last_block : Z) : comp FlatBufferBuilder Ub unit :=
  push_slot Dataset_VT_LAST_BLOCK (PScalar U64 last_block) (PScalar U64 0).

Definition DatasetBuilder_finish (start_ : WIPOffset) : comp FlatBufferBuilder Ub WIPOffset := (
  o <- end_table start_ ;;
  required o Dataset_VT_ID "id" ;;;
  required o Dataset_VT_CHUNKS "chunks" ;;;
  creturn o)%rust.

Definition Dataset_create (args : DatasetArgs) : comp FlatBufferBuilder Ub WIPOffset := (
  builder <- DatasetBuilder_new ;;
  DatasetBuilder_add_last_block (DatasetArgs_last_block args) ;;;
  if_let_Some (DatasetArgs_chunks args) DatasetBuilder_add_chunks ;;;
  if_let_Some (DatasetArgs_id args) DatasetBuilder_add_id ;;;
  DatasetBuilder_finish builder)%rust.

Definition Dataset_id (t : Table) : res Ub str :=
  get_unwrap (ForwardsUOffset fb_str) t Dataset_VT_ID None.

Definition Dataset_chunks (t : Table) : res Ub (list Table) :=
  get_unwrap (ForwardsUOffset (Vector (ForwardsUOffset Chunk_Follow))) t Dataset_VT_CHUNKS None.

Definition Dataset_last_block (t : Table) : res Ub Z :=
  get_unwrap (fb_scalar U64) t Dataset_VT_LAST_BLOCK (Some 0).

Definition Dataset_key_compare_less_than (t o : Table) : res Ub bool :=
  a ← Dataset_id t; b ← Dataset_id o; Ok (str_ltb a b).

Definition Dataset_key_compare_with_value (t : Table) (val : str) : res Ub comparison :=
  key ← Dataset_id t; Ok (str_cmp key val).

Definition Dataset_run_verifier (buf : list Z) (pos : Z) : option unit :=
  v ← visit_table buf pos;
  v ← visit_field (ForwardsUOffset fb_str) "id" Dataset_VT_ID true v;
  v ← visit_field (ForwardsUOffset (Vector (ForwardsUOffset Chunk_Follow))) "chunks" Dataset_VT_CHUNKS true v;
  v ← visit_field (fb_scalar U64) "last_block" Dataset_VT_LAST_BLOCK false v;
  Some tt.

Definition Dataset_Follow : Follow Table :=
  mkFollow 0 (fun buf loc => Ok (buf, loc)) Dataset_run_verifier.

(** *** [EncryptedHeaders] *)

Definition EncryptedHeaders_VT_IDENTITY : VOffsetT := 4.
Definition EncryptedHeaders_VT_NONCE : VOffsetT := 6.
Definition EncryptedHeaders_VT_CIPHERTEXT : VOffsetT := 8.

Definition EncryptedHeaders_init_from_table (table : Table) : Table := table.

Record EncryptedHeadersArgs := mkEncryptedHeadersArgs {
  EncryptedHeadersArgs_identity : option WIPOffset;
  EncryptedHeadersArgs_nonce : option WIPOffset;
  EncryptedHeadersArgs_ciphertext : option WIPOffset
}.

Definition EncryptedHeadersArgs_default : EncryptedHeadersArgs :=
  mkEncryptedHeadersArgs None None None.

Definition EncryptedHeadersBuilder_new : comp FlatBufferBuilder Ub WIPOffset := start_table.

Definition EncryptedHeadersBuilder_add_identity (identity : WIPOffset) : comp FlatBufferBuilder Ub unit :=
  push_slot_always EncryptedHeaders_VT_IDENTITY (POffset identity).

Definition EncryptedHeadersBuilder_add_nonce (nonce : WIPOffset) : comp FlatBufferBuilder Ub unit :=
  push_slot_always EncryptedHeaders_VT_NONCE (POffset nonce).

Definition EncryptedHeadersBuilder_add_ciphertext (ciphertext : WIPOffset) : comp FlatBufferBuilder Ub unit :=
  push_slot_always EncryptedHeaders_VT_CIPHERTEXT (POffset ciphertext).

Definition EncryptedHeadersBuilder_finish (start_ : WIPOffset) : comp FlatBufferBuilder Ub WIPOffset := (
  o <- end_table start_ ;;
  required o EncryptedHeaders_VT_IDENTITY "identity" ;;;
  required o EncryptedHeaders_VT_NONCE "nonce" ;;;
  required o EncryptedHeaders_VT_CIPHERTEXT "ciphertext" ;;;
  creturn o)%rust.

Definition EncryptedHeaders_create (args : EncryptedHeadersArgs) : comp FlatBufferBuilder Ub WIPOffset := (
  builder <- EncryptedHeadersBuilder_new ;;
  if_let_Some (EncryptedHeadersArgs_ciphertext args) EncryptedHeadersBuilder_add_ciphertext ;;;
  if_let_Some (EncryptedHeadersArgs_nonce args) EncryptedHeadersBuilder_add_nonce ;;;
  if_let_Some (EncryptedHeadersArgs_identity args) EncryptedHeadersBuilder_add_identity ;;;
  EncryptedHeadersBuilder_finish builder)%rust.

Definition EncryptedHeaders_identity (t : Table) : res Ub (list Z) :=
  get_unwrap (ForwardsUOffset (Vector (fb_scalar U8))) t EncryptedHeaders_VT_IDENTITY None.

Definition EncryptedHeaders_nonce (t : Table) : res Ub (list Z) :=
  get_unwrap (ForwardsUOffset (Vector (fb_scalar U8))) t EncryptedHeaders_VT_NONCE None.

Definition EncryptedHeaders_ciphertext (t : Table) : res Ub (list Z) :=
  get_unwrap (ForwardsUOffset (Vector (fb_scalar U8))) t EncryptedHeaders_VT_CIPHERTEXT None.

Definition EncryptedHeaders_run_verifier (buf : list Z) (pos : Z) : option unit :=
  v ← visit_table buf pos;
  v ← visit_field (ForwardsUOffset (Vector (fb_scalar U8))) "identity" EncryptedHeaders_VT_IDENTITY true v;
  v ← visit_field (ForwardsUOffset (Vector (fb_scalar U8))) "nonce" EncryptedHeaders_VT_NONCE true v;
  v ← visit_field (ForwardsUOffset (Vector (fb_scalar U8))) "ciphertext" EncryptedHeaders_VT_CIPHERTEXT true v;
  Some tt.

Definition EncryptedHeaders_Follow : Follow Table :=
  mkFollow 0 (fun buf loc => Ok (buf, loc)) EncryptedHeaders_run_verifier.

(** *** [WorkerEntry] *)

Definition WorkerEntry_VT_WORKER_ID : VOffsetT := 4.
Definition WorkerEntry_VT_STATUS : VOffsetT := 8.
Definition WorkerEntry_VT_ENCRYPTED_HEADERS : VOffsetT := 10.

Definition WorkerEntry_init_from_table (table : Table) : Table := table.

Record WorkerEntryArgs := mkWorkerEntryArgs {
  WorkerEntryArgs_worker_id : option (list Z);
  WorkerEntryArgs_status : Z;
  WorkerEntryArgs_encrypted_headers : option WIPOffset
}.

Definition WorkerEntryArgs_default : WorkerEntryArgs :=
  mkWorkerEntryArgs None WorkerStatus_Ok None.

Definition WorkerEntryBuilder_new : comp FlatBufferBuilder Ub WIPOffset := start_table.

Definition WorkerEntryBuilder_add_worker_id (worker_id : list Z) : comp FlatBufferBuilder Ub unit :=
  push_slot_always WorkerEntry_VT_WORKER_ID (WorkerId_push worker_id).

Definition WorkerEntryBuilder_add_status (status : Z) : comp FlatBufferBuilder Ub unit :=
  push_slot WorkerEntry_VT_STATUS (WorkerStatus_push status) (WorkerStatus_push WorkerStatus_Ok).

Definition WorkerEntryBuilder_add_encrypted_headers (encrypted_headers : WIPOffset) : comp FlatBufferBuilder Ub unit :=
  push_slot_always WorkerEntry_VT_ENCRYPTED_HEADERS (POffset encrypted_headers).

Definition WorkerEntryBuilder_finish (start_ : WIPOffset) : comp FlatBufferBuilder Ub WIPOffset := (
  o <- end_table start_ ;;
  required o WorkerEntry_VT_WORKER_ID "worker_id" ;;;
  creturn o)%rust.

Definition WorkerEntry_create (args : WorkerEntryArgs) : comp FlatBufferBuilder Ub WIPOffset := (
  builder <- WorkerEntryBuilder_new ;;
  if_let_Some (WorkerEntryArgs_encrypted_headers args) WorkerEntryBuilder_add_encrypted_headers ;;;
  if_let_Some (WorkerEntryArgs_worker_id args) WorkerEntryBuilder_add_worker_id ;;;
  WorkerEntryBuilder_add_status (WorkerEntryArgs_status args) ;;;
  WorkerEntryBuilder_finish builder)%rust.

Definition WorkerEntry_worker_id (t : Table) : res Ub (list Z) :=
  get_unwrap (WorkerId_Follow) t WorkerEntry_VT_WORKER_ID None.

Definition WorkerEntry_status (t : Table) : res Ub Z :=
  get_unwrap (WorkerStatus_Follow) t WorkerEntry_VT_STATUS (Some WorkerStatus_Ok).

Definition WorkerEntry_encrypted_headers (t : Table) : res Ub (option Table) :=
  tab_get (ForwardsUOffset EncryptedHeaders_Follow) t WorkerEntry_VT_ENCRYPTED_HEADERS None.

Definition WorkerEntry_run_verifier (buf : list Z) (pos : Z) : option unit :=
  v ← visit_table buf pos;
  v ← visit_field (WorkerId_Follow) "worker_id" WorkerEntry_VT_WORKER_ID true v;
  v ← visit_field (WorkerStatus_Follow) "status" WorkerEntry_VT_STATUS false v;
  v ← visit_field (ForwardsUOffset EncryptedHeaders_Follow) "encrypted_headers" WorkerEntry_VT_ENCRYPTED_HEADERS false v;
  Some tt.

Definition WorkerEntry_Follow : Follow Table :=
  mkFollow 0 (fun buf loc => Ok (buf, loc)) WorkerEntry_run_verifier.

(** *** [Assignment] *)

Definition Assignment_VT_DATASETS : VOffsetT := 4.
Definition Assignment_VT_WORKERS : VOffsetT := 6.

Definition Assignment_init_from_table (table : Table) : Table := table.

Record AssignmentArgs := mkAssignmentArgs {
  AssignmentArgs_datasets : option WIPOffset;
  AssignmentArgs_workers : option WIPOffset
}.

Definition AssignmentArgs_default : AssignmentArgs :=
  mkAssignmentArgs None None.

Definition AssignmentBuilder_new : comp FlatBufferBuilder Ub WIPOffset := start_table.

Definition AssignmentBuilder_add_datasets (datasets : WIPOffset) : comp FlatBufferBuilder Ub unit :=
  push_slot_always Assignment_VT_DATASETS (POffset datasets).

Definition AssignmentBuilder_add_workers (workers : WIPOffset) : comp FlatBufferBuilder Ub unit :=
  push_slot_always Assignment_VT_WORKERS (POffset workers).

Definition AssignmentBuilder_finish (start_ : WIPOffset) : comp FlatBufferBuilder Ub WIPOffset := (
  o <- end_table start_ ;;
  required o Assignment_VT_DATASETS "datasets" ;;;
  required o Assignment_VT_WORKERS "workers" ;;;
  creturn o)%rust.

Definition Assignment_create (args : AssignmentArgs) : comp FlatBufferBuilder Ub WIPOffset := (
  builder <- AssignmentBuilder_new ;;
  if_let_Some (AssignmentArgs_workers args) AssignmentBuilder_add_workers ;;;
  if_let_Some (AssignmentArgs_datasets args) AssignmentBuilder_add_datasets ;;;
  AssignmentBuilder_finish builder)%rust.

Definition Assignment_datasets (t : Table) : res Ub (list Table) :=
  get_unwrap (ForwardsUOffset (Vector (ForwardsUOffset Dataset_Follow))) t Assignment_VT_DATASETS None.

Definition Assignment_workers (t : Table) : res Ub (list Table) :=
  get_unwrap (ForwardsUOffset (Vector (ForwardsUOffset WorkerEntry_Follow))) t Assignment_VT_WORKERS None.

Definition Assignment_run_verifier (buf : list Z) (pos : Z) : option unit :=
  v ← visit_table buf pos;
  v ← visit_field (ForwardsUOffset (Vector (ForwardsUOffset Dataset_Follow))) "datasets" Assignment_VT_DATASETS true v;
  v ← visit_field (ForwardsUOffset (Vector (ForwardsUOffset WorkerEntry_Follow))) "workers" Assignment_VT_WORKERS true v;
  Some tt.

Definition Assignment_Follow : Follow Table :=
  mkFollow 0 (fun buf loc => Ok (buf, loc)) Assignment_run_verifier.

(** *** The root of a buffer *)

Definition root_as_assignment (buf : list Z) : option Table :=
  root Assignment_Follow buf.

Definition size_prefixed_root_as_assignment (buf : list Z) : option Table :=
  size_prefixed_root Assignment_Follow buf.

Definition root_as_assignment_with_opts (opts : VerifierOptions) (buf : list Z) : option Table :=
  root_with_opts opts Assignment_Follow buf.

Definition size_prefixed_root_as_assignment_with_opts (opts : VerifierOptions) (buf : list Z) : option Table :=
  size_prefixed_root_with_opts opts Assignment_Follow buf.

Definition root_as_assignment_unchecked (buf : list Z) : res Ub Table :=
  root_unchecked Assignment_Follow buf.

Definition size_prefixed_root_as_assignment_unchecked (buf : list Z) : res Ub Table :=
  size_prefixed_root_unchecked Assignment_Follow buf.

Definition finish_assignment_buffer (fbb : FlatBufferBuilder) (root : WIPOffset) : list Z :=
  fbb_finish root fbb.

Definition finish_size_prefixed_assignment_buffer (fbb : FlatBufferBuilder) (root : WIPOffset) : list Z :=
  fbb_finish_size_prefixed root fbb.
End generated.

(** ** What [create] writes

    With its required fields given, [create] succeeds and writes a table that
    holds the arguments at the slots of the schema. *)

Section created.
Context `{FlatBufferGhost, !FlatBufferCodec}.

Lemma FileUrl_create_ok
    filename url b :
  fbb_open b = None ->
  is_Some filename -> is_Some url ->
  wpf (FileUrl_create
       (mkFileUrlArgs filename url))
    b (fun o b' => fbb_open b' = None /\ exists m,
    fbb_obj b' o = Some (OTab m)
    /\ m !! FileUrl_VT_FILENAME = POffset <$> filename
    /\ m !! FileUrl_VT_URL = POffset <$> url).
Proof. create_ok_with ltac:(unfold FileUrl_create, FileUrlBuilder_new, FileUrlBuilder_finish). Qed.

Lemma Chunk_create_ok
    first_block id dataset_id size last_block_hash last_block_timestamp dataset_base_url
    base_url files worker_indexes b :
  fbb_open b = None ->
  is_Some id -> is_Some dataset_id -> is_Some dataset_base_url -> is_Some base_url ->
  is_Some files -> is_Some worker_indexes ->
  wpf (Chunk_create
       (mkChunkArgs first_block id dataset_id size last_block_hash last_block_timestamp
       dataset_base_url base_url files worker_indexes))
    b (fun o b' => fbb_open b' = None /\ exists m,
    fbb_obj b' o = Some (OTab m)
    /\ m !! Chunk_VT_FIRST_BLOCK = unless_default (PScalar U64 first_block) (PScalar U64 0)
    /\ m !! Chunk_VT_ID = POffset <$> id
    /\ m !! Chunk_VT_DATASET_ID = POffset <$> dataset_id
    /\ m !! Chunk_VT_SIZE = unless_default (PScalar U32 size) (PScalar U32 0)
    /\ m !! Chunk_VT_LAST_BLOCK_HASH = POffset <$> last_block_hash
    /\ m !! Chunk_VT_LAST_BLOCK_TIMESTAMP = PScalar U64 <$> last_block_timestamp
    /\ m !! Chunk_VT_DATASET_BASE_URL = POffset <$> dataset_base_url
    /\ m !! Chunk_VT_BASE_URL = POffset <$> base_url
    /\ m !! Chunk_VT_FILES = POffset <$> files
    /\ m !! Chunk_VT_WORKER_INDEXES = POffset <$> worker_indexes).
Proof. create_ok_with ltac:(unfold Chunk_create, ChunkBuilder_new, ChunkBuilder_finish). Qed.

Lemma Dataset_create_ok
    id chunks last_block b :
  fbb_open b = None ->
  is_Some id -> is_Some chunks ->
  wpf (Dataset_create
       (mkDatasetArgs id chunks last_block))
    b (fun o b' => fbb_open b' = None /\ exists m,
    fbb_obj b' o = Some (OTab m)
    /\ m !! Dataset_VT_ID = POffset <$> id
    /\ m !! Dataset_VT_CHUNKS = POffset <$> chunks
    /\ m !! Dataset_VT_LAST_BLOCK = unless_default (PScalar U64 last_block) (PScalar U64 0)).
Proof. create_ok_with ltac:(unfold Dataset_create, DatasetBuilder_new, DatasetBuilder_finish). Qed.

Lemma EncryptedHeaders_create_ok
    identity nonce ciphertext b :
  fbb_open b = None ->
  is_Some identity -> is_Some nonce -> is_Some ciphertext ->
  wpf (EncryptedHeaders_create
       (mkEncryptedHeadersArgs identity nonce ciphertext))
    b (fun o b' => fbb_open b' = None /\ exists m,
    fbb_obj b' o = Some (OTab m)
    /\ m !! EncryptedHeaders_VT_IDENTITY = POffset <$> identity
    /\ m !! EncryptedHeaders_VT_NONCE = POffset <$> nonce
    /\ m !! EncryptedHeaders_VT_CIPHERTEXT = POffset <$> ciphertext).
Proof. create_ok_with ltac:(unfold EncryptedHeaders_create, EncryptedHeadersBuilder_new, EncryptedHeadersBuilder_finish). Qed.

Lemma WorkerEntry_create_ok
    worker_id status encrypted_headers b :
  fbb_open b = None ->
  is_Some worker_id ->
  wpf (WorkerEntry_create
       (mkWorkerEntryArgs worker_id status encrypted_headers))
    b (fun o b' => fbb_open b' = None /\ exists m,
    fbb_obj b' o = Some (OTab m)
    /\ m !! WorkerEntry_VT_WORKER_ID = WorkerId_push <$> worker_id
    /\ m !! WorkerEntry_VT_STATUS = unless_default (WorkerStatus_push status) (WorkerStatus_push WorkerStatus_Ok)
    /\ m !! WorkerEntry_VT_ENCRYPTED_HEADERS = POffset <$> encrypted_headers).
Proof. create_ok_with ltac:(unfold WorkerEntry_create, WorkerEntryBuilder_new, WorkerEntryBuilder_finish). Qed.

Lemma Assignment_create_ok
    datasets workers b :
  fbb_open b = None ->
  is_Some datasets -> is_Some workers ->
  wpf (Assignment_create
       (mkAssignmentArgs datasets workers))
    b (fun o b' => fbb_open b' = None /\ exists m,
    fbb_obj b' o = Some (OTab m)
    /\ m !! Assignment_VT_DATASETS = POffset <$> datasets
    /\ m !! Assignment_VT_WORKERS = POffset <$> workers).
Proof. create_ok_with ltac:(unfold Assignment_create, AssignmentBuilder_new, AssignmentBuilder_finish). Qed.

End created.
