(* ===== verification/WorkerGen.v ===== *)
(** * The generated code of worker_assignment.fbs (schema/gen/worker_assignment_generated.rs)

    The tables of the worker assignment, in the manner of [AssignmentGen]. *)

From S2P Require Import Prelude RustStd FlatBuffers FlatTheory AssignmentGen.
From Stdlib Require Import ZArith Lia Ascii String.
From stdpp Require Import base sets strings gmap sorting numbers list.

Open Scope Z_scope.

Section generated.
Context `{FlatBufferOps}.

(** *** [TableRoster] *)

Definition TableRoster_VT_WRITE_SCHEMA_ID : VOffsetT := 4.
Definition TableRoster_VT_TABLES : VOffsetT := 6.

Definition TableRoster_init_from_table (table : Table) : Table := table.

Record TableRosterArgs := mkTableRosterArgs {
  TableRosterArgs_write_schema_id : Z;
  TableRosterArgs_tables : option WIPOffset
}.

Definition TableRosterArgs_default : TableRosterArgs :=
  mkTableRosterArgs 0 None.

Definition TableRosterBuilder_new : comp FlatBufferBuilder Ub WIPOffset := start_table.

Definition TableRosterBuilder_add_write_schema_id (write_schema_id : Z) : comp FlatBufferBuilder Ub unit :=
  push_slot TableRoster_VT_WRITE_SCHEMA_ID (PScalar U32 write_schema_id) (PScalar U32 0).

Definition TableRosterBuilder_add_tables (tables : WIPOffset) : comp FlatBufferBuilder Ub unit :=
  push_slot_always TableRoster_VT_TABLES (POffset tables).

Definition TableRosterBuilder_finish (start_ : WIPOffset) : comp FlatBufferBuilder Ub WIPOffset := (
  o <- end_table start_ ;;
  required o TableRoster_VT_TABLES "tables" ;;;
  creturn o)%rust.

Definition TableRoster_create (args : TableRosterArgs) : comp FlatBufferBuilder Ub WIPOffset := (
  builder <- TableRosterBuilder_new ;;
  if_let_Some (TableRosterArgs_tables args) TableRosterBuilder_add_tables ;;;
  TableRosterBuilder_add_write_schema_id (TableRosterArgs_write_schema_id args) ;;;
  TableRosterBuilder_finish builder)%rust.

Definition TableRoster_write_schema_id (t : Table) : res Ub Z :=
  get_unwrap (fb_scalar U32) t TableRoster_VT_WRITE_SCHEMA_ID (Some 0).

Definition TableRoster_tables (t : Table) : res Ub (list str) :=
  get_unwrap (ForwardsUOffset (Vector (ForwardsUOffset fb_str))) t TableRoster_VT_TABLES None.

Definition TableRoster_key_compare_less_than (t o : Table) : res Ub bool :=
  a ← TableRoster_write_schema_id t; b ← TableRoster_write_schema_id o; Ok (a <? b).

Definition TableRoster_key_compare_with_value (t : Table) (val : Z) : res Ub comparison :=
  key ← TableRoster_write_schema_id t; Ok (Z.compare key val).

Definition TableRoster_run_verifier (buf : list Z) (pos : Z) : option unit :=
  v ← visit_table buf pos;
  v ← visit_field (fb_scalar U32) "write_schema_id" TableRoster_VT_WRITE_SCHEMA_ID false v;
  v ← visit_field (ForwardsUOffset (Vector (ForwardsUOffset fb_str))) "tables" TableRoster_VT_TABLES true v;
  Some tt.

Definition TableRoster_Follow : Follow Table :=
  mkFollow 0 (fun buf loc => Ok (buf, loc)) TableRoster_run_verifier.

(** *** [GenerationEntry] *)

Definition GenerationEntry_VT_VERSION : VOffsetT := 4.
Definition GenerationEntry_VT_BASE_URL : VOffsetT := 6.

Definition GenerationEntry_init_from_table (table : Table) : Table := table.

Record GenerationEntryArgs := mkGenerationEntryArgs {
  GenerationEntryArgs_version : Z;
  GenerationEntryArgs_base_url : option WIPOffset
}.

Definition GenerationEntryArgs_default : GenerationEntryArgs :=
  mkGenerationEntryArgs 0 None.

Definition GenerationEntryBuilder_new : comp FlatBufferBuilder Ub WIPOffset := start_table.

Definition GenerationEntryBuilder_add_version (version : Z) : comp FlatBufferBuilder Ub unit :=
  push_slot GenerationEntry_VT_VERSION (PScalar U32 version) (PScalar U32 0).

Definition GenerationEntryBuilder_add_base_url (base_url : WIPOffset) : comp FlatBufferBuilder Ub unit :=
  push_slot_always GenerationEntry_VT_BASE_URL (POffset base_url).

Definition GenerationEntryBuilder_finish (start_ : WIPOffset) : comp FlatBufferBuilder Ub WIPOffset := (
  o <- end_table start_ ;;
  required o GenerationEntry_VT_BASE_URL "base_url" ;;;
  creturn o)%rust.

Definition GenerationEntry_create (args : GenerationEntryArgs) : comp FlatBufferBuilder Ub WIPOffset := (
  builder <- GenerationEntryBuilder_new ;;
  if_let_Some (GenerationEntryArgs_base_url args) GenerationEntryBuilder_add_base_url ;;;
  GenerationEntryBuilder_add_version (GenerationEntryArgs_version args) ;;;
  GenerationEntryBuilder_finish builder)%rust.

Definition GenerationEntry_version (t : Table) : res Ub Z :=
  get_unwrap (fb_scalar U32) t GenerationEntry_VT_VERSION (Some 0).

Definition GenerationEntry_base_url (t : Table) : res Ub str :=
  get_unwrap (ForwardsUOffset fb_str) t GenerationEntry_VT_BASE_URL None.

Definition GenerationEntry_key_compare_less_than (t o : Table) : res Ub bool :=
  a ← GenerationEntry_version t; b ← GenerationEntry_version o; Ok (a <? b).

Definition GenerationEntry_key_compare_with_value (t : Table) (val : Z) : res Ub comparison :=
  key ← GenerationEntry_version t; Ok (Z.compare key val).

Definition GenerationEntry_run_verifier (buf : list Z) (pos : Z) : option unit :=
  v ← visit_table buf pos;
  v ← visit_field (fb_scalar U32) "version" GenerationEntry_VT_VERSION false v;
  v ← visit_field (ForwardsUOffset fb_str) "base_url" GenerationEntry_VT_BASE_URL true v;
  Some tt.

Definition GenerationEntry_Follow : Follow Table :=
  mkFollow 0 (fun buf loc => Ok (buf, loc)) GenerationEntry_run_verifier.

(** *** [WorkerAssignmentDataset] *)

Definition WorkerAssignmentDataset_VT_ID : VOffsetT := 4.
Definition WorkerAssignmentDataset_VT_LAST_BLOCK : VOffsetT := 6.
Definition WorkerAssignmentDataset_VT_BASE_URL : VOffsetT := 8.
Definition WorkerAssignmentDataset_VT_GENERATIONS : VOffsetT := 10.
Definition WorkerAssignmentDataset_VT_FIRST_BLOCKS : VOffsetT := 12.
Definition WorkerAssignmentDataset_VT_BLOCK_DELTAS : VOffsetT := 14.
Definition WorkerAssignmentDataset_VT_HASHES : VOffsetT := 16.
Definition WorkerAssignmentDataset_VT_TOPS : VOffsetT := 18.
Definition WorkerAssignmentDataset_VT_SIZES : VOffsetT := 20.
Definition WorkerAssignmentDataset_VT_WRITE_SCHEMA_IDS : VOffsetT := 22.
Definition WorkerAssignmentDataset_VT_TABLES_PRESENT_OFFSETS : VOffsetT := 24.
Definition WorkerAssignmentDataset_VT_TABLES_PRESENT : VOffsetT := 26.
Definition WorkerAssignmentDataset_VT_VERSIONS : VOffsetT := 28.
Definition WorkerAssignmentDataset_VT_WORKER_OFFSETS : VOffsetT := 30.
Definition WorkerAssignmentDataset_VT_WORKER_INDEXES : VOffsetT := 32.

Definition WorkerAssignmentDataset_init_from_table (table : Table) : Table := table.

Record WorkerAssignmentDatasetArgs := mkWorkerAssignmentDatasetArgs {
  WorkerAssignmentDatasetArgs_id : option WIPOffset;
  WorkerAssignmentDatasetArgs_last_block : Z;
  WorkerAssignmentDatasetArgs_base_url : option WIPOffset;
  WorkerAssignmentDatasetArgs_generations : option WIPOffset;
  WorkerAssignmentDatasetArgs_first_blocks : option WIPOffset;
  WorkerAssignmentDatasetArgs_block_deltas : option WIPOffset;
  WorkerAssignmentDatasetArgs_hashes : option WIPOffset;
  WorkerAssignmentDatasetArgs_tops : option WIPOffset;
  WorkerAssignmentDatasetArgs_sizes : option WIPOffset;
  WorkerAssignmentDatasetArgs_write_schema_ids : option WIPOffset;
  WorkerAssignmentDatasetArgs_tables_present_offsets : option WIPOffset;
  WorkerAssignmentDatasetArgs_tables_present : option WIPOffset;
  WorkerAssignmentDatasetArgs_versions : option WIPOffset;
  WorkerAssignmentDatasetArgs_worker_offsets : option WIPOffset;
  WorkerAssignmentDatasetArgs_worker_indexes : option WIPOffset
}.

Definition WorkerAssignmentDatasetArgs_default : WorkerAssignmentDatasetArgs :=
  mkWorkerAssignmentDatasetArgs None 0 None None None None None None None None None None None None None.

Definition WorkerAssignmentDatasetBuilder_new : comp FlatBufferBuilder Ub WIPOffset := start_table.

Definition WorkerAssignmentDatasetBuilder_add_id (id : WIPOffset) : comp FlatBufferBuilder Ub unit :=
  push_slot_always WorkerAssignmentDataset_VT_ID (POffset id).

Definition WorkerAssignmentDatasetBuilder_add_last_block (last_block : Z) : comp FlatBufferBuilder Ub unit :=
  push_slot WorkerAssignmentDataset_VT_LAST_BLOCK (PScalar U64 last_block) (PScalar U64 0).

Definition WorkerAssignmentDatasetBuilder_add_base_url (base_url : WIPOffset) : comp FlatBufferBuilder Ub unit :=
  push_slot_always WorkerAssignmentDataset_VT_BASE_URL (POffset base_url).

Definition WorkerAssignmentDatasetBuilder_add_generations (generations : WIPOffset) : comp FlatBufferBuilder Ub unit :=
  push_slot_always WorkerAssignmentDataset_VT_GENERATIONS (POffset generations).

Definition WorkerAssignmentDatasetBuilder_add_first_blocks (first_blocks : WIPOffset) : comp FlatBufferBuilder Ub unit :=
  push_slot_always WorkerAssignmentDataset_VT_FIRST_BLOCKS (POffset first_blocks).

Definition WorkerAssignmentDatasetBuilder_add_block_deltas (block_deltas : WIPOffset) : comp FlatBufferBuilder Ub unit :=
  push_slot_always WorkerAssignmentDataset_VT_BLOCK_DELTAS (POffset block_deltas).

Definition WorkerAssignmentDatasetBuilder_add_hashes (hashes : WIPOffset) : comp FlatBufferBuilder Ub unit :=
  push_slot_always WorkerAssignmentDataset_VT_HASHES (POffset hashes).

Definition WorkerAssignmentDatasetBuilder_add_tops (tops : WIPOffset) : comp FlatBufferBuilder Ub unit :=
  push_slot_always WorkerAssignmentDataset_VT_TOPS (POffset tops).

Definition WorkerAssignmentDatasetBuilder_add_sizes (sizes : WIPOffset) : comp FlatBufferBuilder Ub unit :=
  push_slot_always WorkerAssignmentDataset_VT_SIZES (POffset sizes).

Definition WorkerAssignmentDatasetBuilder_add_write_schema_ids (write_schema_ids : WIPOffset) : comp FlatBufferBuilder Ub unit :=
  push_slot_always WorkerAssignmentDataset_VT_WRITE_SCHEMA_IDS (POffset write_schema_ids).

Definition WorkerAssignmentDatasetBuilder_add_tables_present_offsets (tables_present_offsets : WIPOffset) : comp FlatBufferBuilder Ub unit :=
  push_slot_always WorkerAssignmentDataset_VT_TABLES_PRESENT_OFFSETS (POffset tables_present_offsets).

Definition WorkerAssignmentDatasetBuilder_add_tables_present (tables_present : WIPOffset) : comp FlatBufferBuilder Ub unit :=
  push_slot_always WorkerAssignmentDataset_VT_TABLES_PRESENT (POffset tables_present).

Definition WorkerAssignmentDatasetBuilder_add_versions (versions : WIPOffset) : comp FlatBufferBuilder Ub unit :=
  push_slot_always WorkerAssignmentDataset_VT_VERSIONS (POffset versions).

Definition WorkerAssignmentDatasetBuilder_add_worker_offsets (worker_offsets : WIPOffset) : comp FlatBufferBuilder Ub unit :=
  push_slot_always WorkerAssignmentDataset_VT_WORKER_OFFSETS (POffset worker_offsets).

Definition WorkerAssignmentDatasetBuilder_add_worker_indexes (worker_indexes : WIPOffset) : comp FlatBufferBuilder Ub unit :=
  push_slot_always WorkerAssignmentDataset_VT_WORKER_INDEXES (POffset worker_indexes).

Definition WorkerAssignmentDatasetBuilder_finish (start_ : WIPOffset) : comp FlatBufferBuilder Ub WIPOffset := (
  o <- end_table start_ ;;
  required o WorkerAssignmentDataset_VT_ID "id" ;;;
  required o WorkerAssignmentDataset_VT_BASE_URL "base_url" ;;;
  required o WorkerAssignmentDataset_VT_FIRST_BLOCKS "first_blocks" ;;;
  required o WorkerAssignmentDataset_VT_BLOCK_DELTAS "block_deltas" ;;;
  required o WorkerAssignmentDataset_VT_HASHES "hashes" ;;;
  required o WorkerAssignmentDataset_VT_TOPS "tops" ;;;
  required o WorkerAssignmentDataset_VT_SIZES "sizes" ;;;
  required o WorkerAssignmentDataset_VT_WRITE_SCHEMA_IDS "write_schema_ids" ;;;
  required o WorkerAssignmentDataset_VT_WORKER_OFFSETS "worker_offsets" ;;;
  required o WorkerAssignmentDataset_VT_WORKER_INDEXES "worker_indexes" ;;;
  creturn o)%rust.

Definition WorkerAssignmentDataset_create (args : WorkerAssignmentDatasetArgs) : comp FlatBufferBuilder Ub WIPOffset := (
  builder <- WorkerAssignmentDatasetBuilder_new ;;
  WorkerAssignmentDatasetBuilder_add_last_block (WorkerAssignmentDatasetArgs_last_block args) ;;;
  if_let_Some (WorkerAssignmentDatasetArgs_worker_indexes args) WorkerAssignmentDatasetBuilder_add_worker_indexes ;;;
  if_let_Some (WorkerAssignmentDatasetArgs_worker_offsets args) WorkerAssignmentDatasetBuilder_add_worker_offsets ;;;
  if_let_Some (WorkerAssignmentDatasetArgs_versions args) WorkerAssignmentDatasetBuilder_add_versions ;;;
  if_let_Some (WorkerAssignmentDatasetArgs_tables_present args) WorkerAssignmentDatasetBuilder_add_tables_present ;;;
  if_let_Some (WorkerAssignmentDatasetArgs_tables_present_offsets args) WorkerAssignmentDatasetBuilder_add_tables_present_offsets ;;;
  if_let_Some (WorkerAssignmentDatasetArgs_write_schema_ids args) WorkerAssignmentDatasetBuilder_add_write_schema_ids ;;;
  if_let_Some (WorkerAssignmentDatasetArgs_sizes args) WorkerAssignmentDatasetBuilder_add_sizes ;;;
  if_let_Some (WorkerAssignmentDatasetArgs_tops args) WorkerAssignmentDatasetBuilder_add_tops ;;;
  if_let_Some (WorkerAssignmentDatasetArgs_hashes args) WorkerAssignmentDatasetBuilder_add_hashes ;;;
  if_let_Some (WorkerAssignmentDatasetArgs_block_deltas args) WorkerAssignmentDatasetBuilder_add_block_deltas ;;;
  if_let_Some (WorkerAssignmentDatasetArgs_first_blocks args) WorkerAssignmentDatasetBuilder_add_first_blocks ;;;
  if_let_Some (WorkerAssignmentDatasetArgs_generations args) WorkerAssignmentDatasetBuilder_add_generations ;;;
  if_let_Some (WorkerAssignmentDatasetArgs_base_url args) WorkerAssignmentDatasetBuilder_add_base_url ;;;
  if_let_Some (WorkerAssignmentDatasetArgs_id args) WorkerAssignmentDatasetBuilder_add_id ;;;
  WorkerAssignmentDatasetBuilder_finish builder)%rust.

Definition WorkerAssignmentDataset_id (t : Table) : res Ub str :=
  get_unwrap (ForwardsUOffset fb_str) t WorkerAssignmentDataset_VT_ID None.

Definition WorkerAssignmentDataset_last_block (t : Table) : res Ub Z :=
  get_unwrap (fb_scalar U64) t WorkerAssignmentDataset_VT_LAST_BLOCK (Some 0).

Definition WorkerAssignmentDataset_base_url (t : Table) : res Ub str :=
  get_unwrap (ForwardsUOffset fb_str) t WorkerAssignmentDataset_VT_BASE_URL None.

Definition WorkerAssignmentDataset_generations (t : Table) : res Ub (option (list Table)) :=
  tab_get (ForwardsUOffset (Vector (ForwardsUOffset GenerationEntry_Follow))) t WorkerAssignmentDataset_VT_GENERATIONS None.

Definition WorkerAssignmentDataset_first_blocks (t : Table) : res Ub (list Z) :=
  get_unwrap (ForwardsUOffset (Vector (fb_scalar U64))) t WorkerAssignmentDataset_VT_FIRST_BLOCKS None.

Definition WorkerAssignmentDataset_block_deltas (t : Table) : res Ub (list Z) :=
  get_unwrap (ForwardsUOffset (Vector (fb_scalar U32))) t WorkerAssignmentDataset_VT_BLOCK_DELTAS None.

Definition WorkerAssignmentDataset_hashes (t : Table) : res Ub (list (list Z)) :=
  get_unwrap (ForwardsUOffset (Vector ChunkHash_Follow)) t WorkerAssignmentDataset_VT_HASHES None.

Definition WorkerAssignmentDataset_tops (t : Table) : res Ub (list (list Z)) :=
  get_unwrap (ForwardsUOffset (Vector TopRun_Follow)) t WorkerAssignmentDataset_VT_TOPS None.

Definition WorkerAssignmentDataset_sizes (t : Table) : res Ub (list Z) :=
  get_unwrap (ForwardsUOffset (Vector (fb_scalar U32))) t WorkerAssignmentDataset_VT_SIZES None.

Definition WorkerAssignmentDataset_write_schema_ids (t : Table) : res Ub (list Z) :=
  get_unwrap (ForwardsUOffset (Vector (fb_scalar U32))) t WorkerAssignmentDataset_VT_WRITE_SCHEMA_IDS None.

Definition WorkerAssignmentDataset_tables_present_offsets (t : Table) : res Ub (option (list Z)) :=
  tab_get (ForwardsUOffset (Vector (fb_scalar U32))) t WorkerAssignmentDataset_VT_TABLES_PRESENT_OFFSETS None.

Definition WorkerAssignmentDataset_tables_present (t : Table) : res Ub (option (list Z)) :=
  tab_get (ForwardsUOffset (Vector (fb_scalar U8))) t WorkerAssignmentDataset_VT_TABLES_PRESENT None.

Definition WorkerAssignmentDataset_versions (t : Table) : res Ub (option (list Z)) :=
  tab_get (ForwardsUOffset (Vector (fb_scalar U32))) t WorkerAssignmentDataset_VT_VERSIONS None.

Definition WorkerAssignmentDataset_worker_offsets (t : Table) : res Ub (list Z) :=
  get_unwrap (ForwardsUOffset (Vector (fb_scalar U32))) t WorkerAssignmentDataset_VT_WORKER_OFFSETS None.

Definition WorkerAssignmentDataset_worker_indexes (t : Table) : res Ub (list Z) :=
  get_unwrap (ForwardsUOffset (Vector (fb_scalar U16))) t WorkerAssignmentDataset_VT_WORKER_INDEXES None.

Definition WorkerAssignmentDataset_key_compare_less_than (t o : Table) : res Ub bool :=
  a ← WorkerAssignmentDataset_id t; b ← WorkerAssignmentDataset_id o; Ok (str_ltb a b).

Definition WorkerAssignmentDataset_key_compare_with_value (t : Table) (val : str) : res Ub comparison :=
  key ← WorkerAssignmentDataset_id t; Ok (str_cmp key val).

Definition WorkerAssignmentDataset_run_verifier (buf : list Z) (pos : Z) : option unit :=
  v ← visit_table buf pos;
  v ← visit_field (ForwardsUOffset fb_str) "id" WorkerAssignmentDataset_VT_ID true v;
  v ← visit_field (fb_scalar U64) "last_block" WorkerAssignmentDataset_VT_LAST_BLOCK false v;
  v ← visit_field (ForwardsUOffset fb_str) "base_url" WorkerAssignmentDataset_VT_BASE_URL true v;
  v ← visit_field (ForwardsUOffset (Vector (ForwardsUOffset GenerationEntry_Follow))) "generations" WorkerAssignmentDataset_VT_GENERATIONS false v;
  v ← visit_field (ForwardsUOffset (Vector (fb_scalar U64))) "first_blocks" WorkerAssignmentDataset_VT_FIRST_BLOCKS true v;
  v ← visit_field (ForwardsUOffset (Vector (fb_scalar U32))) "block_deltas" WorkerAssignmentDataset_VT_BLOCK_DELTAS true v;
  v ← visit_field (ForwardsUOffset (Vector ChunkHash_Follow)) "hashes" WorkerAssignmentDataset_VT_HASHES true v;
  v ← visit_field (ForwardsUOffset (Vector TopRun_Follow)) "tops" WorkerAssignmentDataset_VT_TOPS true v;
  v ← visit_field (ForwardsUOffset (Vector (fb_scalar U32))) "sizes" WorkerAssignmentDataset_VT_SIZES true v;
  v ← visit_field (ForwardsUOffset (Vector (fb_scalar U32))) "write_schema_ids" WorkerAssignmentDataset_VT_WRITE_SCHEMA_IDS true v;
  v ← visit_field (ForwardsUOffset (Vector (fb_scalar U32))) "tables_present_offsets" WorkerAssignmentDataset_VT_TABLES_PRESENT_OFFSETS false v;
  v ← visit_field (ForwardsUOffset (Vector (fb_scalar U8))) "tables_present" WorkerAssignmentDataset_VT_TABLES_PRESENT false v;
  v ← visit_field (ForwardsUOffset (Vector (fb_scalar U32))) "versions" WorkerAssignmentDataset_VT_VERSIONS false v;
  v ← visit_field (ForwardsUOffset (Vector (fb_scalar U32))) "worker_offsets" WorkerAssignmentDataset_VT_WORKER_OFFSETS true v;
  v ← visit_field (ForwardsUOffset (Vector (fb_scalar U16))) "worker_indexes" WorkerAssignmentDataset_VT_WORKER_INDEXES true v;
  Some tt.

Definition WorkerAssignmentDataset_Follow : Follow Table :=
  mkFollow 0 (fun buf loc => Ok (buf, loc)) WorkerAssignmentDataset_run_verifier.

(** *** [WorkerAssignment] *)

Definition WorkerAssignment_VT_DATASETS : VOffsetT := 4.
Definition WorkerAssignment_VT_WORKERS : VOffsetT := 6.
Definition WorkerAssignment_VT_SCHEMAS : VOffsetT := 8.

Definition WorkerAssignment_init_from_table (table : Table) : Table := table.

Record WorkerAssignmentArgs := mkWorkerAssignmentArgs {
  WorkerAssignmentArgs_datasets : option WIPOffset;
  WorkerAssignmentArgs_workers : option WIPOffset;
  WorkerAssignmentArgs_schemas : option WIPOffset
}.

Definition WorkerAssignmentArgs_default : WorkerAssignmentArgs :=
  mkWorkerAssignmentArgs None None None.

Definition WorkerAssignmentBuilder_new : comp FlatBufferBuilder Ub WIPOffset := start_table.

Definition WorkerAssignmentBuilder_add_datasets (datasets : WIPOffset) : comp FlatBufferBuilder Ub unit :=
  push_slot_always WorkerAssignment_VT_DATASETS (POffset datasets).

Definition WorkerAssignmentBuilder_add_workers (workers : WIPOffset) : comp FlatBufferBuilder Ub unit :=
  push_slot_always WorkerAssignment_VT_WORKERS (POffset workers).

Definition WorkerAssignmentBuilder_add_schemas (schemas : WIPOffset) : comp FlatBufferBuilder Ub unit :=
  push_slot_always WorkerAssignment_VT_SCHEMAS (POffset schemas).

Definition WorkerAssignmentBuilder_finish (start_ : WIPOffset) : comp FlatBufferBuilder Ub WIPOffset := (
  o <- end_table start_ ;;
  required o WorkerAssignment_VT_DATASETS "datasets" ;;;
  required o WorkerAssignment_VT_WORKERS "workers" ;;;
  required o WorkerAssignment_VT_SCHEMAS "schemas" ;;;
  creturn o)%rust.

Definition WorkerAssignment_create (args : WorkerAssignmentArgs) : comp FlatBufferBuilder Ub WIPOffset := (
  builder <- WorkerAssignmentBuilder_new ;;
  if_let_Some (WorkerAssignmentArgs_schemas args) WorkerAssignmentBuilder_add_schemas ;;;
  if_let_Some (WorkerAssignmentArgs_workers args) WorkerAssignmentBuilder_add_workers ;;;
  if_let_Some (WorkerAssignmentArgs_datasets args) WorkerAssignmentBuilder_add_datasets ;;;
  WorkerAssignmentBuilder_finish builder)%rust.

Definition WorkerAssignment_datasets (t : Table) : res Ub (list Table) :=
  get_unwrap (ForwardsUOffset (Vector (ForwardsUOffset WorkerAssignmentDataset_Follow))) t WorkerAssignment_VT_DATASETS None.

Definition WorkerAssignment_workers (t : Table) : res Ub (list Table) :=
  get_unwrap (ForwardsUOffset (Vector (ForwardsUOffset WorkerEntry_Follow))) t WorkerAssignment_VT_WORKERS None.

Definition WorkerAssignment_schemas (t : Table) : res Ub (list Table) :=
  get_unwrap (ForwardsUOffset (Vector (ForwardsUOffset TableRoster_Follow))) t WorkerAssignment_VT_SCHEMAS None.

Definition WorkerAssignment_run_verifier (buf : list Z) (pos : Z) : option unit :=
  v ← visit_table buf pos;
  v ← visit_field (ForwardsUOffset (Vector (ForwardsUOffset WorkerAssignmentDataset_Follow))) "datasets" WorkerAssignment_VT_DATASETS true v;
  v ← visit_field (ForwardsUOffset (Vector (ForwardsUOffset WorkerEntry_Follow))) "workers" WorkerAssignment_VT_WORKERS true v;
  v ← visit_field (ForwardsUOffset (Vector (ForwardsUOffset TableRoster_Follow))) "schemas" WorkerAssignment_VT_SCHEMAS true v;
  Some tt.

Definition WorkerAssignment_Follow : Follow Table :=
  mkFollow 0 (fun buf loc => Ok (buf, loc)) WorkerAssignment_run_verifier.

(** *** The root of a buffer *)

Definition root_as_worker_assignment (buf : list Z) : option Table :=
  root WorkerAssignment_Follow buf.

Definition size_prefixed_root_as_worker_assignment (buf : list Z) : option Table :=
  size_prefixed_root WorkerAssignment_Follow buf.

Definition root_as_worker_assignment_with_opts (opts : VerifierOptions) (buf : list Z) : option Table :=
  root_with_opts opts WorkerAssignment_Follow buf.

Definition size_prefixed_root_as_worker_assignment_with_opts (opts : VerifierOptions) (buf : list Z) : option Table :=
  size_prefixed_root_with_opts opts WorkerAssignment_Follow buf.

Definition root_as_worker_assignment_unchecked (buf : list Z) : res Ub Table :=
  root_unchecked WorkerAssignment_Follow buf.

Definition size_prefixed_root_as_worker_assignment_unchecked (buf : list Z) : res Ub Table :=
  size_prefixed_root_unchecked WorkerAssignment_Follow buf.

Definition finish_worker_assignment_buffer (fbb : FlatBufferBuilder) (root : WIPOffset) : list Z :=
  fbb_finish root fbb.

Definition finish_size_prefixed_worker_assignment_buffer (fbb : FlatBufferBuilder) (root : WIPOffset) : list Z :=
  fbb_finish_size_prefixed root fbb.
End generated.

(** ** What [create] writes

    With its required fields given, [create] succeeds and writes a table that
    holds the arguments at the slots of the schema. *)

Section created.
Context `{FlatBufferGhost, !FlatBufferCodec}.

Lemma TableRoster_create_ok
    write_schema_id tables b :
  fbb_open b = None ->
  is_Some tables ->
  wpf (TableRoster_create
       (mkTableRosterArgs write_schema_id tables))
    b (fun o b' => fbb_open b' = None /\ exists m,
    fbb_obj b' o = Some (OTab m)
    /\ m !! TableRoster_VT_WRITE_SCHEMA_ID = unless_default (PScalar U32 write_schema_id) (PScalar U32 0)
    /\ m !! TableRoster_VT_TABLES = POffset <$> tables).
Proof. create_ok_with ltac:(unfold TableRoster_create, TableRosterBuilder_new, TableRosterBuilder_finish). Qed.

Lemma GenerationEntry_create_ok
    version base_url b :
  fbb_open b = None ->
  is_Some base_url ->
  wpf (GenerationEntry_create
       (mkGenerationEntryArgs version base_url))
    b (fun o b' => fbb_open b' = None /\ exists m,
    fbb_obj b' o = Some (OTab m)
    /\ m !! GenerationEntry_VT_VERSION = unless_default (PScalar U32 version) (PScalar U32 0)
    /\ m !! GenerationEntry_VT_BASE_URL = POffset <$> base_url).
Proof. create_ok_with ltac:(unfold GenerationEntry_create, GenerationEntryBuilder_new, GenerationEntryBuilder_finish). Qed.

Lemma WorkerAssignmentDataset_create_ok
    id last_block base_url generations first_blocks block_deltas hashes tops sizes
    write_schema_ids tables_present_offsets tables_present versions worker_offsets
    worker_indexes b :
  fbb_open b = None ->
  is_Some id -> is_Some base_url -> is_Some first_blocks -> is_Some block_deltas ->
  is_Some hashes -> is_Some tops -> is_Some sizes -> is_Some write_schema_ids ->
  is_Some worker_offsets -> is_Some worker_indexes ->
  wpf (WorkerAssignmentDataset_create
       (mkWorkerAssignmentDatasetArgs id last_block base_url generations first_blocks
       block_deltas hashes tops sizes write_schema_ids tables_present_offsets tables_present
       versions worker_offsets worker_indexes))
    b (fun o b' => fbb_open b' = None /\ exists m,
    fbb_obj b' o = Some (OTab m)
    /\ m !! WorkerAssignmentDataset_VT_ID = POffset <$> id
    /\ m !! WorkerAssignmentDataset_VT_LAST_BLOCK = unless_default (PScalar U64 last_block) (PScalar U64 0)
    /\ m !! WorkerAssignmentDataset_VT_BASE_URL = POffset <$> base_url
    /\ m !! WorkerAssignmentDataset_VT_GENERATIONS = POffset <$> generations
    /\ m !! WorkerAssignmentDataset_VT_FIRST_BLOCKS = POffset <$> first_blocks
    /\ m !! WorkerAssignmentDataset_VT_BLOCK_DELTAS = POffset <$> block_deltas
    /\ m !! WorkerAssignmentDataset_VT_HASHES = POffset <$> hashes
    /\ m !! WorkerAssignmentDataset_VT_TOPS = POffset <$> tops
    /\ m !! WorkerAssignmentDataset_VT_SIZES = POffset <$> sizes
    /\ m !! WorkerAssignmentDataset_VT_WRITE_SCHEMA_IDS = POffset <$> write_schema_ids
    /\ m !! WorkerAssignmentDataset_VT_TABLES_PRESENT_OFFSETS = POffset <$> tables_present_offsets
    /\ m !! WorkerAssignmentDataset_VT_TABLES_PRESENT = POffset <$> tables_present
    /\ m !! WorkerAssignmentDataset_VT_VERSIONS = POffset <$> versions
    /\ m !! WorkerAssignmentDataset_VT_WORKER_OFFSETS = POffset <$> worker_offsets
    /\ m !! WorkerAssignmentDataset_VT_WORKER_INDEXES = POffset <$> worker_indexes).
Proof. create_ok_with ltac:(unfold WorkerAssignmentDataset_create, WorkerAssignmentDatasetBuilder_new, WorkerAssignmentDatasetBuilder_finish). Qed.

Lemma WorkerAssignment_create_ok
    datasets workers schemas b :
  fbb_open b = None ->
  is_Some datasets -> is_Some workers -> is_Some schemas ->
  wpf (WorkerAssignment_create
       (mkWorkerAssignmentArgs datasets workers schemas))
    b (fun o b' => fbb_open b' = None /\ exists m,
    fbb_obj b' o = Some (OTab m)
    /\ m !! WorkerAssignment_VT_DATASETS = POffset <$> datasets
    /\ m !! WorkerAssignment_VT_WORKERS = POffset <$> workers
    /\ m !! WorkerAssignment_VT_SCHEMAS = POffset <$> schemas).
Proof. create_ok_with ltac:(unfold WorkerAssignment_create, WorkerAssignmentBuilder_new, WorkerAssignmentBuilder_finish). Qed.

End created.
