(* ===== verification/PortalGen.v ===== *)
(** * The generated code of portal_assignment.fbs (schema/gen/portal_assignment_generated.rs)

    The tables of the portal assignment, in the manner of [AssignmentGen]. *)

From S2P Require Import Prelude RustStd FlatBuffers FlatTheory AssignmentGen.
From Stdlib Require Import ZArith Lia Ascii String.
From stdpp Require Import base sets strings gmap sorting numbers list.

Open Scope Z_scope.

Section generated.
Context `{FlatBufferOps}.

(** *** [PortalEntry] *)

Definition PortalEntry_VT_WORKER_ID : VOffsetT := 4.
Definition PortalEntry_VT_STATUS : VOffsetT := 6.

Definition PortalEntry_init_from_table (table : Table) : Table := table.

Record PortalEntryArgs := mkPortalEntryArgs {
  PortalEntryArgs_worker_id : option (list Z);
  PortalEntryArgs_status : Z
}.

Definition PortalEntryArgs_default : PortalEntryArgs :=
  mkPortalEntryArgs None WorkerStatus_Ok.

Definition PortalEntryBuilder_new : comp FlatBufferBuilder Ub WIPOffset := start_table.

Definition PortalEntryBuilder_add_worker_id (worker_id : list Z) : comp FlatBufferBuilder Ub unit :=
  push_slot_always PortalEntry_VT_WORKER_ID (WorkerId_push worker_id).

Definition PortalEntryBuilder_add_status (status : Z) : comp FlatBufferBuilder Ub unit :=
  push_slot PortalEntry_VT_STATUS (WorkerStatus_push status) (WorkerStatus_push WorkerStatus_Ok).

Definition PortalEntryBuilder_finish (start_ : WIPOffset) : comp FlatBufferBuilder Ub WIPOffset := (
  o <- end_table start_ ;;
  required o PortalEntry_VT_WORKER_ID "worker_id" ;;;
  creturn o)%rust.

Definition PortalEntry_create (args : PortalEntryArgs) : comp FlatBufferBuilder Ub WIPOffset := (
  builder <- PortalEntryBuilder_new ;;
  if_let_Some (PortalEntryArgs_worker_id args) PortalEntryBuilder_add_worker_id ;;;
  PortalEntryBuilder_add_status (PortalEntryArgs_status args) ;;;
  PortalEntryBuilder_finish builder)%rust.

Definition PortalEntry_worker_id (t : Table) : res Ub (list Z) :=
  get_unwrap (WorkerId_Follow) t PortalEntry_VT_WORKER_ID None.

Definition PortalEntry_status (t : Table) : res Ub Z :=
  get_unwrap (WorkerStatus_Follow) t PortalEntry_VT_STATUS (Some WorkerStatus_Ok).

Definition PortalEntry_run_verifier (buf : list Z) (pos : Z) : option unit :=
  v ← visit_table buf pos;
  v ← visit_field (WorkerId_Follow) "worker_id" PortalEntry_VT_WORKER_ID true v;
  v ← visit_field (WorkerStatus_Follow) "status" PortalEntry_VT_STATUS false v;
  Some tt.

Definition PortalEntry_Follow : Follow Table :=
  mkFollow 0 (fun buf loc => Ok (buf, loc)) PortalEntry_run_verifier.

(** *** [PortalAssignmentDataset] *)

Definition PortalAssignmentDataset_VT_ID : VOffsetT := 4.
Definition PortalAssignmentDataset_VT_LAST_BLOCK : VOffsetT := 6.
Definition PortalAssignmentDataset_VT_READ_SCHEMA_ID : VOffsetT := 8.
Definition PortalAssignmentDataset_VT_FIRST_BLOCKS : VOffsetT := 10.
Definition PortalAssignmentDataset_VT_BLOCK_DELTAS : VOffsetT := 12.
Definition PortalAssignmentDataset_VT_HASHES : VOffsetT := 14.
Definition PortalAssignmentDataset_VT_TOPS : VOffsetT := 16.
Definition PortalAssignmentDataset_VT_TIMESTAMPS : VOffsetT := 18.
Definition PortalAssignmentDataset_VT_VERSIONS : VOffsetT := 20.
Definition PortalAssignmentDataset_VT_WORKER_OFFSETS : VOffsetT := 22.
Definition PortalAssignmentDataset_VT_WORKER_INDEXES : VOffsetT := 24.
Definition PortalAssignmentDataset_VT_LAST_BLOCK_HASH : VOffsetT := 26.

Definition PortalAssignmentDataset_init_from_table (table : Table) : Table := table.

Record PortalAssignmentDatasetArgs := mkPortalAssignmentDatasetArgs {
  PortalAssignmentDatasetArgs_id : option WIPOffset;
  PortalAssignmentDatasetArgs_last_block : Z;
  PortalAssignmentDatasetArgs_read_schema_id : Z;
  PortalAssignmentDatasetArgs_first_blocks : option WIPOffset;
  PortalAssignmentDatasetArgs_block_deltas : option WIPOffset;
  PortalAssignmentDatasetArgs_hashes : option WIPOffset;
  PortalAssignmentDatasetArgs_tops : option WIPOffset;
  PortalAssignmentDatasetArgs_timestamps : option WIPOffset;
  PortalAssignmentDatasetArgs_versions : option WIPOffset;
  PortalAssignmentDatasetArgs_worker_offsets : option WIPOffset;
  PortalAssignmentDatasetArgs_worker_indexes : option WIPOffset;
  PortalAssignmentDatasetArgs_last_block_hash : option WIPOffset
}.

Definition PortalAssignmentDatasetArgs_default : PortalAssignmentDatasetArgs :=
  mkPortalAssignmentDatasetArgs None 0 0 None None None None None None None None None.

Definition PortalAssignmentDatasetBuilder_new : comp FlatBufferBuilder Ub WIPOffset := start_table.

Definition PortalAssignmentDatasetBuilder_add_id (id : WIPOffset) : comp FlatBufferBuilder Ub unit :=
  push_slot_always PortalAssignmentDataset_VT_ID (POffset id).

Definition PortalAssignmentDatasetBuilder_add_last_block (last_block : Z) : comp FlatBufferBuilder Ub unit :=
  push_slot PortalAssignmentDataset_VT_LAST_BLOCK (PScalar U64 last_block) (PScalar U64 0).

Definition PortalAssignmentDatasetBuilder_add_read_schema_id (read_schema_id : Z) : comp FlatBufferBuilder Ub unit :=
  push_slot PortalAssignmentDataset_VT_READ_SCHEMA_ID (PScalar U32 read_schema_id) (PScalar U32 0).

Definition PortalAssignmentDatasetBuilder_add_first_blocks (first_blocks : WIPOffset) : comp FlatBufferBuilder Ub unit :=
  push_slot_always PortalAssignmentDataset_VT_FIRST_BLOCKS (POffset first_blocks).

Definition PortalAssignmentDatasetBuilder_add_block_deltas (block_deltas : WIPOffset) : comp FlatBufferBuilder Ub unit :=
  push_slot_always PortalAssignmentDataset_VT_BLOCK_DELTAS (POffset block_deltas).

Definition PortalAssignmentDatasetBuilder_add_hashes (hashes : WIPOffset) : comp FlatBufferBuilder Ub unit :=
  push_slot_always PortalAssignmentDataset_VT_HASHES (POffset hashes).

Definition PortalAssignmentDatasetBuilder_add_tops (tops : WIPOffset) : comp FlatBufferBuilder Ub unit :=
  push_slot_always PortalAssignmentDataset_VT_TOPS (POffset tops).

Definition PortalAssignmentDatasetBuilder_add_timestamps (timestamps : WIPOffset) : comp FlatBufferBuilder Ub unit :=
  push_slot_always PortalAssignmentDataset_VT_TIMESTAMPS (POffset timestamps).

Definition PortalAssignmentDatasetBuilder_add_versions (versions : WIPOffset) : comp FlatBufferBuilder Ub unit :=
  push_slot_always PortalAssignmentDataset_VT_VERSIONS (POffset versions).

Definition PortalAssignmentDatasetBuilder_add_worker_offsets (worker_offsets : WIPOffset) : comp FlatBufferBuilder Ub unit :=
  push_slot_always PortalAssignmentDataset_VT_WORKER_OFFSETS (POffset worker_offsets).

Definition PortalAssignmentDatasetBuilder_add_worker_indexes (worker_indexes : WIPOffset) : comp FlatBufferBuilder Ub unit :=
  push_slot_always PortalAssignmentDataset_VT_WORKER_INDEXES (POffset worker_indexes).

Definition PortalAssignmentDatasetBuilder_add_last_block_hash (last_block_hash : WIPOffset) : comp FlatBufferBuilder Ub unit :=
  push_slot_always PortalAssignmentDataset_VT_LAST_BLOCK_HASH (POffset last_block_hash).

Definition PortalAssignmentDatasetBuilder_finish (start_ : WIPOffset) : comp FlatBufferBuilder Ub WIPOffset := (
  o <- end_table start_ ;;
  required o PortalAssignmentDataset_VT_ID "id" ;;;
  required o PortalAssignmentDataset_VT_FIRST_BLOCKS "first_blocks" ;;;
  required o PortalAssignmentDataset_VT_BLOCK_DELTAS "block_deltas" ;;;
  required o PortalAssignmentDataset_VT_HASHES "hashes" ;;;
  required o PortalAssignmentDataset_VT_TOPS "tops" ;;;
  required o PortalAssignmentDataset_VT_TIMESTAMPS "timestamps" ;;;
  required o PortalAssignmentDataset_VT_WORKER_OFFSETS "worker_offsets" ;;;
  required o PortalAssignmentDataset_VT_WORKER_INDEXES "worker_indexes" ;;;
  creturn o)%rust.

Definition PortalAssignmentDataset_create (args : PortalAssignmentDatasetArgs) : comp FlatBufferBuilder Ub WIPOffset := (
  builder <- PortalAssignmentDatasetBuilder_new ;;
  PortalAssignmentDatasetBuilder_add_last_block (PortalAssignmentDatasetArgs_last_block args) ;;;
  if_let_Some (PortalAssignmentDatasetArgs_last_block_hash args) PortalAssignmentDatasetBuilder_add_last_block_hash ;;;
  if_let_Some (PortalAssignmentDatasetArgs_worker_indexes args) PortalAssignmentDatasetBuilder_add_worker_indexes ;;;
  if_let_Some (PortalAssignmentDatasetArgs_worker_offsets args) PortalAssignmentDatasetBuilder_add_worker_offsets ;;;
  if_let_Some (PortalAssignmentDatasetArgs_versions args) PortalAssignmentDatasetBuilder_add_versions ;;;
  if_let_Some (PortalAssignmentDatasetArgs_timestamps args) PortalAssignmentDatasetBuilder_add_timestamps ;;;
  if_let_Some (PortalAssignmentDatasetArgs_tops args) PortalAssignmentDatasetBuilder_add_tops ;;;
  if_let_Some (PortalAssignmentDatasetArgs_hashes args) PortalAssignmentDatasetBuilder_add_hashes ;;;
  if_let_Some (PortalAssignmentDatasetArgs_block_deltas args) PortalAssignmentDatasetBuilder_add_block_deltas ;;;
  if_let_Some (PortalAssignmentDatasetArgs_first_blocks args) PortalAssignmentDatasetBuilder_add_first_blocks ;;;
  PortalAssignmentDatasetBuilder_add_read_schema_id (PortalAssignmentDatasetArgs_read_schema_id args) ;;;
  if_let_Some (PortalAssignmentDatasetArgs_id args) PortalAssignmentDatasetBuilder_add_id ;;;
  PortalAssignmentDatasetBuilder_finish builder)%rust.

Definition PortalAssignmentDataset_id (t : Table) : res Ub str :=
  get_unwrap (ForwardsUOffset fb_str) t PortalAssignmentDataset_VT_ID None.

Definition PortalAssignmentDataset_last_block (t : Table) : res Ub Z :=
  get_unwrap (fb_scalar U64) t PortalAssignmentDataset_VT_LAST_BLOCK (Some 0).

Definition PortalAssignmentDataset_read_schema_id (t : Table) : res Ub Z :=
  get_unwrap (fb_scalar U32) t PortalAssignmentDataset_VT_READ_SCHEMA_ID (Some 0).

Definition PortalAssignmentDataset_first_blocks (t : Table) : res Ub (list Z) :=
  get_unwrap (ForwardsUOffset (Vector (fb_scalar U64))) t PortalAssignmentDataset_VT_FIRST_BLOCKS None.

Definition PortalAssignmentDataset_block_deltas (t : Table) : res Ub (list Z) :=
  get_unwrap (ForwardsUOffset (Vector (fb_scalar U32))) t PortalAssignmentDataset_VT_BLOCK_DELTAS None.

Definition PortalAssignmentDataset_hashes (t : Table) : res Ub (list (list Z)) :=
  get_unwrap (ForwardsUOffset (Vector ChunkHash_Follow)) t PortalAssignmentDataset_VT_HASHES None.

Definition PortalAssignmentDataset_tops (t : Table) : res Ub (list (list Z)) :=
  get_unwrap (ForwardsUOffset (Vector TopRun_Follow)) t PortalAssignmentDataset_VT_TOPS None.

Definition PortalAssignmentDataset_timestamps (t : Table) : res Ub (list Z) :=
  get_unwrap (ForwardsUOffset (Vector (fb_scalar U64))) t PortalAssignmentDataset_VT_TIMESTAMPS None.

Definition PortalAssignmentDataset_versions (t : Table) : res Ub (option (list Z)) :=
  tab_get (ForwardsUOffset (Vector (fb_scalar U32))) t PortalAssignmentDataset_VT_VERSIONS None.

Definition PortalAssignmentDataset_worker_offsets (t : Table) : res Ub (list Z) :=
  get_unwrap (ForwardsUOffset (Vector (fb_scalar U32))) t PortalAssignmentDataset_VT_WORKER_OFFSETS None.

Definition PortalAssignmentDataset_worker_indexes (t : Table) : res Ub (list Z) :=
  get_unwrap (ForwardsUOffset (Vector (fb_scalar U16))) t PortalAssignmentDataset_VT_WORKER_INDEXES None.

Definition PortalAssignmentDataset_last_block_hash (t : Table) : res Ub (option str) :=
  tab_get (ForwardsUOffset fb_str) t PortalAssignmentDataset_VT_LAST_BLOCK_HASH None.

Definition PortalAssignmentDataset_key_compare_less_than (t o : Table) : res Ub bool :=
  a ← PortalAssignmentDataset_id t; b ← PortalAssignmentDataset_id o; Ok (str_ltb a b).

Definition PortalAssignmentDataset_key_compare_with_value (t : Table) (val : str) : res Ub comparison :=
  key ← PortalAssignmentDataset_id t; Ok (str_cmp key val).

Definition PortalAssignmentDataset_run_verifier (buf : list Z) (pos : Z) : option unit :=
  v ← visit_table buf pos;
  v ← visit_field (ForwardsUOffset fb_str) "id" PortalAssignmentDataset_VT_ID true v;
  v ← visit_field (fb_scalar U64) "last_block" PortalAssignmentDataset_VT_LAST_BLOCK false v;
  v ← visit_field (fb_scalar U32) "read_schema_id" PortalAssignmentDataset_VT_READ_SCHEMA_ID false v;
  v ← visit_field (ForwardsUOffset (Vector (fb_scalar U64))) "first_blocks" PortalAssignmentDataset_VT_FIRST_BLOCKS true v;
  v ← visit_field (ForwardsUOffset (Vector (fb_scalar U32))) "block_deltas" PortalAssignmentDataset_VT_BLOCK_DELTAS true v;
  v ← visit_field (ForwardsUOffset (Vector ChunkHash_Follow)) "hashes" PortalAssignmentDataset_VT_HASHES true v;
  v ← visit_field (ForwardsUOffset (Vector TopRun_Follow)) "tops" PortalAssignmentDataset_VT_TOPS true v;
  v ← visit_field (ForwardsUOffset (Vector (fb_scalar U64))) "timestamps" PortalAssignmentDataset_VT_TIMESTAMPS true v;
  v ← visit_field (ForwardsUOffset (Vector (fb_scalar U32))) "versions" PortalAssignmentDataset_VT_VERSIONS false v;
  v ← visit_field (ForwardsUOffset (Vector (fb_scalar U32))) "worker_offsets" PortalAssignmentDataset_VT_WORKER_OFFSETS true v;
  v ← visit_field (ForwardsUOffset (Vector (fb_scalar U16))) "worker_indexes" PortalAssignmentDataset_VT_WORKER_INDEXES true v;
  v ← visit_field (ForwardsUOffset fb_str) "last_block_hash" PortalAssignmentDataset_VT_LAST_BLOCK_HASH false v;
  Some tt.

Definition PortalAssignmentDataset_Follow : Follow Table :=
  mkFollow 0 (fun buf loc => Ok (buf, loc)) PortalAssignmentDataset_run_verifier.

(** *** [PortalAssignment] *)

Definition PortalAssignment_VT_DATASETS : VOffsetT := 4.
Definition PortalAssignment_VT_WORKERS : VOffsetT := 6.

Definition PortalAssignment_init_from_table (table : Table) : Table := table.

Record PortalAssignmentArgs := mkPortalAssignmentArgs {
  PortalAssignmentArgs_datasets : option WIPOffset;
  PortalAssignmentArgs_workers : option WIPOffset
}.

Definition PortalAssignmentArgs_default : PortalAssignmentArgs :=
  mkPortalAssignmentArgs None None.

Definition PortalAssignmentBuilder_new : comp FlatBufferBuilder Ub WIPOffset := start_table.

Definition PortalAssignmentBuilder_add_datasets (datasets : WIPOffset) : comp FlatBufferBuilder Ub unit :=
  push_slot_always PortalAssignment_VT_DATASETS (POffset datasets).

Definition PortalAssignmentBuilder_add_workers (workers : WIPOffset) : comp FlatBufferBuilder Ub unit :=
  push_slot_always PortalAssignment_VT_WORKERS (POffset workers).

Definition PortalAssignmentBuilder_finish (start_ : WIPOffset) : comp FlatBufferBuilder Ub WIPOffset := (
  o <- end_table start_ ;;
  required o PortalAssignment_VT_DATASETS "datasets" ;;;
  required o PortalAssignment_VT_WORKERS "workers" ;;;
  creturn o)%rust.

Definition PortalAssignment_create (args : PortalAssignmentArgs) : comp FlatBufferBuilder Ub WIPOffset := (
  builder <- PortalAssignmentBuilder_new ;;
  if_let_Some (PortalAssignmentArgs_workers args) PortalAssignmentBuilder_add_workers ;;;
  if_let_Some (PortalAssignmentArgs_datasets args) PortalAssignmentBuilder_add_datasets ;;;
  PortalAssignmentBuilder_finish builder)%rust.

Definition PortalAssignment_datasets (t : Table) : res Ub (list Table) :=
  get_unwrap (ForwardsUOffset (Vector (ForwardsUOffset PortalAssignmentDataset_Follow))) t PortalAssignment_VT_DATASETS None.

Definition PortalAssignment_workers (t : Table) : res Ub (list Table) :=
  get_unwrap (ForwardsUOffset (Vector (ForwardsUOffset PortalEntry_Follow))) t PortalAssignment_VT_WORKERS None.

Definition PortalAssignment_run_verifier (buf : list Z) (pos : Z) : option unit :=
  v ← visit_table buf pos;
  v ← visit_field (ForwardsUOffset (Vector (ForwardsUOffset PortalAssignmentDataset_Follow))) "datasets" PortalAssignment_VT_DATASETS true v;
  v ← visit_field (ForwardsUOffset (Vector (ForwardsUOffset PortalEntry_Follow))) "workers" PortalAssignment_VT_WORKERS true v;
  Some tt.

Definition PortalAssignment_Follow : Follow Table :=
  mkFollow 0 (fun buf loc => Ok (buf, loc)) PortalAssignment_run_verifier.

(** *** The root of a buffer *)

Definition root_as_portal_assignment (buf : list Z) : option Table :=
  root PortalAssignment_Follow buf.

Definition size_prefixed_root_as_portal_assignment (buf : list Z) : option Table :=
  size_prefixed_root PortalAssignment_Follow buf.

Definition root_as_portal_assignment_with_opts (opts : VerifierOptions) (buf : list Z) : option Table :=
  root_with_opts opts PortalAssignment_Follow buf.

Definition size_prefixed_root_as_portal_assignment_with_opts (opts : VerifierOptions) (buf : list Z) : option Table :=
  size_prefixed_root_with_opts opts PortalAssignment_Follow buf.

Definition root_as_portal_assignment_unchecked (buf : list Z) : res Ub Table :=
  root_unchecked PortalAssignment_Follow buf.

Definition size_prefixed_root_as_portal_assignment_unchecked (buf : list Z) : res Ub Table :=
  size_prefixed_root_unchecked PortalAssignment_Follow buf.

Definition finish_portal_assignment_buffer (fbb : FlatBufferBuilder) (root : WIPOffset) : list Z :=
  fbb_finish root fbb.

Definition finish_size_prefixed_portal_assignment_buffer (fbb : FlatBufferBuilder) (root : WIPOffset) : list Z :=
  fbb_finish_size_prefixed root fbb.
End generated.

(** ** What [create] writes

    With its required fields given, [create] succeeds and writes a table that
    holds the arguments at the slots of the schema. *)

Section created.
Context `{FlatBufferGhost, !FlatBufferCodec}.

Lemma PortalEntry_create_ok
    worker_id status b :
  fbb_open b = None ->
  is_Some worker_id ->
  wpf (PortalEntry_create
       (mkPortalEntryArgs worker_id status))
    b (fun o b' => fbb_open b' = None /\ exists m,
    fbb_obj b' o = Some (OTab m)
    /\ m !! PortalEntry_VT_WORKER_ID = WorkerId_push <$> worker_id
    /\ m !! PortalEntry_VT_STATUS = unless_default (WorkerStatus_push status) (WorkerStatus_push WorkerStatus_Ok)).
Proof. create_ok_with ltac:(unfold PortalEntry_create, PortalEntryBuilder_new, PortalEntryBuilder_finish). Qed.

Lemma PortalAssignmentDataset_create_ok
    id last_block read_schema_id first_blocks block_deltas hashes tops timestamps versions
    worker_offsets worker_indexes last_block_hash b :
  fbb_open b = None ->
  is_Some id -> is_Some first_blocks -> is_Some block_deltas -> is_Some hashes ->
  is_Some tops -> is_Some timestamps -> is_Some worker_offsets -> is_Some worker_indexes ->
  wpf (PortalAssignmentDataset_create
       (mkPortalAssignmentDatasetArgs id last_block read_schema_id first_blocks block_deltas
       hashes tops timestamps versions worker_offsets worker_indexes last_block_hash))
    b (fun o b' => fbb_open b' = None /\ exists m,
    fbb_obj b' o = Some (OTab m)
    /\ m !! PortalAssignmentDataset_VT_ID = POffset <$> id
    /\ m !! PortalAssignmentDataset_VT_LAST_BLOCK = unless_default (PScalar U64 last_block) (PScalar U64 0)
    /\ m !! PortalAssignmentDataset_VT_READ_SCHEMA_ID = unless_default (PScalar U32 read_schema_id) (PScalar U32 0)
    /\ m !! PortalAssignmentDataset_VT_FIRST_BLOCKS = POffset <$> first_blocks
    /\ m !! PortalAssignmentDataset_VT_BLOCK_DELTAS = POffset <$> block_deltas
    /\ m !! PortalAssignmentDataset_VT_HASHES = POffset <$> hashes
    /\ m !! PortalAssignmentDataset_VT_TOPS = POffset <$> tops
    /\ m !! PortalAssignmentDataset_VT_TIMESTAMPS = POffset <$> timestamps
    /\ m !! PortalAssignmentDataset_VT_VERSIONS = POffset <$> versions
    /\ m !! PortalAssignmentDataset_VT_WORKER_OFFSETS = POffset <$> worker_offsets
    /\ m !! PortalAssignmentDataset_VT_WORKER_INDEXES = POffset <$> worker_indexes
    /\ m !! PortalAssignmentDataset_VT_LAST_BLOCK_HASH = POffset <$> last_block_hash).
Proof. create_ok_with ltac:(unfold PortalAssignmentDataset_create, PortalAssignmentDatasetBuilder_new, PortalAssignmentDatasetBuilder_finish). Qed.

Lemma PortalAssignment_create_ok
    datasets workers b :
  fbb_open b = None ->
  is_Some datasets -> is_Some workers ->
  wpf (PortalAssignment_create
       (mkPortalAssignmentArgs datasets workers))
    b (fun o b' => fbb_open b' = None /\ exists m,
    fbb_obj b' o = Some (OTab m)
    /\ m !! PortalAssignment_VT_DATASETS = POffset <$> datasets
    /\ m !! PortalAssignment_VT_WORKERS = POffset <$> workers).
Proof. create_ok_with ltac:(unfold PortalAssignment_create, PortalAssignmentBuilder_new, PortalAssignmentBuilder_finish). Qed.

End created.
