(* ===== verification/AssignmentCodec.v ===== *)
(** * Reading and writing the tables of assignment.fbs

    The record of a table against its place in a buffer: [read_X] calls every
    accessor the generated code has for the table [X], [write_X] writes its
    children and calls [X::create] as builder.rs does, and [X_typed] says the
    values are those of the field's Rust types.  For each table, what [write_X]
    wrote is read back by [read_X], and a table the generated verifier accepts
    is read without a panic or undefined behaviour. *)

From S2P Require Import Prelude RustStd AssignmentFb LegacyAssignment FlatBuffers FlatTheory AssignmentGen.
From Stdlib Require Import ZArith Lia Ascii String.
From stdpp Require Import base sets strings gmap sorting numbers list.

Open Scope Z_scope.

(** ** The structs of assignment.fbs *)

Lemma from_to_le_bytes n x :
  0 <= x < 256 ^ Z.of_nat n -> from_le_bytes (to_le_bytes n x) = x.
Proof.
  revert x. induction n as [| n IH]; intros x Hx.
  - cbn in *. lia.
  - rewrite Nat2Z.inj_succ, Z.pow_succ_r in Hx by lia.
    cbn [to_le_bytes]. change (from_le_bytes (x mod 256 :: to_le_bytes n (x / 256)))
      with (x mod 256 + 256 * from_le_bytes (to_le_bytes n (x / 256))).
    rewrite IH by (split; [apply Z.div_pos | apply Z.div_lt_upper_bound]; lia).
    rewrite (Z.div_mod x 256) at 3 by lia. lia.
Qed.

Lemma from_le_bytes_range bs :
  Forall (scalar_ok U8) bs -> 0 <= from_le_bytes bs < 256 ^ Z.of_nat (length bs).
Proof.
  induction 1 as [| b bs Hb _ IH]; [cbn; lia |]. cbn in Hb.
  change (from_le_bytes (b :: bs)) with (b + 256 * from_le_bytes bs).
  cbn [length]. rewrite Nat2Z.inj_succ, Z.pow_succ_r by lia. lia.
Qed.

Lemma to_le_bytes_u8 n x : Forall (scalar_ok U8) (to_le_bytes n x).
Proof.
  revert x. induction n as [| n IH]; intros x; cbn [to_le_bytes]; constructor; [| apply IH].
  cbn. pose proof (Z.mod_pos_bound x 256). lia.
Qed.

Definition TopRun_typed (r : TopRun) : Prop :=
  scalar_ok U32 (first_chunk_index r) /\ scalar_ok U64 (run_top r).

Definition read_TopRun (bs : list Z) : TopRun :=
  mkTopRun (TopRun_first_chunk_index bs) (TopRun_top bs).

Definition struct_of_TopRun (r : TopRun) : list Z := TopRun_new (first_chunk_index r) (run_top r).

Lemma length_4 {A} (l : list A) : length l = 4%nat -> exists a b c d, l = [a; b; c; d].
Proof. destruct l as [| a [| b [| c [| d [|]]]]]; naive_solver. Qed.

(** The sixteen bytes: the index, four bytes of padding, the top. *)
Lemma TopRun_new_bytes f t :
  TopRun_new f t = to_le_bytes 4 f ++ replicate 4 0 ++ to_le_bytes 8 t.
Proof.
  unfold TopRun_new, TopRun_set_top, TopRun_set_first_chunk_index, write_field, TopRun_default.
  destruct (length_4 (to_le_bytes 4 f) (length_to_le_bytes 4 f)) as (a & b & c & d & ->).
  cbn -[to_le_bytes]. by rewrite app_nil_r.
Qed.

Lemma TopRun_new_typed f t : bytes_n 16 (TopRun_new f t).
Proof.
  rewrite TopRun_new_bytes. split.
  - by rewrite !length_app, !length_to_le_bytes.
  - rewrite !Forall_app. repeat split; [apply to_le_bytes_u8 | | apply to_le_bytes_u8].
    by repeat constructor.
Qed.

Lemma read_TopRun_new r : TopRun_typed r -> read_TopRun (struct_of_TopRun r) = r.
Proof.
  destruct r as [f t]. intros [Hf Ht]. unfold struct_of_TopRun, read_TopRun. cbn in Hf, Ht.
  unfold TopRun_first_chunk_index, TopRun_top, read_field. rewrite TopRun_new_bytes.
  cbn [first_chunk_index run_top]. f_equal.
  - rewrite drop_0, take_app_le, take_ge by (rewrite length_to_le_bytes; lia).
    apply from_to_le_bytes. cbn. lia.
  - rewrite app_assoc, drop_app_ge, take_ge
      by (rewrite ?length_drop, ?length_app, !length_to_le_bytes; cbn; lia).
    rewrite length_app, length_to_le_bytes, length_replicate, drop_0.
    apply from_to_le_bytes. cbn. lia.
Qed.

Lemma read_TopRun_typed bs : bytes_n 16 bs -> TopRun_typed (read_TopRun bs).
Proof.
  intros [Hl Hb]. unfold TopRun_typed, read_TopRun, TopRun_first_chunk_index, TopRun_top, read_field.
  cbn [first_chunk_index run_top]. rewrite drop_0. split.
  - pose proof (from_le_bytes_range (take 4 bs) (Forall_take _ 4 _ Hb)) as Hr.
    rewrite length_take, Hl in Hr. cbn in *. lia.
  - pose proof (from_le_bytes_range (take 8 (drop 8 bs))) as Hr.
    rewrite length_take, length_drop, Hl in Hr. cbn in *.
    apply Hr, Forall_take, Forall_drop, Hb.
Qed.

(** [ChunkHash::new] and [WorkerId::new] keep the bytes given. *)
Lemma ChunkHash_new_bytes `{FlatBufferSafety} bs :
  length bs = 8%nat -> ChunkHash_new bs = bs /\ ChunkHash_bytes (ChunkHash_new bs) = Ok bs.
Proof.
  intros Hl. unfold ChunkHash_new, ChunkHash_bytes, ChunkHash_set_bytes.
  rewrite array_emplace by by rewrite Hl. auto using array_follow.
Qed.

Lemma WorkerId_new_bytes `{FlatBufferSafety} bs :
  length bs = 38%nat -> WorkerId_new bs = bs /\ WorkerId_peer_id (WorkerId_new bs) = Ok bs.
Proof.
  intros Hl. unfold WorkerId_new, WorkerId_peer_id, WorkerId_set_peer_id.
  rewrite array_emplace by by rewrite Hl. auto using array_follow.
Qed.

Section struct_facts.
Context `{FlatBufferGhost, !FlatBufferSafety, !FlatBufferCodec}.

Definition write_hashes (hs : list (list Z)) : comp FlatBufferBuilder Ub WIPOffset :=
  create_vector (ChunkHash_push <$> hs).

Definition write_tops (tops : list TopRun) : comp FlatBufferBuilder Ub WIPOffset :=
  create_vector ((fun r => TopRun_push (struct_of_TopRun r)) <$> tops).

Lemma struct_sound_n n : sound (mkFollow n (follow_cast_ref n) (in_buffer n)) (bytes_n n).
Proof. intros buf l. apply struct_sound. Qed.

Lemma DenP_struct n b bs : bytes_n n bs ->
  DenP (mkFollow n (follow_cast_ref n) (in_buffer n)) b (PStruct bs) (eq bs).
Proof.
  intros [<- Hb] b' r _ Ho. exists bs. split; [| done]. split; [done |].
  intros l Hl. by apply (struct_slot b').
Qed.

Lemma WorkerStatus_sound : sound WorkerStatus_Follow (scalar_ok I8).
Proof.
  intros buf l Hv. destruct (scalar_sound I8 buf l Hv) as (v & Hf & Hok). exists v.
  split; [| done]. cbn. by rewrite <- scalar_follow.
Qed.

Lemma DenP_status b v : scalar_ok I8 v -> DenP WorkerStatus_Follow b (PScalar I8 v) (eq v).
Proof.
  intros Hv b' r Hg Ho. exists v. split; [| done]. split; [done |]. intros l Hl.
  destruct (scalar_slot b' r I8 v l Ho Hv Hl) as [Hr Hf]. split; [done |].
  cbn. by rewrite <- scalar_follow.
Qed.

Lemma write_hashes_writer : writer write_hashes (Forall (bytes_n 8)) (Vector ChunkHash_Follow) eq.
Proof.
  eapply writer_mono; [apply (create_vector_writer ChunkHash_Follow ChunkHash_push _ eq) |].
  - intros h b. apply (DenP_struct 8).
  - intros xs vs. apply Forall2_eq.
Qed.

Lemma write_tops_writer : writer write_tops (Forall TopRun_typed) (Vector TopRun_Follow)
  (fun tops vs => Forall TopRun_typed tops /\ read_TopRun <$> vs = tops).
Proof.
  eapply writer_mono;
    [apply (create_vector_writer TopRun_Follow (fun r => TopRun_push (struct_of_TopRun r)) _
              (fun r bs => TopRun_typed r /\ bs = struct_of_TopRun r)) |].
  - intros r b Hr b' q Hg Ho.
    destruct (DenP_struct 16 b _ (TopRun_new_typed (first_chunk_index r) (run_top r)) b' q Hg Ho)
      as (v & Hs & <-). eauto.
  - intros xs vs Hv. induction Hv as [| r bs xs vs [Hr ->] _ [IHt IH]]; [done |].
    split; [by constructor |]. by rewrite fmap_cons, read_TopRun_new, IH.
Qed.

Lemma ok_tops vs : Forall (bytes_n 16) vs -> Forall TopRun_typed (read_TopRun <$> vs).
Proof. intros Hv. rewrite Forall_fmap. eapply Forall_impl; [done |]. apply read_TopRun_typed. Qed.
End struct_facts.

(** ** Tactics: writing a table and reading it back *)

#[export] Hint Resolve create_string_writer create_shared_string_writer write_scalars_writer
  write_strings_writer write_hashes_writer write_tops_writer write_tables_writer : writers.

#[export] Hint Extern 1 (sound WorkerId_Follow _) => apply (struct_sound_n 38) : sounds.
#[export] Hint Extern 1 (sound ChunkHash_Follow _) => apply (struct_sound_n 8) : sounds.
#[export] Hint Extern 1 (sound TopRun_Follow _) => apply (struct_sound_n 16) : sounds.
#[export] Hint Resolve scalar_sound str_sound vector_sound offset_sound WorkerStatus_sound : sounds.

(** Carry what was written so far over the step [Hg]. *)
Ltac lift_dens Hg :=
  repeat match goal with
  | H : Den _ ?b _ _ |- _ =>
    lazymatch type of Hg with grows b _ => apply (Den_grows _ _ _ _ _ Hg) in H end
  | H : DenO _ ?b _ _ _ |- _ =>
    lazymatch type of Hg with grows b _ => apply (DenO_grows _ _ _ _ _ _ Hg) in H end
  end.

Ltac write_step :=
  lazymatch goal with
  | |- wpf (cbind (write_opt ?w ?x) _) ?b _ =>
    eapply wpf_step;
      [eapply (write_opt_den w);
        [solve [eauto with writers] | first [eassumption | by destruct x] | eassumption] |]
  | |- wpf (cbind (?w ?x) _) ?b _ =>
    eapply wpf_step;
      [eapply (writer_run w); [solve [eauto with writers] | first [exact I | eassumption] | eassumption] |]
  end;
  let o := fresh "o" in let b' := fresh "b" in let Hg := fresh "Hg" in
  let Hb := fresh "Hb" in let Hd := fresh "Hd" in
  intros o b' Hg [Hb Hd]; lift_dens Hg.

(** Turn every slot of the written table into what its field reads. *)
Ltac fields_of Hobj Hg Hb r :=
  repeat match goal with
  | H : ?m !! ?vt = POffset <$> Some ?o, D : Den ?f ?b ?o ?P |- _ =>
    destruct (field_set _ b _ m vt (POffset o) P true None _ r Hobj H (DenP_offset f b o P D) Hg Hb)
      as (? & [? ?] & ?); clear H D
  | H : ?m !! ?vt = POffset <$> ?ow, D : DenO ?f ?b ?ow ?x ?P |- _ =>
    destruct (field_optional f b _ m vt ow x P _ r Hobj H D Hg Hb) as (? & [? ?] & ?); clear H D
  | H : ?m !! ?vt = unless_default (PScalar ?s ?v) (PScalar ?s ?d), T : scalar_ok ?s ?v |- _ =>
    destruct (field_default _ _ _ m vt s v d _ r Hobj H (DenP_scalar _ s v T) Hg Hb) as [? ?]; clear H
  | H : ?m !! ?vt = unless_default (WorkerStatus_push ?v) (WorkerStatus_push ?d),
    T : scalar_ok I8 ?v |- _ =>
    destruct (field_default _ _ _ m vt I8 v d _ r Hobj H (DenP_status _ v T) Hg Hb) as [? ?]; clear H
  | H : ?m !! ?vt = WorkerId_push <$> Some ?i, T : bytes_n 38 ?i |- _ =>
    destruct (field_set WorkerId_Follow _ _ m vt (PStruct i) (eq i) true None _ r Hobj H
                (DenP_struct 38 _ i T) Hg Hb) as (? & [? ?] & ?); clear H
  | H : ?m !! ?vt = PScalar ?s <$> ?x, T : from_option (scalar_ok ?s) True ?x |- _ =>
    destruct (field_opt_scalar _ _ m vt s x _ r Hobj H T Hg Hb) as [? ?]; clear H
  end;
  repeat match goal with
  | H : option_Forall2 eq _ _ |- _ => apply option_Forall2_eq in H
  | H : option_Forall2 (fun x t => _ = Ok x) _ _ |- _ => apply ropt_read in H
  | H : Forall TopRun_typed _ /\ _ |- _ => destruct H as [_ H]
  end; subst.

Ltac read_get :=
  first [eassumption | eapply get_unwrap_ok; eassumption].

Ltac write_table create unf :=
  repeat write_step;
  eapply wpf_mono; [apply create; eauto |];
  let o := fresh "o" in let b' := fresh "b" in let Hg := fresh "Hg" in let Hb := fresh "Hb" in
  let m := fresh "m" in let Hobj := fresh "Hobj" in let Hs := fresh "Hs" in
  intros o b' Hg (Hb & m & Hobj & Hs); lift_dens Hg;
  split; [exact Hb |]; eapply table_den; [reflexivity | exact Hobj |];
  let b2 := fresh "b" in let r := fresh "r" in let Hg2 := fresh "Hg" in let Hb2 := fresh "Hb" in
  let t := fresh "t" in let Hv := fresh "Hv" in
  intros b2 r Hg2 Hb2 t Hv; destruct_and? Hs; fields_of Hobj Hg2 Hb2 r;
  subst t; split; unf; cbn [run_verifier];
  [ eapply some_bind; [exact Hv |];
    repeat (eapply some_bind; [match goal with H : _ |- _ => apply H end |]); reflexivity
  | repeat (eapply rok_bind; [read_get |]) ].

(** A verified table is read by every accessor, to values of their types. *)
Ltac read_step :=
  eapply ok_bind;
  [ first
      [ eapply holds_required; eassumption
      | eapply holds_default; [eassumption | by vm_compute]
      | eapply holds_optional; eassumption
      | eapply ok_rmap; eassumption
      | eapply ok_ropt; [| eassumption];
        let Hp := fresh "Hp" in intros ? Hp; cbv beta in Hp;
        first [exact Hp | eapply ok_rmap; exact Hp] ]
  | intros ? ? ].

Ltac read_table unf :=
  let buf := fresh "buf" in let l := fresh "l" in let Hv := fresh "Hv" in let Ht := fresh "Ht" in
  intros buf l Hv; exists (buf, l); split; [reflexivity |];
  revert Hv; unf; cbn [run_verifier]; intros Hv;
  apply visit_table_inv in Hv as [Ht Hv];
  repeat (eapply visit_inv in Hv; [| solve [eauto with sounds] | exact Ht];
          let Hf := fresh "Hf" in destruct Hv as [Hf Hv]);
  repeat read_step;
  eexists; split; [reflexivity |]; split_and?; eauto using ok_tops.

(** ** The tables: the values of their types, how one is read and written *)

Section codec_defs.
Context `{FlatBufferOps}.

(** *** [FileUrl] *)

Definition FileUrl_typed (x : FileUrl) : Prop :=
  True.

Definition read_FileUrl (t : Table) : res Ub FileUrl :=
  filename_ ← FileUrl_filename t;
  url_ ← FileUrl_url t;
  Ok (mkFileUrl filename_ url_).

Definition write_FileUrl (x : FileUrl) : comp FlatBufferBuilder Ub WIPOffset := (
  filename_ <- create_string (fu_filename x) ;;
  url_ <- create_string (fu_url x) ;;
  FileUrl_create
    (mkFileUrlArgs (Some filename_) (Some url_)))%rust.

(** *** [Chunk] *)

Definition Chunk_typed (x : Chunk) : Prop :=
  scalar_ok U64 (ch_first_block x)
  /\ scalar_ok U32 (ch_size x)
  /\ from_option (scalar_ok U64) True (ch_last_block_timestamp x)
  /\ Forall FileUrl_typed (ch_files x)
  /\ Forall (scalar_ok U16) (ch_worker_indexes x).

Definition read_Chunk (t : Table) : res Ub Chunk :=
  first_block_ ← Chunk_first_block t;
  id_ ← Chunk_id t;
  dataset_id_ ← Chunk_dataset_id t;
  size_ ← Chunk_size t;
  last_block_hash_ ← Chunk_last_block_hash t;
  last_block_timestamp_ ← Chunk_last_block_timestamp t;
  dataset_base_url_ ← Chunk_dataset_base_url t;
  base_url_ ← Chunk_base_url t;
  files_ ← Chunk_files t;
  files_ ← rmap read_FileUrl files_;
  worker_indexes_ ← Chunk_worker_indexes t;
  Ok (mkChunk first_block_ id_ dataset_id_ size_ last_block_hash_ last_block_timestamp_
  dataset_base_url_ base_url_ files_ worker_indexes_).

Definition write_Chunk (x : Chunk) : comp FlatBufferBuilder Ub WIPOffset := (
  id_ <- create_string (ch_id x) ;;
  dataset_id_ <- create_shared_string (ch_dataset_id x) ;;
  last_block_hash_ <- write_opt create_string (ch_last_block_hash x) ;;
  dataset_base_url_ <- create_shared_string (ch_dataset_base_url x) ;;
  base_url_ <- create_string (ch_base_url x) ;;
  files_ <- write_vector write_FileUrl (ch_files x) ;;
  worker_indexes_ <- write_scalars U16 (ch_worker_indexes x) ;;
  Chunk_create
    (mkChunkArgs (ch_first_block x) (Some id_) (Some dataset_id_) (ch_size x) last_block_hash_
    (ch_last_block_timestamp x) (Some dataset_base_url_) (Some base_url_) (Some files_)
    (Some worker_indexes_)))%rust.

(** *** [Dataset] *)

Definition Dataset_typed (x : Dataset) : Prop :=
  Forall Chunk_typed (ld_chunks x)
  /\ scalar_ok U64 (ld_last_block x).

Definition read_Dataset (t : Table) : res Ub Dataset :=
  id_ ← Dataset_id t;
  chunks_ ← Dataset_chunks t;
  chunks_ ← rmap read_Chunk chunks_;
  last_block_ ← Dataset_last_block t;
  Ok (mkDataset id_ chunks_ last_block_).

Definition write_Dataset (x : Dataset) : comp FlatBufferBuilder Ub WIPOffset := (
  id_ <- create_shared_string (ld_id x) ;;
  chunks_ <- write_vector write_Chunk (ld_chunks x) ;;
  Dataset_create
    (mkDatasetArgs (Some id_) (Some chunks_) (ld_last_block x)))%rust.

(** *** [EncryptedHeaders] *)

Definition EncryptedHeaders_typed (x : EncryptedHeaders) : Prop :=
  Forall (scalar_ok U8) (identity x)
  /\ Forall (scalar_ok U8) (nonce x)
  /\ Forall (scalar_ok U8) (ciphertext x).

Definition read_EncryptedHeaders (t : Table) : res Ub EncryptedHeaders :=
  identity_ ← EncryptedHeaders_identity t;
  nonce_ ← EncryptedHeaders_nonce t;
  ciphertext_ ← EncryptedHeaders_ciphertext t;
  Ok (mkEncryptedHeaders identity_ nonce_ ciphertext_).

Definition write_EncryptedHeaders (x : EncryptedHeaders) : comp FlatBufferBuilder Ub WIPOffset := (
  identity_ <- write_scalars U8 (identity x) ;;
  nonce_ <- write_scalars U8 (nonce x) ;;
  ciphertext_ <- write_scalars U8 (ciphertext x) ;;
  EncryptedHeaders_create
    (mkEncryptedHeadersArgs (Some identity_) (Some nonce_) (Some ciphertext_)))%rust.

(** *** [WorkerEntry] *)

Definition WorkerEntry_typed (x : WorkerEntry) : Prop :=
  bytes_n 38 (we_worker_id x)
  /\ scalar_ok I8 (we_status x)
  /\ from_option (EncryptedHeaders_typed) True (we_encrypted_headers x).

Definition read_WorkerEntry (t : Table) : res Ub WorkerEntry :=
  worker_id_ ← WorkerEntry_worker_id t;
  status_ ← WorkerEntry_status t;
  encrypted_headers_ ← WorkerEntry_encrypted_headers t;
  encrypted_headers_ ← ropt read_EncryptedHeaders encrypted_headers_;
  Ok (mkWorkerEntry worker_id_ status_ encrypted_headers_).

Definition write_WorkerEntry (x : WorkerEntry) : comp FlatBufferBuilder Ub WIPOffset := (
  encrypted_headers_ <- write_opt write_EncryptedHeaders (we_encrypted_headers x) ;;
  WorkerEntry_create
    (mkWorkerEntryArgs (Some (we_worker_id x)) (we_status x) encrypted_headers_))%rust.

(** *** [Assignment] *)

Definition Assignment_typed (x : Assignment) : Prop :=
  Forall Dataset_typed (as_datasets x)
  /\ Forall WorkerEntry_typed (as_workers x).

Definition read_Assignment (t : Table) : res Ub Assignment :=
  datasets_ ← Assignment_datasets t;
  datasets_ ← rmap read_Dataset datasets_;
  workers_ ← Assignment_workers t;
  workers_ ← rmap read_WorkerEntry workers_;
  Ok (mkAssignment datasets_ workers_).

Definition write_Assignment (x : Assignment) : comp FlatBufferBuilder Ub WIPOffset := (
  datasets_ <- write_vector write_Dataset (as_datasets x) ;;
  workers_ <- write_vector write_WorkerEntry (as_workers x) ;;
  Assignment_create
    (mkAssignmentArgs (Some datasets_) (Some workers_)))%rust.
End codec_defs.

(** ** What is written is read back, and what is verified can be read *)

Section codec_facts.
Context `{FlatBufferGhost, !FlatBufferSafety, !FlatBufferCodec}.

Lemma write_FileUrl_writer :
  writer write_FileUrl FileUrl_typed FileUrl_Follow (fun x t => read_FileUrl t = Ok x).
Proof.
  intros x b Hx Hb. unfold FileUrl_typed in Hx. destruct_and? Hx. unfold write_FileUrl.
  write_table FileUrl_create_ok ltac:(unfold FileUrl_Follow, FileUrl_run_verifier, read_FileUrl).
  by destruct x.
Qed.

Lemma FileUrl_sound :
  sound FileUrl_Follow (fun t => exists x, read_FileUrl t = Ok x /\ FileUrl_typed x).
Proof. read_table ltac:(unfold FileUrl_Follow, FileUrl_run_verifier, read_FileUrl, FileUrl_typed). Qed.

#[local] Hint Resolve write_FileUrl_writer : writers.
#[local] Hint Resolve FileUrl_sound : sounds.

Lemma write_Chunk_writer :
  writer write_Chunk Chunk_typed Chunk_Follow (fun x t => read_Chunk t = Ok x).
Proof.
  intros x b Hx Hb. unfold Chunk_typed in Hx. destruct_and? Hx. unfold write_Chunk.
  write_table Chunk_create_ok ltac:(unfold Chunk_Follow, Chunk_run_verifier, read_Chunk).
  by destruct x.
Qed.

Lemma Chunk_sound :
  sound Chunk_Follow (fun t => exists x, read_Chunk t = Ok x /\ Chunk_typed x).
Proof. read_table ltac:(unfold Chunk_Follow, Chunk_run_verifier, read_Chunk, Chunk_typed). Qed.

#[local] Hint Resolve write_Chunk_writer : writers.
#[local] Hint Resolve Chunk_sound : sounds.

Lemma write_Dataset_writer :
  writer write_Dataset Dataset_typed Dataset_Follow (fun x t => read_Dataset t = Ok x).
Proof.
  intros x b Hx Hb. unfold Dataset_typed in Hx. destruct_and? Hx. unfold write_Dataset.
  write_table Dataset_create_ok ltac:(unfold Dataset_Follow, Dataset_run_verifier, read_Dataset).
  by destruct x.
Qed.

Lemma Dataset_sound :
  sound Dataset_Follow (fun t => exists x, read_Dataset t = Ok x /\ Dataset_typed x).
Proof. read_table ltac:(unfold Dataset_Follow, Dataset_run_verifier, read_Dataset, Dataset_typed). Qed.

#[local] Hint Resolve write_Dataset_writer : writers.
#[local] Hint Resolve Dataset_sound : sounds.

Lemma write_EncryptedHeaders_writer :
  writer write_EncryptedHeaders EncryptedHeaders_typed EncryptedHeaders_Follow (fun x t => read_EncryptedHeaders t = Ok x).
Proof.
  intros x b Hx Hb. unfold EncryptedHeaders_typed in Hx. destruct_and? Hx. unfold write_EncryptedHeaders.
  write_table EncryptedHeaders_create_ok ltac:(unfold EncryptedHeaders_Follow, EncryptedHeaders_run_verifier, read_EncryptedHeaders).
  by destruct x.
Qed.

Lemma EncryptedHeaders_sound :
  sound EncryptedHeaders_Follow (fun t => exists x, read_EncryptedHeaders t = Ok x /\ EncryptedHeaders_typed x).
Proof. read_table ltac:(unfold EncryptedHeaders_Follow, EncryptedHeaders_run_verifier, read_EncryptedHeaders, EncryptedHeaders_typed). Qed.

#[local] Hint Resolve write_EncryptedHeaders_writer : writers.
#[local] Hint Resolve EncryptedHeaders_sound : sounds.

Lemma write_WorkerEntry_writer :
  writer write_WorkerEntry WorkerEntry_typed WorkerEntry_Follow (fun x t => read_WorkerEntry t = Ok x).
Proof.
  intros x b Hx Hb. unfold WorkerEntry_typed in Hx. destruct_and? Hx. unfold write_WorkerEntry.
  write_table WorkerEntry_create_ok ltac:(unfold WorkerEntry_Follow, WorkerEntry_run_verifier, read_WorkerEntry).
  by destruct x.
Qed.

Lemma WorkerEntry_sound :
  sound WorkerEntry_Follow (fun t => exists x, read_WorkerEntry t = Ok x /\ WorkerEntry_typed x).
Proof. read_table ltac:(unfold WorkerEntry_Follow, WorkerEntry_run_verifier, read_WorkerEntry, WorkerEntry_typed). Qed.

#[local] Hint Resolve write_WorkerEntry_writer : writers.
#[local] Hint Resolve WorkerEntry_sound : sounds.

Lemma write_Assignment_writer :
  writer write_Assignment Assignment_typed Assignment_Follow (fun x t => read_Assignment t = Ok x).
Proof.
  intros x b Hx Hb. unfold Assignment_typed in Hx. destruct_and? Hx. unfold write_Assignment.
  write_table Assignment_create_ok ltac:(unfold Assignment_Follow, Assignment_run_verifier, read_Assignment).
  by destruct x.
Qed.

Lemma Assignment_sound :
  sound Assignment_Follow (fun t => exists x, read_Assignment t = Ok x /\ Assignment_typed x).
Proof. read_table ltac:(unfold Assignment_Follow, Assignment_run_verifier, read_Assignment, Assignment_typed). Qed.

#[local] Hint Resolve write_Assignment_writer : writers.
#[local] Hint Resolve Assignment_sound : sounds.
End codec_facts.

#[export] Hint Resolve write_FileUrl_writer write_Chunk_writer write_Dataset_writer write_EncryptedHeaders_writer
  write_WorkerEntry_writer write_Assignment_writer : writers.
#[export] Hint Resolve FileUrl_sound Chunk_sound Dataset_sound EncryptedHeaders_sound WorkerEntry_sound
  Assignment_sound : sounds.
