(* ===== verification/WorkerCodec.v ===== *)
(** * Reading and writing the tables of worker_assignment.fbs

    In the manner of [AssignmentCodec]; the children of a dataset are written
    in the order of [emit_dataset] in builder.rs. *)

From S2P Require Import Prelude RustStd AssignmentFb WorkerBuilder FlatBuffers FlatTheory AssignmentGen WorkerGen AssignmentCodec.
From Stdlib Require Import ZArith Lia Ascii String.
From stdpp Require Import base sets strings gmap sorting numbers list.

Open Scope Z_scope.

(** ** The tables: the values of their types, how one is read and written *)

Section codec_defs.
Context `{FlatBufferOps}.

(** *** [TableRoster] *)

Definition TableRoster_typed (x : TableRoster) : Prop :=
  scalar_ok U32 (tr_write_schema_id x).

Definition read_TableRoster (t : Table) : res Ub TableRoster :=
  write_schema_id_ ← TableRoster_write_schema_id t;
  tables_ ← TableRoster_tables t;
  Ok (mkTableRoster write_schema_id_ tables_).

Definition write_TableRoster (x : TableRoster) : comp FlatBufferBuilder Ub WIPOffset := (
  tables_ <- write_vector create_shared_string (tr_tables x) ;;
  TableRoster_create
    (mkTableRosterArgs (tr_write_schema_id x) (Some tables_)))%rust.

(** *** [GenerationEntry] *)

Definition GenerationEntry_typed (x : GenerationEntry) : Prop :=
  scalar_ok U32 (ge_version x).

Definition read_GenerationEntry (t : Table) : res Ub GenerationEntry :=
  version_ ← GenerationEntry_version t;
  base_url_ ← GenerationEntry_base_url t;
  Ok (mkGenerationEntry version_ base_url_).

Definition write_GenerationEntry (x : GenerationEntry) : comp FlatBufferBuilder Ub WIPOffset := (
  base_url_ <- create_shared_string (ge_base_url x) ;;
  GenerationEntry_create
    (mkGenerationEntryArgs (ge_version x) (Some base_url_)))%rust.

(** *** [WorkerAssignmentDataset] *)

Definition WorkerAssignmentDataset_typed (x : WorkerAssignmentDataset) : Prop :=
  scalar_ok U64 (wd_last_block x)
  /\ from_option (Forall GenerationEntry_typed) True (wd_generations x)
  /\ Forall (scalar_ok U64) (wd_first_blocks x)
  /\ Forall (scalar_ok U32) (wd_block_deltas x)
  /\ Forall (bytes_n 8) (wd_hashes x)
  /\ Forall TopRun_typed (wd_tops x)
  /\ Forall (scalar_ok U32) (wd_sizes x)
  /\ Forall (scalar_ok U32) (wd_write_schema_ids x)
  /\ from_option (Forall (scalar_ok U32)) True (wd_tables_present_offsets x)
  /\ from_option (Forall (scalar_ok U8)) True (wd_tables_present x)
  /\ from_option (Forall (scalar_ok U32)) True (wd_versions x)
  /\ Forall (scalar_ok U32) (wd_worker_offsets x)
  /\ Forall (scalar_ok U16) (wd_worker_indexes x).

Definition read_WorkerAssignmentDataset (t : Table) : res Ub WorkerAssignmentDataset :=
  id_ ← WorkerAssignmentDataset_id t;
  last_block_ ← WorkerAssignmentDataset_last_block t;
  base_url_ ← WorkerAssignmentDataset_base_url t;
  generations_ ← WorkerAssignmentDataset_generations t;
  generations_ ← ropt (rmap read_GenerationEntry) generations_;
  first_blocks_ ← WorkerAssignmentDataset_first_blocks t;
  block_deltas_ ← WorkerAssignmentDataset_block_deltas t;
  hashes_ ← WorkerAssignmentDataset_hashes t;
  tops_ ← WorkerAssignmentDataset_tops t;
  sizes_ ← WorkerAssignmentDataset_sizes t;
  write_schema_ids_ ← WorkerAssignmentDataset_write_schema_ids t;
  tables_present_offsets_ ← WorkerAssignmentDataset_tables_present_offsets t;
  tables_present_ ← WorkerAssignmentDataset_tables_present t;
  versions_ ← WorkerAssignmentDataset_versions t;
  worker_offsets_ ← WorkerAssignmentDataset_worker_offsets t;
  worker_indexes_ ← WorkerAssignmentDataset_worker_indexes t;
  Ok (mkWorkerAssignmentDataset id_ last_block_ base_url_ generations_ first_blocks_
  block_deltas_ hashes_ (read_TopRun <$> tops_) sizes_ write_schema_ids_ tables_present_offsets_
  tables_present_ versions_ worker_offsets_ worker_indexes_).

Definition write_WorkerAssignmentDataset (x : WorkerAssignmentDataset) : comp FlatBufferBuilder Ub WIPOffset := (
  id_ <- create_shared_string (wd_id x) ;;
  base_url_ <- create_shared_string (wd_base_url x) ;;
  generations_ <- write_opt (write_vector write_GenerationEntry) (wd_generations x) ;;
  first_blocks_ <- write_scalars U64 (wd_first_blocks x) ;;
  block_deltas_ <- write_scalars U32 (wd_block_deltas x) ;;
  hashes_ <- write_hashes (wd_hashes x) ;;
  tops_ <- write_tops (wd_tops x) ;;
  sizes_ <- write_scalars U32 (wd_sizes x) ;;
  write_schema_ids_ <- write_scalars U32 (wd_write_schema_ids x) ;;
  tables_present_offsets_ <- write_opt (write_scalars U32) (wd_tables_present_offsets x) ;;
  tables_present_ <- write_opt (write_scalars U8) (wd_tables_present x) ;;
  versions_ <- write_opt (write_scalars U32) (wd_versions x) ;;
  worker_offsets_ <- write_scalars U32 (wd_worker_offsets x) ;;
  worker_indexes_ <- write_scalars U16 (wd_worker_indexes x) ;;
  WorkerAssignmentDataset_create
    (mkWorkerAssignmentDatasetArgs (Some id_) (wd_last_block x) (Some base_url_) generations_
    (Some first_blocks_) (Some block_deltas_) (Some hashes_) (Some tops_) (Some sizes_)
    (Some write_schema_ids_) tables_present_offsets_ tables_present_ versions_
    (Some worker_offsets_) (Some worker_indexes_)))%rust.

(** *** [WorkerAssignment] *)

Definition WorkerAssignment_typed (x : WorkerAssignment) : Prop :=
  Forall WorkerAssignmentDataset_typed (wa_datasets x)
  /\ Forall WorkerEntry_typed (wa_workers x)
  /\ Forall TableRoster_typed (wa_schemas x).

Definition read_WorkerAssignment (t : Table) : res Ub WorkerAssignment :=
  datasets_ ← WorkerAssignment_datasets t;
  datasets_ ← rmap read_WorkerAssignmentDataset datasets_;
  workers_ ← WorkerAssignment_workers t;
  workers_ ← rmap read_WorkerEntry workers_;
  schemas_ ← WorkerAssignment_schemas t;
  schemas_ ← rmap read_TableRoster schemas_;
  Ok (mkWorkerAssignment datasets_ workers_ schemas_).

Definition write_WorkerAssignment (x : WorkerAssignment) : comp FlatBufferBuilder Ub WIPOffset := (
  schemas_ <- write_vector write_TableRoster (wa_schemas x) ;;
  datasets_ <- write_vector write_WorkerAssignmentDataset (wa_datasets x) ;;
  workers_ <- write_vector write_WorkerEntry (wa_workers x) ;;
  WorkerAssignment_create
    (mkWorkerAssignmentArgs (Some datasets_) (Some workers_) (Some schemas_)))%rust.
End codec_defs.

(** ** What is written is read back, and what is verified can be read *)

Section codec_facts.
Context `{FlatBufferGhost, !FlatBufferSafety, !FlatBufferCodec}.

Lemma write_TableRoster_writer :
  writer write_TableRoster TableRoster_typed TableRoster_Follow (fun x t => read_TableRoster t = Ok x).
Proof.
  intros x b Hx Hb. unfold TableRoster_typed in Hx. destruct_and? Hx. unfold write_TableRoster.
  write_table TableRoster_create_ok ltac:(unfold TableRoster_Follow, TableRoster_run_verifier, read_TableRoster).
  by destruct x.
Qed.

Lemma TableRoster_sound :
  sound TableRoster_Follow (fun t => exists x, read_TableRoster t = Ok x /\ TableRoster_typed x).
Proof. read_table ltac:(unfold TableRoster_Follow, TableRoster_run_verifier, read_TableRoster, TableRoster_typed). Qed.

#[local] Hint Resolve write_TableRoster_writer : writers.
#[local] Hint Resolve TableRoster_sound : sounds.

Lemma write_GenerationEntry_writer :
  writer write_GenerationEntry GenerationEntry_typed GenerationEntry_Follow (fun x t => read_GenerationEntry t = Ok x).
Proof.
  intros x b Hx Hb. unfold GenerationEntry_typed in Hx. destruct_and? Hx. unfold write_GenerationEntry.
  write_table GenerationEntry_create_ok ltac:(unfold GenerationEntry_Follow, GenerationEntry_run_verifier, read_GenerationEntry).
  by destruct x.
Qed.

Lemma GenerationEntry_sound :
  sound GenerationEntry_Follow (fun t => exists x, read_GenerationEntry t = Ok x /\ GenerationEntry_typed x).
Proof. read_table ltac:(unfold GenerationEntry_Follow, GenerationEntry_run_verifier, read_GenerationEntry, GenerationEntry_typed). Qed.

#[local] Hint Resolve write_GenerationEntry_writer : writers.
#[local] Hint Resolve GenerationEntry_sound : sounds.

Lemma write_WorkerAssignmentDataset_writer :
  writer write_WorkerAssignmentDataset WorkerAssignmentDataset_typed WorkerAssignmentDataset_Follow (fun x t => read_WorkerAssignmentDataset t = Ok x).
Proof.
  intros x b Hx Hb. unfold WorkerAssignmentDataset_typed in Hx. destruct_and? Hx. unfold write_WorkerAssignmentDataset.
  write_table WorkerAssignmentDataset_create_ok ltac:(unfold WorkerAssignmentDataset_Follow, WorkerAssignmentDataset_run_verifier, read_WorkerAssignmentDataset).
  repeat match goal with H : read_TopRun <$> _ = _ |- _ => rewrite H end.
  by destruct x.
Qed.

Lemma WorkerAssignmentDataset_sound :
  sound WorkerAssignmentDataset_Follow (fun t => exists x, read_WorkerAssignmentDataset t = Ok x /\ WorkerAssignmentDataset_typed x).
Proof. read_table ltac:(unfold WorkerAssignmentDataset_Follow, WorkerAssignmentDataset_run_verifier, read_WorkerAssignmentDataset, WorkerAssignmentDataset_typed). Qed.

#[local] Hint Resolve write_WorkerAssignmentDataset_writer : writers.
#[local] Hint Resolve WorkerAssignmentDataset_sound : sounds.

Lemma write_WorkerAssignment_writer :
  writer write_WorkerAssignment WorkerAssignment_typed WorkerAssignment_Follow (fun x t => read_WorkerAssignment t = Ok x).
Proof.
  intros x b Hx Hb. unfold WorkerAssignment_typed in Hx. destruct_and? Hx. unfold write_WorkerAssignment.
  write_table WorkerAssignment_create_ok ltac:(unfold WorkerAssignment_Follow, WorkerAssignment_run_verifier, read_WorkerAssignment).
  by destruct x.
Qed.

Lemma WorkerAssignment_sound :
  sound WorkerAssignment_Follow (fun t => exists x, read_WorkerAssignment t = Ok x /\ WorkerAssignment_typed x).
Proof. read_table ltac:(unfold WorkerAssignment_Follow, WorkerAssignment_run_verifier, read_WorkerAssignment, WorkerAssignment_typed). Qed.

#[local] Hint Resolve write_WorkerAssignment_writer : writers.
#[local] Hint Resolve WorkerAssignment_sound : sounds.
End codec_facts.

#[export] Hint Resolve write_TableRoster_writer write_GenerationEntry_writer write_WorkerAssignmentDataset_writer
  write_WorkerAssignment_writer : writers.
#[export] Hint Resolve TableRoster_sound GenerationEntry_sound WorkerAssignmentDataset_sound WorkerAssignment_sound : sounds.
