(* ===== verification/PortalCodec.v ===== *)
(** * Reading and writing the tables of portal_assignment.fbs

    In the manner of [AssignmentCodec]. *)

From S2P Require Import Prelude RustStd AssignmentFb PortalAssignment FlatBuffers FlatTheory AssignmentGen PortalGen AssignmentCodec.
From Stdlib Require Import ZArith Lia Ascii String.
From stdpp Require Import base sets strings gmap sorting numbers list.

Open Scope Z_scope.

(** ** The tables: the values of their types, how one is read and written *)

Section codec_defs.
Context `{FlatBufferOps}.

(** *** [PortalEntry] *)

Definition PortalEntry_typed (x : PortalEntry) : Prop :=
  bytes_n 38 (pe_worker_id x)
  /\ scalar_ok I8 (pe_status x).

Definition read_PortalEntry (t : Table) : res Ub PortalEntry :=
  worker_id_ ← PortalEntry_worker_id t;
  status_ ← PortalEntry_status t;
  Ok (mkPortalEntry worker_id_ status_).

Definition write_PortalEntry (x : PortalEntry) : comp FlatBufferBuilder Ub WIPOffset := (
  PortalEntry_create
    (mkPortalEntryArgs (Some (pe_worker_id x)) (pe_status x)))%rust.

(** *** [PortalAssignmentDataset] *)

Definition PortalAssignmentDataset_typed (x : PortalAssignmentDataset) : Prop :=
  scalar_ok U64 (pd_last_block x)
  /\ scalar_ok U32 (pd_read_schema_id x)
  /\ Forall (scalar_ok U64) (pd_first_blocks x)
  /\ Forall (scalar_ok U32) (pd_block_deltas x)
  /\ Forall (bytes_n 8) (pd_hashes x)
  /\ Forall TopRun_typed (pd_tops x)
  /\ Forall (scalar_ok U64) (pd_timestamps x)
  /\ from_option (Forall (scalar_ok U32)) True (pd_versions x)
  /\ Forall (scalar_ok U32) (pd_worker_offsets x)
  /\ Forall (scalar_ok U16) (pd_worker_indexes x).

Definition read_PortalAssignmentDataset (t : Table) : res Ub PortalAssignmentDataset :=
  id_ ← PortalAssignmentDataset_id t;
  last_block_ ← PortalAssignmentDataset_last_block t;
  read_schema_id_ ← PortalAssignmentDataset_read_schema_id t;
  last_block_hash_ ← PortalAssignmentDataset_last_block_hash t;
  first_blocks_ ← PortalAssignmentDataset_first_blocks t;
  block_deltas_ ← PortalAssignmentDataset_block_deltas t;
  hashes_ ← PortalAssignmentDataset_hashes t;
  tops_ ← PortalAssignmentDataset_tops t;
  timestamps_ ← PortalAssignmentDataset_timestamps t;
  versions_ ← PortalAssignmentDataset_versions t;
  worker_offsets_ ← PortalAssignmentDataset_worker_offsets t;
  worker_indexes_ ← PortalAssignmentDataset_worker_indexes t;
  Ok (mkPortalAssignmentDataset id_ last_block_ read_schema_id_ last_block_hash_ first_blocks_
  block_deltas_ hashes_ (read_TopRun <$> tops_) timestamps_ versions_ worker_offsets_
  worker_indexes_).

Definition write_PortalAssignmentDataset (x : PortalAssignmentDataset) : comp FlatBufferBuilder Ub WIPOffset := (
  id_ <- create_shared_string (pd_id x) ;;
  last_block_hash_ <- write_opt create_string (pd_last_block_hash x) ;;
  first_blocks_ <- write_scalars U64 (pd_first_blocks x) ;;
  block_deltas_ <- write_scalars U32 (pd_block_deltas x) ;;
  hashes_ <- write_hashes (pd_hashes x) ;;
  tops_ <- write_tops (pd_tops x) ;;
  timestamps_ <- write_scalars U64 (pd_timestamps x) ;;
  versions_ <- write_opt (write_scalars U32) (pd_versions x) ;;
  worker_offsets_ <- write_scalars U32 (pd_worker_offsets x) ;;
  worker_indexes_ <- write_scalars U16 (pd_worker_indexes x) ;;
  PortalAssignmentDataset_create
    (mkPortalAssignmentDatasetArgs (Some id_) (pd_last_block x) (pd_read_schema_id x)
    (Some first_blocks_) (Some block_deltas_) (Some hashes_) (Some tops_) (Some timestamps_)
    versions_ (Some worker_offsets_) (Some worker_indexes_) last_block_hash_))%rust.

(** *** [PortalAssignment] *)

Definition PortalAssignment_typed (x : PortalAssignment) : Prop :=
  Forall PortalAssignmentDataset_typed (pa_datasets x)
  /\ Forall PortalEntry_typed (pa_workers x).

Definition read_PortalAssignment (t : Table) : res Ub PortalAssignment :=
  datasets_ ← PortalAssignment_datasets t;
  datasets_ ← rmap read_PortalAssignmentDataset datasets_;
  workers_ ← PortalAssignment_workers t;
  workers_ ← rmap read_PortalEntry workers_;
  Ok (mkPortalAssignment datasets_ workers_).

Definition write_PortalAssignment (x : PortalAssignment) : comp FlatBufferBuilder Ub WIPOffset := (
  datasets_ <- write_vector write_PortalAssignmentDataset (pa_datasets x) ;;
  workers_ <- write_vector write_PortalEntry (pa_workers x) ;;
  PortalAssignment_create
    (mkPortalAssignmentArgs (Some datasets_) (Some workers_)))%rust.
End codec_defs.

(** ** What is written is read back, and what is verified can be read *)

Section codec_facts.
Context `{FlatBufferGhost, !FlatBufferSafety, !FlatBufferCodec}.

Lemma write_PortalEntry_writer :
  writer write_PortalEntry PortalEntry_typed PortalEntry_Follow (fun x t => read_PortalEntry t = Ok x).
Proof.
  intros x b Hx Hb. unfold PortalEntry_typed in Hx. destruct_and? Hx. unfold write_PortalEntry.
  write_table PortalEntry_create_ok ltac:(unfold PortalEntry_Follow, PortalEntry_run_verifier, read_PortalEntry).
  by destruct x.
Qed.

Lemma PortalEntry_sound :
  sound PortalEntry_Follow (fun t => exists x, read_PortalEntry t = Ok x /\ PortalEntry_typed x).
Proof. read_table ltac:(unfold PortalEntry_Follow, PortalEntry_run_verifier, read_PortalEntry, PortalEntry_typed). Qed.

#[local] Hint Resolve write_PortalEntry_writer : writers.
#[local] Hint Resolve PortalEntry_sound : sounds.

Lemma write_PortalAssignmentDataset_writer :
  writer write_PortalAssignmentDataset PortalAssignmentDataset_typed PortalAssignmentDataset_Follow (fun x t => read_PortalAssignmentDataset t = Ok x).
Proof.
  intros x b Hx Hb. unfold PortalAssignmentDataset_typed in Hx. destruct_and? Hx. unfold write_PortalAssignmentDataset.
  write_table PortalAssignmentDataset_create_ok ltac:(unfold PortalAssignmentDataset_Follow, PortalAssignmentDataset_run_verifier, read_PortalAssignmentDataset).
  repeat match goal with H : read_TopRun <$> _ = _ |- _ => rewrite H end.
  by destruct x.
Qed.

Lemma PortalAssignmentDataset_sound :
  sound PortalAssignmentDataset_Follow (fun t => exists x, read_PortalAssignmentDataset t = Ok x /\ PortalAssignmentDataset_typed x).
Proof. read_table ltac:(unfold PortalAssignmentDataset_Follow, PortalAssignmentDataset_run_verifier, read_PortalAssignmentDataset, PortalAssignmentDataset_typed). Qed.

#[local] Hint Resolve write_PortalAssignmentDataset_writer : writers.
#[local] Hint Resolve PortalAssignmentDataset_sound : sounds.

Lemma write_PortalAssignment_writer :
  writer write_PortalAssignment PortalAssignment_typed PortalAssignment_Follow (fun x t => read_PortalAssignment t = Ok x).
Proof.
  intros x b Hx Hb. unfold PortalAssignment_typed in Hx. destruct_and? Hx. unfold write_PortalAssignment.
  write_table PortalAssignment_create_ok ltac:(unfold PortalAssignment_Follow, PortalAssignment_run_verifier, read_PortalAssignment).
  by destruct x.
Qed.

Lemma PortalAssignment_sound :
  sound PortalAssignment_Follow (fun t => exists x, read_PortalAssignment t = Ok x /\ PortalAssignment_typed x).
Proof. read_table ltac:(unfold PortalAssignment_Follow, PortalAssignment_run_verifier, read_PortalAssignment, PortalAssignment_typed). Qed.

#[local] Hint Resolve write_PortalAssignment_writer : writers.
#[local] Hint Resolve PortalAssignment_sound : sounds.
End codec_facts.

#[export] Hint Resolve write_PortalEntry_writer write_PortalAssignmentDataset_writer write_PortalAssignment_writer : writers.
#[export] Hint Resolve PortalEntry_sound PortalAssignmentDataset_sound PortalAssignment_sound : sounds.
