(* ===== verification/WireCodec.v ===== *)
(** * The wire: the generated code as the codec of the assignments

    [Flatbuffer] of [AssignmentFb] is what the builders and readers use of
    serialisation.  Here it is implemented for the three root tables by the
    generated code: [fb_finish] writes the tree with the generated [create]
    functions into a fresh builder and finishes it, as the [finish] methods of
    builder.rs do, and [fb_root] runs the generated verifier with the options
    of reader.rs and reads every field through the generated accessors.

    A buffer is finished from any builder that has written at least the tree:
    the order in which builder.rs interleaves its writes, and the strings it
    shares, make no difference ([Den] in [FlatTheory]). *)

From S2P Require Import Prelude RustStd AssignmentFb WorkerBuilder PortalAssignment LegacyAssignment.
From S2P Require Import FlatBuffers FlatTheory AssignmentGen WorkerGen PortalGen.
From S2P Require Import AssignmentCodec WorkerCodec PortalCodec.
From Stdlib Require Import ZArith Lia Ascii String.
From stdpp Require Import base sets strings gmap sorting numbers list.

Open Scope Z_scope.

Section wire.
Context `{FlatBufferGhost}.

(** The options every [from_owned] of reader.rs passes. *)
Definition reader_opts : VerifierOptions :=
  mkVerifierOptions (max_depth default_opts) 1000000000000 (Z.shiftl 1 40)
    (ignore_missing_null_terminator default_opts).

(** Write the tree into a fresh builder and finish it. *)
Definition finish_with {T} (write : T -> comp FlatBufferBuilder Ub WIPOffset)
    (finish : FlatBufferBuilder -> WIPOffset -> list Z) (t : T) : res Ub (list Z) :=
  match write t fbb_new with
  | (Ok root, fbb) => Ok (finish fbb root)
  | (Err e, _) => Err e
  | (Panic, _) => Panic
  end.

(** Verify the root and read it. *)
Definition root_with {T} (root_as : VerifierOptions -> list Z -> option Table)
    (read : Table -> res Ub T) (buf : list Z) : option (res Ub T) :=
  t ← root_as reader_opts buf; Some (read t).

Definition ok_bytes (r : res Ub (list Z)) : list Z := match r with Ok l => l | _ => [] end.
Definition ok_value {T} (r : option (res Ub T)) : option T :=
  match r with Some (Ok t) => Some t | _ => None end.

Definition wire {T} (typed : T -> Prop) (write : T -> comp FlatBufferBuilder Ub WIPOffset)
    (finish : FlatBufferBuilder -> WIPOffset -> list Z)
    (root_as : VerifierOptions -> list Z -> option Table) (read : Table -> res Ub T)
    : Flatbuffer T := {|
  fb_typed t := typed t /\ within reader_opts (ok_bytes (finish_with write finish t));
  fb_finish t := ok_bytes (finish_with write finish t);
  fb_root buf := ok_value (root_with root_as read buf) |}.

#[global] Instance worker_wire : Flatbuffer WorkerAssignment :=
  wire WorkerAssignment_typed write_WorkerAssignment finish_worker_assignment_buffer
    root_as_worker_assignment_with_opts read_WorkerAssignment.

#[global] Instance portal_wire : Flatbuffer PortalAssignment :=
  wire PortalAssignment_typed write_PortalAssignment finish_portal_assignment_buffer
    root_as_portal_assignment_with_opts read_PortalAssignment.

#[global] Instance legacy_wire : Flatbuffer Assignment :=
  wire Assignment_typed write_Assignment finish_assignment_buffer
    root_as_assignment_with_opts read_Assignment.

(** [from_owned_unchecked]: neither the verifier nor the column checks are run.
    As for the verified reader, the fields are read at once, where the code reads
    each when it is asked for. *)
Definition legacy_from_owned_unchecked (buf : list Z) : res Ub Assignment :=
  reader ← root_as_assignment_unchecked buf; read_Assignment reader.

Definition worker_from_owned_unchecked (buf : list Z) : res Ub WorkerAssignment :=
  reader ← root_unchecked WorkerAssignment_Follow buf; read_WorkerAssignment reader.

Definition portal_from_owned_unchecked (buf : list Z) : res Ub PortalAssignment :=
  reader ← root_unchecked PortalAssignment_Follow buf; read_PortalAssignment reader.
End wire.

(** ** The laws *)

Section wire_laws.
Context `{FlatBufferGhost, !FlatBufferSafety, !FlatBufferCodec}.

(** A tree of typed values is written without a panic, and verifying the
    finished buffer and reading its root gives the tree back. *)
Lemma finish_root {T} (typed : T -> Prop) write (f : Follow Table) (read : Table -> res Ub T) t :
  writer write typed f (fun x h => read h = Ok x) -> typed t ->
  exists buf, finish_with write (fun fbb root => fbb_finish root fbb) t = Ok buf
  /\ (within reader_opts buf ->
      root_with (fun opts => root_with_opts opts f) read buf = Some (Ok t)).
Proof.
  intros Hw Ht. destruct (Hw t fbb_new Ht new_closed) as (o & b & Hr & _ & Hb & Hd).
  unfold finish_with. rewrite Hr. eexists. split; [reflexivity |]. intros Hin.
  destruct (Hd b o ltac:(done) Hb) as (h & Hh & Hread). unfold root_with.
  rewrite (root_reads reader_opts f b o h Hb Hin Hh). cbn. by rewrite Hread.
Qed.

(** Whatever the bytes: what passes the verifier is read, to typed values. *)
Lemma root_read {T} (typed : T -> Prop) (f : Follow Table) (read : Table -> res Ub T) buf r :
  sound f (fun h => exists t, read h = Ok t /\ typed t) ->
  root_with (fun opts => root_with_opts opts f) read buf = Some r ->
  exists t, r = Ok t /\ typed t.
Proof.
  intros Hf. unfold root_with. destruct (root_with_opts _ f buf) as [h |] eqn:Hh; [| done].
  cbn. intros [= <-]. destruct (root_sound _ f buf h Hh) as (l & Hv & Hl & _).
  destruct (Hf buf l Hv) as (h' & Hl' & t & Ht & Hty).
  rewrite Hl in Hl'. injection Hl' as <-. by exists t.
Qed.

(** Without the verifier, the root of what it accepts is the same. *)
Lemma root_unchecked_agrees {T} (f : Follow Table) (read : Table -> res Ub T) buf t :
  ok_value (root_with (fun opts => root_with_opts opts f) read buf) = Some t ->
  (root_unchecked f buf ≫= read) = Ok t.
Proof.
  unfold root_with. destruct (root_with_opts _ f buf) as [h |] eqn:Hh; [| done].
  destruct (root_sound _ f buf h Hh) as (_ & _ & _ & ->). cbn. by destruct (read h); intros [= <-].
Qed.

Lemma wire_laws {T} (typed : T -> Prop) write (f : Follow Table) (read : Table -> res Ub T) :
  writer write typed f (fun x h => read h = Ok x) ->
  @FlatbufferLaws T (wire typed write (fun fbb root => fbb_finish root fbb)
                       (fun opts => root_with_opts opts f) read).
Proof.
  intros Hw t [Ht Hin]. destruct (finish_root typed write f read t Hw Ht) as (buf & Hb & Hr).
  cbn in *. rewrite Hb in *. cbn in *. by rewrite (Hr Hin).
Qed.

#[global] Instance worker_wire_laws : FlatbufferLaws WorkerAssignment.
Proof. apply (wire_laws _ _ _ _ write_WorkerAssignment_writer). Qed.

#[global] Instance portal_wire_laws : FlatbufferLaws PortalAssignment.
Proof. apply (wire_laws _ _ _ _ write_PortalAssignment_writer). Qed.

#[global] Instance legacy_wire_laws : FlatbufferLaws Assignment.
Proof. apply (wire_laws _ _ _ _ write_Assignment_writer). Qed.
End wire_laws.
