(* ===== verification/BuilderTyped.v ===== *)
(** * What the builders write are values of the wire types

    The model's numbers are [Z]; the fields of the FlatBuffers tables are 8 to
    64 bits wide.  Called with arguments of their Rust types, the methods of
    builder.rs keep every staged column and every written table within the
    widths the schema gives it, on every path, errors included: the narrowing
    to [u32] is checked ([try_u32]) or a cast that wraps.  Beside the widths, the
    calls say which builders hold a dataset the reader refuses: those in which a
    dataset was finished after one of its chunks ran out of worker references. *)

From S2P Require Import Prelude RustStd DataChunk AssignmentFb Columns Sealing WorkerBuilder PortalAssignment.
From S2P Require Import WorkerReader WorkerTheory WorkerProps WorkerReach PortalTheory PortalProps LegacyAssignment.
From S2P Require Import FlatBuffers AssignmentCodec WorkerCodec PortalCodec.
From Stdlib Require Import ZArith Lia Ascii String.
From stdpp Require Import base sets strings gmap sorting numbers list.

Open Scope Z_scope.

(** ** Methods that keep an invariant *)

(** [c] keeps [I] however it ends, and what it returns has [Q]. *)
Definition keeps {S E A} (I : S -> Prop) (c : comp S E A) (Q : A -> Prop) : Prop :=
  forall s, I s -> I (snd (c s)) /\ forall a, fst (c s) = Ok a -> Q a.

Lemma keeps_bind {S E A B} (I : S -> Prop) (c : comp S E A) (k : A -> comp S E B) Q R :
  keeps I c Q -> (forall a, Q a -> keeps I (k a) R) -> keeps I (cbind c k) R.
Proof.
  intros Hc Hk s Hs. destruct (Hc s Hs) as [Hi Hq]. unfold cbind.
  destruct (c s) as [[a | e |] s']; cbn in *; [by apply Hk; auto | done | done].
Qed.

Lemma keeps_get {S E} (I : S -> Prop) : keeps I (cget (E := E)) I.
Proof. intros s Hs. split; [done |]. by intros a [= <-]. Qed.

Lemma keeps_modify {S E} (I : S -> Prop) (f : S -> S) :
  (forall s, I s -> I (f s)) -> keeps I (cmodify (E := E) f) (fun _ => True).
Proof. intros Hf s Hs. split; [by apply Hf | done]. Qed.

Lemma keeps_lift {S E A} (I : S -> Prop) (r : res E A) : keeps I (clift r) (fun a => r = Ok a).
Proof. intros s Hs. by split. Qed.

Lemma keeps_map_err {S E E' A} (I : S -> Prop) (f : E -> E') (c : comp S E A) Q :
  keeps I c Q -> keeps I (cmap_err f c) Q.
Proof.
  intros Hc s Hs. destruct (Hc s Hs) as [Hi Hq]. unfold cmap_err.
  destruct (c s) as [[a | e |] s']; cbn in *; split; naive_solver.
Qed.

Lemma keeps_for {S E A} (I : S -> Prop) (l : list A) (f : A -> comp S E unit) :
  (forall x, x ∈ l -> keeps I (f x) (fun _ => True)) -> keeps I (cfor l f) (fun _ => True).
Proof.
  induction l as [| x l IH]; intros Hf; cbn [cfor]; [by intros s Hs |].
  eapply keeps_bind; [apply Hf; by left |]. intros _ _. apply IH. intros y Hy. apply Hf. by right.
Qed.

Lemma keeps_weaken {S E A} (I : S -> Prop) (c : comp S E A) (Q R : A -> Prop) :
  keeps I c Q -> (forall a, Q a -> R a) -> keeps I c R.
Proof. intros Hc HR s Hs. destruct (Hc s Hs). split; auto. Qed.

(** One step of a method on its head. *)
Ltac keeps_step :=
  lazymatch goal with
  | |- keeps _ (cbind cget _) _ => eapply keeps_bind; [apply keeps_get | intros ? ?]
  | |- keeps _ (cbind (clift _) _) _ => eapply keeps_bind; [apply keeps_lift | intros ? ?]
  | |- keeps _ (cbind (cmodify _) _) _ => eapply keeps_bind; [apply keeps_modify | intros _ _]
  | |- keeps _ (clift _) _ => eapply keeps_weaken; [apply keeps_lift | done]
  | |- keeps _ (cmodify _) _ => apply keeps_modify
  end.

(** ** Values *)

Lemma as_bytes_u8 s : Forall (scalar_ok U8) (as_bytes s).
Proof.
  unfold as_bytes. apply Forall_fmap, Forall_true. intros c. cbn.
  pose proof (byte_of_range c). lia.
Qed.

Lemma chunk_hash_typed id h : DataChunk_wf id -> chunk_hash (E := BuildError) id = Ok h -> bytes_n 8 h.
Proof.
  intros (_ & _ & _ & _ & s & Hs & Hd) Hh. unfold chunk_hash in Hh.
  rewrite (last_hash_pad id s Hs Hd) in Hh. cbn in Hh. injection Hh as <-.
  split; [by apply length_pad_hash |]. unfold pad_hash. apply Forall_app. split; [apply as_bytes_u8 |].
  apply Forall_replicate. cbn. lia.
Qed.

Lemma sub_u64_typed `{BuildProfile} {E} a b x :
  u64 a -> u64 b -> sub_u64 (E := E) a b = Ok x -> scalar_ok U64 x.
Proof.
  unfold u64, sub_u64. intros Ha Hb Hx. cbn.
  destruct (b <=? a) eqn:Hc; zbool; [simplify_eq; lia |].
  destruct overflow_checks; simplify_eq. apply Z.mod_pos_bound. lia.
Qed.

Lemma try_u32_typed {E} (e : E) x y : 0 <= x -> try_u32 e x = Ok y -> scalar_ok U32 y.
Proof. intros Hx [-> Hy]%try_u32_inv. cbn. lia. Qed.

Lemma add_u32_typed `{BuildProfile} {E} a b x :
  u32 a -> u32 b -> add_u32 (E := E) a b = Ok x -> scalar_ok U32 x.
Proof.
  unfold u32, add_u32. intros Ha Hb Hx. cbn.
  destruct (a + b <? 2 ^ 32) eqn:Hc; zbool; [simplify_eq; lia |].
  destruct overflow_checks; simplify_eq. apply Z.mod_pos_bound. lia.
Qed.

Lemma status_to_fb_typed s : scalar_ok I8 (status_to_fb s).
Proof. destruct s; cbn; lia. Qed.

Lemma Forall_snoc {A} (P : A -> Prop) l x : Forall P l -> P x -> Forall P (l ++ [x]).
Proof. intros. apply Forall_app. auto. Qed.

Lemma push_top_typed tops index t :
  scalar_ok U32 index -> scalar_ok U64 t -> Forall TopRun_typed tops ->
  Forall TopRun_typed (push_top tops index t).
Proof.
  intros Hi Ht Hts. unfold push_top.
  assert (Forall TopRun_typed (tops ++ [mkTopRun index t])) 
    by (by apply Forall_snoc).
  destruct (last tops); [case_match |]; done.
Qed.

(** A peer id is written as bytes. *)
Class PeerBytes `{PeerIdOps} := peer_bytes p : Forall (scalar_ok U8) (peer_to_bytes p).

Lemma WorkerId_from_typed `{BuildProfile, PeerBytes} {E} p w :
  WorkerId_from (E := E) p = Ok w -> bytes_n 38 w.
Proof.
  unfold WorkerId_from. intros Hw.
  destruct (length (peer_to_bytes p) <? 38)%nat eqn:Hl; [done |]. zbool.
  destruct (_ && _); [done |]. injection Hw as <-. split; [rewrite length_take; lia |].
  apply Forall_take, peer_bytes.
Qed.

(** The cryptographic operations produce bytes. *)
Class CryptoBytes `{CryptoOps} := {
  pk_bytes k : Forall (scalar_ok U8) (pk_as_bytes k);
  nonce_bytes r : Forall (scalar_ok U8) (fst (generate_nonce r));
  box_bytes p s n m c : box_encrypt p s n m = Some c -> Forall (scalar_ok U8) c
}.

(** ** The worker builder *)

Record wcols_typed (c : WorkerDatasetColumns) : Prop := {
  wct_first : Forall (scalar_ok U64) (wc_first_blocks c);
  wct_delta : Forall (scalar_ok U32) (wc_block_deltas c);
  wct_hash : Forall (bytes_n 8) (wc_hashes c);
  wct_tops : Forall TopRun_typed (wc_tops c);
  wct_size : Forall (scalar_ok U32) (wc_sizes c);
  wct_schema : Forall (scalar_ok U32) (wc_write_schema_ids c);
  wct_version : Forall (scalar_ok U32) (wc_versions c);
  wct_bits : Forall (scalar_ok U8) (wc_tables_present c);
  wct_bit_ends : Forall (scalar_ok U32) (wc_tables_present_ends c);
  wct_ends : Forall (scalar_ok U32) (wc_worker_ends c);
  wct_workers : Forall (scalar_ok U16) (wc_worker_indexes c)
}.

Record pushed_typed (chunk : PushChunk) : Prop := {
  pt_top : scalar_ok U64 (pc_top chunk);
  pt_start : u64 (fst (pc_block_range chunk));
  pt_end : u64 (snd (pc_block_range chunk));
  pt_hash : bytes_n 8 (pc_hash chunk);
  pt_size : scalar_ok U32 (pc_size chunk);
  pt_schema : scalar_ok U32 (pc_write_schema_id chunk);
  pt_version : scalar_ok U32 (pc_version chunk)
}.

Lemma wcols_typed_default : wcols_typed WorkerDatasetColumns_default.
Proof. split; constructor. Qed.

Lemma push_row_typed c index delta chunk bits workers :
  wcols_typed c -> scalar_ok U32 index -> scalar_ok U32 delta -> pushed_typed chunk ->
  Forall (scalar_ok U8) bits -> Forall (scalar_ok U16) workers ->
  wcols_typed (push_row c index delta chunk bits workers).
Proof.
  intros [] Hi Hd [] Hb Hw. unfold push_row, push_bitmap.
  split; cbn [wc_first_blocks wc_block_deltas wc_hashes wc_tops wc_sizes wc_write_schema_ids
              wc_versions wc_tables_present wc_tables_present_ends wc_worker_ends wc_worker_indexes];
    auto using Forall_snoc, push_top_typed, Forall_app_2.
  apply Forall_snoc; [done |]. cbn. apply Z.mod_pos_bound. lia.
Qed.

Lemma push_worker_end_typed c e :
  wcols_typed c -> scalar_ok U32 e -> wcols_typed (push_worker_end c e).
Proof. intros [] He. split; cbn -[scalar_ok]; auto using Forall_snoc. Qed.

(** ** Calls

    A chunk that exhausts the worker references of its dataset is answered
    [TooManyWorkerRefs], but its row stays behind without a worker offset.  What has
    become of such a dataset: there is none, or it was discarded; it is the one that
    is open; one was emitted. *)
Inductive Spoilt := Sound | SpoiltOpen | SpoiltEmitted.

#[global] Instance Spoilt_eq_dec : EqDecision Spoilt.
Proof. solve_decision. Defined.

Definition after_chunk (r : res BuildError unit) (s : Spoilt) : Spoilt :=
  match r, s with
  | Err TooManyWorkerRefs, Sound => SpoiltOpen
  | _, _ => s
  end.

Definition after_emit (s : Spoilt) : Spoilt := match s with SpoiltOpen => SpoiltEmitted | _ => s end.

Definition after_discard (s : Spoilt) : Spoilt := match s with SpoiltOpen => Sound | _ => s end.

Section worker_typed.
Context `{BuildProfile, PeerIdOps, CryptoOps}.

Record wtyped (b : WorkerAssignmentBuilder) : Prop := {
  wty_columns : wcols_typed (wb_columns b);
  wty_last : from_option (scalar_ok U64) True (wb_last_block b);
  wty_datasets : Forall WorkerAssignmentDataset_typed (wb_all_datasets b);
  wty_entries : Forall (fun e => WorkerEntry_typed (snd e)) (wb_worker_entries b);
  wty_schemas : map_Forall (fun n _ => scalar_ok U32 n) (wb_write_schemas b);
  wty_generations : map_Forall (fun n _ => scalar_ok U32 n) (wb_current_generations b);
  wty_workers : Forall (scalar_ok U16) (wb_staged_worker_indexes b);
  wty_bits : Forall (scalar_ok U8) (wb_staged_tables_present b);
  wty_identity : from_option (Forall (scalar_ok U8)) True (wb_common_identity b)
}.

Lemma new_typed secret rng : wtyped (new_with_rng secret rng).
Proof.
  unfold new_with_rng. destruct (generate_key rng). split; cbn; try constructor; try done.
  all: by intros ? ? ?%lookup_empty_Some || constructor.
Qed.

(** A builder that changes one group of fields. *)
Lemma set_open_typed b lb ds gens c :
  wtyped b -> from_option (scalar_ok U64) True lb -> Forall WorkerAssignmentDataset_typed ds ->
  map_Forall (fun n _ => scalar_ok U32 n) gens -> wcols_typed c -> wtyped (set_open b lb ds gens c).
Proof. intros []. by split. Qed.

Lemma discard_typed b : wtyped b -> wtyped (discard_dataset b).
Proof.
  intros Hb. apply set_open_typed; [done | done | apply Hb | by intros ? ? ?%lookup_empty_Some |].
  apply wcols_typed_default.
Qed.

Lemma set_staged_typed b workers bits :
  wtyped b -> Forall (scalar_ok U16) workers -> Forall (scalar_ok U8) bits ->
  wtyped (set_staged b workers bits).
Proof. intros []. by split. Qed.

Lemma register_write_schema_typed n tables :
  scalar_ok U32 n -> keeps wtyped (register_write_schema n tables) (fun _ => True).
Proof.
  intros Hn. unfold register_write_schema. keeps_step. keeps_step.
  destruct (wb_write_schemas _ !! n); [keeps_step |]. apply keeps_modify. intros s [].
  split; try done. cbn. by apply map_Forall_insert_2.
Qed.

Lemma dataset_typed id url lb gens c :
  wcols_typed c -> scalar_ok U64 lb -> from_option (Forall GenerationEntry_typed) True gens ->
  WorkerAssignmentDataset_typed (dataset_of_columns id url lb gens c).
Proof.
  intros [] Hl Hg. unfold WorkerAssignmentDataset_typed, dataset_of_columns.
  assert (scalar_ok U32 0) by (cbn; lia).
  destruct (wc_any_tables_trimmed c), (existsb _ (wc_versions c));
    cbn -[scalar_ok]; split_and!; try done; by constructor.
Qed.

Lemma create_generations_typed b :
  wtyped b -> from_option (Forall GenerationEntry_typed) True (create_generations b).
Proof.
  intros Hb. unfold create_generations. case_decide; [done |]. cbn.
  apply Forall_fmap, Forall_forall. intros [v u] Hv. cbn. apply elem_of_btree_iter in Hv.
  by apply (wty_generations b Hb) in Hv.
Qed.

Lemma emit_dataset_typed id url : keeps wtyped (emit_dataset id url) (fun _ => True).
Proof.
  unfold emit_dataset. eapply keeps_bind; [apply keeps_get | intros self Hself].
  do 2 keeps_step. keeps_step.
  { intros s Hs. apply set_open_typed; [done | apply Hs | apply Hs | apply Hs |].
    apply wcols_typed_default. }
  eapply keeps_bind; [apply keeps_lift | intros lb Hlb%expect_Ok]. apply keeps_modify. intros s Hs.
  apply set_open_typed; [done | done | | by intros ? ? ?%lookup_empty_Some | apply Hs].
  apply Forall_snoc; [apply Hs |]. apply dataset_typed; [apply Hself | | by apply create_generations_typed].
  pose proof (wty_last _ Hself) as Hl. by rewrite Hlb in Hl.
Qed.

Lemma dataset_finish_typed d : wtyped (wdb_p d) -> wtyped (snd (dataset_finish d)).
Proof.
  intros Hd. destruct (emit_dataset_typed (wdb_id d) (wdb_base_url d) (wdb_p d) Hd) as [He _].
  unfold dataset_finish. destruct (emit_dataset _ _ _) as [[[] | e |] p]; cbn in *; try done.
  by apply discard_typed.
Qed.

Lemma dataset_drop_typed d : wtyped (wdb_p d) -> wtyped (dataset_drop d).
Proof. intros Hd. unfold dataset_drop. case_match; [by apply discard_typed | done]. Qed.

Lemma register_generation_typed v u :
  scalar_ok U32 v -> keeps (fun d => wtyped (wdb_p d)) (register_generation v u) (fun _ => True).
Proof.
  intros Hv. unfold register_generation. keeps_step.
  eapply keeps_bind; [apply keeps_get | intros self Hself]. cbv zeta.
  destruct (wb_current_generations _ !! v); [keeps_step |]. apply keeps_modify. intros s Hs. cbn.
  apply set_open_typed; try apply Hself. apply map_Forall_insert_2; [done | apply Hself].
Qed.

Lemma append_chunk_typed chunk :
  pushed_typed chunk -> keeps wtyped (append_chunk chunk) (fun _ => True).
Proof.
  intros Hc. unfold append_chunk. keeps_step.
  eapply keeps_bind; [apply keeps_lift | intros index Hi]. apply try_u32_typed in Hi; [| lia].
  eapply keeps_bind; [apply keeps_lift | intros span Hs].
  apply sub_u64_typed in Hs; [| apply Hc ..].
  eapply keeps_bind; [apply keeps_lift | intros delta Hd]. apply try_u32_typed in Hd; [| cbn in Hs; lia].
  keeps_step.
  { intros s Hst. apply set_open_typed; try apply Hst.
    apply push_row_typed; try done; apply Hst. }
  keeps_step. eapply keeps_bind; [apply keeps_lift | intros e He]. apply try_u32_typed in He; [| lia].
  keeps_step. intros s Hst. apply set_open_typed; try apply Hst; [apply Hc |].
  apply push_worker_end_typed; [apply Hst | done].
Qed.

Lemma push_chunk_typed chunk :
  pushed_typed chunk -> keeps wtyped (push_chunk chunk) (fun _ => True).
Proof.
  intros Hc b Hb. unfold push_chunk. cbv zeta.
  assert (forall r : res BuildError unit, keeps wtyped (append_chunk chunk ;;; clift r)%rust (fun _ => True)) as Hk.
  { intros r. eapply keeps_bind; [by apply append_chunk_typed |]. intros _ _. keeps_step. }
  match goal with |- context [match ?x with Ok _ => _ | Err _ => _ | Panic => _ end] =>
    generalize x; intros r end.
  destruct r as [[] | e |]; [| destruct (_ && _) |]; try (by split); by apply Hk.
Qed.

(** A chunk builder whose setters were given values of their types. *)
Record cb_args_typed (c : WorkerAssignmentChunkBuilder) : Prop := {
  cbt_id : forall id, cb_id c = Some id -> DataChunk_wf id;
  cbt_size : from_option (scalar_ok U32) True (cb_size c);
  cbt_version : scalar_ok U32 (cb_version c);
  cbt_schema : from_option (scalar_ok U32) True (cb_write_schema_id c)
}.

Lemma cb_finish_typed c : wtyped (cb_p c) -> cb_args_typed c -> wtyped (snd (cb_finish c)).
Proof.
  intros Hb Hc. unfold cb_finish.
  match goal with |- wtyped (snd (?m _)) => assert (keeps wtyped m (fun _ => True)) as Hk end;
    [| by apply Hk].
  eapply keeps_bind; [apply keeps_lift | intros range Hr].
  eapply keeps_bind; [apply keeps_lift | intros id Hid%ok_or_Ok].
  eapply keeps_bind; [apply keeps_lift | intros _ He%ensure_Ok]. zbool.
  eapply keeps_bind; [apply keeps_lift | intros n Hn%ok_or_Ok].
  do 4 keeps_step. eapply keeps_bind; [apply keeps_lift | intros h Hh].
  eapply keeps_bind; [apply keeps_lift | intros size Hsz%expect_Ok].
  pose proof (cbt_id c Hc id Hid) as Hwf. pose proof Hwf as (Ht & Hf & Hl & _).
  pose proof (cbt_size c Hc) as Hs. pose proof (cbt_schema c Hc) as Hsc. rewrite Hsz in Hs. rewrite Hn in Hsc.
  apply push_chunk_typed. split; cbn -[scalar_ok u64]; try done; try congruence.
  - by eapply chunk_hash_typed.
  - apply Hc.
Qed.

(** The bits of a byte. *)
Lemma tables_loop_typed roster tables index bits :
  Forall (scalar_ok U8) bits -> Forall (scalar_ok U8) (snd (tables_loop roster tables index bits)).
Proof.
  revert index bits. induction tables as [| t tables IH]; intros index bits Hb; cbn [tables_loop]; [done |].
  set (i := skip_below t (drop index roster) index). clearbody i.
  destruct (match roster !! i with Some _ => _ | None => _ end); [| done].
  destruct (bits !! (i / 8)%nat) as [z |] eqn:Hl; [| done]. apply IH. apply Forall_insert; [done |].
  pose proof (Forall_lookup_1 _ _ _ _ Hb Hl) as Hz. unfold scalar_ok in *. change (2 ^ 8) with 256 in *.
  split; [apply Z.lor_nonneg; split; [lia | apply Z.shiftl_nonneg; lia] |].
  apply Z.log2_lt_cancel. rewrite Z.log2_lor by (try apply Z.shiftl_nonneg; lia).
  change (Z.log2 256) with 8. apply Z.max_lub_lt.
  - destruct (decide (z = 0)) as [-> | Hnz]; [done |]. apply Z.log2_lt_pow2; lia.
  - rewrite Z.shiftl_1_l, Z.log2_pow2 by lia. pose proof (Nat.mod_upper_bound i 8). lia.
Qed.

Lemma cb_tables_typed tables :
  keeps (fun c => wtyped (cb_p c) /\ cb_args_typed c) (cb_tables tables) (fun _ => True).
Proof.
  unfold cb_tables. keeps_step. eapply keeps_bind; [apply keeps_get | intros self Hself].
  eapply keeps_bind; [apply keeps_lift | intros n Hn]. eapply keeps_bind; [apply keeps_lift | intros r Hr].
  intros c [Hp []]. pose proof (tables_loop_typed r tables 0 (replicate (div_ceil8 (length r)) 0)) as Hb.
  destruct (tables_loop _ _ _ _) as [q bits]. cbn in Hb |- *. split; [| done]. split; [| by split].
  cbn. apply set_staged_typed; [done | apply Hp |]. apply Hb, Forall_replicate. cbn. lia.
Qed.

(** Workers. *)
Context `{!PeerBytes, !CryptoBytes}.

Lemma set_workers_typed b rng es last ident :
  wtyped b -> Forall (fun e => WorkerEntry_typed (snd e)) es ->
  from_option (Forall (scalar_ok U8)) True ident -> wtyped (set_workers b rng es last ident).
Proof. intros []. by split. Qed.

Lemma push_worker_typed w status h b :
  bytes_n 38 w -> from_option EncryptedHeaders_typed True h -> wtyped b ->
  wtyped (push_worker (mkWorkerEntry w (status_to_fb status) h) w b).
Proof.
  intros Hw Hh Hb. apply set_workers_typed; [done | | apply Hb]. apply Forall_snoc; [apply Hb |].
  split_and!; [done | apply status_to_fb_typed | done].
Qed.

Lemma encrypt_typed p k m rng c n :
  fst (encrypt_with_rng p k m rng) = Ok (c, n) -> Forall (scalar_ok U8) c /\ Forall (scalar_ok U8) n.
Proof.
  unfold encrypt_with_rng. destruct (negb _); [done |]. destruct (edwards_from_slice _); [| done].
  destruct (decompress _); [| done]. pose proof (nonce_bytes rng) as Hn.
  destruct (generate_nonce rng) as [nonce rng']. destruct (box_encrypt _ _ _ _) eqn:Hb; [| done].
  intros [= <- <-]. split; [by eapply box_bytes | done].
Qed.

Lemma generate_headers_typed p t :
  keeps wtyped (generate_encrypted_headers p t) EncryptedHeaders_typed.
Proof.
  intros b Hb. unfold generate_encrypted_headers. cbv zeta.
  match goal with |- context [encrypt_with_rng ?a ?k ?m ?r] =>
    pose proof (encrypt_typed a k m r) as He; destruct (encrypt_with_rng a k m r) as [[[c n] | e |] rng] end.
  2, 3: split; [apply set_workers_typed; [done | apply Hb | apply Hb] | done].
  destruct (He c n eq_refl) as [Hc Hn].
  assert (Forall (scalar_ok U8) (match wb_common_identity b with Some identity => identity
    | None => pk_as_bytes (public_key (wb_common_secret_key b)) end)) as Hi.
  { pose proof (wty_identity b Hb) as Hi. destruct (wb_common_identity b); [done |]. apply pk_bytes. }
  cbn [fst snd]. split; [| by intros ? [= <-]].
  apply set_workers_typed; [| apply Hb | done].
  apply set_workers_typed; [done | apply Hb | apply Hb].
Qed.

Lemma add_worker_typed p status t :
  keeps wtyped (add_worker_with_timestamp p status t) (fun _ => True).
Proof.
  unfold add_worker_with_timestamp. do 2 keeps_step. keeps_step.
  { intros s Hs. apply set_workers_typed; [done | apply Hs | apply Hs]. }
  eapply keeps_bind; [apply keeps_lift | intros w Hw%WorkerId_from_typed].
  intros b Hb. destruct (generate_headers_typed p t b Hb) as [Hg Hh].
  destruct (generate_encrypted_headers p t b) as [[h | e |] b']; cbn in Hg, Hh |- *; (split; [| done]);
    [| | done]; (apply push_worker_typed; [done | | done]); [| done]. by apply Hh.
Qed.

Lemma add_sealed_typed p status i n c :
  Forall (scalar_ok U8) i -> Forall (scalar_ok U8) n -> Forall (scalar_ok U8) c ->
  keeps wtyped (add_worker_with_sealed_headers p status i n c) (fun _ => True).
Proof.
  intros Hi Hn Hc. unfold add_worker_with_sealed_headers. do 2 keeps_step. keeps_step.
  { intros s Hs. apply set_workers_typed; [done | apply Hs | apply Hs]. }
  eapply keeps_bind; [apply keeps_lift | intros w Hw%WorkerId_from_typed].
  keeps_step. intros s Hs. by apply push_worker_typed.
Qed.

(** What is written. *)
Lemma assignment_of_typed b : wtyped b -> WorkerAssignment_typed (assignment_of b).
Proof.
  intros Hb. split_and!; [apply Hb | cbn; apply Forall_fmap, Hb |].
  cbn. unfold create_write_schema_rosters. apply Forall_fmap, Forall_forall. intros [n ts] Hn.
  apply elem_of_btree_iter in Hn. cbn. by apply (wty_schemas b Hb) in Hn.
Qed.

(** A call with arguments of their Rust types, whatever it answers. *)
Inductive wcall : WorkerAssignmentBuilder * Spoilt -> WorkerAssignmentBuilder * Spoilt -> Prop :=
| wcall_continuity b s check : wcall (b, s) (check_continuity check b, s)
| wcall_schema b s n tables r b' : scalar_ok U32 n ->
    register_write_schema n tables b = (r, b') -> wcall (b, s) (b', s)
| wcall_generation b s name url v u r d' : scalar_ok U32 v ->
    register_generation v u (new_dataset name url b) = (r, d') -> wcall (b, s) (wdb_p d', s)
| wcall_new_chunk b s workers bits :
    Forall (scalar_ok U16) workers -> Forall (scalar_ok U8) bits -> wcall (b, s) (set_staged b workers bits, s)
| wcall_chunk c s r b' :
    cb_args_typed c -> cb_finish c = (r, b') -> wcall (cb_p c, s) (b', after_chunk r s)
| wcall_finish b s name url b' :
    dataset_finish (new_dataset name url b) = (Ok tt, b') -> wcall (b, s) (b', after_emit s)
| wcall_finish_fails b s name url e b' :
    dataset_finish (new_dataset name url b) = (Err e, b') -> wcall (b, s) (b', after_discard s)
| wcall_finish_panics b s name url b' :
    dataset_finish (new_dataset name url b) = (Panic, b') ->
    wcall (b, s) (dataset_drop (new_dataset name url b'), after_discard s)
| wcall_drop b s name url : wcall (b, s) (dataset_drop (new_dataset name url b), after_discard s)
| wcall_worker b s id status t r b' :
    add_worker_with_timestamp id status t b = (r, b') -> wcall (b, s) (b', s)
| wcall_sealed b s id status i n c r b' :
    Forall (scalar_ok U8) i -> Forall (scalar_ok U8) n -> Forall (scalar_ok U8) c ->
    add_worker_with_sealed_headers id status i n c b = (r, b') -> wcall (b, s) (b', s).

(** The states the calls reach from a fresh builder. *)
Definition called (b : WorkerAssignmentBuilder) (s : Spoilt) : Prop :=
  exists secret rng, rtc wcall (new_with_rng secret rng, Sound) (b, s).

Lemma wcall_typed x y : wcall x y -> wtyped x.1 -> wtyped y.1.
Proof.
  assert (forall E A (c : comp _ E A) Q s r s', keeps wtyped c Q -> c s = (r, s') -> wtyped s -> wtyped s')
    as Hk by (intros E A c Q s r s' Hc Hr Hs; destruct (Hc s Hs) as [Hi _]; by rewrite Hr in Hi).
  assert (forall name url b r b', dataset_finish (new_dataset name url b) = (r, b') -> wtyped b -> wtyped b') as Hf.
  { intros name url b r b' Hr Hb. pose proof (dataset_finish_typed (new_dataset name url b) Hb) as Hi.
    by rewrite Hr in Hi. }
  destruct 1 as [b s check | b s n tables r b' Hn Hr | b s name url v u r d' Hv Hr | b s workers bits Hw Hbits
    | c s r b' Hc Hr | b s name url b' Hr | b s name url e b' Hr | b s name url b' Hr | b s name url
    | b s id status t r b' Hr | b s id status i n c r b' Hi Hn Hc Hr]; cbn [fst]; intros Hb.
  - destruct Hb. by split.
  - eapply Hk; [apply (register_write_schema_typed n tables Hn) | exact Hr | done].
  - destruct (register_generation_typed v u Hv (new_dataset name url b) Hb) as [Hi _].
    by rewrite Hr in Hi.
  - by apply set_staged_typed.
  - pose proof (cb_finish_typed c Hb Hc) as Hi. by rewrite Hr in Hi.
  - by eapply Hf.
  - by eapply Hf.
  - apply dataset_drop_typed. cbn. by eapply Hf.
  - by apply dataset_drop_typed.
  - eapply Hk; [apply add_worker_typed | exact Hr | done].
  - eapply Hk; [apply (add_sealed_typed id status i n c Hi Hn Hc) | exact Hr | done].
Qed.

Lemma called_typed b s : called b s -> WorkerAssignment_typed (assignment_of b).
Proof.
  intros (secret & rng & Hc). apply assignment_of_typed. change b with (fst (b, s)).
  assert (wtyped (fst (new_with_rng secret rng, Sound))) as Hn by apply new_typed.
  induction Hc as [x | x y z Hs _ IH]; [done |]. apply IH. by eapply wcall_typed.
Qed.

(** *** What the datasets are *)

(** A row without its worker offset. *)
Definition behind (b : WorkerAssignmentBuilder) : Prop :=
  (length (wc_worker_ends (wb_columns b)) < length (wc_first_blocks (wb_columns b)))%nat.

Definition spoilt_inv (x : WorkerAssignmentBuilder * Spoilt) : Prop :=
  match x.2 with
  | Sound => open_inv x.1 /\ datasets_inv x.1
  | SpoiltOpen => behind x.1 /\ datasets_inv x.1
  | SpoiltEmitted => Exists (fun ds => check_worker_dataset ds <> Ok tt) (wb_all_datasets x.1)
  end.

Lemma spoilt_same b b' s :
  wb_columns b' = wb_columns b -> wb_last_block b' = wb_last_block b -> wb_all_datasets b' = wb_all_datasets b ->
  spoilt_inv (b, s) -> spoilt_inv (b', s).
Proof. unfold spoilt_inv, open_inv, datasets_inv, behind. cbn. by intros -> -> ->. Qed.

Lemma spoilt_discard b b' s :
  clean b' -> wb_all_datasets b' = wb_all_datasets b -> spoilt_inv (b, s) -> spoilt_inv (b', after_discard s).
Proof.
  intros Hc E. pose proof (clean_open_inv _ Hc). unfold spoilt_inv, datasets_inv. cbn.
  destruct s; cbn; rewrite E; naive_solver.
Qed.

Lemma add_worker_frame id status t b r b' :
  add_worker_with_timestamp id status t b = (r, b') ->
  wb_columns b' = wb_columns b /\ wb_last_block b' = wb_last_block b /\ wb_all_datasets b' = wb_all_datasets b.
Proof.
  unfold add_worker_with_timestamp, cbind, cget, clift, cmodify.
  destruct (assert _) as [[] | |]; [| by intros [= <- <-] ..].
  destruct (WorkerId_from id); [| by intros [= <- <-] ..].
  destruct (generate_encrypted_headers _ _ _) as [g b1] eqn:Hg.
  apply generate_headers_frame in Hg as (rng & ident & ->). by destruct g; intros [= <- <-].
Qed.

Lemma add_sealed_frame id status i n c b r b' :
  add_worker_with_sealed_headers id status i n c b = (r, b') ->
  wb_columns b' = wb_columns b /\ wb_last_block b' = wb_last_block b /\ wb_all_datasets b' = wb_all_datasets b.
Proof.
  unfold add_worker_with_sealed_headers, cbind, cget, clift, cmodify.
  destruct (assert _) as [[] | |]; [| by intros [= <- <-] ..].
  destruct (WorkerId_from id); by intros [= <- <-].
Qed.

(** The reader refuses such a dataset. *)
Lemma behind_refused c id url lb gens :
  (length (wc_worker_ends c) < length (wc_first_blocks c))%nat ->
  check_worker_dataset (dataset_of_columns id url lb gens c) <> Ok tt.
Proof.
  intros Hb. unfold check_worker_dataset, check_columns. set (ds := dataset_of_columns _ _ _ _ _).
  assert (wd_first_blocks ds = wc_first_blocks c /\ wd_worker_offsets ds = csr_offsets (wc_worker_ends c)) as [E1 E2]
    by (unfold ds, dataset_of_columns; by destruct (wc_any_tables_trimmed c)).
  intros Hk. destruct (check_dense _ _ _) as [[] | e |] eqn:Hd; [| done ..].
  eapply (check_dense_In _ _ _ "worker_offsets"%string) in Hd; [| unfold worker_dense; apply elem_of_app; left;
    do 4 apply list_elem_of_further; apply list_elem_of_here].
  rewrite E1, E2 in Hd. unfold csr_offsets in Hd. cbn in Hd. lia.
Qed.

Lemma open_aligned b : open_inv b ->
  length (wc_worker_ends (wb_columns b)) = length (wc_first_blocks (wb_columns b)).
Proof.
  intros (rows & Hrep & _). by rewrite (wrep_ends _ _ Hrep), (wrep_first _ _ Hrep), length_ends_of, !length_fmap.
Qed.

Lemma chunk_spoilt c s r b' :
  cb_args_typed c -> cb_finish c = (r, b') -> spoilt_inv (cb_p c, s) -> spoilt_inv (b', after_chunk r s).
Proof.
  intros Hc Hf Hi. pose proof (cb_finish_frame c) as Hr. rewrite Hf in Hr.
  destruct Hr as (lb & cols & k & E & Hk & Hends). cbn in E, Hends. subst b'.
  assert (r = Err TooManyWorkerRefs \/ r <> Err TooManyWorkerRefs) as [-> | Hne]
    by (destruct r as [| [] |]; auto).
  - destruct Hends as [-> He]. unfold spoilt_inv, datasets_inv, behind in *. destruct s; cbn in *; [| | done].
    + destruct Hi as [Ho Hd]. apply open_aligned in Ho. split; [lia | done].
    + destruct Hi as [Ho Hd]. split; [lia | done].
  - assert (after_chunk r s = s) as -> by (by destruct r as [| [] |], s).
    unfold spoilt_inv in *. destruct s; cbn in *; [| | done].
    + destruct Hi as [Ho Hd]. eapply chunk_step_inv; [apply Hc | exact Hf | done..].
    + destruct Hi as [Ho Hd]. split; [| done]. unfold behind in *. cbn.
      destruct r as [| [] |]; try done; lia.
Qed.

Lemma emit_spoilt b s name url b' :
  dataset_finish (new_dataset name url b) = (Ok tt, b') -> spoilt_inv (b, s) -> spoilt_inv (b', after_emit s).
Proof.
  intros Hf Hi. pose proof (dataset_finish_cases _ _ _ _ _ Hf) as [(_ & lb & Hlb & E) | [[? _] _]]; [| done].
  destruct s; unfold spoilt_inv in *; cbn in *.
  - destruct Hi. by eapply finish_step_inv.
  - destruct Hi as [Hb _]. subst b'. cbn. apply Exists_app. right. constructor. by apply behind_refused.
  - subst b'. cbn. apply Exists_app. by left.
Qed.

Lemma wcall_spoilt x y : wcall x y -> spoilt_inv x -> spoilt_inv y.
Proof.
  destruct 1 as [b s check | b s n tables r b' Hn Hr | b s name url v u r d' Hv Hr | b s workers bits Hw Hbits
    | c s r b' Hc Hr | b s name url b' Hr | b s name url e b' Hr | b s name url b' Hr | b s name url
    | b s id status t r b' Hr | b s id status i n c r b' Hi Hn Hc Hr].
  - by apply spoilt_same.
  - apply register_write_schema_frame in Hr as [-> | ->]; [done | by apply spoilt_same].
  - apply register_generation_frame in Hr as [-> | [g ->]]; [done | by apply spoilt_same].
  - by apply spoilt_same.
  - by apply chunk_spoilt.
  - by apply (emit_spoilt b s name url).
  - apply dataset_finish_cases in Hr as [[? _] | [(_ & lb & gens & cols & E) Hcl]]; [done |].
    apply spoilt_discard; [by apply (Hcl e) | by rewrite E].
  - apply dataset_finish_cases in Hr as [[? _] | [(_ & lb & gens & cols & E) _]]; [done |].
    apply spoilt_discard; [done | by rewrite E].
  - by apply spoilt_discard.
  - apply add_worker_frame in Hr as (E1 & E2 & E3). by apply spoilt_same.
  - apply add_sealed_frame in Hr as (E1 & E2 & E3). by apply spoilt_same.
Qed.

Lemma called_spoilt b s : called b s -> spoilt_inv (b, s).
Proof.
  intros (secret & rng & Hc).
  assert (spoilt_inv (new_with_rng secret rng, Sound)) as Hn.
  { unfold new_with_rng. destruct (generate_key rng) as [key rng'].
    split; [by apply clean_open_inv | constructor]. }
  induction Hc as [x | x y z Hs _ IH]; [done |]. apply IH. by eapply wcall_spoilt.
Qed.
End worker_typed.

(** ** The portal builder *)

Record pcols_typed (c : PortalDatasetColumns) : Prop := {
  pct_first : Forall (scalar_ok U64) (pcol_first_blocks c);
  pct_delta : Forall (scalar_ok U32) (pcol_block_deltas c);
  pct_hash : Forall (bytes_n 8) (pcol_hashes c);
  pct_tops : Forall TopRun_typed (pcol_tops c);
  pct_timestamp : Forall (scalar_ok U64) (pcol_timestamps c);
  pct_version : Forall (scalar_ok U32) (pcol_versions c);
  pct_ends : Forall (scalar_ok U32) (pcol_worker_ends c);
  pct_workers : Forall (scalar_ok U16) (pcol_worker_indexes c)
}.

Record ppushed_typed (chunk : PortalPush) : Prop := {
  ppt_top : scalar_ok U64 (pp_top chunk);
  ppt_start : u64 (fst (pp_block_range chunk));
  ppt_end : u64 (snd (pp_block_range chunk));
  ppt_hash : bytes_n 8 (pp_hash chunk);
  ppt_version : scalar_ok U32 (pp_version chunk);
  ppt_timestamp : scalar_ok U64 (pp_timestamp chunk)
}.

Lemma pcols_typed_default : pcols_typed PortalDatasetColumns_default.
Proof. split; constructor. Qed.

Lemma portal_push_row_typed c index delta chunk workers :
  pcols_typed c -> scalar_ok U32 index -> scalar_ok U32 delta -> ppushed_typed chunk ->
  Forall (scalar_ok U16) workers -> pcols_typed (portal_push_row c index delta chunk workers).
Proof.
  intros [] Hi Hd [] Hw. split; cbn -[scalar_ok bytes_n push_top];
    auto using Forall_snoc, push_top_typed, Forall_app_2.
Qed.

Lemma portal_push_end_typed c e :
  pcols_typed c -> scalar_ok U32 e -> pcols_typed (portal_push_end c e).
Proof. intros [] He. split; cbn -[scalar_ok]; auto using Forall_snoc. Qed.

Section portal_typed.
Context `{BuildProfile, PeerIdOps}.

Record ptyped (b : PortalAssignmentBuilder) : Prop := {
  pty_columns : pcols_typed (pb_columns b);
  pty_last : from_option (scalar_ok U64) True (pb_last_block b);
  pty_datasets : Forall PortalAssignmentDataset_typed (pb_all_datasets b);
  pty_entries : Forall (fun e => PortalEntry_typed (snd e)) (pb_worker_entries b);
  pty_workers : Forall (scalar_ok U16) (pb_staged_worker_indexes b)
}.

Lemma portal_new_typed : ptyped portal_new.
Proof. split; repeat constructor. Qed.

Lemma pb_set_open_typed b lb ds c :
  ptyped b -> from_option (scalar_ok U64) True lb -> Forall PortalAssignmentDataset_typed ds ->
  pcols_typed c -> ptyped (pb_set_open b lb ds c).
Proof. intros []. by split. Qed.

Lemma portal_discard_typed b : ptyped b -> ptyped (portal_discard_dataset b).
Proof. intros Hb. apply pb_set_open_typed; [done | done | apply Hb | apply pcols_typed_default]. Qed.

Lemma portal_dataset_typed id n h lb c :
  pcols_typed c -> scalar_ok U64 lb -> scalar_ok U32 n ->
  PortalAssignmentDataset_typed (portal_dataset_of id n h lb c).
Proof.
  intros [] Hl Hn. unfold PortalAssignmentDataset_typed, portal_dataset_of.
  assert (scalar_ok U32 0) by (cbn; lia).
  destruct (existsb _ (pcol_versions c)); cbn -[scalar_ok]; split_and!; try done; by constructor.
Qed.

Lemma portal_emit_typed id n h :
  scalar_ok U32 n -> keeps ptyped (portal_emit_dataset id n h) (fun _ => True).
Proof.
  intros Hn. unfold portal_emit_dataset. eapply keeps_bind; [apply keeps_get | intros self Hself].
  do 2 keeps_step. keeps_step.
  { intros s Hs. apply pb_set_open_typed; [done | apply Hs | apply Hs | apply pcols_typed_default]. }
  eapply keeps_bind; [apply keeps_lift | intros lb Hlb%expect_Ok]. apply keeps_modify. intros s Hs.
  apply pb_set_open_typed; [done | done | | apply Hs].
  apply Forall_snoc; [apply Hs |]. apply portal_dataset_typed; [apply Hself | | done].
  pose proof (pty_last _ Hself) as Hl. by rewrite Hlb in Hl.
Qed.

Lemma portal_finish_typed h d :
  scalar_ok U32 (pdb_read_schema_id d) -> ptyped (pdb_p d) ->
  ptyped (snd (portal_dataset_finish h d)).
Proof.
  intros Hn Hd. destruct (portal_emit_typed (pdb_id d) _ h Hn (pdb_p d) Hd) as [He _].
  unfold portal_dataset_finish. destruct (portal_emit_dataset _ _ _ _) as [[[] | e |] p]; cbn in *; try done.
  by apply portal_discard_typed.
Qed.

Lemma portal_drop_typed d : ptyped (pdb_p d) -> ptyped (portal_dataset_drop d).
Proof. intros Hd. unfold portal_dataset_drop. case_match; [by apply portal_discard_typed | done]. Qed.

Lemma portal_append_typed chunk :
  ppushed_typed chunk -> keeps ptyped (portal_append_chunk chunk) (fun _ => True).
Proof.
  intros Hc. unfold portal_append_chunk. keeps_step.
  eapply keeps_bind; [apply keeps_lift | intros index Hi]. apply try_u32_typed in Hi; [| lia].
  eapply keeps_bind; [apply keeps_lift | intros span Hs].
  apply sub_u64_typed in Hs; [| apply Hc ..].
  eapply keeps_bind; [apply keeps_lift | intros delta Hd]. apply try_u32_typed in Hd; [| cbn in Hs; lia].
  keeps_step.
  { intros s Hst. apply pb_set_open_typed; try apply Hst.
    apply portal_push_row_typed; try done; apply Hst. }
  keeps_step. eapply keeps_bind; [apply keeps_lift | intros e He]. apply try_u32_typed in He; [| lia].
  keeps_step. intros s Hst. apply pb_set_open_typed; try apply Hst; [apply Hc |].
  apply portal_push_end_typed; [apply Hst | done].
Qed.

Lemma portal_push_typed chunk :
  ppushed_typed chunk -> keeps ptyped (portal_push_chunk chunk) (fun _ => True).
Proof.
  intros Hc b Hb. unfold portal_push_chunk. cbv zeta.
  assert (forall r : res BuildError unit,
    keeps ptyped (portal_append_chunk chunk ;;; clift r)%rust (fun _ => True)) as Hk.
  { intros r. eapply keeps_bind; [by apply portal_append_typed |]. intros _ _. keeps_step. }
  match goal with |- context [match ?x with Ok _ => _ | Err _ => _ | Panic => _ end] =>
    generalize x; intros r end.
  destruct r as [[] | e |]; [| destruct (_ && _) |]; try (by split); by apply Hk.
Qed.

Record pcb_args_typed (c : PortalAssignmentChunkBuilder) : Prop := {
  pcbt_id : forall id, pcb_id c = Some id -> DataChunk_wf id;
  pcbt_version : scalar_ok U32 (pcb_version c);
  pcbt_timestamp : scalar_ok U64 (pcb_last_block_timestamp c)
}.

Lemma portal_cb_finish_typed c :
  ptyped (pcb_p c) -> pcb_args_typed c -> ptyped (snd (portal_cb_finish c)).
Proof.
  intros Hb Hc. unfold portal_cb_finish.
  match goal with |- ptyped (snd (?m _)) => assert (keeps ptyped m (fun _ => True)) as Hk end;
    [| by apply Hk].
  eapply keeps_bind; [apply keeps_lift | intros range Hr].
  eapply keeps_bind; [apply keeps_lift | intros id Hid%ok_or_Ok].
  eapply keeps_bind; [apply keeps_lift | intros _ He%ensure_Ok]. zbool.
  eapply keeps_bind; [apply keeps_lift | intros h Hh].
  pose proof (pcbt_id c Hc id Hid) as Hwf. pose proof Hwf as (Ht & Hf & Hl & _).
  apply portal_push_typed. split; cbn -[scalar_ok u64]; try done; try congruence.
  - by eapply chunk_hash_typed.
  - apply Hc.
  - apply Hc.
Qed.

Context `{!PeerBytes}.

Lemma portal_add_worker_typed p status :
  keeps ptyped (portal_add_worker p status) (fun _ => True).
Proof.
  unfold portal_add_worker. do 2 keeps_step. keeps_step.
  { intros s []. by split. }
  eapply keeps_bind; [apply keeps_lift | intros w Hw%WorkerId_from_typed].
  keeps_step. intros s []. split; try done. cbn. apply Forall_snoc; [done |].
  split; [done | apply status_to_fb_typed].
Qed.

Lemma portal_assignment_of_typed b : ptyped b -> PortalAssignment_typed (portal_assignment_of b).
Proof. intros Hb. split; [apply Hb | cbn; apply Forall_fmap, Hb]. Qed.

Inductive pcall : PortalAssignmentBuilder * Spoilt -> PortalAssignmentBuilder * Spoilt -> Prop :=
| pcall_continuity b s check : pcall (b, s) (portal_check_continuity check b, s)
| pcall_new_chunk b s workers : Forall (scalar_ok U16) workers -> pcall (b, s) (pb_set_staged b workers, s)
| pcall_chunk c s r b' :
    pcb_args_typed c -> portal_cb_finish c = (r, b') -> pcall (pcb_p c, s) (b', after_chunk r s)
| pcall_finish b s name n h b' : scalar_ok U32 n ->
    portal_dataset_finish h (portal_new_dataset name n b) = (Ok tt, b') -> pcall (b, s) (b', after_emit s)
| pcall_finish_fails b s name n h e b' : scalar_ok U32 n ->
    portal_dataset_finish h (portal_new_dataset name n b) = (Err e, b') -> pcall (b, s) (b', after_discard s)
| pcall_finish_panics b s name n h b' : scalar_ok U32 n ->
    portal_dataset_finish h (portal_new_dataset name n b) = (Panic, b') ->
    pcall (b, s) (portal_dataset_drop (portal_new_dataset name n b'), after_discard s)
| pcall_drop b s name n : pcall (b, s) (portal_dataset_drop (portal_new_dataset name n b), after_discard s)
| pcall_worker b s id status r b' : portal_add_worker id status b = (r, b') -> pcall (b, s) (b', s).

Definition pcalled (b : PortalAssignmentBuilder) (s : Spoilt) : Prop := rtc pcall (portal_new, Sound) (b, s).

Lemma pcall_typed x y : pcall x y -> ptyped x.1 -> ptyped y.1.
Proof.
  assert (forall name n h b r b', scalar_ok U32 n ->
    portal_dataset_finish h (portal_new_dataset name n b) = (r, b') -> ptyped b -> ptyped b') as Hf.
  { intros name n h b r b' Hn Hr Hb. pose proof (portal_finish_typed h (portal_new_dataset name n b) Hn Hb) as Hi.
    by rewrite Hr in Hi. }
  destruct 1 as [b s check | b s ws Hw | c s r b' Hc Hr | b s name n h b' Hn Hr | b s name n h e b' Hn Hr
    | b s name n h b' Hn Hr | b s name n | b s id status r b' Hr]; cbn [fst]; intros Hb.
  - destruct Hb. by split.
  - destruct Hb. by split.
  - pose proof (portal_cb_finish_typed c Hb Hc) as Hi. by rewrite Hr in Hi.
  - by eapply Hf.
  - by eapply Hf.
  - apply portal_drop_typed. cbn. by eapply Hf.
  - by apply portal_drop_typed.
  - destruct (portal_add_worker_typed id status b Hb) as [Hi _]. by rewrite Hr in Hi.
Qed.

Lemma pcalled_typed b s : pcalled b s -> PortalAssignment_typed (portal_assignment_of b).
Proof.
  intros Hc. apply portal_assignment_of_typed. change b with (fst (b, s)). unfold pcalled in Hc.
  assert (ptyped (fst (portal_new, Sound))) as Hn by apply portal_new_typed. set (x0 := (portal_new, Sound)) in *.
  clearbody x0. induction Hc as [x | x y z Hs _ IH]; [done |]. apply IH. by eapply pcall_typed.
Qed.

(** *** What the datasets are *)

Definition pbehind (b : PortalAssignmentBuilder) : Prop :=
  (length (pcol_worker_ends (pb_columns b)) < length (pcol_first_blocks (pb_columns b)))%nat.

Definition pdatasets_inv (b : PortalAssignmentBuilder) : Prop :=
  Forall (fun ds => check_portal_dataset ds = Ok tt) (pb_all_datasets b).

Definition pspoilt_inv (x : PortalAssignmentBuilder * Spoilt) : Prop :=
  match x.2 with
  | Sound => pinv x.1
  | SpoiltOpen => pbehind x.1 /\ pdatasets_inv x.1
  | SpoiltEmitted => Exists (fun ds => check_portal_dataset ds <> Ok tt) (pb_all_datasets x.1)
  end.

Lemma pspoilt_same b b' s :
  pb_columns b' = pb_columns b -> pb_last_block b' = pb_last_block b -> pb_all_datasets b' = pb_all_datasets b ->
  pspoilt_inv (b, s) -> pspoilt_inv (b', s).
Proof. unfold pspoilt_inv, pinv, pdatasets_inv, pbehind. cbn. by intros -> -> ->. Qed.

Lemma pspoilt_discard b b' s :
  pb_all_datasets b' = pb_all_datasets b -> pspoilt_inv (b, s) -> pspoilt_inv (portal_discard_dataset b', after_discard s).
Proof.
  intros E. assert (pdatasets_inv b -> pinv (portal_discard_dataset b')) as Hp.
  { intros Hd. split; [exists []; split; [apply pcols_rep_default | done] |]. split; [done |]. cbn. by rewrite E. }
  unfold pspoilt_inv. destruct s; cbn; [| | by rewrite E].
  - intros (_ & _ & Hd). by apply Hp.
  - intros [_ Hd]. by apply Hp.
Qed.

Lemma pbehind_refused c id n h lb :
  (length (pcol_worker_ends c) < length (pcol_first_blocks c))%nat ->
  check_portal_dataset (portal_dataset_of id n h lb c) <> Ok tt.
Proof.
  intros Hb. unfold check_portal_dataset, check_columns. intros Hk.
  destruct (check_dense _ _ _) as [[] | e |] eqn:Hd; [| done ..].
  eapply (check_dense_In _ _ _ "worker_offsets"%string) in Hd; [| unfold portal_dense; apply elem_of_app; left;
    do 3 apply list_elem_of_further; apply list_elem_of_here].
  unfold csr_offsets in Hd. cbn in Hd. lia.
Qed.

Lemma pchunk_spoilt c s r b' :
  pcb_args_typed c -> portal_cb_finish c = (r, b') -> pspoilt_inv (pcb_p c, s) -> pspoilt_inv (b', after_chunk r s).
Proof.
  intros Hc Hf Hi. pose proof (portal_cb_finish_frame c) as Hr. rewrite Hf in Hr.
  destruct Hr as (lb & cols & k & E & Hk & Hends). cbn in E, Hends. subst b'.
  assert (r = Err TooManyWorkerRefs \/ r <> Err TooManyWorkerRefs) as [-> | Hne]
    by (destruct r as [| [] |]; auto).
  - destruct Hends as [-> He]. unfold pspoilt_inv, pdatasets_inv, pbehind in *. destruct s; cbn in *; [| | done].
    + destruct Hi as ((rows & Hrep & _) & _ & Hd). split; [| done].
      rewrite He, Hk, (prep_ends _ _ Hrep), (prep_first _ _ Hrep), length_ends_of, !length_fmap. lia.
    + destruct Hi as [Ho Hd]. split; [lia | done].
  - assert (after_chunk r s = s) as -> by (by destruct r as [| [] |], s).
    unfold pspoilt_inv in *. destruct s; cbn in *; [| | done].
    + eapply portal_chunk_inv; [apply Hc | exact Hf | done..].
    + destruct Hi as [Ho Hd]. split; [| done]. unfold pbehind in *. cbn.
      destruct r as [| [] |]; try done; lia.
Qed.

Lemma pemit_spoilt b s name n h b' :
  portal_dataset_finish h (portal_new_dataset name n b) = (Ok tt, b') -> pspoilt_inv (b, s) -> pspoilt_inv (b', after_emit s).
Proof.
  intros Hf Hi. pose proof (portal_finish_cases _ _ _ _ _ _ Hf) as [(_ & lb & Hlb & E) | [[? _] _]]; [| done].
  destruct s; unfold pspoilt_inv in *; cbn in *.
  - by eapply portal_finish_inv.
  - destruct Hi as [Hb _]. subst b'. cbn. apply Exists_app. right. constructor. by apply pbehind_refused.
  - subst b'. cbn. apply Exists_app. by left.
Qed.

Lemma pcall_spoilt x y : pcall x y -> pspoilt_inv x -> pspoilt_inv y.
Proof.
  destruct 1 as [b s check | b s ws Hw | c s r b' Hc Hr | b s name n h b' Hn Hr | b s name n h e b' Hn Hr
    | b s name n h b' Hn Hr | b s name n | b s id status r b' Hr].
  - by apply pspoilt_same.
  - by apply pspoilt_same.
  - by apply pchunk_spoilt.
  - by apply (pemit_spoilt b s name n h).
  - apply portal_finish_cases in Hr as [[? _] | [(_ & lb & cols & E) Hd]]; [done |].
    rewrite (Hd e eq_refl). apply pspoilt_discard. by rewrite E.
  - apply portal_finish_cases in Hr as [[? _] | [(_ & lb & cols & E) _]]; [done |].
    apply pspoilt_discard. cbn. by rewrite E.
  - by apply pspoilt_discard.
  - apply portal_worker_frame in Hr as (E1 & E2 & E3). by apply pspoilt_same.
Qed.

Lemma pcalled_spoilt b s : pcalled b s -> pspoilt_inv (b, s).
Proof.
  intros Hc. unfold pcalled in Hc.
  assert (pspoilt_inv (portal_new, Sound)) as Hn.
  { split; [exists []; split; [apply pcols_rep_default | done] |]. split; [done | constructor]. }
  set (x0 := (portal_new, Sound)) in *. clearbody x0.
  induction Hc as [x | x y z Hs _ IH]; [done |]. apply IH. by eapply pcall_spoilt.
Qed.
End portal_typed.
