(* ===== verification/Convert.v ===== *)
(** * Converting a combined assignment (crates/assignments/examples/convert_assignment.rs)

    The tool that reads a legacy assignment, builds the worker and portal
    assignments from it and compares both with the source.  It is the one
    client in the sources that drives all three formats: the [legacy] reader,
    both builders and both readers.

    Files are a finite map from path to contents; a path the process may not
    write is refused by [writable].  The gzip and zstd codecs are third-party
    code.  Messages on stderr are not modelled, except the counts of anomalous
    timestamps, which [build_portal] answers beside the buffer. *)

From S2P Require Import Prelude RustStd StrSets DataChunk Search AssignmentFb Sealing Columns.
From S2P Require Import WorkerBuilder WorkerReader PortalAssignment LegacyAssignment.
From Stdlib Require Import ZArith Lia Ascii String.
From stdpp Require Import base sets strings gmap sorting numbers list.

Open Scope Z_scope.

(** ** Errors *)

(** What [verify] found to differ. *)
Inductive Mismatch :=
| DatasetCountDiffers
| DatasetIdDiffers (index : nat)
| LastBlockDiffers | HeadHashDiffers
| WorkerChunkCountDiffers | PortalChunkCountDiffers | BaseUrlDiffers
| ChunkFiledElsewhere
| WorkerChunkMissing | WorkerIdDiffers | WorkerRangeDiffers | SizeDiffers | UrlDiffers
| NamesNoRoster | TablesDiffer
| PortalChunkMissing | PortalIdDiffers | PortalRangeDiffers | TimestampDiffers
| VersionDiffers | WorkerIndexesDiffer
| WorkerCountDiffers | IdentityDiffers (index : nat) | StatusDiffers (index : nat)
| HeadersLost | SealedHeadersDiffer (index : nat).

Inductive ConvertError :=
| MissingValue (option_name : str) | BadLevel (value : str) | BadCompress (value : str)
| NoInput | NoFileName
| IoError (path : str) | NotGzip | NotZstd | BadLevelForZstd
| NotLegacy (e : InvalidAssignment)
| WorkerBlobInvalid (e : InvalidAssignment) | PortalBlobInvalid (e : InvalidAssignment)
| IdUnparsable (id : str) | IdDisagrees (id : str)
| BuildFailed (e : BuildError)
| HeadersMissing | PeerIdInvalid
| Differs (m : Mismatch).

(** ** Tables and rosters *)

Definition tables_of (chunk : Chunk) : list str :=
  dedup (sort_strs (omap (fun file => str_strip_suffix (lit ".parquet") (fu_filename file))
                      (ch_files chunk))).

Definition roster_of (dataset : Dataset) : list str :=
  btree_elements (fold_left (fun union chunk => btree_extend union (tables_of chunk))
                    (ld_chunks dataset) ∅).

Definition rosters (legacy : Assignment) : list (list str) := roster_of <$> as_datasets legacy.

(** [PeerId]'s equality. *)
Definition peer_eqb `{PeerIdOps} (p q : PeerId) : bool :=
  match peer_cmp p q with Eq => true | _ => false end.

Section convert.
Context `{BuildProfile, PeerIdOps, CryptoOps, VectorLookup}.

Definition schema_id {E} (dataset_index : nat) : res E Z :=
  add_u32 (Z.of_nat dataset_index mod 2 ^ 32) 1.

Definition id_of (chunk : Chunk) : res ConvertError DataChunk :=
  id ← map_err (fun _ : unit => IdUnparsable (ch_id chunk)) (DataChunk_from_str (ch_id chunk));
  ensure (dc_first_block id =? ch_first_block chunk) (IdDisagrees (ch_id chunk));;
  Ok id.

(** ** The worker assignment *)

Definition set_wdb_p (d : WorkerDatasetBuilder) (p : WorkerAssignmentBuilder) :=
  mkWorkerDatasetBuilder p (wdb_id d) (wdb_base_url d) (wdb_emitted d).

(** The body of the loop over a dataset's chunks. *)
Definition convert_worker_chunk (write_schema_id : Z) (roster : list str) (chunk : Chunk)
    : comp WorkerDatasetBuilder ConvertError unit := (
  let tables := tables_of chunk in
  id <- clift (id_of chunk) ;;
  fun staging =>
    let staged :=
      cb_set_worker_indexes (ch_worker_indexes chunk)
        (cb_set_write_schema_id write_schema_id
           (cb_set_size (ch_size chunk)
              (cb_set_block_range (dc_first_block id, dc_last_block id)
                 (cb_set_id id (dataset_new_chunk staging))))) in
    let '(r, staged) :=
      if negb (length tables =? length roster)%nat then cb_tables tables staged
      else (Ok tt, staged) in
    let '(r, p) := match r with
                   | Ok _ => cb_finish staged
                   | Err e => (Err e, cb_p staged)
                   | Panic => (Panic, cb_p staged)
                   end in
    (map_err BuildFailed r, set_wdb_p staging p))%rust.

(** The body of the loop over the datasets; an early return drops the dataset
    builder. *)
Definition convert_worker_dataset (all_rosters : list (list str)) (numbered : nat * Dataset)
    : comp WorkerAssignmentBuilder ConvertError unit := (
  let '(index, dataset) := numbered in
  write_schema_id <- clift (schema_id index) ;;
  roster <- clift (expect (all_rosters !! index)) ;;
  let chunks := ld_chunks dataset in
  first <- clift (vget chunks 0) ;;
  fun b =>
    let staging := new_dataset (ld_id dataset) (ch_dataset_base_url first) b in
    let '(r, staging) := cfor chunks (convert_worker_chunk write_schema_id roster) staging in
    match r with
    | Ok _ => cmap_err BuildFailed (fun _ => dataset_finish staging) b
    | Err e => (Err e, dataset_drop staging)
    | Panic => (Panic, dataset_drop staging)
    end)%rust.

Definition convert_worker_entry (legacy : Assignment) (index : nat)
    : comp WorkerAssignmentBuilder ConvertError unit := (
  entry <- clift (vget (as_workers legacy) index) ;;
  headers <- clift (ok_or (we_encrypted_headers entry) HeadersMissing) ;;
  worker <- clift (as_get_worker_by_index legacy (Z.of_nat index mod 2 ^ 16)) ;;
  peer_id <- clift (ok_or (lw_peer_id worker) PeerIdInvalid) ;;
  cmap_err BuildFailed
    (add_worker_with_sealed_headers peer_id (lw_status worker)
       (identity headers) (nonce headers) (ciphertext headers)))%rust.

Definition build_worker_steps (legacy : Assignment)
    : comp WorkerAssignmentBuilder ConvertError unit := (
  let all_rosters := rosters legacy in
  cfor (imap pair all_rosters) (fun '(index, roster) => (
    id <- clift (schema_id index) ;;
    cmap_err BuildFailed (register_write_schema id roster))%rust) ;;;
  cfor (imap pair (as_datasets legacy)) (convert_worker_dataset all_rosters) ;;;
  cfor (seq 0 (length (as_workers legacy))) (convert_worker_entry legacy))%rust.

Definition build_worker `{Flatbuffer WorkerAssignment} (rng : Rng) (legacy : Assignment)
    : res ConvertError (list Z) :=
  let '(r, builder) := build_worker_steps legacy (check_continuity false (new_with_rng (lit "") rng)) in
  r;; Ok (finish builder).

(** ** The portal assignment *)

(** The dataset being staged with its counters. *)
Record PortalConversion := mkPortalConversion {
  cv_staging : PortalDatasetBuilder;
  cv_previous : Z;
  cv_zeros : nat;
  cv_descents : nat
}.

Definition set_pdb_p (d : PortalDatasetBuilder) (p : PortalAssignmentBuilder) :=
  mkPortalDatasetBuilder p (pdb_id d) (pdb_read_schema_id d) (pdb_emitted d).

Definition convert_portal_chunk (chunk : Chunk) : comp PortalConversion ConvertError unit := (
  id <- clift (id_of chunk) ;;
  fun c =>
    let staged :=
      pcb_set_worker_indexes (ch_worker_indexes chunk)
        (pcb_set_block_range (dc_first_block id, dc_last_block id)
           (pcb_set_id id (portal_dataset_new_chunk (cv_staging c)))) in
    let '(staged, previous, zeros, descents) :=
      match ch_last_block_timestamp chunk with
      | Some timestamp =>
        (pcb_set_last_block_timestamp timestamp staged, timestamp,
         if timestamp =? 0 then (cv_zeros c + 1)%nat else cv_zeros c,
         if timestamp <? cv_previous c then (cv_descents c + 1)%nat else cv_descents c)
      | None => (staged, cv_previous c, cv_zeros c, cv_descents c)
      end in
    let '(r, p) := portal_cb_finish staged in
    (map_err BuildFailed r,
     mkPortalConversion (set_pdb_p (cv_staging c) p) previous zeros descents))%rust.

(** The totals printed at the end. *)
Record Anomalies := mkAnomalies {
  an_zeros : nat; an_descents : nat; anomalous : gmap str (nat * nat) }.

Definition convert_portal_dataset (numbered : nat * Dataset)
    : comp (PortalAssignmentBuilder * Anomalies) ConvertError unit := (
  let '(index, dataset) := numbered in
  read_schema_id <- clift (schema_id index) ;;
  fun '(b, an) =>
    let staging := portal_new_dataset (ld_id dataset) read_schema_id b in
    let '(r, c) := cfor (ld_chunks dataset) convert_portal_chunk
                     (mkPortalConversion staging 0 0 0) in
    let staging := cv_staging c in
    let an' :=
      if (0 <? cv_zeros c)%nat || (0 <? cv_descents c)%nat then
        mkAnomalies (an_zeros an + cv_zeros c) (an_descents an + cv_descents c)
          (<[ld_id dataset := (cv_zeros c, cv_descents c)]> (anomalous an))
      else an in
    match r;; ld_last_block_hash dataset with
    | Ok last_block_hash =>
      match portal_dataset_finish last_block_hash staging with
      | (Ok _, p) => (Ok tt, (p, an'))
      | (Err e, p) => (Err (BuildFailed e), (p, an))
      | (Panic, p) => (Panic, (p, an))
      end
    | Err e => (Err e, (portal_dataset_drop staging, an))
    | Panic => (Panic, (portal_dataset_drop staging, an))
    end)%rust.

Definition convert_portal_entry (legacy : Assignment) (index : nat)
    : comp PortalAssignmentBuilder ConvertError unit := (
  worker <- clift (as_get_worker_by_index legacy (Z.of_nat index mod 2 ^ 16)) ;;
  peer_id <- clift (ok_or (lw_peer_id worker) PeerIdInvalid) ;;
  cmap_err BuildFailed (portal_add_worker peer_id (lw_status worker)))%rust.

Definition build_portal_datasets (legacy : Assignment)
    : comp (PortalAssignmentBuilder * Anomalies) ConvertError unit :=
  cfor (imap pair (as_datasets legacy)) convert_portal_dataset.

Definition build_portal `{Flatbuffer PortalAssignment} (legacy : Assignment)
    : res ConvertError (list Z * Anomalies) :=
  let '(r, (builder, an)) :=
    build_portal_datasets legacy (portal_check_continuity false portal_new, mkAnomalies 0 0 ∅) in
  r;;
  (let '(r, builder) :=
     cfor (seq 0 (length (as_workers legacy))) (convert_portal_entry legacy) builder in
   r;; Ok (portal_finish builder, an)).

(** ** Comparing with the source *)

Definition check_that (b : bool) (m : Mismatch) : res ConvertError unit := ensure b (Differs m).

(** [a && b] where either side may panic. *)
Definition and_also {E} (a b : res E bool) : res E bool :=
  x ← a;
  if (x : bool) then b else Ok false.

Definition verify_chunk (worker : WorkerAssignment) (dataset : Dataset)
    (w : WorkerAssignmentDataset) (p : PortalAssignmentDataset) (numbered : nat * Chunk)
    : res ConvertError unit :=
  let '(i, source_chunk) := numbered in
  let chunk_id := ch_id source_chunk in
  parsed ← id_of source_chunk;
  let last_block := dc_last_block parsed in
  check_that (str_eqb (ch_dataset_id source_chunk) (ld_id dataset)) ChunkFiledElsewhere;;
  wc ← ok_or (wd_chunk w (Z.of_nat i mod 2 ^ 32)) (Differs WorkerChunkMissing);
  wid ← wk_id wc;
  check_that (bool_decide (wid = Some chunk_id)) WorkerIdDiffers;;
  wrange ← and_also (Z.eqb (ch_first_block source_chunk) <$> wk_first_block wc)
                    (Z.eqb last_block <$> wk_last_block wc);
  check_that wrange WorkerRangeDiffers;;
  wsize ← wk_size wc;
  check_that (wsize =? ch_size source_chunk) SizeDiffers;;
  wurl ← wk_url wc;
  check_that (match wurl with None => true | Some url => str_ends_with url chunk_id end) UrlDiffers;;
  tables ← chunk_tables worker wc;
  resolved ← ok_or tables (Differs NamesNoRoster);
  check_that (bool_decide (resolved = tables_of source_chunk)) TablesDiffer;;
  pc ← ok_or (pd_chunk p (Z.of_nat i mod 2 ^ 32)) (Differs PortalChunkMissing);
  pid ← pk_id pc;
  check_that (bool_decide (pid = Some chunk_id)) PortalIdDiffers;;
  prange ← and_also (Z.eqb (ch_first_block source_chunk) <$> pk_first_block pc)
                    (Z.eqb last_block <$> pk_last_block pc);
  check_that prange PortalRangeDiffers;;
  ptime ← pk_last_block_timestamp pc;
  check_that (ptime =? timestamp_of source_chunk) TimestampDiffers;;
  versions ← and_also (Z.eqb 0 <$> pk_version pc) (Z.eqb 0 <$> wk_version wc);
  check_that versions VersionDiffers;;
  let source_workers := ch_worker_indexes source_chunk in
  workers ← and_also ((fun l : list Z => bool_decide (l = source_workers)) <$> pk_worker_indexes pc)
                     ((fun l : list Z => bool_decide (l = source_workers)) <$> wk_worker_indexes wc);
  check_that workers WorkerIndexesDiffer.

Definition verify_dataset (worker : WorkerAssignment) (portal : PortalAssignment)
    (numbered : nat * Dataset) : res ConvertError unit :=
  let '(index, source) := numbered in
  w ← vget (wa_datasets worker) index;
  p ← vget (pa_datasets portal) index;
  check_that (str_eqb (wd_id w) (ld_id source) && str_eqb (pd_id p) (ld_id source))
    (DatasetIdDiffers index);;
  check_that ((wd_last_block w =? ld_last_block source) && (pd_last_block p =? ld_last_block source))
    LastBlockDiffers;;
  head ← ld_last_block_hash source;
  check_that (bool_decide (pd_last_block_hash p = head)) HeadHashDiffers;;
  let chunks := ld_chunks source in
  check_that (wd_chunk_count w =? length chunks)%nat WorkerChunkCountDiffers;;
  check_that (pd_chunk_count p =? length chunks)%nat PortalChunkCountDiffers;;
  first ← vget chunks 0;
  check_that (str_eqb (wd_base_url w) (ch_dataset_base_url first)) BaseUrlDiffers;;
  rfor (imap pair chunks) (verify_chunk worker source w p).

Definition verify_worker (legacy : Assignment) (worker : WorkerAssignment)
    (portal : PortalAssignment) (index : nat) : res ConvertError unit :=
  source ← as_get_worker_by_index legacy (Z.of_nat index mod 2 ^ 16);
  peer_id ← ok_or (lw_peer_id source) PeerIdInvalid;
  w ← wa_get_worker_by_index worker (Z.of_nat index mod 2 ^ 16);
  p ← pa_get_worker_by_index portal (Z.of_nat index mod 2 ^ 16);
  same_peer ← and_also (peer_eqb peer_id <$> ok_or (aw_peer_id w) PeerIdInvalid)
                       (peer_eqb peer_id <$> ok_or (pw_peer_id p) PeerIdInvalid);
  check_that same_peer (IdentityDiffers index);;
  let status := lw_status source in
  check_that (bool_decide (aw_status w = status) && bool_decide (pw_status p = status))
    (StatusDiffers index);;
  entry ← vget (as_workers legacy) index;
  source_headers ← ok_or (we_encrypted_headers entry) HeadersMissing;
  copied_entry ← vget (wa_workers worker) index;
  copied ← ok_or (we_encrypted_headers copied_entry) (Differs HeadersLost);
  check_that (bool_decide (identity copied = identity source_headers)
              && bool_decide (nonce copied = nonce source_headers)
              && bool_decide (ciphertext copied = ciphertext source_headers))
    (SealedHeadersDiffer index).

Definition verify (legacy : Assignment) (worker : WorkerAssignment) (portal : PortalAssignment)
    : res ConvertError unit :=
  check_that ((length (wa_datasets worker) =? length (as_datasets legacy))%nat
              && (length (pa_datasets portal) =? length (as_datasets legacy))%nat)
    DatasetCountDiffers;;
  rfor (imap pair (as_datasets legacy)) (verify_dataset worker portal);;
  check_that ((length (wa_workers worker) =? length (as_workers legacy))%nat
              && (length (pa_workers portal) =? length (as_workers legacy))%nat)
    WorkerCountDiffers;;
  rfor (seq 0 (length (as_workers legacy))) (verify_worker legacy worker portal).
End convert.
