(* ===== verification/ConvertTheory.v ===== *)
(** * Converting a combined assignment: what a successful build holds

    Each loop of [build_worker] and [build_portal], read as staging the
    source's chunks with the operations of the two builders, and the relation
    between a source dataset and the dataset built from it. *)

From S2P Require Import Prelude RustStd StrSets DataChunk Search AssignmentFb Sealing Columns.
From S2P Require Import WorkerBuilder WorkerReader WorkerTheory WorkerProps WorkerReach WorkerTables.
From S2P Require Import PortalAssignment PortalTheory LegacyAssignment Convert.
From Stdlib Require Import ZArith Lia Ascii String.
From stdpp Require Import base sets strings gmap sorting relations numbers list.

Open Scope Z_scope.

(** ** Definitions *)

(** What the converter says of a chunk to each builder. *)
Definition worker_spec (n : Z) (roster : list str) (chunk : Chunk) (id : DataChunk)
    : WorkerChunkSpec :=
  mkWorkerChunkSpec id (ch_size chunk) 0 n
    (if (length (tables_of chunk) =? length roster)%nat then None else Some (tables_of chunk))
    (ch_worker_indexes chunk).

Definition portal_spec (chunk : Chunk) (id : DataChunk) : PortalChunkSpec :=
  mkPortalChunkSpec id 0 (timestamp_of chunk) (ch_worker_indexes chunk).

Definition ids_of (chunks : list Chunk) (ids : list DataChunk) : Prop :=
  Forall2 (fun chunk id => id_of chunk = Ok id) chunks ids.

(** Each chunk starts where the one before ended (when the block after it is
    a [u64]). *)
Definition contiguous_ids (ids : list DataChunk) : Prop :=
  forall i id id', ids !! i = Some id -> ids !! S i = Some id' ->
    dc_last_block id + 1 < 2 ^ 64 -> dc_last_block id + 1 = dc_first_block id'.

(** Dataset [ds] holds the chunks of [src], whose ids parse as [ids], staged
    under the schema registered for its index. *)
Definition worker_matches `{BuildProfile} (schemas : gmap Z (list str))
    (src : Dataset) (ids : list DataChunk) (ds : WorkerAssignmentDataset) : Prop :=
  exists n first lid bitss gens c,
    schemas !! n = Some (roster_of src)
    /\ ids_of (ld_chunks src) ids
    /\ Forall2 (staged_bits schemas) (zip_with (worker_spec n (roster_of src)) (ld_chunks src) ids) bitss
    /\ wcols_rep (zip_with row_of (zip_with (worker_spec n (roster_of src)) (ld_chunks src) ids) bitss) c
    /\ ld_chunks src !! 0%nat = Some first /\ last ids = Some lid
    /\ contiguous_ids ids
    /\ ds = dataset_of_columns (ld_id src) (ch_dataset_base_url first) (dc_last_block lid) gens c.

Definition portal_matches (src : Dataset) (ids : list DataChunk) (ds : PortalAssignmentDataset)
    : Prop :=
  exists n h lid c,
    ids_of (ld_chunks src) ids
    /\ pcols_rep (prow_of <$> zip_with portal_spec (ld_chunks src) ids) c
    /\ last ids = Some lid /\ ld_last_block_hash (E := ConvertError) src = Ok h
    /\ contiguous_ids ids
    /\ ds = portal_dataset_of (ld_id src) n h (dc_last_block lid) c.

(** ** Tables and rosters *)

Lemma tables_of_ascending chunk : ascending (tables_of chunk).
Proof. apply dedup_ascending, sort_strs_sorted. Qed.

Lemma elem_of_roster chunks X x :
  x ∈ fold_left (fun union chunk => btree_extend union (tables_of chunk)) chunks X
  <-> x ∈ X \/ exists chunk, chunk ∈ chunks /\ x ∈ tables_of chunk.
Proof.
  revert X. induction chunks as [| c chunks IH]; intros X; cbn [fold_left].
  - split; [by left |]. by intros [? | (? & ?%not_elem_of_nil & _)].
  - rewrite IH. unfold btree_extend. rewrite elem_of_union, elem_of_list_to_set.
    setoid_rewrite elem_of_cons. naive_solver.
Qed.

Lemma roster_of_ascending src : ascending (roster_of src).
Proof. apply btree_elements_ascending. Qed.

(** A chunk's tables are a sublist of its dataset's roster, so they are the
    whole roster when they are as many. *)
Lemma tables_sublist src chunk :
  chunk ∈ ld_chunks src -> tables_of chunk `sublist_of` roster_of src.
Proof.
  intros Hin. apply ascending_sublist; [apply tables_of_ascending | apply roster_of_ascending |].
  intros x Hx. unfold roster_of. rewrite elem_of_btree_elements, elem_of_roster. right. eauto.
Qed.

Lemma tables_all src chunk :
  chunk ∈ ld_chunks src -> length (tables_of chunk) = length (roster_of src) ->
  tables_of chunk = roster_of src.
Proof. intros Hin Hl. apply sublist_eq_length; [by apply tables_sublist | lia]. Qed.

Lemma id_of_parse chunk id :
  id_of chunk = Ok id -> DataChunk_from_str (ch_id chunk) = Ok id /\ dc_first_block id = ch_first_block chunk.
Proof.
  unfold id_of. destruct (DataChunk_from_str (ch_id chunk)) as [d | |]; [| done..].
  cbn. destruct (dc_first_block d =? ch_first_block chunk) eqn:E; [| done]. cbn. intros [= ->].
  by zbool.
Qed.

Lemma id_of_wf chunk id : id_of chunk = Ok id -> DataChunk_wf id.
Proof. intros [Hp _]%id_of_parse. by eapply from_str_wf. Qed.

Lemma ids_of_wf chunks ids : ids_of chunks ids -> Forall DataChunk_wf ids.
Proof. induction 1 as [| c id chunks ids Hc _ IH]; constructor; [by eapply id_of_wf | done]. Qed.

(** ** Successful staging is contiguous *)

Section contiguity.
Context `{BuildProfile, PeerIdOps, CryptoOps}.

Lemma push_chunk_contiguous chunk (b b' : WorkerAssignmentBuilder) l :
  push_chunk chunk b = (Ok tt, b') -> wb_last_block b = Some l -> l + 1 < 2 ^ 64 ->
  l + 1 = fst (pc_block_range chunk).
Proof.
  unfold push_chunk. intros Hp Hl Hlt. rewrite Hl, add_u64_ok in Hp by done.
  cbn [mbind res_bind] in Hp. destruct (l + 1 =? fst (pc_block_range chunk)) eqn:E; [by zbool |].
  cbn [negb is_ok] in Hp. destruct (wb_check_continuity b); [done |]. cbn in Hp.
  apply cbind_Ok in Hp as (? & ? & _ & Hp). done.
Qed.

Lemma stage_contiguous s (b b' : WorkerAssignmentBuilder) l :
  stage s b = (Ok tt, b') -> wb_last_block b = Some l -> l + 1 < 2 ^ 64 ->
  l + 1 = dc_first_block (ws_id s).
Proof.
  unfold stage. intros Hs Hl Hlt. destruct (ws_tables s) as [tables |].
  - destruct (cb_tables _ _) as [[[] | |] c] eqn:Hc; [| done..].
    apply cb_tables_Ok in Hc as (ws & roster & bits & _ & _ & _ & ->).
    apply cb_finish_Ok in Hs as (range & id & ? & ? & ? & [= <-] & _ & _ & _ & _ & _ & _ & _ & _ & Hp).
    by eapply push_chunk_contiguous in Hp.
  - apply cb_finish_Ok in Hs as (range & id & ? & ? & ? & [= <-] & _ & _ & _ & _ & _ & _ & _ & _ & Hp).
    by eapply push_chunk_contiguous in Hp.
Qed.

Lemma stage_all_contiguous specs (b b' : WorkerAssignmentBuilder) i s s' :
  Forall (fun s => DataChunk_wf (ws_id s)) specs -> stage_all specs b = (Ok tt, b') ->
  (exists rows, wcols_rep rows (wb_columns b)) ->
  specs !! i = Some s -> specs !! S i = Some s' ->
  dc_last_block (ws_id s) + 1 < 2 ^ 64 -> dc_last_block (ws_id s) + 1 = dc_first_block (ws_id s').
Proof.
  intros Hwf. revert b i. induction Hwf as [| s0 specs Hs0 Hwf IH]; intros b i Hst [rows Hrep] Hi Hi' Hlt; [done |].
  cbn [stage_all] in Hst. apply cbind_Ok in Hst as ([] & b1 & Hst1 & Hst).
  destruct (stage_Ok s0 b b1 rows Hs0 Hrep Hst1) as (bits & _ & _ & Hrep1 & Hl1 & _).
  destruct i as [| i].
  - cbn in Hi. simplify_eq. destruct specs as [| s1 specs]; [done |]. cbn in Hi'. simplify_eq.
    cbn [stage_all] in Hst. apply cbind_Ok in Hst as ([] & b2 & Hst2 & _).
    by eapply stage_contiguous.
  - cbn in Hi, Hi'. by eapply (IH b1 i); [| eauto | ..].
Qed.


Lemma portal_stage_all_contiguous specs (b b' : PortalAssignmentBuilder) i s s' :
  Forall (fun s => DataChunk_wf (ps_id s)) specs -> portal_stage_all specs b = (Ok tt, b') ->
  (exists rows, pcols_rep rows (pb_columns b)) -> (forall l, pb_last_block b = Some l -> u64 l) ->
  specs !! i = Some s -> specs !! S i = Some s' ->
  dc_last_block (ps_id s) + 1 < 2 ^ 64 -> dc_last_block (ps_id s) + 1 = dc_first_block (ps_id s').
Proof.
  intros Hwf. revert b i. induction Hwf as [| s0 specs Hs0 Hwf IH];
    intros b i Hst [rows Hrep] Hlu Hi Hi' Hlt; [done |].
  cbn [portal_stage_all] in Hst. apply cbind_Ok in Hst as ([] & b1 & Hst1 & Hst).
  destruct (portal_stage_Ok s0 b b1 rows Hs0 Hlu Hrep Hst1) as (Hrep1 & Hl1 & _ & _).
  assert (forall l, pb_last_block b1 = Some l -> u64 l) as Hlu1
    by (rewrite Hl1; intros ? [= <-]; apply Hs0).
  destruct i as [| i].
  - cbn in Hi. injection Hi as <-. destruct Hwf as [| s1 specs Hs1 _]; [done |].
    cbn in Hi'. injection Hi' as <-.
    cbn [portal_stage_all] in Hst. apply cbind_Ok in Hst as ([] & b2 & Hst2 & _).
    destruct (portal_stage_Ok s1 b1 b2 _ Hs1 Hlu1 Hrep1 Hst2) as (_ & _ & _ & Hc).
    apply Hc; [done |]. unfold u64_max. lia.
  - cbn in Hi, Hi'. by eapply (IH b1 i); [| eauto | ..].
Qed.
End contiguity.

Lemma zip_contiguous {A} (spec : Chunk -> DataChunk -> A) (get : A -> DataChunk) chunks ids :
  (forall c id, get (spec c id) = id) -> length chunks = length ids ->
  (forall i s s', zip_with spec chunks ids !! i = Some s -> zip_with spec chunks ids !! S i = Some s' ->
     dc_last_block (get s) + 1 < 2 ^ 64 -> dc_last_block (get s) + 1 = dc_first_block (get s')) ->
  contiguous_ids ids.
Proof.
  intros Hget Hlen Hall i id id' Hi Hi' Hlt.
  destruct (lookup_lt_is_Some_2 chunks i) as [c Hc]; [apply lookup_lt_Some in Hi; lia |].
  destruct (lookup_lt_is_Some_2 chunks (S i)) as [c' Hc']; [apply lookup_lt_Some in Hi'; lia |].
  specialize (Hall i (spec c id) (spec c' id')). rewrite !Hget in Hall.
  apply Hall; [apply lookup_zip_with_Some; eauto .. | done].
Qed.

(** ** The loops of [build_worker] *)

Lemma imap_id_snd {A} (l : list A) : snd <$> imap pair l = l.
Proof.
  rewrite fmap_imap. transitivity (id <$> l); [exact (imap_const id l) | apply list_fmap_id].
Qed.

Section worker_loops.
Context `{BuildProfile, PeerIdOps, CryptoOps}.

(** One round of the chunk loop is one staged chunk. *)
Lemma convert_worker_chunk_stage n roster chunk id d :
  id_of chunk = Ok id ->
  convert_worker_chunk n roster chunk d
  = (map_err BuildFailed (fst (stage (worker_spec n roster chunk id) (wdb_p d))),
     set_wdb_p d (snd (stage (worker_spec n roster chunk id) (wdb_p d)))).
Proof.
  intros Hid. unfold convert_worker_chunk, cbind, clift. rewrite Hid. cbv zeta.
  unfold stage, worker_spec. cbn [ws_id ws_size ws_version ws_write_schema_id ws_workers ws_tables].
  destruct (length (tables_of chunk) =? length roster)%nat; cbn [negb].
  - unfold dataset_new_chunk, cb_set_version, cb_set_size, cb_set_block_range, cb_set_id, new_chunk,
      cb_set_write_schema_id, cb_set_worker_indexes. cbn -[cb_finish].
    by destruct (cb_finish _).
  - change (cb_set_version 0 ?c) with c. unfold dataset_new_chunk.
    set (c := cb_set_worker_indexes _ _).
    destruct (cb_tables _ c) as [[[] | e |] c']; [by destruct (cb_finish c') | done | done].
Qed.

Lemma worker_chunks_Ok n roster chunks d d' :
  cfor chunks (convert_worker_chunk n roster) d = (Ok tt, d') ->
  exists ids, ids_of chunks ids /\ d' = set_wdb_p d (wdb_p d')
  /\ stage_all (zip_with (worker_spec n roster) chunks ids) (wdb_p d) = (Ok tt, wdb_p d').
Proof.
  revert d. induction chunks as [| c chunks IH]; intros d Hf.
  - cbn in Hf. injection Hf as <-. exists []. split; [constructor |]. by destruct d.
  - cbn [cfor] in Hf. apply cbind_Ok in Hf as ([] & d1 & Hc & Hf).
    destruct (id_of c) as [id | |] eqn:Hid.
    2,3: unfold convert_worker_chunk, cbind, clift in Hc; rewrite Hid in Hc; done.
    rewrite (convert_worker_chunk_stage n roster c id d Hid) in Hc.
    destruct (stage _ _) as [[[] | |] b1] eqn:Hs; [| done..]. cbn in Hc. injection Hc as <-.
    apply IH in Hf as (ids & Hids & -> & Hst). exists (id :: ids).
    split; [by constructor |]. split; [done |]. cbn [zip_with stage_all].
    unfold cbind. by rewrite Hs.
Qed.

(** Registering the rosters: each index finds its own roster again. *)
Definition schemas_inv (schemas : gmap Z (list str)) (numbered : list (nat * list str)) : Prop :=
  forall i roster, (i, roster) ∈ numbered ->
    exists n, schema_id (E := ConvertError) i = Ok n /\ schemas !! n = Some roster.

Lemma zip_forallb_eq (l k : list str) :
  length l = length k -> forallb (fun '(old, new) => str_eqb old new) (zip l k) = true -> l = k.
Proof.
  revert k. induction l as [| x l IH]; intros [| y k] Hl Hz; cbn in *; [done.. |].
  zbool. apply bool_decide_eq_true in H2 as ->. f_equal. apply IH; [lia | done].
Qed.

Lemma register_write_schema_Ok n roster b b' :
  register_write_schema n roster b = (Ok tt, b') ->
  wb_write_schemas b' !! n = Some roster /\ wb_write_schemas b ⊆ wb_write_schemas b'
  /\ b' = set_config b (wb_check_continuity b) (wb_write_schemas b').
Proof.
  unfold register_write_schema. intros Hf. repeat cinv Hf.
  destruct (wb_write_schemas b !! n) as [old |] eqn:Hn.
  - unfold clift in Hf. destruct (_ && _) eqn:Hu; cbn in Hf; [| done]. injection Hf as <-. zbool.
    rewrite (zip_forallb_eq old roster) in Hn by done. split; [done |].
    split; [done |]. by destruct b.
  - unfold cmodify in Hf. injection Hf as <-. cbn. rewrite lookup_insert_eq. split; [done |].
    split; [by apply insert_subseteq | done].
Qed.

Lemma register_rosters_Ok numbered b b' :
  cfor numbered (fun '(index, roster) => (
    id <- clift (schema_id index) ;;
    cmap_err BuildFailed (register_write_schema id roster))%rust) b = (Ok tt, b') ->
  schemas_inv (wb_write_schemas b') numbered
  /\ b' = set_config b (wb_check_continuity b) (wb_write_schemas b').
Proof.
  apply (cfor_inv (fun done b' => schemas_inv (wb_write_schemas b') done
    /\ b' = set_config b (wb_check_continuity b) (wb_write_schemas b'))).
  - split; [by intros ?? ?%not_elem_of_nil | by destruct b].
  - intros done [i roster] rest b1 b2 _ [Hinv Hb1] Hf. cinv Hf. apply cmap_err_Ok in Hf.
    apply register_write_schema_Ok in Hf as (Hn & Hsub & Hb2).
    split; [| rewrite Hb2, Hb1; done].
    intros j r [Hj | Hj]%elem_of_app.
    + destruct (Hinv j r Hj) as (m & Hm & Hl). exists m. split; [done |].
      by eapply lookup_weaken.
    + apply list_elem_of_singleton in Hj as [= -> ->]. eauto.
Qed.

(** What the dataset loop leaves alone. *)
Definition same_config (b b' : WorkerAssignmentBuilder) : Prop :=
  wb_write_schemas b' = wb_write_schemas b /\ wb_worker_entries b' = wb_worker_entries b
  /\ wb_last_peer_id b' = wb_last_peer_id b.

Lemma zip_spec_wf {A} (spec : Chunk -> DataChunk -> A) (get : A -> DataChunk) chunks ids :
  (forall c id, get (spec c id) = id) -> ids_of chunks ids ->
  Forall (fun s => DataChunk_wf (get s)) (zip_with spec chunks ids).
Proof.
  intros Hget. induction 1 as [| c id chunks ids Hc _ IH]; cbn; constructor; [| done].
  rewrite Hget. by eapply id_of_wf.
Qed.

Lemma last_zip_spec {A} (spec : Chunk -> DataChunk -> A) (get : A -> DataChunk) chunks ids :
  (forall c id, get (spec c id) = id) -> length chunks = length ids ->
  get <$> last (zip_with spec chunks ids) = last ids.
Proof.
  intros Hget. revert ids. induction chunks as [| c chunks IH]; intros [| id ids] Hl; [done.. |].
  cbn [zip_with]. rewrite !last_cons, <- (IH ids) by (cbn in Hl; lia).
  destruct (last (zip_with spec chunks ids)); cbn; by rewrite ?Hget.
Qed.

Lemma convert_worker_dataset_Ok all_rosters i src b b' :
  all_rosters !! i = Some (roster_of src) -> schemas_inv (wb_write_schemas b) (imap pair all_rosters) ->
  clean b -> convert_worker_dataset all_rosters (i, src) b = (Ok tt, b') ->
  exists ids ds, worker_matches (wb_write_schemas b) src ids ds
  /\ clean b' /\ same_config b b' /\ wb_all_datasets b' = wb_all_datasets b ++ [ds].
Proof.
  intros Hr Hs [Hc Hl] Hf. unfold convert_worker_dataset in Hf.
  destruct (Hs i (roster_of src)) as (n & Hn & Hsn).
  { apply elem_of_lookup_imap. eauto. }
  cinv Hf. rewrite Hn in Hv. injection Hv as <-. cinv Hf. rewrite Hr in Hv. injection Hv as <-.
  cinv Hf. rename v into first.
  destruct (cfor _ _ _) as [[[] | |] d] eqn:Hloop; [| done..].
  apply worker_chunks_Ok in Hloop as (ids & Hids & Hd & Hst). cbn [wdb_p new_dataset] in Hst.
  rewrite Hd in Hf. clear Hd. set (b1 := wdb_p d) in *. clearbody b1. set (specs := zip_with _ _ _) in *.
  pose proof (Forall2_length _ _ _ Hids) as Hlen.
  assert (Forall (fun s => DataChunk_wf (ws_id s)) specs) as Hwf by (by apply zip_spec_wf).
  destruct (stage_all_Ok specs b b1 [] Hwf) as (bitss & Hbits & Hrep & Hfr & Hlast);
    [rewrite Hc; apply wcols_rep_default | done |]. cbn in Hrep.
  pose proof (last_zip_spec (worker_spec n (roster_of src)) ws_id (ld_chunks src) ids) as Hls.
  fold specs in Hls. specialize (Hls (fun _ _ => eq_refl) Hlen).
  destruct (last specs) as [s0 |] eqn:Hs0.
  2: { clear -Hv Hls Hids. by destruct Hids as [| c id chunks ids]; [| rewrite last_cons in Hls; destruct (last ids)]. }
  apply cmap_err_Ok in Hf. unfold set_wdb_p in Hf. cbn [wdb_p wdb_id wdb_base_url wdb_emitted new_dataset] in Hf.
  erewrite emit_Ok in Hf; [| exact Hrep | | exact Hlast].
  2: { clear -Hs0 Hbits. clearbody specs. by destruct Hbits. }
  injection Hf as <-. destruct Hfr as (E1 & _ & E3 & E4 & _ & E6).
  eexists ids, _. split; [| split; [done | split; [done | cbn; by rewrite E3]]].
  exists n, first, (ws_id s0), bitss, (create_generations b1), (wb_columns b1). rewrite <- Hls.
  do 6 (split; [done |]). split; [| done].
  apply (zip_contiguous (worker_spec n (roster_of src)) ws_id _ _ (fun _ _ => eq_refl) Hlen).
  intros j s s'. apply (stage_all_contiguous _ b b1); [done.. |]. eexists. rewrite Hc. apply wcols_rep_default.
Qed.

(** The entry built for worker [index] of the source. *)
Definition entry_matches (legacy : Assignment) (index : nat) (e : WorkerEntry) : Prop :=
  exists src indexed id,
    as_workers legacy !! index = Some src
    /\ as_workers legacy !! Z.to_nat (Z.of_nat index mod 2 ^ 16) = Some indexed
    /\ WorkerId_try_into (we_worker_id indexed) = Some id
    /\ WorkerId_from (E := BuildError) id = Ok (we_worker_id e)
    /\ we_status e = status_to_fb (status_from_fb (we_status indexed))
    /\ is_Some (we_encrypted_headers src) /\ we_encrypted_headers e = we_encrypted_headers src.

Lemma convert_worker_entry_Ok legacy i b b' :
  convert_worker_entry legacy i b = (Ok tt, b') -> exists e wid,
  entry_matches legacy i e /\ wb_worker_entries b' = wb_worker_entries b ++ [(wid, e)]
  /\ wb_all_datasets b' = wb_all_datasets b /\ wb_write_schemas b' = wb_write_schemas b.
Proof.
  unfold convert_worker_entry. intros Hf. repeat cinv Hf. unfold as_get_worker_by_index in Hv1.
  destruct (vget (as_workers legacy) _) as [indexed | |] eqn:Hx; cbn in Hv1; [| done..].
  injection Hv1 as <-. apply vget_Ok in Hx. apply cmap_err_Ok in Hf.
  unfold add_worker_with_sealed_headers in Hf. repeat cinv Hf. unfold cmodify in Hf. injection Hf as <-.
  eexists _, _. split; [| cbn; done]. exists v, indexed, v2. cbn. rewrite Hv0.
  split; [done |]. do 4 (split; [done |]). split; [done |]. by destruct v0.
Qed.

(** The dataset loop: one dataset per source dataset, over the same schemas. *)
Lemma worker_datasets_Ok legacy b b' :
  clean b -> wb_all_datasets b = [] ->
  schemas_inv (wb_write_schemas b) (imap pair (rosters legacy)) ->
  cfor (imap pair (as_datasets legacy)) (convert_worker_dataset (rosters legacy)) b = (Ok tt, b') ->
  same_config b b'
  /\ Forall2 (fun src ds => exists ids, worker_matches (wb_write_schemas b) src ids ds)
       (as_datasets legacy) (wb_all_datasets b').
Proof.
  intros Hc Hd Hs Hf. rewrite <- (imap_id_snd (as_datasets legacy)).
  apply (cfor_inv (fun done b' => clean b' /\ same_config b b'
    /\ Forall2 (fun src ds => exists ids, worker_matches (wb_write_schemas b) src ids ds)
         (snd <$> done) (wb_all_datasets b'))) in Hf as (_ & ? & ?); [done | |].
  { split; [done |]. split; [done |]. rewrite Hd. constructor. }
  intros done [i src] rest s1 s2 Hl (Hcs & (Hss & Hes & Hps) & Hms) Hstep.
  apply convert_worker_dataset_Ok in Hstep as (ids & ds & Hw & Hc' & (Hs' & He' & Hp') & Hd');
    [| | by rewrite Hss | done].
  - split; [done |]. split; [split_and!; congruence |]. rewrite fmap_app, Hd'.
    apply Forall2_app; [done |]. repeat constructor. exists ids. by rewrite <- Hss.
  - unfold rosters. rewrite list_lookup_fmap.
    assert ((i, src) ∈ imap pair (as_datasets legacy)) as Hin
      by (rewrite Hl; apply elem_of_app; right; by left).
    apply elem_of_lookup_imap in Hin as (j & y & [= <- <-] & ->). done.
Qed.

(** The worker loop: one entry per source worker, and nothing else. *)
Lemma worker_entries_Ok legacy indexes b b' :
  wb_worker_entries b = [] -> cfor indexes (convert_worker_entry legacy) b = (Ok tt, b') ->
  wb_all_datasets b' = wb_all_datasets b /\ wb_write_schemas b' = wb_write_schemas b
  /\ Forall2 (entry_matches legacy) indexes (snd <$> wb_worker_entries b').
Proof.
  intros He. apply (cfor_inv (fun done b' => wb_all_datasets b' = wb_all_datasets b
    /\ wb_write_schemas b' = wb_write_schemas b
    /\ Forall2 (entry_matches legacy) done (snd <$> wb_worker_entries b'))).
  - rewrite He. split; [done |]. split; [done | constructor].
  - intros done i rest s1 s2 _ (E1 & E2 & Hms) Hstep.
    apply convert_worker_entry_Ok in Hstep as (e & wid & Hem & He' & Hd' & Hs').
    rewrite Hd', Hs', He', fmap_app. split; [done |]. split; [done |].
    apply Forall2_app; [done |]. by repeat constructor.
Qed.

Lemma build_worker_steps_Ok legacy b b' :
  clean b -> wb_all_datasets b = [] -> wb_worker_entries b = [] ->
  build_worker_steps legacy b = (Ok tt, b') ->
  Forall2 (fun src ds => exists ids, worker_matches (wb_write_schemas b') src ids ds)
    (as_datasets legacy) (wb_all_datasets b')
  /\ Forall2 (entry_matches legacy) (seq 0 (length (as_workers legacy)))
       (snd <$> wb_worker_entries b').
Proof.
  intros Hc Hd He Hf. unfold build_worker_steps in Hf. cbv zeta in Hf.
  apply cbind_Ok in Hf as ([] & b1 & Hf1 & Hf). apply cbind_Ok in Hf as ([] & b2 & Hf2 & Hf3).
  apply register_rosters_Ok in Hf1 as [Hs Hb1].
  apply worker_datasets_Ok in Hf2 as [(Hs2 & He2 & _) Hm]; [| by rewrite Hb1 ..| done].
  apply worker_entries_Ok in Hf3 as (Hd3 & Hs3 & Hm3); [| by rewrite He2, Hb1].
  split; [| done]. by rewrite Hd3, Hs3, Hs2.
Qed.
End worker_loops.

(** ** The loops of [build_portal] *)

Section portal_loops.
Context `{BuildProfile, PeerIdOps}.

Lemma convert_portal_chunk_stage chunk id c :
  id_of chunk = Ok id ->
  exists previous zeros descents,
  convert_portal_chunk chunk c
  = (map_err BuildFailed (fst (portal_stage (portal_spec chunk id) (pdb_p (cv_staging c)))),
     mkPortalConversion
       (set_pdb_p (cv_staging c) (snd (portal_stage (portal_spec chunk id) (pdb_p (cv_staging c)))))
       previous zeros descents).
Proof.
  intros Hid. unfold convert_portal_chunk, cbind, clift. rewrite Hid. cbv zeta.
  unfold portal_stage, portal_spec, timestamp_of, portal_dataset_new_chunk, portal_new_chunk,
    pcb_set_worker_indexes, pcb_set_last_block_timestamp, pcb_set_version, pcb_set_block_range,
    pcb_set_id.
  destruct (ch_last_block_timestamp chunk) as [t |]; cbn -[portal_cb_finish];
    match goal with |- context [portal_cb_finish ?x] => destruct (portal_cb_finish x) end;
    do 3 eexists; reflexivity.
Qed.

Lemma portal_chunks_Ok chunks c c' :
  cfor chunks convert_portal_chunk c = (Ok tt, c') ->
  exists ids, ids_of chunks ids
  /\ cv_staging c' = set_pdb_p (cv_staging c) (pdb_p (cv_staging c'))
  /\ portal_stage_all (zip_with portal_spec chunks ids) (pdb_p (cv_staging c))
     = (Ok tt, pdb_p (cv_staging c')).
Proof.
  revert c. induction chunks as [| chunk chunks IH]; intros c Hf.
  - cbn in Hf. injection Hf as <-. exists []. split; [constructor |]. by destruct c as [[] ???].
  - cbn [cfor] in Hf. apply cbind_Ok in Hf as ([] & c1 & Hc & Hf).
    destruct (id_of chunk) as [id | |] eqn:Hid.
    2,3: unfold convert_portal_chunk, cbind, clift in Hc; rewrite Hid in Hc; done.
    destruct (convert_portal_chunk_stage chunk id c Hid) as (pr & z & de & E). rewrite E in Hc.
    destruct (portal_stage _ _) as [[[] | |] b1] eqn:Hs; [| done..]. cbn in Hc. injection Hc as <-.
    apply IH in Hf as (ids & Hids & Hst & Hall). exists (id :: ids).
    split; [by constructor |]. split; [by rewrite Hst |]. cbn [zip_with portal_stage_all].
    unfold cbind. by rewrite Hs.
Qed.

Lemma convert_portal_dataset_Ok i src b an b' an' :
  portal_clean b -> convert_portal_dataset (i, src) (b, an) = (Ok tt, (b', an')) ->
  exists ids ds, portal_matches src ids ds /\ portal_clean b'
  /\ pb_worker_entries b' = pb_worker_entries b /\ pb_last_peer_id b' = pb_last_peer_id b
  /\ pb_all_datasets b' = pb_all_datasets b ++ [ds].
Proof.
  intros [Hc Hl] Hf. unfold convert_portal_dataset in Hf. cinv Hf. rename v into n.
  destruct (cfor _ _ _) as [r c] eqn:Hloop.
  destruct r as [[] | |]; cbn [mbind res_bind] in Hf; [| done..].
  destruct (ld_last_block_hash src) as [h | |] eqn:Hh; [| done..].
  apply portal_chunks_Ok in Hloop as (ids & Hids & Hd & Hst). cbn [cv_staging] in Hd, Hst.
  rewrite Hd in Hf. clear Hd. set (b1 := pdb_p (cv_staging c)) in *. clearbody b1.
  cbn [pdb_p portal_new_dataset] in Hst.
  set (specs := zip_with _ _ _) in *.
  assert (Forall (fun s => DataChunk_wf (ps_id s)) specs) as Hwf by (by apply zip_spec_wf).
  destruct (portal_stage_all_frame specs b b1 Hst) as [Hent Hpeer].
  destruct (portal_stage_all_Ok specs b b1 [] Hwf) as (Hrep & Hds & Hlast & _);
    [rewrite Hc; apply pcols_rep_default | by rewrite Hl | done |]. cbn in Hrep.
  pose proof (last_zip_spec portal_spec ps_id (ld_chunks src) ids (fun _ _ => eq_refl)
    (Forall2_length _ _ _ Hids)) as Hls. fold specs in Hls.
  destruct (last specs) as [s0 |] eqn:Hs0.
  2: { clear -Hh Hls Hids. unfold ld_last_block_hash in Hh.
       by destruct Hids as [| c id chunks ids]; [| rewrite last_cons in Hls; destruct (last ids)]. }
  unfold set_pdb_p in Hf. cbn [pdb_p pdb_id pdb_read_schema_id pdb_emitted portal_new_dataset] in Hf.
  erewrite portal_emit_Ok in Hf; [| exact Hrep | | exact Hlast].
  2: { intros E%fmap_nil_inv. by rewrite E in Hs0. }
  injection Hf as <- _. eexists ids, _. split; [| split; [done | split; [done | split; [done | cbn; by rewrite Hds]]]].
  exists n, h, (ps_id s0), (pb_columns b1). rewrite <- Hls.
  do 4 (split; [done |]). split; [| done].
  apply (zip_contiguous portal_spec ps_id _ _ (fun _ _ => eq_refl) (Forall2_length _ _ _ Hids)).
  intros j s s'. apply (portal_stage_all_contiguous _ b b1); [done.. | | by rewrite Hl].
  eexists. rewrite Hc. apply pcols_rep_default.
Qed.

Lemma portal_datasets_Ok legacy b an b' an' :
  portal_clean b -> pb_all_datasets b = [] ->
  build_portal_datasets legacy (b, an) = (Ok tt, (b', an')) ->
  pb_worker_entries b' = pb_worker_entries b
  /\ Forall2 (fun src ds => exists ids, portal_matches src ids ds) (as_datasets legacy)
       (pb_all_datasets b').
Proof.
  intros Hc Hd Hf. rewrite <- (imap_id_snd (as_datasets legacy)).
  apply (cfor_inv (fun done s => portal_clean s.1 /\ pb_worker_entries s.1 = pb_worker_entries b
    /\ Forall2 (fun src ds => exists ids, portal_matches src ids ds)
         (snd <$> done) (pb_all_datasets s.1))) in Hf as (_ & ? & ?); [done | |].
  { split; [done |]. split; [done |]. cbn. rewrite Hd. constructor. }
  intros done [i src] rest [s1 a1] [s2 a2] _ (Hcs & Hes & Hms) Hstep. cbn in Hcs, Hes, Hms |- *.
  apply convert_portal_dataset_Ok in Hstep as (ids & ds & Hp & Hc' & He' & _ & Hd'); [| done].
  split; [done |]. split; [congruence |]. rewrite fmap_app, Hd'.
  apply Forall2_app; [done |]. repeat constructor. by exists ids.
Qed.

Definition portal_entry_matches (legacy : Assignment) (index : nat) (e : PortalEntry) : Prop :=
  exists indexed id,
    as_workers legacy !! Z.to_nat (Z.of_nat index mod 2 ^ 16) = Some indexed
    /\ WorkerId_try_into (we_worker_id indexed) = Some id
    /\ WorkerId_from (E := BuildError) id = Ok (pe_worker_id e)
    /\ pe_status e = status_to_fb (status_from_fb (we_status indexed)).

Lemma portal_entries_Ok legacy indexes b b' :
  pb_worker_entries b = [] -> cfor indexes (convert_portal_entry legacy) b = (Ok tt, b') ->
  pb_all_datasets b' = pb_all_datasets b
  /\ Forall2 (portal_entry_matches legacy) indexes (snd <$> pb_worker_entries b').
Proof.
  intros He. apply (cfor_inv (fun done b' => pb_all_datasets b' = pb_all_datasets b
    /\ Forall2 (portal_entry_matches legacy) done (snd <$> pb_worker_entries b'))).
  - rewrite He. split; [done | constructor].
  - intros done i rest s1 s2 _ (E1 & Hms) Hstep. unfold convert_portal_entry in Hstep.
    repeat cinv Hstep. unfold as_get_worker_by_index in Hv.
    destruct (vget (as_workers legacy) _) as [indexed | |] eqn:Hx; cbn in Hv; [| done..].
    injection Hv as <-. apply vget_Ok in Hx. apply cmap_err_Ok in Hstep.
    unfold portal_add_worker in Hstep. repeat cinv Hstep. unfold cmodify in Hstep.
    injection Hstep as <-. cbn. split; [done |]. rewrite fmap_app. apply Forall2_app; [done |].
    repeat constructor. by exists indexed, v0.
Qed.

Lemma build_portal_intro `{Flatbuffer PortalAssignment} legacy :
  let run := build_portal_datasets legacy
               (portal_check_continuity false portal_new, mkAnomalies 0 0 ∅) in
  fst run = Ok tt ->
  fst (cfor (seq 0 (length (as_workers legacy))) (convert_portal_entry legacy) (fst (snd run))) = Ok tt ->
  exists buf, build_portal legacy = Ok (buf, snd (snd run)).
Proof.
  cbv zeta. unfold build_portal. destruct (build_portal_datasets _ _) as [r [b an]]. cbn [fst snd].
  intros ->. destruct (cfor _ _ _) as [r' b']. cbn [fst]. intros ->. eexists. reflexivity.
Qed.

(** The builder [build_portal] ends with. *)
Definition portal_built (legacy : Assignment) : PortalAssignmentBuilder :=
  snd (cfor (seq 0 (length (as_workers legacy))) (convert_portal_entry legacy)
    (fst (snd (build_portal_datasets legacy
                 (portal_check_continuity false portal_new, mkAnomalies 0 0 ∅))))).

Lemma build_portal_Ok `{Flatbuffer PortalAssignment} legacy buf an :
  build_portal legacy = Ok (buf, an) -> exists b, b = portal_built legacy /\ buf = portal_finish b
  /\ Forall2 (fun src ds => exists ids, portal_matches src ids ds) (as_datasets legacy)
       (pb_all_datasets b)
  /\ Forall2 (portal_entry_matches legacy) (seq 0 (length (as_workers legacy)))
       (snd <$> pb_worker_entries b).
Proof.
  unfold build_portal, portal_built.
  destruct (build_portal_datasets _ _) as [[[] | |] [b1 an1]] eqn:Hd; [| done..]. cbn [fst snd].
  apply portal_datasets_Ok in Hd as [He Hm]; [| done..]. cbn [mbind res_bind].
  destruct (cfor _ _ _) as [[[] | |] b2] eqn:Hw; [| done..]. cbn. intros [= <- <-].
  apply portal_entries_Ok in Hw as [Hd2 Hm2]; [| by rewrite He]. exists b2. by rewrite Hd2.
Qed.
End portal_loops.

Section worker_build.
Context `{BuildProfile, PeerIdOps, CryptoOps}.

Lemma build_worker_intro `{Flatbuffer WorkerAssignment} rng legacy :
  fst (build_worker_steps legacy (check_continuity false (new_with_rng (lit "") rng))) = Ok tt ->
  exists buf, build_worker rng legacy = Ok buf.
Proof.
  unfold build_worker. destruct (build_worker_steps _ _) as [r b]. cbn [fst]. intros ->.
  eexists. reflexivity.
Qed.

(** The builder [build_worker] ends with. *)
Definition worker_built (rng : Rng) (legacy : Assignment) : WorkerAssignmentBuilder :=
  snd (build_worker_steps legacy (check_continuity false (new_with_rng (lit "") rng))).

Lemma build_worker_Ok `{Flatbuffer WorkerAssignment} rng legacy buf :
  build_worker rng legacy = Ok buf -> exists b, b = worker_built rng legacy /\ buf = finish b
  /\ Forall2 (fun src ds => exists ids, worker_matches (wb_write_schemas b) src ids ds)
       (as_datasets legacy) (wb_all_datasets b)
  /\ Forall2 (entry_matches legacy) (seq 0 (length (as_workers legacy)))
       (snd <$> wb_worker_entries b).
Proof.
  unfold build_worker, worker_built. unfold new_with_rng. destruct (generate_key rng) as [key rng'].
  destruct (build_worker_steps _ _) as [[[] | |] b] eqn:Hs; [| done..]. cbn. intros [= <-].
  apply build_worker_steps_Ok in Hs as [Hm He]; [| done..]. by exists b.
Qed.
End worker_build.
