(* ===== verification/ConvertProps.v ===== *)
(** * Converting a combined assignment: the conversion reproduces its source

    Whatever [build_worker] and [build_portal] finish is accepted by the two
    readers and passes [verify] against the assignment it was built from; and
    a source with a gap between two chunks is never converted. *)

From S2P Require Import Prelude RustStd StrSets DataChunk Search AssignmentFb Sealing Columns.
From S2P Require Import WorkerBuilder WorkerReader WorkerTheory WorkerProps WorkerReach WorkerTables.
From S2P Require Import PortalAssignment PortalTheory LegacyAssignment Convert ConvertTheory.
From Stdlib Require Import ZArith Lia Ascii String.
From stdpp Require Import base sets strings gmap sorting relations numbers list.

Open Scope Z_scope.

(** ** Definitions *)

(** What a legacy assignment says more than once, it says the same: a chunk
    names the dataset it is filed under, its id is the one its blocks print as,
    and the dataset ends where its last chunk does.  The bitmaps of a dataset
    are indexed by 32-bit offsets. *)
Definition dataset_consistent (src : Dataset) : Prop :=
  Forall (fun c => ch_dataset_id c = ld_id src) (ld_chunks src)
  /\ Forall (fun c => forall id, DataChunk_from_str (ch_id c) = Ok id ->
       DataChunk_to_string (E := ConvertError) id = Ok (ch_id c)) (ld_chunks src)
  /\ (forall c id, last (ld_chunks src) = Some c -> DataChunk_from_str (ch_id c) = Ok id ->
       ld_last_block src = dc_last_block id)
  /\ Z.of_nat (length (ld_chunks src) * div_ceil8 (length (roster_of src))) < 2 ^ 32.

(** The ids of the source's workers have the 38 bytes of an Ed25519 peer id. *)
Definition source_consistent `{PeerIdOps} (legacy : Assignment) : Prop :=
  Forall dataset_consistent (as_datasets legacy)
  /\ Forall (fun e => forall p, WorkerId_try_into (we_worker_id e) = Some p ->
       length (peer_to_bytes p) = 38%nat) (as_workers legacy).

(** Reduce the steps of [verify] whose values are known. *)
Ltac rstep := cbn [mbind res_bind fmap res_fmap ensure ok_or and_also].

(** ** One chunk *)

Lemma ids_of_unique chunks ids ids' : ids_of chunks ids -> ids_of chunks ids' -> ids = ids'.
Proof.
  intros H. revert ids'. induction H as [| c id chunks ids Hc _ IH]; intros ids' H'; inv H'; [done |].
  rewrite Hc in *. simplify_eq. f_equal. by apply IH.
Qed.

Lemma staged_bits_length schemas s bits roster :
  schemas !! ws_write_schema_id s = Some roster -> staged_bits schemas s bits ->
  (length bits <= div_ceil8 (length roster))%nat.
Proof.
  intros Hs (roster' & Hr & Hb). rewrite Hs in Hr. simplify_eq.
  destruct (ws_tables s); [| subst; cbn; lia].
  apply tables_loop_sound in Hb as (_ & _ & ->); [| intros; apply bit_present_zeros].
  by rewrite length_replicate.
Qed.

Lemma div_ceil8_zero {A} (l : list A) : div_ceil8 (length l) = 0%nat -> l = [].
Proof.
  destruct l as [| x l]; [done |]. intros E. exfalso. revert E. unfold div_ceil8. cbn [length].
  pose proof (Nat.div_str_pos (S (length l) + 7) 8). lia.
Qed.

Lemma concat_length_bound {A} (ls : list (list A)) k :
  Forall (fun l => length l <= k)%nat ls -> (length (concat ls) <= length ls * k)%nat.
Proof. induction 1 as [| l ls Hl _ IH]; cbn; [lia |]. rewrite length_app. lia. Qed.

Lemma staged_bitmaps_fit schemas src n ids bitss :
  schemas !! n = Some (roster_of src) -> dataset_consistent src -> ids_of (ld_chunks src) ids ->
  Forall2 (staged_bits schemas) (zip_with (worker_spec n (roster_of src)) (ld_chunks src) ids) bitss ->
  Z.of_nat (length (concat (wr_bits <$> zip_with row_of
    (zip_with (worker_spec n (roster_of src)) (ld_chunks src) ids) bitss))) < 2 ^ 32.
Proof.
  intros Hn (_ & _ & _ & Hfit) Hids Hbits. set (specs := zip_with _ _ _) in *.
  assert (length specs = length (ld_chunks src)) as Hl.
  { unfold specs. rewrite length_zip_with, <- (Forall2_length _ _ _ Hids). lia. }
  assert (wr_bits <$> zip_with row_of specs bitss = bitss) as ->.
  { clear Hl. clearbody specs. induction Hbits; cbn; [done | by f_equal]. }
  pose proof (concat_length_bound bitss (div_ceil8 (length (roster_of src)))) as Hb.
  rewrite <- (Forall2_length _ _ _ Hbits), Hl in Hb. enough (Forall (fun l => length l <=
    div_ceil8 (length (roster_of src)))%nat bitss) as Hall by (specialize (Hb Hall); lia).
  apply Forall_lookup. intros i bits Hi. destruct (Forall2_lookup_r _ _ _ _ _ Hbits Hi) as (s & Hs & Hsb).
  apply (staged_bits_length schemas s bits _); [| done].
  unfold specs in Hs. by apply lookup_zip_with_Some in Hs as (ch & id & -> & _).
Qed.

(** A worker chunk, converted from [chunk] whose id parses as [id]. *)
Section worker_chunk.
Context `{BuildProfile, PeerIdOps, CryptoOps, VectorLookup, !VectorLookupLaws}.
Variables (b : WorkerAssignmentBuilder) (src : Dataset) (n : Z) (id : DataChunk) (chunk : Chunk).
Variables (name url : str) (lb : Z) (gens : option (list GenerationEntry)).
Variables (rows : list WorkerRow) (c : WorkerDatasetColumns) (i : nat) (bits : list Z).
Hypothesis Hwf : DataChunk_wf id.
Hypothesis Hin : chunk ∈ ld_chunks src.
Hypothesis Hn : wb_write_schemas b !! n = Some (roster_of src).
Hypothesis Hrep : wcols_rep rows c.
Hypothesis Hrow : rows !! i = Some (row_of (worker_spec n (roster_of src) chunk id) bits).
Hypothesis Hbits :
  staged_bits (wb_write_schemas b) (worker_spec n (roster_of src) chunk id) bits.
Hypothesis Hsize : Z.of_nat (length (concat (wr_bits <$> rows))) < 2 ^ 32.
Let ds := dataset_of_columns name url lb gens c.
Let k := mkWorkerChunk ds (Z.of_nat i).

Lemma converted_id : exists s, DataChunk_to_string (E := ConvertError) id = Ok s
  /\ wk_id (E := ConvertError) k = Ok (Some s)
  /\ wk_url (E := ConvertError) k = Ok (Some (with_slash url ++ s)).
Proof.
  destruct (read_hash_wf _ Hwf) as (h & Hh & _).
  destruct (push_chunk_id_display (E := ConvertError) [] _ h Hwf Hh) as (s & Hs & Hp).
  destruct (push_chunk_id_display (E := ConvertError) (with_slash url) _ h Hwf Hh)
    as (s' & Hs' & Hp'). rewrite Hs in Hs'. simplify_eq. exists s'. split; [done |].
  assert (wd_base_url ds = url) as Hurl by apply ds_fields. unfold wk_id, wk_url, k, ds.
  rewrite (read_top _ _ _ _ _ _ Hrep _ _ Hrow), (read_first_block _ _ _ _ _ _ Hrep _ _ Hrow),
    (read_last_block _ _ _ _ _ _ Hrep _ _ Hrow), (read_hash_column _ _ _ _ _ _ Hrep _ _ Hrow),
    (read_version _ _ _ _ _ _ Hrep _ _ Hrow).
  cbn -[push_chunk_id dataset_of_columns]. fold ds. rewrite Hh, Hurl.
  unfold wr_start, wr_end. cbn -[push_chunk_id]. rewrite Hp. split; [done |].
  fold (with_slash url). by rewrite Hp'.
Qed.

Lemma converted_tables :
  chunk_tables (E := ConvertError) (assignment_of b) k = Ok (Some (tables_of chunk)).
Proof.
  rewrite (chunk_tables_ok b k n (roster_of src) bits Hn).
  - destruct Hbits as (roster & Hr & Hb). cbn in Hr. rewrite Hn in Hr. simplify_eq.
    cbn [ws_tables worker_spec] in Hb.
    destruct (length (tables_of chunk) =? length (roster_of src))%nat eqn:El.
    + subst bits. zbool. by rewrite (tables_all src chunk).
    + pose proof Hb as Hb'. apply tables_loop_sound in Hb as (Hsel & _ & Hlen);
        [| intros; apply bit_present_zeros].
      rewrite drop_0 in Hsel. rewrite length_replicate in Hlen. do 2 f_equal.
      destruct (length bits =? 0)%nat eqn:E0; [| done]. zbool. exfalso.
      assert (roster_of src = []) as Hnil by (apply div_ceil8_zero; lia).
      rewrite Hnil in El, Hsel. cbn in Hsel. by rewrite <- Hsel in El.
  - apply (read_write_schema_id _ _ _ _ _ _ Hrep _ _ Hrow).
  - by apply (read_tables_present _ _ _ _ _ _ Hrep _ _ Hrow).
Qed.
End worker_chunk.

(** ** One dataset *)

Section dataset.
Context `{BuildProfile, PeerIdOps, CryptoOps, VectorLookup, !VectorLookupLaws}.
Variables (b : WorkerAssignmentBuilder) (src : Dataset) (ids : list DataChunk).
Variables (w : WorkerAssignmentDataset) (p : PortalAssignmentDataset).
Hypothesis Hw : worker_matches (wb_write_schemas b) src ids w.
Hypothesis Hp : portal_matches src ids p.
Hypothesis Hcons : dataset_consistent src.

Lemma converted_worker_chunk i chunk id :
  ld_chunks src !! i = Some chunk -> ids !! i = Some id ->
  exists k s, wd_chunk w (Z.of_nat i) = Some k
  /\ DataChunk_to_string (E := ConvertError) id = Ok s
  /\ wk_id (E := ConvertError) k = Ok (Some s)
  /\ wk_url (E := ConvertError) k = Ok (Some (with_slash (wd_base_url w) ++ s))
  /\ chunk_tables (E := ConvertError) (assignment_of b) k = Ok (Some (tables_of chunk))
  /\ wk_first_block (E := ConvertError) k = Ok (dc_first_block id)
  /\ wk_last_block (E := ConvertError) k = Ok (dc_last_block id)
  /\ wk_size (E := ConvertError) k = Ok (ch_size chunk)
  /\ wk_version (E := ConvertError) k = Ok 0
  /\ wk_worker_indexes (E := ConvertError) k = Ok (ch_worker_indexes chunk).
Proof.
  destruct Hw as (n & first & lid & bitss & gens & c & Hn & Hids & Hbits & Hrep & _ & _ & _ & ->).
  intros Hi Hid. set (specs := zip_with _ _ _) in *.
  assert (specs !! i = Some (worker_spec n (roster_of src) chunk id)) as Hspec
    by (apply lookup_zip_with_Some; eauto).
  destruct (Forall2_lookup_l _ _ _ _ _ Hbits Hspec) as (bits & Hb & Hsb).
  assert (zip_with row_of specs bitss !! i
          = Some (row_of (worker_spec n (roster_of src) chunk id) bits)) as Hrow
    by (apply lookup_zip_with_Some; eauto).
  assert (DataChunk_wf id) as Hwf.
  { pose proof (ids_of_wf _ _ Hids) as Hall. rewrite Forall_lookup in Hall. eauto. }
  assert (Z.of_nat (length (concat (wr_bits <$> zip_with row_of specs bitss))) < 2 ^ 32) as Hsize.
  { eapply (staged_bitmaps_fit (wb_write_schemas b) src n); done. }
  destruct (converted_id src n id chunk (ld_id src) (ch_dataset_base_url first)
    (dc_last_block lid) gens _ c i bits Hwf Hrep Hrow) as (s & Hs & Hid' & Hurl).
  edestruct (ds_fields (ld_id src) (ch_dataset_base_url first) (dc_last_block lid) gens c)
    as (_ & _ & _ & _ & _ & _ & _ & _ & _ & _ & Hu & _).
  eexists _, s. rewrite Hu. split; [by apply (read_chunk _ _ _ _ _ _ Hrep i _ Hrow) |].
  do 3 (split; [done |]). split.
  { apply (converted_tables b src n id chunk _ _ _ _ (zip_with row_of specs bitss) c i bits);
      try done. by eapply list_elem_of_lookup_2. }
  split; [apply (read_first_block _ _ _ _ _ _ Hrep _ _ Hrow) |].
  split; [apply (read_last_block _ _ _ _ _ _ Hrep _ _ Hrow) |].
  split; [apply (read_size _ _ _ _ _ _ Hrep _ _ Hrow) |].
  split; [apply (read_version _ _ _ _ _ _ Hrep _ _ Hrow) |].
  apply (read_worker_indexes _ _ _ _ _ _ Hrep _ _ Hrow).
Qed.

Lemma converted_portal_chunk i chunk id :
  ld_chunks src !! i = Some chunk -> ids !! i = Some id ->
  exists k s, pd_chunk p (Z.of_nat i) = Some k
  /\ DataChunk_to_string (E := ConvertError) id = Ok s
  /\ pk_id (E := ConvertError) k = Ok (Some s)
  /\ pk_first_block (E := ConvertError) k = Ok (dc_first_block id)
  /\ pk_last_block (E := ConvertError) k = Ok (dc_last_block id)
  /\ pk_last_block_timestamp (E := ConvertError) k = Ok (timestamp_of chunk)
  /\ pk_version (E := ConvertError) k = Ok 0
  /\ pk_worker_indexes (E := ConvertError) k = Ok (ch_worker_indexes chunk)
  /\ Z.of_nat i < 2 ^ 32.
Proof.
  destruct Hp as (n & h & lid & c & Hids & Hrep & _ & _ & _ & ->). intros Hi Hid.
  assert ((prow_of <$> zip_with portal_spec (ld_chunks src) ids) !! i
          = Some (prow_of (portal_spec chunk id))) as Hrow.
  { rewrite list_lookup_fmap. by erewrite (proj2 (lookup_zip_with_Some _ _ _ _ _)) by eauto. }
  assert (DataChunk_wf id) as Hwf.
  { pose proof (ids_of_wf _ _ Hids) as Hall. rewrite Forall_lookup in Hall. eauto. }
  destruct (read_hash_wf _ Hwf) as (hh & Hh & _).
  destruct (push_chunk_id_display (E := ConvertError) [] _ hh Hwf Hh) as (s & Hs & Hpush).
  eexists _, s. split; [by apply (pread_chunk _ _ _ _ _ _ Hrep i _ Hrow) |]. split; [done |].
  split.
  { unfold pk_id. rewrite (pread_top _ _ _ _ _ _ Hrep _ _ Hrow),
      (pread_first_block _ _ _ _ _ _ Hrep _ _ Hrow), (pread_last_block _ _ _ _ _ _ Hrep _ _ Hrow),
      (pread_hash _ _ _ _ _ _ Hrep _ _ Hrow).
    cbn -[push_chunk_id]. rewrite Hh. unfold pr_start, pr_end. cbn -[push_chunk_id]. by rewrite Hpush. }
  split; [apply (pread_first_block _ _ _ _ _ _ Hrep _ _ Hrow) |].
  split; [apply (pread_last_block _ _ _ _ _ _ Hrep _ _ Hrow) |].
  split; [apply (pread_timestamp _ _ _ _ _ _ Hrep _ _ Hrow) |].
  split; [apply (pread_version _ _ _ _ _ _ Hrep _ _ Hrow) |].
  split; [apply (pread_worker_indexes _ _ _ _ _ _ Hrep _ _ Hrow) |].
  pose proof (prep_count _ _ Hrep). apply lookup_lt_Some in Hrow. lia.
Qed.

Lemma verify_chunk_Ok i chunk :
  ld_chunks src !! i = Some chunk -> verify_chunk (assignment_of b) src w p (i, chunk) = Ok tt.
Proof.
  intros Hi. destruct Hp as (_ & _ & _ & _ & Hids & _).
  destruct (Forall2_lookup_l _ _ _ _ _ Hids Hi) as (id & Hid & Hio).
  destruct (converted_worker_chunk i chunk id Hi Hid) as
    (k & s & Hk & Hs & W1 & W2 & W3 & W4 & W5 & W6 & W7 & W8).
  destruct (converted_portal_chunk i chunk id Hi Hid) as
    (k' & s' & Hk' & Hs' & P1 & P2 & P3 & P4 & P5 & P6 & Hlt).
  rewrite Hs in Hs'. simplify_eq.
  destruct Hcons as (Hname & Hcanon & _). rewrite Forall_lookup in Hname, Hcanon.
  destruct (id_of_parse _ _ Hio) as [Hpar Hfirst].
  rewrite (Hcanon i chunk Hi id Hpar) in Hs. injection Hs as <-.
  unfold verify_chunk, check_that, str_eqb. rewrite Z.mod_small by lia. rewrite Hio.
  rewrite (bool_decide_eq_true_2 _ (Hname i chunk Hi)), Hk, Hk'. rstep.
  rewrite W1, W2, W3, W4, W5, W6, W7, W8. rstep. rewrite bool_decide_eq_true_2 by done. rstep.
  rewrite <- Hfirst, !Z.eqb_refl, str_ends_with_app. rstep.
  rewrite bool_decide_eq_true_2 by done. rstep.
  rewrite P1, P2, P3, P4, P5, P6. rstep. rewrite bool_decide_eq_true_2 by done. rstep.
  rewrite !Z.eqb_refl. rstep. rewrite !bool_decide_eq_true_2 by done. done.
Qed.

Lemma converted_counts :
  wd_chunk_count w = length (ld_chunks src) /\ pd_chunk_count p = length (ld_chunks src).
Proof.
  destruct Hw as (n & first & lid & bitss & gens & c & _ & Hids & Hbits & Hrep & _ & _ & _ & ->).
  destruct Hp as (n' & h & lid' & c' & _ & Hrep' & _ & _ & _ & ->).
  erewrite ds_chunk_count, pds_chunk_count by done. rewrite length_fmap, !length_zip_with.
  pose proof (Forall2_length _ _ _ Hids). apply Forall2_length in Hbits.
  rewrite length_zip_with in Hbits. lia.
Qed.

Lemma last_id_of chunks ids' lid : ids_of chunks ids' -> last ids' = Some lid ->
  exists chunk, last chunks = Some chunk /\ DataChunk_from_str (ch_id chunk) = Ok lid.
Proof.
  intros Hids Hl. rewrite last_lookup in Hl. apply (Forall2_lookup_r _ _ _ _ _ Hids) in Hl
    as (chunk & Hc & Hio). exists chunk. rewrite last_lookup, (Forall2_length _ _ _ Hids).
  split; [done | by apply id_of_parse].
Qed.

Lemma verify_dataset_Ok worker portal index :
  worker = assignment_of b -> wa_datasets worker !! index = Some w ->
  pa_datasets portal !! index = Some p -> verify_dataset worker portal (index, src) = Ok tt.
Proof.
  intros -> Hiw Hip. unfold verify_dataset.
  rewrite (vget_Some _ _ _ Hiw), (vget_Some _ _ _ Hip). rstep.
  destruct converted_counts as [-> ->]. unfold check_that, str_eqb. rewrite Nat.eqb_refl.
  assert (rfor (imap pair (ld_chunks src)) (verify_chunk (assignment_of b) src w p) = Ok tt) as ->.
  { apply rfor_Ok. intros [i chunk] (j & y & [= -> ->] & Hj)%elem_of_lookup_imap.
    by apply verify_chunk_Ok. }
  destruct Hw as (n & first & lid & bitss & gens & c & _ & Hids & _ & _ & Hf & Hl & _ & ->).
  destruct Hp as (n' & h & lid' & c' & _ & _ & Hl' & Hh & _ & ->). rewrite Hl in Hl'. simplify_eq.
  edestruct (ds_fields (ld_id src) (ch_dataset_base_url first) (dc_last_block lid') gens c)
    as (_ & _ & _ & _ & _ & _ & _ & _ & -> & -> & -> & _).
  cbn [pd_id pd_last_block pd_last_block_hash portal_dataset_of].
  destruct (last_id_of _ _ _ Hids Hl) as (chunk & Hlc & Hpar).
  destruct Hcons as (_ & _ & Hlast & _). rewrite (Hlast chunk lid' Hlc Hpar), Z.eqb_refl.
  rewrite bool_decide_eq_true_2 by done. rstep. rewrite Hh. rstep.
  rewrite bool_decide_eq_true_2 by done. rstep. rewrite (vget_Some _ _ _ Hf). rstep.
  by rewrite bool_decide_eq_true_2.
Qed.
End dataset.

(** ** The workers *)

Section workers.
Context `{BuildProfile, PeerIdOps, !PeerIdLaws, CryptoOps}.

Lemma peer_eqb_refl id : peer_eqb id id = true.
Proof. unfold peer_eqb. by rewrite (proj2 (peer_cmp_eq id id) eq_refl). Qed.

Lemma verify_worker_Ok legacy worker portal index :
  source_consistent legacy ->
  Forall2 (entry_matches legacy) (seq 0 (length (as_workers legacy))) (wa_workers worker) ->
  Forall2 (portal_entry_matches legacy) (seq 0 (length (as_workers legacy))) (pa_workers portal) ->
  (index < length (as_workers legacy))%nat -> verify_worker legacy worker portal index = Ok tt.
Proof.
  intros [_ H38] Hw Hp Hi. set (wrapped := Z.to_nat (Z.of_nat index mod 2 ^ 16)).
  assert (wrapped <= index)%nat as Hle.
  { unfold wrapped. pose proof (Z.mod_le (Z.of_nat index) (2 ^ 16)).
    pose proof (Z.mod_pos_bound (Z.of_nat index) (2 ^ 16)). lia. }
  assert (forall j, (j < length (as_workers legacy))%nat -> seq 0 (length (as_workers legacy)) !! j = Some j)
    as Hseq by (intros; by apply lookup_seq_lt).
  destruct (Forall2_lookup_l _ _ _ _ _ Hw (Hseq index Hi)) as (e & He & src & _ & _ & Hsrc & _ & _ & _ & _ & Hs & Hh).
  destruct (Forall2_lookup_l _ _ _ _ _ Hw (Hseq wrapped ltac:(lia)))
    as (e' & He' & src' & ix & id & Hsrc' & Hix & Hid & Hfrom & Hst & _).
  destruct (Forall2_lookup_l _ _ _ _ _ Hp (Hseq wrapped ltac:(lia)))
    as (pe & Hpe & ix' & id' & Hix' & Hid' & Hfrom' & Hst').
  rewrite Hix in Hix'. injection Hix' as <-. rewrite Hid in Hid'. injection Hid' as <-.
  assert (Z.to_nat (Z.of_nat wrapped mod 2 ^ 16) = wrapped) as Hww.
  { unfold wrapped. rewrite Z2Nat.id by (apply Z.mod_pos_bound; lia). by rewrite Zmod_mod. }
  rewrite Hww in Hix. rewrite Forall_lookup in H38. specialize (H38 _ _ Hix id Hid).
  unfold verify_worker, as_get_worker_by_index, wa_get_worker_by_index, pa_get_worker_by_index.
  fold wrapped. rewrite (vget_Some _ _ _ Hix), (vget_Some _ _ _ He'), (vget_Some _ _ _ Hpe). rstep.
  unfold lw_peer_id, aw_peer_id, pw_peer_id, lw_status, aw_status, pw_status.
  cbn [lw_reader aw_reader pw_reader]. rewrite Hid. rstep.
  rewrite (WorkerId_roundtrip _ _ H38 Hfrom), (WorkerId_roundtrip _ _ H38 Hfrom'). rstep.
  rewrite peer_eqb_refl. unfold check_that. rstep. rewrite Hst, Hst', status_roundtrip.
  rewrite bool_decide_eq_true_2 by done. rstep.
  rewrite (vget_Some _ _ _ Hsrc), (vget_Some _ _ _ He). rstep. rewrite Hh.
  destruct Hs as [h ->]. rstep. by rewrite !bool_decide_eq_true_2.
Qed.
End workers.

(** ** The conversion *)

Section conversion.
Context `{BuildProfile, PeerIdOps, !PeerIdLaws, CryptoOps, VectorLookup, !VectorLookupLaws}.
Context `{Flatbuffer WorkerAssignment, !FlatbufferLaws WorkerAssignment}.
Context `{Flatbuffer PortalAssignment, !FlatbufferLaws PortalAssignment}.

Lemma worker_matches_checks schemas src ids ds :
  worker_matches schemas src ids ds -> check_worker_dataset ds = Ok tt.
Proof.
  intros (n & first & lid & bitss & gens & c & _ & Hids & Hbits & Hrep & Hf & _ & _ & ->).
  eapply emitted_checks; [done |]. intros E. apply (f_equal length) in E.
  apply Forall2_length in Hbits, Hids. rewrite !length_zip_with in *.
  apply lookup_lt_Some in Hf. cbn in E. lia.
Qed.

Lemma portal_matches_checks src ids ds :
  portal_matches src ids ds -> check_portal_dataset ds = Ok tt.
Proof.
  intros (n & h & lid & c & Hids & Hrep & Hl & _ & _ & ->).
  eapply portal_emitted_checks; [done |]. intros E. apply (f_equal length) in E.
  apply Forall2_length in Hids. rewrite length_fmap, length_zip_with in E.
  destruct ids; [done |]. cbn in *. lia.
Qed.

Lemma conversion_verifies rng legacy wbuf pbuf an
    (Hw : build_worker rng legacy = Ok wbuf) (Hp : build_portal legacy = Ok (pbuf, an))
    (Hsrc : source_consistent legacy)
    (Htw : fb_typed (assignment_of (worker_built rng legacy)))
    (Htp : fb_typed (portal_assignment_of (portal_built legacy))) :
  exists worker portal,
    worker_from_owned wbuf = Ok worker /\ portal_from_owned pbuf = Ok portal
    /\ verify legacy worker portal = Ok tt.
Proof.
  apply build_worker_Ok in Hw as (b & Eb & -> & Hwd & Hwe). rewrite <- Eb in Htw.
  apply build_portal_Ok in Hp as (pb & Epb & -> & Hpd & Hpe). rewrite <- Epb in Htp.
  exists (assignment_of b), (portal_assignment_of pb).
  split; [| split].
  - unfold worker_from_owned, finish. rewrite fb_root_finish by done. rstep. cbn [wa_datasets assignment_of].
    rewrite check_datasets_ok; [done |]. apply Forall_lookup. intros i ds Hi.
    destruct (Forall2_lookup_r _ _ _ _ _ Hwd Hi) as (src & _ & ids & Hm). by eapply worker_matches_checks.
  - unfold portal_from_owned, portal_finish. rewrite fb_root_finish by done. rstep.
    cbn [pa_datasets portal_assignment_of]. rewrite check_portal_datasets_ok; [done |].
    apply Forall_lookup. intros i ds Hi.
    destruct (Forall2_lookup_r _ _ _ _ _ Hpd Hi) as (src & _ & ids & Hm). by eapply portal_matches_checks.
  - unfold verify, check_that.
    cbn [wa_datasets wa_workers pa_datasets pa_workers assignment_of portal_assignment_of].
    rewrite <- (Forall2_length _ _ _ Hwd), <- (Forall2_length _ _ _ Hpd).
    rewrite <- (Forall2_length _ _ _ Hwe), <- (Forall2_length _ _ _ Hpe), length_seq, !Nat.eqb_refl. rstep.
    rewrite (rfor_Ok (imap pair (as_datasets legacy))); [rstep |].
    2: { intros [i src] (j & y & [= -> ->] & Hj)%elem_of_lookup_imap.
         destruct (Forall2_lookup_l _ _ _ _ _ Hwd Hj) as (w & Hiw & ids & Hmw).
         destruct (Forall2_lookup_l _ _ _ _ _ Hpd Hj) as (p & Hip & ids' & Hmp).
         assert (ids' = ids) as ->.
         { destruct Hmw as (? & ? & ? & ? & ? & ? & _ & Hids & _).
           destruct Hmp as (? & ? & ? & ? & Hids' & _). by eapply ids_of_unique. }
         destruct Hsrc as [Hsd _]. rewrite Forall_lookup in Hsd.
         apply (verify_dataset_Ok b y ids w p Hmw Hmp (Hsd _ _ Hj)); done. }
    apply rfor_Ok. intros i Hi%elem_of_seq. apply verify_worker_Ok; [done | done | done | lia].
Qed.

(** What the converter builds from a consistent legacy assignment is accepted
    by both readers and passes [verify] against the source: every dataset,
    chunk (id, blocks, size, url, tables, timestamp, version, workers), worker
    id, status and sealed header reads back as the legacy assignment has it.
    The tables built are taken to hold values of their Rust types, which
    [WireProps] shows of every input the generated verifier accepts. *)
Theorem conversion_reproduces_source rng legacy wbuf pbuf an
    (Hw : build_worker rng legacy = Ok wbuf) (Hp : build_portal legacy = Ok (pbuf, an))
    (Hsrc : source_consistent legacy)
    (Htw : fb_typed (assignment_of (worker_built rng legacy)))
    (Htp : fb_typed (portal_assignment_of (portal_built legacy))) :
  exists worker portal,
    worker_from_owned wbuf = Ok worker /\ portal_from_owned pbuf = Ok portal
    /\ verify legacy worker portal = Ok tt.
Proof. by eapply conversion_verifies. Qed.
End conversion.

(** ** Gaps *)

(** Two neighbouring chunks of the source leave blocks between them. *)
Definition has_gap (legacy : Assignment) : Prop :=
  exists d src i chunk chunk' id id',
    as_datasets legacy !! d = Some src
    /\ ld_chunks src !! i = Some chunk /\ ld_chunks src !! S i = Some chunk'
    /\ id_of chunk = Ok id /\ id_of chunk' = Ok id'
    /\ dc_last_block id + 1 < dc_first_block id'.

Section gap_property.
Context `{BuildProfile, PeerIdOps, CryptoOps}.
Context `{Flatbuffer WorkerAssignment, Flatbuffer PortalAssignment}.

Lemma contiguous_no_gap src ids i chunk chunk' id id' :
  ids_of (ld_chunks src) ids -> contiguous_ids ids ->
  ld_chunks src !! i = Some chunk -> ld_chunks src !! S i = Some chunk' ->
  id_of chunk = Ok id -> id_of chunk' = Ok id' -> ~ dc_last_block id + 1 < dc_first_block id'.
Proof.
  intros Hids Hc Hi Hi' Hid Hid' Hgap.
  destruct (Forall2_lookup_l _ _ _ _ _ Hids Hi) as (x & Hx & Ex).
  destruct (Forall2_lookup_l _ _ _ _ _ Hids Hi') as (y & Hy & Ey).
  rewrite Hid in Ex. rewrite Hid' in Ey. simplify_eq.
  apply id_of_wf in Hid' as (_ & Hu & _). unfold u64 in Hu.
  specialize (Hc i x y Hx Hy). lia.
Qed.

(** C29: A legacy assignment with a gap between two chunks of a dataset is never
    converted, by either builder, although the converter switches their
    continuity check off: with the check off the builders append the chunk but
    still answer the error, and the converter returns it. *)
Theorem gaps_are_not_converted rng legacy (Hgap : has_gap legacy) :
  is_ok (build_worker rng legacy) = false /\ is_ok (build_portal legacy) = false.
Proof.
  destruct Hgap as (d & src & i & chunk & chunk' & id & id' & Hd & Hi & Hi' & Hid & Hid' & Hgap).
  split.
  - destruct (build_worker rng legacy) as [buf | |] eqn:Hb; [exfalso | done..].
    apply build_worker_Ok in Hb as (b & _ & _ & Hm & _).
    destruct (Forall2_lookup_l _ _ _ _ _ Hm Hd) as (ds & _ & ids & ? & ? & ? & ? & ? & ? & _ & Hids & _ & _ & _ & _ & Hc & _).
    exact (contiguous_no_gap src ids i _ _ _ _ Hids Hc Hi Hi' Hid Hid' Hgap).
  - destruct (build_portal legacy) as [[buf an] | |] eqn:Hb; [exfalso | done..].
    apply build_portal_Ok in Hb as (b & _ & _ & Hm & _).
    destruct (Forall2_lookup_l _ _ _ _ _ Hm Hd) as (ds & _ & ids & ? & ? & ? & ? & Hids & _ & _ & _ & Hc & _).
    exact (contiguous_no_gap src ids i _ _ _ _ Hids Hc Hi Hi' Hid Hid' Hgap).
Qed.
End gap_property.
