(* ===== verification/ConvertTotal.v ===== *)
(** * Converting a combined assignment: what is always converted

    The sources the converter never refuses: every chunk's id parses and
    agrees with its first block, each chunk starts where the one before ended,
    the counts fit the 32-bit columns, and the workers are in order and carry
    headers. *)

From S2P Require Import Prelude RustStd StrSets DataChunk Search AssignmentFb Sealing Columns.
From S2P Require Import WorkerBuilder WorkerReader WorkerTheory WorkerProps WorkerReach WorkerTables.
From S2P Require Import PortalAssignment PortalTheory LegacyAssignment Convert ConvertTheory.
From S2P Require Import ConvertProps.
From Stdlib Require Import ZArith Lia Ascii String.
From stdpp Require Import base sets strings gmap sorting relations numbers list.

Open Scope Z_scope.

(** ** Definitions *)

(** The chunks from the state [last] on: each follows the one before. *)
Fixpoint follows (last : option Z) (ids : list DataChunk) : Prop :=
  match ids with
  | [] => True
  | id :: ids =>
    match last with Some l => l + 1 = dc_first_block id | None => True end
    /\ dc_last_block id - dc_first_block id < 2 ^ 32
    /\ follows (Some (dc_last_block id)) ids
  end.

Definition refs (chunks : list Chunk) : nat := length (concat (ch_worker_indexes <$> chunks)).

Definition dataset_convertible (src : Dataset) : Prop :=
  exists ids, ids_of (ld_chunks src) ids /\ ids <> [] /\ follows None ids
  /\ Z.of_nat (length (ld_chunks src)) <= 2 ^ 32 /\ Z.of_nat (refs (ld_chunks src)) < 2 ^ 32.

Definition workers_convertible `{PeerIdOps} (workers : list WorkerEntry) : Prop :=
  Z.of_nat (length workers) <= 2 ^ 16 /\ exists peers,
  Forall2 (fun e p => WorkerId_try_into (we_worker_id e) = Some p
                      /\ length (peer_to_bytes p) = 38%nat
                      /\ is_Some (we_encrypted_headers e)) workers peers
  /\ Sorted peer_lt peers.

Definition convertible `{PeerIdOps} (legacy : Assignment) : Prop :=
  Forall dataset_convertible (as_datasets legacy)
  /\ Z.of_nat (length (as_datasets legacy)) < 2 ^ 32
  /\ workers_convertible (as_workers legacy).

(** ** Pushing a chunk that fits *)

Section push.
Context `{BuildProfile, PeerIdOps, CryptoOps}.

Lemma append_chunk_progress b chunk rows :
  wcols_rep rows (wb_columns b) -> range_ok (pc_block_range chunk) ->
  snd (pc_block_range chunk) - fst (pc_block_range chunk) < 2 ^ 32 ->
  Z.of_nat (length rows) < 2 ^ 32 ->
  Z.of_nat (length (concat (wr_workers <$> rows)) + length (wb_staged_worker_indexes b)) < 2 ^ 32 ->
  exists b', append_chunk chunk b = (Ok tt, b').
Proof.
  intros Hrep (_ & _ & Hle) Hspan Hn Hrefs. unfold append_chunk, cbind, clift, cget, cmodify.
  rewrite (wrep_first _ _ Hrep), length_fmap, try_u32_ok by done.
  rewrite sub_u64_ok, try_u32_ok by done. cbn [wb_columns set_columns set_open].
  rewrite try_u32_ok; [by eexists |]. cbn. rewrite (wrep_workers _ _ Hrep), length_app. lia.
Qed.

Lemma push_chunk_progress b chunk rows :
  wcols_rep rows (wb_columns b) -> range_ok (pc_block_range chunk) ->
  snd (pc_block_range chunk) - fst (pc_block_range chunk) < 2 ^ 32 ->
  Z.of_nat (length rows) < 2 ^ 32 ->
  Z.of_nat (length (concat (wr_workers <$> rows)) + length (wb_staged_worker_indexes b)) < 2 ^ 32 ->
  match wb_last_block b with Some l => l + 1 = fst (pc_block_range chunk) | None => True end ->
  exists b', push_chunk chunk b = (Ok tt, b').
Proof.
  intros Hrep Hr Hspan Hn Hrefs Hlast.
  destruct (append_chunk_progress b chunk rows Hrep Hr Hspan Hn Hrefs) as [b' Ha].
  exists b'. unfold push_chunk. destruct Hr as (Hu & _). unfold u64 in Hu.
  destruct (wb_last_block b) as [l |].
  - rewrite add_u64_ok by lia. cbn [mbind res_bind]. rewrite (proj2 (Z.eqb_eq _ _) Hlast).
    cbn. unfold cbind. by rewrite Ha.
  - cbn. unfold cbind. by rewrite Ha.
Qed.

(** Tables that are a sublist of the roster are staged. *)
Lemma cb_tables_progress tables c n roster :
  cb_write_schema_id c = Some n -> wb_write_schemas (cb_p c) !! n = Some roster ->
  ascending roster -> ascending tables -> tables `sublist_of` roster ->
  exists bits, cb_tables tables c = (Ok tt, mkWorkerAssignmentChunkBuilder
    (set_staged (cb_p c) (wb_staged_worker_indexes (cb_p c)) bits)
    (cb_block_range c) (cb_id c) (cb_size c) (cb_version c) (cb_write_schema_id c) (Some n)).
Proof.
  intros Hn Hr Hasc Htab Hsub.
  destruct (tables_loop_complete roster tables 0 (replicate (div_ceil8 (length roster)) 0))
    as [bits Hl]; [by apply ascending_is_sorted | apply length_replicate | done |].
  exists bits. unfold cb_tables, cbind, clift, cget. rewrite (ascending_is_sorted _ Htab), orb_true_r.
  cbn [assert]. rewrite Hn. cbn [ok_or]. rewrite Hr. cbn [ok_or]. by rewrite Hl.
Qed.

Lemma finish_progress s b bits rows tp roster :
  DataChunk_wf (ws_id s) -> wcols_rep rows (wb_columns b) -> ws_version s = 0 ->
  wb_write_schemas b !! ws_write_schema_id s = Some roster ->
  match tp with Some n => n = ws_write_schema_id s | None => True end ->
  dc_last_block (ws_id s) - dc_first_block (ws_id s) < 2 ^ 32 ->
  Z.of_nat (length rows) < 2 ^ 32 ->
  Z.of_nat (length (concat (wr_workers <$> rows)) + length (ws_workers s)) < 2 ^ 32 ->
  match wb_last_block b with Some l => l + 1 = dc_first_block (ws_id s) | None => True end ->
  exists b', cb_finish (mkWorkerAssignmentChunkBuilder (set_staged b (ws_workers s) bits)
    (Some (dc_first_block (ws_id s), dc_last_block (ws_id s))) (Some (ws_id s))
    (Some (ws_size s)) (ws_version s) (Some (ws_write_schema_id s)) tp) = (Ok tt, b').
Proof.
  intros Hwf Hrep Hv Hr Htp Hspan Hn Hrefs Hlast. unfold cb_finish, cbind, clift, cget. cbn.
  rewrite !Z.eqb_refl, Hv. cbn [andb ensure Z.eqb orb].
  rewrite bool_decide_eq_true_2 by (rewrite Hr; eauto). cbn [ensure].
  replace (match tp with Some _ => _ | None => _ end) with (@Ok BuildError unit tt)
    by (destruct tp; [subst; by rewrite Z.eqb_refl | done]).
  rewrite chunk_hash_ok by done.
  by apply (push_chunk_progress (set_staged b (ws_workers s) bits)
    (mkPushChunk (dc_top (ws_id s)) (dc_first_block (ws_id s), dc_last_block (ws_id s))
       (dc_last_hash (ws_id s)) (ws_size s) (ws_write_schema_id s) 0)
    rows Hrep (DataChunk_range_ok _ Hwf)).
Qed.

(** A chunk of [src] that follows the last one is staged. *)
Lemma stage_progress src n chunk id b rows :
  chunk ∈ ld_chunks src -> id_of chunk = Ok id -> wcols_rep rows (wb_columns b) ->
  wb_write_schemas b !! n = Some (roster_of src) ->
  dc_last_block id - dc_first_block id < 2 ^ 32 -> Z.of_nat (length rows) < 2 ^ 32 ->
  Z.of_nat (length (concat (wr_workers <$> rows)) + length (ch_worker_indexes chunk)) < 2 ^ 32 ->
  match wb_last_block b with Some l => l + 1 = dc_first_block id | None => True end ->
  exists b', stage (worker_spec n (roster_of src) chunk id) b = (Ok tt, b').
Proof.
  intros Hin Hid Hrep Hn Hspan Hlen Hrefs Hlast. apply id_of_wf in Hid.
  set (s := worker_spec n (roster_of src) chunk id). unfold stage. cbv zeta.
  destruct (ws_tables s) as [tables |] eqn:Ht.
  - assert (tables = tables_of chunk) as ->.
    { unfold s, worker_spec in Ht. cbn in Ht. by case_match; simplify_eq. }
    set (c := cb_set_worker_indexes _ _).
    destruct (cb_tables_progress (tables_of chunk) c n (roster_of src)) as [bits ->];
      [done | done | apply roster_of_ascending | apply tables_of_ascending | by apply tables_sublist |].
    by apply (finish_progress s b bits rows (Some n) (roster_of src)).
  - by apply (finish_progress s b [] rows None (roster_of src)).
Qed.

Lemma stage_all_progress src n chunks ids b rows :
  wb_write_schemas b !! n = Some (roster_of src) -> Forall (fun c => c ∈ ld_chunks src) chunks ->
  ids_of chunks ids -> wcols_rep rows (wb_columns b) -> follows (wb_last_block b) ids ->
  Z.of_nat (length rows + length chunks) <= 2 ^ 32 ->
  Z.of_nat (length (concat (wr_workers <$> rows)) + refs chunks) < 2 ^ 32 ->
  exists b', stage_all (zip_with (worker_spec n (roster_of src)) chunks ids) b = (Ok tt, b').
Proof.
  intros Hn Hin Hids. revert b rows Hn. induction Hids as [| chunk id chunks ids Hid Hids IH];
    intros b rows Hn Hrep Hfol Hlen Hrefs; [by eexists |].
  apply Forall_cons in Hin as [Hc Hin]. destruct Hfol as (Hl & Hspan & Hfol).
  cbn [length] in Hlen. unfold refs in Hrefs. cbn in Hrefs. rewrite length_app in Hrefs.
  destruct (stage_progress src n chunk id b rows) as [b1 Hs]; [done.. | lia | lia | done |].
  pose proof Hs as Hs'. apply (stage_Ok _ _ _ rows) in Hs' as (bits & _ & _ & Hrep1 & Hl1 & Hfr);
    [| by eapply id_of_wf | done].
  destruct (IH Hin b1 (rows ++ [row_of (worker_spec n (roster_of src) chunk id) bits])) as [b2 Hall].
  - by destruct Hfr as (-> & _).
  - done.
  - by rewrite Hl1.
  - rewrite length_app. cbn. lia.
  - rewrite concat_fmap_snoc, length_app. unfold refs. cbn. lia.
  - exists b2. cbn [zip_with stage_all]. unfold cbind. by rewrite Hs.
Qed.
End push.

(** A dataset with chunks has a last one. *)
Lemma last_spec {A} (spec : Chunk -> DataChunk -> A) (get : A -> DataChunk) chunks ids :
  (forall c id, get (spec c id) = id) -> ids_of chunks ids -> ids <> [] ->
  exists s, last (zip_with spec chunks ids) = Some s.
Proof.
  intros Hget Hids Hne. pose proof (last_zip_spec spec get chunks ids Hget (Forall2_length _ _ _ Hids)) as Hl.
  destruct (last (zip_with spec chunks ids)) as [s |]; [by eexists |].
  symmetry in Hl. by apply last_None in Hl.
Qed.

Lemma ld_last_block_hash_ok {E} src :
  ld_chunks src <> [] -> exists h, ld_last_block_hash (E := E) src = Ok h.
Proof.
  intros Hne. unfold ld_last_block_hash. destruct (length (ld_chunks src)) as [| n] eqn:Hn.
  - by apply nil_length_inv in Hn.
  - destruct (lookup_lt_is_Some_2 (ld_chunks src) n) as [c Hc]; [lia |].
    rewrite (vget_Some _ _ _ Hc). by eexists.
Qed.

(** ** The loops of [build_worker] run to their end *)

Section worker_total.
Context `{BuildProfile, PeerIdOps, CryptoOps}.

Lemma worker_chunks_run n roster chunks ids d b' :
  ids_of chunks ids ->
  stage_all (zip_with (worker_spec n roster) chunks ids) (wdb_p d) = (Ok tt, b') ->
  cfor chunks (convert_worker_chunk n roster) d = (Ok tt, set_wdb_p d b').
Proof.
  intros Hids. revert d. induction Hids as [| c id chunks ids Hid Hids IH]; intros d Hst.
  - cbn in Hst |- *. injection Hst as <-. by destruct d.
  - cbn [zip_with stage_all] in Hst. apply cbind_Ok in Hst as ([] & b1 & Hs & Hst).
    cbn [cfor]. unfold cbind. rewrite (convert_worker_chunk_stage n roster c id d Hid), Hs. cbn.
    by rewrite (IH (set_wdb_p d b1)).
Qed.

Lemma schema_id_small {E} i : Z.of_nat i + 1 < 2 ^ 32 -> schema_id (E := E) i = Ok (Z.of_nat i + 1).
Proof.
  intros Hi. unfold schema_id, add_u32. rewrite Z.mod_small by lia.
  by rewrite (proj2 (Z.ltb_lt _ _)).
Qed.

Lemma convert_worker_dataset_total all_rosters i src b :
  all_rosters !! i = Some (roster_of src) -> schemas_inv (wb_write_schemas b) (imap pair all_rosters) ->
  clean b -> dataset_convertible src ->
  exists b', convert_worker_dataset all_rosters (i, src) b = (Ok tt, b').
Proof.
  intros Hr Hs [Hc Hl] (ids & Hids & Hne & Hfol & Hlen & Hrefs).
  destruct (Hs i (roster_of src)) as (n & Hn & Hsn); [apply elem_of_lookup_imap; eauto |].
  assert (wcols_rep [] (wb_columns b)) as Hrep by (rewrite Hc; apply wcols_rep_default).
  destruct (stage_all_progress src n (ld_chunks src) ids b []) as [b1 Hst];
    [done | by apply Forall_forall | done | done | by rewrite Hl | cbn; lia | cbn; lia |].
  destruct (stage_all_Ok _ b b1 []
    (zip_spec_wf (worker_spec n (roster_of src)) ws_id _ _ (fun _ _ => eq_refl) Hids) Hrep Hst)
    as (bitss & Hbits & Hrep1 & _ & Hlast). cbn in Hrep1.
  assert (exists first, ld_chunks src !! 0%nat = Some first) as [first Hfirst]
    by (inv Hids; by eexists).
  set (specs := zip_with _ _ _) in *.
  destruct (last_spec (worker_spec n (roster_of src)) ws_id (ld_chunks src) ids
    (fun _ _ => eq_refl) Hids Hne) as [s0 Hs0]. fold specs in Hs0.
  rewrite Hs0 in Hlast. unfold convert_worker_dataset, cbind, clift.
  rewrite Hn, Hr. cbn [expect]. rewrite (vget_Some _ _ _ Hfirst).
  rewrite (worker_chunks_run n (roster_of src) (ld_chunks src) ids
    (new_dataset (ld_id src) (ch_dataset_base_url first) b) b1 Hids Hst).
  unfold cmap_err, set_wdb_p. cbn [wdb_p wdb_id wdb_base_url wdb_emitted new_dataset].
  erewrite emit_Ok; [by eexists | exact Hrep1 | | exact Hlast].
  clear -Hs0 Hbits. clearbody specs. by destruct Hbits.
Qed.

(** The schemas registered so far are numbered from 1. *)
Lemma register_rosters_total (all_rosters : list (list str)) b :
  wb_write_schemas b = ∅ -> Forall ascending all_rosters ->
  Z.of_nat (length all_rosters) < 2 ^ 32 ->
  exists b', cfor (imap pair all_rosters) (fun '(index, roster) => (
    id <- clift (schema_id index) ;;
    cmap_err BuildFailed (register_write_schema id roster))%rust) b = (Ok (E := ConvertError) tt, b').
Proof.
  intros He Hasc Hlen.
  destruct (cfor_total (E := ConvertError)
    (fun done b' => forall k, Z.of_nat (length done) < k -> wb_write_schemas b' !! k = None)
    (imap pair all_rosters) (fun '(index, roster) => (
    id <- clift (schema_id index) ;;
    cmap_err BuildFailed (register_write_schema id roster))%rust) b) as (b' & Hf & _);
    [by intros; rewrite He | | by exists b'].
  intros done [i roster] rest s1 Hl Hinv.
  assert (imap pair all_rosters !! length done = Some (i, roster)) as Hi
    by (rewrite Hl; by apply list_lookup_middle).
  rewrite list_lookup_imap in Hi. destruct (all_rosters !! length done) as [r |] eqn:Hr; [| done].
  cbn in Hi. injection Hi as <- <-. pose proof (lookup_lt_Some _ _ _ Hr).
  rewrite Forall_lookup in Hasc. specialize (Hasc _ _ Hr).
  unfold cbind, clift, cmap_err. rewrite schema_id_small by lia.
  unfold register_write_schema, cbind, clift, cget, cmodify.
  rewrite (ascending_is_sorted _ Hasc). cbn [ensure]. rewrite Hinv by lia.
  eexists. split; [reflexivity |]. cbn. intros k Hk. rewrite length_app in Hk. cbn in Hk.
  rewrite lookup_insert_ne by lia. apply Hinv. lia.
Qed.

(** Peers in ascending order: the next one is above all before it. *)
Lemma peer_step (peers : list PeerId) k p :
  Sorted peer_lt peers -> peers !! k = Some p ->
  match last (take k peers) with Some q => peer_cmp q p = Lt | None => True end.
Proof.
  intros Hs Hk. destruct k as [| k]; [done |].
  destruct (lookup_lt_is_Some_2 peers k) as [q Hq]; [apply lookup_lt_Some in Hk; lia |].
  rewrite (take_S_r _ _ _ Hq), last_snoc. revert k Hq Hk.
  induction Hs as [| x l Hs IH Hx]; intros [| k] Hq Hk; [done.. | |].
  - cbn in Hq, Hk. injection Hq as <-. inv Hx. cbn in Hk. by injection Hk as <-.
  - by apply (IH k).
Qed.

Lemma WorkerId_from_ok {E} p : length (peer_to_bytes p) = 38%nat ->
  WorkerId_from (E := E) p = Ok (peer_to_bytes p).
Proof.
  intros Hl. unfold WorkerId_from. rewrite Hl. cbn. rewrite (drop_ge (peer_to_bytes p) 38) by lia.
  cbn. rewrite andb_false_r, take_ge by lia. done.
Qed.

(** The facts one round of a worker loop needs of the source. *)
Lemma worker_at legacy peers k e :
  Z.of_nat (length (as_workers legacy)) <= 2 ^ 16 ->
  Forall2 (fun e p => WorkerId_try_into (we_worker_id e) = Some p
             /\ length (peer_to_bytes p) = 38%nat /\ is_Some (we_encrypted_headers e))
    (as_workers legacy) peers ->
  as_workers legacy !! k = Some e ->
  exists p h, peers !! k = Some p /\ we_encrypted_headers e = Some h
  /\ as_get_worker_by_index (E := ConvertError) legacy (Z.of_nat k mod 2 ^ 16)
     = Ok (mkWorker legacy e (Z.of_nat k mod 2 ^ 16))
  /\ WorkerId_try_into (we_worker_id e) = Some p
  /\ WorkerId_from (E := BuildError) p = Ok (peer_to_bytes p).
Proof.
  intros Hlen Hf Hk. destruct (Forall2_lookup_l _ _ _ _ _ Hf Hk) as (p & Hp & Hid & H38 & [h Hh]).
  exists p, h. split; [done |]. split; [done |]. pose proof (lookup_lt_Some _ _ _ Hk).
  split; [| by rewrite WorkerId_from_ok]. unfold as_get_worker_by_index.
  rewrite Z.mod_small, Nat2Z.id by lia. by rewrite (vget_Some _ _ _ Hk).
Qed.

Lemma seq_split done i rest n :
  seq 0 n = done ++ i :: rest -> i = length done /\ (i < n)%nat.
Proof.
  intros Hs. assert (seq 0 n !! length done = Some i) as Hi
    by (rewrite Hs; by apply list_lookup_middle).
  apply lookup_seq in Hi. lia.
Qed.

Lemma worker_entries_total legacy b :
  wb_last_peer_id b = None -> workers_convertible (as_workers legacy) ->
  exists b', cfor (seq 0 (length (as_workers legacy))) (convert_worker_entry legacy) b = (Ok tt, b').
Proof.
  intros Hnone (Hlen & peers & Hf & Hs).
  destruct (cfor_total (fun done b' => wb_last_peer_id b' = last (take (length done) peers))
    (seq 0 (length (as_workers legacy))) (convert_worker_entry legacy) b) as (b' & Hr & _);
    [done | | by exists b'].
  intros done i rest s1 [-> Hi]%seq_split Hl.
  destruct (lookup_lt_is_Some_2 (as_workers legacy) (length done) Hi) as [e He].
  destruct (worker_at legacy peers (length done) e Hlen Hf He) as (p & h & Hp & Hh & Hw & Hid & Hfrom).
  unfold convert_worker_entry, cbind, clift. rewrite (vget_Some _ _ _ He), Hh. cbn [ok_or].
  rewrite Hw. unfold lw_peer_id. cbn [lw_reader]. rewrite Hid. cbn [ok_or].
  unfold cmap_err, add_worker_with_sealed_headers, assert_ascending, cbind, clift, cget, cmodify.
  pose proof (peer_step peers (length done) p Hs Hp) as Hstep. rewrite <- Hl in Hstep.
  replace (match wb_last_peer_id s1 with Some _ => _ | None => true end) with true
    by (destruct (wb_last_peer_id s1); [by rewrite Hstep | done]).
  cbn [assert]. rewrite Hfrom. eexists. split; [reflexivity |]. cbn.
  rewrite length_app, Nat.add_comm. cbn. rewrite (take_S_r _ _ _ Hp), last_snoc. done.
Qed.

Lemma build_worker_steps_total legacy b :
  clean b -> wb_write_schemas b = ∅ -> wb_last_peer_id b = None -> convertible legacy ->
  exists b', build_worker_steps legacy b = (Ok tt, b').
Proof.
  intros Hc He Hp (Hd & Hn & Hw). unfold build_worker_steps. cbv zeta.
  destruct (register_rosters_total (rosters legacy) b) as [b1 R1];
    [done | by apply Forall_fmap, Forall_true; intros; apply roster_of_ascending
    | by unfold rosters; rewrite length_fmap |].
  pose proof R1 as R1'. apply register_rosters_Ok in R1' as [Hs Hb1].
  destruct (cfor_total (fun done b' => clean b' /\ same_config b1 b')
    (imap pair (as_datasets legacy)) (convert_worker_dataset (rosters legacy)) b1)
    as (b2 & R2 & Hc2 & (_ & _ & Hp2)).
  { split; [by rewrite Hb1 | done]. }
  { intros done [i src] rest s1 Hl [Hcs (Hss & Hes & Hps)].
    assert ((i, src) ∈ imap pair (as_datasets legacy)) as (j & y & [= -> ->] & Hj)%elem_of_lookup_imap
      by (rewrite Hl; apply elem_of_app; right; by left).
    assert (rosters legacy !! j = Some (roster_of y)) as Hr
      by (unfold rosters; by rewrite list_lookup_fmap, Hj).
    rewrite Forall_lookup in Hd. rewrite <- Hss in Hs.
    destruct (convert_worker_dataset_total (rosters legacy) j y s1 Hr Hs Hcs (Hd _ _ Hj)) as [s2 Hf].
    exists s2. split; [done |].
    apply convert_worker_dataset_Ok in Hf as (ids & ds & _ & Hc' & (? & ? & ?) & _); [| done..].
    split; [done |]. split_and!; congruence. }
  destruct (worker_entries_total legacy b2) as [b3 R3]; [by rewrite Hp2, Hb1 | done |].
  exists b3. by rewrite (cbind_run _ _ _ _ _ R1), (cbind_run _ _ _ _ _ R2).
Qed.
End worker_total.

(** ** The loops of [build_portal] run to their end *)

Section portal_total.
Context `{BuildProfile, PeerIdOps}.

Lemma portal_append_progress b chunk rows :
  pcols_rep rows (pb_columns b) -> fst (pp_block_range chunk) <= snd (pp_block_range chunk) ->
  snd (pp_block_range chunk) - fst (pp_block_range chunk) < 2 ^ 32 ->
  Z.of_nat (length rows) < 2 ^ 32 ->
  Z.of_nat (length (concat (pr_workers <$> rows)) + length (pb_staged_worker_indexes b)) < 2 ^ 32 ->
  exists b', portal_append_chunk chunk b = (Ok tt, b').
Proof.
  intros Hrep Hle Hspan Hn Hrefs. unfold portal_append_chunk, cbind, clift, cget, cmodify.
  rewrite (prep_first _ _ Hrep), length_fmap, try_u32_ok by done.
  rewrite sub_u64_ok, try_u32_ok by done. cbn [pb_columns pb_set_open].
  rewrite try_u32_ok; [by eexists |]. cbn. rewrite (prep_workers _ _ Hrep), length_app. lia.
Qed.

Lemma portal_stage_progress chunk id b rows :
  id_of chunk = Ok id -> pcols_rep rows (pb_columns b) ->
  dc_last_block id - dc_first_block id < 2 ^ 32 -> Z.of_nat (length rows) < 2 ^ 32 ->
  Z.of_nat (length (concat (pr_workers <$> rows)) + length (ch_worker_indexes chunk)) < 2 ^ 32 ->
  match pb_last_block b with Some l => l + 1 = dc_first_block id | None => True end ->
  exists b', portal_stage (portal_spec chunk id) b = (Ok tt, b').
Proof.
  intros Hid Hrep Hspan Hn Hrefs Hlast. apply id_of_wf in Hid as Hwf.
  destruct Hwf as (_ & Hu & _ & Ho & _). unfold u64 in Hu.
  destruct (portal_append_progress (pb_set_staged b (ch_worker_indexes chunk))
    (pr_chunk (prow_of (portal_spec chunk id))) rows) as [b' Ha]; [done | cbn; lia | done..|].
  exists b'. unfold portal_stage, portal_cb_finish, cbind, clift. cbn. rewrite !Z.eqb_refl. cbn.
  rewrite chunk_hash_ok by (by eapply id_of_wf). unfold portal_push_chunk.
  change (portal_append_chunk _ _) with (portal_append_chunk (pr_chunk (prow_of (portal_spec chunk id)))
    (pb_set_staged b (ch_worker_indexes chunk))).
  cbn [pb_last_block pb_set_staged pp_block_range fst]. destruct (pb_last_block b) as [l |].
  - rewrite add_u64_ok by lia. cbn [mbind res_bind]. rewrite (proj2 (Z.eqb_eq _ _) Hlast). cbn.
    by erewrite cbind_run by exact Ha.
  - cbn. by erewrite cbind_run by exact Ha.
Qed.

Lemma portal_stage_all_progress chunks ids b rows :
  ids_of chunks ids -> pcols_rep rows (pb_columns b) -> follows (pb_last_block b) ids ->
  (forall l, pb_last_block b = Some l -> u64 l) ->
  Z.of_nat (length rows + length chunks) <= 2 ^ 32 ->
  Z.of_nat (length (concat (pr_workers <$> rows)) + refs chunks) < 2 ^ 32 ->
  exists b', portal_stage_all (zip_with portal_spec chunks ids) b = (Ok tt, b').
Proof.
  intros Hids. revert b rows. induction Hids as [| chunk id chunks ids Hid Hids IH];
    intros b rows Hrep Hfol Hlu Hlen Hrefs; [by eexists |].
  destruct Hfol as (Hl & Hspan & Hfol).
  cbn [length] in Hlen. unfold refs in Hrefs. cbn in Hrefs. rewrite length_app in Hrefs.
  destruct (portal_stage_progress chunk id b rows) as [b1 Hs]; [done.. | lia | lia | done |].
  pose proof (id_of_wf _ _ Hid) as Hwf.
  pose proof (portal_stage_Ok (portal_spec chunk id) b b1 rows Hwf Hlu Hrep Hs) as (Hrep1 & Hl1 & _ & _).
  destruct (IH b1 (rows ++ [prow_of (portal_spec chunk id)])) as [b2 Hall].
  - done.
  - by rewrite Hl1.
  - rewrite Hl1. intros ? [= <-]. apply Hwf.
  - rewrite length_app. cbn. lia.
  - rewrite concat_fmap_snoc, length_app. unfold refs. cbn. lia.
  - exists b2. cbn [zip_with portal_stage_all]. by rewrite (cbind_run _ _ _ _ _ Hs).
Qed.

Lemma portal_chunks_run chunks ids c b' :
  ids_of chunks ids ->
  portal_stage_all (zip_with portal_spec chunks ids) (pdb_p (cv_staging c)) = (Ok tt, b') ->
  exists c', cfor chunks convert_portal_chunk c = (Ok tt, c')
  /\ cv_staging c' = set_pdb_p (cv_staging c) b'.
Proof.
  intros Hids. revert c. induction Hids as [| chunk id chunks ids Hid Hids IH]; intros c Hst.
  - cbn in Hst |- *. injection Hst as <-. exists c. by destruct c as [[] ???].
  - cbn [zip_with portal_stage_all] in Hst. apply cbind_Ok in Hst as ([] & b1 & Hs & Hst).
    destruct (convert_portal_chunk_stage chunk id c Hid) as (pr & z & de & E). rewrite Hs in E.
    destruct (IH (mkPortalConversion (set_pdb_p (cv_staging c) b1) pr z de) Hst) as (c' & Hr & Hc').
    exists c'. split; [| by rewrite Hc']. cbn [cfor]. by rewrite (cbind_run _ _ _ _ _ E).
Qed.

Lemma convert_portal_dataset_total i src b an :
  Z.of_nat i + 1 < 2 ^ 32 -> portal_clean b -> dataset_convertible src ->
  exists s', convert_portal_dataset (i, src) (b, an) = (Ok tt, s').
Proof.
  intros Hi [Hc Hl] (ids & Hids & Hne & Hfol & Hlen & Hrefs).
  assert (pcols_rep [] (pb_columns b)) as Hrep by (rewrite Hc; apply pcols_rep_default).
  destruct (portal_stage_all_progress (ld_chunks src) ids b []) as [b1 Hst];
    [done | done | by rewrite Hl | by rewrite Hl | cbn; lia | cbn; lia |].
  destruct (portal_stage_all_Ok _ b b1 []
    (zip_spec_wf portal_spec ps_id _ _ (fun _ _ => eq_refl) Hids) Hrep) as (Hrep1 & _ & Hlast & _);
    [by rewrite Hl | done |]. cbn in Hrep1.
  set (specs := zip_with _ _ _) in *.
  destruct (last_spec portal_spec ps_id (ld_chunks src) ids (fun _ _ => eq_refl) Hids Hne) as [s0 Hs0].
  fold specs in Hs0. destruct (ld_last_block_hash_ok (E := ConvertError) src) as [h Hh].
  { intros E. rewrite E in Hids. by inv Hids. }
  rewrite Hs0 in Hlast. unfold convert_portal_dataset, cbind, clift. rewrite schema_id_small by lia.
  destruct (portal_chunks_run (ld_chunks src) ids
    (mkPortalConversion (portal_new_dataset (ld_id src) (Z.of_nat i + 1) b) 0 0 0) b1 Hids Hst)
    as (c' & -> & Hc'). cbn [mbind res_bind]. rewrite Hh, Hc'. unfold set_pdb_p.
  cbn [cv_staging pdb_id pdb_read_schema_id pdb_emitted portal_new_dataset].
  erewrite portal_emit_Ok; [by eexists | exact Hrep1 | | exact Hlast].
  intros E%fmap_nil_inv. by rewrite E in Hs0.
Qed.

Lemma portal_entries_total legacy b :
  pb_last_peer_id b = None -> workers_convertible (as_workers legacy) ->
  exists b', cfor (seq 0 (length (as_workers legacy))) (convert_portal_entry legacy) b = (Ok tt, b').
Proof.
  intros Hnone (Hlen & peers & Hf & Hs).
  destruct (cfor_total (fun done b' => pb_last_peer_id b' = last (take (length done) peers))
    (seq 0 (length (as_workers legacy))) (convert_portal_entry legacy) b) as (b' & Hr & _);
    [done | | by exists b'].
  intros done i rest s1 [-> Hi]%seq_split Hl.
  destruct (lookup_lt_is_Some_2 (as_workers legacy) (length done) Hi) as [e He].
  destruct (worker_at legacy peers (length done) e Hlen Hf He) as (p & h & Hp & Hh & Hw & Hid & Hfrom).
  unfold convert_portal_entry, cbind, clift. rewrite Hw. unfold lw_peer_id. cbn [lw_reader].
  rewrite Hid. cbn [ok_or]. unfold cmap_err, portal_add_worker, cbind, clift, cget, cmodify.
  pose proof (peer_step peers (length done) p Hs Hp) as Hstep. rewrite <- Hl in Hstep.
  replace (match pb_last_peer_id s1 with Some _ => _ | None => true end) with true
    by (destruct (pb_last_peer_id s1); [by rewrite Hstep | done]).
  cbn [assert]. rewrite Hfrom. eexists. split; [reflexivity |]. cbn.
  rewrite length_app, Nat.add_comm. cbn. rewrite (take_S_r _ _ _ Hp), last_snoc. done.
Qed.

Lemma build_portal_total `{Flatbuffer PortalAssignment} legacy :
  convertible legacy -> exists buf an, build_portal legacy = Ok (buf, an).
Proof.
  intros (Hd & Hn & Hw). unfold build_portal.
  destruct (cfor_total (fun done s => portal_clean s.1 /\ pb_last_peer_id s.1 = None)
    (imap pair (as_datasets legacy)) convert_portal_dataset
    (portal_check_continuity false portal_new, mkAnomalies 0 0 ∅)) as ([b an] & R1 & Hc & Hp); [done | |].
  - intros done [i src] rest [s1 a1] Hl [Hcs Hps]. cbn in Hcs, Hps.
    assert ((i, src) ∈ imap pair (as_datasets legacy)) as (j & y & [= -> ->] & Hj)%elem_of_lookup_imap
      by (rewrite Hl; apply elem_of_app; right; by left).
    rewrite Forall_lookup in Hd. pose proof (lookup_lt_Some _ _ _ Hj).
    destruct (convert_portal_dataset_total j y s1 a1) as [[s2 a2] Hf]; [lia | done | by eapply Hd |].
    exists (s2, a2). split; [done |].
    apply convert_portal_dataset_Ok in Hf as (ids & ds & _ & Hc' & _ & Hp' & _); [| done].
    split; [done | cbn; congruence].
  - destruct (portal_entries_total legacy b Hp Hw) as [b' R2]. unfold build_portal_datasets.
    rewrite R1. cbn [mbind res_bind]. rewrite R2. by repeat eexists.
Qed.
End portal_total.

Section total.
Context `{BuildProfile, PeerIdOps, CryptoOps}.
Context `{Flatbuffer WorkerAssignment, Flatbuffer PortalAssignment}.

Lemma conversion_total rng legacy :
  convertible legacy ->
  exists wbuf pbuf an, build_worker rng legacy = Ok wbuf /\ build_portal legacy = Ok (pbuf, an).
Proof.
  intros Hc. destruct (build_portal_total legacy Hc) as (pbuf & an & Hp).
  destruct (build_worker_intro rng legacy) as [wbuf Hw]; [| by eauto].
  unfold new_with_rng. destruct (generate_key rng) as [key rng'].
  match goal with |- context [build_worker_steps legacy ?b] =>
    destruct (build_worker_steps_total legacy b) as [b' ->]; done end.
Qed.
End total.
