(* ===== verification/ConvertMain.v ===== *)
(** * The converter's command line (crates/assignments/examples/convert_assignment.rs)

    [main] with its arguments, the paths it derives from the input's name, and
    the files it reads and writes.  Paths are Unix paths.  The gzip and zstd
    codecs are third-party; the times and the size table printed on stderr are
    not modelled, but what [report_sizes] can fail on is. *)

From S2P Require Import Prelude RustStd StrSets DataChunk Search AssignmentFb Sealing.
From S2P Require Import WorkerBuilder WorkerReader PortalAssignment LegacyAssignment Convert.
From Stdlib Require Import ZArith Lia Ascii String.
From stdpp Require Import base sets strings gmap sorting numbers list.

Open Scope Z_scope.

(** ** Paths ([std::path], on Unix) *)

(** [str::split] on a character. *)
Fixpoint split_char (c : ascii) (s : str) : list str :=
  match s with
  | [] => [[]]
  | x :: s =>
    if bool_decide (x = c) then [] :: split_char c s
    else match split_char c s with
         | piece :: pieces => (x :: piece) :: pieces
         | [] => [[x]]
         end
  end.

(** [Path::file_name]: the last component, unless it is [..]. *)
Definition file_name (path : str) : option str :=
  match last (filter (fun c => c <> [] /\ c <> lit ".") (split_char "/" path)) with
  | Some name => if bool_decide (name = lit "..") then None else Some name
  | None => None
  end.

(** The last occurrence of a character. *)
Fixpoint rsplit_once (c : ascii) (s : str) : option (str * str) :=
  match s with
  | [] => None
  | x :: s =>
    match rsplit_once c s with
    | Some (before, after) => Some (x :: before, after)
    | None => if bool_decide (x = c) then Some ([], s) else None
    end
  end.

(** A file name as its stem and extension; a leading dot starts no extension. *)
Definition split_extension (name : str) : str * option str :=
  match rsplit_once "." name with
  | Some ([], _) | None => (name, None)
  | Some (stem, ext) => (stem, Some ext)
  end.

Definition extension (path : str) : option str :=
  name ← file_name path;
  snd (split_extension name).

(** Trailing separators and [.] components, which [set_extension] cuts off. *)
Fixpoint trim_tail (fuel : nat) (path : str) : str :=
  match fuel with
  | O => path
  | S fuel =>
    if str_ends_with path (lit "/.") then trim_tail fuel (take (length path - 2) path)
    else if str_ends_with path (lit "/") then trim_tail fuel (take (length path - 1) path)
    else path
  end.

Definition with_extension (path ext : str) : str :=
  match file_name path with
  | None => path
  | Some name =>
    let path := trim_tail (length path) path in
    take (length path - length name) path ++ fst (split_extension name) ++ "."%char :: ext
  end.

Definition path_join (base path : str) : str :=
  if str_eqb (take 1 path) (lit "/") then path
  else if bool_decide (base = []) || ends_with "/" base then base ++ path
  else base ++ "/"%char :: path.

(** ** Arguments *)

Record Compress := mkCompress { gzip : bool; zstd : bool; zstd_level : Z }.

Record Options := mkOptions {
  op_input : option str; out_dir : str; verify_only : bool; compress : Compress }.

Definition default_options : Options :=
  mkOptions None (lit ".") false (mkCompress true true 9).

(** [str::parse::<i32>]. *)
Definition parse_i32 (s : str) : option Z :=
  '(sign, rest) ← match s with
                  | [] => None
                  | c :: rest =>
                    if bool_decide (c = "-"%char) then Some (-1, rest)
                    else if bool_decide (c = "+"%char) then Some (1, rest) else Some (1, s)
                  end;
  n ← (if bool_decide (rest = []) then None else parse_digits 0 rest);
  if (- 2 ^ 31 <=? sign * n) && (sign * n <? 2 ^ 31) then Some (sign * n) else None.

Definition compress_kind (which : str) : res ConvertError (bool * bool) :=
  if str_eqb which (lit "gzip") then Ok (true, false)
  else if str_eqb which (lit "zstd") then Ok (false, true)
  else if str_eqb which (lit "both") then Ok (true, true)
  else if str_eqb which (lit "none") then Ok (false, false)
  else Err (BadCompress which).

(** [while let Some(arg) = args.next()]; an option takes the next argument as
    its value, whatever it is. *)
Fixpoint parse_args (args : list str) (o : Options) : res ConvertError Options :=
  match args with
  | [] => Ok o
  | arg :: args =>
    if str_eqb arg (lit "--verify-only") then
      parse_args args (mkOptions (op_input o) (out_dir o) true (compress o))
    else if str_eqb arg (lit "--out-dir") then
      match args with
      | [] => Err (MissingValue arg)
      | dir :: args => parse_args args (mkOptions (op_input o) dir (verify_only o) (compress o))
      end
    else if str_eqb arg (lit "--zstd-level") then
      match args with
      | [] => Err (MissingValue arg)
      | value :: args =>
        level ← ok_or (parse_i32 value) (BadLevel value);
        parse_args args (mkOptions (op_input o) (out_dir o) (verify_only o)
                           (mkCompress (gzip (compress o)) (zstd (compress o)) level))
      end
    else if str_eqb arg (lit "--compress") then
      match args with
      | [] => Err (MissingValue arg)
      | which :: args =>
        '(g, z) ← compress_kind which;
        parse_args args (mkOptions (op_input o) (out_dir o) (verify_only o)
                           (mkCompress g z (zstd_level (compress o))))
      end
    else parse_args args (mkOptions (Some arg) (out_dir o) (verify_only o) (compress o))
  end.

(** ** Files *)

Notation Fs := (gmap str (list Z)).

(** flate2 and zstd. *)
Class Compression := {
  gz_encode : list Z -> list Z;
  gz_decode : list Z -> option (list Z);
  zst_encode : Z -> list Z -> option (list Z);
  zst_decode : list Z -> option (list Z)
}.

Section main.
Context `{BuildProfile, PeerIdOps, CryptoOps, VectorLookup, Compression}.
Context `{Flatbuffer Assignment, Flatbuffer WorkerAssignment, Flatbuffer PortalAssignment}.
Variable writable : str -> bool.

Definition fs_read (path : str) : comp Fs ConvertError (list Z) := (
  fs <- cget ;;
  clift (ok_or (fs !! path) (IoError path)))%rust.

(** [std::fs::write], or [File::create] followed by writing everything. *)
Definition fs_write (path : str) (bytes : list Z) : comp Fs ConvertError unit := (
  clift (ensure (writable path) (IoError path)) ;;;
  cmodify (fun fs => <[path := bytes]> fs))%rust.

Definition read_legacy (path : str) : comp Fs ConvertError (Assignment * Z) := (
  raw <- fs_read path ;;
  buf <- clift (match extension path with
                | Some ext =>
                  if str_eqb ext (lit "gz") then ok_or (gz_decode raw) NotGzip
                  else if str_eqb ext (lit "zst") then ok_or (zst_decode raw) NotZstd
                  else Ok raw
                | None => Ok raw
                end) ;;
  assignment <- clift (map_err NotLegacy (legacy_from_owned buf)) ;;
  creturn (assignment, Z.of_nat (length buf)))%rust.

Definition gz_path (path : str) : str := with_extension path (lit "fb.gz").
Definition zst_path (path : str) : str := with_extension path (lit "fb.zst").

(** The zstd encoder is created on the file already truncated. *)
Definition write_out (path : str) (bytes : list Z) (c : Compress) : comp Fs ConvertError unit := (
  fs_write path bytes ;;;
  (if gzip c then fs_write (gz_path path) (gz_encode bytes) else creturn tt) ;;;
  if zstd c then
    (fs_write (zst_path path) [] ;;;
     encoded <- clift (ok_or (zst_encode (zstd_level c) bytes) BadLevelForZstd) ;;
     fs_write (zst_path path) encoded)
  else creturn tt)%rust.

(** The sizes it prints, each of which needs the file. *)
Definition report_sizes (blobs : list str) (c : Compress) : comp Fs ConvertError unit :=
  cfor blobs (fun path => (
    fs_read path ;;;
    (if gzip c then fs_read (gz_path path) else creturn []) ;;;
    (if zstd c then fs_read (zst_path path) else creturn []) ;;;
    creturn tt)%rust).

(** The outputs' paths: the input's name up to its first dot, in [out_dir]. *)
Definition output_paths (o : Options) (input : str) : res ConvertError (str * str) :=
  name ← ok_or (file_name input) NoFileName;
  stem ← ok_or (head (split_char "." name)) NoFileName;
  Ok (path_join (out_dir o) (stem ++ lit ".worker.fb"),
      path_join (out_dir o) (stem ++ lit ".portal.fb")).

Definition build_and_write (rng : Rng) (o : Options) (legacy : Assignment)
    (worker_path portal_path : str) : comp Fs ConvertError unit := (
  worker <- clift (build_worker rng legacy) ;;
  portal <- clift (build_portal legacy) ;;
  write_out worker_path worker (compress o) ;;;
  write_out portal_path (fst portal) (compress o) ;;;
  report_sizes [worker_path; portal_path] (compress o))%rust.

Definition read_and_verify (legacy : Assignment) (worker_path portal_path : str)
    : comp Fs ConvertError unit := (
  wbuf <- fs_read worker_path ;;
  worker <- clift (map_err WorkerBlobInvalid (worker_from_owned wbuf)) ;;
  pbuf <- fs_read portal_path ;;
  portal <- clift (map_err PortalBlobInvalid (portal_from_owned pbuf)) ;;
  clift (verify legacy worker portal))%rust.

(** [args] without the program's name. *)
Definition convert_main (rng : Rng) (args : list str) : comp Fs ConvertError unit := (
  o <- clift (parse_args args default_options) ;;
  input <- clift (ok_or (op_input o) NoInput) ;;
  paths <- clift (output_paths o input) ;;
  legacy <- read_legacy input ;;
  (if verify_only o then creturn tt
   else build_and_write rng o (fst legacy) (fst paths) (snd paths)) ;;;
  read_and_verify (fst legacy) (fst paths) (snd paths))%rust.
End main.
