(* ===== verification/ConvertMainProps.v ===== *)
(** * The converter's command line: properties

    The files [main] writes do not collide, and a run on a convertible source
    ends verified, with both assignments on disk. *)

From S2P Require Import Prelude RustStd StrSets DataChunk Search AssignmentFb Sealing Columns Instances.
From S2P Require Import WorkerBuilder WorkerReader WorkerProps WorkerReach WorkerTables PortalAssignment.
From S2P Require Import PortalProps LegacyAssignment Convert ConvertTheory ConvertProps ConvertTotal.
From S2P Require Import ConvertMain.
From Stdlib Require Import ZArith Lia Ascii String.
From stdpp Require Import base sets strings gmap sorting numbers countable list.

Open Scope Z_scope.

(** ** Paths *)

Lemma split_char_nonempty c s : split_char c s <> [].
Proof. destruct s as [| x s]; cbn; [done |]. repeat case_match; done. Qed.

Lemma split_char_app c a b : split_char c (a ++ c :: b) = split_char c a ++ split_char c b.
Proof.
  induction a as [| x a IH]; cbn [app split_char].
  - by rewrite bool_decide_eq_true_2.
  - rewrite IH. case_bool_decide; [done |].
    pose proof (split_char_nonempty c a). by destruct (split_char c a).
Qed.

Lemma split_char_none c s : c ∉ s -> split_char c s = [s].
Proof.
  induction s as [| x s IH]; [done |]. intros [Hx Hs]%not_elem_of_cons. cbn.
  rewrite bool_decide_eq_false_2 by done. by rewrite IH.
Qed.

(** The pieces of a split string hold no separator. *)
Lemma split_char_pieces c s piece : piece ∈ split_char c s -> c ∉ piece.
Proof.
  revert piece. induction s as [| x s IH]; intros piece; cbn.
  - intros ->%list_elem_of_singleton. apply not_elem_of_nil.
  - case_bool_decide as Hx.
    + intros [-> | Hp]%elem_of_cons; [apply not_elem_of_nil | by apply IH].
    + destruct (split_char c s) as [| p ps] eqn:E; [by apply split_char_nonempty in E |].
      intros [-> | Hp]%elem_of_cons; [| apply IH; by right].
      apply not_elem_of_cons. split; [done |]. apply IH. by left.
Qed.

(** What [path_join] puts before a relative path. *)
Definition join_prefix (dir : str) : str :=
  if bool_decide (dir = []) || ends_with "/" dir then dir else dir ++ ["/"%char].

Lemma path_join_prefix dir x : "/"%char ∉ x -> path_join dir x = join_prefix dir ++ x.
Proof.
  intros Hx. unfold path_join, join_prefix.
  assert (str_eqb (take 1 x) (lit "/") = false) as ->.
  { apply bool_decide_eq_false. destruct x as [| y x]; [done |]. cbn.
    intros [= ->]. apply Hx. by left. }
  destruct (_ || _); [done |]. by rewrite <- app_assoc.
Qed.

Lemma join_prefix_cases dir : join_prefix dir = [] \/ exists d, join_prefix dir = d ++ ["/"%char].
Proof.
  unfold join_prefix. destruct (bool_decide (dir = [])) eqn:E; cbn.
  - apply bool_decide_eq_true in E. auto.
  - destruct (ends_with "/" dir) eqn:Ee; [| eauto]. right. unfold ends_with in Ee.
    destruct (last dir) as [x |] eqn:Hl; [| done]. apply bool_decide_eq_true in Ee as ->.
    apply last_Some in Hl as [d ->]. eauto.
Qed.

Lemma file_name_join dir x :
  "/"%char ∉ x -> (3 <= length x)%nat -> file_name (join_prefix dir ++ x) = Some x.
Proof.
  intros Hx Hl. assert (x <> [] /\ x <> lit "." /\ x <> lit "..") as (H1 & H2 & H3)
    by (split_and!; intros ->; cbn in Hl; lia).
  unfold file_name.
  assert (last (filter (fun c => c <> [] /\ c <> lit ".") (split_char "/" (join_prefix dir ++ x)))
          = Some x) as ->; [| by rewrite bool_decide_eq_false_2].
  destruct (join_prefix_cases dir) as [-> | [d ->]].
  - cbn [app]. rewrite split_char_none by done. by rewrite filter_cons_True.
  - rewrite <- app_assoc. cbn [app]. rewrite split_char_app, filter_app, (split_char_none "/" x) by done.
    rewrite (filter_cons_True _ x []) by done. rewrite filter_nil. apply last_snoc.
Qed.

Lemma rsplit_once_none c s : c ∉ s -> rsplit_once c s = None.
Proof.
  induction s as [| x s IH]; [done |]. intros [Hx Hs]%not_elem_of_cons. cbn.
  rewrite IH by done. by rewrite bool_decide_eq_false_2.
Qed.

Lemma rsplit_once_last c a b : c ∉ b -> rsplit_once c (a ++ c :: b) = Some (a, b).
Proof.
  intros Hb. induction a as [| x a IH]; cbn.
  - rewrite rsplit_once_none by done. by rewrite bool_decide_eq_true_2.
  - by rewrite IH.
Qed.

Lemma str_ends_with_snoc s x y : x <> y -> str_ends_with (s ++ [x]) [y] = false.
Proof.
  intros Hne. unfold str_ends_with. rewrite length_app, Nat.add_sub, drop_app_length. cbn.
  rewrite bool_decide_eq_false_2 by congruence. apply andb_false_r.
Qed.

Lemma str_ends_with_two s x y z : x <> z -> str_ends_with (s ++ [x]) [y; z] = false.
Proof.
  intros Hne. unfold str_ends_with. destruct (_ <=? _)%nat eqn:E; [| done]. zbool. cbn [andb].
  apply bool_decide_eq_false. rewrite length_app in *. cbn in *.
  rewrite drop_app_le by lia. change [y; z] with ([y] ++ [z]).
  intros [_ [= ->]]%app_inj_2; done.
Qed.

(** The compressed copy of an output lies beside it. *)
Lemma with_extension_output dir stem ext :
  "/"%char ∉ stem -> stem <> [] ->
  with_extension (path_join dir (stem ++ lit ".fb")) ext = join_prefix dir ++ stem ++ "."%char :: ext.
Proof.
  intros Hs Hne. assert ("/"%char ∉ stem ++ lit ".fb") as Hs'.
  { intros [? | Hin]%elem_of_app; [done |]. revert Hin. exact (bool_decide_unpack ("/"%char ∉ lit ".fb") I). }
  rewrite path_join_prefix by done. unfold with_extension.
  rewrite file_name_join; [| done | rewrite length_app; cbn; destruct stem; cbn; [done | lia]].
  assert (trim_tail (length (join_prefix dir ++ stem ++ lit ".fb")) (join_prefix dir ++ stem ++ lit ".fb")
          = join_prefix dir ++ stem ++ lit ".fb") as ->.
  { replace (join_prefix dir ++ stem ++ lit ".fb") with ((join_prefix dir ++ stem ++ lit ".f") ++ ["b"%char])
      by (rewrite <- !app_assoc; done).
    set (p := join_prefix dir ++ stem ++ lit ".f"). destruct (length _); [done |]. cbn [trim_tail].
    change (lit "/.") with ["/"%char; "."%char]. change (lit "/") with ["/"%char].
    rewrite str_ends_with_two, str_ends_with_snoc by done. done. }
  rewrite length_app, Nat.add_sub, take_app_length. f_equal.
  unfold split_extension. change (lit ".fb") with ("."%char :: lit "fb").
  rewrite rsplit_once_last; [by destruct stem |]. exact (bool_decide_unpack ("."%char ∉ lit "fb") I).
Qed.

(** The paths of the outputs share what comes before their kind. *)
Lemma output_paths_shape o input name :
  file_name input = Some name -> exists pre stem,
  output_paths o input = Ok (pre ++ stem ++ lit ".worker.fb", pre ++ stem ++ lit ".portal.fb")
  /\ (forall ext, with_extension (pre ++ stem ++ lit ".worker.fb") ext
                  = pre ++ stem ++ lit ".worker." ++ ext)
  /\ (forall ext, with_extension (pre ++ stem ++ lit ".portal.fb") ext
                  = pre ++ stem ++ lit ".portal." ++ ext).
Proof.
  intros Hn. unfold output_paths. rewrite Hn. cbn [ok_or mbind res_bind].
  destruct (split_char "." name) as [| stem pieces] eqn:Hsp; [by apply split_char_nonempty in Hsp |].
  assert ("/"%char ∉ stem) as Hs.
  { intros Hin. assert ("/"%char ∉ name) as Hname.
    { unfold file_name in Hn. case_match eqn:Hl; [| done]. case_match; simplify_eq.
      apply last_Some_elem_of, list_elem_of_filter in Hl as [_ Hl]. by eapply split_char_pieces. }
    apply Hname. clear -Hin Hsp. revert stem pieces Hsp Hin.
    induction name as [| x name IH]; intros stem pieces Hsp Hin; cbn in Hsp.
    - simplify_eq. by apply not_elem_of_nil in Hin.
    - case_bool_decide; [simplify_eq; by apply not_elem_of_nil in Hin |].
      destruct (split_char "." name) as [| p ps]; simplify_eq; apply elem_of_cons in Hin as [-> | Hin].
      + by left.
      + by apply not_elem_of_nil in Hin.
      + by left.
      + right. by eapply IH. }
  assert (forall kind, "/"%char ∉ lit kind -> "/"%char ∉ stem ++ lit kind) as Happ
    by (intros kind Hk [? | ?]%elem_of_app; done).
  exists (join_prefix (out_dir o)), stem. cbn [head ok_or mbind res_bind].
  pose proof (bool_decide_unpack ("/"%char ∉ lit ".worker.fb") I).
  pose proof (bool_decide_unpack ("/"%char ∉ lit ".portal.fb") I).
  pose proof (bool_decide_unpack ("/"%char ∉ lit ".worker") I).
  pose proof (bool_decide_unpack ("/"%char ∉ lit ".portal") I).
  rewrite !path_join_prefix by auto. split; [done |].
  split; intros ext; rewrite <- path_join_prefix by auto.
  - change (lit ".worker.fb") with (lit ".worker" ++ lit ".fb"). rewrite app_assoc.
    rewrite with_extension_output by (auto; by destruct stem). by rewrite <- !app_assoc.
  - change (lit ".portal.fb") with (lit ".portal" ++ lit ".fb"). rewrite app_assoc.
    rewrite with_extension_output by (auto; by destruct stem). by rewrite <- !app_assoc.
Qed.

(** ** Files *)

Section files.
Context `{BuildProfile, PeerIdOps, !PeerIdLaws, CryptoOps, VectorLookup, !VectorLookupLaws}.
Context `{Compression, Flatbuffer Assignment}.
Context `{Flatbuffer WorkerAssignment, !FlatbufferLaws WorkerAssignment}.
Context `{Flatbuffer PortalAssignment, !FlatbufferLaws PortalAssignment}.
Variable writable : str -> bool.
Hypothesis Hwritable : forall path, writable path = true.

Lemma fs_write_ok (path : str) (bytes : list Z) (fs : Fs) : fs_write writable path bytes fs = (Ok tt, <[path := bytes]> fs).
Proof. unfold fs_write, cbind, clift, cmodify. by rewrite Hwritable. Qed.

Lemma fs_read_ok (path : str) (bytes : list Z) (fs : Fs) : fs !! path = Some bytes -> fs_read path fs = (Ok bytes, fs).
Proof. unfold fs_read, cbind, clift, cget. by intros ->. Qed.

(** What [write_out] leaves on disk. *)
Lemma write_out_ok (path : str) (bytes : list Z) (c : Compress) (fs : Fs) :
  (zstd c = true -> forall b, is_Some (zst_encode (zstd_level c) b)) ->
  exists fs', write_out writable path bytes c fs = (Ok tt, fs')
  /\ (gz_path path <> path -> zst_path path <> path -> fs' !! path = Some bytes)
  /\ (forall q, q <> path -> q <> gz_path path -> q <> zst_path path -> fs' !! q = fs !! q)
  /\ (forall q, is_Some (fs !! q) -> is_Some (fs' !! q)) /\ is_Some (fs' !! path)
  /\ (gzip c = true -> is_Some (fs' !! gz_path path))
  /\ (zstd c = true -> is_Some (fs' !! zst_path path)).
Proof.
  intros Hz.
  assert (forall (m : gmap str (list Z)) k v q, is_Some (m !! q) -> is_Some (<[k := v]> m !! q)) as Hins
    by (intros m k v q Hq; rewrite lookup_insert_is_Some'; auto).
  assert (forall (m : gmap str (list Z)) k v, is_Some (<[k := v]> m !! k)) as Hself
    by (intros; rewrite lookup_insert_eq; eauto).
  unfold write_out, fs_write, cbind, clift, cmodify, creturn. rewrite !Hwritable. cbn [ensure].
  destruct (gzip c), (zstd c); rewrite ?Hwritable; cbn [ensure].
  1,3: destruct (Hz eq_refl bytes) as [z ->]; cbn [ok_or].
  all: eexists; split; [reflexivity |].
  all: split; [intros; by simplify_map_eq |]; split; [intros; by simplify_map_eq |].
  all: split_and!; first [done | auto 10].
Qed.

Lemma report_sizes_ok (blobs : list str) (c : Compress) (fs : Fs) :
  (forall p, p ∈ blobs -> is_Some (fs !! p) /\ (gzip c = true -> is_Some (fs !! gz_path p))
     /\ (zstd c = true -> is_Some (fs !! zst_path p))) ->
  report_sizes blobs c fs = (Ok tt, fs).
Proof.
  unfold report_sizes. induction blobs as [| p blobs IH]; intros Hall; [done |]. cbn [cfor].
  destruct (Hall p) as ([x Hx] & Hg & Hz); [by left |].
  rewrite (cbind_run _ _ fs tt fs); [apply IH; intros; apply Hall; by right |].
  rewrite (cbind_run _ _ _ _ _ (fs_read_ok _ _ _ Hx)).
  assert (exists g, (if gzip c then fs_read (gz_path p) else creturn []) fs = (Ok g, fs)) as [g Hgr].
  { destruct (gzip c); [| by exists []]. destruct (Hg eq_refl) as [g ?]. exists g. by apply fs_read_ok. }
  assert (exists z, (if zstd c then fs_read (zst_path p) else creturn []) fs = (Ok z, fs)) as [z Hzr].
  { destruct (zstd c); [| by exists []]. destruct (Hz eq_refl) as [z ?]. exists z. by apply fs_read_ok. }
  by rewrite (cbind_run _ _ _ _ _ Hgr), (cbind_run _ _ _ _ _ Hzr).
Qed.

(** Both outputs are on disk when the conversion has been written out. *)
Lemma build_and_write_ok (rng : Rng) (o : Options) (legacy : Assignment) (wbuf pbuf : list Z) (an : Anomalies) (pre stem : str) (fs : Fs) :
  (zstd (compress o) = true -> forall b, is_Some (zst_encode (zstd_level (compress o)) b)) ->
  build_worker rng legacy = Ok wbuf -> build_portal legacy = Ok (pbuf, an) ->
  let wp := pre ++ stem ++ lit ".worker.fb" in let pp := pre ++ stem ++ lit ".portal.fb" in
  (forall ext, with_extension wp ext = pre ++ stem ++ lit ".worker." ++ ext) ->
  (forall ext, with_extension pp ext = pre ++ stem ++ lit ".portal." ++ ext) ->
  exists fs', build_and_write writable rng o legacy wp pp fs = (Ok tt, fs')
  /\ fs' !! wp = Some wbuf /\ fs' !! pp = Some pbuf.
Proof.
  intros Hz Hw Hp wp pp Ew Ep.
  assert (gz_path wp <> wp /\ zst_path wp <> wp /\ gz_path pp <> pp /\ zst_path pp <> pp
    /\ wp <> pp /\ wp <> gz_path pp /\ wp <> zst_path pp) as (D1 & D2 & D3 & D4 & D5 & D6 & D7).
  { unfold gz_path, zst_path. rewrite !Ew, !Ep. unfold wp, pp.
    split_and!; by intros ?%app_inv_head%app_inv_head. }
  destruct (write_out_ok wp wbuf (compress o) fs Hz) as (fs1 & W1 & V1 & _ & _ & S1 & G1 & Z1).
  destruct (write_out_ok pp pbuf (compress o) fs1 Hz) as (fs2 & W2 & V2 & O2 & M2 & S2 & G2 & Z2).
  exists fs2. split; [| by rewrite O2, V1, V2]. unfold build_and_write.
  unfold cbind at 1, clift at 1. rewrite Hw. unfold cbind at 1, clift at 1. rewrite Hp. cbn [fst].
  rewrite (cbind_run _ _ _ _ _ W1), (cbind_run _ _ _ _ _ W2).
  apply report_sizes_ok. intros q [-> | ->%list_elem_of_singleton]%elem_of_cons; auto 10.
Qed.

(** C3: Run on a legacy assignment that is consistent and convertible, in a place
    it may write to, the converter ends with its success message: it writes
    both assignments beside each other under the input's name, reads them back
    and finds that they reproduce the source.  The outputs and their compressed
    copies never overwrite one another.  The tables built are taken to hold
    values of their Rust types, within the limits of the verifier. *)
Theorem convert_main_verifies (rng : Rng) (args : list str) (o : Options) (input name : str) (legacy : Assignment)
    (size : Z) (fs : Fs)
    (Hargs : parse_args args default_options = Ok o) (Hin : op_input o = Some input)
    (Hname : file_name input = Some name) (Hbuild : verify_only o = false)
    (Hz : zstd (compress o) = true -> forall b, is_Some (zst_encode (zstd_level (compress o)) b))
    (Hread : read_legacy input fs = (Ok (legacy, size), fs))
    (Hc : convertible legacy) (Hs : source_consistent legacy)
    (Htw : fb_typed (assignment_of (worker_built rng legacy)))
    (Htp : fb_typed (portal_assignment_of (portal_built legacy))) :
  exists wp pp fs' worker portal,
    convert_main writable rng args fs = (Ok tt, fs')
    /\ output_paths o input = Ok (wp, pp)
    /\ (worker_from_owned <$> fs' !! wp) = Some (Ok worker)
    /\ (portal_from_owned <$> fs' !! pp) = Some (Ok portal)
    /\ verify legacy worker portal = Ok tt.
Proof.
  destruct (output_paths_shape o input name Hname) as (pre & stem & Hpaths & Ew & Ep).
  destruct (conversion_total rng legacy Hc) as (wbuf & pbuf & an & Hw & Hp).
  destruct (conversion_verifies rng legacy wbuf pbuf an Hw Hp Hs Htw Htp) as (w & p & Rw & Rp & Hv).
  destruct (build_and_write_ok rng o legacy wbuf pbuf an pre stem fs Hz Hw Hp Ew Ep)
    as (fs' & Hrun & Fw & Fp).
  eexists _, _, fs', w, p. rewrite Fw, Fp. cbn [fmap option_fmap option_map]. rewrite Rw, Rp.
  split; [| done]. unfold convert_main. unfold cbind at 1, clift at 1. rewrite Hargs.
  unfold cbind at 1, clift at 1. rewrite Hin. cbn [ok_or]. unfold cbind at 1, clift at 1.
  rewrite Hpaths, (cbind_run _ _ _ _ _ Hread), Hbuild. cbn [fst snd].
  rewrite (cbind_run _ _ _ _ _ Hrun). unfold read_and_verify.
  rewrite (cbind_run _ _ _ _ _ (fs_read_ok _ _ _ Fw)). unfold cbind at 1, clift at 1. rewrite Rw.
  cbn [map_err]. rewrite (cbind_run _ _ _ _ _ (fs_read_ok _ _ _ Fp)).
  unfold cbind, clift. rewrite Rp. cbn [map_err]. by rewrite Hv.
Qed.
End files.

(** * Converting a combined assignment: a two-dataset source

    A concrete legacy assignment at which the converter's properties are
    applied, and one with a gap. *)

#[local] Existing Instances debug_profile toy_peer toy_peer_laws toy_crypto
  linear_lookup linear_lookup_laws.

#[local] Instance worker_fb : Flatbuffer WorkerAssignment := countable_fb WorkerAssignment.
#[local] Instance worker_fb_laws : FlatbufferLaws WorkerAssignment := countable_fb_laws WorkerAssignment.
#[local] Instance portal_fb : Flatbuffer PortalAssignment := countable_fb PortalAssignment.
#[local] Instance portal_fb_laws : FlatbufferLaws PortalAssignment := countable_fb_laws PortalAssignment.

Definition legacy_chunk (name : str) (first : Z) (id : string) (tables : list string)
    (timestamp : option Z) (workers : list Z) : Chunk :=
  mkChunk first (lit id) name 10 (Some (lit "0xhash")) timestamp (lit "s3://bucket") (lit id)
    ((fun t => mkFileUrl (lit t) (lit t)) <$> tables) workers.

Definition eth : str := lit "eth".
Definition sol : str := lit "sol".

Definition demo_legacy : Assignment :=
  mkAssignment
    [mkDataset eth
       [legacy_chunk eth 0 "0000000000/0000000000-0000000099-9QgFD"
          ["logs.parquet"; "blocks.parquet"; "blocks.parquet"; "README.md"] (Some 5) [0; 1];
        legacy_chunk eth 100 "0000000000/0000000100-0000000249-abcde"
          ["blocks.parquet"] (Some 0) [1]] 249;
     mkDataset sol
       [legacy_chunk sol 7 "0000000007/0000000007-0000000007-vwxyz" [] None []] 7]
    [mkWorkerEntry (peer_to_bytes (5 : @PeerId toy_peer)) 1 (Some (mkEncryptedHeaders [1] [2] [3]));
     mkWorkerEntry (peer_to_bytes (9 : @PeerId toy_peer)) 77 (Some (mkEncryptedHeaders [1] [4] [5]))].

(** The second chunk starts one block later than the first ends. *)
Definition gapped_legacy : Assignment :=
  mkAssignment
    [mkDataset eth
       [legacy_chunk eth 0 "0000000000/0000000000-0000000099-9QgFD" ["blocks.parquet"] None [];
        legacy_chunk eth 101 "0000000000/0000000101-0000000249-abcde" ["blocks.parquet"] None []] 249]
    [].

Definition demo_anomalies : Anomalies :=
  snd (snd (build_portal_datasets demo_legacy
              (portal_check_continuity false portal_new, mkAnomalies 0 0 ∅))).

Lemma demo_build_worker : exists buf, build_worker tt demo_legacy = Ok buf.
Proof. apply build_worker_intro. vm_compute. reflexivity. Qed.

Lemma demo_build_portal : exists buf an, build_portal demo_legacy = Ok (buf, an).
Proof.
  destruct (build_portal_intro demo_legacy) as [buf Hb]; [vm_compute; reflexivity .. |].
  exists buf. eexists. exact Hb.
Qed.

(** The report names the one dataset with an unrecorded, hence descending,
    timestamp. *)
Lemma demo_report : demo_anomalies = mkAnomalies 1 1 {[ eth := (1%nat, 1%nat) ]}.
Proof. vm_compute. reflexivity. Qed.

Lemma demo_consistent : source_consistent demo_legacy.
Proof.
  split.
  - repeat constructor; try (intros ? [= <-]); try (intros ?? [= <-] [= <-]); try reflexivity.
  - repeat constructor.
Defined.

Lemma conversion_reproduces_source_witness :
  exists wbuf pbuf an, build_worker tt demo_legacy = Ok wbuf /\ build_portal demo_legacy = Ok (pbuf, an)
  /\ exists worker portal,
    worker_from_owned wbuf = Ok worker /\ portal_from_owned pbuf = Ok portal
    /\ verify demo_legacy worker portal = Ok tt.
Proof.
  destruct demo_build_worker as [wbuf Hw], demo_build_portal as (pbuf & an & Hp).
  exists wbuf, pbuf, an. split; [exact Hw |]. split; [exact Hp |].
  exact (conversion_reproduces_source tt demo_legacy wbuf pbuf an Hw Hp demo_consistent I I).
Defined.

Lemma gapped_has_gap : has_gap gapped_legacy.
Proof.
  exists 0%nat. eexists. exists 0%nat. do 4 eexists.
  do 3 (split; [reflexivity |]). split; [vm_compute; reflexivity |].
  split; [vm_compute; reflexivity |]. cbn. lia.
Defined.

Lemma gaps_are_not_converted_witness :
  is_ok (build_worker tt gapped_legacy) = false /\ is_ok (build_portal gapped_legacy) = false.
Proof. exact (gaps_are_not_converted tt gapped_legacy gapped_has_gap). Defined.

(** ** The command line *)

#[global] Instance FileUrl_eq_dec : EqDecision FileUrl.
Proof. solve_decision. Defined.
#[global] Instance FileUrl_countable : Countable FileUrl :=
  inj_countable' (fun r => (fu_filename r, fu_url r)) (fun '(i, t) => mkFileUrl i t)
    (fun r => match r with mkFileUrl _ _ => eq_refl end).

#[global] Instance Chunk_eq_dec : EqDecision Chunk.
Proof. solve_decision. Defined.
#[global] Instance Chunk_countable : Countable Chunk.
Proof.
  refine (inj_countable'
    (fun c => (ch_first_block c, ch_id c, ch_dataset_id c, ch_size c, ch_last_block_hash c,
               ch_last_block_timestamp c, ch_dataset_base_url c, ch_base_url c, ch_files c,
               ch_worker_indexes c))
    (fun '(a, b, c, d, e, f, g, h, i, j) => mkChunk a b c d e f g h i j) _).
  by intros [].
Defined.

#[global] Instance Dataset_eq_dec : EqDecision Dataset.
Proof. solve_decision. Defined.
#[global] Instance Dataset_countable : Countable Dataset :=
  inj_countable' (fun r => (ld_id r, ld_chunks r, ld_last_block r)) (fun '(i, n, c) => mkDataset i n c)
    (fun r => match r with mkDataset _ _ _ => eq_refl end).

#[global] Instance Assignment_eq_dec : EqDecision Assignment.
Proof. solve_decision. Defined.
#[global] Instance Assignment_countable : Countable Assignment :=
  inj_countable' (fun r => (as_datasets r, as_workers r)) (fun '(i, n) => mkAssignment i n)
    (fun r => match r with mkAssignment _ _ => eq_refl end).

#[local] Instance legacy_fb : Flatbuffer Assignment := countable_fb Assignment.

(** Codecs that tag what they wrap. *)
#[local] Instance toy_codecs : Compression := {|
  gz_encode l := 31 :: l;
  gz_decode l := match l with 31 :: l => Some l | _ => None end;
  zst_encode level l := Some (40 :: level :: l);
  zst_decode l := match l with 40 :: _ :: l => Some l | _ => None end |}.

Definition demo_args : list str := [lit "in/eth.fb.1"; lit "--zstd-level"; lit "3"; lit "--out-dir"; lit "out"].

Definition demo_args_options : Options := mkOptions (Some (lit "in/eth.fb.1")) (lit "out") false
                                       (mkCompress true true 3).

Definition demo_fs : gmap str (list Z) := {[ lit "in/eth.fb.1" := fb_finish demo_legacy ]}.

Lemma demo_read : read_legacy (lit "in/eth.fb.1") demo_fs
  = (Ok (demo_legacy, Z.of_nat (length (fb_finish demo_legacy))), demo_fs).
Proof.
  unfold read_legacy. rewrite (cbind_run _ _ _ (fb_finish demo_legacy) demo_fs).
  - assert (fb_root (fb_finish demo_legacy) = Some demo_legacy) as Hroot
      by apply (countable_fb_laws Assignment demo_legacy I).
    change (extension (lit "in/eth.fb.1")) with (Some (lit "1")). unfold cbind, clift.
    change (str_eqb (lit "1") (lit "gz")) with false. change (str_eqb (lit "1") (lit "zst")) with false.
    unfold legacy_from_owned. by rewrite Hroot.
  - apply fs_read_ok. unfold demo_fs. by rewrite lookup_singleton_eq.
Qed.

Lemma demo_convertible : convertible demo_legacy.
Proof.
  split; [| split; [reflexivity |]].
  - constructor; [| constructor; [| constructor]].
    + exists [mkDataChunk 0 0 99 (pad_hash (as_bytes (lit "9QgFD")));
              mkDataChunk 0 100 249 (pad_hash (as_bytes (lit "abcde")))].
      split; [repeat constructor; vm_compute; reflexivity |]. split; [discriminate |].
      split; [cbn; lia |]. split; vm_compute; [discriminate | reflexivity].
    + exists [mkDataChunk 7 7 7 (pad_hash (as_bytes (lit "vwxyz")))].
      split; [repeat constructor; vm_compute; reflexivity |]. split; [discriminate |].
      split; [cbn; lia |]. split; vm_compute; [discriminate | reflexivity].
  - split; [vm_compute; discriminate |]. exists [5; 9]. split; [| repeat constructor].
    repeat constructor; by eexists.
Qed.

Lemma convert_main_verifies_witness :
  exists wp pp fs' worker portal,
    convert_main (fun _ => true) (tt : @Rng toy_crypto) demo_args demo_fs = (Ok tt, fs')
    /\ output_paths demo_args_options (lit "in/eth.fb.1") = Ok (wp, pp)
    /\ (worker_from_owned <$> fs' !! wp) = Some (Ok worker)
    /\ (portal_from_owned <$> fs' !! pp) = Some (Ok portal)
    /\ verify demo_legacy worker portal = Ok tt.
Proof.
  apply (convert_main_verifies (fun _ => true) (fun _ => eq_refl) (tt : @Rng toy_crypto) demo_args demo_args_options
           (lit "in/eth.fb.1") (lit "eth.fb.1") demo_legacy
           (Z.of_nat (length (fb_finish demo_legacy))) demo_fs eq_refl eq_refl eq_refl eq_refl).
  - intros _ b. by eexists.
  - exact demo_read.
  - exact demo_convertible.
  - exact demo_consistent.
  - exact I.
  - exact I.
Defined.

(** The outputs lie in the directory asked for, under the input's name. *)
Lemma demo_outputs : output_paths demo_args_options (lit "in/eth.fb.1")
  = Ok (lit "out/eth.worker.fb", lit "out/eth.portal.fb")
  /\ gz_path (lit "out/eth.worker.fb") = lit "out/eth.worker.fb.gz".
Proof. split; reflexivity. Qed.
