(* ===== verification/ConvertTyped.v ===== *)
(** * The converter keeps to the wire types

    From a legacy assignment whose fields are of their Rust types, every step of
    [build_worker] and [build_portal] keeps the builders within the wire types:
    the schema ids are [u32] sums, the chunk ids are parsed [u64]s, and the rest
    is copied. *)

From S2P Require Import Prelude RustStd DataChunk Search AssignmentFb Sealing WorkerBuilder PortalAssignment.
From S2P Require Import LegacyAssignment Convert ConvertTheory.
From S2P Require Import FlatBuffers AssignmentCodec WorkerCodec PortalCodec BuilderTyped.
From Stdlib Require Import ZArith Lia Ascii String.
From stdpp Require Import base sets strings gmap sorting numbers list.

Open Scope Z_scope.

Lemma schema_id_typed `{BuildProfile} {E} i n : schema_id (E := E) i = Ok n -> scalar_ok U32 n.
Proof.
  apply add_u32_typed; unfold u32; [| lia].
  pose proof (Z.mod_pos_bound (Z.of_nat i) (2 ^ 32)). lia.
Qed.

Lemma vget_elem {E A} (l : list A) i x : vget (E := E) l i = Ok x -> x ∈ l.
Proof. unfold vget. destruct (l !! i) eqn:Hi; [| done]. intros [= <-]. by eapply list_elem_of_lookup_2. Qed.

Section worker.
Context `{BuildProfile, PeerIdOps, CryptoOps, VectorLookup, !PeerBytes, !CryptoBytes}.

Lemma convert_worker_chunk_typed n roster chunk :
  scalar_ok U32 n -> Chunk_typed chunk ->
  keeps (fun d => wtyped (wdb_p d)) (convert_worker_chunk n roster chunk) (fun _ => True).
Proof.
  intros Hn Hc. unfold convert_worker_chunk. cbv zeta.
  eapply keeps_bind; [apply keeps_lift | intros id Hid%id_of_wf].
  intros d Hd. set (staged := cb_set_worker_indexes _ _).
  assert (wtyped (cb_p staged) /\ cb_args_typed staged) as Hst.
  { destruct Hc as (_ & Hs & _ & _ & Hw). split.
    - cbn. apply set_staged_typed; [| done | constructor].
      apply set_staged_typed; [done | constructor | constructor].
    - split; cbn -[scalar_ok]; try done. by intros ? [= <-]. }
  set (p := if negb _ then cb_tables (tables_of chunk) staged else (Ok tt, staged)).
  assert (wtyped (cb_p (snd p)) /\ cb_args_typed (snd p)) as [Hp Ha].
  { unfold p. destruct (negb _); [| done]. by apply cb_tables_typed. }
  destruct p as [r st]. cbn in Hp, Ha. split; [| done].
  destruct r as [[] | e |]; [| done | done].
  pose proof (cb_finish_typed st Hp Ha) as Hf. destruct (cb_finish st). exact Hf.
Qed.

Lemma convert_worker_dataset_typed all i ds :
  Dataset_typed ds -> keeps wtyped (convert_worker_dataset all (i, ds)) (fun _ => True).
Proof.
  intros [Hcs _]. unfold convert_worker_dataset.
  eapply keeps_bind; [apply keeps_lift | intros n Hn%schema_id_typed]. keeps_step. cbv zeta. keeps_step.
  intros b Hb.
  destruct (keeps_for (fun d => wtyped (wdb_p d)) (ld_chunks ds) (convert_worker_chunk n a)) with
    (s := new_dataset (ld_id ds) (ch_dataset_base_url a0) b) as [Hi _]; [| done |].
  { intros c Hin. apply convert_worker_chunk_typed; [done |]. by eapply Forall_forall in Hcs. }
  destruct (cfor _ _ _) as [[[] | e |] d]; cbn in Hi |- *.
  - unfold cmap_err. pose proof (dataset_finish_typed d Hi) as Hf. by destruct (dataset_finish d).
  - split; [by apply dataset_drop_typed | done].
  - split; [by apply dataset_drop_typed | done].
Qed.

Lemma convert_worker_entry_typed legacy i :
  Assignment_typed legacy -> keeps wtyped (convert_worker_entry legacy i) (fun _ => True).
Proof.
  intros [_ Hws]. unfold convert_worker_entry.
  eapply keeps_bind; [apply keeps_lift | intros e He%vget_elem].
  eapply keeps_bind; [apply keeps_lift | intros h Hh%ok_or_Ok]. do 2 keeps_step.
  eapply Forall_forall in Hws as (_ & _ & Hty); [| exact He]. rewrite Hh in Hty. destruct Hty as (? & ? & ?).
  by apply keeps_map_err, add_sealed_typed.
Qed.

Lemma worker_built_typed rng legacy :
  Assignment_typed legacy -> WorkerAssignment_typed (assignment_of (worker_built rng legacy)).
Proof.
  intros Hl. apply assignment_of_typed. unfold worker_built.
  match goal with |- wtyped (snd (?m _)) => assert (keeps wtyped m (fun _ => True)) as Hk end.
  - unfold build_worker_steps. cbv zeta. eapply keeps_bind; [apply keeps_for | intros _ _].
    { intros [i roster] _. eapply keeps_bind; [apply keeps_lift | intros n Hn%schema_id_typed].
      by apply keeps_map_err, register_write_schema_typed. }
    eapply keeps_bind; [apply keeps_for | intros _ _].
    { intros [i ds] (j & y & [= -> ->] & Hj)%elem_of_lookup_imap.
      apply convert_worker_dataset_typed. destruct Hl as [Hds _]. by eapply Forall_lookup in Hds. }
    apply keeps_for. intros i _. by apply convert_worker_entry_typed.
  - apply Hk. destruct (new_typed (lit "") rng). by split.
Qed.
End worker.

Section portal.
Context `{BuildProfile, PeerIdOps, VectorLookup, !PeerBytes}.

Lemma convert_portal_chunk_typed chunk :
  Chunk_typed chunk ->
  keeps (fun c => ptyped (pdb_p (cv_staging c))) (convert_portal_chunk chunk) (fun _ => True).
Proof.
  intros Hc. unfold convert_portal_chunk.
  eapply keeps_bind; [apply keeps_lift | intros id Hid%id_of_wf]. intros c Hd. cbv zeta.
  destruct Hc as (_ & _ & Ht & _ & Hw).
  set (staged := pcb_set_worker_indexes _ _).
  assert (ptyped (pcb_p staged)) as Hp by (cbn; destruct Hd; by split).
  assert (scalar_ok U32 0 /\ scalar_ok U64 0) as [? ?] by (cbn; lia).
  destruct (ch_last_block_timestamp chunk) as [t |]; cbn in Ht.
  - pose proof (portal_cb_finish_typed (pcb_set_last_block_timestamp t staged) Hp) as Hf.
    destruct (portal_cb_finish _) as [r p]. cbn. split; [| done]. apply Hf.
    split; cbn -[scalar_ok]; try done. by intros ? [= <-].
  - pose proof (portal_cb_finish_typed staged Hp) as Hf.
    destruct (portal_cb_finish staged) as [r p]. cbn. split; [| done]. apply Hf.
    split; cbn -[scalar_ok]; try done. by intros ? [= <-].
Qed.

Lemma convert_portal_dataset_typed i ds :
  Dataset_typed ds ->
  keeps (fun s => ptyped (fst s)) (convert_portal_dataset (i, ds)) (fun _ => True).
Proof.
  intros [Hcs _]. unfold convert_portal_dataset.
  eapply keeps_bind; [apply keeps_lift | intros n Hn%schema_id_typed]. intros [b an] Hb. cbv zeta.
  destruct (keeps_for (fun c => ptyped (pdb_p (cv_staging c)) /\ scalar_ok U32 (pdb_read_schema_id (cv_staging c)))
              (ld_chunks ds) convert_portal_chunk) with
    (s := mkPortalConversion (portal_new_dataset (ld_id ds) n b) 0 0 0) as [[Hi Hr] _]; [| done |].
  { intros c Hin s [Hs Hn']. eapply Forall_forall in Hcs; [| exact Hin].
    destruct (convert_portal_chunk_typed c Hcs s Hs) as [Hk _]. split; [| done]. split; [done |].
    unfold convert_portal_chunk, cbind, clift in *. destruct (id_of c) as [id | |]; [| done | done].
    cbv zeta. destruct (ch_last_block_timestamp c); by destruct (portal_cb_finish _). }
  destruct (cfor _ _ _) as [r c]; cbn in Hi, Hr.
  destruct (r;; ld_last_block_hash ds) as [h | e |].
  - pose proof (portal_finish_typed h (cv_staging c) Hr Hi) as Hf.
    destruct (portal_dataset_finish h (cv_staging c)) as [[[] | e |] p]; cbn in *; by split.
  - split; [by apply portal_drop_typed | done].
  - split; [by apply portal_drop_typed | done].
Qed.

Lemma portal_built_typed legacy :
  Assignment_typed legacy -> PortalAssignment_typed (portal_assignment_of (portal_built legacy)).
Proof.
  intros [Hds _]. apply portal_assignment_of_typed. unfold portal_built.
  match goal with |- ptyped (snd (?m _)) => assert (keeps ptyped m (fun _ => True)) as Hk end.
  - apply keeps_for. intros i _. unfold convert_portal_entry. do 2 keeps_step.
    apply keeps_map_err, portal_add_worker_typed.
  - apply Hk. unfold build_portal_datasets.
    apply (keeps_for (fun s => ptyped (fst s))); [| cbn; destruct portal_new_typed; by split].
    intros [i ds] (j & y & [= -> ->] & Hj)%elem_of_lookup_imap.
    apply convert_portal_dataset_typed. by eapply Forall_lookup in Hds.
Qed.
End portal.
