(* ===== verification/WireProps.v ===== *)
(** * Assignments over the wire

    The theorems about the generated code: round trips of the three formats,
    reading of bytes nobody vouches for, the panic of a [create] without a
    required field, and the builders and the converter composed with it. *)

From S2P Require Import Prelude RustStd DataChunk Search AssignmentFb Columns Sealing Instances WorkerBuilder.
From S2P Require Import WorkerReader WorkerReach PortalAssignment PortalTheory PortalProps LegacyAssignment FlatBuffers.
From S2P Require Import FlatTheory FlatToy AssignmentGen WorkerGen PortalGen AssignmentCodec WorkerCodec.
From S2P Require Import PortalCodec WireCodec BuilderTyped Convert ConvertTheory ConvertProps.
From S2P Require Import ConvertMainProps ConvertTyped.
From Stdlib Require Import ZArith Lia Ascii String.
From stdpp Require Import base sets strings gmap sorting numbers countable list.

Open Scope Z_scope.

(** ** Panics *)

Section panics.
Context `{FlatBufferGhost, !FlatBufferCodec}.

Lemma panic_step {A B} (c : comp FlatBufferBuilder Ub A) (k : A -> comp FlatBufferBuilder Ub B) b P :
  wpf c b P -> (forall x b1, P x b1 -> fst (k x b1) = Panic) -> fst (cbind c k b) = Panic.
Proof. intros (x & b1 & Hc & _ & HP) Hk. unfold cbind. rewrite Hc. by apply Hk. Qed.

Lemma panic_required b o vt name m x {A} (k : unit -> comp FlatBufferBuilder Ub A) :
  fbb_obj b o = Some (OTab m) -> m !! vt = x ->
  (is_Some x -> fst (k tt b) = Panic) -> fst (cbind (required o vt name) k b) = Panic.
Proof.
  intros Ho <- Hk. unfold cbind. rewrite (required_checks b o vt name m Ho).
  destruct (decide (is_Some (m !! vt))) as [Hx | Hx].
  - rewrite bool_decide_eq_true_2 by done. by apply Hk.
  - by rewrite bool_decide_eq_false_2.
Qed.
End panics.

(** Run to the checks of the required fields. *)
Ltac panic_step_in :=
  let x := fresh "x" in let b := fresh "b" in let Ho := fresh "Ho" in intros x b Ho; cbv beta in Ho.

Ltac panic_run :=
  repeat lazymatch goal with
  | |- fst (cbind start_table _ _) = Panic =>
    eapply panic_step; [eapply start_opens; eassumption | panic_step_in]
  | |- fst (cbind (if_let_Some ?o ?k) _ _) = Panic =>
    eapply panic_step;
      [eapply (adds_if_let o k); [intros ?; apply slot_always_adds | eassumption] | panic_step_in]
  | |- fst (cbind (end_table _) _ _) = Panic =>
    eapply panic_step; [eapply end_closes; eassumption | panic_step_in];
    lazymatch goal with H : fbb_open _ = None /\ fbb_obj _ _ = Some _ |- _ => destruct H end
  | |- fst (cbind (required _ _ _) _ _) = Panic =>
    eapply panic_required; [eassumption | slots |];
    let Hs := fresh "Hs" in intros Hs; apply fmap_is_Some in Hs
  | |- fst (cbind _ _ _) = Panic =>
    eapply panic_step; [eapply slot_adds; eassumption | panic_step_in]
  end.

Section wire_properties.
Context `{FlatBufferGhost, !FlatBufferSafety, !FlatBufferCodec}.

(** [Chunk::create] panics when any of the required fields (id, dataset id,
    the two urls, files, worker indexes) is not given, whatever the others are:
    [ChunkBuilder::finish] asserts each of them. *)
Theorem chunk_create_requires (args : ChunkArgs) b (Hb : fbb_open b = None)
    (Hmiss : ChunkArgs_id args = None \/ ChunkArgs_dataset_id args = None
      \/ ChunkArgs_dataset_base_url args = None \/ ChunkArgs_base_url args = None
      \/ ChunkArgs_files args = None \/ ChunkArgs_worker_indexes args = None) :
  fst (Chunk_create args b) = Panic.
Proof.
  unfold Chunk_create, ChunkBuilder_new, ChunkBuilder_finish. panic_run. exfalso.
  repeat match goal with H : is_Some _ |- _ => destruct H as [? H] end. naive_solver.
Qed.

(** C6: For each of the three formats, a tree of tables whose values are of
    their Rust types is written by the generated [create] functions without a
    panic, and the finished buffer, within the limits the reader sets, passes
    the generated verifier and reads, through the generated accessors, as the
    tree that was written: every field is found at the slot it was written to,
    with the same width, and a field left out because it has its default value
    reads as that default. *)
Theorem wire_roundtrip :
  (forall t, WorkerAssignment_typed t -> exists buf,
     finish_with write_WorkerAssignment finish_worker_assignment_buffer t = Ok buf
     /\ (within reader_opts buf ->
         root_with root_as_worker_assignment_with_opts read_WorkerAssignment buf = Some (Ok t)))
  /\ (forall t, PortalAssignment_typed t -> exists buf,
     finish_with write_PortalAssignment finish_portal_assignment_buffer t = Ok buf
     /\ (within reader_opts buf ->
         root_with root_as_portal_assignment_with_opts read_PortalAssignment buf = Some (Ok t)))
  /\ (forall t, Assignment_typed t -> exists buf,
     finish_with write_Assignment finish_assignment_buffer t = Ok buf
     /\ (within reader_opts buf ->
         root_with root_as_assignment_with_opts read_Assignment buf = Some (Ok t))).
Proof.
  split_and!; intros t Ht.
  - exact (finish_root _ _ _ _ t write_WorkerAssignment_writer Ht).
  - exact (finish_root _ _ _ _ t write_PortalAssignment_writer Ht).
  - exact (finish_root _ _ _ _ t write_Assignment_writer Ht).
Qed.

(** C7: Bytes from anywhere: when the generated verifier accepts a buffer as a
    worker, portal or combined assignment, every accessor of every table
    reachable from the root can be called without a panic ([unwrap] on an
    absent field) or undefined behaviour (an unsafe read of unverified bytes),
    and the values read are of their types. *)
Theorem verified_reads_are_safe (buf : list Z) :
  (forall r, root_with root_as_worker_assignment_with_opts read_WorkerAssignment buf = Some r ->
     exists t, r = Ok t /\ WorkerAssignment_typed t)
  /\ (forall r, root_with root_as_portal_assignment_with_opts read_PortalAssignment buf = Some r ->
     exists t, r = Ok t /\ PortalAssignment_typed t)
  /\ (forall r, root_with root_as_assignment_with_opts read_Assignment buf = Some r ->
     exists t, r = Ok t /\ Assignment_typed t).
Proof.
  split_and!; intros r.
  - apply root_read, WorkerAssignment_sound.
  - apply root_read, PortalAssignment_sound.
  - apply root_read, Assignment_sound.
Qed.
End wire_properties.

(** ** Keys: the generated comparisons are those of the records read *)

Section keys.
Context `{FlatBufferOps}.

Lemma rbind_Ok {E A B} (m : res E A) (k : A -> res E B) x :
  (m ≫= k) = Ok x -> exists a, m = Ok a /\ k a = Ok x.
Proof. destruct m; cbn; [eauto | done | done]. Qed.

Lemma worker_dataset_key t d val :
  read_WorkerAssignmentDataset t = Ok d ->
  WorkerAssignmentDataset_key_compare_with_value t val = Ok (str_cmp (wd_id d) val).
Proof.
  unfold read_WorkerAssignmentDataset, WorkerAssignmentDataset_key_compare_with_value. intros Hr.
  apply rbind_Ok in Hr as (id & Hid & Hr). rewrite Hid. cbn.
  repeat (apply rbind_Ok in Hr as (? & _ & Hr)). by injection Hr as <-.
Qed.

Lemma portal_dataset_key t d val :
  read_PortalAssignmentDataset t = Ok d ->
  PortalAssignmentDataset_key_compare_with_value t val = Ok (str_cmp (pd_id d) val).
Proof.
  unfold read_PortalAssignmentDataset, PortalAssignmentDataset_key_compare_with_value. intros Hr.
  apply rbind_Ok in Hr as (id & Hid & Hr). rewrite Hid. cbn.
  repeat (apply rbind_Ok in Hr as (? & _ & Hr)). by injection Hr as <-.
Qed.

Lemma table_roster_key t d val :
  read_TableRoster t = Ok d ->
  TableRoster_key_compare_with_value t val = Ok (Z.compare (tr_write_schema_id d) val).
Proof.
  unfold read_TableRoster, TableRoster_key_compare_with_value. intros Hr.
  apply rbind_Ok in Hr as (id & Hid & Hr). rewrite Hid. cbn.
  repeat (apply rbind_Ok in Hr as (? & _ & Hr)). by injection Hr as <-.
Qed.

Lemma generation_key t d val :
  read_GenerationEntry t = Ok d ->
  GenerationEntry_key_compare_with_value t val = Ok (Z.compare (ge_version d) val).
Proof.
  unfold read_GenerationEntry, GenerationEntry_key_compare_with_value. intros Hr.
  apply rbind_Ok in Hr as (id & Hid & Hr). rewrite Hid. cbn.
  repeat (apply rbind_Ok in Hr as (? & _ & Hr)). by injection Hr as <-.
Qed.
End keys.

(** ** The builders and the converter over the generated code *)

Section composed.
Context `{BuildProfile, PeerIdOps, !PeerIdLaws, CryptoOps, VectorLookup, !VectorLookupLaws}.
Context `{!PeerBytes, !CryptoBytes}.
Context `{FlatBufferGhost, !FlatBufferSafety, !FlatBufferCodec}.

Lemma called_accepted b s : called b s -> s <> SpoiltEmitted -> within reader_opts (finish b) ->
  worker_from_owned (finish b) = Ok (assignment_of b).
Proof.
  intros Hb Hs Hin. pose proof (called_spoilt _ _ Hb) as Hi. unfold worker_from_owned, finish.
  rewrite fb_root_finish by (split; [by eapply called_typed | exact Hin]). cbn.
  rewrite check_datasets_ok; [done |]. destruct s; [apply Hi | apply Hi | done].
Qed.

Lemma pcalled_accepted b s : pcalled b s -> s <> SpoiltEmitted -> within reader_opts (portal_finish b) ->
  portal_from_owned (portal_finish b) = Ok (portal_assignment_of b).
Proof.
  intros Hb Hs Hin. pose proof (pcalled_spoilt _ _ Hb) as Hi. unfold portal_from_owned, portal_finish.
  rewrite fb_root_finish by (split; [by eapply pcalled_typed | exact Hin]). cbn.
  rewrite check_portal_datasets_ok; [done |]. destruct s; [apply Hi | apply Hi | done].
Qed.

Lemma called_refused b : called b SpoiltEmitted -> within reader_opts (finish b) ->
  exists e, worker_from_owned (finish b) = Err e.
Proof.
  intros Hb Hin. pose proof (called_spoilt _ _ Hb) as Hi. unfold worker_from_owned, finish.
  rewrite fb_root_finish by (split; [by eapply called_typed | exact Hin]). cbn.
  assert (exists e, check_worker_datasets (wb_all_datasets b) = Err e) as [e ->]; [| by eexists].
  revert Hi. unfold spoilt_inv. cbn. induction (wb_all_datasets b) as [| ds l IH]; intros Hi; [by apply Exists_nil in Hi |].
  cbn [check_worker_datasets]. unfold check_worker_dataset at 1.
  destruct (check_columns_total (wd_id ds) (length (wd_first_blocks ds)) (worker_dense ds) (worker_runs ds))
    as [E | [e E]]; rewrite E; [| by eexists]. cbn. apply IH. apply Exists_cons in Hi as [Hi | Hi]; [| done].
  by destruct Hi.
Qed.

Lemma pcalled_refused b : pcalled b SpoiltEmitted -> within reader_opts (portal_finish b) ->
  exists e, portal_from_owned (portal_finish b) = Err e.
Proof.
  intros Hb Hin. pose proof (pcalled_spoilt _ _ Hb) as Hi. unfold portal_from_owned, portal_finish.
  rewrite fb_root_finish by (split; [by eapply pcalled_typed | exact Hin]). cbn.
  assert (exists e, check_portal_datasets (pb_all_datasets b) = Err e) as [e ->]; [| by eexists].
  revert Hi. unfold pspoilt_inv. cbn. induction (pb_all_datasets b) as [| ds l IH]; intros Hi; [by apply Exists_nil in Hi |].
  cbn [check_portal_datasets]. unfold check_portal_dataset at 1.
  destruct (check_columns_total (pd_id ds) (length (pd_first_blocks ds)) (portal_dense ds)
    [("tops"%string, first_chunk_index <$> head (pd_tops ds))])
    as [E | [e E]]; rewrite E; [| by eexists]. cbn. apply IH. apply Exists_cons in Hi as [Hi | Hi]; [| done].
  by destruct Hi.
Qed.

(** C4: The buffers that the worker and the portal builder finish, over the generated
    code and on any build profile.  The builder was reached by any calls with
    arguments of their Rust types, whatever each of them answered, and the buffer is
    within the limits (tables, depth, size) that [from_owned] gives the verifier.
    Then [WorkerAssignment::from_owned] and [PortalAssignment::from_owned] read back
    exactly the tables that were built - no column is truncated on the way - unless
    a dataset was finished after one of its chunks had been answered that the
    dataset may hold no more worker references: such a buffer, whose columns
    disagree, they refuse. *)
Theorem builders_over_the_wire :
  (forall b s, called b s -> within reader_opts (finish b) ->
     if decide (s = SpoiltEmitted) then exists e, worker_from_owned (finish b) = Err e
     else worker_from_owned (finish b) = Ok (assignment_of b))
  /\ (forall b s, pcalled b s -> within reader_opts (portal_finish b) ->
     if decide (s = SpoiltEmitted) then exists e, portal_from_owned (portal_finish b) = Err e
     else portal_from_owned (portal_finish b) = Ok (portal_assignment_of b)).
Proof.
  split; intros b s Hb Hin; case_decide as Hs; subst.
  - by apply called_refused.
  - by eapply called_accepted.
  - by apply pcalled_refused.
  - by eapply pcalled_accepted.
Qed.

(** [from_owned_unchecked] skips the verifier and the column checks: on every buffer
    that [from_owned] accepts, in each of the three formats, it gives the same
    assignment. *)
Lemma unchecked_readers_agree :
  (forall buf a, worker_from_owned buf = Ok a -> worker_from_owned_unchecked buf = Ok a)
  /\ (forall buf a, portal_from_owned buf = Ok a -> portal_from_owned_unchecked buf = Ok a)
  /\ (forall buf a, legacy_from_owned buf = Ok a -> legacy_from_owned_unchecked buf = Ok a).
Proof.
  split_and!; intros buf a Ha.
  - apply rbind_Ok in Ha as (x & Hx%ok_or_Ok & Ha). apply rbind_Ok in Ha as (_ & _ & [= <-]).
    by apply root_unchecked_agrees.
  - apply rbind_Ok in Ha as (x & Hx%ok_or_Ok & Ha). apply rbind_Ok in Ha as (_ & _ & [= <-]).
    by apply root_unchecked_agrees.
  - apply ok_or_Ok in Ha. by apply root_unchecked_agrees.
Qed.

(** C5: The converter over the generated code: when the bytes of a combined
    assignment are accepted, and it converts and is consistent, both outputs are
    accepted by their readers and reproduce the source.  Nothing is assumed of
    the numbers in the input: what the verifier accepts is of its types, and the
    conversion keeps to the wire types. *)
Theorem conversion_over_the_wire rng lbuf legacy wbuf pbuf an
    (Hl : legacy_from_owned lbuf = Ok legacy)
    (Hw : build_worker rng legacy = Ok wbuf) (Hp : build_portal legacy = Ok (pbuf, an))
    (Hsrc : source_consistent legacy)
    (Hin : within reader_opts wbuf /\ within reader_opts pbuf) :
  exists worker portal,
    worker_from_owned wbuf = Ok worker /\ portal_from_owned pbuf = Ok portal
    /\ verify legacy worker portal = Ok tt.
Proof.
  assert (Assignment_typed legacy) as Hty.
  { unfold legacy_from_owned in Hl. apply ok_or_Ok in Hl. cbn [fb_root legacy_wire wire] in Hl.
    destruct (root_with _ _ lbuf) as [r |] eqn:Hr; [| done].
    destruct (root_read _ _ _ _ _ Assignment_sound Hr) as (t & -> & Ht).
    cbn in Hl. by injection Hl as <-. }
  destruct (build_worker_Ok rng legacy wbuf Hw) as (b & -> & Eb & _).
  destruct (build_portal_Ok legacy pbuf an Hp) as (pb & -> & Epb & _).
  destruct Hin as [Hinw Hinp]. apply (conversion_verifies rng legacy wbuf pbuf an Hw Hp Hsrc).
  - split; [by apply worker_built_typed |]. by rewrite Eb in Hinw.
  - split; [by apply portal_built_typed |]. by rewrite Epb in Hinp.
Qed.
End composed.

(** * Assignments over the wire: a concrete run

    The library of [FlatToy], peers of one character and cryptography that
    returns bytes, at which the properties of [WireProps] are applied. *)

(** ** Instances *)

#[local] Instance byte_peer : PeerIdOps := {|
  PeerId := ascii;
  peer_to_bytes c := replicate 37 0 ++ [byte_of c];
  peer_from_bytes l := byte_ascii <$> last l;
  peer_to_string c := [c];
  peer_cmp c d := Z.compare (byte_of c) (byte_of d) |}.

#[local] Instance byte_peer_laws : PeerIdLaws.
Proof.
  split; cbn.
  - intros c. by rewrite byte_ascii_of.
  - intros c d. rewrite Z.compare_eq_iff. split; [apply byte_of_inj | by intros ->].
  - intros c d. apply Z.compare_antisym.
  - intros c d e. rewrite !Z.compare_lt_iff. lia.
Qed.

#[local] Instance byte_peer_bytes : PeerBytes.
Proof.
  intros c. apply Forall_app. split; [by apply Forall_replicate |]. repeat constructor; cbn;
    pose proof (byte_of_range c); lia.
Qed.

#[local] Instance byte_crypto : CryptoOps := {|
  Rng := unit; SecretKey := unit; PublicKey := unit; CompressedEdwardsY := unit;
  EdwardsPoint := unit; Keypair := unit;
  generate_key r := (tt, r);
  public_key _ := tt;
  pk_as_bytes _ := replicate 32 0;
  pk_from_slice _ := Some tt;
  sk_from_slice _ := Some tt;
  edwards_from_slice _ := Some tt;
  decompress := Some;
  montgomery_key _ := tt;
  generate_nonce r := (replicate 24 0, r);
  box_encrypt _ _ _ m := Some ((fun b => b mod 256) <$> m);
  box_decrypt _ _ _ m := Some m;
  hmac_sha256 k m := k ++ m;
  sha512 l := l;
  base64_encode l := byte_ascii <$> l;
  byte_serialize _ := lit "token";
  ed25519_secret _ := None;
  json_from_str _ := None |}.

#[local] Instance byte_crypto_bytes : CryptoBytes.
Proof.
  split; cbn.
  - intros _. by repeat constructor.
  - intros _. by repeat constructor.
  - intros _ _ _ m c [= <-]. apply Forall_fmap, Forall_true. intros b. cbn. apply Z.mod_pos_bound. lia.
Qed.

#[local] Existing Instances release_profile linear_lookup linear_lookup_laws.

(** ** A typed assignment of each format *)

Ltac typed := repeat first [progress cbn | split | constructor]; lia.

Definition wire_dataset : WorkerAssignmentDataset :=
  mkWorkerAssignmentDataset (lit "eth") 249 (lit "s3://eth")
    (Some [mkGenerationEntry 3 (lit "_bf/01HQ")]) [0; 100] [99; 149]
    [[57; 81; 103; 70; 68; 0; 0; 0]; [97; 98; 99; 100; 101; 0; 0; 0]] [mkTopRun 0 0]
    [10; 20] [1; 1] None None (Some [0; 3]) [0; 2; 3] [0; 2; 1].

Definition wire_worker : WorkerAssignment :=
  mkWorkerAssignment [wire_dataset]
    [mkWorkerEntry (replicate 37 0 ++ [5]) 1 (Some (mkEncryptedHeaders [1] [2] [3]));
     mkWorkerEntry (replicate 37 0 ++ [9]) 0 None]
    [mkTableRoster 1 [lit "blocks"; lit "logs"]].

Lemma wire_worker_typed : WorkerAssignment_typed wire_worker.
Proof. typed. Defined.

Lemma demo_legacy_typed : Assignment_typed demo_legacy.
Proof. typed. Defined.

(** ** Witnesses *)

Lemma chunk_create_requires_witness : fst (Chunk_create ChunkArgs_default fbb_new) = Panic.
Proof. apply (chunk_create_requires ChunkArgs_default fbb_new new_closed). by left. Defined.

Lemma wire_roundtrip_witness :
  exists buf,
    finish_with write_WorkerAssignment finish_worker_assignment_buffer wire_worker = Ok buf
    /\ root_with root_as_worker_assignment_with_opts read_WorkerAssignment buf = Some (Ok wire_worker).
Proof.
  destruct (proj1 wire_roundtrip wire_worker wire_worker_typed) as (buf & Hb & Hr).
  exists buf. split; [exact Hb | exact (Hr I)].
Defined.

(** The buffer of the assignment above. *)
Definition wire_buf : list Z :=
  ok_bytes (finish_with write_WorkerAssignment finish_worker_assignment_buffer wire_worker).

Lemma wire_buf_root :
  root_with root_as_worker_assignment_with_opts read_WorkerAssignment wire_buf = Some (Ok wire_worker).
Proof.
  destruct (finish_root _ _ _ _ wire_worker write_WorkerAssignment_writer wire_worker_typed) as (buf & Hb & Hr).
  assert (wire_buf = buf) as ->; [| exact (Hr I)].
  exact (f_equal ok_bytes Hb).
Qed.

Lemma verified_reads_are_safe_witness :
  root_with root_as_worker_assignment_with_opts read_WorkerAssignment wire_buf = Some (Ok wire_worker)
  /\ exists t, Ok wire_worker = Ok (E := Ub) t /\ WorkerAssignment_typed t.
Proof.
  split; [exact wire_buf_root |].
  exact (proj1 (verified_reads_are_safe wire_buf) (Ok wire_worker) wire_buf_root).
Defined.

(** ** The builder, called *)

Definition call_id : DataChunk := mkDataChunk 0 0 99 (pad_hash (as_bytes (lit "9QgFD"))).

Definition peer_a : PeerId := "a"%char.

Definition call_schema : WorkerAssignmentBuilder :=
  snd (register_write_schema 1 [lit "blocks"; lit "logs"] (new_with_rng (lit "secret") tt)).

Definition call_chunk : WorkerAssignmentChunkBuilder :=
  cb_set_write_schema_id 1 (cb_set_size 10 (cb_set_block_range (0, 99) (cb_set_id call_id
    (cb_set_worker_indexes [0; 2] (new_chunk call_schema))))).

Definition call_staged : WorkerAssignmentBuilder := snd (cb_finish call_chunk).
Definition call_done : WorkerAssignmentBuilder :=
  snd (dataset_finish (new_dataset (lit "eth") (lit "s3://eth") call_staged)).
Definition call_worker : WorkerAssignmentBuilder :=
  snd (add_worker_with_timestamp peer_a Unreliable 17 call_done).

Lemma call_id_wf : DataChunk_wf call_id.
Proof. split_and!; unfold u64; cbn -[Z.pow]; try lia. by exists (lit "9QgFD"). Qed.

Lemma call_chunk_typed : cb_args_typed call_chunk.
Proof. split; cbn; try lia. intros id [= <-]. exact call_id_wf. Qed.

Lemma call_finish_ok : fst (cb_finish call_chunk) = Ok tt.
Proof. vm_compute. reflexivity. Qed.

Lemma call_done_ok : fst (dataset_finish (new_dataset (lit "eth") (lit "s3://eth") call_staged)) = Ok tt.
Proof. vm_compute. reflexivity. Qed.

Lemma call_called : called call_worker Sound.
Proof.
  exists (lit "secret"), tt.
  eapply rtc_l; [eapply (wcall_schema _ _ 1); [cbn; lia | exact (surjective_pairing _)] |].
  eapply rtc_l; [apply (wcall_new_chunk _ _ [0; 2] []); typed |].
  eapply rtc_l; [eapply (wcall_chunk call_chunk); [exact call_chunk_typed | exact (pair_Ok _ _ call_finish_ok)] |].
  eapply rtc_l; [eapply (wcall_finish _ _ (lit "eth") (lit "s3://eth")); exact (pair_Ok _ _ call_done_ok) |].
  apply rtc_once. eapply (wcall_worker _ _ peer_a Unreliable 17). exact (surjective_pairing _).
Qed.

(** A dataset that runs out of worker references at its second chunk and is finished
    all the same. *)
Definition next_id : DataChunk := mkDataChunk 0 100 199 (pad_hash (as_bytes (lit "8Xz3k"))).

Definition full_chunk (workers : list Z) : WorkerAssignmentChunkBuilder :=
  cb_set_write_schema_id 1 (cb_set_size 10 (cb_set_block_range (100, 199) (cb_set_id next_id
    (cb_set_worker_indexes workers (new_chunk call_staged))))).

Lemma full_chunk_typed workers : cb_args_typed (full_chunk workers).
Proof.
  split; cbn; try lia. intros id [= <-]. split_and!; unfold u64; cbn -[Z.pow]; try lia. by exists (lit "8Xz3k").
Qed.

Lemma append_chunk_full chunk (b : WorkerAssignmentBuilder) span :
  Z.of_nat (length (wc_first_blocks (wb_columns b))) < 2 ^ 32 ->
  sub_u64 (E := BuildError) (snd (pc_block_range chunk)) (fst (pc_block_range chunk)) = Ok span -> span < 2 ^ 32 ->
  2 ^ 32 <= Z.of_nat (length (wb_staged_worker_indexes b)) ->
  append_chunk chunk b = (Err TooManyWorkerRefs, set_columns b
    (push_row (wb_columns b) (Z.of_nat (length (wc_first_blocks (wb_columns b)))) span chunk
       (wb_staged_tables_present b) (wb_staged_worker_indexes b))).
Proof.
  intros Hn Hs Hspan Hw. unfold append_chunk, cbind, clift, cget, cmodify.
  unfold try_u32 at 1. rewrite (proj2 (Z.ltb_lt _ _) Hn), Hs.
  unfold try_u32 at 1. rewrite (proj2 (Z.ltb_lt _ _) Hspan).
  unfold try_u32 at 1. rewrite (proj2 (Z.ltb_ge _ _)); [done |]. cbn. rewrite length_app. lia.
Qed.

Lemma full_chunk_refused workers : 2 ^ 32 <= Z.of_nat (length workers) ->
  fst (cb_finish (full_chunk workers)) = Err TooManyWorkerRefs
  /\ fst (dataset_finish (new_dataset (lit "eth") (lit "s3://eth") (snd (cb_finish (full_chunk workers))))) = Ok tt.
Proof.
  intros Hw. set (chunk := mkPushChunk 0 (100, 199) (pad_hash (as_bytes (lit "8Xz3k"))) 10 1 0).
  assert (cb_finish (full_chunk workers) = (append_chunk chunk ;;; clift (Ok tt))%rust (cb_p (full_chunk workers))) as ->
    by reflexivity.
  unfold cbind. rewrite (append_chunk_full chunk _ 99); [split; reflexivity | | done | done | done].
  by vm_compute.
Qed.

Lemma full_called workers : Forall (scalar_ok U16) workers -> 2 ^ 32 <= Z.of_nat (length workers) ->
  exists b, called b SpoiltEmitted.
Proof.
  intros Ht Hw. destruct (full_chunk_refused workers Hw) as [Hc Hf]. eexists _, (lit "secret"), tt.
  eapply rtc_l; [eapply (wcall_schema _ _ 1); [cbn; lia | exact (surjective_pairing _)] |].
  eapply rtc_l; [apply (wcall_new_chunk _ _ [0; 2] []); typed |].
  eapply rtc_l; [eapply (wcall_chunk call_chunk); [exact call_chunk_typed | exact (pair_Ok _ _ call_finish_ok)] |].
  eapply rtc_l; [apply (wcall_new_chunk _ _ workers []); [exact Ht | typed] |].
  eapply rtc_l; [eapply (wcall_chunk (full_chunk workers) _ (Err TooManyWorkerRefs)); [apply full_chunk_typed |];
    rewrite <- Hc; apply surjective_pairing |].
  apply rtc_once. exact (wcall_finish _ SpoiltOpen (lit "eth") (lit "s3://eth") _ (pair_Ok _ _ Hf)).
Qed.

Lemma spoilt_called : exists b, called b SpoiltEmitted.
Proof.
  apply (full_called (replicate (Z.to_nat (2 ^ 32)) 0)).
  - apply Forall_replicate. cbn. lia.
  - rewrite length_replicate, Z2Nat.id by lia. done.
Qed.

Lemma builders_over_the_wire_witness :
  length (wa_datasets (assignment_of call_worker)) = 1%nat
  /\ worker_from_owned (finish call_worker) = Ok (assignment_of call_worker)
  /\ exists b e, called b SpoiltEmitted /\ worker_from_owned (finish b) = Err e.
Proof.
  split; [vm_compute; reflexivity |].
  split; [exact (proj1 builders_over_the_wire call_worker Sound call_called I) |].
  destruct spoilt_called as [b Hb].
  assert (exists e, worker_from_owned (finish b) = Err e) as [e He]
    by exact (proj1 builders_over_the_wire b SpoiltEmitted Hb I).
  by exists b, e.
Defined.

(** ** The converter *)

Definition legacy_buf : list Z := fb_finish demo_legacy.

Lemma legacy_buf_read : legacy_from_owned legacy_buf = Ok demo_legacy.
Proof.
  unfold legacy_from_owned, legacy_buf. rewrite fb_root_finish; [done |].
  split; [exact demo_legacy_typed | exact I].
Qed.

Lemma wire_build_worker : exists buf, build_worker (tt : Rng) demo_legacy = Ok buf.
Proof. apply build_worker_intro. vm_compute. reflexivity. Qed.

Lemma wire_build_portal : exists buf an, build_portal demo_legacy = Ok (buf, an).
Proof.
  destruct (build_portal_intro demo_legacy) as [buf Hb]; [vm_compute; reflexivity .. |].
  exists buf. eexists. exact Hb.
Qed.

Lemma wire_consistent : source_consistent demo_legacy.
Proof.
  split.
  - repeat constructor; try (intros ? [= <-]); try (intros ?? [= <-] [= <-]); try reflexivity.
  - repeat constructor.
Qed.

Lemma conversion_over_the_wire_witness :
  exists wbuf pbuf an,
    build_worker (tt : Rng) demo_legacy = Ok wbuf /\ build_portal demo_legacy = Ok (pbuf, an)
    /\ exists worker portal,
    worker_from_owned wbuf = Ok worker /\ portal_from_owned pbuf = Ok portal
    /\ verify demo_legacy worker portal = Ok tt.
Proof.
  destruct wire_build_worker as [wbuf Hw], wire_build_portal as (pbuf & an & Hp).
  exists wbuf, pbuf, an. split; [exact Hw |]. split; [exact Hp |].
  exact (conversion_over_the_wire tt legacy_buf demo_legacy wbuf pbuf an legacy_buf_read Hw Hp
           wire_consistent (conj I I)).
Defined.
