(* ===== verification/Ranges.v ===== *)
(** * Block ranges (crates/messages/src/range.rs, data_chunk.rs)

    [RangeSet::extend] sorts the ranges and merges them in place; the loop is
    modelled on the vector it mutates.  [p.end + 1] is a machine addition. *)

From S2P Require Import Prelude RustStd DataChunk Instances.
From Stdlib Require Import ZArith Lia Ascii String.
From stdpp Require Import base sets strings gmap sorting numbers list.

Open Scope Z_scope.

Record Range := mkRange { begin : Z; end_ : Z }.

Definition Range_new {E} (b e : Z) : res E Range :=
  assert (b <=? e);; Ok (mkRange b e).

(** [RangeSet] is a vector of ranges. *)
Abbreviation RangeSet := (list Range).

(** The derived order: by [begin], then by [end]. *)
Definition range_le (p q : Range) : Prop :=
  begin p < begin q \/ (begin p = begin q /\ end_ p <= end_ q).

#[global] Instance range_le_dec : RelDecision range_le.
Proof. intros p q. unfold range_le. apply _. Defined.

Definition containing_range (s : RangeSet) (point : Z) : option nat :=
  slice_binary_search_by (fun i =>
    if point <? begin i then Gt
    else if end_ i <? point then Lt
    else Eq) s.

Definition has (s : RangeSet) (point : Z) : bool :=
  match containing_range s point with Some _ => true | None => false end.

Definition find_containing_range (s : RangeSet) (point : Z) : option Range :=
  match containing_range s point with Some i => s !! i | None => None end.

Definition includes (s : RangeSet) (range : Range) : bool :=
  match find_containing_range s (begin range) with
  | Some c => end_ range <=? end_ c
  | None => false
  end.

(** [From<DataChunk> for Range]. *)
Definition Range_from_chunk {E} (chunk : DataChunk) : res E Range :=
  Range_new (dc_first_block chunk) (dc_last_block chunk).

Section extend.
Context `{BuildProfile}.

(** [for i in 1..len], on the vector and [pi]. *)
Fixpoint extend_loop {E} (idx : list nat) (ranges : list Range) (pi : nat)
    : res E (list Range * nat) :=
  match idx with
  | [] => Ok (ranges, pi)
  | i :: idx =>
    c ← expect (ranges !! i);
    p ← expect (ranges !! pi);
    next ← add_u64 (end_ p) 1;
    if next <? begin c then extend_loop idx (<[(pi + 1)%nat := c]> ranges) (pi + 1)
    else
      r ← Range_new (begin p) (Z.max (end_ c) (end_ p));
      extend_loop idx (<[pi := r]> ranges) pi
  end.

Definition extend {E} (s : RangeSet) (iter : list Range) : res E RangeSet :=
  let ranges := merge_sort range_le (s ++ iter) in
  '(ranges, pi) ← extend_loop (seq 1 (length ranges - 1)) ranges 0;
  Ok (take (pi + 1) ranges).

Definition RangeSet_from {E} (iter : list Range) : res E RangeSet := extend [] iter.
End extend.

(** ** Specification *)

Definition member (s : RangeSet) (point : Z) : Prop :=
  exists r, r ∈ s /\ begin r <= point <= end_ r.

(** A range of [u64]s that [Range::new] lets pass. *)
Definition range_valid (r : Range) : Prop := 0 <= begin r <= end_ r /\ end_ r <= u64_max.

(** Every range but the last ends below [u64::MAX]. *)
Fixpoint below (l : list Range) : Prop :=
  match l with
  | [] => True
  | r :: rest => match rest with [] => True | _ => end_ r < u64_max /\ below rest end
  end.

(** No range that ends at [u64::MAX] has another one at or behind it in the order
    of the sort. *)
Definition max_is_last (l : list Range) : Prop :=
  forall x y rest, l ≡ₚ x :: y :: rest -> range_le x y -> end_ x < u64_max.

(** Sorted and separated: at least one point lies between neighbours. *)
Definition normal (s : RangeSet) : Prop :=
  Forall (fun r => begin r <= end_ r) s
  /\ forall i j r r', (i < j)%nat -> s !! i = Some r -> s !! j = Some r' -> end_ r + 1 < begin r'.

(** The merge, on lists: [acc] is finished, [p] is the range being grown. *)
Fixpoint merge (acc : list Range) (p : Range) (rest : list Range) : list Range :=
  match rest with
  | [] => acc ++ [p]
  | c :: rest =>
    if end_ p + 1 <? begin c then merge (acc ++ [p]) c rest
    else merge acc (mkRange (begin p) (Z.max (end_ c) (end_ p))) rest
  end.

(** ** Lookups in a normal set *)

Definition range_cmp (point : Z) (i : Range) : comparison :=
  if point <? begin i then Gt else if end_ i <? point then Lt else Eq.

Lemma range_cmp_Eq point r : range_cmp point r = Eq <-> begin r <= point <= end_ r.
Proof.
  unfold range_cmp. destruct (point <? begin r) eqn:E1; zbool; [split; [done | lia] |].
  destruct (end_ r <? point) eqn:E2; zbool; [split; [done | lia] |]. split; [lia | done].
Qed.

Lemma normal_cmp_sorted s point : normal s -> cmp_sorted (range_cmp point) s.
Proof.
  intros [Hv Hs] i j x y Hij Hx Hy. specialize (Hs i j x y Hij Hx Hy).
  rewrite Forall_lookup in Hv. pose proof (Hv i x Hx). pose proof (Hv j y Hy).
  unfold range_cmp. split.
  - destruct (point <? begin x) eqn:E1; zbool; [| by case_match].
    intros _. by rewrite (proj2 (Z.ltb_lt _ _)) by lia.
  - destruct (point <? begin y) eqn:E1; zbool; [done |].
    destruct (end_ y <? point) eqn:E2; zbool; [| done]. intros _.
    rewrite (proj2 (Z.ltb_ge point (begin x))) by lia.
    by rewrite (proj2 (Z.ltb_lt _ _)) by lia.
Qed.

Lemma find_containing_Some s point r :
  find_containing_range s point = Some r -> r ∈ s /\ begin r <= point <= end_ r.
Proof.
  unfold find_containing_range, containing_range.
  destruct (slice_binary_search_by _ s) as [i |] eqn:Hs; [| done]. intros Hi.
  apply slice_binary_search_by_Some in Hs as (x & Hx & He). simplify_eq.
  split; [by eapply list_elem_of_lookup_2 | by apply range_cmp_Eq].
Qed.

Lemma find_containing_None s point :
  normal s -> find_containing_range s point = None -> ~ member s point.
Proof.
  unfold find_containing_range, containing_range. intros Hn.
  destruct (slice_binary_search_by _ s) as [i |] eqn:Hs.
  - intros Hi. apply slice_binary_search_by_Some in Hs as (x & Hx & _). congruence.
  - intros _ (r & Hr & Hp).
    eapply (slice_binary_search_by_None (range_cmp point));
      [by apply normal_cmp_sorted | exact Hs | exact Hr | by apply range_cmp_Eq].
Qed.

Lemma has_find s point : has s point = true <-> is_Some (find_containing_range s point).
Proof.
  unfold has, find_containing_range, containing_range.
  destruct (slice_binary_search_by _ s) as [i |] eqn:Hs.
  - apply slice_binary_search_by_Some in Hs as (x & -> & _). split; [eauto | done].
  - split; [done | by intros []].
Qed.

(** The whole of a range lies in one range of a normal set, if all its points
    lie in the set: the range of its first point reaches to its end. *)
Lemma member_same_range s r lo hi :
  normal s -> r ∈ s -> begin r <= lo <= end_ r ->
  (forall p, lo <= p <= hi -> member s p) -> lo <= hi -> hi <= end_ r.
Proof.
  intros [Hv Hs] Hr Hlo Hall Hle. destruct (decide (hi <= end_ r)) as [? | Hgt]; [done |].
  destruct (Hall (end_ r + 1)) as (r' & Hr' & Hp'); [lia |].
  apply list_elem_of_lookup in Hr as [i Hi]. apply list_elem_of_lookup in Hr' as [j Hj].
  destruct (Nat.lt_trichotomy i j) as [Hlt | [-> | Hlt]].
  - pose proof (Hs i j r r' Hlt Hi Hj). lia.
  - simplify_eq. lia.
  - pose proof (Hs j i r' r Hlt Hj Hi). rewrite Forall_lookup in Hv.
    pose proof (Hv i r Hi). lia.
Qed.

(** ** The merge *)

Section merging.
Context `{BuildProfile}.

(** The merge with the addition of the machine. *)
Fixpoint merge_u64 {E} (acc : list Range) (p : Range) (rest : list Range) : res E (list Range) :=
  match rest with
  | [] => Ok (acc ++ [p])
  | c :: rest =>
    next ← add_u64 (end_ p) 1;
    if next <? begin c then merge_u64 (acc ++ [p]) c rest
    else merge_u64 acc (mkRange (begin p) (Z.max (end_ c) (end_ p))) rest
  end.

(** The in-place loop computes it: what is before [pi] is finished, and what is at
    and after [i] is untouched. *)
Lemma extend_loop_merge {E} rest ranges acc p i :
  Forall range_valid (p :: rest) ->
  take (length acc) ranges = acc -> ranges !! length acc = Some p ->
  drop i ranges = rest -> (length acc < i)%nat -> length ranges = (i + length rest)%nat ->
  ('(ranges', pi') ← extend_loop (E := E) (seq i (length rest)) ranges (length acc);
   Ok (take (pi' + 1) ranges')) = merge_u64 acc p rest.
Proof.
  revert ranges acc p i. induction rest as [| c rest IH]; intros ranges acc p i Hv Ha Hp Hd Hi Hl.
  - cbn. rewrite Nat.add_1_r. rewrite (take_S_r _ _ _ Hp). by rewrite Ha.
  - assert (ranges !! i = Some c) as Hc by (by rewrite <- (Nat.add_0_r i), <- lookup_drop, Hd).
    assert (drop (S i) ranges = rest) as Hd' by (by rewrite (drop_S _ _ _ Hc) in Hd; simplify_eq).
    inv Hv. inv H3. pose proof H2 as Hvp. pose proof H4 as Hvc. cbn [length] in *.
    unfold range_valid, u64_max in Hvp, Hvc.
    cbn [seq extend_loop merge_u64]. rewrite Hc, Hp. cbn [mbind res_bind expect].
    destruct (add_u64 (end_ p) 1) as [next | |]; cbn [mbind res_bind]; [| done..].
    destruct (next <? begin c) eqn:Eb.
    + replace (length acc + 1)%nat with (length (acc ++ [p])) by (rewrite length_app; done).
      apply IH.
      * by constructor.
      * rewrite length_app. cbn [length]. rewrite take_insert_ge by lia.
        by rewrite Nat.add_1_r, (take_S_r _ _ _ Hp), Ha.
      * rewrite list_lookup_insert_eq; [done |]. rewrite length_app. cbn [length]. lia.
      * rewrite drop_insert_lt; [done |]. rewrite length_app. cbn [length]. lia.
      * rewrite length_app. cbn [length]. lia.
      * rewrite length_insert. lia.
    + unfold Range_new. rewrite (proj2 (Z.leb_le _ _)) by lia. cbn [mbind res_bind assert].
      apply IH.
      * constructor; [| done]. unfold range_valid, u64_max. cbn. lia.
      * by rewrite take_insert_ge by lia.
      * rewrite list_lookup_insert_eq; [done | lia].
      * by rewrite drop_insert_lt by lia.
      * lia.
      * rewrite length_insert. lia.
Qed.

(** Without an overflow the two merges agree. *)
Lemma merge_u64_below {E} acc p rest :
  Forall range_valid (p :: rest) -> below (p :: rest) -> merge_u64 (E := E) acc p rest = Ok (merge acc p rest).
Proof.
  revert acc p. induction rest as [| c rest IH]; intros acc p Hv Hb; [done |].
  inv Hv. inv H3. destruct Hb as [Hp Hb].
  pose proof H2 as Hvp. pose proof H4 as Hvc. unfold range_valid, u64_max in Hvp, Hvc, Hp.
  cbn [merge_u64 merge]. rewrite add_u64_ok by lia. cbn [mbind res_bind].
  destruct (end_ p + 1 <? begin c); apply IH; [by constructor | done | |].
  - constructor; [| done]. unfold range_valid, u64_max. cbn. lia.
  - destruct rest as [| d rest]; [done |]. destruct Hb as [Hc Hb]. split; [| exact Hb].
    unfold u64_max in *. cbn. lia.
Qed.

Lemma sorted_cons_le c rest :
  Sorted range_le (c :: rest) -> forall d, d ∈ rest -> begin c <= begin d.
Proof.
  intros Hs d Hd. apply Sorted_StronglySorted in Hs; [| intros x y z; unfold range_le; lia].
  inv Hs. rewrite Forall_forall in H3. specialize (H3 d Hd). unfold range_le in H3. lia.
Qed.

(** Merging a sorted list changes no membership. *)
Lemma merge_member acc p rest point :
  (forall c, c ∈ rest -> begin p <= begin c) -> Sorted range_le rest ->
  member (merge acc p rest) point <->
  member acc point \/ begin p <= point <= end_ p \/ member rest point.
Proof.
  revert acc p. induction rest as [| c rest IH]; intros acc p Hb Hs; cbn [merge].
  - unfold member. split.
    + intros (r & [Hr | Hr]%elem_of_app & Hp); [left; eauto |].
      apply list_elem_of_singleton in Hr as ->. auto.
    + intros [(r & Hr & Hp) | [Hp | (r & Hr & _)]]; [| | by apply elem_of_nil in Hr].
      * exists r. split; [apply elem_of_app; auto | done].
      * exists p. split; [apply elem_of_app; right; by left | done].
  - pose proof (sorted_cons_le c rest Hs) as Hc.
    assert (Sorted range_le rest) as Hs' by (by inv Hs).
    pose proof (Hb c ltac:(by left)) as Hpc.
    assert (member (c :: rest) point <-> begin c <= point <= end_ c \/ member rest point) as ->.
    { unfold member. split.
      - intros (r & [-> | Hr]%elem_of_cons & Hp); eauto.
      - intros [Hp | (r & Hr & Hp)]; [exists c; split; [by left | done] |].
        exists r. split; [by right | done]. }
    destruct (end_ p + 1 <? begin c) eqn:Eb; zbool.
    + rewrite IH by done. unfold member at 1. split.
      * intros [(r & [Hr | Hr]%elem_of_app & Hp) | [Hp | Hp]]; [left; by exists r | | auto | auto].
        apply list_elem_of_singleton in Hr as ->. auto.
      * intros [(r & Hr & Hp) | [Hp | [Hp | Hp]]]; [| | auto | auto].
        -- left. exists r. split; [apply elem_of_app; auto | done].
        -- left. exists p. split; [apply elem_of_app; right; by left | done].
    + rewrite IH; [| intros d Hd; cbn; pose proof (Hc d Hd); lia | done]. cbn. split.
      * intros [Ha | [Hp | Hr]]; [auto | | auto].
        destruct (decide (point <= end_ p)); [right; left; lia |].
        right. right. left. lia.
      * intros [Ha | [Hp | [Hp | Hr]]]; [auto | right; left; lia | right; left; lia | auto].
Qed.

Lemma merge_normal acc p rest :
  normal (acc ++ [p]) -> Forall (fun c => begin c <= end_ c) rest ->
  (forall c, c ∈ rest -> begin p <= begin c) -> Sorted range_le rest -> normal (merge acc p rest).
Proof.
  revert acc p. induction rest as [| c rest IH]; intros acc p Hn Hv Hb Hs; cbn [merge]; [done |].
  pose proof (sorted_cons_le c rest Hs) as Hc.
  inv Hv. assert (Sorted range_le rest) by (by inv Hs).
  pose proof (Hb c ltac:(by left)) as Hpc. destruct Hn as [Hnv Hns].
  destruct (end_ p + 1 <? begin c) eqn:Eb; zbool.
  - apply IH; [| done..]. split.
    + apply Forall_app. split; [done | by repeat constructor].
    + intros i j r r' Hij Hi Hj.
      apply lookup_snoc_Some in Hj as [[? Hj] | [-> <-]].
      * rewrite lookup_app_l in Hi by lia. eauto.
      * rewrite lookup_app_l in Hi by lia.
        apply lookup_snoc_Some in Hi as [[Hlt Hi] | [-> <-]]; [| lia].
        assert (end_ r + 1 < begin p) as Hrp.
        { apply (Hns i (length acc)); [lia | by apply lookup_app_l_Some |].
          by rewrite lookup_app_r, Nat.sub_diag by lia. }
        apply Forall_app in Hnv as [_ Hnv]. inv Hnv. lia.
  - apply IH; [| done | cbn; intros d Hd; pose proof (Hc d Hd); lia | done]. split.
    + apply Forall_app in Hnv as [Hacc Hp]. apply Forall_app. split; [done |].
      repeat constructor. cbn. inv Hp. lia.
    + intros i j r r' Hij Hi Hj.
      apply lookup_snoc_Some in Hj as [[? Hj] | [-> <-]].
      * rewrite lookup_app_l in Hi by lia.
        apply (Hns i j); [done | by apply lookup_app_l_Some | by apply lookup_app_l_Some].
      * rewrite lookup_app_l in Hi by lia. cbn.
        apply (Hns i (length acc)); [lia | by apply lookup_app_l_Some |].
        by rewrite lookup_app_r, Nat.sub_diag by lia.
Qed.
End merging.

(** ** Properties *)

Section properties.
Context `{BuildProfile}.

Lemma extend_merge {E} s iter p rest :
  Forall range_valid (s ++ iter) -> merge_sort range_le (s ++ iter) = p :: rest ->
  extend (E := E) s iter = merge_u64 [] p rest.
Proof.
  intros Hv Hs. unfold extend. cbv zeta. rewrite Hs. cbn [length]. rewrite Nat.sub_succ, Nat.sub_0_r.
  apply (extend_loop_merge rest (p :: rest) [] p 1); try done; [| cbn; lia].
  rewrite <- Hs, merge_sort_Permutation. exact Hv.
Qed.

Lemma sort_strong (l : list Range) : StronglySorted range_le (merge_sort range_le l).
Proof.
  apply Sorted_StronglySorted; [intros x y z; unfold range_le; lia |].
  apply Sorted_merge_sort. intros x y. unfold range_le. lia.
Qed.

Lemma below_sorted l : StronglySorted range_le l -> max_is_last l -> below l.
Proof.
  induction l as [| x [| y l] IH]; intros Hs Hm; [done | done |].
  apply StronglySorted_inv in Hs as [Hs Hall]. apply Forall_cons in Hall as [Hxy _]. split.
  - by apply (Hm x y l).
  - apply IH; [done |]. intros a b rest Hp Hab. apply (Hm a b (x :: rest)); [| done].
    rewrite Hp. apply (Permutation_middle [a; b] rest x).
Qed.

(** C13: Extending a set with any [u64] ranges, in any order and overlapping at
    will, gives a sorted set of separated ranges that holds exactly the points of
    the old set and of the new ranges, unless a range that ends at [u64::MAX] is
    followed by another one in the order of the sort; what happens then is
    [extend_overflows_at_max]. *)
Theorem extend_correct (s : RangeSet) (iter : list Range)
    (Hv : Forall range_valid (s ++ iter)) (Hm : max_is_last (s ++ iter)) :
  exists s', extend (E := Empty_set) s iter = Ok s' /\ normal s'
  /\ forall point, member s' point <-> member s point \/ member iter point.
Proof.
  pose proof (merge_sort_Permutation range_le (s ++ iter)) as Hperm.
  pose proof (sort_strong (s ++ iter)) as Hstrong.
  assert (forall point, member (merge_sort range_le (s ++ iter)) point
            <-> member s point \/ member iter point) as Hmem.
  { intros point. unfold member. setoid_rewrite Hperm. setoid_rewrite elem_of_app. naive_solver. }
  destruct (merge_sort range_le (s ++ iter)) as [| p rest] eqn:Hsort.
  - exists []. unfold extend. cbv zeta. rewrite Hsort. split; [done |]. split; [| done].
    split; [constructor |]. intros i j r r' _ Hl. done.
  - rewrite (extend_merge s iter p rest Hv Hsort), merge_u64_below.
    2: by rewrite Hperm.
    2: { apply below_sorted; [done |]. intros x y l Hp Hxy. apply (Hm x y l); [by rewrite <- Hperm | done]. }
    exists (merge [] p rest). split; [done |].
    assert (Sorted range_le (p :: rest)) as Hs by (by apply StronglySorted_Sorted).
    pose proof (sorted_cons_le p rest Hs) as Hle. assert (Sorted range_le rest) by (by inv Hs).
    assert (Forall range_valid (p :: rest)) as Hval by (by rewrite Hperm).
    split.
    + inv Hval. apply merge_normal; [| | done | done].
      * split; [repeat constructor; unfold range_valid in *; cbn; lia |].
        intros [| i] [| j] r r' Hij Hr Hr'; try lia; done.
      * eapply Forall_impl; [eassumption |]. unfold range_valid. lia.
    + intros point. rewrite <- Hmem, merge_member by done. unfold member. split.
      * intros [(r & Hr & _) | [Hp | (r & Hr & Hp)]]; [by apply elem_of_nil in Hr | |].
        -- exists p. split; [by left | done].
        -- exists r. split; [by right | done].
      * intros (r & [-> | Hr]%elem_of_cons & Hp); [auto |]. right. right. eauto.
Qed.

(** On a sorted, separated set, [has] decides membership, and [includes]
    holds exactly when every point of the range is in the set - one range of the
    set then holds them all. *)
Theorem has_includes_correct (s : RangeSet) (Hs : normal s) :
  (forall point, has s point = true <-> member s point)
  /\ forall r, begin r <= end_ r ->
     (includes s r = true <-> forall point, begin r <= point <= end_ r -> member s point).
Proof.
  split.
  - intros point. rewrite has_find. split.
    + intros [r Hr]. apply find_containing_Some in Hr as [Hr Hp]. by exists r.
    + intros Hm. destruct (find_containing_range s point) eqn:Hf; [eauto |].
      by apply find_containing_None in Hf.
  - intros r Hle. unfold includes. split.
    + destruct (find_containing_range s (begin r)) as [c |] eqn:Hf; [| done]. intros He. zbool.
      apply find_containing_Some in Hf as [Hc Hp]. intros point Hpt. exists c. split; [done | lia].
    + intros Hall. destruct (find_containing_range s (begin r)) as [c |] eqn:Hf.
      * apply find_containing_Some in Hf as [Hc Hp]. apply Z.leb_le.
        by eapply (member_same_range s c (begin r) (end_ r)).
      * apply find_containing_None in Hf; [| done]. exfalso. apply Hf, Hall. lia.
Qed.

Lemma has_includes_correct_witness :
  (forall point, has [mkRange 5 30; mkRange 35 40] point = true
     <-> member [mkRange 5 30; mkRange 35 40] point)
  /\ forall r, begin r <= end_ r ->
     (includes [mkRange 5 30; mkRange 35 40] r = true
      <-> forall point, begin r <= point <= end_ r -> member [mkRange 5 30; mkRange 35 40] point).
Proof.
  apply (has_includes_correct [mkRange 5 30; mkRange 35 40]). split.
  - repeat constructor; cbn; lia.
  - intros [| [| i]] [| [| j]] r r'; cbn; intros; simplify_eq; cbn; lia.
Defined.
End properties.

Lemma extend_correct_witness :
  exists s', extend (E := Empty_set) (H := debug_profile) [mkRange 10 20]
               [mkRange 35 u64_max; mkRange 5 10; mkRange 21 30] = Ok s'
  /\ normal s' /\ forall point, member s' point <->
       member [mkRange 10 20] point \/ member [mkRange 35 u64_max; mkRange 5 10; mkRange 21 30] point.
Proof.
  apply (@extend_correct debug_profile [mkRange 10 20] [mkRange 35 u64_max; mkRange 5 10; mkRange 21 30]).
  - repeat constructor; cbn; unfold u64_max; lia.
  - intros x y rest Hp Hxy.
    assert (x ∈ [mkRange 10 20; mkRange 35 u64_max; mkRange 5 10; mkRange 21 30]) as Hx
      by (change (x ∈ [mkRange 10 20] ++ [mkRange 35 u64_max; mkRange 5 10; mkRange 21 30]); rewrite Hp; by left).
    assert (y :: rest ≡ₚ [mkRange 10 20; mkRange 5 10; mkRange 21 30] \/ end_ x < u64_max) as [Hr | ?]; [| | done].
    { rewrite !elem_of_cons in Hx. destruct Hx as [-> | [-> | [-> | [-> | []%elem_of_nil]]]];
        [right; unfold u64_max; cbn; lia | left | right; unfold u64_max; cbn; lia ..].
      apply (Permutation_cons_inv (a := mkRange 35 u64_max)). rewrite <- Hp. cbn. apply perm_swap. }
    assert (y ∈ [mkRange 10 20; mkRange 5 10; mkRange 21 30]) as Hy by (rewrite <- Hr; by left).
    unfold range_le in Hxy. rewrite !elem_of_cons in Hx. rewrite !elem_of_cons in Hy.
    destruct Hx as [-> | [-> | [-> | [-> | []%elem_of_nil]]]];
      destruct Hy as [-> | [-> | [-> | []%elem_of_nil]]]; cbn in *; unfold u64_max in *; lia.
Defined.

(** ** At [u64::MAX] *)

Section overflow.
Context `{BuildProfile}.

(** A range that ends at [u64::MAX] is merged before one for which [K] holds. *)
Definition max_before (K : Range -> Prop) (p : Range) (rest : list Range) : Prop :=
  exists pre x post y, p :: rest = pre ++ x :: post /\ end_ x = u64_max /\ y ∈ post /\ K y.

Lemma max_before_tail K p p' c rest :
  end_ p' = Z.max (end_ c) (end_ p) \/ p' = c -> range_valid c -> end_ p < u64_max ->
  max_before K p (c :: rest) -> max_before K p' rest.
Proof.
  intros Hp' Hc Hp (pre & x & post & y & Hl & Hx & Hy & HK).
  destruct pre as [| a pre]; injection Hl as -> Hl; [lia |].
  destruct pre as [| b pre]; injection Hl as -> ->.
  - exists [], p', post, y. split_and!; [done | | done | done]. destruct Hp' as [-> | ->]; [lia | done].
  - exists (p' :: pre), x, post, y. done.
Qed.

Lemma merge_u64_panics {E} K acc p rest :
  overflow_checks = true -> Forall range_valid (p :: rest) -> max_before K p rest ->
  merge_u64 (E := E) acc p rest = Panic.
Proof.
  intros Hc. revert acc p. induction rest as [| c rest IH]; intros acc p Hv Hb.
  - destruct Hb as (pre & x & post & y & Hl & _ & Hy & _).
    destruct pre as [| a pre]; injection Hl as -> Hl; [subst; by apply elem_of_nil in Hy |].
    by destruct pre.
  - apply Forall_cons in Hv as [Hvp Hv]. pose proof Hv as [Hvc Hv']%Forall_cons.
    unfold range_valid in Hvp, Hvc.
    cbn [merge_u64]. unfold add_u64. destruct (decide (end_ p = u64_max)) as [-> | Hne].
    { unfold u64_max. by rewrite Hc. }
    rewrite (proj2 (Z.ltb_lt _ _)) by (unfold u64_max in *; lia). cbn [mbind res_bind].
    case_match; apply IH; try by constructor.
    + eapply (max_before_tail K p); [by right | done | lia | done].
    + constructor; [| done]. unfold range_valid. cbn. lia.
    + eapply (max_before_tail K p _ c); [by left | done | lia | done].
Qed.

(** Merging keeps what is finished and adds to it. *)
Lemma merge_u64_extends {E} acc p rest s' :
  Forall range_valid (p :: rest) -> merge_u64 (E := E) acc p rest = Ok s' ->
  exists q suf, s' = acc ++ q :: suf /\ begin q <= u64_max.
Proof.
  revert acc p. induction rest as [| c rest IH]; intros acc p Hv Hm; cbn in Hm.
  - injection Hm as <-. exists p, []. split; [done |]. inv Hv. unfold range_valid in *. lia.
  - apply Forall_cons in Hv as [Hvp Hv]. pose proof Hv as [Hvc Hv']%Forall_cons.
    unfold range_valid in Hvp, Hvc. destruct (add_u64 _ _) as [next | |]; cbn in Hm; [| done..]. case_match.
    + apply IH in Hm as (q & suf & -> & _); [| done]. rewrite <- app_assoc. cbn.
      exists p, (q :: suf). split; [done | lia].
    + apply IH in Hm; [done |]. constructor; [| done]. unfold range_valid. cbn. lia.
Qed.

Lemma merge_u64_total {E} acc p rest :
  overflow_checks = false -> Forall range_valid (p :: rest) -> exists s', merge_u64 (E := E) acc p rest = Ok s'.
Proof.
  intros Hc. revert acc p. induction rest as [| c rest IH]; intros acc p Hv; cbn; [by eexists |].
  apply Forall_cons in Hv as [Hvp Hv]. pose proof Hv as [Hvc Hv']%Forall_cons.
  unfold add_u64. rewrite Hc.
  assert (forall next, exists s', (if next <? begin c then merge_u64 (E := E) (acc ++ [p]) c rest
    else merge_u64 acc (mkRange (begin p) (Z.max (end_ c) (end_ p))) rest) = Ok s') as Hn.
  { intros next. case_match; apply IH; [done |]. constructor; [| done].
    unfold range_valid in *. cbn. lia. }
  case_match; apply Hn.
Qed.

Lemma merge_u64_wraps {E} acc p rest s' :
  overflow_checks = false -> Forall range_valid (p :: rest) -> max_before (fun y => 0 < begin y) p rest ->
  merge_u64 (E := E) acc p rest = Ok s' -> ~ normal s'.
Proof.
  intros Hc. revert acc p. induction rest as [| c rest IH]; intros acc p Hv Hb Hm.
  - destruct Hb as (pre & x & post & y & Hl & _ & Hy & _).
    destruct pre as [| a pre]; injection Hl as -> Hl; [subst; by apply elem_of_nil in Hy |].
    by destruct pre.
  - apply Forall_cons in Hv as [Hvp Hv]. pose proof Hv as [Hvc Hv']%Forall_cons.
    unfold range_valid in Hvp, Hvc.
    cbn [merge_u64] in Hm. unfold add_u64 in Hm. destruct (decide (end_ p = u64_max)) as [Hmax | Hne].
    + rewrite Hmax, Hc in Hm. change (u64_max + 1 <? 2 ^ 64) with false in Hm.
      change ((u64_max + 1) mod 2 ^ 64) with 0 in Hm. cbn [mbind res_bind] in Hm.
      destruct (0 <? begin c) eqn:E0; zbool.
      * apply merge_u64_extends in Hm as (q & suf & -> & Hq); [| by constructor]. intros [_ Hn].
        rewrite <- app_assoc in Hn. cbn in Hn.
        specialize (Hn (length acc) (S (length acc)) p q). rewrite Hmax in Hn.
        assert (u64_max + 1 < begin q); [| lia]. apply Hn; [lia | |].
        -- by rewrite lookup_app_r, Nat.sub_diag by lia.
        -- rewrite lookup_app_r by lia. by replace (S (length acc) - length acc)%nat with 1%nat by lia.
      * apply IH in Hm; [done | constructor; [unfold range_valid; cbn; lia | done] |].
        assert (exists y, y ∈ rest /\ 0 < begin y) as (y & Hy & Hpos).
        { destruct Hb as (pre & x & post & y & Hl & _ & Hy & Hpos). exists y. split; [| done].
          assert (y ∈ c :: rest) as [-> | ?]%elem_of_cons; [| lia | done].
          destruct pre as [| a pre]; injection Hl as -> Hl; [by subst |]. rewrite Hl. set_solver. }
        eexists [], _, rest, y. split_and!; [reflexivity | cbn; lia | done | done].
    + rewrite (proj2 (Z.ltb_lt _ _)) in Hm by (unfold u64_max in *; lia). cbn [mbind res_bind] in Hm.
      case_match; apply IH in Hm; try done; try by constructor.
      * eapply (max_before_tail _ p); [by right | done | lia | done].
      * constructor; [| done]. unfold range_valid. cbn. lia.
      * eapply (max_before_tail _ p _ c); [by left | done | lia | done].
Qed.

Lemma range_le_antisym x y : range_le x y -> range_le y x -> x = y.
Proof. destruct x, y. unfold range_le. cbn. intros. f_equal; lia. Qed.

Lemma sorted_after a y b : StronglySorted range_le (a ++ y :: b) -> forall z, z ∈ b -> range_le y z.
Proof.
  induction a as [| c a IH]; cbn; intros Hs z Hz; inv Hs; [| by eapply IH].
  by eapply Forall_forall in Hz.
Qed.

Lemma sorted_max_before (K : Range -> Prop) l x y rest p tl :
  merge_sort range_le l = p :: tl -> l ≡ₚ x :: y :: rest -> range_le x y -> end_ x = u64_max -> K y ->
  max_before K p tl.
Proof.
  intros Hs Hp Hxy Hx Hy. pose proof (sort_strong l) as Hstrong.
  pose proof (merge_sort_Permutation range_le l) as Hperm. rewrite Hs in Hperm, Hstrong. rewrite Hp in Hperm.
  assert (x ∈ p :: tl) as Hin by (rewrite Hperm; by left).
  apply list_elem_of_split in Hin as (l1 & l2 & E). rewrite E in Hperm, Hstrong.
  assert (l1 ++ l2 ≡ₚ y :: rest) as Hp2.
  { apply (Permutation_cons_inv (a := x)). by rewrite Permutation_middle. }
  assert (y ∈ l1 ++ l2) as [Hy1 | Hy2]%elem_of_app by (rewrite Hp2; by left).
  - apply list_elem_of_split in Hy1 as (a & b & ->).
    assert (y = x) as ->.
    { apply range_le_antisym; [| done]. rewrite <- app_assoc in Hstrong. cbn in Hstrong.
      by apply (sorted_after a y (b ++ x :: l2)); [| set_solver]. }
    exists a, x, (b ++ x :: l2), x. rewrite <- app_assoc in E. split_and!; [done | done | set_solver | done].
  - by exists l1, x, l2, y.
Qed.

(** C40: At [u64::MAX] the merge adds one to the end of a range and overflows.
    Whenever a range of the set or of the new ranges ends at [u64::MAX] and another
    one comes at or after it in the order of the sort, a build with overflow checks
    panics; a build without them wraps to zero, returns, and unless that other
    range begins at 0 leaves a set that is not sorted and separated, which the
    binary searches rely on. *)
Theorem extend_overflows_at_max (s : RangeSet) (iter : list Range) x y rest
    (Hv : Forall range_valid (s ++ iter)) (Hp : s ++ iter ≡ₚ x :: y :: rest)
    (Hx : end_ x = u64_max) (Hxy : range_le x y) :
  (overflow_checks = true -> extend (E := Empty_set) s iter = Panic)
  /\ (overflow_checks = false -> 0 < begin y ->
      exists s', extend (E := Empty_set) s iter = Ok s' /\ ~ normal s').
Proof.
  pose proof (merge_sort_Permutation range_le (s ++ iter)) as Hperm.
  destruct (merge_sort range_le (s ++ iter)) as [| p tl] eqn:Hs.
  { rewrite <- Hperm in Hp. by apply Permutation_nil_cons in Hp. }
  assert (Forall range_valid (p :: tl)) as Hval by (by rewrite Hperm).
  rewrite (extend_merge s iter p tl Hv Hs). split.
  - intros Hc. apply (merge_u64_panics (fun _ => True)); [done | done |].
    by eapply sorted_max_before.
  - intros Hc Hpos. destruct (merge_u64_total (E := Empty_set) [] p tl Hc Hval) as [s' Hm].
    exists s'. split; [done |]. eapply merge_u64_wraps; [done | done | | exact Hm].
    by eapply (sorted_max_before (fun y => 0 < begin y)).
Qed.
End overflow.

Lemma extend_overflows_at_max_witness :
  extend (E := Empty_set) (H := debug_profile) [mkRange 0 u64_max] [mkRange 5 6] = Panic
  /\ exists s', extend (E := Empty_set) (H := release_profile) [mkRange 0 u64_max] [mkRange 5 6] = Ok s'
       /\ ~ normal s'.
Proof.
  assert (Forall range_valid ([mkRange 0 u64_max] ++ [mkRange 5 6])) as Hv
    by (repeat constructor; cbn; unfold u64_max; lia).
  split.
  - apply (@extend_overflows_at_max debug_profile [mkRange 0 u64_max] [mkRange 5 6]
             (mkRange 0 u64_max) (mkRange 5 6) [] Hv); [done | done | left; cbn; lia | done].
  - apply (@extend_overflows_at_max release_profile [mkRange 0 u64_max] [mkRange 5 6]
             (mkRange 0 u64_max) (mkRange 5 6) [] Hv); [done | done | left; cbn; lia | done | cbn; lia].
Defined.
