(* ===== verification/Signatures.v ===== *)
(** * Signed messages (crates/messages/src/signatures.rs)

    The bytes a query and a query result sign, and their verification.  The
    hash, the signature scheme and the codecs of peer ids are third-party code:
    classes of operations and laws. *)

From S2P Require Import Prelude RustStd DataChunk Search AssignmentFb Instances Ranges.
From Stdlib Require Import ZArith Lia Ascii String.
From stdpp Require Import base sets strings gmap sorting numbers list.

Open Scope Z_scope.

Definition SHA3_256_SIZE : nat := 32.
Definition UUID_V4_SIZE : nat := 36.

Class SignOps `{PeerIdOps} := {
  SignKeypair : Type;
  VerifyKey : Type;
  sha3_256 : list Z -> list Z;
  keypair_sign : SignKeypair -> list Z -> option (list Z);
  key_verify : VerifyKey -> list Z -> list Z -> bool;
  try_decode_protobuf : list Z -> option VerifyKey;
  peer_from_str : str -> option PeerId
}.

(** ** Messages *)

(** [Query] of messages.proto. *)
Record Query := mkQuery {
  q_query_id : str;
  q_dataset : str;
  q_request_id : str;
  q_query : str;
  q_block_range : option Range;
  q_chunk_id : str;
  q_timestamp_ms : Z;
  q_signature : list Z;
  q_compression : Z;
  q_query_engine : Z;      (* i32 *)
  q_output_format : Z;     (* i32 *)
  q_chunk_version : Z
}.

Inductive QueryErr :=
| BadRequest (s : str) | NotFound (s : str) | ServerError (s : str)
| TooManyRequests | ServerOverloaded.

Record QueryOk := mkQueryOk {
  ok_data : list Z; ok_last_block : Z; ok_uncompressed_data_size : option Z }.

(** [QueryError { err: Option<Err> }] is the [option] of the second case. *)
Inductive QueryResultBody :=
| ResultOk (ok : QueryOk)
| ResultErr (err : option QueryErr).

Record QueryResult := mkQueryResult {
  qr_query_id : str;
  qr_result : option QueryResultBody;
  qr_retry_after_ms : option Z;
  qr_signature : list Z
}.

Record QueryOkSummary := mkQueryOkSummary {
  sum_uncompressed_data_size : Z; sum_data_hash : list Z; sum_last_block : Z }.

Inductive QueryFinishedBody :=
| FinishedOk (ok : QueryOkSummary)
| FinishedErr (err : option QueryErr).

Record QueryFinished := mkQueryFinished {
  qf_worker_id : str;
  qf_query_id : str;
  qf_total_time_micros : Z;
  qf_result : option QueryFinishedBody;
  qf_worker_signature : list Z
}.

Record QueryExecuted := mkQueryExecuted { qe_client_id : str; qe_query : option Query }.

(** lib.rs, [From<query_error::Err> for query_result::Result] *)
Definition result_from_err (err : QueryErr) : QueryResultBody := ResultErr (Some err).

(** ** Signing *)

Section signing.
Context `{SignOps}.

(** [msg_hash]; [encode_to_vec] is protobuf's. *)
Definition msg_hash {M : Type} (encode_to_vec : M -> list Z) (msg : M) : list Z := sha3_256 (encode_to_vec msg).

Definition sign (msg : list Z) (keypair : SignKeypair) : res string (list Z) :=
  expect (keypair_sign keypair msg).

(** [&peer_id.to_bytes()[2..]] panics on fewer than two bytes. *)
Definition verify_signature {E} (peer_id : PeerId) (msg signature : list Z) : res E bool :=
  assert (2 <=? length (peer_to_bytes peer_id))%nat;;
  match try_decode_protobuf (drop 2 (peer_to_bytes peer_id)) with
  | Some pubkey => Ok (key_verify pubkey msg signature)
  | None => Ok false
  end.

(** [u32::try_from(len).expect(..)]. *)
Definition len_u32 {E} (n : nat) : res E Z :=
  if Z.of_nat n <? 2 ^ 32 then Ok (Z.of_nat n) else Panic.

(** [u8::try_from(x).ok()] on an [i32]. *)
Definition try_u8 (x : Z) : option Z := if in_range 0 255 x then Some x else None.

(** The bytes after the chunk id. *)
Definition query_tail (q : Query) : option (list Z) :=
  let range_bytes :=
    match q_block_range q with
    | Some range => to_le_bytes 8 (begin range) ++ to_le_bytes 8 (end_ range)
    | None => []
    end in
  if negb (q_query_engine q =? 0) || negb (q_output_format q =? 0) then
    let marker := match q_block_range q with None => [0] | Some _ => [] end in
    engine ← try_u8 (q_query_engine q);
    format ← try_u8 (q_output_format q);
    Some (range_bytes ++ marker ++ [engine; format])
  else Some range_bytes.

Definition query_msg_to_sign {E} (q : Query) (worker_id : PeerId) : res E (option (list Z)) :=
  if negb (length (q_query_id q) =? UUID_V4_SIZE)%nat then Ok None
  else
    dataset_len ← len_u32 (length (q_dataset q));
    query_len ← len_u32 (length (q_query q));
    chunk_id_len ← len_u32 (length (q_chunk_id q));
    Ok (tail ← query_tail q;
        Some (as_bytes (q_query_id q)
              ++ peer_to_bytes worker_id
              ++ to_le_bytes 8 (q_timestamp_ms q)
              ++ to_le_bytes 4 dataset_len ++ as_bytes (q_dataset q)
              ++ to_le_bytes 4 query_len ++ as_bytes (q_query q)
              ++ to_le_bytes 4 chunk_id_len ++ as_bytes (q_chunk_id q)
              ++ tail)).

Definition query_set_signature (q : Query) (signature : list Z) : Query :=
  mkQuery (q_query_id q) (q_dataset q) (q_request_id q) (q_query q) (q_block_range q)
    (q_chunk_id q) (q_timestamp_ms q) signature (q_compression q) (q_query_engine q)
    (q_output_format q) (q_chunk_version q).

Definition query_sign (q : Query) (keypair : SignKeypair) (worker_id : PeerId) : res string Query :=
  m ← query_msg_to_sign q worker_id;
  msg ← ok_or m "couldn't sign invalid Query"%string;
  signature ← sign msg keypair;
  Ok (query_set_signature q signature).

Definition query_verify_signature {E} (q : Query) (signer_id worker_id : PeerId) : res E bool :=
  m ← query_msg_to_sign q worker_id;
  match m with
  | Some msg => verify_signature signer_id msg (q_signature q)
  | None => Ok false
  end.

Definition msg_to_sign_query_ok (query_id : str) (data_hash : list Z) (last_block : Z)
    : option (list Z) :=
  if negb (length data_hash =? SHA3_256_SIZE)%nat then None
  else if negb (length query_id =? UUID_V4_SIZE)%nat then None
  else Some (as_bytes query_id ++ data_hash ++ to_le_bytes 8 last_block).

Definition err_code (err : QueryErr) : Z :=
  match err with
  | BadRequest _ => 1
  | NotFound _ => 2
  | ServerError _ => 3
  | TooManyRequests => 4
  | ServerOverloaded => 5
  end.

Definition msg_to_sign_query_err (query_id : str) (err : QueryErr) : option (list Z) :=
  if negb (length query_id =? UUID_V4_SIZE)%nat then None
  else Some (as_bytes query_id ++ [err_code err]).

Definition result_msg_to_sign (r : QueryResult) : option (list Z) :=
  match qr_result r with
  | Some (ResultOk result) =>
    msg_to_sign_query_ok (qr_query_id r) (sha3_256 (ok_data result)) (ok_last_block result)
  | Some (ResultErr (Some err)) => msg_to_sign_query_err (qr_query_id r) err
  | _ => None
  end.

Definition result_sign (r : QueryResult) (keypair : SignKeypair) : res string QueryResult :=
  msg ← ok_or (result_msg_to_sign r) "couldn't sign invalid QueryResult"%string;
  signature ← sign msg keypair;
  Ok (mkQueryResult (qr_query_id r) (qr_result r) (qr_retry_after_ms r) signature).

Definition result_verify_signature {E} (r : QueryResult) (signer_id : PeerId) : res E bool :=
  match result_msg_to_sign r with
  | Some msg => verify_signature signer_id msg (qr_signature r)
  | None => Ok false
  end.

Definition finished_verify_signature {E} (f : QueryFinished) : res E bool :=
  let msg :=
    match qf_result f with
    | Some (FinishedOk result) =>
      msg_to_sign_query_ok (qf_query_id f) (sum_data_hash result) (sum_last_block result)
    | Some (FinishedErr (Some err)) => msg_to_sign_query_err (qf_query_id f) err
    | _ => None
    end in
  match msg with
  | None => Ok false
  | Some msg =>
    match peer_from_str (qf_worker_id f) with
    | None => Ok false
    | Some worker_id => verify_signature worker_id msg (qf_worker_signature f)
    end
  end.

Definition finished_new (r : QueryResult) (worker_id : str) (total_time_micros : Z) : QueryFinished :=
  mkQueryFinished worker_id (qr_query_id r) total_time_micros
    (match qr_result r with
     | Some (ResultOk ok) => Some (FinishedOk (mkQueryOkSummary (Z.of_nat (length (ok_data ok)))
                                     (sha3_256 (ok_data ok)) (ok_last_block ok)))
     | Some (ResultErr err) => Some (FinishedErr err)
     | None => None
     end)
    (qr_signature r).

Definition executed_verify_client_signature {E} (e : QueryExecuted) (worker_id : PeerId) : res E bool :=
  match qe_query e with
  | None => Ok false
  | Some query =>
    match peer_from_str (qe_client_id e) with
    | None => Ok false
    | Some client_id => query_verify_signature query client_id worker_id
    end
  end.
End signing.

(** ** Laws *)

(** [key_peer] is the peer id of a key pair. *)
Class SignLaws `{SignOps} (key_peer : SignKeypair -> PeerId) := {
  sha3_length l : length (sha3_256 l) = SHA3_256_SIZE;
  sign_verify kp m s key : keypair_sign kp m = Some s ->
    try_decode_protobuf (drop 2 (peer_to_bytes (key_peer kp))) = Some key ->
    key_verify key m s = true;
  sign_total kp m : is_Some (keypair_sign kp m);
  key_decodes kp :
    (2 <= length (peer_to_bytes (key_peer kp)))%nat
    /\ is_Some (try_decode_protobuf (drop 2 (peer_to_bytes (key_peer kp))));
  peer_str_roundtrip p : peer_from_str (peer_to_string p) = Some p
}.

(** The fields of a query its signature covers; [request_id], [compression] and
    [chunk_version] are not among them. *)
Definition covered (q : Query) :=
  (q_query_id q, q_timestamp_ms q, q_dataset q, q_query q, q_chunk_id q, q_block_range q,
   (q_query_engine q, q_output_format q)).

(** Field values the protobuf types can hold. *)
Definition query_wf (q : Query) : Prop :=
  u64 (q_timestamp_ms q)
  /\ match q_block_range q with Some r => u64 (begin r) /\ u64 (end_ r) | None => True end.

(** ** The encoding is invertible *)

Lemma to_le_bytes8_inj x y : u64 x -> u64 y -> to_le_bytes 8 x = to_le_bytes 8 y -> x = y.
Proof. unfold u64. intros. apply (to_le_bytes_inj 8); [lia | lia | done]. Qed.

Lemma len_u32_Ok {E} n x : len_u32 (E := E) n = Ok x -> x = Z.of_nat n /\ Z.of_nat n < 2 ^ 32.
Proof. unfold len_u32. case_match; intros; simplify_eq. by zbool. Qed.

(** A length-prefixed string is read off the front of what follows it. *)
Lemma prefixed_inj (s t : str) a b :
  Z.of_nat (length s) < 2 ^ 32 -> Z.of_nat (length t) < 2 ^ 32 ->
  to_le_bytes 4 (Z.of_nat (length s)) ++ as_bytes s ++ a
  = to_le_bytes 4 (Z.of_nat (length t)) ++ as_bytes t ++ b -> s = t /\ a = b.
Proof.
  intros Hs Ht He. apply app_inj_1 in He as [Hl He]; [| by rewrite !length_to_le_bytes].
  apply (to_le_bytes_inj 4) in Hl; [| lia | lia]. apply Nat2Z.inj in Hl.
  apply app_inj_1 in He as [He ->]; [| by rewrite !length_as_bytes].
  split; [by apply (inj as_bytes) | done].
Qed.

Lemma try_u8_Some x y : try_u8 x = Some y -> y = x.
Proof. unfold try_u8. case_match; by intros [=]. Qed.

(** The tail is one of four lengths, so it says what it holds. *)
Definition tail_shape (q : Query) : nat :=
  Nat.add (if q_block_range q then 16 else 0)
    (if negb (q_query_engine q =? 0) || negb (q_output_format q =? 0)
     then match q_block_range q with None => 3 | Some _ => 2 end else 0).

Lemma query_tail_length q t : query_tail q = Some t -> length t = tail_shape q.
Proof.
  unfold query_tail, tail_shape. destruct (q_block_range q) as [r |];
    destruct (negb _ || negb _); intros Ht; simplify_option_eq; try done;
    rewrite ?length_app, ?length_to_le_bytes; done.
Qed.

Lemma engine_default q :
  negb (q_query_engine q =? 0) || negb (q_output_format q =? 0) = false ->
  q_query_engine q = 0 /\ q_output_format q = 0.
Proof. intros [H1 H2]%orb_false_iff. zbool. done. Qed.

Lemma range_bytes_inj r r' a b :
  u64 (begin r) /\ u64 (end_ r) -> u64 (begin r') /\ u64 (end_ r') ->
  (to_le_bytes 8 (begin r) ++ to_le_bytes 8 (end_ r)) ++ a
  = (to_le_bytes 8 (begin r') ++ to_le_bytes 8 (end_ r')) ++ b -> r = r' /\ a = b.
Proof.
  intros [] []. rewrite <- !app_assoc. intros He.
  apply app_inj_1 in He as [Hb He]; [| by rewrite !length_to_le_bytes].
  apply app_inj_1 in He as [Hn ->]; [| by rewrite !length_to_le_bytes].
  apply to_le_bytes8_inj in Hb; [| done..]. apply to_le_bytes8_inj in Hn; [| done..].
  destruct r, r'; cbn in *; by subst.
Qed.

Lemma query_tail_inj q q' t :
  query_wf q -> query_wf q' -> query_tail q = Some t -> query_tail q' = Some t ->
  q_block_range q = q_block_range q'
  /\ q_query_engine q = q_query_engine q' /\ q_output_format q = q_output_format q'.
Proof.
  intros [_ Hr] [_ Hr'] Ht Ht'.
  pose proof (query_tail_length q t Ht) as Hl. rewrite (query_tail_length q' t Ht') in Hl.
  unfold query_tail in Ht, Ht'. unfold tail_shape in Hl.
  destruct (negb (q_query_engine q =? 0) || _) eqn:E1;
    destruct (negb (q_query_engine q' =? 0) || _) eqn:E2;
    destruct (q_block_range q) as [r |], (q_block_range q') as [r' |]; try (cbn in Hl; lia).
  all: try apply engine_default in E1 as [E1a E1b]; try apply engine_default in E2 as [E2a E2b].
  all: repeat match goal with H : context [try_u8 ?x] |- _ =>
         let E := fresh "Et" in destruct (try_u8 x) eqn:E; cbn in H; [apply try_u8_Some in E | done] end.
  all: rewrite <- Ht in Ht'; apply (inj Some) in Ht'.
  - apply (range_bytes_inj r' r) in Ht' as [-> Ht']; [| done..].
    injection Ht' as ??. split; [done |]. split; congruence.
  - injection Ht' as ??. split; [done |]. split; congruence.
  - rewrite <- (app_nil_r (to_le_bytes 8 (begin r') ++ _)) in Ht'.
    rewrite <- (app_nil_r (to_le_bytes 8 (begin r) ++ _)) in Ht'.
    apply (range_bytes_inj r' r) in Ht' as [-> _]; [| done..]. split; [done |]. split; congruence.
  - split; [done |]. split; congruence.
Qed.

Section inj.
Context `{SignOps}.

Lemma query_msg_Some {E} q w m :
  query_msg_to_sign (E := E) q w = Ok (Some m) -> exists tail,
  length (q_query_id q) = UUID_V4_SIZE /\ query_tail q = Some tail
  /\ Z.of_nat (length (q_dataset q)) < 2 ^ 32 /\ Z.of_nat (length (q_query q)) < 2 ^ 32
  /\ Z.of_nat (length (q_chunk_id q)) < 2 ^ 32
  /\ m = as_bytes (q_query_id q) ++ peer_to_bytes w ++ to_le_bytes 8 (q_timestamp_ms q)
         ++ to_le_bytes 4 (Z.of_nat (length (q_dataset q))) ++ as_bytes (q_dataset q)
         ++ to_le_bytes 4 (Z.of_nat (length (q_query q))) ++ as_bytes (q_query q)
         ++ to_le_bytes 4 (Z.of_nat (length (q_chunk_id q))) ++ as_bytes (q_chunk_id q) ++ tail.
Proof.
  unfold query_msg_to_sign. destruct (length (q_query_id q) =? UUID_V4_SIZE)%nat eqn:El;
    [zbool | done]. cbn [negb].
  destruct (len_u32 (length (q_dataset q))) as [d | |] eqn:Ed; [| done..].
  destruct (len_u32 (length (q_query q))) as [qq | |] eqn:Eq; [| done..].
  destruct (len_u32 (length (q_chunk_id q))) as [c | |] eqn:Ec; [| done..].
  apply len_u32_Ok in Ed as [-> ?], Eq as [-> ?], Ec as [-> ?]. cbn [mbind res_bind].
  destruct (query_tail q) as [tail |] eqn:Et; [| done]. intros Hm. cbn [mbind option_bind] in Hm.
  injection Hm as <-. exists tail. done.
Qed.

Lemma query_msg_covered {E} q q' w w' :
  covered q = covered q' -> peer_to_bytes w = peer_to_bytes w' ->
  query_msg_to_sign (E := E) q w = query_msg_to_sign q' w'.
Proof.
  destruct q, q'. unfold covered. cbn. intros He Hw. simplify_eq.
  unfold query_msg_to_sign, query_tail. cbn. by rewrite Hw.
Qed.

(** C10: The bytes a query signs say exactly which covered fields it has and which
    worker it is for.  A query that has bytes to sign shares them with a second one,
    for worker ids of 38 bytes, if and only if the two agree on the query id, the
    timestamp, the dataset, the query text, the chunk id, the block range, the engine
    and the output format, and are for the same worker, whichever of the optional
    parts each one carries.  So a signature cannot be moved to another worker or to a
    query that differs in one of these fields; it can be moved to one that differs in
    its request id, compression or chunk version, which are not signed. *)
Theorem query_message_injective q q' w w' m
    (Hq : query_wf q) (Hq' : query_wf q')
    (H38 : length (peer_to_bytes w) = 38%nat) (H38' : length (peer_to_bytes w') = 38%nat)
    (Hm : query_msg_to_sign (E := Empty_set) q w = Ok (Some m)) :
  query_msg_to_sign (E := Empty_set) q' w' = Ok (Some m)
  <-> covered q = covered q' /\ peer_to_bytes w = peer_to_bytes w'.
Proof.
  split; [| intros [Hc Hw]; by rewrite <- (query_msg_covered q q' w w')]. intros Hm'.
  apply query_msg_Some in Hm as (t & Hl & Ht & Hd & Hqq & Hc & ->).
  apply query_msg_Some in Hm' as (t' & Hl' & Ht' & Hd' & Hqq' & Hc' & He).
  apply app_inj_1 in He as [Hid He]; [| by rewrite !length_as_bytes, Hl, Hl'].
  apply app_inj_1 in He as [Hw He]; [| by rewrite H38, H38'].
  apply app_inj_1 in He as [Hts He]; [| by rewrite !length_to_le_bytes].
  apply prefixed_inj in He as [Eds He]; [| done..].
  apply prefixed_inj in He as [Eq He]; [| done..].
  apply prefixed_inj in He as [Ec <-]; [| done..].
  apply (inj as_bytes) in Hid. apply to_le_bytes8_inj in Hts; [| apply Hq | apply Hq'].
  destruct (query_tail_inj q q' t Hq Hq' Ht Ht') as (Er & Ee & Ef).
  unfold covered. by rewrite Hid, Hts, Eds, Eq, Ec, Er, Ee, Ef.
Qed.

Lemma ok_err_length (id id' : str) (h : list Z) lb c :
  length id = UUID_V4_SIZE -> length id' = UUID_V4_SIZE -> length h = SHA3_256_SIZE ->
  as_bytes id ++ [c] <> as_bytes id' ++ h ++ to_le_bytes 8 lb.
Proof.
  intros H1 H2 H3 He. apply (f_equal length) in He.
  rewrite !length_app, !length_as_bytes, length_to_le_bytes in He.
  unfold UUID_V4_SIZE, SHA3_256_SIZE in *. cbn in He. lia.
Qed.

(** The bytes a query result signs determine its query id and its outcome:
    the data hash and last block of a success, or the code of an error; a
    success and an error never sign the same bytes. *)
Theorem result_message_injective (kp : SignKeypair -> PeerId) `{!SignLaws kp} r r' m
    (Hb : forall ok, qr_result r = Some (ResultOk ok) -> u64 (ok_last_block ok))
    (Hb' : forall ok, qr_result r' = Some (ResultOk ok) -> u64 (ok_last_block ok))
    (Hm : result_msg_to_sign r = Some m) (Hm' : result_msg_to_sign r' = Some m) :
  qr_query_id r = qr_query_id r'
  /\ match qr_result r, qr_result r' with
     | Some (ResultOk ok), Some (ResultOk ok') =>
       sha3_256 (ok_data ok) = sha3_256 (ok_data ok') /\ ok_last_block ok = ok_last_block ok'
     | Some (ResultErr (Some e)), Some (ResultErr (Some e')) => err_code e = err_code e'
     | _, _ => False
     end.
Proof.
  unfold result_msg_to_sign, msg_to_sign_query_ok, msg_to_sign_query_err in *.
  destruct (qr_result r) as [[ok | [e |]] |], (qr_result r') as [[ok' | [e' |]] |]; try done.
  all: repeat case_match; zbool; try done; rewrite <- Hm in Hm'; apply (inj Some) in Hm'.
  - apply app_inj_1 in Hm' as [Hid Hm']; [| rewrite !length_as_bytes; congruence].
    apply app_inj_1 in Hm' as [Hh Hlb]; [| congruence].
    apply to_le_bytes8_inj in Hlb; [| by apply Hb' | by apply Hb].
    by apply (inj as_bytes) in Hid.
  - by apply ok_err_length in Hm'.
  - by symmetry in Hm'; apply ok_err_length in Hm'.
  - apply app_inj_1 in Hm' as [Hid Hm']; [| rewrite !length_as_bytes; congruence].
    apply (inj as_bytes) in Hid. by injection Hm'.
Qed.
End inj.

(** ** Signing and verifying *)

Section verify.
Context `{SignOps} (kp : SignKeypair -> PeerId) `{!SignLaws kp}.

Lemma verify_own_signature {E} key m s :
  keypair_sign key m = Some s -> verify_signature (E := E) (kp key) m s = Ok true.
Proof.
  intros Hs. destruct (key_decodes key) as [Hl [k Hk]]. unfold verify_signature.
  rewrite (proj2 (Nat.leb_le _ _)) by done. cbn [assert mbind res_bind]. rewrite Hk.
  by rewrite (sign_verify key m s k).
Qed.

Lemma query_msg_signature {E} q s w :
  query_msg_to_sign (E := E) (query_set_signature q s) w = query_msg_to_sign q w.
Proof. done. Qed.

(** A query that [sign] accepts verifies under the signer's peer id for the
    worker it was signed for, and signing changes nothing else. *)
Theorem query_sign_verify q key w q' (Hs : query_sign q key w = Ok q') :
  query_verify_signature (E := Empty_set) q' (kp key) w = Ok true
  /\ covered q' = covered q /\ q_request_id q' = q_request_id q.
Proof.
  unfold query_sign in Hs.
  destruct (query_msg_to_sign q w) as [[m |] | |] eqn:Hm; [| done..]. cbn [mbind res_bind ok_or] in Hs.
  unfold sign in Hs. destruct (keypair_sign key m) as [s |] eqn:Hk; [| done]. cbn in Hs.
  injection Hs as <-. split; [| done]. unfold query_verify_signature.
  rewrite query_msg_signature.
  assert (query_msg_to_sign (E := Empty_set) q w = Ok (Some m)) as ->.
  { revert Hm. unfold query_msg_to_sign, len_u32. repeat case_match; cbn; congruence. }
  cbn [mbind res_bind]. by apply verify_own_signature.
Qed.

(** C36: The portal's log of a finished query carries the worker's signature: for
    any result, checking the log entry against the worker's id is checking the
    result against it, although the log keeps only a hash of the data. *)
Theorem finished_verifies_as_result r w t :
  finished_verify_signature (E := Empty_set) (finished_new r (peer_to_string w) t)
  = result_verify_signature r w.
Proof.
  unfold finished_verify_signature, result_verify_signature, result_msg_to_sign, finished_new.
  cbn [qf_result qf_query_id qf_worker_id qf_worker_signature].
  destruct (qr_result r) as [[ok | [e |]] |]; try done;
    cbn [sum_data_hash sum_last_block]; case_match; rewrite ?peer_str_roundtrip; done.
Qed.
End verify.

(** ** Witnesses *)

(** A scheme whose signature is the message itself. *)
Definition toy_sign : @SignOps toy_peer := {|
  SignKeypair := Z;
  VerifyKey := unit;
  sha3_256 l := take 32 (l ++ replicate 32 0);
  keypair_sign _ m := Some m;
  key_verify _ m s := bool_decide (m = s);
  try_decode_protobuf _ := Some tt;
  peer_from_str := (parse_unary : str -> option (@PeerId toy_peer)) |}.

Definition toy_query : Query :=
  mkQuery (replicate 36 "a"%char) (lit "s3://ds") (lit "req") (lit "{}") (Some (mkRange 1 9))
    (lit "0/1-9-abcde") 1700000000000 [] 0 1 0 0.

Definition toy_query' : Query :=
  mkQuery (replicate 36 "a"%char) (lit "s3://ds") (lit "other") (lit "{}") (Some (mkRange 1 9))
    (lit "0/1-9-abcde") 1700000000000 [] 0 1 0 0.

Definition toy_message : list Z :=
  match @query_msg_to_sign toy_peer Empty_set toy_query 5 with Ok (Some m) => m | _ => [] end.

Lemma toy_query_wf : query_wf toy_query.
Proof. unfold query_wf, u64; cbn -[Z.pow]. repeat split; lia. Defined.

(** The two queries differ in their request ids, which the signature leaves out. *)
Lemma query_message_injective_witness :
  @query_msg_to_sign toy_peer Empty_set toy_query' 5 = Ok (Some toy_message)
  <-> covered toy_query = covered toy_query' /\ @peer_to_bytes toy_peer 5 = @peer_to_bytes toy_peer 5.
Proof.
  apply (@query_message_injective toy_peer toy_query toy_query' 5 5 toy_message);
    [exact toy_query_wf | exact toy_query_wf | reflexivity | reflexivity | vm_compute; reflexivity].
Defined.

Lemma toy_sign_laws : @SignLaws toy_peer toy_sign (fun kp => kp).
Proof.
  split; cbn.
  - intros l. unfold SHA3_256_SIZE. rewrite length_take, length_app. cbn [length]. lia.
  - intros _ m s _ [= <-] _. by apply bool_decide_eq_true_2.
  - eauto.
  - intros k. split; [lia | eauto].
  - apply parse_unary_unary.
Qed.

Lemma query_sign_verify_witness :
  @query_verify_signature toy_peer toy_sign Empty_set (query_set_signature toy_query toy_message) 7 5
    = Ok true
  /\ covered (query_set_signature toy_query toy_message) = covered toy_query
  /\ q_request_id (query_set_signature toy_query toy_message) = q_request_id toy_query.
Proof.
  apply (@query_sign_verify toy_peer toy_sign (fun kp => kp) toy_sign_laws toy_query 7 5).
  vm_compute. reflexivity.
Defined.

Definition toy_result (data : list Z) : QueryResult :=
  mkQueryResult (replicate 36 "a"%char) (Some (ResultOk (mkQueryOk data 9 None))) None [].

Definition toy_result_message : list Z :=
  match @result_msg_to_sign toy_peer toy_sign (toy_result [1; 2]) with Some m => m | None => [] end.

Lemma result_message_injective_witness :
  qr_query_id (toy_result [1; 2]) = qr_query_id (toy_result [1; 2; 0])
  /\ match qr_result (toy_result [1; 2]), qr_result (toy_result [1; 2; 0]) with
     | Some (ResultOk ok), Some (ResultOk ok') =>
       @sha3_256 toy_peer toy_sign (ok_data ok) = @sha3_256 toy_peer toy_sign (ok_data ok')
       /\ ok_last_block ok = ok_last_block ok'
     | Some (ResultErr (Some e)), Some (ResultErr (Some e')) => err_code e = err_code e'
     | _, _ => False
     end.
Proof.
  apply (@result_message_injective toy_peer toy_sign (fun kp => kp) toy_sign_laws
           (toy_result [1; 2]) (toy_result [1; 2; 0]) toy_result_message).
  - intros ok [= <-]. unfold u64; cbn -[Z.pow]. lia.
  - intros ok [= <-]. unfold u64; cbn -[Z.pow]. lia.
  - vm_compute. reflexivity.
  - vm_compute. reflexivity.
Defined.

Lemma finished_verifies_as_result_witness :
  @finished_verify_signature toy_peer toy_sign Empty_set
    (@finished_new toy_peer toy_sign (toy_result [1; 2]) (@peer_to_string toy_peer 7) 30)
  = @result_verify_signature toy_peer toy_sign Empty_set (toy_result [1; 2]) 7.
Proof.
  apply (@finished_verifies_as_result toy_peer toy_sign (fun kp => kp) toy_sign_laws
           (toy_result [1; 2]) 7 30).
Defined.
