(* ===== verification/ContractMerge.v ===== *)
(** * Merging the two portal registries (crates/contract-client/src/merge.rs)

    The pure functions that combine what the PortalRegistry contract and the
    legacy GatewayRegistry and AllocationsViewer contracts report: the list of
    active portals, and one cluster of compute units per portal operator.

    An [Address] is the number its twenty bytes spell (its order is the order
    of [BTreeMap<Address, _>]) and a [U256] is a [Z] below [2 ^ 256].
    [PeerId] and [PeerId::from_bytes] are libp2p's, hence parameters. *)

From S2P Require Import Prelude RustStd.
From Stdlib Require Import ZArith Lia.
From stdpp Require Import base sets gmap sorting numbers list.

Open Scope Z_scope.

Definition u256_max : Z := 2 ^ 256 - 1.

Definition saturating_add (a b : Z) : Z := Z.min u256_max (a + b).

(** A row of the AllocationsViewer contract. *)
Record Allocation := mkAllocation {
  gateway_id : list Z;
  allocated : Z;
  operator : Z
}.

Section Merge.
  Context {PeerId : Type} `{Countable PeerId}.
  Context (from_bytes : list Z -> option PeerId).

Record PortalCluster := mkPortalCluster {
  operator_addr : Z;
  portal_ids : list PeerId;
  allocated_computation_units : Z
}.

(** [.filter(|p| seen.insert( *p ))]. *)
Fixpoint filter_seen (seen : gset PeerId) (portals : list PeerId) : list PeerId :=
  match portals with
  | [] => []
  | p :: portals =>
    if bool_decide (p ∈ seen) then filter_seen seen portals
    else p :: filter_seen ({[p]} ∪ seen) portals
  end.

Definition merge_active_portals (new_portals legacy_portals : list PeerId) : list PeerId :=
  filter_seen ∅ (new_portals ++ legacy_portals).

(** The loop of [and_modify]: push the peers the cluster does not list yet. *)
Fixpoint push_missing (existing pids : list PeerId) : list PeerId :=
  match pids with
  | [] => existing
  | pid :: pids =>
    push_missing (if bool_decide (pid ∈ existing) then existing else existing ++ [pid]) pids
  end.

Definition upsert_cluster (m : gmap Z PortalCluster) (op : Z) (pids : list PeerId) (cus : Z)
  : gmap Z PortalCluster :=
  <[op :=
      match m !! op with
      | Some existing =>
        mkPortalCluster (operator_addr existing) (push_missing (portal_ids existing) pids)
          (saturating_add (allocated_computation_units existing) cus)
      | None => mkPortalCluster op pids cus
      end]> m.

Definition upsert_legacy_allocation (st : gmap Z PortalCluster * gset Z) (op : Z) (peer_id : PeerId)
    (cus : Z) : gmap Z PortalCluster * gset Z :=
  let '(m, legacy_cu_seen) := st in
  let contribution := if bool_decide (op ∈ legacy_cu_seen) then 0 else cus in
  (upsert_cluster m op [peer_id] contribution, {[op]} ∪ legacy_cu_seen).

Definition migrated_peers (new_clusters : list PortalCluster) : gset PeerId :=
  list_to_set (new_clusters ≫= portal_ids).

(** One round of the loop over the legacy rows. *)
Definition legacy_step (migrated : gset PeerId) (st : gmap Z PortalCluster * gset Z)
    (allocation : Allocation) : gmap Z PortalCluster * gset Z :=
  match from_bytes (gateway_id allocation) with
  | None => st
  | Some peer_id =>
    if bool_decide (peer_id ∈ migrated) then st
    else upsert_legacy_allocation st (operator allocation) peer_id (allocated allocation)
  end.

Definition merge_portal_clusters (new_clusters : list PortalCluster)
    (legacy_allocations : list Allocation) : list PortalCluster :=
  let by_operator :=
    foldl (fun m c => upsert_cluster m (operator_addr c) (portal_ids c)
                        (allocated_computation_units c)) ∅ new_clusters in
  let '(by_operator, _) :=
    foldl (legacy_step (migrated_peers new_clusters)) (by_operator, ∅) legacy_allocations in
  snd <$> btree_iter by_operator.

(** ** What the merge promises *)

(** The legacy rows that survive the migration filter, with their peer. *)
Definition surviving (new_clusters : list PortalCluster) (legacy : list Allocation)
  : list (PeerId * Allocation) :=
  omap (fun al =>
    match from_bytes (gateway_id al) with
    | Some p => if bool_decide (p ∈ migrated_peers new_clusters) then None else Some (p, al)
    | None => None
    end) legacy.

(** The compute units the new registry gives an operator, and the legacy ones:
    the first surviving row of the operator is the one that counts. *)
Fixpoint new_cus (op : Z) (new_clusters : list PortalCluster) : Z :=
  match new_clusters with
  | [] => 0
  | c :: cs =>
    (if bool_decide (operator_addr c = op) then allocated_computation_units c else 0) + new_cus op cs
  end.

Fixpoint legacy_cus (op : Z) (rows : list (PeerId * Allocation)) : Z :=
  match rows with
  | [] => 0
  | (_, al) :: rows => if bool_decide (operator al = op) then allocated al else legacy_cus op rows
  end.

(** The peers an operator contributes, by either registry. *)
Definition operator_peer (new_clusters : list PortalCluster) (rows : list (PeerId * Allocation))
    (op : Z) (p : PeerId) : Prop :=
  (exists c, c ∈ new_clusters /\ operator_addr c = op /\ p ∈ portal_ids c) \/
  (exists al, (p, al) ∈ rows /\ operator al = op).

Definition has_operator (new_clusters : list PortalCluster) (rows : list (PeerId * Allocation))
    (op : Z) : Prop :=
  (exists c, c ∈ new_clusters /\ operator_addr c = op) \/
  (exists p al, (p, al) ∈ rows /\ operator al = op).

(** Both loops are a sequence of [upsert_cluster] calls: operator, peers, units. *)
Definition Contribution : Type := Z * list PeerId * Z.

Definition upsert_all (m : gmap Z PortalCluster) (cs : list Contribution) : gmap Z PortalCluster :=
  foldl (fun m c => upsert_cluster m c.1.1 c.1.2 c.2) m cs.

Fixpoint total_cus (op : Z) (cs : list Contribution) : Z :=
  match cs with
  | [] => 0
  | (o, _, cus) :: cs => (if bool_decide (o = op) then cus else 0) + total_cus op cs
  end.

(** The map after a prefix of both loops represents what was contributed. *)
Definition merged (cs : list Contribution) (m : gmap Z PortalCluster) : Prop :=
  forall op,
    (is_Some (m !! op) <-> op ∈ (fst ∘ fst) <$> cs) /\
    (forall c, m !! op = Some c ->
       operator_addr c = op /\
       (forall p, p ∈ portal_ids c <-> exists pids cus, (op, pids, cus) ∈ cs /\ p ∈ pids) /\
       allocated_computation_units c = Z.min u256_max (total_cus op cs) /\
       ((forall pids cus, (op, pids, cus) ∈ cs -> NoDup pids) -> NoDup (portal_ids c))).

Definition new_contribution (c : PortalCluster) : Contribution :=
  (operator_addr c, portal_ids c, allocated_computation_units c).

(** What the surviving legacy rows contribute, the operators of [seen] having
    had their units counted. *)
Fixpoint legacy_contributions (seen : gset Z) (rows : list (PeerId * Allocation))
  : list Contribution :=
  match rows with
  | [] => []
  | (p, al) :: rows =>
    (operator al, [p], if bool_decide (operator al ∈ seen) then 0 else allocated al)
    :: legacy_contributions ({[operator al]} ∪ seen) rows
  end.

(** ** Proofs *)

Lemma elem_of_filter_seen seen l p : p ∈ filter_seen seen l <-> p ∈ l /\ p ∉ seen.
Proof.
  revert seen. induction l as [| q l IH]; intros seen; [set_solver |]; cbn.
  case_bool_decide; [| rewrite elem_of_cons]; rewrite IH; clear IH;
    destruct (decide (p = q)) as [-> |]; set_solver.
Qed.

Lemma NoDup_filter_seen seen l : NoDup (filter_seen seen l).
Proof.
  revert seen. induction l as [| q l IH]; intros seen; cbn; [constructor |].
  case_bool_decide; [done |]. constructor; [| done]. rewrite elem_of_filter_seen. set_solver.
Qed.

Lemma filter_seen_app seen l k :
  filter_seen seen (l ++ k) = filter_seen seen l ++ filter_seen (seen ∪ list_to_set l) k.
Proof.
  revert seen. induction l as [| q l IH]; intros seen; cbn.
  { f_equal. set_solver. }
  case_bool_decide; rewrite IH; clear IH; cbn; [| f_equal]; f_equal; f_equal; set_solver.
Qed.

(** the merged list of active portals lists every portal of either registry
    once and no other, in the order of first mention with the new registry
    first: what precedes a portal's first mention, and only that, precedes it in
    the output. *)
Theorem merge_active_portals_correct (new legacy : list PeerId) :
  NoDup (merge_active_portals new legacy) /\
  (forall p, p ∈ merge_active_portals new legacy <-> p ∈ new \/ p ∈ legacy) /\
  (forall before p after,
     new ++ legacy = before ++ p :: after -> p ∉ before ->
     exists before' after',
       merge_active_portals new legacy = before' ++ p :: after' /\
       (forall q, q ∈ before' <-> q ∈ before)).
Proof.
  unfold merge_active_portals. split_and!.
  - apply NoDup_filter_seen.
  - intros p. rewrite elem_of_filter_seen. set_solver.
  - intros before p after -> Hp. rewrite filter_seen_app. cbn.
    rewrite bool_decide_eq_false_2 by set_solver.
    eexists _, _. split; [done |]. intros q. rewrite elem_of_filter_seen. set_solver.
Qed.

Lemma elem_of_push_missing l k p : p ∈ push_missing l k <-> p ∈ l \/ p ∈ k.
Proof.
  revert l. induction k as [| q k IH]; intros l; [set_solver |]; cbn.
  rewrite IH. case_bool_decide; set_solver.
Qed.

Lemma NoDup_push_missing l k : NoDup l -> NoDup (push_missing l k).
Proof.
  revert l. induction k as [| q k IH]; intros l Hl; cbn; [done |].
  apply IH. case_bool_decide; [done |]. apply NoDup_app. split_and!; [done | set_solver |].
  apply NoDup_singleton.
Qed.

Lemma saturating_min a b : 0 <= b -> saturating_add (Z.min u256_max a) b = Z.min u256_max (a + b).
Proof. unfold saturating_add. lia. Qed.

Lemma total_cus_app op cs ds : total_cus op (cs ++ ds) = total_cus op cs + total_cus op ds.
Proof.
  induction cs as [| [[o pids] cus] cs IH]; cbn [app total_cus]; [done |]. rewrite IH. lia.
Qed.

Lemma total_cus_none op cs : op ∉ (fst ∘ fst) <$> cs -> total_cus op cs = 0.
Proof.
  induction cs as [| [[o pids] cus] cs IH]; intros Hn; cbn [total_cus]; [done |].
  rewrite bool_decide_eq_false_2, IH by set_solver. done.
Qed.

Definition cus_ok (c : Contribution) : Prop := 0 <= c.2 <= u256_max.

(** What one contribution does to the cluster of an operator. *)
Lemma lookup_upsert m op pids cus a :
  upsert_cluster m op pids cus !! a
  = if decide (a = op) then
      Some (match m !! op with
            | Some existing =>
              mkPortalCluster (operator_addr existing) (push_missing (portal_ids existing) pids)
                (saturating_add (allocated_computation_units existing) cus)
            | None => mkPortalCluster op pids cus
            end)
    else m !! a.
Proof.
  unfold upsert_cluster. destruct (decide (a = op)) as [-> |].
  - by rewrite lookup_insert_eq.
  - by rewrite lookup_insert_ne.
Qed.

Lemma merged_snoc cs m op pids cus :
  0 <= cus <= u256_max -> merged cs m ->
  merged (cs ++ [(op, pids, cus)]) (upsert_cluster m op pids cus).
Proof.
  intros Hc Hm a. specialize (Hm a) as [Hdom Hrep]. rewrite lookup_upsert.
  rewrite fmap_app, total_cus_app. cbn [total_cus].
  destruct (decide (a = op)) as [-> | Hne].
  - rewrite bool_decide_eq_true_2 by done. split; [split; [set_solver | done] |].
    intros d [= <-]. destruct (m !! op) as [e |] eqn:He; cbn.
    + destruct (Hrep e eq_refl) as (Ho & Hp & Hcu & Hnd). split_and!; [done | | |].
      * intros p. rewrite elem_of_push_missing, Hp. set_solver.
      * rewrite Hcu, saturating_min by lia. f_equal. lia.
      * intros Hall. apply NoDup_push_missing, Hnd. set_solver.
    + assert (op ∉ (fst ∘ fst) <$> cs) as Hno by (rewrite <- Hdom; by intros []).
      split_and!; [done | | |].
      * intros p. split; [set_solver |]. intros (q & x & Hin & Hq).
        apply elem_of_app in Hin as [Hin | Hin]; [| set_solver].
        destruct Hno. apply list_elem_of_fmap. by exists (op, q, x).
      * rewrite (total_cus_none op) by done. lia.
      * intros Hall. apply (Hall _ cus). set_solver.
  - rewrite bool_decide_eq_false_2 by done. split; [rewrite Hdom; set_solver |].
    intros c Hl. destruct (Hrep c Hl) as (Ho & Hp & Hcu & Hnd). split_and!; [done | | |].
    + intros p. rewrite Hp. set_solver.
    + rewrite Hcu. f_equal. lia.
    + intros Hall. apply Hnd. set_solver.
Qed.

Lemma merged_upsert_all cs ds m :
  Forall cus_ok ds -> merged cs m -> merged (cs ++ ds) (upsert_all m ds).
Proof.
  revert cs m. induction ds as [| [[op pids] cus] ds IH]; intros cs m Hall Hm.
  { by rewrite app_nil_r. }
  apply Forall_cons in Hall as [Hc Hall]. cbn. replace (cs ++ _ :: ds) with ((cs ++ [(op, pids, cus)]) ++ ds).
  - apply IH; [done |]. by apply merged_snoc.
  - by rewrite <- app_assoc.
Qed.

Lemma new_loop m news :
  foldl (fun m c => upsert_cluster m (operator_addr c) (portal_ids c)
                      (allocated_computation_units c)) m news
  = upsert_all m (new_contribution <$> news).
Proof. revert m. induction news as [| c news IH]; intros m; [done | apply IH]. Qed.

Lemma legacy_loop news m seen legacy :
  fst (foldl (legacy_step (migrated_peers news)) (m, seen) legacy)
  = upsert_all m (legacy_contributions seen (surviving news legacy)).
Proof.
  revert m seen. induction legacy as [| al legacy IH]; intros m seen; [done |].
  cbn [foldl surviving omap list_omap]. unfold legacy_step at 2.
  destruct (from_bytes (gateway_id al)) as [p |]; [| apply IH].
  case_bool_decide; [apply IH |]. apply IH.
Qed.

Lemma total_legacy op seen rows :
  total_cus op (legacy_contributions seen rows)
  = if bool_decide (op ∈ seen) then 0 else legacy_cus op rows.
Proof.
  revert seen. induction rows as [| [p al] rows IH]; intros seen.
  { by case_bool_decide. }
  cbn [legacy_contributions total_cus legacy_cus]. rewrite IH.
  destruct (decide (operator al = op)) as [-> | Hne].
  - rewrite (bool_decide_eq_true_2 (op = op)) by done.
    rewrite (bool_decide_eq_true_2 (op ∈ _ ∪ _)) by set_solver. lia.
  - rewrite (bool_decide_eq_false_2 (operator al = op)) by done. cbn.
    rewrite (bool_decide_ext (op ∈ _ ∪ _) (op ∈ seen)) by set_solver. done.
Qed.

Lemma total_new op news : total_cus op (new_contribution <$> news) = new_cus op news.
Proof. induction news as [| c news IH]; [done |]. cbn. by rewrite IH. Qed.

Lemma elem_of_legacy_contributions seen rows op pids cus :
  (op, pids, cus) ∈ legacy_contributions seen rows ->
  exists p al, (p, al) ∈ rows /\ op = operator al /\ pids = [p] /\ (cus = 0 \/ cus = allocated al).
Proof.
  revert seen. induction rows as [| [p al] rows IH]; intros seen; cbn; [by intros ?%not_elem_of_nil |].
  intros [[= -> -> ->] | Hin]%elem_of_cons.
  - exists p, al. split_and!; [by left | done | done |]. case_bool_decide; auto.
  - destruct (IH _ Hin) as (q & bl & ? & ?). exists q, bl. split; [by right | done].
Qed.

Lemma legacy_contributions_elem seen rows p al :
  (p, al) ∈ rows -> exists cus, (operator al, [p], cus) ∈ legacy_contributions seen rows.
Proof.
  revert seen. induction rows as [| [q bl] rows IH]; intros seen; [by intros ?%not_elem_of_nil |].
  intros [[= -> ->] | Hin]%elem_of_cons.
  - eexists. by left.
  - destruct (IH ({[operator bl]} ∪ seen) Hin) as [cus ?]. exists cus. by right.
Qed.

Lemma elem_of_surviving news legacy p al :
  (p, al) ∈ surviving news legacy <->
  al ∈ legacy /\ from_bytes (gateway_id al) = Some p /\ p ∉ migrated_peers news.
Proof.
  unfold surviving. rewrite list_elem_of_omap. split.
  - intros (bl & Hin & Hf). repeat case_match; simplify_eq. case_bool_decide; by simplify_eq.
  - intros (Hin & Hf & Hm). exists al. rewrite Hf, bool_decide_eq_false_2 by done. done.
Qed.

(** The operator map both loops leave. *)
Definition all_contributions (news : list PortalCluster) (legacy : list Allocation)
  : list Contribution :=
  (new_contribution <$> news) ++ legacy_contributions ∅ (surviving news legacy).

Lemma merge_portal_clusters_unfold news legacy :
  merge_portal_clusters news legacy
  = snd <$> btree_iter (upsert_all ∅ (all_contributions news legacy)).
Proof.
  unfold merge_portal_clusters. rewrite new_loop.
  destruct (foldl (legacy_step _) _ _) as [m seen] eqn:E. apply (f_equal fst) in E.
  rewrite legacy_loop in E. cbn in E. rewrite <- E.
  unfold upsert_all, all_contributions. by rewrite foldl_app.
Qed.

Definition cluster_ok (c : PortalCluster) : Prop :=
  0 <= allocated_computation_units c <= u256_max.

Definition allocation_ok (al : Allocation) : Prop := 0 <= allocated al <= u256_max.

Lemma all_contributions_merged news legacy :
  Forall cluster_ok news -> Forall allocation_ok legacy ->
  merged (all_contributions news legacy) (upsert_all ∅ (all_contributions news legacy)).
Proof.
  intros Hn Hl. apply (merged_upsert_all [] (all_contributions news legacy)).
  - apply Forall_app. split; [by apply Forall_fmap |].
    apply Forall_forall. intros [[op pids] cus] Hin.
    apply elem_of_legacy_contributions in Hin as (p & al & Hin & -> & -> & Hcus).
    apply elem_of_surviving in Hin as (Hin & _). rewrite Forall_forall in Hl.
    specialize (Hl al Hin). unfold allocation_ok, cus_ok, u256_max in *. cbn. lia.
  - intros op. rewrite lookup_empty. split; [| done]. split; [by intros [] | set_solver].
Qed.

(** Which peers an operator contributes. *)
Lemma all_contributions_peer news legacy op p :
  (exists pids cus, (op, pids, cus) ∈ all_contributions news legacy /\ p ∈ pids) <->
  operator_peer news (surviving news legacy) op p.
Proof.
  unfold all_contributions, operator_peer. split.
  - intros (pids & cus & [Hin | Hin]%elem_of_app & Hp).
    + apply list_elem_of_fmap in Hin as (c & [= -> -> ->] & Hin). left. by exists c.
    + apply elem_of_legacy_contributions in Hin as (q & al & Hin & -> & -> & _).
      right. exists al. set_solver.
  - intros [(c & Hin & <- & Hp) | (al & Hin & <-)].
    + exists (portal_ids c), (allocated_computation_units c). split; [| done].
      apply elem_of_app. left. apply list_elem_of_fmap. by exists c.
    + destruct (legacy_contributions_elem ∅ _ _ _ Hin) as [cus ?].
      exists [p], cus. split; [apply elem_of_app; by right | by left].
Qed.

Lemma all_contributions_operator news legacy op :
  op ∈ (fst ∘ fst) <$> all_contributions news legacy <->
  has_operator news (surviving news legacy) op.
Proof.
  rewrite list_elem_of_fmap. unfold all_contributions, has_operator. split.
  - intros ([[o pids] cus] & -> & [Hin | Hin]%elem_of_app).
    + apply list_elem_of_fmap in Hin as (c & [= -> -> ->] & Hin). left. by exists c.
    + apply elem_of_legacy_contributions in Hin as (q & al & Hin & -> & -> & _).
      right. by exists q, al.
  - intros [(c & Hin & <-) | (p & al & Hin & <-)].
    + exists (new_contribution c). split; [done |]. apply elem_of_app. left.
      apply list_elem_of_fmap. by exists c.
    + destruct (legacy_contributions_elem ∅ _ _ _ Hin) as [cus ?].
      exists (operator al, [p], cus). split; [done |]. apply elem_of_app. by right.
Qed.

(** The values of the operator map, by ascending key. *)
Lemma elem_of_merged cs m c :
  merged cs m -> c ∈ snd <$> btree_iter m <-> m !! operator_addr c = Some c.
Proof.
  intros Hm. rewrite list_elem_of_fmap. split.
  - intros ([op d] & -> & Hin%elem_of_btree_iter). cbn.
    by destruct (proj2 (Hm op) d Hin) as [-> _].
  - intros Hc. exists (operator_addr c, c). by rewrite elem_of_btree_iter.
Qed.

Lemma merged_ascending cs m i j c d :
  merged cs m -> (i < j)%nat ->
  (snd <$> btree_iter m) !! i = Some c -> (snd <$> btree_iter m) !! j = Some d ->
  operator_addr c < operator_addr d.
Proof.
  intros Hm Hij. rewrite !list_lookup_fmap.
  destruct (btree_iter m !! i) as [[a c'] |] eqn:Hi; [| done].
  destruct (btree_iter m !! j) as [[b d'] |] eqn:Hj; [| done]. cbn. intros [= ->] [= ->].
  pose proof (list_elem_of_lookup_2 _ _ _ Hi) as Ha%elem_of_btree_iter.
  pose proof (list_elem_of_lookup_2 _ _ _ Hj) as Hb%elem_of_btree_iter.
  destruct (proj2 (Hm a) c Ha) as [-> _]. destruct (proj2 (Hm b) d Hb) as [-> _].
  by apply (btree_iter_sorted m i j _ _ Hij Hi Hj).
Qed.

Lemma all_contributions_NoDup news legacy op pids cus :
  Forall (fun n => NoDup (portal_ids n)) news ->
  (op, pids, cus) ∈ all_contributions news legacy -> NoDup pids.
Proof.
  rewrite Forall_forall. intros Hall [Hin | Hin]%elem_of_app.
  - apply list_elem_of_fmap in Hin as (d & [= -> -> ->] & Hd). by apply Hall.
  - apply elem_of_legacy_contributions in Hin as (q & al & _ & _ & -> & _).
    apply NoDup_singleton.
Qed.

(** C16: merging the registries gives exactly one cluster per operator that either
    registry knows, in ascending operator order.  The cluster of an operator
    lists the operator's portals of the new registry and of the legacy rows
    whose portal has not migrated, each once when no new cluster repeats one,
    and its compute units are, saturating at the largest [U256], the sum of its
    new clusters plus its first surviving legacy row. *)
Theorem merge_portal_clusters_correct news legacy :
  Forall cluster_ok news -> Forall allocation_ok legacy ->
  let out := merge_portal_clusters news legacy in
  let rows := surviving news legacy in
  (forall i j c d, (i < j)%nat -> out !! i = Some c -> out !! j = Some d ->
     operator_addr c < operator_addr d) /\
  (forall op, (exists c, c ∈ out /\ operator_addr c = op) <-> has_operator news rows op) /\
  (forall c, c ∈ out ->
     (forall p, p ∈ portal_ids c <-> operator_peer news rows (operator_addr c) p) /\
     allocated_computation_units c
     = Z.min u256_max (new_cus (operator_addr c) news + legacy_cus (operator_addr c) rows) /\
     (Forall (fun n => NoDup (portal_ids n)) news -> NoDup (portal_ids c))).
Proof.
  intros Hn Hl out rows. subst out rows. rewrite merge_portal_clusters_unfold.
  pose proof (all_contributions_merged news legacy Hn Hl) as Hm.
  set (m := upsert_all ∅ _) in *. split_and!.
  - intros i j c d. by apply (merged_ascending (all_contributions news legacy)).
  - intros op. rewrite <- all_contributions_operator, <- (proj1 (Hm op)). split.
    + intros (c & Hin & <-). apply (elem_of_merged _ _ _ Hm) in Hin. by eexists.
    + intros [c Hc]. destruct (proj2 (Hm op) c Hc) as [Ho _]. exists c. split; [| done].
      apply (elem_of_merged _ _ _ Hm). by rewrite Ho.
  - intros c Hin. apply (elem_of_merged _ _ _ Hm) in Hin.
    destruct (proj2 (Hm (operator_addr c)) c Hin) as (_ & Hp & Hcu & Hnd). split_and!.
    + intros p. by rewrite Hp, all_contributions_peer.
    + rewrite Hcu. unfold all_contributions.
      by rewrite total_cus_app, total_new, total_legacy, bool_decide_eq_false_2 by set_solver.
    + intros Hall. apply Hnd. intros pids cus. by apply all_contributions_NoDup.
Qed.

End Merge.

(** ** A concrete merge: operator 7 has two new clusters and two legacy rows, one
    of them for the migrated portal 10. *)
Definition demo_news : list (PortalCluster (PeerId := Z)) :=
  [mkPortalCluster 7 [10; 11] 5; mkPortalCluster 3 [12] u256_max; mkPortalCluster 7 [11; 13] 6].

Definition demo_legacy : list Allocation :=
  [mkAllocation [10] 100 7; mkAllocation [14] 20 7; mkAllocation [15] 30 7; mkAllocation [16] 9 3;
   mkAllocation [] 1 99].

Lemma demo_merge :
  merge_portal_clusters head demo_news demo_legacy
  = [mkPortalCluster 3 [12; 16] u256_max; mkPortalCluster 7 [10; 11; 13; 14; 15] 31].
Proof. vm_compute. reflexivity. Qed.

Lemma merge_portal_clusters_correct_witness :
  let out := merge_portal_clusters head demo_news demo_legacy in
  out !! 1%nat = Some (mkPortalCluster 7 [10; 11; 13; 14; 15] 31) /\
  31 = Z.min u256_max (new_cus 7 demo_news + legacy_cus 7 (surviving head demo_news demo_legacy)).
Proof.
  assert (Forall cluster_ok demo_news) as Hn by (repeat constructor; vm_compute; congruence).
  assert (Forall allocation_ok demo_legacy) as Hl by (repeat constructor; vm_compute; congruence).
  destruct (merge_portal_clusters_correct head demo_news demo_legacy Hn Hl) as (_ & _ & Hc).
  split; [by rewrite demo_merge |].
  refine (proj1 (proj2 (Hc (mkPortalCluster 7 [10; 11; 13; 14; 15] 31) _))).
  rewrite demo_merge. apply list_elem_of_lookup_2 with 1%nat. reflexivity.
Defined.
