(* ===== verification/Pubsub.v ===== *)
(** * Validation of gossipsub messages (crates/transport/src/behaviour/pubsub.rs)

    [PubsubBehaviour] keeps a [TopicState] per subscribed topic, and a topic a
    [PeerState] per origin: the highest sequence number seen, and the burst of
    messages in the current interval.  A message is accepted, rejected as
    invalid, or ignored, and gossipsub is told which.

    The clocks are arguments: a [Clock] holds what the calls of
    [SystemTime::now] (nanoseconds since 1970) and [Instant::now] (nanoseconds
    since an arbitrary origin) return during one validation.  Gossipsub is not part of
    the sources: what is asked of it is recorded as a list of commands, and
    what it answers is an argument.  [PeerId], topic hashes and the custom
    validator of a topic are parameters. *)

From S2P Require Import Prelude RustStd Instances.
From Stdlib Require Import ZArith Lia Ascii String.
From stdpp Require Import base sets strings gmap sorting numbers list.

Open Scope Z_scope.

Open Scope rust_scope.

Definition SUBSCRIPTION_TIMEOUT : Z := 60 * 10 ^ 9.

Inductive ValidationError := Invalid (why : string) | Ignored (why : string).

Inductive MessageAcceptance := Accept | Reject | Ignore.

(** [impl From<ValidationError> for MessageAcceptance]. *)
Definition acceptance_of (err : ValidationError) : MessageAcceptance :=
  match err with
  | Invalid _ => Reject
  | Ignored _ => Ignore
  end.

Record Clock := mkClock {
  wall : Z;      (* [SystemTime::now] in [timestamp_now] *)
  at_check : Z;  (* [Instant::now] in [elapsed] *)
  at_reset : Z   (* [Instant::now] that starts an interval *)
}.

(** [Instant::elapsed], which saturates at zero. *)
Definition elapsed (since now : Z) : Z := Z.max 0 (now - since).

Definition timestamp_now {E} (clock : Clock) : res E Z :=
  if in_range 0 u64_max (wall clock) then Ok (wall clock) else Panic.

Record PeerState := mkPeerState { last_seq_no : Z; last_time : Z; burst : Z }.

Definition PeerState_new (clock : Clock) (seq_no : Z) : PeerState :=
  mkPeerState seq_no (at_reset clock) 1.

(** The numeric part of [MsgValidationConfig]; [msg_validator] is kept apart, as
    it is code the user of the topic supplies. *)
Record MsgValidationConfig := mkMsgValidationConfig {
  min_interval : Z;
  max_burst : Z;
  keep_last : Z
}.

Definition MsgValidationConfig_new (min_interval : Z) : MsgValidationConfig :=
  mkMsgValidationConfig min_interval 1 0.

Definition with_max_burst (c : MsgValidationConfig) (n : Z) : MsgValidationConfig :=
  mkMsgValidationConfig (min_interval c) n (keep_last c).

Definition with_keep_last (c : MsgValidationConfig) (n : Z) : MsgValidationConfig :=
  mkMsgValidationConfig (min_interval c) (max_burst c) n.

(** [impl MsgValidator for ()]: what [MsgValidationConfig::new] installs. *)
Definition unit_validator {PeerId} (_peer_id : PeerId) (_seq_no : Z) (_msg : list Z)
  : comp unit ValidationError unit := creturn tt.

Section Pubsub.
  Context `{BuildProfile}.

(** [seq_no == 0 || seq_no > timestamp_now()], which reads the clock only for a
    number that is not zero. *)
Definition bad_seq_no (clock : Clock) (seq_no : Z) : res ValidationError bool :=
  if seq_no =? 0 then Ok true
  else now ← timestamp_now clock; Ok (now <? seq_no).

Definition PeerState_validate_msg (clock : Clock) (seq_no : Z) (config : MsgValidationConfig)
  : comp PeerState ValidationError unit := (
  bad <- clift (bad_seq_no clock seq_no) ;;
  clift (ensure (negb bad) (Invalid "invalid sequence number")) ;;;
  self <- cget ;;
  sum <- clift (add_u64 seq_no (keep_last config)) ;;
  clift (ensure (negb (sum <=? last_seq_no self)) (Ignored "old message")) ;;;
  (if elapsed (last_time self) (at_check clock) <? min_interval config then
     b <- clift (add_u32 (burst self) 1) ;;
     cmodify (fun s => mkPeerState (last_seq_no s) (last_time s) b)
   else
     cmodify (fun s => mkPeerState (last_seq_no s) (at_reset clock) 1)) ;;;
  self <- cget ;;
  clift (ensure (negb (max_burst config <? burst self))
           (Ignored "too many messages within min_interval")) ;;;
  cmodify (fun s => mkPeerState (Z.max (last_seq_no s) seq_no) (last_time s) (burst s)))%rust.

  Context {PeerId : Type} `{Countable PeerId}.
  Context {TopicHash : Type} `{Countable TopicHash} (topic_hash : string -> TopicHash).
  Context {V : Type} (msg_validator : PeerId -> Z -> list Z -> comp V ValidationError unit).

Record TopicState := mkTopicState {
  topic_name : string;
  peer_states : gmap PeerId PeerState;
  validation_config : MsgValidationConfig;
  validator : V;
  subscribed_at : Z
}.

Definition TopicState_new (clock : Clock) (name : string) (config : MsgValidationConfig) (v : V)
  : TopicState :=
  mkTopicState name ∅ config v (at_reset clock).

Definition set_peer_state (t : TopicState) (p : PeerId) (s : PeerState) : TopicState :=
  mkTopicState (topic_name t) (<[p := s]> (peer_states t)) (validation_config t) (validator t)
    (subscribed_at t).

Definition run_validator (peer_id : PeerId) (seq_no : Z) (msg : list Z)
  : comp TopicState ValidationError unit := fun t =>
  let '(r, v) := msg_validator peer_id seq_no msg (validator t) in
  (r, mkTopicState (topic_name t) (peer_states t) (validation_config t) v (subscribed_at t)).

Definition TopicState_validate_msg (clock : Clock) (peer_id : PeerId) (seq_no : Z) (msg : list Z)
  : comp TopicState ValidationError unit := (
  run_validator peer_id seq_no msg ;;;
  fun t =>
    match peer_states t !! peer_id with
    | None => (Ok tt, set_peer_state t peer_id (PeerState_new clock seq_no))
    | Some state =>
      let '(r, state) := PeerState_validate_msg clock seq_no (validation_config t) state in
      (r, set_peer_state t peer_id state)
    end)%rust.

Record PubsubMsg := mkPubsubMsg { pm_peer_id : PeerId; pm_topic : string; pm_data : list Z }.

(** [gossipsub::Message]. *)
Record Message := mkMessage {
  source : option PeerId;
  data : list Z;
  sequence_number : option Z;
  topic : TopicHash
}.

Inductive Command :=
| Subscribe (topic : TopicHash)
| Publish (topic : TopicHash) (msg : list Z)
| Report (message_id : str) (propagation_source : PeerId) (acceptance : MessageAcceptance).

Record PubsubBehaviour := mkPubsubBehaviour {
  inner : list Command;
  topics : gmap TopicHash TopicState
}.

Definition PubsubBehaviour_new : PubsubBehaviour := mkPubsubBehaviour [] ∅.

(** [subscribed] is whether gossipsub's own [subscribe] succeeds. *)
Definition subscribe (subscribed : bool) (clock : Clock) (name : string)
    (config : MsgValidationConfig) (v : V) (b : PubsubBehaviour) : PubsubBehaviour :=
  let hash := topic_hash name in
  match topics b !! hash with
  | Some _ => b
  | None =>
    let cmds := inner b ++ [Subscribe hash] in
    if subscribed then
      mkPubsubBehaviour cmds (<[hash := TopicState_new clock name config v]> (topics b))
    else mkPubsubBehaviour cmds (topics b)
  end.

Definition publish (name : string) (msg : list Z) (b : PubsubBehaviour) : PubsubBehaviour :=
  let hash := topic_hash name in
  match topics b !! hash with
  | None => b
  | Some _ => mkPubsubBehaviour (inner b ++ [Publish hash msg]) (topics b)
  end.

Definition validate_gossipsub_msg (clock : Clock) (msg : Message)
  : comp PubsubBehaviour ValidationError PubsubMsg := (
  peer_id <- clift (ok_or (source msg) (Invalid "anonymous message")) ;;
  seq_no <- clift (ok_or (sequence_number msg) (Invalid "message without sequence number")) ;;
  fun b =>
    match topics b !! topic msg with
    | None => (Err (Invalid "message with unknown topic"), b)
    | Some t =>
      let '(r, t) := TopicState_validate_msg clock peer_id seq_no (data msg) t in
      ((fun _ => mkPubsubMsg peer_id (topic_name t) (data msg)) <$> r,
       mkPubsubBehaviour (inner b) (<[topic msg := t]> (topics b)))
    end)%rust.

(** [gossipsub::Event]: every other variant is ignored. *)
Inductive GossipsubEvent :=
| EventMessage (propagation_source : PeerId) (message_id : str) (message : Message)
| EventOther.

Definition report (id : str) (from : PeerId) (acceptance : MessageAcceptance) (b : PubsubBehaviour)
  : PubsubBehaviour :=
  mkPubsubBehaviour (inner b ++ [Report id from acceptance]) (topics b).

(** The event passed on to the swarm, if any.  [E] is empty: the only other
    outcome is a panic of a clock or of a checked addition. *)
Definition on_inner_event {E} (clock : Clock) (ev : GossipsubEvent)
  : comp PubsubBehaviour E (option PubsubMsg) := fun b =>
  match ev with
  | EventOther => (Ok None, b)
  | EventMessage from id message =>
    match validate_gossipsub_msg clock message b with
    | (Ok msg, b) => (Ok (Some msg), report id from Accept b)
    | (Err e, b) => (Ok None, report id from (acceptance_of e) b)
    | (Panic, b) => (Panic, b)
    end
  end.

(** [msg_id]: the origin, or the peer id of the bytes 0 1 0, then the number. *)
Definition msg_id (to_base58 : PeerId -> str) (anonymous : PeerId) (msg : Message) : str :=
  to_base58 (default anonymous (source msg))
  ++ u64_to_string (default 0 (sequence_number msg)).

(** ** Runs of one topic *)

Record Incoming := mkIncoming {
  in_peer : PeerId; in_seq_no : Z; in_data : list Z; in_clock : Clock
}.

Definition topic_step (m : Incoming) : comp TopicState ValidationError unit :=
  TopicState_validate_msg (in_clock m) (in_peer m) (in_seq_no m) (in_data m).

Fixpoint topic_run (msgs : list Incoming) (t : TopicState)
  : list (res ValidationError unit) * TopicState :=
  match msgs with
  | [] => ([], t)
  | m :: msgs =>
    let '(r, t) := topic_step m t in
    let '(rs, t) := topic_run msgs t in
    (r :: rs, t)
  end.

(** The number of messages of [p] that a run accepted. *)
Fixpoint accepted (p : PeerId) (msgs : list Incoming) (outs : list (res ValidationError unit)) : Z :=
  match msgs, outs with
  | m :: msgs, r :: outs =>
    (if bool_decide (in_peer m = p) && is_ok r then 1 else 0) + accepted p msgs outs
  | _, _ => 0
  end.

End Pubsub.

(** * What the validation of gossipsub messages guarantees

    Replay protection, the rate limit, what gossipsub is told about each
    message, and what the first message of an origin can do. *)

Section PubsubProps.
  Context `{BuildProfile}.

(** The state after a message has been counted against the burst. *)
Definition counted (clock : Clock) (config : MsgValidationConfig) (s s1 : PeerState) : Prop :=
  last_seq_no s1 = last_seq_no s /\
  if elapsed (last_time s) (at_check clock) <? min_interval config then
    add_u32 (E := ValidationError) (burst s) 1 = Ok (burst s1) /\ last_time s1 = last_time s
  else last_time s1 = at_reset clock /\ burst s1 = 1.

Lemma add_u64_le {E} a b x : 0 <= a + b -> add_u64 (E := E) a b = Ok x -> x <= a + b.
Proof.
  unfold add_u64. intros Hab. repeat case_match; intros; simplify_eq; [lia |].
  by apply Z.mod_le.
Qed.

(** The three ways a validation ends: turned down before it counts, counted and
    over the burst, or accepted. *)
Lemma peer_validate_cases clock seq config s r s' :
  0 <= seq -> 0 <= keep_last config ->
  PeerState_validate_msg clock seq config s = (r, s') ->
  (is_ok r = false /\ s' = s) \/
  (exists s1, counted clock config s s1 /\ seq <> 0 /\ seq <= wall clock /\
     last_seq_no s < seq + keep_last config /\
     ((max_burst config < burst s1 /\ is_ok r = false /\ s' = s1) \/
      (burst s1 <= max_burst config /\ r = Ok tt /\
       s' = mkPeerState (Z.max (last_seq_no s) seq) (last_time s1) (burst s1)))).
Proof.
  intros Hseq Hkeep. unfold PeerState_validate_msg, cbind, clift, cget, cmodify, ensure, bad_seq_no.
  destruct (seq =? 0) eqn:E0; cbn -[Z.ltb]; [intros [= <- <-]; by left |].
  unfold timestamp_now. destruct (in_range _ _ _); cbn -[Z.ltb]; [| intros [= <- <-]; by left].
  destruct (wall clock <? seq) eqn:Ew; cbn -[Z.ltb]; [intros [= <- <-]; by left |].
  destruct (add_u64 seq (keep_last config)) as [sum | e |] eqn:Esum;
    cbn -[Z.ltb]; [| intros [= <- <-]; by left ..].
  destruct (sum <=? last_seq_no s) eqn:Eold; cbn -[Z.ltb]; [intros [= <- <-]; by left |].
  assert (sum <= seq + keep_last config) by (apply (add_u64_le (E := ValidationError)); [lia | done]).
  zbool. unfold counted. destruct (elapsed _ _ <? min_interval config) eqn:Eel.
  - destruct (add_u32 (burst s) 1) as [b | e |] eqn:Eb; cbn -[Z.ltb]; [| intros [= <- <-]; by left ..].
    destruct (max_burst config <? b) eqn:Emax; cbn -[Z.ltb]; intros [= <- <-]; zbool; right;
      exists (mkPeerState (last_seq_no s) (last_time s) b); split_and!; try done; try lia.
    + by left.
    + by right.
  - cbn -[Z.ltb]. destruct (max_burst config <? 1) eqn:Emax; cbn -[Z.ltb]; intros [= <- <-]; zbool; right;
      exists (mkPeerState (last_seq_no s) (at_reset clock) 1); split_and!; try done; try lia.
    + by left.
    + by right.
Qed.

  Context {PeerId : Type} `{Countable PeerId}.
  Context {TopicHash : Type} `{Countable TopicHash}.
  Context {V : Type} (msg_validator : PeerId -> Z -> list Z -> comp V ValidationError unit).

Notation TopicState := (@TopicState PeerId _ _ V).
Notation topic_step := (topic_step msg_validator).
Notation topic_run := (topic_run msg_validator).

(** Turned down by the custom validator, first of its origin, or handed to the
    state of its origin. *)
Lemma topic_step_cases (m : Incoming) (t t' : TopicState) r :
  topic_step m t = (r, t') ->
  validation_config t' = validation_config t /\
  ((is_ok r = false /\ peer_states t' = peer_states t) \/
   (peer_states t !! in_peer m = None /\ r = Ok tt /\
    peer_states t' = <[in_peer m := PeerState_new (in_clock m) (in_seq_no m)]> (peer_states t)) \/
   (exists s s', peer_states t !! in_peer m = Some s /\
      PeerState_validate_msg (in_clock m) (in_seq_no m) (validation_config t) s = (r, s') /\
      peer_states t' = <[in_peer m := s']> (peer_states t))).
Proof.
  unfold Pubsub.topic_step, TopicState_validate_msg, cbind, run_validator.
  destruct (msg_validator _ _ _ (validator t)) as [[[] | e |] v]; cbn -[PeerState_validate_msg].
  - destruct (peer_states t !! in_peer m) as [s |] eqn:Es; cbn -[PeerState_validate_msg].
    + destruct (PeerState_validate_msg (in_clock m) (in_seq_no m) (validation_config t) s) as [r' s'] eqn:Ev.
      intros [= <- <-].
      split; [done |]. right; right. by exists s, s'.
    + intros [= <- <-]. split; [done |]. by right; left.
  - intros [= <- <-]. split; [done |]. by left.
  - intros [= <- <-]. split; [done |]. by left.
Qed.

Definition incoming_ok (m : Incoming (PeerId := PeerId)) : Prop := 0 <= in_seq_no m.

(** A topic never forgets how far an origin has got. *)
Definition reached (t : TopicState) (p : PeerId) (n : Z) : Prop :=
  exists s, peer_states t !! p = Some s /\ n <= last_seq_no s.

Lemma topic_step_reached m (t t' : TopicState) r p n :
  incoming_ok m -> 0 <= keep_last (validation_config t) ->
  topic_step m t = (r, t') -> reached t p n -> reached t' p n.
Proof.
  intros Hm Hk Hs (s & Hl & Hn). apply topic_step_cases in Hs as (_ & Hc). unfold reached.
  destruct Hc as [(_ & ->) | [(Hnone & _ & ->) | (q & q' & Hq & Hv & ->)]].
  - by exists s.
  - exists s. by rewrite lookup_insert_ne by congruence.
  - destruct (decide (in_peer m = p)) as [<- | Hne];
      [| exists s; by rewrite lookup_insert_ne by done].
    rewrite lookup_insert_eq. exists q'. split; [done |]. simplify_eq.
    apply peer_validate_cases in Hv as [(_ & ->) | (s1 & (Hseq & _) & _ & _ & _ & Hc)]; [done | |done..].
    destruct Hc as [(_ & _ & ->) | (_ & _ & ->)]; cbn; lia.
Qed.

Lemma topic_step_accepts m (t t' : TopicState) :
  incoming_ok m -> 0 <= keep_last (validation_config t) -> topic_step m t = (Ok tt, t') ->
  reached t' (in_peer m) (in_seq_no m) /\
  (forall n, reached t (in_peer m) n ->
     n < in_seq_no m + keep_last (validation_config t) /\ in_seq_no m <= wall (in_clock m)).
Proof.
  intros Hm Hk Hs. apply topic_step_cases in Hs as (_ & Hc). unfold reached.
  destruct Hc as [(? & _) | [(Hnone & _ & ->) | (q & q' & Hq & Hv & ->)]]; [done | |].
  - rewrite lookup_insert_eq. split; [eexists; split; [done | cbn; lia] |].
    intros n (s & Hs & _). congruence.
  - rewrite lookup_insert_eq.
    apply peer_validate_cases in Hv as [(? & _) | (s1 & _ & _ & Hw & Hlt & Hc)]; [done | |done..].
    destruct Hc as [(_ & ? & _) | (_ & _ & ->)]; [done |].
    split; [eexists; split; [done | cbn; lia] |]. intros n (s & Hs & Hn). simplify_eq. lia.
Qed.

Lemma topic_step_config m (t t' : TopicState) r :
  topic_step m t = (r, t') -> validation_config t' = validation_config t.
Proof. intros Hs. by apply topic_step_cases in Hs as (? & _). Qed.

(** Every message of [p] accepted later than a point beats what was reached there. *)
Lemma topic_run_reached msgs (t t' : TopicState) outs p n j b :
  Forall incoming_ok msgs -> 0 <= keep_last (validation_config t) ->
  topic_run msgs t = (outs, t') -> reached t p n ->
  msgs !! j = Some b -> outs !! j = Some (Ok tt) -> in_peer b = p ->
  n < in_seq_no b + keep_last (validation_config t) /\ in_seq_no b <= wall (in_clock b).
Proof.
  revert t outs j. induction msgs as [| m msgs IH]; intros t outs j Hall Hk Hrun Hr Hj Ho Hp; [done |].
  apply Forall_cons in Hall as [Hm Hall]. cbn in Hrun.
  destruct (topic_step m t) as [r t1] eqn:Hs. destruct (topic_run msgs t1) as [rs t2] eqn:Hrest.
  injection Hrun as <- <-. destruct j as [| j]; cbn in Hj, Ho.
  - simplify_eq. by apply (topic_step_accepts b t t1).
  - rewrite <- (topic_step_config m t t1 r) by done.
    eapply IH; try done; [by rewrite (topic_step_config m t t1 r) |].
    by eapply topic_step_reached.
Qed.

(** C14: a topic accepts no replay.  Of two messages of the same origin that a
    topic accepts, the later one's sequence number, plus [keep_last], exceeds
    the earlier one's; with the default [keep_last] of zero the accepted
    numbers of an origin ascend strictly.  It holds whatever the custom
    validator, the clocks and the messages in between, and also when
    [seq_no + keep_last] overflows. *)
Theorem accepted_seq_no_ascend (msgs : list Incoming) (t : TopicState) i j a b :
  Forall incoming_ok msgs -> 0 <= keep_last (validation_config t) ->
  let outs := fst (topic_run msgs t) in
  (i < j)%nat -> msgs !! i = Some a -> msgs !! j = Some b -> in_peer a = in_peer b ->
  outs !! i = Some (Ok tt) -> outs !! j = Some (Ok tt) ->
  in_seq_no a < in_seq_no b + keep_last (validation_config t).
Proof.
  intros Hall Hk outs Hij Hi Hj Hp Hoi Hoj. subst outs.
  revert t i j Hk Hij Hi Hj Hoi Hoj.
  induction msgs as [| m msgs IH]; intros t i j Hk Hij Hi Hj Hoi Hoj; [done |].
  apply Forall_cons in Hall as [Hm Hall]. cbn in Hoi, Hoj.
  destruct (topic_step m t) as [r t1] eqn:Hs. destruct (topic_run msgs t1) as [rs t2] eqn:Hrest.
  destruct j as [| j]; [lia |]. pose proof (topic_step_config m t t1 r Hs) as Hc.
  destruct i as [| i]; cbn in *; simplify_eq.
  - destruct (topic_step_accepts a t t1) as [Hr _]; [done.. |]. rewrite <- Hc.
    by apply (topic_run_reached msgs t1 t2 rs (in_peer a) (in_seq_no a) j b); rewrite ?Hc.
  - rewrite <- Hc. apply (IH Hall t1 i j); rewrite ?Hc, ?Hrest; [done | lia | done..].
Qed.

(** ** The rate limit *)

(** The clock readings of a message fall into the interval that starts at [t0]. *)
Definition in_window (t0 : Z) (config : MsgValidationConfig) (m : Incoming (PeerId := PeerId)) : Prop :=
  t0 <= at_check (in_clock m) < t0 + min_interval config /\ t0 <= at_reset (in_clock m).

(** How many more messages of an origin can be accepted within the interval: what
    is left of the running burst, and a whole one if it began before. *)
Definition budget (t0 : Z) (config : MsgValidationConfig) (o : option PeerState) : Z :=
  match o with
  | None => max_burst config
  | Some s =>
    Z.max 0 (max_burst config - burst s) + (if t0 <=? last_time s then 0 else max_burst config)
  end.

Definition cost (r : res ValidationError unit) : Z := if is_ok r then 1 else 0.

(** The burst counters are [k] messages away from overflowing. *)
Definition bursts_ok (k : Z) (t : TopicState) : Prop :=
  1 + k < 2 ^ 32 /\ forall p s, peer_states t !! p = Some s -> 1 <= burst s /\ burst s + k < 2 ^ 32.

Lemma add_u32_Ok {E} a b x : a + b < 2 ^ 32 -> add_u32 (E := E) a b = Ok x -> x = a + b.
Proof. unfold add_u32. intros ?. rewrite (proj2 (Z.ltb_lt _ _)) by done. congruence. Qed.

Lemma peer_validate_budget t0 m config s r s' :
  incoming_ok m -> 0 <= keep_last config -> 1 <= max_burst config -> in_window t0 config m ->
  1 <= burst s -> burst s + 1 < 2 ^ 32 ->
  PeerState_validate_msg (in_clock m) (in_seq_no m) config s = (r, s') ->
  cost r + budget t0 config (Some s') <= budget t0 config (Some s).
Proof.
  intros Hm Hk Hmax Hwin Hb1 Hb2 Hv. unfold cost.
  apply peer_validate_cases in Hv as [(Hr & ->) | (s1 & Hc & _ & _ & _ & Hout)];
    [rewrite Hr; lia | | done..].
  destruct Hc as [Hseq Hc]. unfold in_window, elapsed in *.
  destruct (_ <? min_interval config) eqn:Hel; zbool; destruct Hc as [Hc1 Hc2].
  - apply add_u32_Ok in Hc1; [| done].
    destruct Hout as [(Hlt & -> & ->) | (Hle & -> & ->)]; cbn; rewrite Hc1, Hc2 in *; lia.
  - destruct Hout as [(Hlt & -> & ->) | (Hle & -> & ->)]; [lia |]. cbn. rewrite Hc1, Hc2.
    rewrite (proj2 (Z.leb_le t0 (at_reset _))) by lia.
    rewrite (proj2 (Z.leb_gt t0 (last_time s))) by lia. lia.
Qed.

Lemma peer_validate_burst clock seq config s r s' k :
  0 <= seq -> 0 <= keep_last config -> 0 <= k -> 1 <= burst s -> burst s + (1 + k) < 2 ^ 32 ->
  PeerState_validate_msg clock seq config s = (r, s') ->
  1 <= burst s' /\ burst s' + k < 2 ^ 32.
Proof.
  intros Hs Hk Hk0 Hb1 Hb2 Hv.
  apply peer_validate_cases in Hv as [(_ & ->) | (s1 & [_ Hc] & _ & _ & _ & Hout)]; [lia | | done..].
  assert (1 <= burst s1 /\ burst s1 + k < 2 ^ 32) as Hgoal.
  { destruct (_ <? min_interval config); destruct Hc as [Hc1 Hc2]; [| lia].
    apply add_u32_Ok in Hc1; lia. }
  by destruct Hout as [(_ & _ & ->) | (_ & _ & ->)].
Qed.

Lemma topic_step_bursts m (t t' : TopicState) r k :
  incoming_ok m -> 0 <= keep_last (validation_config t) -> 0 <= k ->
  topic_step m t = (r, t') -> bursts_ok (1 + k) t -> bursts_ok k t'.
Proof.
  intros Hm Hk Hk0 Hs [Hmax Hb]. split; [lia |]. intros p s.
  apply topic_step_cases in Hs as (_ & [(_ & ->) | [(_ & _ & ->) | (q & q' & Hq & Hv & ->)]]).
  - intros Hs. destruct (Hb p s Hs). lia.
  - intros [(<- & <-) | (_ & Hs)]%lookup_insert_Some; [cbn; lia |]. destruct (Hb p s Hs). lia.
  - intros [(<- & <-) | (_ & Hs)]%lookup_insert_Some; [| destruct (Hb p s Hs); lia].
    destruct (Hb _ q Hq).
    by apply (peer_validate_burst (in_clock m) (in_seq_no m) (validation_config t) q r q' k).
Qed.

Lemma topic_run_bursts msgs (t t' : TopicState) outs k :
  Forall incoming_ok msgs -> 0 <= keep_last (validation_config t) -> 0 <= k ->
  topic_run msgs t = (outs, t') -> bursts_ok (Z.of_nat (length msgs) + k) t ->
  bursts_ok k t' /\ validation_config t' = validation_config t.
Proof.
  revert t outs. induction msgs as [| m msgs IH]; intros t outs Hall Hk Hk0 Hrun Hb; cbn in Hrun.
  { by injection Hrun as <- <-. }
  apply Forall_cons in Hall as [Hm Hall].
  destruct (topic_step m t) as [r t1] eqn:Hs. destruct (topic_run msgs t1) as [rs t2] eqn:Hrest.
  injection Hrun as <- <-. rewrite <- (topic_step_config m t t1 r Hs) in *.
  apply (IH t1 rs); try done. apply (topic_step_bursts m t t1 r); [done | | lia | done |].
  - by rewrite <- (topic_step_config m t t1 r Hs).
  - cbn [length] in Hb. replace (1 + _) with (Z.of_nat (S (length msgs)) + k) by lia. done.
Qed.

(** A message of the interval pays for itself out of the budget of its origin,
    and leaves the budget of the others alone. *)
Lemma topic_step_budget t0 m (t t' : TopicState) r p k :
  incoming_ok m -> 0 <= keep_last (validation_config t) ->
  1 <= max_burst (validation_config t) -> in_window t0 (validation_config t) m -> 0 <= k ->
  bursts_ok (1 + k) t -> topic_step m t = (r, t') ->
  (if bool_decide (in_peer m = p) then cost r else 0)
    + budget t0 (validation_config t) (peer_states t' !! p)
  <= budget t0 (validation_config t) (peer_states t !! p).
Proof.
  intros Hm Hk Hmax Hwin Hk0 [_ Hb] Hs. apply topic_step_cases in Hs as (_ & Hc).
  destruct Hc as [(Hr & ->) | [(Hnone & -> & ->) | (s & s' & Hs & Hv & ->)]].
  - unfold cost. rewrite Hr. case_bool_decide; lia.
  - case_bool_decide as Hp; [| rewrite lookup_insert_ne by done; lia].
    rewrite <- Hp, lookup_insert_eq, Hnone. cbn. unfold in_window in Hwin.
    rewrite (proj2 (Z.leb_le t0 (at_reset _))) by lia. lia.
  - case_bool_decide as Hp; [| rewrite lookup_insert_ne by done; lia].
    rewrite <- Hp, lookup_insert_eq, Hs. destruct (Hb _ _ Hs).
    apply (peer_validate_budget t0 m); try done. lia.
Qed.

Lemma topic_run_budget t0 msgs (t t' : TopicState) outs p :
  Forall incoming_ok msgs -> 0 <= keep_last (validation_config t) ->
  1 <= max_burst (validation_config t) -> Forall (in_window t0 (validation_config t)) msgs ->
  bursts_ok (Z.of_nat (length msgs)) t -> topic_run msgs t = (outs, t') ->
  accepted p msgs outs <= budget t0 (validation_config t) (peer_states t !! p).
Proof.
  revert t outs. induction msgs as [| m msgs IH]; intros t outs Hall Hk Hmax Hwin Hb Hrun.
  { cbn. unfold budget. repeat case_match; lia. }
  apply Forall_cons in Hall as [Hm Hall]. apply Forall_cons in Hwin as [Hw Hwin]. cbn in Hrun.
  destruct (topic_step m t) as [r t1] eqn:Hs. destruct (topic_run msgs t1) as [rs t2] eqn:Hrest.
  injection Hrun as <- <-. pose proof (topic_step_config m t t1 r Hs) as Hc.
  assert (bursts_ok (1 + Z.of_nat (length msgs)) t) as Hb'.
  { replace (1 + _) with (Z.of_nat (length (m :: msgs))) by (cbn [length]; lia). done. }
  assert (bursts_ok (Z.of_nat (length msgs)) t1) by (eapply topic_step_bursts; try done; lia).
  pose proof (topic_step_budget t0 m t t1 r p (Z.of_nat (length msgs)) Hm Hk Hmax Hw
                ltac:(lia) Hb' Hs) as Hstep.
  specialize (IH t1 rs Hall). rewrite Hc in IH. specialize (IH Hk Hmax Hwin ltac:(done) Hrest).
  cbn [accepted]. unfold cost in Hstep. case_bool_decide; cbn [andb]; lia.
Qed.

(** C15: A topic enforces a rate limit.  Of the messages a fresh topic receives, at
    most [2 ^ 32 - 2] of them (the range of the burst counter), with a [max_burst] of
    at least one, any stretch whose clock readings lie within one [min_interval]
    contains at most [2 * max_burst - 1] accepted messages of the same origin:
    exactly one under the default [max_burst] of one.  The bound is reached, so it is
    not the [max_burst] per [min_interval] that the configuration documents. *)
Theorem rate_limit clock name config v (before window : list Incoming) t0 p :
  let t := TopicState_new clock name config v in
  Forall incoming_ok (before ++ window) -> 0 <= keep_last config -> 1 <= max_burst config ->
  Z.of_nat (length (before ++ window)) < 2 ^ 32 - 1 -> Forall (in_window t0 config) window ->
  accepted p window (fst (topic_run window (snd (topic_run before t)))) <= 2 * max_burst config - 1.
Proof.
  intros t Hall Hk Hmax Hlen Hwin. apply Forall_app in Hall as [Hall1 Hall2].
  rewrite length_app in Hlen. destruct (topic_run before t) as [outs1 t1] eqn:Hr1. cbn [snd].
  destruct (topic_run window t1) as [outs2 t2] eqn:Hr2. cbn [fst].
  destruct (topic_run_bursts before t t1 outs1 (Z.of_nat (length window))) as [Hb Hc];
    [done | done | lia | done | |].
  { split; [lia |]. intros q s. cbn. by rewrite lookup_empty. }
  pose proof (topic_run_budget t0 window t1 t2 outs2 p) as Hbud. rewrite Hc in Hbud.
  specialize (Hbud Hall2 Hk Hmax Hwin Hb Hr2). etrans; [exact Hbud |]. cbn.
  destruct (peer_states t1 !! p) as [s |] eqn:Hs; cbn; [| lia].
  destruct (proj2 Hb p s Hs). case_match; lia.
Qed.

(** ** What gossipsub is told *)

Lemma topic_validate_name clock p n d (t t' : TopicState) r :
  TopicState_validate_msg msg_validator clock p n d t = (r, t') -> topic_name t' = topic_name t.
Proof.
  unfold TopicState_validate_msg, cbind, run_validator.
  destruct (msg_validator p n d (validator t)) as [[[] | e |] v];
    [| by intros [= <- <-] ..].
  case_match; [| by intros [= <- <-]]. case_match. by intros [= <- <-].
Qed.

Lemma acceptance_of_not_accept e : acceptance_of e <> Accept.
Proof. by destruct e. Qed.

(** every gossipsub message gets exactly one verdict, for the message id and
    the peer it came from.  It is passed on to the swarm if and only if the
    verdict is [Accept], with the origin, the data and the name of the topic it
    was sent to; an anonymous message, one without a sequence number and one for
    an unknown topic is rejected and changes no topic; no other topic ever
    changes. *)
Theorem one_verdict_per_message {E} clock from id (m : Message) (b b' : PubsubBehaviour) out :
  on_inner_event (TopicHash := TopicHash) msg_validator (E := E) clock (EventMessage from id m) b
    = (Ok out, b') ->
  exists verdict,
    inner b' = inner b ++ [Report id from verdict] /\
    (is_Some out <-> verdict = Accept) /\
    (forall msg, out = Some msg ->
       source m = Some (pm_peer_id msg) /\ pm_data msg = data m /\
       topic_name <$> topics b !! topic m = Some (pm_topic msg)) /\
    (source m = None \/ sequence_number m = None \/ topics b !! topic m = None ->
       verdict = Reject /\ topics b' = topics b) /\
    (forall h, h <> topic m -> topics b' !! h = topics b !! h).
Proof.
  unfold on_inner_event, validate_gossipsub_msg, cbind, clift.
  destruct (source m) as [p |]; cbn [ok_or]; [| intros [= <- <-]; exists Reject; naive_solver].
  destruct (sequence_number m) as [n |]; cbn [ok_or];
    [| intros [= <- <-]; exists Reject; naive_solver].
  destruct (topics b !! topic m) as [t |]; [| intros [= <- <-]; exists Reject; naive_solver].
  destruct (TopicState_validate_msg _ _ _ _ _ t) as [r t'] eqn:Hv.
  assert (topic_name t' = topic_name t) as Hname by apply (topic_validate_name _ _ _ _ _ _ _ Hv).
  destruct r as [[] | e |]; cbn; intros [= <- <-].
  - exists Accept. split_and!; [done | done | | naive_solver |].
    + intros msg [= <-]. by rewrite Hname.
    + intros h Hh. cbn. by rewrite lookup_insert_ne.
  - exists (acceptance_of e). pose proof (acceptance_of_not_accept e).
    split_and!; [done | | done | naive_solver |].
    + split; [by intros [] | done].
    + intros h Hh. cbn. by rewrite lookup_insert_ne.
Qed.

End PubsubProps.

(** ** The first message of an origin *)

(** C39: With the validator that accepts every payload, the first message a fresh
    topic gets is accepted whatever its sequence number, zero and numbers from the future included, contrary to the check every later
    one meets; and a first number ahead of the clock makes the topic turn down
    every later message of that origin until the clock, plus [keep_last], has
    passed it. *)
Theorem first_message_is_unchecked `{BuildProfile, Countable PeerId} clock name config
    (m : Incoming (PeerId := PeerId)) msgs :
  0 <= keep_last config ->
  let t := TopicState_new clock name config tt in
  let outs := fst (topic_run unit_validator (m :: msgs) t) in
  outs !! 0%nat = Some (Ok tt) /\
  (Forall incoming_ok msgs ->
   forall j later, msgs !! j = Some later -> in_peer later = in_peer m ->
     wall (in_clock later) + keep_last config <= in_seq_no m ->
     outs !! S j <> Some (Ok tt)).
Proof.
  intros Hk t outs. subst outs. cbn [topic_run].
  destruct (topic_step unit_validator m t) as [r t1] eqn:Hs. pose proof Hs as Hs'.
  cbn in Hs. rewrite lookup_empty in Hs. cbn in Hs. injection Hs as <- <-.
  set (t1 := set_peer_state _ _ _) in *.
  destruct (topic_run unit_validator msgs t1) as [rs t2] eqn:Hrun. split; [done |].
  intros Hall j later Hj Hp Hw Hacc. cbn in Hacc.
  assert (reached t1 (in_peer later) (in_seq_no m)) as Hr.
  { rewrite Hp. exists (PeerState_new (in_clock m) (in_seq_no m)). subst t1. cbn.
    rewrite lookup_insert_eq. split; [done | cbn; lia]. }
  pose proof (topic_run_reached unit_validator msgs t1 t2 rs (in_peer later) (in_seq_no m) j later
                Hall Hk Hrun Hr Hj Hacc eq_refl) as [H1 H2].
  cbn in H1. lia.
Qed.

(** ** Witnesses *)

Definition demo_clock (at_ : Z) : Clock := mkClock (10 ^ 18 + at_) at_ at_.

Definition demo_config : MsgValidationConfig := with_max_burst (MsgValidationConfig_new 1000) 2.

Definition demo_msgs : list (Incoming (PeerId := Z)) :=
  [mkIncoming 1 50 [] (demo_clock 0); mkIncoming 2 7 [] (demo_clock 10);
   mkIncoming 1 50 [] (demo_clock 20); mkIncoming 1 51 [] (demo_clock 995);
   mkIncoming 1 60 [] (demo_clock 1000); mkIncoming 1 61 [] (demo_clock 1001);
   mkIncoming 1 62 [] (demo_clock 1002)].

#[local] Existing Instance debug_profile.

Definition demo_topic : TopicState (PeerId := Z) :=
  TopicState_new (demo_clock 0) "pings" demo_config tt.

Lemma demo_msgs_ok : Forall incoming_ok demo_msgs.
Proof. repeat constructor; unfold incoming_ok; cbn; lia. Qed.

Lemma demo_outs :
  is_ok <$> fst (topic_run unit_validator demo_msgs demo_topic)
  = [true; true; false; true; true; true; false].
Proof. reflexivity. Qed.

Lemma accepted_seq_no_ascend_witness :
  fst (topic_run unit_validator demo_msgs demo_topic) !! 0%nat = Some (Ok tt) /\
  fst (topic_run unit_validator demo_msgs demo_topic) !! 3%nat = Some (Ok tt) /\ 50 < 51 + 0.
Proof.
  split; [reflexivity |]. split; [reflexivity |].
  exact (accepted_seq_no_ascend unit_validator demo_msgs demo_topic 0 3
           (mkIncoming 1 50 [] (demo_clock 0)) (mkIncoming 1 51 [] (demo_clock 995))
           demo_msgs_ok (Z.le_refl 0) ltac:(lia) eq_refl eq_refl eq_refl eq_refl eq_refl).
Defined.

(** The bound is reached: of the four messages within one interval, one ends the
    first burst of two and two are the next burst. *)
Lemma rate_limit_witness :
  accepted 1 (drop 3 demo_msgs)
    (fst (topic_run unit_validator (drop 3 demo_msgs)
            (snd (topic_run unit_validator (take 3 demo_msgs) demo_topic)))) = 3 /\
  accepted 1 (drop 3 demo_msgs)
    (fst (topic_run unit_validator (drop 3 demo_msgs)
            (snd (topic_run unit_validator (take 3 demo_msgs) demo_topic))))
  <= 2 * max_burst demo_config - 1.
Proof.
  split; [reflexivity |].
  apply (rate_limit unit_validator (demo_clock 0) "pings" demo_config tt (take 3 demo_msgs)
           (drop 3 demo_msgs) 995 1).
  - exact demo_msgs_ok.
  - cbn. lia.
  - cbn. lia.
  - cbn. lia.
  - repeat constructor; cbn; lia.
Defined.

Definition demo_behaviour : PubsubBehaviour (PeerId := Z) (TopicHash := string) :=
  subscribe (fun name => name) true (demo_clock 0) "pings" demo_config tt PubsubBehaviour_new.

Definition demo_message (seq : Z) : Message (PeerId := Z) (TopicHash := string) :=
  mkMessage (Some 1) [42] (Some seq) "pings".

Lemma one_verdict_per_message_witness :
  exists out b' verdict,
    on_inner_event unit_validator (E := Empty_set) (demo_clock 5)
      (EventMessage 9 (lit "id") (demo_message 50)) demo_behaviour = (Ok out, b') /\
    inner b' = inner demo_behaviour ++ [Report (lit "id") 9 verdict] /\
    (is_Some out <-> verdict = Accept).
Proof.
  set (run := on_inner_event unit_validator (E := Empty_set) (demo_clock 5)
                (EventMessage 9 (lit "id") (demo_message 50)) demo_behaviour).
  assert (run = (Ok (Some (mkPubsubMsg 1 "pings" [42])), snd run)) as Hrun by reflexivity.
  destruct (one_verdict_per_message unit_validator _ _ _ _ _ _ _ Hrun) as (verdict & H1 & H2 & _).
  exists (Some (mkPubsubMsg 1 "pings" [42])), (snd run), verdict. split; [exact Hrun | by split].
Defined.

Lemma first_message_is_unchecked_witness :
  fst (topic_run unit_validator
         [mkIncoming 1 u64_max [] (demo_clock 0); mkIncoming 1 (10 ^ 18) [] (demo_clock 5000)]
         demo_topic) !! 1%nat <> Some (Ok tt).
Proof.
  apply (first_message_is_unchecked (demo_clock 0) "pings" demo_config
           (mkIncoming 1 u64_max [] (demo_clock 0)) [mkIncoming 1 (10 ^ 18) [] (demo_clock 5000)])
    with (j := 0%nat) (later := mkIncoming 1 (10 ^ 18) [] (demo_clock 5000)).
  - cbn. lia.
  - repeat constructor. unfold incoming_ok. cbn. lia.
  - reflexivity.
  - reflexivity.
  - vm_compute. congruence.
Defined.
