(* ===== verification/Whitelist.v ===== *)
(** * The whitelist of registered nodes
    (crates/transport/src/behaviour/node_whitelist.rs, [NetworkNodes] of
    crates/contract-client/src/client.rs)

    [WhitelistBehavior] keeps libp2p's allow list in step with the nodes
    registered on chain.  The allow list itself is libp2p's
    [allow_block_list::Behaviour], an interface here: what the code relies on is
    that it is a set of peers. *)

From S2P Require Import Prelude.
From Stdlib Require Import ZArith Lia.
From stdpp Require Import base sets gmap numbers list.

(** [allow_block_list::Behaviour<AllowedPeers>]. *)
Class AllowList (PeerId : Type) `{Countable PeerId} := {
  Allow : Type;
  allow_default : Allow;
  allow_list_add : PeerId -> Allow -> Allow;
  allow_list_remove : PeerId -> Allow -> Allow;
  allowed : Allow -> gset PeerId
}.

Class AllowListLaws (PeerId : Type) `{AllowList PeerId} := {
  allowed_default : allowed allow_default = ∅;
  allowed_add p a : allowed (allow_list_add p a) = {[p]} ∪ allowed a;
  allowed_remove p a : allowed (allow_list_remove p a) = allowed a ∖ {[p]}
}.

Section Whitelist.
  Context {PeerId : Type} `{AllowList PeerId}.
  Context {ClientError : Type}.

Record NetworkNodes := mkNetworkNodes { portals : gset PeerId; workers : gset PeerId }.

Definition all (nodes : NetworkNodes) : gset PeerId := portals nodes ∪ workers nodes.

Record WhitelistBehavior := mkWhitelistBehavior {
  allow : Allow;
  registered_nodes : gset PeerId
}.

Definition WhitelistBehavior_new : WhitelistBehavior := mkWhitelistBehavior allow_default ∅.

Definition whitelist_size (w : WhitelistBehavior) : nat := size (registered_nodes w).

Definition allow_peer (p : PeerId) (w : WhitelistBehavior) : WhitelistBehavior :=
  mkWhitelistBehavior (allow_list_add p (allow w)) (registered_nodes w).

Definition disallow_peer (p : PeerId) (w : WhitelistBehavior) : WhitelistBehavior :=
  mkWhitelistBehavior (allow_list_remove p (allow w)) (registered_nodes w).

Definition on_nodes_update (result : res ClientError NetworkNodes) (w : WhitelistBehavior)
  : option NetworkNodes * WhitelistBehavior :=
  match result with
  | Ok nodes =>
    let all_nodes := all nodes in
    if bool_decide (all_nodes = registered_nodes w) then (None, w)
    else
      let a := foldl (fun a p => allow_list_remove p a) (allow w)
                 (elements (registered_nodes w ∖ all_nodes)) in
      let a := foldl (fun a p => allow_list_add p a) a
                 (elements (all_nodes ∖ registered_nodes w)) in
      (Some nodes, mkWhitelistBehavior a all_nodes)
  | _ => (None, w)
  end.

(** [BehaviourWrapper::poll]: [None] for [Poll::Pending], else the event that is
    passed on, if any. *)
Definition whitelist_poll (next : option (res ClientError NetworkNodes)) (w : WhitelistBehavior)
  : option (option NetworkNodes) * WhitelistBehavior :=
  match next with
  | Some result => let '(ev, w) := on_nodes_update result w in (Some ev, w)
  | None => (None, w)
  end.

(** ** The registry the whitelist follows *)

Definition updates (us : list (res ClientError NetworkNodes)) (w : WhitelistBehavior)
  : WhitelistBehavior :=
  foldl (fun w u => snd (on_nodes_update u w)) w us.

(** The last node set that was read, and every node ever read. *)
Fixpoint current (us : list (res ClientError NetworkNodes)) (init : gset PeerId) : gset PeerId :=
  match us with
  | [] => init
  | Ok nodes :: us => current us (all nodes)
  | _ :: us => current us init
  end.

Fixpoint ever (us : list (res ClientError NetworkNodes)) : gset PeerId :=
  match us with
  | [] => ∅
  | Ok nodes :: us => all nodes ∪ ever us
  | _ :: us => ever us
  end.

  Context `{!AllowListLaws PeerId}.

Lemma allowed_foldl_add l a :
  allowed (foldl (fun a p => allow_list_add p a) a l) = list_to_set l ∪ allowed a.
Proof.
  revert a. induction l as [| p l IH]; intros a; cbn; [set_solver |].
  rewrite IH, allowed_add. set_solver.
Qed.

Lemma allowed_foldl_remove l a :
  allowed (foldl (fun a p => allow_list_remove p a) a l) = allowed a ∖ list_to_set l.
Proof.
  revert a. induction l as [| p l IH]; intros a; cbn; [set_solver |].
  rewrite IH, allowed_remove. set_solver.
Qed.

(** What an update that changes the node set does to the allow list. *)
Lemma on_nodes_update_allowed nodes w :
  allowed (allow (snd (on_nodes_update (Ok nodes) w)))
  = (allowed (allow w) ∖ (registered_nodes w ∖ all nodes)) ∪ (all nodes ∖ registered_nodes w).
Proof.
  cbn. case_bool_decide as Hall; cbn.
  - rewrite Hall. set_solver.
  - rewrite allowed_foldl_add, allowed_foldl_remove, !list_to_set_elements_L. set_solver.
Qed.

Lemma on_nodes_update_registered nodes w :
  registered_nodes (snd (on_nodes_update (Ok nodes) w)) = all nodes.
Proof. cbn. by case_bool_decide. Qed.

(** The whitelist while updates arrive: [seen] are the nodes registered so far,
    [manual] the peers allowed by hand. *)
Definition follows (manual seen : gset PeerId) (w : WhitelistBehavior) : Prop :=
  registered_nodes w ⊆ seen /\
  allowed (allow w) = registered_nodes w ∪ (manual ∖ seen).

Lemma follows_update manual seen nodes w :
  follows manual seen w -> follows manual (seen ∪ all nodes) (snd (on_nodes_update (Ok nodes) w)).
Proof.
  intros [Hsub Hal]. unfold follows. rewrite on_nodes_update_registered, on_nodes_update_allowed, Hal.
  split; [set_solver |]. apply set_eq. intros x.
  destruct (decide (x ∈ registered_nodes w)), (decide (x ∈ all nodes)); set_solver.
Qed.

Lemma updates_follow us manual seen w :
  follows manual seen w ->
  follows manual (seen ∪ ever us) (updates us w) /\
  registered_nodes (updates us w) = current us (registered_nodes w).
Proof.
  revert seen w. induction us as [| u us IH]; intros seen w Hw; cbn.
  { split; [| done]. by rewrite (right_id_L ∅ (∪)). }
  destruct u as [nodes | e |]; [| by apply IH ..].
  destruct (IH (seen ∪ all nodes) (snd (on_nodes_update (Ok nodes) w))) as [Hf Hr];
    [by apply follows_update |].
  rewrite on_nodes_update_registered in Hr. rewrite (assoc_L (∪)). by split.
Qed.

(** after any number of chain reads, failed ones included, the peers let
    through are exactly the nodes of the last successful read and the peers
    allowed by hand at start (the boot nodes) that were never registered. *)
Theorem whitelist_follows_registry (boot : list PeerId) us :
  let w := updates us (foldl (fun w p => allow_peer p w) WhitelistBehavior_new boot) in
  registered_nodes w = current us ∅ /\
  allowed (allow w) = current us ∅ ∪ (list_to_set boot ∖ ever us).
Proof.
  cbn zeta. set (w0 := foldl _ _ boot).
  assert (follows (list_to_set boot) ∅ w0 /\ registered_nodes w0 = ∅) as [Hw0 Hr0].
  { assert (allow w0 = foldl (fun a p => allow_list_add p a) allow_default boot
            /\ registered_nodes w0 = ∅) as [Ha Hr].
    { subst w0. unfold WhitelistBehavior_new. generalize allow_default as a.
      induction boot as [| p boot IH]; intros a; [done |]. apply IH. }
    unfold follows. rewrite Ha, Hr, allowed_foldl_add, allowed_default. set_solver. }
  destruct (updates_follow us (list_to_set boot) ∅ w0 Hw0) as [[_ Hal] Hr].
  rewrite Hal, Hr, Hr0. split; [done |]. by rewrite (left_id_L ∅ (∪)).
Qed.

(** An update is passed on to the rest of the node only when the set of all
    registered nodes changes: one that only moves a node between the two
    registries is swallowed, so that the set of registered workers kept by
    [BaseBehaviour] stays the old one. *)
Lemma role_change_is_swallowed (nodes nodes' : NetworkNodes) w :
  registered_nodes w = all nodes -> all nodes' = all nodes ->
  on_nodes_update (Ok nodes') w = (None, w).
Proof. intros Hr Ha. cbn. by rewrite bool_decide_eq_true_2 by congruence. Qed.

End Whitelist.

(** ** The allow list as a set *)
Definition set_allow_list `{Countable PeerId} : AllowList PeerId := {|
  Allow := gset PeerId;
  allow_default := ∅;
  allow_list_add p a := {[p]} ∪ a;
  allow_list_remove p a := a ∖ {[p]};
  allowed a := a
|}.

#[local] Existing Instance set_allow_list.

Lemma set_allow_list_laws `{Countable PeerId} : AllowListLaws PeerId.
Proof. by split. Qed.

Lemma whitelist_follows_registry_witness :
  allowed (allow (updates (ClientError := unit)
                    [Ok (mkNetworkNodes {[1%Z]} {[2%Z; 7%Z]}); Err tt; Ok (mkNetworkNodes {[1%Z]} {[3%Z]})]
                    (foldl (fun w p => allow_peer p w) WhitelistBehavior_new [7%Z; 8%Z])))
  = {[1%Z; 3%Z; 8%Z]}.
Proof.
  etrans; [apply (whitelist_follows_registry (AllowListLaws0 := set_allow_list_laws)) |].
  vm_compute. reflexivity.
Defined.
