(* ===== verification/AddrCache.v ===== *)
(** * The address cache (crates/transport/src/behaviour/addr_cache.rs,
    [addr_is_reachable] of crates/transport/src/util.rs)

    An LRU cache of the addresses a peer can be dialled at.  The [lru] crate is
    an interface: a cache is known by its entries, most recently used first.
    A [Multiaddr] is the list of its protocols, of which the code looks only at
    the first; [Multiaddr::with_p2p] is libp2p's and a parameter.  Whether the
    environment variable PRIVATE_NETWORK is set is an argument. *)

From S2P Require Import Prelude RustStd.
From Stdlib Require Import ZArith Lia.
From stdpp Require Import base sets gmap numbers list.

Open Scope Z_scope.

(** ** Addresses *)

(** The protocols the code tells apart; [Other] stands for the rest of libp2p's,
    with its payload. *)
Inductive Protocol :=
| Ip4 (a b c d : Z)
| Ip6 (bits : Z)
| Dns (name : list Z) | Dns4 (name : list Z) | Dns6 (name : list Z) | Dnsaddr (name : list Z)
| Other (code : Z) (payload : list Z).

#[global] Instance Protocol_eq_dec : EqDecision Protocol.
Proof. solve_decision. Defined.

#[global] Instance Protocol_countable : Countable Protocol.
Proof.
  refine (inj_countable'
    (fun p => match p with
              | Ip4 a b c d => (0, [a; b; c; d]) | Ip6 x => (1, [x])
              | Dns n => (2, n) | Dns4 n => (3, n) | Dns6 n => (4, n) | Dnsaddr n => (5, n)
              | Other c n => (6, c :: n) end)
    (fun q => match q with
              | (0, [a; b; c; d]) => Ip4 a b c d | (1, [x]) => Ip6 x
              | (2, n) => Dns n | (3, n) => Dns4 n | (4, n) => Dns6 n | (5, n) => Dnsaddr n
              | (6, c :: n) => Other c n | _ => Ip6 0 end) _).
  by intros [].
Defined.

Definition Multiaddr : Type := list Protocol.

(** [Ipv4Addr::is_loopback], [is_link_local] and [is_private], and
    [Ipv6Addr::is_loopback]. *)
Definition is_loopback (a : Z) : bool := a =? 127.
Definition is_link_local (a b : Z) : bool := (a =? 169) && (b =? 254).
Definition is_private (a b : Z) : bool :=
  (a =? 10) || ((a =? 172) && in_range 16 31 b) || ((a =? 192) && (b =? 168)).
Definition is_loopback6 (bits : Z) : bool := bits =? 1.

Definition addr_is_reachable (private_network : bool) (addr : Multiaddr) : bool :=
  match head addr with
  | Some (Ip4 a b _ _) =>
    if is_loopback a then private_network
    else negb (is_link_local a b) && (negb (is_private a b) || private_network)
  | Some (Ip6 bits) => negb (is_loopback6 bits)
  | Some (Dns _ | Dns4 _ | Dns6 _ | Dnsaddr _) => true
  | _ => false
  end.

(** ** The LRU cache of the [lru] crate *)

Class LruCache (K V : Type) `{EqDecision K} := {
  Lru : Type;
  lru_new : nat -> Lru;
  (* [get_or_insert_mut k default] and an update of the value it returns *)
  lru_update : K -> V -> (V -> V) -> Lru -> Lru;
  lru_get : K -> Lru -> option V * Lru;
  lru_pop : K -> Lru -> Lru;
  lru_contains : K -> Lru -> bool;
  lru_cap : Lru -> nat;
  lru_entries : Lru -> list (K * V)
}.

Definition without {K V} `{EqDecision K} (k : K) (l : list (K * V)) : list (K * V) :=
  filter (fun e => e.1 <> k) l.

Definition entry_of {K V} `{EqDecision K} (k : K) (l : list (K * V)) : option V :=
  snd <$> (snd <$> list_find (fun e => e.1 = k) l).

(** A use moves the entry to the front; an insertion into a full cache drops the
    least recently used entry. *)
Class LruCacheLaws (K V : Type) `{LruCache K V} := {
  lru_new_entries n : lru_entries (lru_new n) = [] /\ lru_cap (lru_new n) = n;
  lru_update_entries k d f c :
    lru_entries (lru_update k d f c)
    = take (lru_cap c) ((k, f (default d (entry_of k (lru_entries c)))) :: without k (lru_entries c))
    /\ lru_cap (lru_update k d f c) = lru_cap c;
  lru_get_entries k c :
    fst (lru_get k c) = entry_of k (lru_entries c) /\
    lru_entries (snd (lru_get k c))
    = match entry_of k (lru_entries c) with
      | Some v => (k, v) :: without k (lru_entries c)
      | None => lru_entries c
      end /\
    lru_cap (snd (lru_get k c)) = lru_cap c;
  lru_pop_entries k c :
    lru_entries (lru_pop k c) = without k (lru_entries c) /\ lru_cap (lru_pop k c) = lru_cap c;
  lru_contains_entries k c :
    lru_contains k c = bool_decide (k ∈ (lru_entries c).*1)
}.

(** ** The behaviour *)

(** [DialError], as far as the code tells its variants apart. *)
Inductive DialError := WrongPeerId | Transport | NoAddresses | OtherDialError.

#[global] Instance DialError_eq_dec : EqDecision DialError.
Proof. solve_decision. Defined.

Section AddrCache.
  Context {PeerId : Type} `{EqDecision PeerId} `{!LruCache PeerId (gset Multiaddr)}.
  Context (private_network : bool).
  (* [Ok] and [Err] of [with_p2p] both carry an address *)
  Context (with_p2p : PeerId -> Multiaddr -> Multiaddr + Multiaddr).

Notation AddressCache := (Lru (K := PeerId) (V := gset Multiaddr)).

Definition AddressCache_new (size : nat) : AddressCache := lru_new size.

Definition named (peer_id : PeerId) (addr : Multiaddr) : Multiaddr :=
  match with_p2p peer_id addr with inl a => a | inr a => a end.

Definition put (peer_id : PeerId) (addrs : list Multiaddr) (c : AddressCache) : AddressCache :=
  let addrs := named peer_id <$> filter (fun a => addr_is_reachable private_network a) addrs in
  match addrs with
  | [] => c
  | _ => lru_update peer_id ∅ (fun known => known ∪ list_to_set addrs) c
  end.

Definition evict (peer_id : PeerId) (c : AddressCache) : AddressCache := lru_pop peer_id c.

Definition contains (peer_id : PeerId) (c : AddressCache) : bool := lru_contains peer_id c.

Definition cache_on_dial_failure (peer_id : option PeerId) (error : DialError) (c : AddressCache)
  : AddressCache :=
  match error with
  | WrongPeerId | Transport | NoAddresses =>
    match peer_id with Some p => evict p c | None => c end
  | OtherDialError => c
  end.

Definition handle_pending_outbound_connection (maybe_peer : option PeerId) (c : AddressCache)
  : list Multiaddr * AddressCache :=
  match maybe_peer with
  | None => ([], c)
  | Some p =>
    let '(found, c) := lru_get p c in
    (default [] (elements <$> found), c)
  end.

Definition handle_established_outbound_connection (peer : PeerId) (addr : Multiaddr)
    (c : AddressCache) : AddressCache := put peer [addr] c.

(** The swarm events the cache reacts to. *)
Inductive CacheEvent :=
| NewExternalAddrOfPeer (peer_id : PeerId) (addr : Multiaddr)
| DialFailure (peer_id : option PeerId) (error : DialError)
| OtherEvent.

Definition cache_on_swarm_event (ev : CacheEvent) (c : AddressCache) : AddressCache :=
  match ev with
  | NewExternalAddrOfPeer p a => put p [a] c
  | DialFailure p e => cache_on_dial_failure p e c
  | OtherEvent => c
  end.

(** ** The invariant *)

Inductive cache_step : AddressCache -> AddressCache -> Prop :=
| step_put p addrs c : cache_step c (put p addrs c)
| step_evict p c : cache_step c (evict p c)
| step_pending p c : cache_step c (snd (handle_pending_outbound_connection p c))
| step_established p a c : cache_step c (handle_established_outbound_connection p a c)
| step_event ev c : cache_step c (cache_on_swarm_event ev c).

(** An entry has an address, and every address is one that can be reached, with
    what [with_p2p] makes of it. *)
Definition entry_ok (e : PeerId * gset Multiaddr) : Prop :=
  e.2 <> ∅ /\
  forall a, a ∈ e.2 -> exists b, addr_is_reachable private_network b = true /\ a = named e.1 b.

Definition cache_ok (size : nat) (c : AddressCache) : Prop :=
  lru_cap c = size /\ (length (lru_entries c) <= size)%nat /\
  NoDup (lru_entries c).*1 /\ Forall entry_ok (lru_entries c).

  Context `{!LruCacheLaws PeerId (gset Multiaddr)}.

Lemma elem_of_without (k : PeerId) (l : list (PeerId * gset Multiaddr)) (e : PeerId * gset Multiaddr) :
  e ∈ without k l <-> e ∈ l /\ e.1 <> k.
Proof. unfold without. rewrite list_elem_of_filter. tauto. Qed.

Lemma without_keys (k : PeerId) (l : list (PeerId * gset Multiaddr)) : (without k l).*1 `sublist_of` l.*1.
Proof. apply fmap_sublist, sublist_filter. Qed.

Lemma entry_of_Some (k : PeerId) (l : list (PeerId * gset Multiaddr)) v :
  entry_of k l = Some v -> (k, v) ∈ l.
Proof.
  unfold entry_of. destruct (list_find _ l) as [[i [k' v']] |] eqn:Hf; [| done].
  intros [= <-]. apply list_find_Some in Hf as (Hi & <- & _). by eapply list_elem_of_lookup_2.
Qed.

Lemma entry_of_is_Some (k : PeerId) (l : list (PeerId * gset Multiaddr)) :
  k ∈ l.*1 -> is_Some (entry_of k l).
Proof.
  intros ([k' v] & -> & Hin)%list_elem_of_fmap. unfold entry_of.
  destruct (list_find _ l) as [x |] eqn:Hf; [by eexists |].
  apply list_find_None in Hf. rewrite Forall_forall in Hf. by destruct (Hf _ Hin).
Qed.

Lemma without_ok k l size :
  (length l <= size)%nat -> NoDup l.*1 -> Forall entry_ok l ->
  (length (without k l) <= size)%nat /\ NoDup (without k l).*1 /\ Forall entry_ok (without k l).
Proof.
  intros Hlen Hnd Hall. split_and!.
  - etrans; [| exact Hlen]. apply sublist_length, sublist_filter.
  - eapply sublist_NoDup; [exact Hnd | apply without_keys].
  - rewrite Forall_forall in *. intros e [He _]%elem_of_without. by apply Hall.
Qed.

(** An entry moved to the front. *)
Lemma front_ok k v l :
  NoDup l.*1 -> Forall entry_ok l -> entry_ok (k, v) ->
  NoDup ((k, v) :: without k l).*1 /\ Forall entry_ok ((k, v) :: without k l).
Proof.
  intros Hnd Hall He. destruct (without_ok k l (length l)) as (_ & Hnd' & Hall'); [done.. |].
  split; [| by constructor]. cbn. constructor; [| done].
  rewrite list_elem_of_fmap. intros (e & -> & [_ ?]%elem_of_without). done.
Qed.

Lemma evict_ok size p c : cache_ok size c -> cache_ok size (evict p c).
Proof.
  intros (Hcap & Hlen & Hnd & Hall). unfold cache_ok, evict.
  destruct (lru_pop_entries p c) as [-> ->]. split; [done |]. by apply without_ok.
Qed.

Lemma put_ok size p addrs c : cache_ok size c -> cache_ok size (put p addrs c).
Proof.
  intros (Hcap & Hlen & Hnd & Hall). unfold put.
  destruct (named p <$> filter _ addrs) as [| a l] eqn:Hnew; [done |]. rewrite <- Hnew.
  unfold cache_ok. destruct (lru_update_entries p ∅
    (fun known => known ∪ list_to_set (named p <$> filter (fun a => addr_is_reachable private_network a) addrs)) c)
    as [-> ->]. split; [done |].
  assert (entry_ok (p, default ∅ (entry_of p (lru_entries c))
            ∪ list_to_set (named p <$> filter (fun a => addr_is_reachable private_network a) addrs)))
    as He.
  { split; cbn.
    - rewrite Hnew. set_solver.
    - intros b [Hb | Hb]%elem_of_union.
      + destruct (entry_of p (lru_entries c)) as [v |] eqn:Hv; [| set_solver].
        apply entry_of_Some in Hv. rewrite Forall_forall in Hall. by apply (Hall _ Hv).
      + apply elem_of_list_to_set, list_elem_of_fmap in Hb as (b' & -> & [Hr _]%list_elem_of_filter).
        exists b'. split; [by apply Is_true_true | done]. }
  destruct (front_ok p _ (lru_entries c) Hnd Hall He) as [Hnd' Hall']. split_and!.
  - rewrite length_take. lia.
  - eapply sublist_NoDup; [exact Hnd' |]. apply fmap_sublist, sublist_take.
  - by apply Forall_take.
Qed.

Lemma get_ok size p c :
  cache_ok size c -> cache_ok size (snd (handle_pending_outbound_connection p c)).
Proof.
  intros (Hcap & Hlen & Hnd & Hall). destruct p as [p |]; [| done]. cbn.
  destruct (lru_get p c) as [found c'] eqn:Hg.
  destruct (lru_get_entries p c) as (_ & He & Hc). rewrite Hg in He, Hc. cbn in *.
  unfold cache_ok. rewrite He, Hc. split; [done |].
  destruct (entry_of p (lru_entries c)) as [v |] eqn:Hv; [| done].
  apply entry_of_Some in Hv.
  destruct (front_ok p v (lru_entries c)) as [Hnd' Hall']; [done.. | |].
  { rewrite Forall_forall in Hall. by apply Hall. }
  split_and!; [| done..]. cbn.
  assert (length (without p (lru_entries c)) < length (lru_entries c))%nat; [| lia].
  apply length_filter_lt with (p, v); [done |]. cbn. auto.
Qed.

Lemma cache_step_ok size c c' : cache_step c c' -> cache_ok size c -> cache_ok size c'.
Proof.
  destruct 1 as [p addrs c | p c | p c | p a c | ev c]; intros Hc.
  - by apply put_ok.
  - by apply evict_ok.
  - by apply get_ok.
  - by apply put_ok.
  - destruct ev as [p a | p e |]; [by apply put_ok | | done].
    destruct e, p; try done; by apply evict_ok.
Qed.

Lemma pending_found p c :
  fst (handle_pending_outbound_connection (Some p) c)
  = default [] (elements <$> entry_of p (lru_entries c)).
Proof.
  cbn. destruct (lru_get_entries p c) as (Hf & _). destruct (lru_get p c). cbn in *. by rewrite Hf.
Qed.

(** however it is used, the address cache holds at most [size] peers, each once;
    a peer it reports as known has an address to dial, and every address it
    hands out is one that passed the reachability filter; and a reachable
    address just put in is handed out for its peer. *)
Theorem addr_cache_invariant size c :
  (0 < size)%nat -> rtc cache_step (AddressCache_new size) c ->
  (length (lru_entries c) <= size)%nat /\ NoDup (lru_entries c).*1 /\
  (forall p, contains p c = true ->
     fst (handle_pending_outbound_connection (Some p) c) <> []) /\
  (forall p a, a ∈ fst (handle_pending_outbound_connection (Some p) c) ->
     exists b, addr_is_reachable private_network b = true /\ a = named p b) /\
  (forall p a, addr_is_reachable private_network a = true ->
     named p a ∈ fst (handle_pending_outbound_connection (Some p) (put p [a] c))).
Proof.
  intros Hsize Hsteps.
  assert (cache_ok size c) as Hok.
  { assert (cache_ok size (AddressCache_new size)) as Hnew.
    { unfold cache_ok, AddressCache_new. destruct (lru_new_entries size) as [-> ->].
      split_and!; [done | cbn; lia | constructor..]. }
    revert Hnew. induction Hsteps as [| x y z Hxy _ IH]; [done |]. intros Hx.
    by apply IH, (cache_step_ok size x y). }
  pose proof Hok as (Hcap & Hlen & Hnd & Hall). rewrite Forall_forall in Hall.
  split_and!; [done | done | | |].
  - intros p. unfold contains. rewrite lru_contains_entries, bool_decide_eq_true. intros Hp.
    rewrite pending_found. destruct (entry_of_is_Some p _ Hp) as [v Hv]. rewrite Hv. cbn.
    destruct (Hall _ (entry_of_Some _ _ _ Hv)) as [Hne _]. cbn in Hne.
    intros He. apply Hne. apply leibniz_equiv. by apply elements_empty_iff.
  - intros p a. rewrite pending_found. destruct (entry_of p _) as [v |] eqn:Hv; cbn; [| set_solver].
    rewrite elem_of_elements. intros Ha.
    by destruct (Hall _ (entry_of_Some _ _ _ Hv)) as [_ Hr]; apply Hr.
  - intros p a Ha. rewrite pending_found. unfold put. rewrite filter_cons, decide_True by (by rewrite Ha).
    cbn [fmap list_fmap]. destruct (lru_update_entries p ∅
      (fun known => known ∪ list_to_set (named p a :: (named p <$> filter (fun a => addr_is_reachable private_network a) []))) c)
      as [He _]. cbn [filter list_filter fmap list_fmap] in He |- *. rewrite He.
    destruct (lru_cap c) as [| n]; [lia |]. cbn. unfold entry_of at 1. cbn.
    rewrite decide_True by done. cbn. set_solver.
Qed.

End AddrCache.

(** ** An LRU cache as a list *)
Definition list_lru {K V} `{EqDecision K} : LruCache K V := {|
  Lru := nat * list (K * V);
  lru_new n := (n, []);
  lru_update k d f c := (c.1, take c.1 ((k, f (default d (entry_of k c.2))) :: without k c.2));
  lru_get k c :=
    (entry_of k c.2,
     match entry_of k c.2 with Some v => (c.1, (k, v) :: without k c.2) | None => c end);
  lru_pop k c := (c.1, without k c.2);
  lru_contains k c := bool_decide (k ∈ c.2.*1);
  lru_cap := fst;
  lru_entries := snd
|}.

#[local] Existing Instance list_lru.

Lemma list_lru_laws {K V} `{EqDecision K} : LruCacheLaws K V.
Proof.
  split; intros; cbn -[entry_of without]; split_and?; try done; by destruct (entry_of k c.2).
Qed.

(** [with_p2p] appends the peer id; 421 is the code of the p2p protocol. *)
Definition demo_with_p2p (p : Z) (a : Multiaddr) : Multiaddr + Multiaddr := inl (a ++ [Other 421 [p]]).

Definition demo_public : Multiaddr := [Ip4 1 2 3 4; Other 273 [1000]].

Definition demo_cache : Lru (K := Z) (V := gset Multiaddr) :=
  put false demo_with_p2p 5 [[Ip4 127 0 0 1; Other 273 [1000]]; demo_public]
    (AddressCache_new 2).

Lemma addr_cache_invariant_witness :
  contains 5 demo_cache = true /\
  fst (handle_pending_outbound_connection (Some 5) demo_cache) <> [].
Proof.
  assert (contains 5 demo_cache = true) as Hc by (vm_compute; reflexivity).
  split; [exact Hc |].
  refine (proj1 (proj2 (proj2 (addr_cache_invariant false demo_with_p2p
    (LruCacheLaws0 := list_lru_laws) 2 demo_cache _ _))) 5 Hc); [lia |].
  eapply rtc_once. apply step_put.
Defined.
