(* ===== verification/Base.v ===== *)
(** * The base behaviour (crates/transport/src/behaviour/base.rs)

    [BaseBehaviour] keeps a node connected to the registered workers: it looks
    peers up in the DHT, dials them, waits out a cooldown after a failure, and
    reports how much of the network it has identified.

    The address cache and the whitelist are the components of [AddrCache] and
    [Whitelist]; Kademlia, tokio's [DelayQueue] and [BiHashMap] of the bimap
    crate are interfaces.  The sub-behaviours that [BaseBehaviour] only
    creates (ping, autonat, identify, pubsub, streams, keep-alive) have no
    part in its state.  [now] is the clock of the delay queue. *)

From S2P Require Import Prelude RustStd Whitelist AddrCache.
From Stdlib Require Import ZArith Lia SpecFloat.
From stdpp Require Import base sets gmap numbers list.

Open Scope Z_scope.

(** ** Third-party interfaces *)

(** [kad::Behaviour], as far as it is asked: [kad_used] are the query ids it has
    handed out. *)
Class Kademlia (PeerId QueryId : Type) `{Countable QueryId} := {
  Kad : Type;
  kad_get_closest_peers : PeerId -> Kad -> QueryId * Kad;
  kad_add_address : PeerId -> Multiaddr -> Kad -> Kad;
  kad_bootstrap : Kad -> Kad;
  kad_bootstrapping : Kad -> bool;
  kad_set_server_mode : Kad -> Kad;
  kad_used : Kad -> gset QueryId
}.

Class KademliaLaws (PeerId QueryId : Type) `{Kademlia PeerId QueryId} := {
  kad_query_fresh p k : fst (kad_get_closest_peers p k) ∉ kad_used k;
  kad_query_used p k :
    kad_used (snd (kad_get_closest_peers p k)) = {[fst (kad_get_closest_peers p k)]} ∪ kad_used k;
  kad_add_address_used p a k : kad_used k ⊆ kad_used (kad_add_address p a k);
  kad_bootstrap_used k : kad_used k ⊆ kad_used (kad_bootstrap k);
  kad_set_server_mode_used k : kad_used k ⊆ kad_used (kad_set_server_mode k)
}.

(** [DelayQueue]: its items with their deadlines; [dq_poll] is [poll_expired],
    with [None] for [Pending] and for the end of an empty queue alike. *)
Class DelayQueue (A : Type) := {
  DQ : Type;
  dq_new : DQ;
  dq_insert : A -> Z -> DQ -> DQ;
  dq_poll : Z -> DQ -> option (A * DQ);
  dq_items : DQ -> list (A * Z)
}.

Class DelayQueueLaws (A : Type) `{DelayQueue A} := {
  dq_items_new : dq_items dq_new = [];
  dq_items_insert a d q : dq_items (dq_insert a d q) ≡ₚ (a, d) :: dq_items q;
  dq_poll_Some now q a q' :
    dq_poll now q = Some (a, q') -> exists d, d <= now /\ dq_items q ≡ₚ (a, d) :: dq_items q';
  dq_poll_None now q : dq_poll now q = None -> Forall (fun e => now < e.2) (dq_items q)
}.

(** [BiHashMap]: [bm_pairs] maps left values to right ones, one to one. *)
Class BiHashMap (L R : Type) `{Countable L, EqDecision R} := {
  BM : Type;
  bm_default : BM;
  bm_insert : L -> R -> BM -> BM;
  bm_contains_left : L -> BM -> bool;
  bm_get_by_right : R -> BM -> option L;
  bm_remove_by_right : R -> BM -> BM;
  bm_len : BM -> nat;
  bm_pairs : BM -> gmap L R
}.

Class BiHashMapLaws (L R : Type) `{BiHashMap L R} := {
  bm_pairs_default : bm_pairs bm_default = ∅;
  bm_pairs_insert l r m :
    bm_pairs (bm_insert l r m) = <[l := r]> (filter (fun e => e.2 <> r) (bm_pairs m));
  bm_contains_left_pairs l m : bm_contains_left l m = bool_decide (is_Some (bm_pairs m !! l));
  bm_get_by_right_pairs r l m : bm_get_by_right r m = Some l <-> bm_pairs m !! l = Some r;
  bm_pairs_remove r m : bm_pairs (bm_remove_by_right r m) = filter (fun e => e.2 <> r) (bm_pairs m);
  bm_len_pairs m : bm_len m = size (bm_pairs m)
}.

(** ** Confidence, in single precision *)

Definition f32 : Type := spec_float.

(** [n as f32] for an unsigned integer: rounded to nearest. *)
Definition f32_of_nat (n : nat) : f32 := binary_normalize 24 128 (Z.of_nat n) 0 false.

Definition f32_mul (a b : f32) : f32 := SFmul 24 128 a b.
Definition f32_div (a b : f32) : f32 := SFdiv 24 128 a b.

(** [f32::min], on numbers. *)
Definition f32_min (a b : f32) : f32 := if SFltb b a then b else a.

(** [x.floor() as u8]: the cast saturates, and takes NaN to zero. *)
Definition f32_floor_u8 (x : f32) : Z :=
  match x with
  | S754_finite false m e =>
    Z.min 255 (if 0 <=? e then Z.pos m * 2 ^ e else Z.pos m / 2 ^ (- e))
  | S754_infinity false => 255
  | _ => 0
  end.

(** The literal 0.75 is exact: three quarters. *)
Definition f32_0_75 : f32 := binary_normalize 24 128 3 (-2) false.

Definition confidence_step (identified whitelist_size : nat) : Z :=
  let threshold := f32_mul f32_0_75 (f32_of_nat whitelist_size) in
  let raw := f32_min (f32_div (f32_of_nat identified) threshold) (f32_of_nat 1) in
  f32_floor_u8 (f32_mul raw (f32_of_nat 10)).

(** ** State *)

Section Base.
  Context {PeerId QueryId : Type} `{Countable PeerId, Countable QueryId}.
  Context `{!AllowList PeerId} `{!LruCache PeerId (gset Multiaddr)} `{!Kademlia PeerId QueryId}
          `{!DelayQueue PeerId} `{!BiHashMap PeerId QueryId}.
  Context `{BuildProfile} (private_network : bool)
          (with_p2p : PeerId -> Multiaddr -> Multiaddr + Multiaddr).

(** [PeerCondition] of a dial. *)
Inductive PeerCondition := DisconnectedAndNotDialing | NotDialing.

(** [ToSwarm], with the events of [BaseBehaviourEvent]; a [ProviderRecord] is
    passed on as it came from Kademlia, so its payload is opaque. *)
Inductive ToSwarm (R : Type) :=
| Dial (peer_id : PeerId) (condition : PeerCondition)
| ProviderRecord (record : R)
| NetworkConnected (step : Z).
#[global] Arguments Dial {R} peer_id condition.
#[global] Arguments ProviderRecord {R} record.
#[global] Arguments NetworkConnected {R} step.

  Context {Record_ : Type}.

Record BaseBehaviour := mkBaseBehaviour {
  kademlia : Kad;
  whitelist : WhitelistBehavior (PeerId := PeerId);
  address_cache : Lru (K := PeerId) (V := gset Multiaddr);
  pending_events : list (ToSwarm Record_);
  ongoing_lookups : BM (L := PeerId) (R := QueryId);
  outbound_conns : gmap PeerId Z;
  registered_workers : gset PeerId;
  whitelist_initialized : bool;
  identified_peers : gset PeerId;
  last_sent_confidence_step : option Z;
  maintain_worker_connections : bool;
  pending_lookups : list PeerId;
  max_concurrent_lookups : nat;
  reconnect_cooldown : Z;
  reconnect_queue : DQ (A := PeerId);
  reconnect_scheduled : gset PeerId
}.

(** Field updates. *)
Definition set_kademlia x (b : BaseBehaviour) : BaseBehaviour :=
  mkBaseBehaviour x (whitelist b) (address_cache b) (pending_events b) (ongoing_lookups b)
    (outbound_conns b) (registered_workers b) (whitelist_initialized b) (identified_peers b)
    (last_sent_confidence_step b) (maintain_worker_connections b) (pending_lookups b)
    (max_concurrent_lookups b) (reconnect_cooldown b) (reconnect_queue b)
    (reconnect_scheduled b).

Definition set_whitelist x (b : BaseBehaviour) : BaseBehaviour :=
  mkBaseBehaviour (kademlia b) x (address_cache b) (pending_events b) (ongoing_lookups b)
    (outbound_conns b) (registered_workers b) (whitelist_initialized b) (identified_peers b)
    (last_sent_confidence_step b) (maintain_worker_connections b) (pending_lookups b)
    (max_concurrent_lookups b) (reconnect_cooldown b) (reconnect_queue b)
    (reconnect_scheduled b).

Definition set_address_cache x (b : BaseBehaviour) : BaseBehaviour :=
  mkBaseBehaviour (kademlia b) (whitelist b) x (pending_events b) (ongoing_lookups b)
    (outbound_conns b) (registered_workers b) (whitelist_initialized b) (identified_peers b)
    (last_sent_confidence_step b) (maintain_worker_connections b) (pending_lookups b)
    (max_concurrent_lookups b) (reconnect_cooldown b) (reconnect_queue b)
    (reconnect_scheduled b).

Definition set_pending_events x (b : BaseBehaviour) : BaseBehaviour :=
  mkBaseBehaviour (kademlia b) (whitelist b) (address_cache b) x (ongoing_lookups b)
    (outbound_conns b) (registered_workers b) (whitelist_initialized b) (identified_peers b)
    (last_sent_confidence_step b) (maintain_worker_connections b) (pending_lookups b)
    (max_concurrent_lookups b) (reconnect_cooldown b) (reconnect_queue b)
    (reconnect_scheduled b).

Definition set_ongoing_lookups x (b : BaseBehaviour) : BaseBehaviour :=
  mkBaseBehaviour (kademlia b) (whitelist b) (address_cache b) (pending_events b) x
    (outbound_conns b) (registered_workers b) (whitelist_initialized b) (identified_peers b)
    (last_sent_confidence_step b) (maintain_worker_connections b) (pending_lookups b)
    (max_concurrent_lookups b) (reconnect_cooldown b) (reconnect_queue b)
    (reconnect_scheduled b).

Definition set_outbound_conns x (b : BaseBehaviour) : BaseBehaviour :=
  mkBaseBehaviour (kademlia b) (whitelist b) (address_cache b) (pending_events b)
    (ongoing_lookups b) x (registered_workers b) (whitelist_initialized b) (identified_peers b)
    (last_sent_confidence_step b) (maintain_worker_connections b) (pending_lookups b)
    (max_concurrent_lookups b) (reconnect_cooldown b) (reconnect_queue b)
    (reconnect_scheduled b).

Definition set_registered_workers x (b : BaseBehaviour) : BaseBehaviour :=
  mkBaseBehaviour (kademlia b) (whitelist b) (address_cache b) (pending_events b)
    (ongoing_lookups b) (outbound_conns b) x (whitelist_initialized b) (identified_peers b)
    (last_sent_confidence_step b) (maintain_worker_connections b) (pending_lookups b)
    (max_concurrent_lookups b) (reconnect_cooldown b) (reconnect_queue b)
    (reconnect_scheduled b).

Definition set_whitelist_initialized x (b : BaseBehaviour) : BaseBehaviour :=
  mkBaseBehaviour (kademlia b) (whitelist b) (address_cache b) (pending_events b)
    (ongoing_lookups b) (outbound_conns b) (registered_workers b) x (identified_peers b)
    (last_sent_confidence_step b) (maintain_worker_connections b) (pending_lookups b)
    (max_concurrent_lookups b) (reconnect_cooldown b) (reconnect_queue b)
    (reconnect_scheduled b).

Definition set_identified_peers x (b : BaseBehaviour) : BaseBehaviour :=
  mkBaseBehaviour (kademlia b) (whitelist b) (address_cache b) (pending_events b)
    (ongoing_lookups b) (outbound_conns b) (registered_workers b) (whitelist_initialized b) x
    (last_sent_confidence_step b) (maintain_worker_connections b) (pending_lookups b)
    (max_concurrent_lookups b) (reconnect_cooldown b) (reconnect_queue b)
    (reconnect_scheduled b).

Definition set_last_sent_confidence_step x (b : BaseBehaviour) : BaseBehaviour :=
  mkBaseBehaviour (kademlia b) (whitelist b) (address_cache b) (pending_events b)
    (ongoing_lookups b) (outbound_conns b) (registered_workers b) (whitelist_initialized b)
    (identified_peers b) x (maintain_worker_connections b) (pending_lookups b)
    (max_concurrent_lookups b) (reconnect_cooldown b) (reconnect_queue b)
    (reconnect_scheduled b).

Definition set_maintain_worker_connections x (b : BaseBehaviour) : BaseBehaviour :=
  mkBaseBehaviour (kademlia b) (whitelist b) (address_cache b) (pending_events b)
    (ongoing_lookups b) (outbound_conns b) (registered_workers b) (whitelist_initialized b)
    (identified_peers b) (last_sent_confidence_step b) x (pending_lookups b)
    (max_concurrent_lookups b) (reconnect_cooldown b) (reconnect_queue b)
    (reconnect_scheduled b).

Definition set_pending_lookups x (b : BaseBehaviour) : BaseBehaviour :=
  mkBaseBehaviour (kademlia b) (whitelist b) (address_cache b) (pending_events b)
    (ongoing_lookups b) (outbound_conns b) (registered_workers b) (whitelist_initialized b)
    (identified_peers b) (last_sent_confidence_step b) (maintain_worker_connections b) x
    (max_concurrent_lookups b) (reconnect_cooldown b) (reconnect_queue b)
    (reconnect_scheduled b).

Definition set_reconnect_queue x (b : BaseBehaviour) : BaseBehaviour :=
  mkBaseBehaviour (kademlia b) (whitelist b) (address_cache b) (pending_events b)
    (ongoing_lookups b) (outbound_conns b) (registered_workers b) (whitelist_initialized b)
    (identified_peers b) (last_sent_confidence_step b) (maintain_worker_connections b)
    (pending_lookups b) (max_concurrent_lookups b) (reconnect_cooldown b) x
    (reconnect_scheduled b).

Definition set_reconnect_scheduled x (b : BaseBehaviour) : BaseBehaviour :=
  mkBaseBehaviour (kademlia b) (whitelist b) (address_cache b) (pending_events b)
    (ongoing_lookups b) (outbound_conns b) (registered_workers b) (whitelist_initialized b)
    (identified_peers b) (last_sent_confidence_step b) (maintain_worker_connections b)
    (pending_lookups b) (max_concurrent_lookups b) (reconnect_cooldown b) (reconnect_queue b) x.


(** What of [BaseConfig] the state keeps, and [BaseBehaviour::new]. *)
Record BaseConfig := mkBaseConfig {
  cfg_addr_cache_size : nat;
  cfg_max_concurrent_lookups : nat;
  cfg_reconnect_cooldown : Z
}.

Definition BaseBehaviour_new (config : BaseConfig) (boot_nodes : list (PeerId * Multiaddr)) (k : Kad)
  : BaseBehaviour :=
  let w := foldl (fun w n => allow_peer n.1 w) WhitelistBehavior_new boot_nodes in
  let k := foldl (fun k n => kad_add_address n.1 n.2 k) k boot_nodes in
  mkBaseBehaviour k w (AddressCache_new (cfg_addr_cache_size config)) [] bm_default ∅ ∅ false ∅ None
    false [] (cfg_max_concurrent_lookups config) (cfg_reconnect_cooldown config) dq_new ∅.

Definition set_server_mode (b : BaseBehaviour) : BaseBehaviour :=
  set_kademlia (kad_set_server_mode (kademlia b)) b.

(** [keep_alive] is told as well; it has no part in this state. *)
Definition start_maintaining (b : BaseBehaviour) : BaseBehaviour :=
  set_maintain_worker_connections true b.

Definition base_allow_peer (p : PeerId) (b : BaseBehaviour) : BaseBehaviour :=
  set_whitelist (allow_peer p (whitelist b)) b.

(** ** Lookups and dials *)

Definition outbound_conn_exists (p : PeerId) (b : BaseBehaviour) : bool :=
  match outbound_conns b !! p with Some x => 0 <? x | None => false end.

Definition find_and_dial (p : PeerId) (b : BaseBehaviour) : BaseBehaviour :=
  if contains p (address_cache b) then
    set_pending_events (pending_events b ++ [Dial p DisconnectedAndNotDialing]) b
  else if bm_contains_left p (ongoing_lookups b) then b
  else
    let '(query_id, k) := kad_get_closest_peers p (kademlia b) in
    set_ongoing_lookups (bm_insert p query_id (ongoing_lookups b)) (set_kademlia k b).

(** Reconnects to a registered worker after the cooldown, once per peer at a time. *)
Definition schedule_reconnect (now : Z) (p : PeerId) (b : BaseBehaviour) : BaseBehaviour :=
  let needed := maintain_worker_connections b && bool_decide (p ∈ registered_workers b)
                && negb (outbound_conn_exists p b) in
  if negb needed || bool_decide (p ∈ reconnect_scheduled b) then b
  else
    set_reconnect_queue (dq_insert p (now + reconnect_cooldown b) (reconnect_queue b))
      (set_reconnect_scheduled ({[p]} ∪ reconnect_scheduled b) b).

(** ** Swarm events *)

(** [ConnectedPoint], as far as the code tells. *)
Inductive ConnectedPoint := Dialer | Listener.

Definition on_connection_established {E} (endpoint : ConnectedPoint) (p : PeerId) (b : BaseBehaviour)
  : res E (option (ToSwarm Record_)) * BaseBehaviour :=
  match endpoint with
  | Listener => (Ok None, b)
  | Dialer =>
    match add_u32 (E := E) (default 0 (outbound_conns b !! p)) 1 with
    | Ok n => (Ok None, set_outbound_conns (<[p := n]> (outbound_conns b)) b)
    | _ => (Panic, b)
    end
  end.

Definition on_connection_closed {E} (now : Z) (endpoint : ConnectedPoint) (p : PeerId)
    (b : BaseBehaviour) : res E (option (ToSwarm Record_)) * BaseBehaviour :=
  match endpoint with
  | Listener => (Ok None, b)
  | Dialer =>
    match outbound_conns b !! p with
    | Some x =>
      match sub_u32 (E := E) x 1 with
      | Ok n => (Ok None, schedule_reconnect now p (set_outbound_conns (<[p := n]> (outbound_conns b)) b))
      | _ => (Panic, b)
      end
    | None => (Ok None, schedule_reconnect now p b)
    end
  end.

Definition base_on_dial_failure (now : Z) (peer : option PeerId) (error : DialError)
    (b : BaseBehaviour) : option (ToSwarm Record_) * BaseBehaviour :=
  match peer with
  | None => (None, b)
  | Some p =>
    match error with
    | Transport | WrongPeerId | NoAddresses => (None, schedule_reconnect now p b)
    | OtherDialError => (None, b)
    end
  end.

(** The event reaches the address cache before [BaseBehaviour] itself, as
    [Wrapped::on_swarm_event] passes it to the inner behaviours first. *)
Definition dial_failure_event (now : Z) (peer : option PeerId) (error : DialError)
    (b : BaseBehaviour) : option (ToSwarm Record_) * BaseBehaviour :=
  base_on_dial_failure now peer error
    (set_address_cache (cache_on_swarm_event private_network with_p2p (DialFailure peer error)
                          (address_cache b)) b).

(** ** Inner events *)

Definition try_emit_confidence (b : BaseBehaviour) : option (ToSwarm Record_) * BaseBehaviour :=
  if negb (whitelist_initialized b) then (None, b)
  else
    let n := whitelist_size (whitelist b) in
    if (n =? 0)%nat then (None, b)
    else
      let step := confidence_step (size (identified_peers b)) n in
      if step =? 0 then (None, b)
      else if match last_sent_confidence_step b with Some last => step <=? last | None => false end
      then (None, b)
      else (Some (NetworkConnected step), set_last_sent_confidence_step (Some step) b).

(** [identify::Event::Received]; the other events of identify are only recorded. *)
Definition on_identify_event (p : PeerId) (listen_addrs : list Multiaddr) (b : BaseBehaviour)
  : option (ToSwarm Record_) * BaseBehaviour :=
  let addrs := filter (fun a => addr_is_reachable private_network a) listen_addrs in
  let b := set_address_cache (put private_network with_p2p p addrs (address_cache b)) b in
  let b := set_kademlia (foldl (fun k a => kad_add_address p a k) (kademlia b) addrs) b in
  try_emit_confidence (set_identified_peers ({[p]} ∪ identified_peers b) b).

(** [kad::Event]: the two outcomes of a closest-peers query that carry peers, a
    success and a timeout, are read the same way. *)
Inductive KadEvent :=
| ClosestPeers (query_id : QueryId) (peers : list (PeerId * list Multiaddr)) (last : bool)
| RoutablePeer (peer : PeerId) (address : Multiaddr)
| RoutingUpdated (peer : PeerId) (addresses : list Multiaddr)
| Providers (record : Record_)
| OtherKadEvent.

Definition on_kademlia_event (ev : KadEvent) (b : BaseBehaviour)
  : option (ToSwarm Record_) * BaseBehaviour :=
  match ev with
  | RoutablePeer p a =>
    (None, set_address_cache (put private_network with_p2p p [a] (address_cache b)) b)
  | RoutingUpdated p addrs =>
    (None, set_address_cache
             (foldl (fun c a => put private_network with_p2p p [a] c) (address_cache b) addrs) b)
  | Providers r => (Some (ProviderRecord r), b)
  | OtherKadEvent => (None, b)
  | ClosestPeers query_id peers last =>
    match bm_get_by_right query_id (ongoing_lookups b) with
    | None => (None, b)
    | Some p =>
      let peer_info := snd <$> list_find (fun i => i.1 = p) peers in
      let query_finished := last || bool_decide (is_Some peer_info) in
      let b := if query_finished then
                 set_ongoing_lookups (bm_remove_by_right query_id (ongoing_lookups b)) b
               else b in
      let b := match peer_info with
               | Some info =>
                 set_address_cache (put private_network with_p2p p info.2 (address_cache b)) b
               | None => b
               end in
      (if query_finished then Some (Dial p NotDialing) else None, b)
    end
  end.

(** The loop over the registered workers, in whatever order the set gives them. *)
Definition enqueue_worker (b : BaseBehaviour) (p : PeerId) : BaseBehaviour :=
  if outbound_conn_exists p b || bool_decide (p ∈ reconnect_scheduled b) then b
  else
    set_pending_lookups (pending_lookups b ++ [p])
      (set_reconnect_scheduled ({[p]} ∪ reconnect_scheduled b) b).

Definition base_on_nodes_update (nodes : NetworkNodes (PeerId := PeerId)) (b : BaseBehaviour)
  : BaseBehaviour :=
  let b := set_registered_workers (workers nodes) b in
  let b := if whitelist_initialized b then b
           else
             let b := set_whitelist_initialized true b in
             if kad_bootstrapping (kademlia b) then b
             else set_kademlia (kad_bootstrap (kademlia b)) b in
  if maintain_worker_connections b then foldl enqueue_worker b (elements (registered_workers b))
  else b.

(** ** [poll] *)

Definition on_expired (p : PeerId) (b : BaseBehaviour) : BaseBehaviour :=
  if negb (outbound_conn_exists p b) && bool_decide (p ∈ registered_workers b) then
    set_pending_lookups (pending_lookups b ++ [p]) b
  else set_reconnect_scheduled (reconnect_scheduled b ∖ {[p]}) b.

(** The first loop: every iteration takes an item out of the queue, so that many
    iterations are enough. *)
Fixpoint drain_expired (fuel : nat) (now : Z) (b : BaseBehaviour) : BaseBehaviour :=
  match fuel with
  | O => b
  | S fuel =>
    match dq_poll now (reconnect_queue b) with
    | None => b
    | Some (p, q) => drain_expired fuel now (on_expired p (set_reconnect_queue q b))
    end
  end.

(** The second loop, by recursion on the peers that wait in [pending_lookups],
    which nothing else in the loop touches. *)
Fixpoint start_lookups (pending : list PeerId) (b : BaseBehaviour) : BaseBehaviour :=
  if (bm_len (ongoing_lookups b) <? max_concurrent_lookups b)%nat then
    match pending with
    | [] => set_pending_lookups [] b
    | p :: rest =>
      let b := set_reconnect_scheduled (reconnect_scheduled b ∖ {[p]}) b in
      start_lookups rest (if outbound_conn_exists p b then b else find_and_dial p b)
    end
  else set_pending_lookups pending b.

Definition base_poll (now : Z) (b : BaseBehaviour) : option (ToSwarm Record_) * BaseBehaviour :=
  let b := drain_expired (S (length (dq_items (reconnect_queue b)))) now b in
  let b := start_lookups (pending_lookups b) b in
  match pending_events b with
  | ev :: rest => (Some ev, set_pending_events rest b)
  | [] => (None, b)
  end.

End Base.
