(* ===== verification/BaseTheory.v ===== *)
(** * How the operations of the base behaviour change its state

    One lemma per operation and invariant: the peers that wait, the lookups that
    run, and which workers are being taken care of.  [BaseProps] composes them
    over runs. *)

From S2P Require Import Prelude RustStd Whitelist AddrCache Base.
From Stdlib Require Import ZArith Lia.
From stdpp Require Import base sets gmap numbers list.

Open Scope Z_scope.

(** ** What the swarm knows of dials *)

(** The peers being dialled, and those whose last dial ended in a failure that
    [on_dial_failure] does not retry (a peer condition that did not hold, a dial
    that was denied or aborted).  The code keeps no trace of the latter. *)
Section Dials.
  Context {PeerId : Type} `{Countable PeerId}.

Record Dials := mkDials { under_way : gset PeerId; refused : gset PeerId }.

Definition no_dials : Dials := mkDials ∅ ∅.

Definition dialled (ps : gset PeerId) (d : Dials) : Dials := mkDials (ps ∪ under_way d) (refused d ∖ ps).

(** A connection, or a failure that is retried. *)
Definition answered (p : PeerId) (d : Dials) : Dials := mkDials (under_way d ∖ {[p]}) (refused d ∖ {[p]}).

Definition failed (p : PeerId) (e : DialError) (d : Dials) : Dials :=
  match e with
  | OtherDialError => mkDials (under_way d ∖ {[p]}) ({[p]} ∪ refused d)
  | _ => answered p d
  end.

Definition handed_out (d : Dials) : gset PeerId := under_way d ∪ refused d.

Lemma dialled_nobody d : dialled ∅ d = d.
Proof. destruct d. unfold dialled. cbn. f_equal; set_solver. Qed.

Lemma handed_out_none : handed_out no_dials = ∅.
Proof. unfold handed_out. set_solver. Qed.

Lemma handed_out_dialled ps d : handed_out (dialled ps d) = ps ∪ handed_out d.
Proof.
  unfold handed_out. cbn. apply set_eq. intros q. destruct (decide (q ∈ ps)); set_solver.
Qed.

Lemma handed_out_answered p d : handed_out (answered p d) = handed_out d ∖ {[p]}.
Proof. unfold handed_out. cbn. set_solver. Qed.

Lemma handed_out_failed p e d : e <> OtherDialError -> handed_out (failed p e d) = handed_out d ∖ {[p]}.
Proof. intros He. rewrite <- handed_out_answered. by destruct e. Qed.

Lemma handed_out_refused p d : handed_out (failed p OtherDialError d) = {[p]} ∪ handed_out d.
Proof.
  unfold handed_out. cbn. apply set_eq. intros q. destruct (decide (q = p)) as [-> |]; set_solver.
Qed.

End Dials.

Arguments Dials PeerId {_ _}.

Section BaseTheory.
  Context {PeerId QueryId : Type} `{Countable PeerId, Countable QueryId}.
  Context `{!AllowList PeerId} `{!LruCache PeerId (gset Multiaddr)} `{!Kademlia PeerId QueryId}
          `{!DelayQueue PeerId} `{!BiHashMap PeerId QueryId}.
  Context {Record_ : Type}.
  Context `{!KademliaLaws PeerId QueryId} `{!DelayQueueLaws PeerId} `{!BiHashMapLaws PeerId QueryId}.

Notation Base := (BaseBehaviour (PeerId := PeerId) (QueryId := QueryId) (Record_ := Record_)).

(** ** Invariants *)

(** The peers that wait: for their cooldown, then for a lookup. *)
Definition waiting_with (pending : list PeerId) (b : Base) : list PeerId :=
  (dq_items (reconnect_queue b)).*1 ++ pending.

Definition waits_once (pending : list PeerId) (b : Base) : Prop :=
  NoDup (waiting_with pending b) /\
  reconnect_scheduled b = list_to_set (waiting_with pending b).

(** At most [max_concurrent_lookups] lookups run, each under its own query id. *)
Definition lookups_ok (b : Base) : Prop :=
  (bm_len (ongoing_lookups b) <= max_concurrent_lookups b)%nat /\
  (forall p q, bm_pairs (ongoing_lookups b) !! p = Some q -> q ∈ kad_used (kademlia b)).

(** The peers some events ask the swarm to dial. *)
Definition dials (evs : list (ToSwarm Record_)) : gset PeerId :=
  list_to_set (omap (fun ev => match ev with Dial p _ => Some p | _ => None end) evs).

(** A worker is taken care of: it waits, is looked up, is connected, or a dial is
    on its way or, for the peers of [dialing], under way. *)
Definition tracked (dialing : gset PeerId) (b : Base) (p : PeerId) : Prop :=
  p ∈ reconnect_scheduled b \/ is_Some (bm_pairs (ongoing_lookups b) !! p) \/
  outbound_conn_exists p b = true \/ p ∈ dialing \/ p ∈ dials (pending_events b).

(** What an operation that neither reads the chain nor sees a connection leaves. *)
Definition frame (b b' : Base) : Prop :=
  outbound_conns b' = outbound_conns b /\ registered_workers b' = registered_workers b /\
  maintain_worker_connections b' = maintain_worker_connections b /\
  max_concurrent_lookups b' = max_concurrent_lookups b.

#[global] Instance frame_preorder : PreOrder frame.
Proof.
  split; [done |]. unfold frame. intros x y z (? & ? & ? & ?) (? & ? & ? & ?). split_and!; congruence.
Qed.

Lemma conn_frame (b b' : Base) p : outbound_conns b' = outbound_conns b ->
  outbound_conn_exists p b' = outbound_conn_exists p b.
Proof. unfold outbound_conn_exists. by intros ->. Qed.

(** Being taken care of only needs the four places to grow. *)
Lemma tracked_mono dialing dialing' (b b' : Base) p :
  reconnect_scheduled b ⊆ reconnect_scheduled b' ->
  bm_pairs (ongoing_lookups b) ⊆ bm_pairs (ongoing_lookups b') ->
  outbound_conns b' = outbound_conns b -> dialing ⊆ dialing' ->
  dials (pending_events b) ⊆ dialing' ∪ dials (pending_events b') ->
  tracked dialing b p -> tracked dialing' b' p.
Proof.
  intros Hs Ho Hc Hd He. unfold tracked. rewrite (conn_frame b b') by done.
  intros [? | [[q ?] | [? | [? | ?]]]]; [| | tauto | |].
  - left. set_solver.
  - right; left. exists q. by eapply lookup_weaken.
  - set_solver.
  - set_solver.
Qed.

Lemma dials_app evs evs' : dials (evs ++ evs') = dials evs ∪ dials evs'.
Proof. unfold dials. by rewrite omap_app, list_to_set_app_L. Qed.

(** ** Lookups and dials *)

Lemma find_and_dial_frame p (b : Base) : frame b (find_and_dial p b).
Proof. unfold find_and_dial, frame. repeat case_match; done. Qed.

Lemma find_and_dial_waits p (b : Base) pending :
  waits_once pending b -> waits_once pending (find_and_dial p b).
Proof. unfold find_and_dial. repeat case_match; done. Qed.

Lemma find_and_dial_fields p (b : Base) :
  reconnect_scheduled (find_and_dial p b) = reconnect_scheduled b /\
  reconnect_queue (find_and_dial p b) = reconnect_queue b /\
  pending_lookups (find_and_dial p b) = pending_lookups b.
Proof. unfold find_and_dial. repeat case_match; done. Qed.

(** A fresh query id takes no other lookup's place. *)
Lemma bm_insert_fresh p q (m : BM (L := PeerId) (R := QueryId)) :
  (forall p' q', bm_pairs m !! p' = Some q' -> q' <> q) ->
  bm_pairs (bm_insert p q m) = <[p := q]> (bm_pairs m).
Proof.
  intros Hf. rewrite bm_pairs_insert. f_equal. apply map_filter_id. intros i x. apply Hf.
Qed.

Lemma find_and_dial_lookups p (b : Base) :
  lookups_ok b -> (bm_len (ongoing_lookups b) < max_concurrent_lookups b)%nat ->
  lookups_ok (find_and_dial p b).
Proof.
  intros [Hlen Hused] Hroom. unfold find_and_dial. repeat case_match; [by split | by split |].
  rename select (kad_get_closest_peers _ _ = _) into Hk.
  pose proof (kad_query_fresh p (kademlia b)) as Hfresh.
  pose proof (kad_query_used p (kademlia b)) as Hnew. rewrite Hk in Hfresh, Hnew. cbn in *.
  rename select (bm_contains_left p _ = false) into Hc.
  rewrite bm_contains_left_pairs, bool_decide_eq_false in Hc.
  unfold lookups_ok. cbn. rewrite bm_len_pairs, bm_insert_fresh by (intros ?? ?%Hused; congruence).
  rewrite bm_len_pairs in Hroom. split.
  - rewrite map_size_insert_None; [lia |]. by apply eq_None_not_Some.
  - rewrite Hnew. intros p' q' [(_ & <-) | (_ & Hl)]%lookup_insert_Some; set_solver.
Qed.

(** Whoever is handed to [find_and_dial] is taken care of, as is everybody else
    that was. *)
Lemma find_and_dial_tracked dialing p (b : Base) p' :
  lookups_ok b -> p' = p \/ tracked dialing b p' -> tracked dialing (find_and_dial p b) p'.
Proof.
  intros [_ Hused] Hp. unfold find_and_dial. repeat case_match.
  - destruct Hp as [-> | Hp].
    + unfold tracked. cbn -[dials]. rewrite dials_app. do 4 right. set_solver.
    + revert Hp. apply tracked_mono; try done. cbn -[dials]. rewrite dials_app. set_solver.
  - destruct Hp as [-> | Hp]; [| done]. rename select (bm_contains_left p _ = true) into Hc.
    rewrite bm_contains_left_pairs, bool_decide_eq_true in Hc. by right; left.
  - rename select (kad_get_closest_peers _ _ = _) into Hk.
    pose proof (kad_query_fresh p (kademlia b)) as Hfresh. rewrite Hk in Hfresh. cbn in Hfresh.
    rename select (bm_contains_left p _ = false) into Hc.
    rewrite bm_contains_left_pairs, bool_decide_eq_false, <- eq_None_not_Some in Hc.
    assert (forall p' q', bm_pairs (ongoing_lookups b) !! p' = Some q' -> q' <> q) as Hne
      by (intros ?? ?%Hused; congruence).
    destruct Hp as [-> | Hp].
    + right; left. cbn. rewrite bm_insert_fresh by done. by rewrite lookup_insert_eq.
    + revert Hp. apply tracked_mono; try done; cbn; [| set_solver].
      rewrite bm_insert_fresh by done. by apply insert_subseteq.
Qed.

(** ** Waiting *)

(** A peer that does not wait yet starts waiting, at the end of either line. *)
Lemma waits_once_new pending pending' (b b' : Base) p :
  waits_once pending b -> p ∉ reconnect_scheduled b ->
  waiting_with pending' b' ≡ₚ p :: waiting_with pending b ->
  reconnect_scheduled b' = {[p]} ∪ reconnect_scheduled b ->
  waits_once pending' b'.
Proof.
  intros [Hnd Hset] Hp Hperm Hs. unfold waits_once. rewrite Hperm, Hs, Hset. split.
  - constructor; [| done]. rewrite Hset in Hp. by rewrite elem_of_list_to_set in Hp.
  - by rewrite list_to_set_cons.
Qed.

Lemma waits_once_gone pending pending' (b b' : Base) p :
  waits_once pending b ->
  waiting_with pending b ≡ₚ p :: waiting_with pending' b' ->
  reconnect_scheduled b' = reconnect_scheduled b ∖ {[p]} ->
  waits_once pending' b'.
Proof.
  intros [Hnd Hset] Hperm Hs. unfold waits_once. rewrite Hs, Hset.
  rewrite Hperm in *. apply NoDup_cons in Hnd as [Hp Hnd]. split; [done |].
  rewrite list_to_set_cons. apply set_eq. intros x.
  rewrite elem_of_difference, elem_of_union, elem_of_singleton, elem_of_list_to_set.
  destruct (decide (x = p)) as [-> |]; tauto.
Qed.

Lemma schedule_reconnect_frame now p (b : Base) : frame b (schedule_reconnect now p b).
Proof. unfold schedule_reconnect, frame. by case_match. Qed.

Lemma schedule_reconnect_fields now p (b : Base) :
  pending_lookups (schedule_reconnect now p b) = pending_lookups b /\
  ongoing_lookups (schedule_reconnect now p b) = ongoing_lookups b /\
  kademlia (schedule_reconnect now p b) = kademlia b /\
  pending_events (schedule_reconnect now p b) = pending_events b.
Proof. unfold schedule_reconnect. by case_match. Qed.

Lemma schedule_reconnect_waits now p (b : Base) pending :
  waits_once pending b -> waits_once pending (schedule_reconnect now p b).
Proof.
  intros Hw. unfold schedule_reconnect. case_match eqn:Hc; [done |].
  apply orb_false_iff in Hc as [_ Hc]. apply bool_decide_eq_false in Hc.
  apply (waits_once_new pending pending b _ p); [done | done | | done].
  unfold waiting_with. cbn. by rewrite dq_items_insert.
Qed.

(** A worker that may have lost its connection is taken care of again. *)
Lemma schedule_reconnect_tracked dialing now p (b : Base) p' :
  maintain_worker_connections b = true -> p' ∈ registered_workers b ->
  p' = p \/ tracked dialing b p' -> tracked dialing (schedule_reconnect now p b) p'.
Proof.
  intros Hm Hr Hp. unfold schedule_reconnect. rewrite Hm. cbn [andb].
  destruct (decide (p ∈ reconnect_scheduled b)) as [Hin | Hin].
  { rewrite (bool_decide_eq_true_2 (p ∈ reconnect_scheduled b)), orb_true_r by done.
    destruct Hp as [-> |]; [by left | done]. }
  rewrite (bool_decide_eq_false_2 (p ∈ reconnect_scheduled b)), orb_false_r by done.
  destruct (outbound_conn_exists p b) eqn:Hc.
  { rewrite andb_false_r. cbn. destruct Hp as [-> |]; [| done]. unfold tracked. tauto. }
  rewrite andb_true_r. case_bool_decide as Hreg; cbn.
  - destruct Hp as [-> | Hp]; [left; cbn; set_solver |].
    revert Hp. apply tracked_mono; try done; cbn; set_solver.
  - destruct Hp as [-> |]; done.
Qed.

(** ** Reading the chain *)

Lemma enqueue_worker_frame (b : Base) p : frame b (enqueue_worker b p).
Proof. unfold enqueue_worker, frame. by case_match. Qed.

Lemma enqueue_workers_frame l (b : Base) : frame b (foldl enqueue_worker b l).
Proof.
  revert b. induction l as [| p l IH]; intros b; [done |]. cbn.
  etrans; [apply (enqueue_worker_frame b p) | apply IH].
Qed.

Lemma enqueue_workers_fields l (b : Base) :
  ongoing_lookups (foldl enqueue_worker b l) = ongoing_lookups b /\
  kademlia (foldl enqueue_worker b l) = kademlia b /\
  pending_events (foldl enqueue_worker b l) = pending_events b.
Proof.
  revert b. induction l as [| p l IH]; intros b; [done |]. cbn.
  destruct (IH (enqueue_worker b p)) as (-> & -> & ->). unfold enqueue_worker. by case_match.
Qed.

Lemma enqueue_workers_waits l (b : Base) :
  waits_once (pending_lookups b) b ->
  waits_once (pending_lookups (foldl enqueue_worker b l)) (foldl enqueue_worker b l).
Proof.
  revert b. induction l as [| p l IH]; intros b Hw; [done |]. cbn. apply IH.
  unfold enqueue_worker. case_match eqn:Hc; [done |].
  apply orb_false_iff in Hc as [_ Hc]. apply bool_decide_eq_false in Hc.
  apply (waits_once_new (pending_lookups b) _ b _ p); [done | done | | done].
  unfold waiting_with. cbn. rewrite (assoc_L (++)). by rewrite <- Permutation_cons_append.
Qed.

Lemma enqueue_workers_scheduled l (b : Base) :
  reconnect_scheduled b ⊆ reconnect_scheduled (foldl enqueue_worker b l) /\
  forall p, p ∈ l ->
    outbound_conn_exists p b = true \/ p ∈ reconnect_scheduled (foldl enqueue_worker b l).
Proof.
  revert b. induction l as [| q l IH]; intros b; [split; [done | set_solver] |]. cbn.
  destruct (IH (enqueue_worker b q)) as [Hsub Hall].
  assert (reconnect_scheduled b ⊆ reconnect_scheduled (enqueue_worker b q) /\
          (outbound_conn_exists q b = true \/ q ∈ reconnect_scheduled (enqueue_worker b q)))
    as [Hs Hq].
  { unfold enqueue_worker. case_match eqn:Hc; [| cbn; set_solver].
    apply orb_true_iff in Hc as [Hc | Hc]; [by auto |].
    apply bool_decide_eq_true in Hc. auto. }
  split; [set_solver |]. intros p [-> | Hp]%elem_of_cons; [set_solver |].
  destruct (Hall p Hp) as [Hc |]; [| by right]. left.
  by rewrite <- (conn_frame b (enqueue_worker b q)) by apply enqueue_worker_frame.
Qed.

(** ** [poll] *)

Lemma on_expired_frame p (b : Base) : frame b (on_expired p b).
Proof. unfold on_expired, frame. by case_match. Qed.

Lemma drain_expired_frame fuel now (b : Base) : frame b (drain_expired fuel now b).
Proof.
  revert b. induction fuel as [| fuel IH]; intros b; cbn; [done |].
  destruct (dq_poll now (reconnect_queue b)) as [[p q] |]; [| done].
  etrans; [| apply IH]. apply (on_expired_frame p (set_reconnect_queue q b)).
Qed.

Lemma drain_expired_fields fuel now (b : Base) :
  ongoing_lookups (drain_expired fuel now b) = ongoing_lookups b /\
  kademlia (drain_expired fuel now b) = kademlia b /\
  pending_events (drain_expired fuel now b) = pending_events b.
Proof.
  revert b. induction fuel as [| fuel IH]; intros b; cbn; [done |].
  destruct (dq_poll now (reconnect_queue b)) as [[p q] |]; [| done].
  destruct (IH (on_expired p (set_reconnect_queue q b))) as (-> & -> & ->).
  unfold on_expired. by case_match.
Qed.

Lemma drain_expired_waits fuel now (b : Base) :
  waits_once (pending_lookups b) b ->
  waits_once (pending_lookups (drain_expired fuel now b)) (drain_expired fuel now b).
Proof.
  revert b. induction fuel as [| fuel IH]; intros b Hw; cbn; [done |].
  destruct (dq_poll now (reconnect_queue b)) as [[p q] |] eqn:Hp; [| done]. apply IH.
  apply dq_poll_Some in Hp as (d & _ & Hitems). unfold on_expired. case_match.
  - destruct Hw as [Hnd Hset]. unfold waits_once, waiting_with in *. cbn.
    assert ((dq_items (reconnect_queue b)).*1 ++ pending_lookups b
            ≡ₚ (dq_items q).*1 ++ pending_lookups b ++ [p]) as Hperm.
    { rewrite Hitems. cbn. rewrite (assoc_L (++)). by rewrite <- Permutation_cons_append. }
    rewrite <- Hperm. split; [done |]. rewrite Hset. apply set_eq. intros x.
    by rewrite !elem_of_list_to_set, Hperm.
  - apply (waits_once_gone (pending_lookups b) _ b _ p); [done | | done].
    unfold waiting_with. cbn. by rewrite Hitems.
Qed.

Lemma drain_expired_tracked dialing fuel now (b : Base) p :
  p ∈ registered_workers b -> tracked dialing b p -> tracked dialing (drain_expired fuel now b) p.
Proof.
  revert b. induction fuel as [| fuel IH]; intros b Hr Ht; cbn; [done |].
  destruct (dq_poll now (reconnect_queue b)) as [[p' q] |]; [| done]. apply IH.
  { by rewrite (proj1 (proj2 (on_expired_frame p' (set_reconnect_queue q b)))). }
  unfold on_expired. cbn. case_match eqn:Hneed.
  - revert Ht. apply tracked_mono; try done. cbn -[dials]. set_solver.
  - destruct (decide (p = p')) as [-> | Hne].
    + rewrite bool_decide_eq_true_2, andb_true_r in Hneed by done. apply negb_false_iff in Hneed.
      right; right; left. exact Hneed.
    + destruct Ht as [Ht | Ht]; [left; cbn; set_solver | right; exact Ht].
Qed.

(** Enough iterations leave nothing in the queue that is due. *)
Lemma drain_expired_none_due fuel now (b : Base) :
  (length (dq_items (reconnect_queue b)) < fuel)%nat ->
  Forall (fun e => now < e.2) (dq_items (reconnect_queue (drain_expired fuel now b))).
Proof.
  revert b. induction fuel as [| fuel IH]; intros b Hf; cbn; [lia |].
  destruct (dq_poll now (reconnect_queue b)) as [[p q] |] eqn:Hp; [| by apply dq_poll_None].
  apply IH. apply dq_poll_Some in Hp as (d & _ & Hitems).
  apply Permutation_length in Hitems. cbn in Hitems.
  replace (reconnect_queue (on_expired p (set_reconnect_queue q b))) with q; [lia |].
  unfold on_expired. by case_match.
Qed.

(** One round of the second loop. *)
Definition start_one (p : PeerId) (b : Base) : Base :=
  let b := set_reconnect_scheduled (reconnect_scheduled b ∖ {[p]}) b in
  if outbound_conn_exists p b then b else find_and_dial p b.

Lemma start_lookups_cons p rest (b : Base) :
  start_lookups (p :: rest) b
  = if (bm_len (ongoing_lookups b) <? max_concurrent_lookups b)%nat
    then start_lookups rest (start_one p b) else set_pending_lookups (p :: rest) b.
Proof. done. Qed.

Lemma start_one_frame p (b : Base) : frame b (start_one p b).
Proof.
  unfold start_one. case_match; [done |].
  apply (find_and_dial_frame p (set_reconnect_scheduled (reconnect_scheduled b ∖ {[p]}) b)).
Qed.

Lemma start_one_waits p rest (b : Base) :
  waits_once (p :: rest) b -> waits_once rest (start_one p b).
Proof.
  intros Hw. assert (waits_once rest (set_reconnect_scheduled (reconnect_scheduled b ∖ {[p]}) b)).
  { apply (waits_once_gone (p :: rest) rest b _ p); [done | | done].
    unfold waiting_with. cbn. by rewrite Permutation_middle. }
  unfold start_one. case_match; [done |]. by apply find_and_dial_waits.
Qed.

Lemma start_one_lookups p (b : Base) :
  lookups_ok b -> (bm_len (ongoing_lookups b) < max_concurrent_lookups b)%nat ->
  lookups_ok (start_one p b).
Proof.
  intros Hl Hroom. unfold start_one. case_match; [done |]. by apply find_and_dial_lookups.
Qed.

Lemma start_one_tracked dialing p (b : Base) p' :
  lookups_ok b -> tracked dialing b p' -> tracked dialing (start_one p b) p'.
Proof.
  intros Hl Ht. unfold start_one. set (b1 := set_reconnect_scheduled _ b).
  assert (lookups_ok b1) by done.
  destruct (decide (p' = p)) as [-> | Hne].
  - destruct (outbound_conn_exists p b1) eqn:Hc; [unfold tracked; tauto |].
    apply find_and_dial_tracked; auto.
  - assert (tracked dialing b1 p') as Ht1.
    { destruct Ht as [Ht | Ht]; [left; subst b1; cbn; set_solver | right; exact Ht]. }
    case_match; [done |]. apply find_and_dial_tracked; auto.
Qed.

Lemma start_lookups_frame pending (b : Base) : frame b (start_lookups pending b).
Proof.
  revert b. induction pending as [| p rest IH]; intros b; [cbn; by case_match |].
  rewrite start_lookups_cons. case_match; [| done].
  etrans; [apply start_one_frame | apply IH].
Qed.

Lemma start_lookups_waits pending (b : Base) :
  waits_once pending b ->
  waits_once (pending_lookups (start_lookups pending b)) (start_lookups pending b).
Proof.
  revert b. induction pending as [| p rest IH]; intros b Hw; [cbn; by case_match |].
  rewrite start_lookups_cons. case_match; [| done]. apply IH. by apply start_one_waits.
Qed.

Lemma start_lookups_lookups pending (b : Base) :
  lookups_ok b -> lookups_ok (start_lookups pending b).
Proof.
  revert b. induction pending as [| p rest IH]; intros b Hl; [cbn; by case_match |].
  rewrite start_lookups_cons. case_match eqn:Hroom; [| done]. apply IH. zbool.
  by apply start_one_lookups.
Qed.

Lemma start_lookups_tracked dialing pending (b : Base) p :
  lookups_ok b -> tracked dialing b p -> tracked dialing (start_lookups pending b) p.
Proof.
  revert b. induction pending as [| p' rest IH]; intros b Hl Ht; [cbn; by case_match |].
  rewrite start_lookups_cons. case_match eqn:Hroom; [| done]. zbool.
  apply IH; [by apply start_one_lookups | by apply start_one_tracked].
Qed.

(** The loop ends because nobody waits, or because no more lookups may run. *)
Lemma start_lookups_done pending (b : Base) :
  pending_lookups (start_lookups pending b) = [] \/
  (max_concurrent_lookups b <= bm_len (ongoing_lookups (start_lookups pending b)))%nat.
Proof.
  revert b. induction pending as [| p rest IH]; intros b.
  - cbn. case_match eqn:Hroom; cbn; [by left |]. zbool. auto.
  - rewrite start_lookups_cons. case_match eqn:Hroom; cbn; zbool; [| auto].
    destruct (start_one_frame p b) as (_ & _ & _ & <-). apply IH.
Qed.

Lemma start_lookups_queue pending (b : Base) :
  reconnect_queue (start_lookups pending b) = reconnect_queue b.
Proof.
  revert b. induction pending as [| p rest IH]; intros b; [cbn; by case_match |].
  rewrite start_lookups_cons. case_match; [| done]. rewrite IH.
  unfold start_one. case_match; [done |]. by rewrite (proj1 (proj2 (find_and_dial_fields p _))).
Qed.

(** Events are only added, at the end. *)
Lemma start_lookups_events pending (b : Base) :
  exists evs, pending_events (start_lookups pending b) = pending_events b ++ evs.
Proof.
  revert b. induction pending as [| p rest IH]; intros b.
  { exists []. rewrite app_nil_r. cbn. by case_match. }
  rewrite start_lookups_cons. case_match; [| exists []; by rewrite app_nil_r].
  destruct (IH (start_one p b)) as [evs ->].
  assert (exists evs', pending_events (start_one p b) = pending_events b ++ evs') as [evs' ->].
  { unfold start_one, find_and_dial. repeat case_match; cbn; eauto; exists []; by rewrite app_nil_r. }
  exists (evs' ++ evs). by rewrite (assoc_L (++)).
Qed.

(** ** The DHT *)

Lemma remove_lookup_ok q (b : Base) :
  lookups_ok b -> lookups_ok (set_ongoing_lookups (bm_remove_by_right q (ongoing_lookups b)) b).
Proof.
  intros [Hlen Hused]. unfold lookups_ok. cbn. rewrite bm_len_pairs in *. rewrite bm_pairs_remove.
  split.
  - etrans; [| exact Hlen]. apply map_subseteq_size, map_filter_subseteq.
  - intros p q' [Hl _]%map_lookup_filter_Some. by apply Hused in Hl.
Qed.

(** Ending a lookup drops the looked-up peer alone. *)
Lemma remove_lookup_tracked dialing q p (b : Base) p' :
  bm_get_by_right q (ongoing_lookups b) = Some p -> tracked dialing b p' ->
  tracked ({[p]} ∪ dialing) (set_ongoing_lookups (bm_remove_by_right q (ongoing_lookups b)) b) p'.
Proof.
  intros Hq Ht. destruct (decide (p' = p)) as [-> | Hne]; [unfold tracked; set_solver |].
  destruct Ht as [? | [[q' Hl] | [? | [? | ?]]]]; [by left | | unfold tracked; set_solver ..].
  right; left. cbn. rewrite bm_pairs_remove. exists q'. apply map_lookup_filter_Some.
  split; [done |]. cbn. intros ->. apply Hne.
  apply bm_get_by_right_pairs in Hl. congruence.
Qed.

End BaseTheory.
