(* ===== verification/BaseProps.v ===== *)
(** * What the base behaviour guarantees over its runs

    A run is a sequence of swarm events, events of the inner behaviours and
    polls.  Beside the state, [Sys] records two things the swarm knows: the dials
    ([Dials]: those under way and those it refused) and the open outbound
    connections. *)

From S2P Require Import Prelude RustStd Instances Whitelist AddrCache Base BaseTheory.
From Stdlib Require Import ZArith Lia.
From stdpp Require Import base sets gmap numbers relations list.

Open Scope Z_scope.

Section BaseProps.
  Context {PeerId QueryId : Type} `{Countable PeerId, Countable QueryId}.
  Context `{!AllowList PeerId} `{!LruCache PeerId (gset Multiaddr)} `{!Kademlia PeerId QueryId}
          `{!DelayQueue PeerId} `{!BiHashMap PeerId QueryId}.
  Context `{BuildProfile} (private_network : bool)
          (with_p2p : PeerId -> Multiaddr -> Multiaddr + Multiaddr).
  Context {Record_ : Type}.

Notation Base := (BaseBehaviour (PeerId := PeerId) (QueryId := QueryId) (Record_ := Record_)).

Record Sys := mkSys { base : Base; dialing : Dials PeerId; open_conns : list PeerId }.

(** Steps of a run.  The swarm answers a dial with a connection or with a failure
    of any kind; it closes only connections that are open, and keeps fewer than
    [2 ^ 32 - 1] of them.  The last three are what the inner
    behaviours do on their own: addresses are learnt and forgotten, the
    whitelist changes, Kademlia starts queries. *)
Inductive bstep : Sys -> Sys -> Prop :=
| bstep_established p b d o :
    Z.of_nat (length o) + 1 < 2 ^ 32 ->
    bstep (mkSys b d o)
      (mkSys (snd (on_connection_established (E := Empty_set) Dialer p b)) (answered p d) (p :: o))
| bstep_closed now p b d o o' :
    o ≡ₚ p :: o' ->
    bstep (mkSys b d o) (mkSys (snd (on_connection_closed (E := Empty_set) now Dialer p b)) d o')
| bstep_inbound now p b d o :
    bstep (mkSys b d o)
      (mkSys (snd (on_connection_closed (E := Empty_set) now Listener p
                     (snd (on_connection_established (E := Empty_set) Listener p b)))) d o)
| bstep_dial_failed now p e b d o :
    bstep (mkSys b d o)
      (mkSys (snd (dial_failure_event private_network with_p2p now (Some p) e b)) (failed p e d) o)
| bstep_identified p addrs b d o :
    bstep (mkSys b d o) (mkSys (snd (on_identify_event private_network with_p2p p addrs b)) d o)
| bstep_kademlia ev b d o out b' :
    on_kademlia_event private_network with_p2p ev b = (out, b') ->
    bstep (mkSys b d o) (mkSys b' (dialled (dials (option_list out)) d) o)
| bstep_nodes nodes b d o :
    bstep (mkSys b d o) (mkSys (base_on_nodes_update nodes b) d o)
| bstep_poll now b d o out b' :
    base_poll now b = (out, b') ->
    bstep (mkSys b d o) (mkSys b' (dialled (dials (option_list out)) d) o)
| bstep_allow p b d o : bstep (mkSys b d o) (mkSys (base_allow_peer p b) d o)
| bstep_server_mode b d o : bstep (mkSys b d o) (mkSys (set_server_mode b) d o)
| bstep_cache c b d o : bstep (mkSys b d o) (mkSys (set_address_cache c b) d o)
| bstep_whitelist w b d o : bstep (mkSys b d o) (mkSys (set_whitelist w b) d o)
| bstep_kad_moves k b d o :
    kad_used (kademlia b) ⊆ kad_used k -> bstep (mkSys b d o) (mkSys (set_kademlia k b) d o).

(** A node that maintains worker connections says so before it runs. *)
Definition init_sys (maintain : bool) config boot_nodes k : Sys :=
  let b := BaseBehaviour_new config boot_nodes k in
  mkSys (if maintain then start_maintaining b else b) no_dials [].

Definition reachable_sys (maintain : bool) (s : Sys) : Prop :=
  exists config boot_nodes k, rtc bstep (init_sys maintain config boot_nodes k) s.

Definition count (p : PeerId) (o : list PeerId) : Z := Z.of_nat (length (filter (fun q => q = p) o)).

(** The counters of [outbound_conns] are right. *)
Definition conns_ok (o : list PeerId) (b : Base) : Prop :=
  Z.of_nat (length o) < 2 ^ 32 /\ forall p, default 0 (outbound_conns b !! p) = count p o.

Definition workers_tracked (d : gset PeerId) (b : Base) : Prop :=
  maintain_worker_connections b = true -> forall p, p ∈ registered_workers b -> tracked d b p.

Record sys_inv (s : Sys) : Prop := {
  inv_waits : waits_once (pending_lookups (base s)) (base s);
  inv_lookups : lookups_ok (base s);
  inv_conns : conns_ok (open_conns s) (base s);
  inv_tracked : workers_tracked (handed_out (dialing s)) (base s)
}.

  Context `{!KademliaLaws PeerId QueryId} `{!DelayQueueLaws PeerId} `{!BiHashMapLaws PeerId QueryId}.

(** ** Connections *)

Lemma count_cons p q o : count p (q :: o) = (if bool_decide (q = p) then 1 else 0) + count p o.
Proof.
  unfold count. rewrite filter_cons. case_bool_decide; case_decide; try done; cbn [length]; lia.
Qed.

Lemma count_perm p o o' : o ≡ₚ o' -> count p o = count p o'.
Proof. intros Hp. unfold count. by rewrite Hp. Qed.

Lemma count_le p o : 0 <= count p o <= Z.of_nat (length o).
Proof. unfold count. pose proof (length_filter (fun q => q = p) o). lia. Qed.

Lemma count_pos p o : 0 < count p o <-> p ∈ o.
Proof.
  unfold count. split.
  - destruct (filter (fun q => q = p) o) as [| q l] eqn:Hf; [cbn; lia |]. intros _.
    assert (q ∈ filter (fun q => q = p) o) as [-> Hq]%list_elem_of_filter
      by (rewrite Hf; by left). done.
  - intros Hp. assert (p ∈ filter (fun q => q = p) o) as Hin by (by apply list_elem_of_filter).
    destruct (filter _ o); [by apply not_elem_of_nil in Hin | cbn; lia].
Qed.

Lemma conn_exists_iff o (b : Base) p :
  conns_ok o b -> outbound_conn_exists p b = true <-> p ∈ o.
Proof.
  intros [_ Hc]. rewrite <- count_pos, <- Hc. unfold outbound_conn_exists.
  destruct (outbound_conns b !! p); cbn; [apply Z.ltb_lt | done].
Qed.

(** With the counters right, neither handler overflows. *)
Lemma established_run o (b : Base) p :
  conns_ok o b -> Z.of_nat (length o) + 1 < 2 ^ 32 ->
  on_connection_established (E := Empty_set) Dialer p b
  = (Ok None, set_outbound_conns (<[p := count p o + 1]> (outbound_conns b)) b).
Proof.
  intros [_ Hc] Hlen. cbn. rewrite Hc. pose proof (count_le p o).
  unfold add_u32. by rewrite (proj2 (Z.ltb_lt _ _)) by lia.
Qed.

Lemma closed_run now o (b : Base) p :
  conns_ok o b -> p ∈ o ->
  on_connection_closed (E := Empty_set) now Dialer p b
  = (Ok None, schedule_reconnect now p
                (set_outbound_conns (<[p := count p o - 1]> (outbound_conns b)) b)).
Proof.
  intros [_ Hc] Hp%count_pos. cbn. specialize (Hc p).
  destruct (outbound_conns b !! p) as [x |]; cbn in Hc; [| lia].
  unfold sub_u32. rewrite (proj2 (Z.leb_le _ _)) by lia. by rewrite Hc.
Qed.

Lemma conns_ok_frame o (b b' : Base) : frame b b' -> conns_ok o b -> conns_ok o b'.
Proof. intros (Hc & _) [Hl Hall]. split; [done |]. by rewrite Hc. Qed.

Lemma workers_tracked_frame d d' (b b' : Base) :
  frame b b' -> (forall p, p ∈ registered_workers b -> tracked d b p -> tracked d' b' p) ->
  workers_tracked d b -> workers_tracked d' b'.
Proof.
  intros (_ & Hr & Hm & _) Ht Hw. unfold workers_tracked. rewrite Hr, Hm. intros Hmt p Hp. auto.
Qed.

(** ** The steps *)

Lemma inv_established p b d o :
  Z.of_nat (length o) + 1 < 2 ^ 32 -> sys_inv (mkSys b d o) ->
  sys_inv (mkSys (snd (on_connection_established (E := Empty_set) Dialer p b)) (answered p d) (p :: o)).
Proof.
  intros Hlen [Hw Hl Hc Ht]. cbn [base dialing open_conns] in *.
  rewrite (established_run o) by done. cbn [snd].
  assert (conns_ok (p :: o) (set_outbound_conns (<[p:=count p o + 1]> (outbound_conns b)) b)) as Hc'.
  { split; [cbn [length]; lia |]. intros q. cbn. rewrite count_cons.
    case_bool_decide as Hq; [subst; rewrite lookup_insert_eq; cbn; lia |].
    rewrite lookup_insert_ne by done. rewrite (proj2 Hc). lia. }
  split; cbn [base dialing open_conns]; [done | done | done |].
  intros Hm q Hq. destruct (decide (q = p)) as [-> | Hne].
  - do 2 right. left. apply (conn_exists_iff (p :: o)); [done | by left].
  - specialize (Ht Hm q Hq). unfold tracked in *.
    assert (outbound_conn_exists q (set_outbound_conns (<[p:=count p o + 1]> (outbound_conns b)) b)
            = outbound_conn_exists q b) as ->.
    { unfold outbound_conn_exists. cbn. by rewrite lookup_insert_ne. }
    rewrite handed_out_answered. cbn -[dials] in *. set_solver.
Qed.

Lemma inv_closed now p b d o o' :
  o ≡ₚ p :: o' -> sys_inv (mkSys b d o) ->
  sys_inv (mkSys (snd (on_connection_closed (E := Empty_set) now Dialer p b)) d o').
Proof.
  intros Hperm [Hw Hl Hc Ht]. cbn [base dialing open_conns] in *.
  rewrite (closed_run now o) by (done || (rewrite Hperm; by left)). cbn [snd].
  set (b1 := set_outbound_conns _ b).
  assert (conns_ok o' b1) as Hc1.
  { split; [apply Permutation_length in Hperm; cbn in Hperm; destruct Hc; lia |].
    intros q. subst b1. cbn. pose proof (count_perm q _ _ Hperm) as Hq. rewrite count_cons in Hq.
    destruct (decide (p = q)) as [<- | Hne].
    - rewrite lookup_insert_eq, bool_decide_eq_true_2 in * by done. cbn. lia.
    - rewrite lookup_insert_ne by done. rewrite bool_decide_eq_false_2 in Hq by done.
      rewrite (proj2 Hc). lia. }
  destruct (schedule_reconnect_fields now p b1) as (Hf1 & Hf2 & Hf3 & Hf4).
  destruct (schedule_reconnect_frame now p b1) as (Hr1 & Hr2 & Hr3 & Hr4).
  split; cbn [base dialing open_conns].
  - rewrite Hf1. by apply schedule_reconnect_waits.
  - unfold lookups_ok. rewrite Hf2, Hf3, Hr4. exact Hl.
  - by apply (conns_ok_frame o' b1).
  - intros Hm q Hq. rewrite Hr3 in Hm. rewrite Hr2 in Hq.
    apply (schedule_reconnect_tracked _ now p b1 q Hm Hq).
    destruct (decide (q = p)) as [-> | Hne]; [by left | right].
    specialize (Ht Hm q Hq). unfold tracked in *.
    assert (outbound_conn_exists q b1 = outbound_conn_exists q b) as ->; [| exact Ht].
    unfold outbound_conn_exists. cbn. by rewrite lookup_insert_ne.
Qed.

(** A step that only touches what no invariant reads, and the DHT. *)
Definition same_lines (b b' : Base) : Prop :=
  frame b b' /\ reconnect_scheduled b' = reconnect_scheduled b /\
  reconnect_queue b' = reconnect_queue b /\ pending_lookups b' = pending_lookups b /\
  pending_events b' = pending_events b.

Lemma inv_same_lines (b b' : Base) d d' o :
  same_lines b b' -> handed_out d ⊆ handed_out d' -> ongoing_lookups b' = ongoing_lookups b ->
  kad_used (kademlia b) ⊆ kad_used (kademlia b') ->
  sys_inv (mkSys b d o) -> sys_inv (mkSys b' d' o).
Proof.
  intros (Hfr & Hs & Hq & Hp & He) Hd Ho Hk [Hw Hl Hc Ht]. cbn [base dialing open_conns] in *.
  pose proof Hfr as (Hf1 & Hf2 & Hf3 & Hf4). split; cbn [base dialing open_conns].
  - unfold waits_once, waiting_with in *. by rewrite Hs, Hq, Hp.
  - unfold lookups_ok in *. rewrite Ho, Hf4. destruct Hl as [? Hl]. split; [done |].
    intros q r Hr. apply Hk. by apply (Hl q).
  - by apply (conns_ok_frame o b).
  - apply (workers_tracked_frame (handed_out d) (handed_out d') b b' Hfr); [| done]. intros q _.
    apply tracked_mono; rewrite ?Hs, ?Ho, ?He; [done | done | done | done | set_solver].
Qed.

Lemma try_emit_confidence_lines (b : Base) :
  same_lines b (snd (try_emit_confidence b)) /\
  ongoing_lookups (snd (try_emit_confidence b)) = ongoing_lookups b /\
  kademlia (snd (try_emit_confidence b)) = kademlia b.
Proof. unfold try_emit_confidence. cbn zeta. repeat case_match; done. Qed.

Lemma kad_add_addresses_used p addrs (k : Kad (PeerId := PeerId) (QueryId := QueryId)) :
  kad_used k ⊆ kad_used (foldl (fun k a => kad_add_address p a k) k addrs).
Proof.
  revert k. induction addrs as [| a addrs IH]; intros k; cbn; [done |].
  etrans; [apply kad_add_address_used | apply IH].
Qed.

Lemma inv_identified p addrs b d o :
  sys_inv (mkSys b d o) ->
  sys_inv (mkSys (snd (on_identify_event private_network with_p2p p addrs b)) d o).
Proof.
  intros Hi. unfold on_identify_event. set (b1 := set_identified_peers _ _).
  destruct (try_emit_confidence_lines b1) as (Hlines & Ho & Hk).
  apply (inv_same_lines b _ d d o); [exact Hlines | done | exact Ho | | exact Hi].
  rewrite Hk. subst b1. cbn. apply kad_add_addresses_used.
Qed.

Lemma inv_dial_failed now p e b d o :
  sys_inv (mkSys b d o) ->
  sys_inv (mkSys (snd (dial_failure_event private_network with_p2p now (Some p) e b)) (failed p e d) o).
Proof.
  intros Hi. unfold dial_failure_event. set (b1 := set_address_cache _ b).
  assert (sys_inv (mkSys b1 d o)) as [Hw Hl Hc Ht] by (by apply (inv_same_lines b _ d d o)).
  cbn [base dialing open_conns] in *. destruct (decide (e = OtherDialError)) as [-> | He].
  { split; cbn [base dialing open_conns]; [done.. |]. intros Hm q Hq. specialize (Ht Hm q Hq). revert Ht.
    apply tracked_mono; try done; [rewrite handed_out_refused |]; set_solver. }
  replace (snd (base_on_dial_failure now (Some p) e b1)) with (schedule_reconnect now p b1)
    by (by destruct e).
  destruct (schedule_reconnect_fields now p b1) as (Hf1 & Hf2 & Hf3 & Hf4).
  destruct (schedule_reconnect_frame now p b1) as (Hr1 & Hr2 & Hr3 & Hr4).
  split; cbn [base dialing open_conns].
  - rewrite Hf1. by apply schedule_reconnect_waits.
  - unfold lookups_ok. rewrite Hf2, Hf3, Hr4. exact Hl.
  - by apply (conns_ok_frame o b1).
  - intros Hm q Hq. rewrite Hr3 in Hm. rewrite Hr2 in Hq.
    apply (schedule_reconnect_tracked _ now p b1 q Hm Hq).
    destruct (decide (q = p)) as [-> | Hne]; [by left | right].
    specialize (Ht Hm q Hq). rewrite handed_out_failed by done. unfold tracked in *. set_solver.
Qed.

Lemma inv_kademlia ev b d o out b' :
  on_kademlia_event private_network with_p2p ev b = (out, b') ->
  sys_inv (mkSys b d o) -> sys_inv (mkSys b' (dialled (dials (option_list out)) d) o).
Proof.
  intros Hev Hi.
  assert (forall b1, same_lines b b1 -> ongoing_lookups b1 = ongoing_lookups b ->
            kademlia b1 = kademlia b -> sys_inv (mkSys b1 (dialled (dials (option_list out)) d) o)) as Hsame.
  { intros b1 Hlines Ho Hk. apply (inv_same_lines b b1 d); rewrite ?Hk; try done. rewrite handed_out_dialled. set_solver. }
  destruct ev as [q peers last | p a | p addrs | r |]; cbn in Hev;
    [| by injection Hev as <- <-; apply Hsame ..].
  destruct (bm_get_by_right q (ongoing_lookups b)) as [p |] eqn:Hq;
    [| by injection Hev as <- <-; apply Hsame].
  destruct (last || _) eqn:Hfin; cbn zeta in Hev;
    [| by injection Hev as <- <-; case_match; apply Hsame].
  set (b1 := set_ongoing_lookups (bm_remove_by_right q (ongoing_lookups b)) b) in Hev.
  assert (sys_inv (mkSys b1 (dialled {[p]} d) o)) as Hi1.
  { destruct Hi as [Hw Hl Hc Ht]. cbn [base dialing open_conns] in *.
    split; cbn [base dialing open_conns]; [done | by apply remove_lookup_ok | done |].
    intros Hm p' Hp'. rewrite handed_out_dialled. by apply remove_lookup_tracked, Ht. }
  injection Hev as <- <-. cbn [option_list] in *.
  apply (inv_same_lines b1 _ (dialled {[p]} d)); [by case_match | | by case_match | by case_match | done].
  rewrite !handed_out_dialled. unfold dials. cbn. set_solver.
Qed.

Lemma inv_nodes nodes b d o :
  sys_inv (mkSys b d o) -> sys_inv (mkSys (base_on_nodes_update nodes b) d o).
Proof.
  intros [Hw Hl Hc Ht]. cbn [base dialing open_conns] in *. unfold base_on_nodes_update.
  cbn zeta. set (b0 := set_registered_workers (workers nodes) b).
  set (b1 := if whitelist_initialized b0 then b0 else _).
  assert (b1 = b0 \/ b1 = set_whitelist_initialized true b0 \/
          b1 = set_kademlia (kad_bootstrap (kademlia b0)) (set_whitelist_initialized true b0)) as Hb1.
  { subst b1. repeat case_match; auto. }
  assert (waits_once (pending_lookups b1) b1 /\ lookups_ok b1 /\ conns_ok o b1) as (Hw1 & Hl1 & Hc1).
  { destruct Hb1 as [-> | [-> | ->]]; [done | done |]. split_and!; [done | | done].
    destruct Hl as [? Hl]. split; [done |]. intros p q Hp. cbn.
    apply kad_bootstrap_used. by apply (Hl p). }
  clearbody b1. destruct (maintain_worker_connections b1) eqn:Hm.
  - pose proof (enqueue_workers_frame (elements (registered_workers b1)) b1) as Hfr.
    pose proof Hfr as (Hr1 & Hr2 & Hr3 & Hr4).
    destruct (enqueue_workers_fields (elements (registered_workers b1)) b1) as (Hf1 & Hf2 & Hf3).
    split; cbn [base dialing open_conns].
    + by apply enqueue_workers_waits.
    + unfold lookups_ok. by rewrite Hf1, Hf2, Hr4.
    + by apply (conns_ok_frame o b1).
    + intros _ p Hp. rewrite Hr2 in Hp.
      destruct (proj2 (enqueue_workers_scheduled (elements (registered_workers b1)) b1) p)
        as [Hconn | Hs]; [by apply elem_of_elements | | by left].
      do 2 right. left. by rewrite (conn_frame b1) by done.
  - split; cbn [base dialing open_conns]; [done.. |]. intros Hm'. congruence.
Qed.

Lemma inv_poll now b d o out b' :
  base_poll now b = (out, b') -> sys_inv (mkSys b d o) ->
  sys_inv (mkSys b' (dialled (dials (option_list out)) d) o).
Proof.
  intros Hpoll [Hw Hl Hc Ht]. cbn [base dialing open_conns] in *. unfold base_poll in Hpoll.
  set (fuel := S (length _)) in Hpoll. set (b1 := drain_expired fuel now b) in Hpoll.
  set (b2 := start_lookups (pending_lookups b1) b1) in Hpoll.
  destruct (drain_expired_fields fuel now b) as (Hf1 & Hf2 & Hf3).
  pose proof (drain_expired_frame fuel now b) as Hfr1.
  assert (lookups_ok b1) as Hl1.
  { unfold lookups_ok. subst b1. rewrite Hf1, Hf2. by destruct Hfr1 as (_ & _ & _ & ->). }
  assert (frame b b2) as Hfr2.
  { etrans; [exact Hfr1 | apply start_lookups_frame]. }
  assert (sys_inv (mkSys b2 d o)) as Hi2.
  { split; cbn [base dialing open_conns].
    - apply start_lookups_waits. by apply drain_expired_waits.
    - by apply start_lookups_lookups.
    - by apply (conns_ok_frame o b).
    - apply (workers_tracked_frame (handed_out d) (handed_out d) b b2 Hfr2); [| done]. intros p Hp Htp.
      apply start_lookups_tracked; [done |]. by apply drain_expired_tracked. }
  destruct Hi2 as [Hw2 Hl2 Hc2 Ht2]. cbn [base dialing open_conns] in *.
  destruct (pending_events b2) as [| ev evs] eqn:Hev; injection Hpoll as <- <-.
  - split; cbn [base dialing open_conns option_list]; [done.. |]. intros Hm p Hp.
    specialize (Ht2 Hm p Hp). revert Ht2. apply tracked_mono; try done; rewrite handed_out_dialled; set_solver.
  - split; cbn [base dialing open_conns option_list]; [done.. |]. intros Hm p Hp.
    specialize (Ht2 Hm p Hp). revert Ht2. apply tracked_mono; try done; rewrite handed_out_dialled; [set_solver |].
    cbn -[dials]. rewrite Hev. change (ev :: evs) with ([ev] ++ evs). rewrite dials_app. set_solver.
Qed.

Lemma bstep_inv s s' : bstep s s' -> sys_inv s -> sys_inv s'.
Proof.
  destruct 1; intros Hi.
  - by apply inv_established.
  - by eapply inv_closed.
  - exact Hi.
  - by apply inv_dial_failed.
  - by apply inv_identified.
  - by eapply inv_kademlia.
  - by apply inv_nodes.
  - by eapply inv_poll.
  - apply (inv_same_lines b _ d d o); done.
  - apply (inv_same_lines b _ d d o); try done. apply kad_set_server_mode_used.
  - apply (inv_same_lines b _ d d o); done.
  - apply (inv_same_lines b _ d d o); done.
  - apply (inv_same_lines b _ d d o); done.
Qed.

Lemma init_inv maintain config boot_nodes k : sys_inv (init_sys maintain config boot_nodes k).
Proof.
  assert (forall b, reconnect_scheduled b = ∅ -> reconnect_queue b = dq_new -> pending_lookups b = [] ->
            ongoing_lookups b = bm_default -> outbound_conns b = ∅ -> registered_workers b = ∅ ->
            sys_inv (mkSys b no_dials [])) as Hinit.
  { intros b Hs Hq Hp Ho Hc Hr. split; cbn [base dialing open_conns].
    - unfold waits_once, waiting_with. rewrite Hs, Hq, Hp, dq_items_new. split; [constructor | done].
    - unfold lookups_ok. rewrite Ho, bm_len_pairs, bm_pairs_default, map_size_empty.
      split; [lia |]. intros p q. by rewrite lookup_empty.
    - split; [done |]. intros p. by rewrite Hc, lookup_empty.
    - intros _ p. rewrite Hr. set_solver. }
  unfold init_sys. destruct maintain; by apply Hinit.
Qed.

Lemma reachable_sys_inv maintain s : reachable_sys maintain s -> sys_inv s.
Proof.
  intros (config & boot & k & Hrun). pose proof (init_inv maintain config boot k) as Hi. revert Hi.
  induction Hrun as [| x y z Hxy _ IH]; [done |]. intros Hx. by apply IH, (bstep_inv x y).
Qed.

Lemma bstep_maintains s s' :
  bstep s s' -> maintain_worker_connections (base s') = maintain_worker_connections (base s).
Proof.
  destruct 1 as [p b d o _ | now p b d o o' _ | | now p e b d o | p addrs b d o
                | ev b d o out b' Hev | nodes b d o | now b d o out b' Hpoll | | | | |];
    cbn [base]; try done.
  - cbn. by case_match.
  - cbn. repeat case_match; cbn; try done;
      by rewrite (proj1 (proj2 (proj2 (schedule_reconnect_frame _ _ _)))).
  - unfold dial_failure_event. destruct e; try done; cbn;
      by rewrite (proj1 (proj2 (proj2 (schedule_reconnect_frame _ _ _)))).
  - unfold on_identify_event. cbn zeta.
    by rewrite (proj1 (proj2 (proj2 (proj1 (proj1 (try_emit_confidence_lines _)))))).
  - destruct ev; cbn in Hev; try (by injection Hev as <- <-).
    repeat case_match; by injection Hev as <- <-.
  - unfold base_on_nodes_update. cbn zeta. repeat case_match; try done;
      by rewrite (proj1 (proj2 (proj2 (enqueue_workers_frame _ _)))).
  - unfold base_poll in Hpoll. set (b1 := drain_expired _ _ _) in Hpoll.
    assert (frame b (start_lookups (pending_lookups b1) b1)) as (_ & _ & Hm & _).
    { etrans; [apply drain_expired_frame | apply start_lookups_frame]. }
    by case_match; injection Hpoll as <- <-.
Qed.

Lemma reachable_maintains s : reachable_sys true s -> maintain_worker_connections (base s) = true.
Proof.
  intros (config & boot & k & Hrun).
  assert (maintain_worker_connections (base (init_sys true config boot k)) = true) as Hi by done.
  revert Hi. induction Hrun as [| x y z Hxy _ IH]; [done |]. intros Hx. apply IH.
  by rewrite (bstep_maintains x y).
Qed.

(** ** The guarantees *)

(** C18: in every reachable state a peer waits in at most one place, the cooldown
    queue or the line for a lookup, and [reconnect_scheduled] is exactly the
    set of those that wait; and no more than [max_concurrent_lookups] lookups
    run. *)
Theorem a_peer_waits_once maintain s :
  reachable_sys maintain s ->
  let b := base s in
  NoDup ((dq_items (reconnect_queue b)).*1 ++ pending_lookups b) /\
  (forall p, p ∈ reconnect_scheduled b <->
     p ∈ (dq_items (reconnect_queue b)).*1 \/ p ∈ pending_lookups b) /\
  (bm_len (ongoing_lookups b) <= max_concurrent_lookups b)%nat.
Proof.
  intros Hr. destruct (reachable_sys_inv maintain s Hr) as [[Hnd Hset] [Hl _] _ _].
  split_and!; [done | | done]. intros p. rewrite Hset. unfold waiting_with. set_solver.
Qed.

(** Whatever steps were taken, a registered worker of a node that maintains
    connections is taken care of, or the swarm refused its last dial. *)
Lemma worker_tracked s p :
  reachable_sys true s -> p ∈ registered_workers (base s) ->
  p ∈ open_conns s \/ p ∈ reconnect_scheduled (base s) \/
  is_Some (bm_pairs (ongoing_lookups (base s)) !! p) \/
  p ∈ handed_out (dialing s) \/ (exists c, Dial p c ∈ pending_events (base s)).
Proof.
  intros Hr Hp. pose proof (reachable_maintains s Hr) as Hm.
  destruct (reachable_sys_inv true s Hr) as [_ _ Hc Ht].
  destruct (Ht Hm p Hp) as [Hs | [Ho | [Hconn | [Hd | Hev]]]]; [auto | auto | | auto |].
  - left. by apply (conn_exists_iff _ (base s)).
  - do 4 right. unfold dials in Hev. apply elem_of_list_to_set, list_elem_of_omap in Hev
      as (ev & Hev & Hd). destruct ev as [p' c | |]; simplify_eq. by exists c.
Qed.

(** An update of the registry takes every worker it lists up again that is not
    connected. *)
Lemma nodes_update_enqueues nodes (b : Base) p :
  maintain_worker_connections b = true -> p ∈ workers nodes ->
  outbound_conn_exists p b = true \/ p ∈ reconnect_scheduled (base_on_nodes_update nodes b).
Proof.
  intros Hm Hp. unfold base_on_nodes_update. cbn zeta. set (b0 := set_registered_workers (workers nodes) b).
  set (b1 := if whitelist_initialized b0 then b0 else _).
  assert (registered_workers b1 = workers nodes /\ maintain_worker_connections b1 = true /\
          outbound_conns b1 = outbound_conns b) as (Hr & Hm1 & Hc) by (subst b1; repeat case_match; done).
  clearbody b1. rewrite Hm1.
  destruct (proj2 (enqueue_workers_scheduled (elements (registered_workers b1)) b1) p) as [Hconn | Hs];
    [apply elem_of_elements; by rewrite Hr | left | by right].
  unfold outbound_conn_exists in *. by rewrite <- Hc.
Qed.

(** C9: a node that maintains worker connections loses sight of no worker, except
    one whose dial the swarm refused.  In every reachable state each registered
    worker has an outbound connection, waits for its cooldown or for a lookup, is
    being looked up, or is being dialled, or the last dial to it ended in a failure
    that [on_dial_failure] does not retry (the peer condition did not hold, or the
    dial was denied or aborted); and whichever it is, the next update of the
    registry that lists the worker leaves it connected or waiting. *)
Theorem no_worker_is_forgotten s p :
  reachable_sys true s -> p ∈ registered_workers (base s) ->
  (p ∈ open_conns s \/ p ∈ reconnect_scheduled (base s) \/
   is_Some (bm_pairs (ongoing_lookups (base s)) !! p) \/
   p ∈ under_way (dialing s) \/ (exists c, Dial p c ∈ pending_events (base s)) \/
   p ∈ refused (dialing s)) /\
  (forall nodes, p ∈ workers nodes ->
   p ∈ open_conns s \/ p ∈ reconnect_scheduled (base_on_nodes_update nodes (base s))).
Proof.
  intros Hr Hp. split.
  - destruct (worker_tracked s p Hr Hp) as [? | [? | [? | [Hd | ?]]]]; try tauto.
    unfold handed_out in Hd. apply elem_of_union in Hd. tauto.
  - intros nodes Hn. destruct (reachable_sys_inv true s Hr) as [_ _ Hc _].
    rewrite <- (conn_exists_iff _ (base s) p Hc).
    apply nodes_update_enqueues; [by apply reachable_maintains | done].
Qed.

(** the connection counters never underflow or overflow.  In every reachable
    state [outbound_conn_exists] says whether an outbound connection is open;
    the handlers of a new connection and of the end of an open one return
    without panicking; and the end of the last connection to a registered
    worker schedules its reconnection. *)
Theorem outbound_conns_correct maintain s p :
  reachable_sys maintain s ->
  (outbound_conn_exists p (base s) = true <-> p ∈ open_conns s) /\
  (Z.of_nat (length (open_conns s)) + 1 < 2 ^ 32 ->
     fst (on_connection_established (E := Empty_set) Dialer p (base s)) = Ok None) /\
  (forall now rest, open_conns s ≡ₚ p :: rest ->
     fst (on_connection_closed (E := Empty_set) now Dialer p (base s)) = Ok None /\
     (p ∉ rest -> p ∈ registered_workers (base s) ->
      maintain_worker_connections (base s) = true ->
      p ∈ reconnect_scheduled (snd (on_connection_closed (E := Empty_set) now Dialer p (base s))))).
Proof.
  intros Hr. destruct (reachable_sys_inv maintain s Hr) as [_ _ Hc _]. split_and!.
  - by apply conn_exists_iff.
  - intros Hlen. by rewrite (established_run (open_conns s)).
  - intros now rest Hperm. rewrite (closed_run now (open_conns s)) by (done || (rewrite Hperm; by left)).
    split; [done |]. cbn [snd]. intros Hrest Hreg Hm. unfold schedule_reconnect. cbn.
    rewrite Hm, bool_decide_eq_true_2 by done.
    assert (outbound_conn_exists p
      (set_outbound_conns (<[p:=count p (open_conns s) - 1]> (outbound_conns (base s))) (base s)) = false)
      as ->.
    { unfold outbound_conn_exists. cbn. rewrite lookup_insert_eq.
      rewrite (count_perm p _ _ Hperm), count_cons, bool_decide_eq_true_2 by done.
      apply Z.ltb_ge. destruct (decide (0 < count p rest)) as [Hp%count_pos | ?]; [done | lia]. }
    cbn. case_bool_decide; [done |]. cbn. set_solver.
Qed.

(** [poll] does all it can.  It ends with no peer whose cooldown is over left
    in the queue, and with nobody left waiting for a lookup unless the maximum
    of lookups is running; and it hands out the oldest pending event. *)
Theorem poll_does_all_it_can now (b : Base) :
  let '(out, b') := base_poll now b in
  Forall (fun e => now < e.2) (dq_items (reconnect_queue b')) /\
  (pending_lookups b' = [] \/
   (max_concurrent_lookups b <= bm_len (ongoing_lookups b'))%nat) /\
  (forall ev, head (pending_events b) = Some ev -> out = Some ev).
Proof.
  unfold base_poll. set (fuel := S (length _)). set (b1 := drain_expired fuel now b).
  set (b2 := start_lookups (pending_lookups b1) b1).
  assert (Forall (fun e => now < e.2) (dq_items (reconnect_queue b2))) as Hq.
  { subst b2. rewrite start_lookups_queue. apply drain_expired_none_due. subst fuel. lia. }
  assert (pending_lookups b2 = [] \/ (max_concurrent_lookups b <= bm_len (ongoing_lookups b2))%nat) as Hp.
  { destruct (drain_expired_frame fuel now b) as (_ & _ & _ & <-). apply start_lookups_done. }
  destruct (start_lookups_events (pending_lookups b1) b1) as [evs Hev].
  destruct (drain_expired_fields fuel now b) as (_ & _ & Hev1). fold b1 in Hev1. rewrite Hev1 in Hev.
  destruct (pending_events b2) as [| ev rest] eqn:Hb2; split_and!; try done.
  - intros ev Hh. fold b2 in Hev. rewrite Hev in Hb2. by destruct (pending_events b).
  - intros ev' Hh. fold b2 in Hev. rewrite Hev in Hb2. destruct (pending_events b); naive_solver.
Qed.

End BaseProps.

(** ** Confidence *)

Section Confidence.
  Context {PeerId QueryId : Type} `{Countable PeerId, Countable QueryId}.
  Context `{!AllowList PeerId} `{!LruCache PeerId (gset Multiaddr)} `{!Kademlia PeerId QueryId}
          `{!DelayQueue PeerId} `{!BiHashMap PeerId QueryId}.
  Context (private_network : bool) (with_p2p : PeerId -> Multiaddr -> Multiaddr + Multiaddr).
  Context {Record_ : Type}.

Notation Base := (BaseBehaviour (PeerId := PeerId) (QueryId := QueryId) (Record_ := Record_)).

(** The confidence steps reported along a list of outcomes. *)
Definition reported (outs : list (option (ToSwarm (PeerId := PeerId) Record_))) : list Z :=
  omap (fun out => match out with Some (NetworkConnected s) => Some s | _ => None end) outs.

(** Identify events and chain reads, the inputs the confidence depends on. *)
Inductive ConfidenceInput :=
| Identified (p : PeerId) (addrs : list Multiaddr)
| NodesRead (nodes : NetworkNodes (PeerId := PeerId)).

Definition confidence_input (i : ConfidenceInput) (b : Base)
  : option (ToSwarm (PeerId := PeerId) Record_) * Base :=
  match i with
  | Identified p addrs => on_identify_event private_network with_p2p p addrs b
  | NodesRead nodes =>
    let '(ev, w) := on_nodes_update (ClientError := Empty_set) (Ok nodes) (whitelist b) in
    let b := set_whitelist w b in
    (None, match ev with Some nodes => base_on_nodes_update nodes b | None => b end)
  end.

Fixpoint confidence_run (inputs : list ConfidenceInput) (b : Base)
  : list (option (ToSwarm (PeerId := PeerId) Record_)) :=
  match inputs with
  | [] => []
  | i :: inputs => let '(out, b) := confidence_input i b in out :: confidence_run inputs b
  end.

Lemma confidence_step_range i n : 0 <= confidence_step i n <= 255.
Proof.
  unfold confidence_step, f32_floor_u8. cbn zeta.
  destruct (f32_mul _ _) as [| [] | | [] m e]; try lia.
  split; [| lia]. apply Z.min_glb; [lia |]. destruct (0 <=? e) eqn:He.
  - apply Z.mul_nonneg_nonneg; [lia |]. by apply Z.pow_nonneg.
  - apply Z.div_pos; [lia |]. apply Z.pow_pos_nonneg; zbool; lia.
Qed.

Definition above (last : option Z) (x : Z) : Prop :=
  match last with Some l => l < x | None => True end.

(** An input reports nothing and keeps the last step, or reports a higher one and
    keeps that. *)
Lemma confidence_input_cases i (b : Base) out b' :
  confidence_input i b = (out, b') ->
  (reported [out] = [] /\ last_sent_confidence_step b' = last_sent_confidence_step b) \/
  (exists x, reported [out] = [x] /\ 1 <= x <= 255 /\ above (last_sent_confidence_step b) x /\
     last_sent_confidence_step b' = Some x).
Proof.
  assert (forall l b, last_sent_confidence_step (foldl enqueue_worker b l)
                      = last_sent_confidence_step (b : Base)) as Hfold.
  { induction l as [| p l IH]; intros b0; [done |]. cbn. rewrite IH.
    unfold enqueue_worker. by case_match. }
  destruct i as [p addrs | nodes]; cbn [confidence_input].
  - unfold on_identify_event. cbn zeta. unfold try_emit_confidence. cbn zeta.
    set (step := confidence_step _ _). pose proof (confidence_step_range _ _ : 0 <= step <= 255) as Hr.
    clearbody step. cbn.
    destruct (negb _); [intros [= <- <-]; by left |].
    destruct (_ =? 0)%nat; [intros [= <- <-]; by left |].
    destruct (step =? 0) eqn:Hz; [intros [= <- <-]; by left |].
    destruct (last_sent_confidence_step b) as [l |] eqn:Hl; cbn.
    + destruct (step <=? l) eqn:Hle; intros [= <- <-]; [by left |]. right. exists step. zbool.
      split_and!; cbn; try done; lia.
    + intros [= <- <-]. right. exists step. zbool. split_and!; cbn; try done; lia.
  - destruct (on_nodes_update _ _) as [ev w]. intros [= <- <-]. left. split; [done |].
    destruct ev as [nodes' |]; [| done]. unfold base_on_nodes_update. cbn zeta.
    repeat case_match; rewrite ?Hfold; done.
Qed.

(** the network confidence reported only rises.  Whatever is identified and
    whatever the chain says, each reported step, in tenths, is at least one and
    higher than every step reported before. *)
Theorem confidence_only_rises inputs (b : Base) :
  let steps := reported (confidence_run inputs b) in
  (forall i j x y, (i < j)%nat -> steps !! i = Some x -> steps !! j = Some y -> x < y) /\
  (forall x, x ∈ steps -> 1 <= x <= 255 /\ above (last_sent_confidence_step b) x).
Proof.
  cbn zeta. revert b. induction inputs as [| inp inputs IH]; intros b; [cbn; split; set_solver |].
  cbn [confidence_run]. destruct (confidence_input inp b) as [out b'] eqn:Hin.
  change (out :: confidence_run inputs b') with ([out] ++ confidence_run inputs b').
  unfold reported. rewrite omap_app. fold (reported [out]). fold (reported (confidence_run inputs b')).
  destruct (IH b') as [Hsorted Hall].
  destruct (confidence_input_cases inp b out b' Hin) as [(-> & <-) | (x & -> & Hx & Hab & Hl)];
    [done |]. rewrite Hl in Hall. cbn [app]. split.
  - intros i j y z Hij Hi Hj. destruct j as [| j]; [lia |]. destruct i as [| i]; cbn in Hi, Hj.
    + simplify_eq. apply list_elem_of_lookup_2 in Hj. by apply Hall in Hj as [_ ?].
    + apply (Hsorted i j); [lia | done | done].
  - intros y [-> | Hy]%elem_of_cons; [done |]. apply Hall in Hy as [? Hy]. split; [done |].
    cbn in Hy. destruct (last_sent_confidence_step b); cbn in *; [lia | done].
Qed.

End Confidence.

(** The single-precision computation against the exact one, on every input of the
    range: sizes up to 128, up to twice as many peers. *)
Definition exact_step (identified whitelist_size : nat) : Z :=
  Z.min 10 (40 * Z.of_nat identified / (3 * Z.of_nat whitelist_size)).

Lemma confidence_checked :
  forallb (fun n => forallb (fun i => confidence_step i n =? exact_step i n) (seq 0 (2 * n + 1)))
    (seq 1 128) = true.
Proof. vm_compute. reflexivity. Qed.

(** For whitelists of up to 128 nodes rounding never shows: the step is ten
    times the share of identified peers in three quarters of the whitelist,
    rounded down and capped at ten; it is ten exactly when at least 75% are
    identified. *)
Theorem confidence_step_exact (identified whitelist_size : nat) :
  (1 <= whitelist_size <= 128)%nat -> (identified <= 2 * whitelist_size)%nat ->
  confidence_step identified whitelist_size
  = Z.min 10 (40 * Z.of_nat identified / (3 * Z.of_nat whitelist_size)) /\
  (confidence_step identified whitelist_size = 10
   <-> 3 * Z.of_nat whitelist_size <= 4 * Z.of_nat identified).
Proof.
  intros Hn Hi. pose proof confidence_checked as Hc.
  rewrite forallb_forall in Hc. specialize (Hc whitelist_size). rewrite in_seq in Hc.
  specialize (Hc ltac:(lia)). rewrite forallb_forall in Hc. specialize (Hc identified).
  rewrite in_seq in Hc. specialize (Hc ltac:(lia)). apply Z.eqb_eq in Hc. rewrite Hc.
  unfold exact_step. split; [done |]. rewrite Z.min_l_iff.
  split; intros Hle.
  - apply Z.nlt_ge. intros Hlt.
    assert (40 * Z.of_nat identified / (3 * Z.of_nat whitelist_size) < 10); [| lia].
    apply Z.div_lt_upper_bound; lia.
  - apply Z.div_le_lower_bound; lia.
Qed.

Lemma confidence_step_exact_witness : confidence_step 3 4 = 10 /\ confidence_step 2 4 = 6.
Proof.
  split.
  - apply (proj2 (confidence_step_exact 3 4 ltac:(lia) ltac:(lia))). reflexivity.
  - exact (proj1 (confidence_step_exact 2 4 ltac:(lia) ltac:(lia))).
Defined.

(** * The interfaces of the base behaviour, implemented; a run of it

    Simple implementations of [Kademlia], [DelayQueue] and [BiHashMap] that
    satisfy their laws, and a run in which a worker is read from the chain,
    looked up, dialled, connected, lost and scheduled again. *)

(** ** Kademlia: query ids are numbered *)
Definition toy_kad : Kademlia Z nat := {|
  Kad := nat;
  kad_get_closest_peers _ k := (k, S k);
  kad_add_address _ _ k := k;
  kad_bootstrap k := k;
  kad_bootstrapping _ := false;
  kad_set_server_mode k := k;
  kad_used k := list_to_set (seq 0 k)
|}.

Lemma toy_kad_laws : @KademliaLaws Z nat _ _ toy_kad.
Proof.
  split; cbn [fst snd kad_get_closest_peers kad_used toy_kad kad_add_address kad_bootstrap
              kad_set_server_mode]; intros; try done.
  - rewrite elem_of_list_to_set, elem_of_seq. lia.
  - apply set_eq. intros x. rewrite elem_of_union, elem_of_singleton, !elem_of_list_to_set, !elem_of_seq.
    lia.
Qed.

(** ** The delay queue: a list of items with deadlines *)
Definition list_delay_queue {A} : DelayQueue A := {|
  DQ := list (A * Z);
  dq_new := [];
  dq_insert a d q := q ++ [(a, d)];
  dq_poll now q :=
    match list_find (fun e => e.2 <= now) q with
    | Some (i, (a, _)) => Some (a, delete i q)
    | None => None
    end;
  dq_items q := q
|}.

Lemma list_delay_queue_laws {A} : @DelayQueueLaws A list_delay_queue.
Proof.
  split; cbn; intros.
  - done.
  - by rewrite <- Permutation_cons_append.
  - destruct (list_find _ q) as [[i [a' d]] |] eqn:Hf; simplify_eq.
    apply list_find_Some in Hf as (Hi & Hd & _). exists d. split; [exact Hd |].
    by apply delete_Permutation.
  - destruct (list_find _ q) as [[i [a' d]] |] eqn:Hf; simplify_eq.
    apply list_find_None in Hf. eapply Forall_impl; [exact Hf |]. cbn. intros e. lia.
Qed.

(** ** The two-way map: a one-to-one map *)
Section BiMap.
  Context {L R : Type} `{Countable L, EqDecision R}.

Definition one_to_one (m : gmap L R) : Prop :=
  forall l l' r, m !! l = Some r -> m !! l' = Some r -> l = l'.

Lemma one_to_one_filter m r : one_to_one m -> one_to_one (filter (fun e => e.2 <> r) m).
Proof. intros Hm l l' x [Hl _]%map_lookup_filter_Some [Hl' _]%map_lookup_filter_Some. by eapply Hm. Qed.

Lemma one_to_one_insert m l r :
  one_to_one m -> one_to_one (<[l := r]> (filter (fun e => e.2 <> r) m)).
Proof.
  intros Hm a b x [(<- & <-) | (Ha & Hl)]%lookup_insert_Some [(<- & Hx) | (Hb & Hl')]%lookup_insert_Some;
    [done | | |].
  - by apply map_lookup_filter_Some in Hl' as [_ ?].
  - subst. by apply map_lookup_filter_Some in Hl as [_ ?].
  - apply map_lookup_filter_Some in Hl as [Hl _], Hl' as [Hl' _]. by eapply Hm.
Qed.

Lemma one_to_one_empty : one_to_one ∅.
Proof. intros l l' r. by rewrite lookup_empty. Qed.

Definition map_bimap : BiHashMap L R := {|
  BM := { m : gmap L R | one_to_one m };
  bm_default := exist _ ∅ one_to_one_empty;
  bm_insert l r m := exist _ _ (one_to_one_insert (proj1_sig m) l r (proj2_sig m));
  bm_contains_left l m := bool_decide (is_Some (proj1_sig m !! l));
  bm_get_by_right r m :=
    (fun x => x.2.1) <$> list_find (fun e => e.2 = r) (map_to_list (proj1_sig m));
  bm_remove_by_right r m := exist _ _ (one_to_one_filter (proj1_sig m) r (proj2_sig m));
  bm_len m := size (proj1_sig m);
  bm_pairs m := proj1_sig m
|}.

Lemma map_bimap_laws : @BiHashMapLaws L R _ _ _ map_bimap.
Proof.
  split; try done. intros r l [m Hm]. cbn. split.
  - destruct (list_find _ _) as [[i [l' r']] |] eqn:Hf; cbn; [| done]. intros [= <-].
    apply list_find_Some in Hf as (Hi & <- & _). apply elem_of_map_to_list.
    by eapply list_elem_of_lookup_2.
  - intros Hl. apply elem_of_map_to_list in Hl as Hin.
    destruct (list_find _ _) as [[i [l' r']] |] eqn:Hf; cbn.
    + apply list_find_Some in Hf as (Hi & <- & _). f_equal. apply (Hm l' l r'); [| done].
      apply elem_of_map_to_list. by eapply list_elem_of_lookup_2.
    + apply list_find_None in Hf. rewrite Forall_forall in Hf. by destruct (Hf _ Hin).
Qed.

End BiMap.

(** ** A run *)

#[local] Existing Instances debug_profile set_allow_list list_lru toy_kad list_delay_queue map_bimap
  toy_kad_laws list_delay_queue_laws map_bimap_laws.

Notation DemoSys := (Sys (PeerId := Z) (QueryId := nat) (Record_ := unit)).

Definition demo_init : DemoSys := init_sys true (mkBaseConfig 16 1 30) [] 0%nat.

Definition demo_nodes : NetworkNodes (PeerId := Z) := mkNetworkNodes {[1]} {[7; 8]}.

(** Two workers are read; with room for one lookup the other waits. *)
Definition demo_base0 : BaseBehaviour := base demo_init.
Definition demo_base1 : BaseBehaviour := base_on_nodes_update demo_nodes demo_base0.
Definition demo_read : DemoSys := mkSys demo_base1 no_dials [].

Definition demo_base2 : BaseBehaviour := snd (base_poll 0 demo_base1).
Definition demo_dialing2 : Dials Z := dialled (dials (option_list (fst (base_poll 0 demo_base1)))) no_dials.
Definition demo_polled : DemoSys := mkSys demo_base2 demo_dialing2 [].

Notation demo_step := (bstep false demo_with_p2p (Record_ := unit) (PeerId := Z) (QueryId := nat)).

Lemma demo_step_read : demo_step demo_init demo_read.
Proof. exact (bstep_nodes _ _ demo_nodes demo_base0 no_dials []). Qed.

Lemma demo_step_poll : demo_step demo_read demo_polled.
Proof.
  exact (bstep_poll _ _ 0 demo_base1 no_dials [] _ _ (surjective_pairing (base_poll 0 demo_base1))).
Qed.

Lemma demo_polled_reachable : reachable_sys false demo_with_p2p true demo_polled.
Proof.
  exists (mkBaseConfig 16 1 30), [], 0%nat.
  exact (rtc_l _ _ _ _ demo_step_read (rtc_once _ _ demo_step_poll)).
Qed.

(** The connection to worker 7 comes up. *)
Definition demo_connected : DemoSys :=
  mkSys (snd (on_connection_established (E := Empty_set) Dialer 7 demo_base2))
    (answered 7 demo_dialing2) [7].

Lemma demo_step_connect : demo_step demo_polled demo_connected.
Proof. exact (bstep_established false demo_with_p2p 7 demo_base2 demo_dialing2 [] eq_refl). Qed.

Lemma demo_connected_reachable : reachable_sys false demo_with_p2p true demo_connected.
Proof.
  exists (mkBaseConfig 16 1 30), [], 0%nat.
  exact (rtc_l _ _ _ _ demo_step_read
           (rtc_l _ _ _ _ demo_step_poll (rtc_once _ _ demo_step_connect))).
Qed.

Lemma demo_waiting :
  pending_lookups (base demo_polled) = [8] /\ bm_len (ongoing_lookups (base demo_polled)) = 1%nat.
Proof. split; vm_compute; reflexivity. Qed.

Lemma demo_registered :
  8 ∈ registered_workers (base demo_polled) /\ 7 ∈ registered_workers (base demo_connected).
Proof.
  split; [apply (bool_decide_eq_true_1 (8 ∈ registered_workers (base demo_polled)))
         | apply (bool_decide_eq_true_1 (7 ∈ registered_workers (base demo_connected)))];
    vm_compute; reflexivity.
Qed.

Lemma a_peer_waits_once_witness :
  NoDup ((dq_items (reconnect_queue (base demo_polled))).*1 ++ pending_lookups (base demo_polled)) /\
  8 ∈ pending_lookups (base demo_polled).
Proof.
  split.
  - exact (proj1 (a_peer_waits_once false demo_with_p2p true demo_polled demo_polled_reachable)).
  - rewrite (proj1 demo_waiting). by left.
Defined.

(** A lookup of worker 7 has ended and its dial is refused: it is in nobody's
    care, until the registry is read again. *)
Definition demo_looked_up : BaseBehaviour :=
  snd (on_kademlia_event false demo_with_p2p (ClosestPeers 0%nat [] true) demo_base2).
Definition demo_dialing3 : Dials Z :=
  dialled (dials (option_list (fst (on_kademlia_event false demo_with_p2p (ClosestPeers 0%nat [] true) demo_base2))))
    demo_dialing2.
Definition demo_refused : DemoSys :=
  mkSys (snd (dial_failure_event false demo_with_p2p 5 (Some 7) OtherDialError demo_looked_up))
    (failed 7 OtherDialError demo_dialing3) [].

Lemma demo_refused_reachable : reachable_sys false demo_with_p2p true demo_refused.
Proof.
  exists (mkBaseConfig 16 1 30), [], 0%nat.
  refine (rtc_l _ _ _ _ demo_step_read (rtc_l _ _ _ _ demo_step_poll (rtc_l _ _ (mkSys demo_looked_up demo_dialing3 []) _ _
    (rtc_once _ _ _)))).
  - exact (bstep_kademlia false demo_with_p2p _ demo_base2 demo_dialing2 [] _ _ (surjective_pairing _)).
  - exact (bstep_dial_failed false demo_with_p2p 5 7 OtherDialError demo_looked_up demo_dialing3 []).
Qed.

Lemma no_worker_is_forgotten_witness :
  7 ∈ refused (dialing demo_refused) /\
  (7 ∈ open_conns demo_refused \/ 7 ∈ reconnect_scheduled (base_on_nodes_update demo_nodes (base demo_refused))).
Proof.
  split; [apply (bool_decide_eq_true_1 (7 ∈ refused (dialing demo_refused))); vm_compute; reflexivity |].
  apply (no_worker_is_forgotten false demo_with_p2p demo_refused 7 demo_refused_reachable).
  - apply (bool_decide_eq_true_1 (7 ∈ registered_workers (base demo_refused))). vm_compute. reflexivity.
  - apply (bool_decide_eq_true_1 (7 ∈ workers demo_nodes)). vm_compute. reflexivity.
Defined.

Lemma outbound_conns_correct_witness :
  fst (on_connection_closed (E := Empty_set) 5 Dialer 7 (base demo_connected)) = Ok None /\
  7 ∈ reconnect_scheduled (snd (on_connection_closed (E := Empty_set) 5 Dialer 7 (base demo_connected))).
Proof.
  destruct (outbound_conns_correct false demo_with_p2p true demo_connected 7 demo_connected_reachable)
    as (_ & _ & Hclosed).
  destruct (Hclosed 5 [] (reflexivity _)) as [Hok Hsched]. split; [exact Hok |]. apply Hsched.
  - apply not_elem_of_nil.
  - exact (proj2 demo_registered).
  - vm_compute. reflexivity.
Defined.

Lemma poll_does_all_it_can_witness :
  Forall (fun e => 0 < e.2) (dq_items (reconnect_queue (snd (base_poll 0 demo_base1)))).
Proof.
  pose proof (poll_does_all_it_can 0 demo_base1) as Hp.
  destruct (base_poll 0 demo_base1) as [out b'] eqn:Hb. exact (proj1 Hp).
Defined.

(** Reading the chain, then identifying one and both of the workers: steps 4 and 8. *)
Lemma demo_confidence :
  reported (confidence_run false demo_with_p2p
    [NodesRead demo_nodes; Identified 7 []; Identified 7 []; Identified 8 []] demo_base0) = [4; 8].
Proof. vm_compute. reflexivity. Qed.
