(* ===== verification/BitString.v ===== *)
(** * Bit strings and versions of heartbeats (crates/messages/src/bitstring.rs
    and versions.rs)

    A [BitString] is a deflated byte per bit with its size and number of ones.
    Deflate and the semver crate are interfaces. *)

From S2P Require Import Prelude RustStd.
From Stdlib Require Import ZArith Lia.
From stdpp Require Import base sets strings gmap numbers list.

Open Scope Z_scope.

(** [DeflateEncoder] into a vector, which does not fail, and [DeflateDecoder]. *)
Class Deflate := {
  deflate : list Z -> list Z;
  inflate : list Z -> option (list Z)
}.

Class DeflateLaws `{Deflate} :=
  inflate_deflate (l : list Z) : Forall (fun b => 0 <= b < 256) l -> inflate (deflate l) = Some l.

Record BitString := mkBitString { bs_data : list Z; bs_size : Z; bs_ones : Z }.

Section BitString.
  Context `{BuildProfile, Deflate}.

(** [bytemuck::cast_slice] of booleans. *)
Definition bool_bytes (slice : list bool) : list Z := Z.b2z <$> slice.

Definition sum_ones (slice : list bool) : Z := foldr Z.add 0 (bool_bytes slice).

Definition BitString_new (slice : list bool) : BitString :=
  mkBitString (deflate (bool_bytes slice)) (Z.of_nat (length slice)) (sum_ones slice).

Definition to_bytes {E} (b : BitString) : res E (list Z) := expect (inflate (bs_data b)).

Definition bool_of_byte (byte : Z) : res string bool :=
  if byte =? 0 then Ok false
  else if byte =? 1 then Ok true
  else Err "invalid boolean value in parsed BitString"%string.

Definition to_vec (b : BitString) : res string (list bool) :=
  bytes ← to_bytes b;
  rmap bool_of_byte bytes.

Definition ones (b : BitString) : Z := bs_ones b.

Definition zeros {E} (b : BitString) : res E Z := sub_u64 (bs_size b) (bs_ones b).

(** ** Properties *)

Lemma sum_ones_le slice : 0 <= sum_ones slice <= Z.of_nat (length slice).
Proof.
  unfold sum_ones, bool_bytes. induction slice as [| [] slice IH]; cbn [length fmap list_fmap foldr];
    [cbn; lia | change (Z.b2z true) with 1; lia | change (Z.b2z false) with 0; lia].
Qed.

Lemma sum_ones_count slice :
  sum_ones slice = Z.of_nat (length (filter (fun b => b = true) slice)) /\
  Z.of_nat (length slice) - sum_ones slice = Z.of_nat (length (filter (fun b => b = false) slice)).
Proof.
  unfold sum_ones, bool_bytes. induction slice as [| b slice [IH1 IH2]]; [done |].
  rewrite !filter_cons. cbn [length fmap list_fmap foldr].
  destruct b; repeat case_decide; try done; cbn [length];
    [change (Z.b2z true) with 1 | change (Z.b2z false) with 0]; lia.
Qed.

Lemma rmap_bool_of_byte slice : rmap bool_of_byte (bool_bytes slice) = Ok slice.
Proof.
  induction slice as [| b slice IH]; [done |]. unfold bool_bytes in *. cbn. rewrite IH. by destruct b.
Qed.

  Context `{!DeflateLaws}.

(** A bit string gives back the bits it was made of, and its counters count them. *)
Theorem BitString_roundtrip slice :
  let b := BitString_new slice in
  to_vec b = Ok slice /\
  ones b = Z.of_nat (length (filter (fun b => b = true) slice)) /\
  zeros (E := Empty_set) b = Ok (Z.of_nat (length (filter (fun b => b = false) slice))).
Proof.
  cbn zeta. destruct (sum_ones_count slice) as [Hones Hzeros]. pose proof (sum_ones_le slice).
  split_and!.
  - unfold to_vec, to_bytes. cbn [BitString_new bs_data]. rewrite inflate_deflate.
    + apply rmap_bool_of_byte.
    + unfold bool_bytes. apply Forall_fmap, Forall_forall. intros [] _; cbn; lia.
  - exact Hones.
  - unfold zeros. cbn [BitString_new bs_size bs_ones]. rewrite sub_u64_ok by lia. by rewrite Hzeros.
Qed.

End BitString.

(** ** Versions *)

(** The parts of semver the code touches: versions and comparators with their
    pre-release tag replaced, and the crate's own matching. *)
Class Semver := {
  Version : Type;
  VersionReq : Type;
  Comparator : Type;
  parse_version : str -> option Version;
  v_major : Version -> Z;
  v_minor : Version -> Z;
  v_patch : Version -> Z;
  v_without_pre : Version -> Version;
  c_major : Comparator -> Z;
  c_minor : Comparator -> option Z;
  c_patch : Comparator -> option Z;
  c_without_pre : Comparator -> Comparator;
  comparators : VersionReq -> list Comparator;
  comp_matches : Comparator -> Version -> bool;
  req_matches : VersionReq -> Version -> bool
}.

Section Versions.
  Context `{Semver}.

Fixpoint comparators_match (comps : list Comparator) (version version_without_pre : Version) : bool :=
  match comps with
  | [] => true
  | comp :: comps =>
    if comp_matches comp version then comparators_match comps version version_without_pre
    else if (c_major comp =? v_major version)
            && bool_decide (c_minor comp = Some (v_minor version))
            && bool_decide (c_patch comp = Some (v_patch version)) then false
    else if negb (comp_matches (c_without_pre comp) version_without_pre) then false
    else comparators_match comps version version_without_pre
  end.

Definition version_matches (version : Version) (req : VersionReq) : bool :=
  if req_matches req version then true
  else comparators_match (comparators req) version (v_without_pre version).

Definition heartbeat_version_matches (version : str) (req : VersionReq) : bool :=
  match parse_version version with
  | Some version => version_matches version req
  | None => false
  end.

(** A version passes exactly when semver accepts it, or each comparator accepts
    it, if need be with both pre-release tags removed - which is allowed only
    when the comparator does not name the very same release. *)
Theorem version_matches_iff version req :
  version_matches version req = true <->
  req_matches req version = true \/
  Forall (fun c =>
    comp_matches c version = true \/
    (comp_matches (c_without_pre c) (v_without_pre version) = true /\
     ~ (c_major c = v_major version /\ c_minor c = Some (v_minor version)
        /\ c_patch c = Some (v_patch version)))) (comparators req).
Proof.
  unfold version_matches. destruct (req_matches req version); [tauto |].
  assert (forall l, comparators_match l version (v_without_pre version) = true <->
    Forall (fun c => comp_matches c version = true \/
      (comp_matches (c_without_pre c) (v_without_pre version) = true /\
       ~ (c_major c = v_major version /\ c_minor c = Some (v_minor version)
          /\ c_patch c = Some (v_patch version)))) l) as Hall.
  { induction l as [| c l IH]; cbn; [split; [constructor | done] |]. rewrite Forall_cons, <- IH.
    destruct (comp_matches c version); [tauto |].
    destruct (Z.eqb_spec (c_major c) (v_major version));
      repeat case_bool_decide; cbn; destruct (comp_matches _ _); cbn; naive_solver. }
  rewrite Hall. naive_solver.
Qed.

End Versions.
