(* ===== verification/NetworkState.v ===== *)
(** * The published network state (crates/assignments/src/common.rs)

    Which of a state's assignments a consumer reads while the network migrates
    from the combined to the split blobs. *)

From S2P Require Import Prelude RustStd.
From Stdlib Require Import ZArith Lia String.
From stdpp Require Import base strings numbers list.

Record NetworkAssignment := mkNetworkAssignment {
  na_url : option str;
  na_fb_url : option str;
  na_fb_url_v1 : option str;
  na_id : str;
  na_effective_from : Z
}.

Record NetworkAssignmentV2 := mkNetworkAssignmentV2 {
  n2_id : str;
  n2_fb_url : str;
  n2_version : str;
  n2_effective_from : option Z
}.

Record SchemaBundle := mkSchemaBundle { sb_hash : str; sb_url : str }.

Inductive AssignmentType := Legacy | Split.

Definition AssignmentType_default : AssignmentType := Legacy.

Definition AssignmentType_to_string (t : AssignmentType) : str :=
  match t with Legacy => lit "legacy" | Split => lit "split" end.

Record NetworkState := mkNetworkState {
  network : str;
  assignment_type : AssignmentType;
  assignment : option NetworkAssignment;
  worker_assignment : option NetworkAssignmentV2;
  portal_assignment : option NetworkAssignmentV2;
  schema_bundle : option SchemaBundle
}.

Inductive ResolvedAssignments :=
| ResolvedLegacy (a : NetworkAssignment)
| ResolvedSplit (worker portal : NetworkAssignmentV2) (bundle : SchemaBundle).

Record InvalidNetworkState := mkInvalidNetworkState {
  ins_assignment_type : AssignmentType;
  ins_missing : string
}.

Definition resolve (self : NetworkState) (override : option AssignmentType)
  : res InvalidNetworkState ResolvedAssignments :=
  let t := default (assignment_type self) override in
  let missing what := mkInvalidNetworkState t what in
  match t with
  | Legacy =>
    match assignment self with
    | Some a => Ok (ResolvedLegacy a)
    | None => Err (missing "assignment"%string)
    end
  | Split =>
    match worker_assignment self, portal_assignment self, schema_bundle self with
    | Some worker, Some portal, Some bundle => Ok (ResolvedSplit worker portal bundle)
    | None, _, _ => Err (missing "worker_assignment"%string)
    | _, None, _ => Err (missing "portal_assignment"%string)
    | _, _, _ => Err (missing "schema_bundle"%string)
    end
  end.

(** Resolving never mixes the two generations: the answer has the shape that was
    asked for, by the override or else by the state, whatever else the state
    publishes. *)
Theorem resolve_shape (s s' : NetworkState) override :
  default (assignment_type s) override = default (assignment_type s') override ->
  (match default (assignment_type s) override with
   | Legacy => assignment s = assignment s'
   | Split => worker_assignment s = worker_assignment s' /\
              portal_assignment s = portal_assignment s' /\ schema_bundle s = schema_bundle s'
   end) ->
  resolve s override = resolve s' override.
Proof.
  intros Ht. unfold resolve. rewrite <- Ht.
  destruct (default (assignment_type s) override); [by intros -> | by intros (-> & -> & ->)].
Qed.
