(* ===== verification/StreamShared.v ===== *)
(** * Opening and accepting streams (crates/transport/src/libp2p_stream)

    [Shared] is the state that the behaviour, its connection handlers and every
    [Control] share: who is connected, where to send a request for a new
    stream, and the channels of peers that are still being dialed.

    A request for a stream carries a oneshot sender; it is known here by the
    number of that oneshot, and [answers] logs what is sent on oneshots:
    an outcome, or [Cancelled] when the sender is dropped unused.  The mpsc
    channels of the futures crate are an interface ([Mpsc]): a channel is known
    by an id that its senders and its receiver share, and a store holds what is
    queued in each.  [choose] is the random pick of [IteratorRandom::choose].
    [Arc<Mutex<Shared>>] is explicit state: a method holds the lock from its
    first line to its last. *)

From S2P Require Import Prelude RustStd.
From Stdlib Require Import ZArith Lia Ascii String.
From stdpp Require Import base sets strings gmap numbers list.

Open Scope Z_scope.

(** ** Channels of the futures crate *)

Inductive SendResult := SendOk | SendFull | SendDisconnected.

(** [mpsc_send] is a send with a guaranteed slot: [try_send] on a fresh clone of
    a [Sender], or [unbounded_send].  [mpsc_try_next] gives [None] for an empty
    channel and for a closed one alike.  [mpsc_drop_receiver] also returns the
    messages that die with the receiver.  [mpsc_queue] and [mpsc_live] observe:
    what is queued in a channel, and which channels have been created. *)
Class Mpsc (Chan T : Type) `{Countable Chan} := {
  Chans : Type;
  mpsc_channel : Z -> Chans -> Chan * Chans;
  mpsc_try_send : Chan -> T -> Chans -> SendResult * Chans;
  mpsc_send : Chan -> T -> Chans -> bool * Chans;
  mpsc_try_next : Chan -> Chans -> option T * Chans;
  mpsc_is_closed : Chan -> Chans -> bool;
  mpsc_close : Chan -> Chans -> Chans;
  mpsc_drop_receiver : Chan -> Chans -> list T * Chans;
  mpsc_queue : Chan -> Chans -> list T;
  mpsc_live : Chans -> gset Chan
}.
Arguments Chans Chan T {_ _ _}.

(** Two stores that agree on every channel but [c]. *)
Definition same_but {Chan T} `{Mpsc Chan T} (c : Chan) (h h' : Chans Chan T) : Prop :=
  mpsc_live h' = mpsc_live h /\
  (forall c', c' <> c -> mpsc_queue c' h' = mpsc_queue c' h /\ mpsc_is_closed c' h' = mpsc_is_closed c' h).

Class MpscLaws (Chan T : Type) `{Mpsc Chan T} := {
  mpsc_channel_fresh n h c h' : mpsc_channel n h = (c, h') ->
    c ∉ mpsc_live h /\ mpsc_live h' = {[c]} ∪ mpsc_live h /\
    mpsc_queue c h' = [] /\ mpsc_is_closed c h' = false /\
    (forall c', c' <> c -> mpsc_queue c' h' = mpsc_queue c' h /\ mpsc_is_closed c' h' = mpsc_is_closed c' h);
  mpsc_send_open c x h : mpsc_is_closed c h = false -> exists h', mpsc_send c x h = (true, h') /\
    same_but c h h' /\ mpsc_queue c h' = mpsc_queue c h ++ [x] /\ mpsc_is_closed c h' = false;
  mpsc_send_closed c x h : mpsc_is_closed c h = true -> mpsc_send c x h = (false, h);
  mpsc_try_send_cases c x h r h' : mpsc_try_send c x h = (r, h') ->
    match r with
    | SendOk => mpsc_is_closed c h = false /\ same_but c h h' /\
                mpsc_queue c h' = mpsc_queue c h ++ [x] /\ mpsc_is_closed c h' = false
    | SendFull => mpsc_is_closed c h = false /\ h' = h
    | SendDisconnected => mpsc_is_closed c h = true /\ h' = h
    end;
  mpsc_try_next_cons c x q h : mpsc_queue c h = x :: q -> exists h', mpsc_try_next c h = (Some x, h') /\
    same_but c h h' /\ mpsc_queue c h' = q /\ mpsc_is_closed c h' = mpsc_is_closed c h;
  mpsc_try_next_nil c h : mpsc_queue c h = [] -> exists h', mpsc_try_next c h = (None, h') /\
    same_but c h h' /\ mpsc_queue c h' = [] /\ mpsc_is_closed c h' = mpsc_is_closed c h;
  mpsc_close_spec c h : same_but c h (mpsc_close c h) /\
    mpsc_queue c (mpsc_close c h) = mpsc_queue c h /\ mpsc_is_closed c (mpsc_close c h) = true;
  mpsc_drop_receiver_spec c h : exists h', mpsc_drop_receiver c h = (mpsc_queue c h, h') /\
    same_but c h h' /\ mpsc_queue c h' = [] /\ mpsc_is_closed c h' = true
}.

(** ** Errors *)

(** [std::io::ErrorKind], with the kinds this code makes; [OtherKind] is any
    other. *)
Inductive IoErrorKind := NotConnected | ConnectionReset | TimedOut | OtherKind (k : Z).

(** [io::Error::new(kind, message)], or [io::Error::from(kind)] without one. *)
Record IoError := mkIoError { io_kind : IoErrorKind; io_message : option str }.

Definition io_from (k : IoErrorKind) : IoError := mkIoError k None.
Definition io_new (k : IoErrorKind) (msg : str) : IoError := mkIoError k (Some msg).

Inductive OpenStreamError (Proto : Type) :=
| UnsupportedProtocol (p : Proto)
| Io (e : IoError).
Arguments UnsupportedProtocol {Proto} p.
Arguments Io {Proto} e.

Inductive AlreadyRegistered := mkAlreadyRegistered.

(** What a oneshot ends with. *)
Inductive Answer (Proto Stream : Type) :=
| Answered (r : Stream + OpenStreamError Proto)
| Cancelled.
Arguments Answered {Proto Stream} r.
Arguments Cancelled {Proto Stream}.

Section Shared.
Context {PeerId ConnId Proto Stream Chan : Type}.
Context `{Countable PeerId} `{Countable ConnId} `{Countable Proto} `{Countable Chan}.

(** handler.rs, [NewStream]: [ns_sender] is the oneshot. *)
Record NewStream := mkNewStream { ns_protocol : Proto; ns_sender : nat }.

Context `{!Mpsc Chan NewStream} `{!Mpsc Chan (PeerId * Stream)} `{!Mpsc Chan PeerId}.

(** ** shared.rs

    The fields of [Shared] first (a pair of ends of one channel is its id), then
    the stores of its channels and the log of the oneshots. *)
Record Shared := mkShared {
  supported_inbound : gmap Proto Chan;
  connections : gmap ConnId PeerId;
  senders : gmap ConnId Chan;
  pending_channels : gmap PeerId Chan;
  dial_sender : Chan;
  new_streams : Chans Chan NewStream;
  incoming : Chans Chan (PeerId * Stream);
  dials : Chans Chan PeerId;
  answers : list (nat * Answer Proto Stream)
}.

Definition set_inbound (m : gmap Proto Chan) (s : Shared) : Shared :=
  mkShared m (connections s) (senders s) (pending_channels s) (dial_sender s)
    (new_streams s) (incoming s) (dials s) (answers s).
Definition set_connections (m : gmap ConnId PeerId) (s : Shared) : Shared :=
  mkShared (supported_inbound s) m (senders s) (pending_channels s) (dial_sender s)
    (new_streams s) (incoming s) (dials s) (answers s).
Definition set_senders (m : gmap ConnId Chan) (s : Shared) : Shared :=
  mkShared (supported_inbound s) (connections s) m (pending_channels s) (dial_sender s)
    (new_streams s) (incoming s) (dials s) (answers s).
Definition set_pending (m : gmap PeerId Chan) (s : Shared) : Shared :=
  mkShared (supported_inbound s) (connections s) (senders s) m (dial_sender s)
    (new_streams s) (incoming s) (dials s) (answers s).
Definition set_new_streams (h : Chans Chan NewStream) (s : Shared) : Shared :=
  mkShared (supported_inbound s) (connections s) (senders s) (pending_channels s) (dial_sender s)
    h (incoming s) (dials s) (answers s).
Definition set_incoming (h : Chans Chan (PeerId * Stream)) (s : Shared) : Shared :=
  mkShared (supported_inbound s) (connections s) (senders s) (pending_channels s) (dial_sender s)
    (new_streams s) h (dials s) (answers s).
Definition set_dials (h : Chans Chan PeerId) (s : Shared) : Shared :=
  mkShared (supported_inbound s) (connections s) (senders s) (pending_channels s) (dial_sender s)
    (new_streams s) (incoming s) h (answers s).

(** [oneshot::Sender::send], and the drop of one. *)
Definition answer (o : nat) (a : Answer Proto Stream) (s : Shared) : Shared :=
  mkShared (supported_inbound s) (connections s) (senders s) (pending_channels s) (dial_sender s)
    (new_streams s) (incoming s) (dials s) ((o, a) :: answers s).

(** The drop of an [mpsc::Receiver<NewStream>]: the requests queued in it die,
    and their oneshots with them. *)
Definition drop_receiver (c : Chan) (s : Shared) : Shared :=
  let '(dead, h) := mpsc_drop_receiver c (new_streams s) in
  foldl (fun s ns => answer (ns_sender ns) Cancelled s) (set_new_streams h s) dead.

(** [Shared::new], with the stores its channels live in. *)
Definition shared_new (dial_sender : Chan) (ns : Chans Chan NewStream)
    (inc : Chans Chan (PeerId * Stream)) (ds : Chans Chan PeerId) : Shared :=
  mkShared ∅ ∅ ∅ ∅ dial_sender ns inc ds [].

(** [supported_inbound_protocols.retain(|_, sender| !sender.is_closed())] *)
Definition retain_open (s : Shared) : Shared :=
  set_inbound (filter (fun '(_, c) => mpsc_is_closed c (incoming s) = false) (supported_inbound s)) s.

Definition accept (protocol : Proto) (capacity : Z) (s : Shared) : res AlreadyRegistered Chan * Shared :=
  let s := retain_open s in
  if decide (is_Some (supported_inbound s !! protocol)) then (Err mkAlreadyRegistered, s)
  else
    let '(c, inc) := mpsc_channel capacity (incoming s) in
    (Ok c, set_inbound (<[protocol := c]> (supported_inbound s)) (set_incoming inc s)).

Definition supported_inbound_protocols (s : Shared) : list Proto * Shared :=
  let s := retain_open s in
  ((map_to_list (supported_inbound s)).*1, s).

Definition on_inbound_stream (remote : PeerId) (stream : Stream) (protocol : Proto) (s : Shared) : Shared :=
  match supported_inbound s !! protocol with
  | Some c =>
      let '(r, inc) := mpsc_try_send c (remote, stream) (incoming s) in
      let s := set_incoming inc s in
      match r with
      | SendOk => s
      | SendFull => s
      | SendDisconnected => set_inbound (delete protocol (supported_inbound s)) s
      end
  | None => s
  end.

Definition on_connection_established (conn : ConnId) (peer : PeerId) (s : Shared) : Shared :=
  set_connections (<[conn := peer]> (connections s)) s.

Definition on_connection_closed (conn : ConnId) (s : Shared) : Shared :=
  let s := set_connections (delete conn (connections s)) s in
  set_senders (delete conn (senders s)) s.

(** [while let Ok(Some(x)) = receiver.try_next() { body(x) }] *)
Fixpoint drain (fuel : nat) (body : NewStream -> Shared -> Shared) (receiver : Chan) (s : Shared) : Shared :=
  match fuel with
  | O => s
  | S fuel =>
      let '(r, h) := mpsc_try_next receiver (new_streams s) in
      let s := set_new_streams h s in
      match r with
      | Some ns => drain fuel body receiver (body ns s)
      | None => s
      end
  end.

(** A round takes a message out and the lock keeps [body] from queueing one, so
    the loop ends after as many rounds as there are messages, and one more. *)
Definition drain_all (body : NewStream -> Shared -> Shared) (receiver : Chan) (s : Shared) : Shared :=
  drain (S (length (mpsc_queue receiver (new_streams s)))) body receiver s.

Definition on_dial_failure (peer : PeerId) (reason : str) (s : Shared) : Shared :=
  match pending_channels s !! peer with
  | None => s
  | Some receiver =>
      let s := set_pending (delete peer (pending_channels s)) s in
      let s := drain_all (fun ns =>
        answer (ns_sender ns) (Answered (inr (Io (io_new NotConnected reason))))) receiver s in
      drop_receiver receiver s
  end.

Definition connected_sender (choose : list ConnId -> option ConnId) (peer : PeerId) (s : Shared) : option Chan :=
  c ← choose (omap (fun '(c, p) => if decide (p = peer) then Some c else None)
                   (map_to_list (connections s)));
  senders s !! c.

(** The body of the loop of [on_dial_skipped]. *)
Definition forward_request (sender : Chan) (ns : NewStream) (s : Shared) : Shared :=
  let '(sent, h) := mpsc_send sender ns (new_streams s) in
  let s := set_new_streams h s in
  if sent then s
  else answer (ns_sender ns) (Answered (inr (Io (io_from ConnectionReset)))) s.

Definition on_dial_skipped (choose : list ConnId -> option ConnId) (peer : PeerId) (s : Shared) : Shared :=
  match connected_sender choose peer s with
  | None => s
  | Some sender =>
      match pending_channels s !! peer with
      | None => s
      | Some receiver =>
          let s := set_pending (delete peer (pending_channels s)) s in
          let s := drain_all (forward_request sender) receiver s in
          drop_receiver receiver s
      end
  end.

Definition on_behaviour_dropped (s : Shared) : Shared :=
  foldl (fun s '(_, receiver) => drop_receiver receiver s)
    (set_pending ∅ s) (map_to_list (pending_channels s)).

Definition sender (choose : list ConnId -> option ConnId) (peer : PeerId) (s : Shared) : res IoError Chan * Shared :=
  match connected_sender choose peer s with
  | Some c => (Ok c, s)
  | None =>
      match pending_channels s !! peer with
      | Some c => (Ok c, s)
      | None =>
          let '(sent, ds) := mpsc_send (dial_sender s) peer (dials s) in
          let s := set_dials ds s in
          if negb sent then
            (Err (io_new NotConnected (lit "stream behaviour is no longer running")), s)
          else
            let '(c, h) := mpsc_channel 0 (new_streams s) in
            (Ok c, set_pending (<[peer := c]> (pending_channels s)) (set_new_streams h s))
      end
  end.

Definition receiver (peer : PeerId) (connection : ConnId) (s : Shared) : Chan * Shared :=
  match pending_channels s !! peer with
  | Some c =>
      let s := set_pending (delete peer (pending_channels s)) s in
      (c, set_senders (<[connection := c]> (senders s)) s)
  | None =>
      let '(c, h) := mpsc_channel 0 (new_streams s) in
      let s := set_new_streams h s in
      (c, set_senders (<[connection := c]> (senders s)) s)
  end.

(** ** handler.rs *)

(** [Handler], without its reference to [Shared]. *)
Record Handler := mkHandler {
  remote : PeerId;
  hreceiver : Chan;
  pending_upgrade : option (Proto * nat)
}.

Definition handler_new (remote : PeerId) (receiver : Chan) : Handler := mkHandler remote receiver None.

Definition listen_protocol (s : Shared) : list Proto * Shared := supported_inbound_protocols s.

(** The result is the protocol of an [OutboundSubstreamRequest], if any. *)
Definition handler_poll (h : Handler) (s : Shared) : option Proto * Handler * Shared :=
  match pending_upgrade h with
  | Some _ => (None, h, s)
  | None =>
      let '(r, cs) := mpsc_try_next (hreceiver h) (new_streams s) in
      let s := set_new_streams cs s in
      match r with
      | Some ns =>
          (Some (ns_protocol ns),
           mkHandler (remote h) (hreceiver h) (Some (ns_protocol ns, ns_sender ns)), s)
      | None => (None, h, s)
      end
  end.

(** [StreamUpgradeError]; [Apply] carries an [Infallible]. *)
Inductive StreamUpgradeError :=
| UpgradeTimeout
| NegotiationFailed
| UpgradeIo (e : IoError).

Inductive ConnectionEvent :=
| FullyNegotiatedInbound (stream : Stream) (protocol : Proto)
| FullyNegotiatedOutbound (stream : Stream) (actual_protocol : Proto)
| DialUpgradeError (error : StreamUpgradeError)
| OtherConnectionEvent.

Definition upgrade_error (p : Proto) (error : StreamUpgradeError) : OpenStreamError Proto :=
  match error with
  | UpgradeTimeout => Io (io_from TimedOut)
  | NegotiationFailed => UnsupportedProtocol p
  | UpgradeIo io => Io io
  end.

(** A failing [debug_assert] panics in a build with debug assertions. *)
Definition debug_assert `{BuildProfile} {E} (b : bool) : res E unit :=
  if debug_assertions && negb b then Panic else Ok tt.

Definition take_pending (h : Handler) : Handler := mkHandler (remote h) (hreceiver h) None.

Definition on_connection_event `{BuildProfile} {E} (event : ConnectionEvent) (h : Handler) (s : Shared)
  : res E unit * Handler * Shared :=
  match event with
  | FullyNegotiatedInbound stream protocol =>
      (Ok tt, h, on_inbound_stream (remote h) stream protocol s)
  | FullyNegotiatedOutbound stream actual_protocol =>
      match pending_upgrade h with
      | None => (debug_assert false, h, s)
      | Some (expected_protocol, o) =>
          match debug_assert (E := E) (bool_decide (expected_protocol = actual_protocol)) with
          | Ok _ => (Ok tt, take_pending h, answer o (Answered (inl stream)) s)
          | r => (r, take_pending h, answer o Cancelled s)
          end
      end
  | DialUpgradeError error =>
      match pending_upgrade h with
      | None => (debug_assert false, h, s)
      | Some (p, o) => (Ok tt, take_pending h, answer o (Answered (inr (upgrade_error p error))) s)
      end
  | OtherConnectionEvent => (Ok tt, h, s)
  end.

(** The drop of a handler: its receiver, then the oneshot of a pending upgrade. *)
Definition handler_drop (h : Handler) (s : Shared) : Shared :=
  let s := drop_receiver (hreceiver h) s in
  match pending_upgrade h with
  | Some (_, o) => answer o Cancelled s
  | None => s
  end.

(** ** behaviour.rs *)

(** [DialError], without the payloads. *)
Inductive DialError :=
| DE_LocalPeerId | DE_Transport | DE_Denied | DE_NoAddresses | DE_Aborted | DE_WrongPeerId
| DE_DialPeerConditionFalse.

Inductive FromSwarm :=
| FS_ConnectionEstablished (peer : PeerId) (conn : ConnId)
| FS_ConnectionClosed (conn : ConnId)
| FS_DialFailure (peer : option PeerId) (error : DialError) (reason : str)
| FS_Other.

Definition handle_established_inbound_connection (connection_id : ConnId) (peer : PeerId) (s : Shared)
  : Handler * Shared :=
  let '(c, s) := receiver peer connection_id s in (handler_new peer c, s).

Definition handle_established_outbound_connection (connection_id : ConnId) (peer : PeerId) (s : Shared)
  : Handler * Shared :=
  let '(c, s) := receiver peer connection_id s in (handler_new peer c, s).

(** [reason] is [error.to_string()]. *)
Definition on_swarm_event (choose : list ConnId -> option ConnId) (event : FromSwarm) (s : Shared) : Shared :=
  match event with
  | FS_ConnectionEstablished peer conn => on_connection_established conn peer s
  | FS_ConnectionClosed conn => on_connection_closed conn s
  | FS_DialFailure (Some peer) DE_DialPeerConditionFalse _ => on_dial_skipped choose peer s
  | FS_DialFailure (Some peer) _ reason => on_dial_failure peer reason s
  | FS_DialFailure None _ _ => s
  | FS_Other => s
  end.

(** The result is the peer of a [ToSwarm::Dial] (condition
    [DisconnectedAndNotDialing]), if any. *)
Definition behaviour_poll (s : Shared) : option PeerId * Shared :=
  let '(r, ds) := mpsc_try_next (dial_sender s) (dials s) in (r, set_dials ds s).

(** [Drop for Behaviour], then the drop of its field [dial_receiver]. *)
Definition behaviour_drop (s : Shared) : Shared :=
  let s := set_dials (mpsc_close (dial_sender s) (dials s)) s in
  let s := on_behaviour_dropped s in
  set_dials (snd (mpsc_drop_receiver (dial_sender s) (dials s))) s.

(** ** control.rs *)

Definition control_accept (protocol : Proto) (s : Shared) : res AlreadyRegistered Chan * Shared :=
  accept protocol 0 s.

Definition accept_with_capacity (protocol : Proto) (capacity : Z) (s : Shared)
  : res AlreadyRegistered Chan * Shared :=
  accept protocol capacity s.

(** [open_stream] gives up the lock between its steps: it asks for a sender,
    then sends the request (on its own clone, which has a slot) and then waits
    for the oneshot.  The second step; [false] is the early return. *)
Definition open_stream_send (c : Chan) (ns : NewStream) (s : Shared) : bool * Shared :=
  let '(sent, h) := mpsc_send c ns (new_streams s) in
  let s := set_new_streams h s in
  if sent then (true, s) else (false, answer (ns_sender ns) Cancelled s).

(** What [open_stream] returns once its oneshot has ended; a send that fails
    ends in the same error. *)
Definition open_stream_result (e : str) (a : Answer Proto Stream) : res (OpenStreamError Proto) Stream :=
  match a with
  | Answered (inl stream) => Ok stream
  | Answered (inr error) => Err error
  | Cancelled => Err (Io (io_new ConnectionReset e))
  end.

End Shared.

Arguments NewStream Proto : clear implicits.
Arguments Handler PeerId Proto Chan : clear implicits.
Arguments FromSwarm PeerId ConnId : clear implicits.
Arguments ConnectionEvent Proto Stream : clear implicits.
