(* ===== verification/StreamTheory.v ===== *)
(** * The operations of [Shared], in terms of what the channels hold

    What the loops of shared.rs leave in the channels and in the oneshots, the
    system of handlers and pending requests around [Shared], and the invariant
    that every request is at exactly one place. *)

From S2P Require Import Prelude RustStd StreamShared.
From Stdlib Require Import ZArith Lia.
From stdpp Require Import base sets gmap numbers list.

Open Scope Z_scope.

Section Ops.
Context {PeerId ConnId Proto Stream Chan : Type}.
Context `{Countable PeerId} `{Countable ConnId} `{Countable Proto} `{Countable Chan}.
Context `{!Mpsc Chan (NewStream Proto)} `{!Mpsc Chan (PeerId * Stream)} `{!Mpsc Chan PeerId}.
Context `{!MpscLaws Chan (NewStream Proto)}.

Notation Shared := (@Shared PeerId ConnId Proto Stream Chan _ _ _ _ _ _ _ _ _ _ _).
Notation queued s c := (mpsc_queue c (new_streams s)).
Notation closed s c := (mpsc_is_closed c (new_streams s)).

(** The rest of the state under a new store and a longer log. *)
Definition set_answers (l : list (nat * Answer Proto Stream)) (s : Shared) : Shared :=
  mkShared (supported_inbound s) (connections s) (senders s) (pending_channels s) (dial_sender s)
    (new_streams s) (incoming s) (dials s) l.

Definition answered_with (a : Answer Proto Stream) (q : list (NewStream Proto)) : list (nat * Answer Proto Stream) :=
  (fun ns => (ns_sender ns, a)) <$> q.

Lemma same_but_refl (c : Chan) (h : Chans Chan (NewStream Proto)) : same_but c h h.
Proof. by split. Qed.

Lemma same_but_trans (c : Chan) (h h' h'' : Chans Chan (NewStream Proto)) :
  same_but c h h' -> same_but c h' h'' -> same_but c h h''.
Proof.
  intros [L1 F1] [L2 F2]; split; [congruence|].
  intros c' Hne; destruct (F1 c' Hne), (F2 c' Hne); split; congruence.
Qed.

Lemma answered_with_cons a ns q (l : list (nat * Answer Proto Stream)) :
  reverse (answered_with a (ns :: q)) ++ l = reverse (answered_with a q) ++ (ns_sender ns, a) :: l.
Proof. unfold answered_with. by rewrite fmap_cons, reverse_cons, <- app_assoc. Qed.

Lemma foldl_answer a q (s : Shared) :
  foldl (fun s ns => answer (ns_sender ns) a s) s q = set_answers (reverse (answered_with a q) ++ answers s) s.
Proof.
  revert s; induction q as [|ns q IH]; intros s; [by destruct s|].
  cbn [foldl]; by rewrite IH, answered_with_cons.
Qed.

(** Dropping a receiver cancels what is queued and closes the channel. *)
Lemma drop_receiver_spec c (s : Shared) :
  exists h, same_but c (new_streams s) h /\ mpsc_queue c h = [] /\ mpsc_is_closed c h = true /\
    drop_receiver c s =
      set_answers (reverse (answered_with Cancelled (queued s c)) ++ answers s) (set_new_streams h s).
Proof.
  unfold drop_receiver.
  destruct (mpsc_drop_receiver_spec c (new_streams s)) as (h & -> & Hs & Hq & Hc).
  exists h; split_and!; try done. by rewrite foldl_answer.
Qed.

(** The loop of [on_dial_failure] answers every request in the channel. *)
Lemma drain_answers c a q fuel (s : Shared) : queued s c = q -> (length q < fuel)%nat ->
  exists h, same_but c (new_streams s) h /\ mpsc_queue c h = [] /\ mpsc_is_closed c h = closed s c /\
    drain fuel (fun ns => answer (ns_sender ns) a) c s =
      set_answers (reverse (answered_with a q) ++ answers s) (set_new_streams h s).
Proof.
  revert fuel s; induction q as [|ns q IH]; intros [|fuel] s Hq Hf; cbn in Hf; try lia.
  - destruct (mpsc_try_next_nil c (new_streams s) Hq) as (h & Ht & Hs & Hqn & Hc).
    exists h; cbn; rewrite Ht; split_and!; done.
  - destruct (mpsc_try_next_cons c ns q (new_streams s) Hq) as (h & Ht & Hs & Hqn & Hc).
    edestruct (IH fuel (answer (ns_sender ns) a (set_new_streams h s))) as (h' & Hs' & Hq' & Hc' & E);
      [exact Hqn|lia|].
    exists h'; rewrite answered_with_cons; cbn -[reverse]; rewrite Ht, E.
    cbn -[reverse] in *; split_and!; try done; try congruence.
    by apply (same_but_trans _ _ _ _ Hs Hs').
Qed.

(** The loop of [on_dial_skipped] hands every request, in order, to the channel
    of the connection while that is open, ... *)
Lemma drain_forwards c sd q fuel (s : Shared) : c <> sd -> queued s c = q -> (length q < fuel)%nat ->
  closed s sd = false ->
  exists h, drain fuel (forward_request sd) c s = set_new_streams h s /\
    mpsc_live h = mpsc_live (new_streams s) /\
    mpsc_queue c h = [] /\ mpsc_queue sd h = queued s sd ++ q /\
    (forall c', c' <> c -> c' <> sd -> mpsc_queue c' h = queued s c') /\
    (forall c', mpsc_is_closed c' h = closed s c').
Proof.
  intros Hne; revert fuel s; induction q as [|ns q IH]; intros [|fuel] s Hq Hf Hop; cbn in Hf; try lia.
  - destruct (mpsc_try_next_nil c (new_streams s) Hq) as (h & Ht & [Hl Ho] & Hqn & Hc).
    exists h; cbn; rewrite Ht; split_and!; try done.
    + rewrite app_nil_r; by apply Ho.
    + intros; by apply Ho.
    + intros c'; destruct (decide (c' = c)) as [->|]; [done|by apply Ho].
  - destruct (mpsc_try_next_cons c ns q (new_streams s) Hq) as (h & Ht & [Hl Ho] & Hqn & Hc).
    assert (Hop1 : mpsc_is_closed sd h = false) by (rewrite (proj2 (Ho sd (not_eq_sym Hne))); done).
    destruct (mpsc_send_open sd ns h Hop1) as (h1 & Hsend & [Hl1 Ho1] & Hq1 & Hc1).
    edestruct (IH fuel (set_new_streams h1 s)) as (h' & E & Hl' & Hqc & Hqs & Hqo & Hcl);
      [cbn; rewrite (proj1 (Ho1 c Hne)); exact Hqn|lia|exact Hc1|].
    exists h'; split; [|split; [|split; [|split; [|split]]]].
    + cbn. rewrite Ht; unfold forward_request; cbn. rewrite Hsend; cbn. exact E.
    + cbn in *; congruence.
    + done.
    + rewrite Hqs; cbn; rewrite Hq1, (proj1 (Ho sd (not_eq_sym Hne))). by rewrite <- app_assoc.
    + intros c' N1 N2; rewrite (Hqo c' N1 N2); cbn.
      by rewrite (proj1 (Ho1 c' N2)), (proj1 (Ho c' N1)).
    + intros c'; rewrite Hcl; cbn.
      destruct (decide (c' = sd)) as [->|N2]; [congruence|rewrite (proj2 (Ho1 c' N2))].
      destruct (decide (c' = c)) as [->|N1]; [done|by apply Ho].
Qed.

(** ... and answers it with a reset once it is closed. *)
Lemma drain_forward_closed c sd q fuel (s : Shared) : c <> sd -> queued s c = q -> (length q < fuel)%nat ->
  closed s sd = true ->
  exists h, same_but c (new_streams s) h /\ mpsc_queue c h = [] /\ mpsc_is_closed c h = closed s c /\
    drain fuel (forward_request sd) c s =
      set_answers (reverse (answered_with (Answered (inr (Io (io_from ConnectionReset)))) q) ++ answers s)
        (set_new_streams h s).
Proof.
  intros Hne; revert fuel s; induction q as [|ns q IH]; intros [|fuel] s Hq Hf Hcl; cbn in Hf; try lia.
  - destruct (mpsc_try_next_nil c (new_streams s) Hq) as (h & Ht & Hs & Hqn & Hc).
    exists h; cbn; rewrite Ht; split_and!; done.
  - destruct (mpsc_try_next_cons c ns q (new_streams s) Hq) as (h & Ht & Hs & Hqn & Hc).
    assert (Hcl1 : mpsc_is_closed sd h = true) by (rewrite (proj2 (proj2 Hs sd (not_eq_sym Hne))); done).
    edestruct (IH fuel (answer (ns_sender ns) (Answered (inr (Io (io_from ConnectionReset))))
                          (set_new_streams h s))) as (h' & Hs' & Hq' & Hc' & E); [exact Hqn|lia|exact Hcl1|].
    exists h'; rewrite answered_with_cons; cbn [drain]; rewrite Ht.
    assert (F : forward_request sd ns (set_new_streams h s) =
      answer (ns_sender ns) (Answered (inr (Io (io_from ConnectionReset)))) (set_new_streams h s))
      by (unfold forward_request; cbn; by rewrite (mpsc_send_closed _ _ _ Hcl1)).
    rewrite F, E.
    cbn -[reverse] in *; split_and!; try done; try congruence.
    by apply (same_but_trans _ _ _ _ Hs Hs').
Qed.

(** ** The dial events *)

Notation not_connected reason := (Answered (inr (Io (io_new NotConnected reason)))).
Notation reset := (Answered (inr (Io (io_from ConnectionReset)))).

(** A failed dial ends every request that waited for it, with the reason. *)
Lemma on_dial_failure_spec p c reason (s : Shared) : pending_channels s !! p = Some c ->
  exists h, same_but c (new_streams s) h /\ mpsc_queue c h = [] /\ mpsc_is_closed c h = true /\
    on_dial_failure p reason s =
      set_answers (reverse (answered_with (not_connected reason) (queued s c)) ++ answers s)
        (set_new_streams h (set_pending (delete p (pending_channels s)) s)).
Proof.
  intros Hp; unfold on_dial_failure, drain_all; rewrite Hp.
  set (s1 := set_pending _ s).
  destruct (drain_answers c (not_connected reason) (queued s c) (S (length (queued s1 c))) s1)
    as (h & Hs & Hq & Hc & ->); [done|cbn; lia|].
  edestruct (drop_receiver_spec c) as (h' & Hs' & Hq' & Hc' & ->); cbn in Hs'.
  exists h'; split_and!; [by eapply same_but_trans|done..|].
  cbn -[reverse]. by rewrite Hq.
Qed.

(** A skipped dial to a connected peer hands the waiting requests over, ... *)
Lemma on_dial_skipped_open choose p c sd (s : Shared) :
  connected_sender choose p s = Some sd -> pending_channels s !! p = Some c -> c <> sd ->
  closed s sd = false ->
  exists h, on_dial_skipped choose p s = set_new_streams h (set_pending (delete p (pending_channels s)) s) /\
    mpsc_live h = mpsc_live (new_streams s) /\
    mpsc_queue c h = [] /\ mpsc_queue sd h = queued s sd ++ queued s c /\
    (forall c', c' <> c -> c' <> sd -> mpsc_queue c' h = queued s c') /\
    mpsc_is_closed c h = true /\ (forall c', c' <> c -> mpsc_is_closed c' h = closed s c').
Proof.
  intros Hsd Hp Hne Hop; unfold on_dial_skipped, drain_all; rewrite Hsd, Hp.
  set (s1 := set_pending _ s).
  destruct (drain_forwards c sd (queued s c) (S (length (queued s1 c))) s1)
    as (h & -> & Hl & Hq & Hqs & Hqo & Hcl); [done|done|cbn; lia|done|].
  edestruct (drop_receiver_spec c) as (h' & [Hl' Ho'] & Hq' & Hc' & ->); subst s1; cbn in Hl', Ho', Hl, Hqs, Hqo, Hcl.
  exists h'; split_and!; [cbn -[reverse]; by rewrite Hq|congruence|done|..|done|].
  - rewrite (proj1 (Ho' sd (not_eq_sym Hne))). done.
  - intros c' N1 N2; rewrite (proj1 (Ho' c' N1)). by apply Hqo.
  - intros c' N1; rewrite (proj2 (Ho' c' N1)). apply Hcl.
Qed.

(** ... and resets them if that connection is already gone. *)
Lemma on_dial_skipped_closed choose p c sd (s : Shared) :
  connected_sender choose p s = Some sd -> pending_channels s !! p = Some c -> c <> sd ->
  closed s sd = true ->
  exists h, same_but c (new_streams s) h /\ mpsc_queue c h = [] /\ mpsc_is_closed c h = true /\
    on_dial_skipped choose p s =
      set_answers (reverse (answered_with reset (queued s c)) ++ answers s)
        (set_new_streams h (set_pending (delete p (pending_channels s)) s)).
Proof.
  intros Hsd Hp Hne Hop; unfold on_dial_skipped, drain_all; rewrite Hsd, Hp.
  set (s1 := set_pending _ s).
  destruct (drain_forward_closed c sd (queued s c) (S (length (queued s1 c))) s1)
    as (h & Hs & Hq & Hc & ->); [done|done|cbn; lia|done|].
  edestruct (drop_receiver_spec c) as (h' & Hs' & Hq' & Hc' & ->); cbn in Hs'.
  exists h'; split_and!; [by eapply same_but_trans|done..|].
  cbn -[reverse]. by rewrite Hq.
Qed.

(** [choose] picks a connection of the peer, and finds one if there is any. *)
Lemma connected_sender_Some (choose : list ConnId -> option ConnId) p sd (s : Shared) :
  (forall l, match choose l with Some c => c ∈ l | None => l = [] end) ->
  connected_sender choose p s = Some sd ->
  exists conn, connections s !! conn = Some p /\ senders s !! conn = Some sd.
Proof.
  intros V (conn & Hc & Hs)%bind_Some. exists conn; split; [|done].
  match type of Hc with choose ?l = _ => pose proof (V l) as Hl end. rewrite Hc in Hl.
  apply list_elem_of_omap in Hl as ([c q] & Hin%elem_of_map_to_list & E). case_decide; naive_solver.
Qed.

Lemma connected_sender_None (choose : list ConnId -> option ConnId) p (s : Shared) :
  (forall l, match choose l with Some c => c ∈ l | None => l = [] end) ->
  (forall conn, is_Some (connections s !! conn) -> is_Some (senders s !! conn)) ->
  connected_sender choose p s = None -> forall conn, connections s !! conn <> Some p.
Proof.
  intros V K Hn conn Hc. unfold connected_sender in Hn.
  match type of Hn with (choose ?l ≫= _) = _ => pose proof (V l) as Hl; destruct (choose l) as [c|] eqn:E end.
  - apply list_elem_of_omap in Hl as ([c' q] & Hin%elem_of_map_to_list & E'). case_decide; [|done].
    injection E' as ->. destruct (K c) as [sd Hsd]; [eauto|]. cbn in Hn. congruence.
  - assert (conn ∈ @nil ConnId) as []%elem_of_nil. rewrite <- Hl.
    apply list_elem_of_omap. exists (conn, p); split; [by apply elem_of_map_to_list|by rewrite decide_True].
Qed.

End Ops.
