(* ===== verification/StreamSystem.v ===== *)
(** * The system around [Shared]: controls, handlers and the swarm

    [Shared] is driven by any number of [Control]s, by the handlers of the
    connections and by the swarm.  [stream_step] lists what each of them can do;
    a request for a stream is given a number when [open_stream] has its sender.
    The invariant places every request, and gives every open channel an owner. *)

From S2P Require Import Prelude RustStd StreamShared StreamTheory.
From Stdlib Require Import ZArith Lia.
From stdpp Require Import base sets gmap numbers relations list.

Open Scope Z_scope.

Section System.
Context {PeerId ConnId Proto Stream Chan : Type}.
Context `{Countable PeerId} `{Countable ConnId} `{Countable Proto} `{Countable Chan}.
Context `{!Mpsc Chan (NewStream Proto)} `{!Mpsc Chan (PeerId * Stream)} `{!Mpsc Chan PeerId}.
Context `{BuildProfile}.

Notation Shared := (@Shared PeerId ConnId Proto Stream Chan _ _ _ _ _ _ _ _ _ _ _).
Notation queued s c := (mpsc_queue c (new_streams s)).
Notation closed s c := (mpsc_is_closed c (new_streams s)).

(** [handlers]: the handlers of live connections.  [opening]: calls of
    [open_stream] that have a sender and have not sent their request.
    [dialing]: the peers the swarm is dialing, for whichever behaviour.
    [announced]: the connections of which [ConnectionEstablished] has been
    delivered; connection ids are not used twice. *)
Record System := mkSystem {
  sh : Shared;
  handlers : gmap ConnId (Handler PeerId Proto Chan);
  opening : gmap nat (Chan * Proto);
  next_request : nat;
  dialing : gset PeerId;
  announced : gset ConnId
}.

(** [IteratorRandom::choose]: an element, if there is one. *)
Definition valid_choose (choose : list ConnId -> option ConnId) : Prop :=
  forall l, match choose l with Some c => c ∈ l | None => l = [] end.

(** A dial to [p] has ended; others to [p] may still be in flight. *)
Definition dial_over (p : PeerId) (d d' : gset PeerId) : Prop := d ∖ {[p]} ⊆ d' /\ d' ⊆ d.

Inductive stream_step : System -> System -> Prop :=
| step_open choose p proto c y s :
    valid_choose choose -> sender choose p (sh y) = (Ok c, s) ->
    stream_step y (mkSystem s (handlers y) (<[next_request y := (c, proto)]> (opening y))
                     (S (next_request y)) (dialing y) (announced y))
| step_open_refused choose p e y s :
    valid_choose choose -> sender choose p (sh y) = (Err e, s) ->
    stream_step y (mkSystem s (handlers y) (opening y) (next_request y) (dialing y) (announced y))
| step_send o c proto y b s :
    opening y !! o = Some (c, proto) ->
    open_stream_send c (mkNewStream proto o) (sh y) = (b, s) ->
    stream_step y (mkSystem s (handlers y) (delete o (opening y)) (next_request y) (dialing y) (announced y))
| step_accept proto capacity y r s :
    accept proto capacity (sh y) = (r, s) ->
    stream_step y (mkSystem s (handlers y) (opening y) (next_request y) (dialing y) (announced y))
| step_listen y l s :
    listen_protocol (sh y) = (l, s) ->
    stream_step y (mkSystem s (handlers y) (opening y) (next_request y) (dialing y) (announced y))
| step_incoming inc y :
    stream_step y (mkSystem (set_incoming inc (sh y)) (handlers y) (opening y) (next_request y) (dialing y) (announced y))
| step_established (outbound : bool) conn p y h s d :
    handlers y !! conn = None -> conn ∉ announced y -> dial_over p (dialing y) d ->
    (if outbound then handle_established_outbound_connection conn p (sh y)
     else handle_established_inbound_connection conn p (sh y)) = (h, s) ->
    stream_step y (mkSystem s (<[conn := h]> (handlers y)) (opening y) (next_request y) d (announced y))
| step_connected choose conn h y :
    handlers y !! conn = Some h -> conn ∉ announced y ->
    stream_step y (mkSystem (on_swarm_event choose (FS_ConnectionEstablished (remote h) conn) (sh y))
                     (handlers y) (opening y) (next_request y) (dialing y) ({[conn]} ∪ announced y))
| step_closed choose conn y :
    conn ∈ announced y ->
    stream_step y (mkSystem (on_swarm_event choose (FS_ConnectionClosed conn) (sh y))
                     (handlers y) (opening y) (next_request y) (dialing y) (announced y))
| step_dial p y s :
    behaviour_poll (sh y) = (Some p, s) ->
    stream_step y (mkSystem s (handlers y) (opening y) (next_request y) ({[p]} ∪ dialing y) (announced y))
| step_dial_skipped choose p reason y s :
    valid_choose choose -> behaviour_poll (sh y) = (Some p, s) ->
    (exists conn, connections s !! conn = Some p) \/ p ∈ dialing y ->
    stream_step y (mkSystem (on_swarm_event choose (FS_DialFailure (Some p) DE_DialPeerConditionFalse reason) s)
                     (handlers y) (opening y) (next_request y) (dialing y) (announced y))
| step_other_dial p y :
    stream_step y (mkSystem (sh y) (handlers y) (opening y) (next_request y) ({[p]} ∪ dialing y) (announced y))
| step_dial_failed choose p error reason y d :
    error <> DE_DialPeerConditionFalse -> dial_over p (dialing y) d ->
    stream_step y (mkSystem (on_swarm_event choose (FS_DialFailure (Some p) error reason) (sh y))
                     (handlers y) (opening y) (next_request y) d (announced y))
| step_handler_poll conn h y r h' s :
    handlers y !! conn = Some h -> handler_poll h (sh y) = (r, h', s) ->
    stream_step y (mkSystem s (<[conn := h']> (handlers y)) (opening y) (next_request y) (dialing y) (announced y))
| step_handler_event conn h event y (r : res unit unit) h' s :
    handlers y !! conn = Some h -> on_connection_event event h (sh y) = (r, h', s) ->
    stream_step y (mkSystem s (<[conn := h']> (handlers y)) (opening y) (next_request y) (dialing y) (announced y))
| step_handler_drop conn h y :
    handlers y !! conn = Some h ->
    stream_step y (mkSystem (handler_drop h (sh y)) (delete conn (handlers y)) (opening y)
                     (next_request y) (dialing y) (announced y))
| step_behaviour_drop y :
    stream_step y (mkSystem (behaviour_drop (sh y)) (handlers y) (opening y) (next_request y) (dialing y) (announced y)).

(** [Behaviour::new]: no channel of requests exists yet, the dial channel does. *)
Definition stream_init (y : System) : Prop :=
  (exists dc ns inc ds, sh y = shared_new dc ns inc ds /\
     mpsc_live ns = ∅ /\ (forall c, mpsc_queue c ns = [])) /\
  handlers y = ∅ /\ opening y = ∅ /\ next_request y = 0%nat /\ dialing y = ∅ /\
  announced y = ∅.

Definition stream_reachable (y : System) : Prop := exists y0, stream_init y0 /\ rtc stream_step y0 y.

(** ** Where a request is *)

Inductive Place :=
| Opening                     (* [open_stream] has yet to send it *)
| AwaitingDial (p : PeerId)   (* queued in the pending channel of [p] *)
| AwaitingHandler (conn : ConnId)  (* queued at the handler of [conn] *)
| Upgrading (conn : ConnId)   (* the handler of [conn] is negotiating it *)
| Finished.                   (* its oneshot has ended *)

Definition located (y : System) (o : nat) (pl : Place) : Prop :=
  match pl with
  | Opening => is_Some (opening y !! o)
  | AwaitingDial p => exists c, pending_channels (sh y) !! p = Some c /\ o ∈ ns_sender <$> queued (sh y) c
  | AwaitingHandler conn => exists h, handlers y !! conn = Some h /\ o ∈ ns_sender <$> queued (sh y) (hreceiver h)
  | Upgrading conn => exists h proto, handlers y !! conn = Some h /\ pending_upgrade h = Some (proto, o)
  | Finished => o ∈ (answers (sh y)).*1
  end.

(** ** The invariant

    [owner] says who holds the receiver of an open channel, [place] where a
    request is; both are functions, so a receiver has one holder and a request
    one place. *)
Inductive GPlace := GUnborn | GOpening | GQueue (c : Chan) | GUp (conn : ConnId) | GDone.

Record InvOwner (ns : Chans Chan (NewStream Proto)) (pend : gmap PeerId Chan) (snds : gmap ConnId Chan)
    (conns : gmap ConnId PeerId) (hs : gmap ConnId (Handler PeerId Proto Chan))
    (ann : gset ConnId) (owner : Chan -> option (PeerId + ConnId)) : Prop := {
  io_pending p c : pend !! p = Some c <-> owner c = Some (inl p);
  io_handler conn c : (exists h, hs !! conn = Some h /\ hreceiver h = c) <-> owner c = Some (inr conn);
  io_live c : is_Some (owner c) <-> c ∈ mpsc_live ns /\ mpsc_is_closed c ns = false;
  io_sender conn c : snds !! conn = Some c ->
    c ∈ mpsc_live ns /\ (owner c = Some (inr conn) \/ owner c = None);
  io_chan conn c h : snds !! conn = Some c -> hs !! conn = Some h -> hreceiver h = c;
  io_conn conn : is_Some (conns !! conn) -> is_Some (snds !! conn);
  io_ann conn : is_Some (hs !! conn) -> conn ∉ ann -> is_Some (snds !! conn)
}.

Record InvPlace (ns : Chans Chan (NewStream Proto)) (ans : list (nat * Answer Proto Stream))
    (hs : gmap ConnId (Handler PeerId Proto Chan))
    (op : gmap nat (Chan * Proto)) (next : nat) (place : nat -> GPlace) : Prop := {
  ip_queue c o : o ∈ ns_sender <$> mpsc_queue c ns <-> place o = GQueue c;
  ip_nodup c : NoDup (ns_sender <$> mpsc_queue c ns);
  ip_opening o : is_Some (op !! o) <-> place o = GOpening;
  ip_up conn o : (exists h proto, hs !! conn = Some h /\ pending_upgrade h = Some (proto, o)) <-> place o = GUp conn;
  ip_done o : o ∈ ans.*1 <-> place o = GDone;
  ip_once : NoDup ans.*1;
  ip_unborn o : place o = GUnborn <-> (next <= o)%nat
}.

(** A channel without an owner is empty; an [open_stream] in progress holds a
    sender of a channel that exists. *)
Definition InvDead (ns : Chans Chan (NewStream Proto)) (owner : Chan -> option (PeerId + ConnId))
    (op : gmap nat (Chan * Proto)) : Prop :=
  (forall c, owner c = None -> mpsc_queue c ns = []) /\
  (forall o c proto, op !! o = Some (c, proto) -> c ∈ mpsc_live ns).

(** Every pending channel has a dial on its way. *)
Definition InvDial (pend : gmap PeerId Chan) (dc : Chan) (ds : Chans Chan PeerId) (d : gset PeerId) : Prop :=
  (forall p, is_Some (pend !! p) -> p ∈ mpsc_queue dc ds \/ p ∈ d) /\
  (mpsc_is_closed dc ds = true -> pend = ∅).

Definition InvOf (s : Shared) (hs : gmap ConnId (Handler PeerId Proto Chan))
    (op : gmap nat (Chan * Proto)) (next : nat) (d : gset PeerId) (ann : gset ConnId) : Prop := exists owner place,
  InvOwner (new_streams s) (pending_channels s) (senders s) (connections s) hs ann owner /\
  InvPlace (new_streams s) (answers s) hs op next place /\
  InvDead (new_streams s) owner op /\
  InvDial (pending_channels s) (dial_sender s) (dials s) d.

Definition StreamInv (y : System) : Prop :=
  InvOf (sh y) (handlers y) (opening y) (next_request y) (dialing y) (announced y).

End System.
