(* ===== verification/StreamInv.v ===== *)
(** * Every request is at exactly one place: the invariant is kept *)

From S2P Require Import Prelude RustStd StreamShared StreamTheory StreamSystem.
From Stdlib Require Import ZArith Lia.
From stdpp Require Import base sets gmap numbers relations list.

Open Scope Z_scope.

(** Updating a function at one argument, or on a list of them. *)
Definition fupd {A B} `{EqDecision A} (f : A -> B) (x : A) (v : B) : A -> B :=
  fun y => if decide (y = x) then v else f y.

Definition fupds {A B} `{EqDecision A} (f : A -> B) (l : list A) (v : B) : A -> B :=
  fun y => if decide (y ∈ l) then v else f y.

Lemma fupd_eq {A B} `{EqDecision A} (f : A -> B) x v : fupd f x v x = v.
Proof. unfold fupd; by rewrite decide_True. Qed.

Lemma fupd_ne {A B} `{EqDecision A} (f : A -> B) x y v : y <> x -> fupd f x v y = f y.
Proof. intros; unfold fupd; by rewrite decide_False. Qed.

Ltac fupd_cases x y := destruct (decide (x = y)) as [->|?]; [rewrite ?fupd_eq|rewrite ?fupd_ne by done].

Section Inv.
Context {PeerId ConnId Proto Stream Chan : Type}.
Context `{Countable PeerId} `{Countable ConnId} `{Countable Proto} `{Countable Chan}.
Context `{!Mpsc Chan (NewStream Proto)} `{!Mpsc Chan (PeerId * Stream)} `{!Mpsc Chan PeerId}.
Context `{!MpscLaws Chan (NewStream Proto)}.

Notation Shared := (@Shared PeerId ConnId Proto Stream Chan _ _ _ _ _ _ _ _ _ _ _).
Notation queued s c := (mpsc_queue c (new_streams s)).
Notation closed s c := (mpsc_is_closed c (new_streams s)).
Notation Handlers := (gmap ConnId (Handler PeerId Proto Chan)).
Notation GPlace := (@GPlace ConnId Chan).

Implicit Types (ns : Chans Chan (NewStream Proto)) (hs : Handlers) (s : Shared).
Implicit Types (owner : Chan -> option (PeerId + ConnId)) (place : nat -> GPlace).
Implicit Types (ans : list (nat * Answer Proto Stream)).

(** ** Requests that finish, and requests that move *)

Lemma elem_of_answered_with a (q : list (NewStream Proto)) o :
  o ∈ (reverse (answered_with (Stream := Stream) a q)).*1 <-> o ∈ ns_sender <$> q.
Proof.
  unfold answered_with. rewrite fmap_reverse, elem_of_reverse, <- list_fmap_compose. done.
Qed.

(** Every request of channel [c] ends with the answer [a]. *)
Lemma place_finish ns ns' ans hs op next place c a :
  InvPlace ns ans hs op next place -> same_but c ns ns' -> mpsc_queue c ns' = [] ->
  InvPlace ns' (reverse (answered_with a (mpsc_queue c ns)) ++ ans) hs op next
    (fupds place (ns_sender <$> mpsc_queue c ns) GDone).
Proof.
  intros [Q N O U D N1 B] [_ Hs] Hq; split.
  - intros c' o; unfold fupds; case_decide as Ho.
    + split; [|done]. apply Q in Ho as Ho'. destruct (decide (c' = c)) as [->|Hne].
      * rewrite Hq; by intros ?%not_elem_of_nil.
      * rewrite (proj1 (Hs c' Hne)), Q. congruence.
    + destruct (decide (c' = c)) as [->|Hne].
      * rewrite Hq, <- Q. split; [by intros ?%not_elem_of_nil|done].
      * by rewrite (proj1 (Hs c' Hne)).
  - intros c'; destruct (decide (c' = c)) as [->|Hne]; [rewrite Hq; constructor|].
    by rewrite (proj1 (Hs c' Hne)).
  - intros o; rewrite O; unfold fupds; case_decide as Ho; [|done]. apply Q in Ho. split; congruence.
  - intros conn o; rewrite U; unfold fupds; case_decide as Ho; [|done]. apply Q in Ho. split; congruence.
  - intros o; rewrite fmap_app, elem_of_app, elem_of_answered_with, D.
    unfold fupds; case_decide; naive_solver.
  - rewrite fmap_app, NoDup_app; split_and!; [|intros o Ho|done].
    + unfold answered_with. rewrite fmap_reverse, reverse_Permutation, <- list_fmap_compose. apply N.
    + rewrite elem_of_answered_with, Q in Ho. rewrite D. congruence.
  - intros o; rewrite <- B; unfold fupds; case_decide as Ho; [|done]. apply Q in Ho. split; congruence.
Qed.

(** Every request of [c] moves to the end of channel [sd]. *)
Lemma place_forward ns ns' ans hs op next place c sd :
  InvPlace ns ans hs op next place -> c <> sd ->
  mpsc_queue c ns' = [] -> mpsc_queue sd ns' = mpsc_queue sd ns ++ mpsc_queue c ns ->
  (forall c', c' <> c -> c' <> sd -> mpsc_queue c' ns' = mpsc_queue c' ns) ->
  InvPlace ns' ans hs op next (fupds place (ns_sender <$> mpsc_queue c ns) (GQueue sd)).
Proof.
  intros [Q N O U D N1 B] Hne Hc Hsd Hoth; split; [|..|done|].
  - intros c' o; unfold fupds; case_decide as Ho; pose proof (Q c o) as Qo;
      destruct (decide (c' = c)) as [->|N2];
      [rewrite Hc|destruct (decide (c' = sd)) as [->|N3]; [rewrite Hsd, fmap_app, elem_of_app|rewrite Hoth by done]
      |rewrite Hc|destruct (decide (c' = sd)) as [->|N3]; [rewrite Hsd, fmap_app, elem_of_app|rewrite Hoth by done]];
      rewrite ?elem_of_nil, ?Q; naive_solver congruence.
  - intros c'; destruct (decide (c' = c)) as [->|N2]; [rewrite Hc; constructor|].
    destruct (decide (c' = sd)) as [->|N3]; [|by rewrite Hoth].
    rewrite Hsd, fmap_app, NoDup_app; split_and!; [done|intros o Ho|done].
    apply Q in Ho. rewrite Q. congruence.
  - intros o; rewrite O; unfold fupds; case_decide as Ho; [|done]. apply Q in Ho. split; congruence.
  - intros conn o; rewrite U; unfold fupds; case_decide as Ho; [|done]. apply Q in Ho. split; congruence.
  - intros o; rewrite D; unfold fupds; case_decide as Ho; [|done]. apply Q in Ho. split; congruence.
  - intros o; rewrite <- B; unfold fupds; case_decide as Ho; [|done]. apply Q in Ho. split; congruence.
Qed.

(** Nothing is queued, nothing moves. *)
Lemma place_store ns ns' ans hs op next place :
  InvPlace ns ans hs op next place -> (forall c, mpsc_queue c ns' = mpsc_queue c ns) ->
  InvPlace ns' ans hs op next place.
Proof. intros [Q N O U D N1 B] E; split; intros; rewrite ?E; auto. Qed.

(** A handler that joins, or a finished one that leaves, has no upgrade. *)
Lemma place_handler ns ans hs hs' op next place :
  InvPlace ns ans hs op next place ->
  (forall conn o, (exists h proto, hs' !! conn = Some h /\ pending_upgrade h = Some (proto, o)) <->
                  (exists h proto, hs !! conn = Some h /\ pending_upgrade h = Some (proto, o))) ->
  InvPlace ns ans hs' op next place.
Proof. intros [Q N O U D N1 B] E; split; auto. intros; by rewrite E. Qed.

(** ** Owners *)

Lemma owner_drop_pending ns ns' pend snds conns hs ann owner p c :
  InvOwner ns pend snds conns hs ann owner -> pend !! p = Some c ->
  mpsc_live ns' = mpsc_live ns -> mpsc_is_closed c ns' = true ->
  (forall c', c' <> c -> mpsc_is_closed c' ns' = mpsc_is_closed c' ns) ->
  InvOwner ns' (delete p pend) snds conns hs ann (fupd owner c None).
Proof.
  intros [P Hd L S C K Z] Hp Hl Hc Ho. pose proof (proj1 (P p c) Hp) as Hown; split; [| | | | |done|].
  - intros p' c'. rewrite lookup_delete_Some, P. fupd_cases c' c; naive_solver congruence.
  - intros conn c'. rewrite Hd. fupd_cases c' c; naive_solver congruence.
  - intros c'. rewrite Hl. fupd_cases c' c; [|by rewrite Ho]. rewrite Hc, is_Some_alt; naive_solver congruence.
  - intros conn c' Hs; destruct (S conn c' Hs). rewrite Hl. fupd_cases c' c; naive_solver.
  - done.
  - done.
Qed.

Lemma owner_drop_handler ns ns' pend snds conns hs ann owner conn h :
  InvOwner ns pend snds conns hs ann owner -> hs !! conn = Some h ->
  mpsc_live ns' = mpsc_live ns -> mpsc_is_closed (hreceiver h) ns' = true ->
  (forall c', c' <> hreceiver h -> mpsc_is_closed c' ns' = mpsc_is_closed c' ns) ->
  InvOwner ns' pend snds conns (delete conn hs) ann (fupd owner (hreceiver h) None).
Proof.
  intros [P Hd L S C K Z] Hp Hl Hc Ho.
  assert (Hown : owner (hreceiver h) = Some (inr conn)) by (apply Hd; eauto). split; [| | | | |done|].
  - intros p' c'. rewrite P. fupd_cases c' (hreceiver h); naive_solver congruence.
  - intros conn' c'. setoid_rewrite lookup_delete_Some.
    fupd_cases c' (hreceiver h).
    + split; [|done]. intros (h' & [Hn Hh'] & E). exfalso.
      assert (owner (hreceiver h) = Some (inr conn')) by (apply Hd; eauto). congruence.
    + rewrite <- Hd. split; [naive_solver|]. intros (h' & Hh' & <-). exists h'; split_and!; try done.
      intros ->. congruence.
  - intros c'. rewrite Hl. fupd_cases c' (hreceiver h); [|by rewrite Ho].
    rewrite Hc, is_Some_alt; naive_solver congruence.
  - intros conn' c' Hs; destruct (S conn' c' Hs). rewrite Hl. fupd_cases c' (hreceiver h); naive_solver.
  - intros conn' c' h' Hs [? Hh']%lookup_delete_Some; eauto.
  - intros conn' [h' [_ Hh']%lookup_delete_Some]; eauto.
Qed.

Lemma owner_store ns ns' pend snds conns hs ann owner :
  InvOwner ns pend snds conns hs ann owner -> mpsc_live ns' = mpsc_live ns ->
  (forall c, mpsc_is_closed c ns' = mpsc_is_closed c ns) ->
  InvOwner ns' pend snds conns hs ann owner.
Proof. intros [P Hd L S C K Z] Hl Hc; split; auto; intros; rewrite ?Hl, ?Hc; eauto. Qed.

(** A fresh channel, owned by [w]. *)
Lemma fresh_no_owner ns pend snds conns hs ann owner n c ns' :
  InvOwner ns pend snds conns hs ann owner -> mpsc_channel n ns = (c, ns') -> owner c = None.
Proof.
  intros [P Hd L S C K Z] E. destruct (mpsc_channel_fresh _ _ _ _ E) as (Hf & _).
  destruct (owner c) eqn:Eo; [|done]. destruct (proj1 (L c)); [by rewrite Eo|done].
Qed.

Lemma live_fresh ns n c ns' c' : mpsc_channel n ns = (c, ns') -> c' <> c ->
  (c' ∈ mpsc_live ns' /\ mpsc_is_closed c' ns' = false <-> c' ∈ mpsc_live ns /\ mpsc_is_closed c' ns = false).
Proof.
  intros E Hne. destruct (mpsc_channel_fresh _ _ _ _ E) as (Hf & -> & _ & _ & Ho).
  rewrite (proj2 (Ho c' Hne)). set_solver.
Qed.

Lemma owner_new_pending ns pend snds conns hs ann owner n c ns' p :
  InvOwner ns pend snds conns hs ann owner -> mpsc_channel n ns = (c, ns') -> pend !! p = None ->
  InvOwner ns' (<[p := c]> pend) snds conns hs ann (fupd owner c (Some (inl p))).
Proof.
  intros I E Hp. pose proof (fresh_no_owner _ _ _ _ _ _ _ _ _ _ I E) as Hnone. destruct I as [P Hd L S C K Z].
  destruct (mpsc_channel_fresh _ _ _ _ E) as (Hf & Hl & _ & Hop & _). split; [| | | |done|done|done].
  - intros p' c'. rewrite lookup_insert_Some, P. fupd_cases c' c; [naive_solver congruence|].
    split; [naive_solver|]. intros Ho; right; split; [|done]. intros <-. apply P in Ho. congruence.
  - intros conn c'. rewrite Hd. fupd_cases c' c; naive_solver congruence.
  - intros c'. fupd_cases c' c; [rewrite is_Some_alt; set_solver|by rewrite (live_fresh _ _ _ _ _ E)].
  - intros conn c' Hs; destruct (S conn c' Hs). rewrite Hl. fupd_cases c' c; [done|set_solver].
Qed.

Lemma owner_new_handler ns pend snds conns hs ann owner n c ns' p conn :
  InvOwner ns pend snds conns hs ann owner -> mpsc_channel n ns = (c, ns') -> hs !! conn = None ->
  InvOwner ns' pend (<[conn := c]> snds) conns (<[conn := handler_new p c]> hs) ann (fupd owner c (Some (inr conn))).
Proof.
  intros I E Hp. pose proof (fresh_no_owner _ _ _ _ _ _ _ _ _ _ I E) as Hnone. destruct I as [P Hd L S C K Z].
  destruct (mpsc_channel_fresh _ _ _ _ E) as (Hf & Hl & _ & Hop & _). split.
  - intros p' c'. rewrite P. fupd_cases c' c; naive_solver congruence.
  - intros conn' c'. setoid_rewrite lookup_insert_Some. fupd_cases c' c.
    + split; [|naive_solver]. intros (h & [[<- <-]|[? Hh]] & E'); [done|]. exfalso.
      assert (owner c = Some (inr conn')) by (apply Hd; eauto). congruence.
    + rewrite <- Hd. split; [naive_solver|]. intros (h & Hh & <-). exists h; split; [|done].
      right; split; [|done]. intros <-; congruence.
  - intros c'. fupd_cases c' c; [rewrite is_Some_alt; set_solver|by rewrite (live_fresh _ _ _ _ _ E)].
  - intros conn' c' [[<- <-]|[? Hs]]%lookup_insert_Some; [rewrite fupd_eq; set_solver|].
    destruct (S conn' c' Hs). rewrite Hl. fupd_cases c' c; [done|set_solver].
  - intros conn' c' h. rewrite !lookup_insert_Some. naive_solver.
  - intros conn' Hc. rewrite lookup_insert_is_Some'. auto.
  - intros conn'. rewrite !lookup_insert_is_Some'. intros []; auto.
Qed.

(** A pending channel handed to the handler of a new connection. *)
Lemma owner_hand_over ns pend snds conns hs ann owner p c conn :
  InvOwner ns pend snds conns hs ann owner -> pend !! p = Some c -> hs !! conn = None ->
  InvOwner ns (delete p pend) (<[conn := c]> snds) conns (<[conn := handler_new p c]> hs) ann
    (fupd owner c (Some (inr conn))).
Proof.
  intros [P Hd L S C K Z] Hp Hh. pose proof (proj1 (P p c) Hp) as Hown; split.
  - intros p' c'. rewrite lookup_delete_Some, P. fupd_cases c' c; naive_solver congruence.
  - intros conn' c'. setoid_rewrite lookup_insert_Some. fupd_cases c' c.
    + split; [|naive_solver]. intros (h & [[<- <-]|[? Hh']] & E'); [done|]. exfalso.
      assert (owner c = Some (inr conn')) by (apply Hd; eauto). congruence.
    + rewrite <- Hd. split; [naive_solver|]. intros (h & Hh' & <-). exists h; split; [|done].
      right; split; [|done]. intros <-; congruence.
  - intros c'. rewrite <- L. fupd_cases c' c; [rewrite Hown, !is_Some_alt; done|done].
  - intros conn' c' [[<- <-]|[? Hs]]%lookup_insert_Some.
    + rewrite fupd_eq. split; [|by left]. apply L. rewrite Hown; eauto.
    + destruct (S conn' c' Hs) as [? Ho]. split; [done|]. fupd_cases c' c; [|done].
      destruct Ho; congruence.
  - intros conn' c' h. rewrite !lookup_insert_Some. naive_solver.
  - intros conn' Hc. rewrite lookup_insert_is_Some'. auto.
  - intros conn'. rewrite !lookup_insert_is_Some'. intros []; auto.
Qed.

(** ** Requests that are born, sent, taken and finished one at a time *)

Lemma place_open ns ans hs op next place x :
  InvPlace ns ans hs op next place ->
  InvPlace ns ans hs (<[next := x]> op) (S next) (fupd place next GOpening).
Proof.
  intros [Q N O U D N1 B]. assert (Hb : place next = GUnborn) by (by apply B).
  split; [|done|..|done|].
  - intros c o. rewrite Q. fupd_cases o next; [split; congruence|done].
  - intros o. fupd_cases o next; [rewrite lookup_insert_eq; by split|].
    rewrite lookup_insert_ne by done; apply O.
  - intros conn o. rewrite U. fupd_cases o next; [split; congruence|done].
  - intros o. rewrite D. fupd_cases o next; [split; congruence|done].
  - intros o. fupd_cases o next; [split; [done|lia]|]. rewrite B. lia.
Qed.

Lemma place_send ns ns' ans hs op next place o c proto :
  InvPlace ns ans hs op next place -> is_Some (op !! o) ->
  same_but c ns ns' -> mpsc_queue c ns' = mpsc_queue c ns ++ [mkNewStream proto o] ->
  InvPlace ns' ans hs (delete o op) next (fupd place o (GQueue c)).
Proof.
  intros [Q N O U D N1 B] Ho [_ Hs] Hq. apply O in Ho. split; [| | |..|done|].
  - intros c' o'. destruct (decide (c' = c)) as [->|Hne].
    + rewrite Hq, fmap_app, elem_of_app, Q. change (ns_sender <$> [mkNewStream proto o]) with [o].
      rewrite list_elem_of_singleton.
      fupd_cases o' o; naive_solver congruence.
    + rewrite (proj1 (Hs c' Hne)), Q. fupd_cases o' o; naive_solver congruence.
  - intros c'. destruct (decide (c' = c)) as [->|Hne]; [|by rewrite (proj1 (Hs c' Hne))].
    rewrite Hq, fmap_app, NoDup_app; change (ns_sender <$> [mkNewStream proto o]) with [o].
    split_and!; [done|intros o' Ho'|apply NoDup_singleton].
    apply Q in Ho'. intros ->%list_elem_of_singleton. congruence.
  - intros o'. fupd_cases o' o; [rewrite lookup_delete_eq; split; [by intros []|done]|].
    rewrite lookup_delete_ne by done; apply O.
  - intros conn o'. rewrite U. fupd_cases o' o; [split; congruence|done].
  - intros o'. rewrite D. fupd_cases o' o; [split; congruence|done].
  - intros o'. rewrite <- B. fupd_cases o' o; [split; congruence|done].
Qed.

Lemma place_send_failed ns ans hs op next place o a :
  InvPlace ns ans hs op next place -> is_Some (op !! o) ->
  InvPlace ns ((o, a) :: ans) hs (delete o op) next (fupd place o GDone).
Proof.
  intros [Q N O U D N1 B] Ho. apply O in Ho. split; [|done|..].
  - intros c' o'. rewrite Q. fupd_cases o' o; [split; congruence|done].
  - intros o'. fupd_cases o' o; [rewrite lookup_delete_eq; split; [by intros []|done]|].
    rewrite lookup_delete_ne by done; apply O.
  - intros conn o'. rewrite U. fupd_cases o' o; [split; congruence|done].
  - intros o'. cbn. rewrite elem_of_cons, D. fupd_cases o' o; naive_solver.
  - cbn. constructor; [rewrite D; congruence|done].
  - intros o'. rewrite <- B. fupd_cases o' o; [split; congruence|done].
Qed.

Lemma place_take ns ns' ans hs op next place conn h x q :
  InvPlace ns ans hs op next place -> hs !! conn = Some h -> pending_upgrade h = None ->
  mpsc_queue (hreceiver h) ns = x :: q -> same_but (hreceiver h) ns ns' -> mpsc_queue (hreceiver h) ns' = q ->
  InvPlace ns' ans (<[conn := mkHandler (remote h) (hreceiver h) (Some (ns_protocol x, ns_sender x))]> hs) op next
    (fupd place (ns_sender x) (GUp conn)).
Proof.
  intros [Q N O U D N1 B] Hh Hn Hq [_ Hs] Hq'.
  pose proof (N (hreceiver h)) as Hnd. rewrite Hq in Hnd. apply NoDup_cons in Hnd as [Hnd1 Hnd2].
  assert (Hx : place (ns_sender x) = GQueue (hreceiver h)) by (apply Q; rewrite Hq; left).
  split; [| | |..|done|].
  - intros c' o'. destruct (decide (c' = hreceiver h)) as [->|Hne].
    + rewrite Hq'. fupd_cases o' (ns_sender x); [split; [done|congruence]|].
      rewrite <- Q, Hq, fmap_cons, elem_of_cons. naive_solver.
    + rewrite (proj1 (Hs c' Hne)), Q. fupd_cases o' (ns_sender x); naive_solver congruence.
  - intros c'. destruct (decide (c' = hreceiver h)) as [->|Hne]; [by rewrite Hq'|by rewrite (proj1 (Hs c' Hne))].
  - intros o'. rewrite O. fupd_cases o' (ns_sender x); [split; congruence|done].
  - intros conn' o'. setoid_rewrite lookup_insert_Some. fupd_cases o' (ns_sender x).
    + split; [|intros [= <-]; eexists _, _; split; [by left|done]].
      intros (h' & pr & [[<- <-]|[? Hh']] & Hp); [done|].
      assert (place (ns_sender x) = GUp conn') by (apply U; eauto). congruence.
    + rewrite <- U. split.
      * intros (h' & pr & [[<- <-]|[? Hh']] & Hp); cbn in *; [congruence|eauto].
      * intros (h' & pr & Hh' & Hp). exists h', pr. split; [|done]. right; split; [|done]. intros <-; congruence.
  - intros o'. rewrite D. fupd_cases o' (ns_sender x); [split; congruence|done].
  - intros o'. rewrite <- B. fupd_cases o' (ns_sender x); [split; congruence|done].
Qed.

(** The handler of [conn] is done with its upgrade: it stays or leaves. *)
Lemma place_upgraded ns ans hs hs' op next place conn h proto o a :
  InvPlace ns ans hs op next place -> hs !! conn = Some h -> pending_upgrade h = Some (proto, o) ->
  (forall conn', conn' <> conn -> hs' !! conn' = hs !! conn') ->
  (forall h', hs' !! conn = Some h' -> pending_upgrade h' = None) ->
  InvPlace ns ((o, a) :: ans) hs' op next (fupd place o GDone).
Proof.
  intros [Q N O U D N1 B] Hh Hp Hoth Hsame.
  assert (Hx : place o = GUp conn) by (apply U; eauto). split; [|done|..].
  - intros c' o'. rewrite Q. fupd_cases o' o; [split; congruence|done].
  - intros o'. rewrite O. fupd_cases o' o; [split; congruence|done].
  - intros conn' o'. destruct (decide (conn' = conn)) as [->|Hne].
    + split; [intros (h' & pr & Hh' & Hp'); by rewrite (Hsame h') in Hp'|].
      fupd_cases o' o; [done|]. rewrite <- U. intros (h' & pr & Hh' & Hp'). congruence.
    + rewrite Hoth, U by done. fupd_cases o' o; [split; congruence|done].
  - intros o'. cbn. rewrite elem_of_cons, D. fupd_cases o' o; naive_solver.
  - cbn. constructor; [rewrite D; congruence|done].
  - intros o'. rewrite <- B. fupd_cases o' o; [split; congruence|done].
Qed.

End Inv.
