(* ===== verification/StreamProps.v ===== *)
(** * No request for a stream is lost

    Every step of the system keeps the invariant of [StreamSystem]; what follows
    for requests, dials and registrations. *)

From S2P Require Import Prelude RustStd Instances StreamShared StreamTheory StreamSystem StreamInv.
From Stdlib Require Import ZArith Lia.
From stdpp Require Import base sets gmap numbers relations list.

Open Scope Z_scope.

Section Props.
Context {PeerId ConnId Proto Stream Chan : Type}.
Context `{Countable PeerId} `{Countable ConnId} `{Countable Proto} `{Countable Chan}.
Context `{!Mpsc Chan (NewStream Proto)} `{!Mpsc Chan (PeerId * Stream)} `{!Mpsc Chan PeerId}.
Context `{!MpscLaws Chan (NewStream Proto)} `{!MpscLaws Chan PeerId}.
Context `{BuildProfile}.

Notation Shared := (@Shared PeerId ConnId Proto Stream Chan _ _ _ _ _ _ _ _ _ _ _).
Notation queued s c := (mpsc_queue c (new_streams s)).
Notation closed s c := (mpsc_is_closed c (new_streams s)).
Notation System :=
  (System (PeerId := PeerId) (ConnId := ConnId) (Proto := Proto) (Stream := Stream) (Chan := Chan)).
Implicit Types (s : Shared) (y : System).

(** ** The invariant, operation by operation *)

Lemma dead_drop (ns ns' : Chans Chan (NewStream Proto)) (owner : Chan -> option (PeerId + ConnId)) op c :
  InvDead ns owner op -> same_but c ns ns' -> mpsc_queue c ns' = [] -> InvDead ns' (fupd owner c None) op.
Proof.
  intros [D L] [Hl Ho] Hq; split; [|by rewrite Hl].
  intros c'. destruct (decide (c' = c)) as [->|Hne]; [done|].
  rewrite fupd_ne, (proj1 (Ho c' Hne)) by done. apply D.
Qed.

Lemma dial_forget (pend pend' : gmap PeerId Chan) dc (ds : Chans Chan PeerId) d :
  InvDial pend dc ds d -> pend' ⊆ pend -> InvDial pend' dc ds d.
Proof.
  intros [A B] Hsub; split.
  - intros p [c Hc]. apply A. exists c. by eapply lookup_weaken.
  - intros Hcl. rewrite (B Hcl) in Hsub. apply map_eq; intros p. rewrite lookup_empty.
    destruct (pend' !! p) eqn:E; [|done]. by eapply lookup_weaken in E; [rewrite lookup_empty in E|].
Qed.

(** Requests of the pending channel of [p] end with [a], and the channel dies. *)
Lemma inv_end_pending s hs op next d d' ann p c h a :
  InvOf s hs op next d ann -> pending_channels s !! p = Some c -> d ∖ {[p]} ⊆ d' ->
  same_but c (new_streams s) h -> mpsc_queue c h = [] -> mpsc_is_closed c h = true ->
  InvOf (set_answers (reverse (answered_with a (queued s c)) ++ answers s)
           (set_new_streams h (set_pending (delete p (pending_channels s)) s))) hs op next d' ann.
Proof.
  intros (owner & place & IO & IP & ID & IL) Hp Hd Hs Hq Hc.
  eexists (fupd owner c None), _; split_and!; cbn -[reverse].
  - eapply owner_drop_pending; eauto; [apply Hs|intros; by apply Hs].
  - by eapply place_finish.
  - by eapply dead_drop.
  - destruct IL as [A B]; split; [|intros Hcl; by rewrite (B Hcl), delete_empty].
    intros p' [c' [Hne Hp']%lookup_delete_Some]. destruct (A p') as [|]; [eauto|by left|right]. set_solver.
Qed.

Lemma inv_shrink_dialing s hs op next d d' ann :
  InvOf s hs op next d ann -> d ⊆ d' -> InvOf s hs op next d' ann.
Proof.
  intros (owner & place & IO & IP & ID & [A B]) Hd. exists owner, place. split_and!; try done.
  split; [|done]. intros p Hp. destruct (A p Hp); auto.
Qed.

Lemma inv_on_dial_failure s hs op next d d' ann p reason :
  InvOf s hs op next d ann -> dial_over p d d' -> InvOf (on_dial_failure p reason s) hs op next d' ann.
Proof.
  intros I [Hd _]. destruct (pending_channels s !! p) as [c|] eqn:Hp.
  - destruct (on_dial_failure_spec p c reason s Hp) as (h & Hs & Hq & Hc & ->).
    by eapply inv_end_pending.
  - unfold on_dial_failure; rewrite Hp. destruct I as (owner & place & IO & IP & ID & [A B]).
    exists owner, place; split_and!; try done. split; [|done].
    intros p' Hp'. destruct (A p' Hp'); [by left|right]. destruct (decide (p' = p)); [|set_solver].
    subst; rewrite Hp in Hp'; by destruct Hp'.
Qed.

(** The pending channel of a peer is not the channel of one of its connections. *)
Lemma pending_not_sender s hs op next d ann choose p c sd :
  InvOf s hs op next d ann -> valid_choose choose -> pending_channels s !! p = Some c ->
  connected_sender choose p s = Some sd -> c <> sd.
Proof.
  intros (owner & place & [P Hd L S C K Z] & _) V Hp Hsd ->.
  destruct (connected_sender_Some choose p sd s V Hsd) as (conn & Hc & Hs).
  apply P in Hp. destruct (S conn sd Hs) as [_ []]; congruence.
Qed.

Lemma inv_on_dial_skipped s hs op next d ann choose p :
  InvOf s hs op next d ann -> valid_choose choose -> InvOf (on_dial_skipped choose p s) hs op next d ann.
Proof.
  intros I V. destruct (connected_sender choose p s) as [sd|] eqn:Hsd;
    [|by unfold on_dial_skipped; rewrite Hsd].
  destruct (pending_channels s !! p) as [c|] eqn:Hp; [|by unfold on_dial_skipped; rewrite Hsd, Hp].
  pose proof (pending_not_sender _ _ _ _ _ _ _ _ _ _ I V Hp Hsd) as Hne.
  destruct (closed s sd) eqn:Hcl.
  - destruct (on_dial_skipped_closed choose p c sd s Hsd Hp Hne Hcl) as (h & Hs & Hq & Hc & ->).
    eapply inv_end_pending; eauto. set_solver.
  - destruct (on_dial_skipped_open choose p c sd s Hsd Hp Hne Hcl) as (h & -> & Hl & Hq & Hqs & Hqo & Hc & Hco).
    destruct I as (owner & place & IO & IP & [D1 D2] & IL).
    exists (fupd owner c None). eexists. split_and!; cbn.
    + by eapply owner_drop_pending.
    + by eapply place_forward.
    + split; [|by rewrite Hl]. intros c'. fupd_cases c' c; [done|]. intros Hn.
      destruct (decide (c' = sd)) as [->|]; [|by rewrite Hqo, D1].
      destruct (connected_sender_Some choose p sd s V Hsd) as (conn & _ & Hs).
      destruct (proj2 (io_live _ _ _ _ _ _ _ IO sd)) as [w Hw]; [|congruence].
      split; [|done]. by destruct (io_sender _ _ _ _ _ _ _ IO conn sd Hs).
    + eapply dial_forget; [done|apply delete_subseteq].
Qed.

Lemma inv_undial s hs op next d ann p :
  InvOf s hs op next ({[p]} ∪ d) ann -> pending_channels s !! p = None -> InvOf s hs op next d ann.
Proof.
  intros (owner & place & IO & IP & ID & [A B]) Hp. exists owner, place; split_and!; try done.
  split; [|done]. intros p' Hp'. destruct (A p' Hp') as [|Hin]; [by left|right].
  apply elem_of_union in Hin as [->%elem_of_singleton|]; [|done]. rewrite Hp in Hp'; by destruct Hp'.
Qed.

Lemma inv_behaviour_poll s s' hs op next d ann p :
  InvOf s hs op next d ann -> behaviour_poll s = (Some p, s') -> InvOf s' hs op next ({[p]} ∪ d) ann.
Proof.
  intros (owner & place & IO & IP & ID & [A B]) E. unfold behaviour_poll in E.
  destruct (mpsc_queue (dial_sender s) (dials s)) as [|x q] eqn:Eq.
  - destruct (mpsc_try_next_nil _ _ Eq) as (h & Ht & _). rewrite Ht in E. done.
  - destruct (mpsc_try_next_cons _ _ _ _ Eq) as (h & Ht & _ & Hq & Hc). rewrite Ht in E. injection E as -> <-.
    exists owner, place; split_and!; try done. cbn. split; [|by rewrite Hc].
    intros p' Hp'. rewrite Hq. destruct (A p' Hp') as [Hin|]; [|set_solver].
    apply elem_of_cons in Hin; set_solver.
Qed.

Lemma drain_forward_pending fuel sd c s :
  pending_channels (drain fuel (forward_request sd) c s) = pending_channels s.
Proof.
  revert s; induction fuel as [|fuel IH]; intros s; [done|]. cbn.
  destruct (mpsc_try_next c (new_streams s)) as [[x|] h]; [|done]. rewrite IH.
  unfold forward_request; cbn. by destruct (mpsc_send sd x h) as [[] h'].
Qed.

Lemma on_dial_skipped_pending choose p sd s :
  connected_sender choose p s = Some sd -> pending_channels (on_dial_skipped choose p s) !! p = None.
Proof.
  intros Hsd. unfold on_dial_skipped; rewrite Hsd. destruct (pending_channels s !! p) as [c|] eqn:Hp; [|done].
  match goal with |- context [drop_receiver c ?s1] =>
    destruct (drop_receiver_spec c s1) as (h & _ & _ & _ & ->) end.
  cbn -[drain]. unfold drain_all. rewrite drain_forward_pending. apply lookup_delete_eq.
Qed.

Lemma inv_step_skipped s s' hs op next d ann choose p :
  InvOf s hs op next d ann -> valid_choose choose -> behaviour_poll s = (Some p, s') ->
  (exists conn, connections s' !! conn = Some p) \/ p ∈ d ->
  InvOf (on_dial_skipped choose p s') hs op next d ann.
Proof.
  intros I V E Hd. eapply inv_behaviour_poll in I; [|exact E].
  pose proof I as (owner & place & IO & _).
  eapply inv_on_dial_skipped in I; [|exact V]. destruct Hd as [[conn Hc]|Hd].
  - eapply inv_undial; [exact I|]. destruct (connected_sender choose p s') as [sd|] eqn:Hsd.
    + by eapply on_dial_skipped_pending.
    + exfalso. eapply connected_sender_None; eauto. by apply IO.
  - eapply inv_shrink_dialing; [exact I|set_solver].
Qed.

(** ** Opening *)

Lemma inv_open s hs op next d ann c proto :
  InvOf s hs op next d ann -> c ∈ mpsc_live (new_streams s) ->
  InvOf s hs (<[next := (c, proto)]> op) (S next) d ann.
Proof.
  intros (owner & place & IO & IP & [D1 D2] & IL) Hc. exists owner, (fupd place next GOpening).
  split_and!; [done|by apply place_open| |done]. split; [done|].
  intros o c' pr [[<- [= <- <-]]|[? ?]]%lookup_insert_Some; eauto.
Qed.

Lemma inv_sender choose p s r s' hs op next d ann :
  InvOf s hs op next d ann -> valid_choose choose -> sender choose p s = (r, s') ->
  InvOf s' hs op next d ann /\ (forall c, r = Ok c -> c ∈ mpsc_live (new_streams s')).
Proof.
  intros I V E. unfold sender in E. pose proof I as (owner & place & IO & IP & [D1 D2] & [A B]).
  destruct (connected_sender choose p s) as [sd|] eqn:Hsd.
  { simplify_eq. split; [done|]. intros c [= <-].
    destruct (connected_sender_Some choose p sd _ V Hsd) as (conn & _ & Hs). by eapply (io_sender _ _ _ _ _ _ _ IO). }
  destruct (pending_channels s !! p) as [c|] eqn:Hp.
  { simplify_eq. split; [done|]. intros c' [= <-]. apply (io_live _ _ _ _ _ _ _ IO).
    apply (io_pending _ _ _ _ _ _ _ IO) in Hp. rewrite Hp; eauto. }
  destruct (mpsc_is_closed (dial_sender s) (dials s)) eqn:Hcl.
  { rewrite (mpsc_send_closed _ _ _ Hcl) in E. cbn in E. simplify_eq. split; [|done].
    exists owner, place; split_and!; [exact IO|exact IP|exact (conj D1 D2)|].
    split; [exact A|intros _; by apply B]. }
  destruct (mpsc_send_open _ p _ Hcl) as (ds & Hsend & _ & Hq & Hcl'). rewrite Hsend in E. cbn in E.
  destruct (mpsc_channel 0 (new_streams s)) as [c h] eqn:Ech. simplify_eq.
  destruct (mpsc_channel_fresh _ _ _ _ Ech) as (Hf & Hl & Hqc & Hop & Ho). split.
  - exists (fupd owner c (Some (inl p))), place; split_and!; cbn.
    + by eapply owner_new_pending.
    + eapply place_store; [done|]. intros c'. destruct (decide (c' = c)) as [->|Hne]; [|by apply Ho].
      rewrite Hqc. symmetry. apply D1. by eapply fresh_no_owner.
    + split; [|set_solver]. intros c'. fupd_cases c' c; [done|]. rewrite (proj1 (Ho c' ltac:(done))). apply D1.
    + split; [|cbn; congruence]. intros p' [c' [[<- _]|[? Hp']]%lookup_insert_Some]; rewrite Hq; [set_solver|].
      destruct (A p'); [eauto|set_solver..].
  - intros c' [= <-]. cbn. set_solver.
Qed.

Lemma inv_send s b s' hs op next d ann o c proto :
  InvOf s hs op next d ann -> op !! o = Some (c, proto) ->
  open_stream_send c (mkNewStream proto o) s = (b, s') ->
  InvOf s' hs (delete o op) next d ann.
Proof.
  intros (owner & place & IO & IP & [D1 D2] & IL) Ho E. unfold open_stream_send in E.
  pose proof (D2 _ _ _ Ho) as Hlive.
  assert (D2' : forall o' c' pr, delete o op !! o' = Some (c', pr) -> c' ∈ mpsc_live (new_streams s))
    by (intros ??? [? ?]%lookup_delete_Some; eauto).
  destruct (closed s c) eqn:Hcl.
  - rewrite (mpsc_send_closed _ _ _ Hcl) in E. cbn in E. simplify_eq.
    exists owner, (fupd place o GDone); split_and!; [exact IO|eapply place_send_failed; eauto|exact (conj D1 D2')|exact IL].
  - destruct (mpsc_send_open c (mkNewStream proto o) _ Hcl) as (h & Hsend & [Hl Hs] & Hq & Hcl').
    rewrite Hsend in E. cbn in E. simplify_eq.
    exists owner, (fupd place o (GQueue c)); split_and!; cbn; [| | |done].
    + eapply owner_store; [done..|]. intros c'.
      destruct (decide (c' = c)) as [->|Hne]; [congruence|by apply Hs].
    + eapply place_send; eauto. by split.
    + split; [|by rewrite Hl]. intros c' Hn.
      destruct (decide (c' = c)) as [->|Hne]; [|by rewrite (proj1 (Hs c' Hne)), D1].
      destruct (proj2 (io_live _ _ _ _ _ _ _ IO c)); [done|congruence].
Qed.

(** ** Connections *)

Lemma no_upgrade_new (hs : gmap ConnId (Handler PeerId Proto Chan)) conn p (c : Chan) :
  hs !! conn = None -> forall conn' o,
  (exists h proto, <[conn := handler_new p c]> hs !! conn' = Some h /\ pending_upgrade h = Some (proto, o)) <->
  (exists h proto, hs !! conn' = Some h /\ pending_upgrade h = Some (proto, o)).
Proof.
  intros Hn conn' o. destruct (decide (conn' = conn)) as [->|]; [|by rewrite lookup_insert_ne].
  rewrite lookup_insert_eq, Hn. split; [|naive_solver]. intros (h & pr & [= <-] & Hp). done.
Qed.

Lemma inv_receiver s s' hs op next d d' ann p conn c :
  InvOf s hs op next d ann -> hs !! conn = None -> dial_over p d d' -> receiver p conn s = (c, s') ->
  InvOf s' (<[conn := handler_new p c]> hs) op next d' ann.
Proof.
  intros (owner & place & IO & IP & [D1 D2] & [A B]) Hh [Hd _] E. unfold receiver in E.
  assert (HD : pending_channels s' = delete p (pending_channels s) -> dial_sender s' = dial_sender s ->
    dials s' = dials s -> InvDial (pending_channels s') (dial_sender s') (dials s') d').
  { intros -> -> ->. split; [|intros Hcl; by rewrite (B Hcl), delete_empty].
    intros p' [c' [Hne Hp']%lookup_delete_Some]. destruct (A p'); [eauto|by left|set_solver]. }
  destruct (pending_channels s !! p) as [c0|] eqn:Hp.
  - simplify_eq. exists (fupd owner c (Some (inr conn))), place; split_and!; cbn.
    + by apply owner_hand_over.
    + eapply place_handler; [done|]. by apply no_upgrade_new.
    + split; [|done]. intros c'. fupd_cases c' c; [done|apply D1].
    + by apply HD.
  - destruct (mpsc_channel 0 (new_streams s)) as [c1 h] eqn:Ech. simplify_eq.
    destruct (mpsc_channel_fresh _ _ _ _ Ech) as (Hf & Hl & Hqc & Hop & Ho).
    exists (fupd owner c (Some (inr conn))), place; split_and!; cbn.
    + by eapply owner_new_handler.
    + eapply place_handler; [|by apply no_upgrade_new]. eapply place_store; [done|]. intros c'.
      destruct (decide (c' = c)) as [->|Hne]; [|by apply Ho].
      rewrite Hqc. symmetry. apply D1. by eapply fresh_no_owner.
    + split; [|set_solver]. intros c'. fupd_cases c' c; [done|]. rewrite (proj1 (Ho c' ltac:(done))). apply D1.
    + apply HD; cbn; [|done..]. by rewrite delete_id.
Qed.

Lemma inv_connected s hs op next d ann conn h :
  InvOf s hs op next d ann -> hs !! conn = Some h -> conn ∉ ann ->
  InvOf (on_connection_established conn (remote h) s) hs op next d ({[conn]} ∪ ann).
Proof.
  intros (owner & place & [P Hd L S C K Z] & IP & ID & IL) Hh Hann. exists owner, place.
  split_and!; [|exact IP|exact ID|exact IL]. split; [exact P|exact Hd|exact L|exact S|exact C| |].
  - intros conn' Hc. cbn in *. destruct (decide (conn' = conn)) as [->|Hne]; [eauto|].
    rewrite lookup_insert_ne in Hc by done. by apply K.
  - intros conn' Hc Hn. apply Z; [done|set_solver].
Qed.

Lemma inv_conn_closed s hs op next d ann conn :
  InvOf s hs op next d ann -> conn ∈ ann -> InvOf (on_connection_closed conn s) hs op next d ann.
Proof.
  intros (owner & place & [P Hd L S C K Z] & IP & ID & IL) Hann. exists owner, place.
  split_and!; [|exact IP|exact ID|exact IL].
  split; [exact P|exact Hd|exact L|intros conn' c|intros conn' c h|intros conn'|intros conn']; cbn.
  - intros [_ ?]%lookup_delete_Some. by apply S.
  - intros [_ ?]%lookup_delete_Some. by apply C.
  - intros [p' [Hne Hc]%lookup_delete_Some]. rewrite lookup_delete_ne by done. apply K; eauto.
  - intros Hc Hn. rewrite lookup_delete_ne by (by intros ->). by apply Z.
Qed.

(** ** Handlers *)

(** Replacing a handler by one with the same receiver. *)
Lemma owner_update (ns : Chans Chan (NewStream Proto)) pend snds conns
    (hs : gmap ConnId (Handler PeerId Proto Chan)) ann owner conn (h h' : Handler PeerId Proto Chan) :
  InvOwner ns pend snds conns hs ann owner -> hs !! conn = Some h -> hreceiver h' = hreceiver h ->
  InvOwner ns pend snds conns (<[conn := h']> hs) ann owner.
Proof.
  intros [P Hd L S C K Z] Hh Hr; split; [exact P| |exact L|exact S| |exact K|].
  - intros conn' c. rewrite <- Hd. destruct (decide (conn' = conn)) as [->|]; [|by rewrite lookup_insert_ne].
    rewrite lookup_insert_eq, Hh. split; intros (x & [= <-] & <-); eauto.
  - intros conn' c x Hs. destruct (decide (conn' = conn)) as [->|]; [|rewrite lookup_insert_ne by done; eauto].
    rewrite lookup_insert_eq. intros [= <-]. rewrite Hr. eauto.
  - intros conn'. rewrite lookup_insert_is_Some'. intros [->|]; eauto.
Qed.

Lemma inv_handler_poll s hs op next d ann conn h r h' s' :
  InvOf s hs op next d ann -> hs !! conn = Some h -> handler_poll h s = (r, h', s') ->
  InvOf s' (<[conn := h']> hs) op next d ann.
Proof.
  intros I Hh E. unfold handler_poll in E.
  destruct (pending_upgrade h) as [[]|] eqn:Hp; [simplify_eq; by rewrite insert_id|].
  destruct I as (owner & place & IO & IP & [D1 D2] & IL).
  destruct (queued s (hreceiver h)) as [|x q] eqn:Hq.
  - destruct (mpsc_try_next_nil _ _ Hq) as (ns & Ht & [Hl Hs] & Hq' & Hc). rewrite Ht in E.
    injection E as <- <- <-. rewrite insert_id by done.
    assert (Hsame : forall c, mpsc_queue c ns = queued s c).
    { intros c. destruct (decide (c = hreceiver h)) as [->|Hne]; [congruence|by apply Hs]. }
    exists owner, place; split_and!; cbn; [| | |exact IL].
    + eapply owner_store; [done..|]. intros c. destruct (decide (c = hreceiver h)) as [->|Hne]; [done|by apply Hs].
    + by eapply place_store.
    + split; [|by rewrite Hl]. intros c Hn. rewrite Hsame. by apply D1.
  - destruct (mpsc_try_next_cons _ _ _ _ Hq) as (ns & Ht & [Hl Hs] & Hq' & Hc). rewrite Ht in E.
    injection E as <- <- <-.
    exists owner, (fupd place (ns_sender x) (GUp conn)); split_and!; cbn; [| | |exact IL].
    + eapply owner_update; eauto. eapply owner_store; [done..|].
      intros c. destruct (decide (c = hreceiver h)) as [->|Hne]; [done|by apply Hs].
    + eapply place_take; eauto. by split.
    + split; [|by rewrite Hl]. intros c Hn. destruct (decide (c = hreceiver h)) as [->|Hne].
      * apply D1 in Hn. congruence.
      * rewrite (proj1 (Hs c Hne)). by apply D1.
Qed.

Lemma inv_upgraded s hs op next d ann conn h proto o a :
  InvOf s hs op next d ann -> hs !! conn = Some h -> pending_upgrade h = Some (proto, o) ->
  InvOf (answer o a s) (<[conn := take_pending h]> hs) op next d ann.
Proof.
  intros (owner & place & IO & IP & ID & IL) Hh Hp.
  exists owner, (fupd place o GDone); split_and!; [by eapply owner_update| |exact ID|exact IL].
  cbn. eapply place_upgraded; eauto; [intros; by rewrite lookup_insert_ne|].
  intros h'. rewrite lookup_insert_eq. by intros [= <-].
Qed.

Lemma inv_inbound s hs op next d ann p stream proto :
  InvOf s hs op next d ann -> InvOf (on_inbound_stream p stream proto s) hs op next d ann.
Proof.
  intros I. unfold on_inbound_stream. destruct (supported_inbound s !! proto); [|done].
  by destruct (mpsc_try_send _ _ _) as [[] inc].
Qed.

Lemma inv_handler_event s hs op next d ann conn h event (r : res unit unit) h' s' :
  InvOf s hs op next d ann -> hs !! conn = Some h -> on_connection_event event h s = (r, h', s') ->
  InvOf s' (<[conn := h']> hs) op next d ann.
Proof.
  intros I Hh E. destruct event; cbn in E.
  - injection E as <- <- <-. rewrite insert_id by done. by apply inv_inbound.
  - destruct (pending_upgrade h) as [[pr o]|] eqn:Hp; [|simplify_eq; by rewrite insert_id].
    destruct (debug_assert _); injection E as <- <- <-; by eapply inv_upgraded.
  - destruct (pending_upgrade h) as [[pr o]|] eqn:Hp; [|simplify_eq; by rewrite insert_id].
    injection E as <- <- <-; by eapply inv_upgraded.
  - simplify_eq; by rewrite insert_id.
Qed.

Lemma inv_handler_drop s hs op next d ann conn h :
  InvOf s hs op next d ann -> hs !! conn = Some h -> InvOf (handler_drop h s) (delete conn hs) op next d ann.
Proof.
  intros (owner & place & IO & IP & ID & IL) Hh. unfold handler_drop.
  destruct (drop_receiver_spec (hreceiver h) s) as (ns & Hs & Hq & Hc & ->).
  assert (IO' : InvOwner ns (pending_channels s) (senders s) (connections s) (delete conn hs) ann
    (fupd owner (hreceiver h) None)) by (eapply owner_drop_handler; eauto; [apply Hs|intros; by apply Hs]).
  assert (ID' : InvDead ns (fupd owner (hreceiver h) None) op) by (by eapply dead_drop).
  eapply place_finish in IP; [|exact Hs|exact Hq].
  destruct (pending_upgrade h) as [[pr o]|] eqn:Hp; eexists _, _; split_and!;
    [exact IO'| |exact ID'|exact IL|exact IO'| |exact ID'|exact IL]; cbn -[reverse].
  - eapply place_upgraded; [exact IP|exact Hh|exact Hp|intros; by rewrite lookup_delete_ne|].
    intros h'. by rewrite lookup_delete_eq.
  - eapply place_handler; [exact IP|]. intros conn' o. destruct (decide (conn' = conn)) as [->|].
    + rewrite lookup_delete_eq, Hh. split; [naive_solver|]. intros (x & pr & [= <-] & ?); congruence.
    + by rewrite lookup_delete_ne.
Qed.

(** ** The end of the behaviour *)

(** Dropping the pending channels one by one: [l] are those that are left. *)
Lemma inv_drop_all (l : list (PeerId * Chan)) s hs ann op next owner place :
  NoDup l.*1 ->
  InvOwner (new_streams s) (list_to_map l) (senders s) (connections s) hs ann owner ->
  InvPlace (new_streams s) (answers s) hs op next place -> InvDead (new_streams s) owner op ->
  exists ns ans owner' place',
    foldl (fun s '(_, receiver) => drop_receiver receiver s) s l = set_answers ans (set_new_streams ns s) /\
    InvOwner ns ∅ (senders s) (connections s) hs ann owner' /\
    InvPlace ns ans hs op next place' /\ InvDead ns owner' op.
Proof.
  revert s owner place; induction l as [|[p c] l IH]; intros s owner place Hnd IO IP ID.
  { exists (new_streams s), (answers s), owner, place. by destruct s. }
  apply NoDup_cons in Hnd as [Hp Hnd]. cbn [foldl]. rewrite list_to_map_cons in IO.
  destruct (drop_receiver_spec c s) as (ns & Hs & Hq & Hc & ->).
  eapply owner_drop_pending in IO; [|apply lookup_insert_eq|apply Hs|exact Hc|intros; by apply Hs].
  rewrite delete_insert_id in IO by (by apply not_elem_of_list_to_map_1).
  eapply place_finish in IP; [|exact Hs|exact Hq]. eapply dead_drop in ID; [|exact Hs|exact Hq].
  edestruct (IH (set_answers (reverse (answered_with Cancelled (queued s c)) ++ answers s) (set_new_streams ns s)))
    as (ns' & ans & owner' & place' & E & R); [exact Hnd|exact IO|exact IP|exact ID|].
  exists ns', ans, owner', place'. split; [|exact R]. exact E.
Qed.

Lemma inv_behaviour_drop s hs op next d ann :
  InvOf s hs op next d ann -> InvOf (behaviour_drop s) hs op next d ann.
Proof.
  intros (owner & place & IO & IP & ID & IL).
  unfold behaviour_drop, on_behaviour_dropped.
  set (s1 := set_pending ∅ (set_dials _ s)).
  edestruct (inv_drop_all (map_to_list (pending_channels s)) s1) as (ns & ans & owner' & place' & E & IO' & IP' & ID').
  - apply NoDup_fst_map_to_list.
  - cbn. rewrite list_to_map_to_list. exact IO.
  - exact IP.
  - exact ID.
  - cbn [pending_channels set_dials]. rewrite E. exists owner', place'. split_and!; [exact IO'|exact IP'|exact ID'|].
    cbn. split; [|done]. intros p [c Hc]. by rewrite lookup_empty in Hc.
Qed.

(** ** Every reachable state *)

Lemma inv_init y : stream_init y -> StreamInv y.
Proof.
  intros ((dc & ns & inc & ds & Hs & Hl & Hq) & Hh & Ho & Hn & Hd & Ha).
  unfold StreamInv; rewrite Hs, Hh, Ho, Hn, Hd, Ha.
  exists (fun _ => None), (fun _ => GUnborn). split_and!.
  - split; cbn.
    + intros p c. rewrite lookup_empty. by split.
    + intros conn c. split; [intros (h & Hx & _); by rewrite lookup_empty in Hx|done].
    + intros c. rewrite Hl. split; [by intros []|set_solver].
    + intros conn c Hx. by rewrite lookup_empty in Hx.
    + intros conn c h Hx. by rewrite lookup_empty in Hx.
    + intros conn [? Hx]. by rewrite lookup_empty in Hx.
    + intros conn [? Hx]. by rewrite lookup_empty in Hx.
  - split; cbn; intros; rewrite ?Hq, ?lookup_empty.
    + split; [by intros ?%not_elem_of_nil|done].
    + constructor.
    + split; [by intros []|done].
    + split; [by intros (h & pr & Hx & _)|done].
    + split; [by intros ?%not_elem_of_nil|done].
    + constructor.
    + split; [lia|done].
  - split; [done|]. intros o c pr. by rewrite lookup_empty.
  - split; [|done]. cbn. intros p [c Hc]. by rewrite lookup_empty in Hc.
Qed.

Lemma inv_step y y' : stream_step y y' -> StreamInv y -> StreamInv y'.
Proof.
  unfold StreamInv; destruct 1; cbn; intros I.
  - edestruct inv_sender as [I' Hc]; [exact I|done|done|]. apply inv_open; eauto.
  - by eapply inv_sender in I as [? _].
  - by eapply inv_send.
  - unfold accept in *. case_decide; [by simplify_eq|].
    destruct (mpsc_channel _ _); by simplify_eq.
  - unfold listen_protocol, supported_inbound_protocols in *. by simplify_eq.
  - done.
  - destruct outbound; unfold handle_established_outbound_connection, handle_established_inbound_connection in *;
      destruct (receiver p conn (sh y)) as [c s'] eqn:E; simplify_eq; by eapply inv_receiver.
  - by apply inv_connected.
  - by apply inv_conn_closed.
  - by eapply inv_behaviour_poll.
  - by eapply inv_step_skipped.
  - eapply inv_shrink_dialing; [exact I|set_solver].
  - destruct error; try done; by eapply inv_on_dial_failure.
  - by eapply inv_handler_poll.
  - by eapply inv_handler_event.
  - by apply inv_handler_drop.
  - by apply inv_behaviour_drop.
Qed.

Lemma inv_reachable y : stream_reachable y -> StreamInv y.
Proof.
  intros (y0 & Hi & Hr). apply inv_init in Hi. induction Hr; eauto using inv_step.
Qed.

(** A place and its ghost. *)
Definition ghost_of (owner : Chan -> option (PeerId + ConnId)) (pl : @Place PeerId ConnId) (g : @GPlace ConnId Chan)
  : Prop :=
  match pl with
  | Opening => g = GOpening
  | AwaitingDial p => exists c, g = GQueue c /\ owner c = Some (inl p)
  | AwaitingHandler conn => exists c, g = GQueue c /\ owner c = Some (inr conn)
  | Upgrading conn => g = GUp conn
  | Finished => g = GDone
  end.

Lemma located_ghost y owner place o pl :
  InvOwner (new_streams (sh y)) (pending_channels (sh y)) (senders (sh y)) (connections (sh y)) (handlers y)
    (announced y) owner ->
  InvPlace (new_streams (sh y)) (answers (sh y)) (handlers y) (opening y) (next_request y) place ->
  located y o pl <-> ghost_of owner pl (place o).
Proof.
  intros [P Hd L S C K Z] [Q N O U D N1 B]. destruct pl; cbn; auto.
  - split; intros (c & A1 & A2); exists c; [apply P in A1; apply Q in A2|apply P in A2; apply Q in A1]; done.
  - split.
    + intros (h & Hh & Ho). exists (hreceiver h). rewrite <- Q, <- Hd. eauto.
    + intros (c & Ho & (h & Hh & <-)%Hd). apply Q in Ho. eauto.
Qed.

(** C20: No request for a stream is ever lost or served twice.  In every state
    the controls, handlers and the swarm can bring about, a request that
    [open_stream] has made is at exactly one place: still being sent, queued for
    a peer that is being dialed, queued at a live connection, under negotiation
    there, or finished, and its oneshot ends at most once.  Nothing else is at
    any of these places. *)
Theorem no_request_is_lost y :
  stream_reachable y ->
  (forall o, (o < next_request y)%nat -> exists pl, forall pl', located y o pl' <-> pl' = pl) /\
  (forall o pl, located y o pl -> (o < next_request y)%nat) /\
  NoDup (answers (sh y)).*1.
Proof.
  intros (owner & place & IO & IP & [D1 D2] & IL)%inv_reachable. split_and!; [| |apply IP].
  - intros o Ho. destruct (place o) as [| |c|conn|] eqn:E.
    + apply (ip_unborn _ _ _ _ _ _ IP) in E. lia.
    + exists Opening. intros pl'. rewrite located_ghost, E by done. destruct pl'; naive_solver.
    + destruct (owner c) as [[p|conn]|] eqn:Eo.
      * exists (AwaitingDial p). intros pl'. rewrite located_ghost, E by done. destruct pl'; naive_solver.
      * exists (AwaitingHandler conn). intros pl'. rewrite located_ghost, E by done. destruct pl'; naive_solver.
      * apply (ip_queue _ _ _ _ _ _ IP) in E. rewrite (D1 c Eo) in E. by apply not_elem_of_nil in E.
    + exists (Upgrading conn). intros pl'. rewrite located_ghost, E by done. destruct pl'; naive_solver.
    + exists Finished. intros pl'. rewrite located_ghost, E by done. destruct pl'; naive_solver.
  - intros o pl. rewrite located_ghost by done. intros Hg. destruct (decide (o < next_request y)%nat); [done|].
    assert (E : place o = GUnborn) by (apply (ip_unborn _ _ _ _ _ _ IP); lia).
    rewrite E in Hg. destruct pl; naive_solver.
Qed.

Lemma pending_peers_have_sender y p conn choose :
  StreamInv y -> valid_choose choose -> connections (sh y) !! conn = Some p ->
  is_Some (connected_sender choose p (sh y)).
Proof.
  intros (owner & place & IO & _) V Hc. destruct (connected_sender choose p (sh y)) as [sd|] eqn:Hsd; [eauto|].
  exfalso. eapply connected_sender_None; eauto. apply IO.
Qed.

(** C21: A request that waits for a connection does not wait in vain: as long as a
    channel is pending for a peer, a dial to that peer is queued for the swarm or
    in flight; and while the peer is announced as connected, requests find its
    channel, so none is left waiting for a dial the swarm has skipped. *)
Theorem pending_peers_are_dialed y p :
  stream_reachable y ->
  (is_Some (pending_channels (sh y) !! p) ->
   p ∈ mpsc_queue (dial_sender (sh y)) (dials (sh y)) \/ p ∈ dialing y) /\
  (forall choose conn, valid_choose choose -> connections (sh y) !! conn = Some p ->
   is_Some (connected_sender choose p (sh y)) /\
   pending_channels (on_dial_skipped choose p (sh y)) !! p = None).
Proof.
  intros I%inv_reachable. pose proof I as (owner & place & IO & IP & ID & [A B]). split; [apply A|].
  intros choose conn V Hc. destruct (pending_peers_have_sender y p conn choose I V Hc) as [sd Hsd].
  split; [eauto|]. by eapply on_dial_skipped_pending.
Qed.

(** C33: What becomes of the requests that wait for a dial.  A failed dial answers
    each of them with [NotConnected] and the reason, no other oneshot ends, and
    the channel closes.  A dial the swarm skipped because the peer is connected
    moves them, in order, behind the requests already queued at one of the
    peer's connections; if that connection is already gone they are answered
    with [ConnectionReset]. *)
Theorem dial_outcomes y p c reason choose :
  stream_reachable y -> valid_choose choose -> pending_channels (sh y) !! p = Some c ->
  let waiting := queued (sh y) c in
  let failed := on_dial_failure p reason (sh y) in
  let skipped := on_dial_skipped choose p (sh y) in
  (answers failed = reverse (answered_with (Answered (inr (Io (io_new NotConnected reason)))) waiting)
                      ++ answers (sh y) /\
   pending_channels failed = delete p (pending_channels (sh y)) /\
   closed failed c = true /\ queued failed c = []) /\
  (forall conn, connections (sh y) !! conn = Some p -> exists conn' sd,
   connections (sh y) !! conn' = Some p /\ senders (sh y) !! conn' = Some sd /\
   pending_channels skipped = delete p (pending_channels (sh y)) /\ queued skipped c = [] /\
   (closed (sh y) sd = false ->
    queued skipped sd = queued (sh y) sd ++ waiting /\ answers skipped = answers (sh y)) /\
   (closed (sh y) sd = true ->
    answers skipped = reverse (answered_with (Answered (inr (Io (io_from ConnectionReset)))) waiting)
                        ++ answers (sh y))).
Proof.
  intros R V Hp waiting failed skipped. pose proof (inv_reachable y R) as I. split.
  - unfold failed. destruct (on_dial_failure_spec p c reason (sh y) Hp) as (h & _ & Hq & Hc & ->). by split_and!.
  - intros conn Hconn. destruct (pending_peers_have_sender y p conn choose I V Hconn) as [sd Hsd].
    destruct (connected_sender_Some choose p sd (sh y) V Hsd) as (conn' & Hc' & Hs').
    exists conn', sd. pose proof (pending_not_sender _ _ _ _ _ _ _ _ _ _ I V Hp Hsd) as Hne.
    unfold skipped. destruct (closed (sh y) sd) eqn:Hcl.
    + destruct (on_dial_skipped_closed choose p c sd (sh y) Hsd Hp Hne Hcl) as (h & _ & Hq & Hc & ->).
      by split_and!.
    + destruct (on_dial_skipped_open choose p c sd (sh y) Hsd Hp Hne Hcl) as (h & -> & _ & Hq & Hqs & _).
      by split_and!.
Qed.

End Props.

(** ** Inbound streams *)

Section Inbound.
Context {PeerId ConnId Proto Stream Chan : Type}.
Context `{Countable PeerId} `{Countable ConnId} `{Countable Proto} `{Countable Chan}.
Context `{!Mpsc Chan (NewStream Proto)} `{!Mpsc Chan (PeerId * Stream)} `{!Mpsc Chan PeerId}.
Context `{!MpscLaws Chan (PeerId * Stream)}.

Notation Shared := (@Shared PeerId ConnId Proto Stream Chan _ _ _ _ _ _ _ _ _ _ _).
Notation is_open s c := (mpsc_is_closed c (incoming s) = false).
Implicit Types (s : Shared).

Lemma retain_open_Some s proto c :
  supported_inbound (retain_open s) !! proto = Some c <-> supported_inbound s !! proto = Some c /\ is_open s c.
Proof. cbn. by rewrite map_lookup_filter_Some. Qed.

(** A protocol has one acceptor at a time.  [accept] is refused exactly when the
    protocol has a registration whose [IncomingStreams] is still held; otherwise
    it registers a new, empty channel.  Registrations of other protocols stay,
    except those whose acceptor is gone.  An inbound stream goes to the
    acceptor of its protocol and to no other, behind the streams already
    queued there, or is dropped when that channel is full; a stream for a
    closed channel ends its registration. *)
Theorem one_acceptor_per_protocol proto capacity s r s' :
  accept proto capacity s = (r, s') ->
  (r = Err mkAlreadyRegistered <-> exists c, supported_inbound s !! proto = Some c /\ is_open s c) /\
  (forall c, r = Ok c -> supported_inbound s' !! proto = Some c /\ is_open s' c /\
     mpsc_queue c (incoming s') = [] /\ c ∉ mpsc_live (incoming s)) /\
  (forall q c, q <> proto ->
     (supported_inbound s' !! q = Some c <-> supported_inbound s !! q = Some c /\ is_open s c)) /\
  (forall remote stream q c, supported_inbound s !! q = Some c ->
     let t := on_inbound_stream remote stream q s in
     (forall c', c' <> c -> mpsc_queue c' (incoming t) = mpsc_queue c' (incoming s)) /\
     (supported_inbound t = supported_inbound s /\
        (mpsc_queue c (incoming t) = mpsc_queue c (incoming s) ++ [(remote, stream)] \/
         mpsc_queue c (incoming t) = mpsc_queue c (incoming s)) \/
      mpsc_is_closed c (incoming s) = true /\ supported_inbound t = delete q (supported_inbound s))).
Proof.
  intros E. split; [|split; [|split]].
  - unfold accept in E. case_decide as D.
    + simplify_eq. split; [|done]. intros _. destruct D as [c Hc]. exists c. by apply retain_open_Some.
    + destruct (mpsc_channel _ _) as [c inc]. simplify_eq. split; [done|]. intros (c' & Hc').
      destruct D. exists c'. by apply retain_open_Some.
  - intros c ->. unfold accept in E. case_decide as D; [done|].
    destruct (mpsc_channel _ _) as [c' inc] eqn:Ech. injection E as -> <-.
    destruct (mpsc_channel_fresh _ _ _ _ Ech) as (Hf & _ & Hq & Ho & _). cbn. by rewrite lookup_insert_eq.
  - intros q c Hne. unfold accept in E. case_decide as D.
    + simplify_eq. apply retain_open_Some.
    + destruct (mpsc_channel _ _) as [c' inc]. injection E as <- <-. cbn.
      rewrite lookup_insert_ne by done. apply retain_open_Some.
  - intros remote stream q c Hc t. unfold t, on_inbound_stream. rewrite Hc.
    destruct (mpsc_try_send c (remote, stream) (incoming s)) as [r' inc] eqn:Es.
    pose proof (mpsc_try_send_cases _ _ _ _ _ Es) as Hcases. destruct r'; cbn.
    + destruct Hcases as (_ & [_ Ho] & Hq & _). split; [intros; by apply Ho|by left; split; [|left]].
    + destruct Hcases as (_ & ->). split; [done|by left; split; [|right]].
    + destruct Hcases as (Hcl & ->). split; [done|by right].
Qed.

End Inbound.

(** * A concrete run of the stream system

    An implementation of the channel interface, and a run in which a peer that is
    not connected is asked for two streams. *)

(** Channels numbered from 0: what is queued, closed and the capacity of each. *)
Record ToyChans (T : Type) := mkToyChans {
  tc_next : nat;
  tc_queue : nat -> list T;
  tc_closed : nat -> bool;
  tc_cap : nat -> Z
}.
Arguments mkToyChans {T}.
Arguments tc_next {T}.
Arguments tc_queue {T}.
Arguments tc_closed {T}.
Arguments tc_cap {T}.

Definition tc_set_queue {T} (c : nat) (q : list T) (h : ToyChans T) : ToyChans T :=
  mkToyChans (tc_next h) (fupd (tc_queue h) c q) (tc_closed h) (tc_cap h).

Definition tc_close {T} (c : nat) (h : ToyChans T) : ToyChans T :=
  mkToyChans (tc_next h) (tc_queue h) (fupd (tc_closed h) c true) (tc_cap h).

#[global] Instance toy_mpsc (T : Type) : Mpsc nat T := {|
  Chans := ToyChans T;
  mpsc_channel n h :=
    (tc_next h, mkToyChans (S (tc_next h)) (fupd (tc_queue h) (tc_next h) [])
                  (fupd (tc_closed h) (tc_next h) false) (fupd (tc_cap h) (tc_next h) n));
  mpsc_try_send c x h :=
    if tc_closed h c then (SendDisconnected, h)
    else if tc_cap h c <? Z.of_nat (length (tc_queue h c)) then (SendFull, h)
    else (SendOk, tc_set_queue c (tc_queue h c ++ [x]) h);
  mpsc_send c x h :=
    if tc_closed h c then (false, h) else (true, tc_set_queue c (tc_queue h c ++ [x]) h);
  mpsc_try_next c h :=
    match tc_queue h c with [] => (None, h) | x :: q => (Some x, tc_set_queue c q h) end;
  mpsc_is_closed c h := tc_closed h c;
  mpsc_close := tc_close;
  mpsc_drop_receiver c h := (tc_queue h c, tc_close c (tc_set_queue c [] h));
  mpsc_queue c h := tc_queue h c;
  mpsc_live h := list_to_set (seq 0 (tc_next h))
|}.

#[global] Instance toy_mpsc_laws (T : Type) : MpscLaws nat T.
Proof.
  split; unfold same_but; cbn -[seq].
  - intros n h c h' [= <- <-]; cbn -[seq]. rewrite !fupd_eq. split_and!; try done.
    + rewrite elem_of_list_to_set, elem_of_seq. lia.
    + rewrite seq_S, list_to_set_app_L. cbn. set_solver.
    + intros c' Hne. by rewrite !fupd_ne.
  - intros c x h Hc. rewrite Hc. exists (tc_set_queue c (tc_queue h c ++ [x]) h). cbn -[seq]. rewrite fupd_eq.
    split_and!; try done. intros c' Hne. by rewrite fupd_ne.
  - intros c x h ->. done.
  - intros c x h r h' E. destruct (tc_closed h c) eqn:Hc; [by simplify_eq|].
    destruct (_ <? _); simplify_eq; [done|]. cbn -[seq]. rewrite fupd_eq.
    split_and!; try done. intros c' Hne. by rewrite fupd_ne.
  - intros c x q h Hq. rewrite Hq. exists (tc_set_queue c q h). cbn -[seq]. rewrite fupd_eq.
    split_and!; try done. intros c' Hne. by rewrite fupd_ne.
  - intros c h Hq. rewrite Hq. exists h. by split_and!.
  - intros c h. rewrite fupd_eq. split_and!; try done. intros c' Hne. by rewrite fupd_ne.
  - intros c h. exists (tc_close c (tc_set_queue c [] h)). cbn -[seq]. rewrite !fupd_eq.
    split_and!; try done. intros c' Hne. by rewrite !fupd_ne.
Qed.

Definition no_chans {T} : ToyChans T := mkToyChans 0 (fun _ => []) (fun _ => false) (fun _ => 0).

Definition first_of : list nat -> option nat := head.

Lemma first_of_valid : valid_choose first_of.
Proof. intros []; cbn; [done|left]. Qed.

(** Peers, protocols and streams are numbers; the dial channel is channel 0 of
    its store. *)
Notation DemoShared := (Shared (PeerId := Z) (ConnId := nat) (Proto := Z) (Stream := Z) (Chan := nat)).
Notation DemoSystem := (System (PeerId := Z) (ConnId := nat) (Proto := Z) (Stream := Z) (Chan := nat)).

Definition demo0 : DemoSystem :=
  mkSystem (shared_new 0%nat no_chans no_chans (snd (mpsc_channel (T := Z) 0 no_chans))) ∅ ∅ 0 ∅ ∅.

(** Two requests for peer 7, the first of them sent, the dial handed out. *)
Definition demo1 : DemoSystem :=
  mkSystem (snd (sender first_of 7 (sh demo0))) ∅ (<[0%nat := (0%nat, 5)]> (opening demo0)) 1 ∅ ∅.
Definition demo2 : DemoSystem :=
  mkSystem (snd (open_stream_send 0%nat (mkNewStream 5 0) (sh demo1))) ∅ (delete 0%nat (opening demo1)) 1 ∅ ∅.
Definition demo3 : DemoSystem :=
  mkSystem (snd (sender first_of 7 (sh demo2))) ∅ (<[1%nat := (0%nat, 6)]> (opening demo2)) 2 ∅ ∅.
Definition demo4 : DemoSystem :=
  mkSystem (snd (behaviour_poll (sh demo3))) ∅ (opening demo3) 2 ({[7]} ∪ ∅) ∅.

Lemma stream_demo_reachable : stream_reachable (H3 := debug_profile) demo4.
Proof.
  exists demo0. split.
  - split_and!; try reflexivity. by eexists _, _, _, _.
  - eapply rtc_l; [exact (step_open (H3 := debug_profile) first_of 7 5 0%nat demo0 (sh demo1) first_of_valid eq_refl)|].
    eapply rtc_l; [exact (step_send (H3 := debug_profile) 0%nat 0%nat 5 demo1 true (sh demo2) eq_refl eq_refl)|].
    eapply rtc_l; [exact (step_open (H3 := debug_profile) first_of 7 6 0%nat demo2 (sh demo3) first_of_valid eq_refl)|].
    apply rtc_once. exact (step_dial (H3 := debug_profile) 7 demo3 (sh demo4) eq_refl).
Qed.

(** Request 0 waits for the dial and nowhere else. *)
Lemma no_request_is_lost_witness :
  (exists pl, forall pl', located demo4 0%nat pl' <-> pl' = pl) /\ NoDup (answers (sh demo4)).*1.
Proof.
  destruct (no_request_is_lost demo4 stream_demo_reachable) as (A & _ & B).
  split; [apply A; cbn; lia|exact B].
Defined.

Lemma pending_peers_are_dialed_witness : is_Some (pending_channels (sh demo4) !! 7) /\ 7 ∈ dialing demo4.
Proof.
  assert (P : is_Some (pending_channels (sh demo4) !! 7)) by (by exists 0%nat).
  split; [exact P|].
  destruct (pending_peers_are_dialed demo4 7 stream_demo_reachable) as [A _].
  destruct (A P) as [Q|Q]; [by apply not_elem_of_nil in Q|exact Q].
Defined.

Lemma dial_outcomes_witness :
  answers (on_dial_failure 7 [] (sh demo4)) = [(0%nat, Answered (inr (Io (io_new NotConnected []))))].
Proof.
  destruct (dial_outcomes demo4 7 0%nat [] first_of stream_demo_reachable first_of_valid eq_refl) as ((A & _) & _).
  rewrite A. reflexivity.
Defined.

Definition demo_accept := accept 5 1 (sh demo0).

Lemma one_acceptor_witness :
  supported_inbound (snd demo_accept) !! 5 = Some 0%nat /\
  fst (accept 5 1 (snd demo_accept)) = Err mkAlreadyRegistered.
Proof.
  split.
  - pose proof (one_acceptor_per_protocol 5 1 (sh demo0) (Ok 0%nat) (snd demo_accept) eq_refl) as (_ & A & _).
    exact (proj1 (A 0%nat eq_refl)).
  - reflexivity.
Defined.
