(* ===== verification/Wrapped.v ===== *)
(** * Wrapped behaviours (crates/transport/src/behaviour/wrapped.rs, request_server.rs)

    [BehaviourWrapper] turns an inner libp2p behaviour into one with its own
    events: it may react to swarm events, translate the events of the inner
    behaviour and be polled itself.  [Wrapped] queues what the wrapper produces
    and hands it to the swarm one command per poll.

    A wrapper is a record of operations on its state [W], which contains the
    inner behaviour; [Cmd] are the commands to the swarm other than
    [GenerateEvent], which pass through unchanged.  Connection callbacks are
    forwarded to the inner behaviour and have no part here. *)

From S2P Require Import Prelude.
From Stdlib Require Import ZArith Lia.
From stdpp Require Import base list.

(** [ToSwarm]: an event for whoever drives the swarm, or a command to it. *)
Inductive ToSwarm (Ev Cmd : Type) :=
| GenerateEvent (ev : Ev)
| Command (cmd : Cmd).
Arguments GenerateEvent {Ev Cmd} ev.
Arguments Command {Ev Cmd} cmd.

(** The trait [BehaviourWrapper] together with the [NetworkBehaviour] methods of
    its inner behaviour; a poll gives [None] for [Pending]. *)
Class BehaviourWrapper (W SwarmEvent HandlerEvent InnerEv Ev Cmd : Type) := {
  inner_on_swarm_event : SwarmEvent -> W -> W;
  inner_on_handler_event : HandlerEvent -> W -> W;
  inner_poll : W -> option (ToSwarm InnerEv Cmd) * W;
  w_on_swarm_event : SwarmEvent -> W -> list (ToSwarm Ev Cmd) * W;
  w_on_inner_event : InnerEv -> W -> list (ToSwarm Ev Cmd) * W;
  w_poll : W -> option (list (ToSwarm Ev Cmd)) * W
}.

Section Wrapped.
Context {W SwarmEvent HandlerEvent InnerEv Ev Cmd : Type}.
Context `{BW : BehaviourWrapper W SwarmEvent HandlerEvent InnerEv Ev Cmd}.

(** The provided method [on_inner_command]. *)
Definition on_inner_command (ev : ToSwarm InnerEv Cmd) (w : W) : list (ToSwarm Ev Cmd) * W :=
  match ev with
  | GenerateEvent ev => w_on_inner_event ev w
  | Command cmd => ([Command cmd], w)
  end.

Record Wrapped := mkWrapped {
  wrapper : W;
  pending_events : list (ToSwarm Ev Cmd)
}.

Definition wrapped_from (w : W) : Wrapped := mkWrapped w [].

Definition wrapped_on_swarm_event (event : SwarmEvent) (s : Wrapped) : Wrapped :=
  let w := inner_on_swarm_event event (wrapper s) in
  let '(evs, w) := w_on_swarm_event event w in
  mkWrapped w (pending_events s ++ evs).

Definition wrapped_on_handler_event (event : HandlerEvent) (s : Wrapped) : Wrapped :=
  mkWrapped (inner_on_handler_event event (wrapper s)) (pending_events s).

(** [Wrapped::poll]; the outer [None] says that the fuel ran out. *)
Fixpoint wrapped_poll (fuel : nat) (s : Wrapped) : option (option (ToSwarm Ev Cmd) * Wrapped) :=
  match fuel with
  | O => None
  | S fuel =>
      match pending_events s with
      | ev :: rest => Some (Some ev, mkWrapped (wrapper s) rest)
      | [] =>
          match w_poll (wrapper s) with
          | (Some events, w) => wrapped_poll fuel (mkWrapped w (pending_events s ++ events))
          | (None, w) =>
              match inner_poll w with
              | (Some ev, w) =>
                  let '(events, w) := on_inner_command ev w in
                  wrapped_poll fuel (mkWrapped w (pending_events s ++ events))
              | (None, w) => Some (None, mkWrapped w (pending_events s))
              end
          end
      end
  end.

(** ** Connections: every question of the swarm goes to the inner behaviour *)

Class InnerConnections (W Conn Peer Addr Role Handler Denied : Type) := {
  inner_pending_inbound : Conn -> Addr -> Addr -> W -> res Denied unit * W;
  inner_established_inbound : Conn -> Peer -> Addr -> Addr -> W -> res Denied Handler * W;
  inner_pending_outbound : Conn -> option Peer -> list Addr -> Role -> W -> res Denied (list Addr) * W;
  inner_established_outbound : Conn -> Peer -> Addr -> Role -> W -> res Denied Handler * W
}.

Section Connections.
Context {Conn Peer Addr Role Handler Denied : Type}.
Context `{!InnerConnections W Conn Peer Addr Role Handler Denied}.

Definition wrapped_pending_inbound (conn : Conn) (local remote : Addr) (s : Wrapped) : res Denied unit * Wrapped :=
  let '(r, w) := inner_pending_inbound conn local remote (wrapper s) in (r, mkWrapped w (pending_events s)).

Definition wrapped_established_inbound (conn : Conn) (peer : Peer) (local remote : Addr) (s : Wrapped)
  : res Denied Handler * Wrapped :=
  let '(r, w) := inner_established_inbound conn peer local remote (wrapper s) in (r, mkWrapped w (pending_events s)).

Definition wrapped_pending_outbound (conn : Conn) (peer : option Peer) (addrs : list Addr) (role : Role) (s : Wrapped)
  : res Denied (list Addr) * Wrapped :=
  let '(r, w) := inner_pending_outbound conn peer addrs role (wrapper s) in (r, mkWrapped w (pending_events s)).

Definition wrapped_established_outbound (conn : Conn) (peer : Peer) (addr : Addr) (role : Role) (s : Wrapped)
  : res Denied Handler * Wrapped :=
  let '(r, w) := inner_established_outbound conn peer addr role (wrapper s) in (r, mkWrapped w (pending_events s)).

End Connections.

(** ** What a wrapper produces

    [produces w evs w']: a sequence of calls brought the wrapper from [w] to
    [w'] and returned [evs], in this order. *)
Inductive produces : W -> list (ToSwarm Ev Cmd) -> W -> Prop :=
| produces_nil w : produces w [] w
| produces_poll w evs w1 l w2 : w_poll w = (Some evs, w1) -> produces w1 l w2 -> produces w (evs ++ l) w2
| produces_pending w w1 l w2 : w_poll w = (None, w1) -> produces w1 l w2 -> produces w l w2
| produces_inner w ev w1 evs w2 l w3 :
    inner_poll w = (Some ev, w1) -> on_inner_command ev w1 = (evs, w2) -> produces w2 l w3 ->
    produces w (evs ++ l) w3
| produces_inner_pending w w1 l w2 : inner_poll w = (None, w1) -> produces w1 l w2 -> produces w l w2
| produces_swarm w e evs w1 l w2 :
    w_on_swarm_event e (inner_on_swarm_event e w) = (evs, w1) -> produces w1 l w2 -> produces w (evs ++ l) w2
| produces_handler w e l w2 : produces (inner_on_handler_event e w) l w2 -> produces w l w2.

Lemma produces_app w l w1 l' w2 : produces w l w1 -> produces w1 l' w2 -> produces w (l ++ l') w2.
Proof.
  induction 1; intros; rewrite <- ?app_assoc; [done|..].
  - eapply produces_poll; eauto.
  - eapply produces_pending; eauto.
  - eapply produces_inner; eauto.
  - eapply produces_inner_pending; eauto.
  - eapply produces_swarm; eauto.
  - eapply produces_handler; eauto.
Qed.

(** One poll: what was pending and what the wrapper produces come out in order. *)
Lemma wrapped_poll_produces fuel s r s' : wrapped_poll fuel s = Some (r, s') ->
  exists l, produces (wrapper s) l (wrapper s') /\
    pending_events s ++ l = option_list r ++ pending_events s' /\
    (r = None -> pending_events s' = []).
Proof.
  revert s; induction fuel as [|fuel IH]; intros s E; [done|]. cbn in E.
  destruct (pending_events s) as [|ev rest] eqn:Ep.
  - destruct (w_poll (wrapper s)) as [[evs|] w] eqn:E1.
    + apply IH in E as (l & P & Q & N). exists (evs ++ l). split_and!; [by eapply produces_poll|exact Q|exact N].
    + destruct (inner_poll w) as [[ev|] w1] eqn:E2.
      * destruct (on_inner_command ev w1) as [evs w2] eqn:E3.
        apply IH in E as (l & P & Q & N). exists (evs ++ l). split_and!; [|exact Q|exact N].
        eapply produces_pending; [done|]. by eapply produces_inner.
      * injection E as <- <-. exists []. split_and!; [|done|done]. cbn.
        eapply produces_pending; [done|]. eapply produces_inner_pending; [done|]. constructor.
  - injection E as <- <-. exists []. split_and!; [constructor|by rewrite app_nil_r|done].
Qed.

(** What every call of the loop keeps, a poll keeps; an event of the inner
    behaviour and its handling count as one call. *)
Lemma wrapped_poll_inv (I : W -> Prop) fuel s r s' :
  (forall w o w', w_poll w = (o, w') -> I w -> I w') ->
  (forall w w', inner_poll w = (None, w') -> I w -> I w') ->
  (forall w ev w1 evs w2, inner_poll w = (Some ev, w1) -> on_inner_command ev w1 = (evs, w2) -> I w -> I w2) ->
  wrapped_poll fuel s = Some (r, s') -> I (wrapper s) -> I (wrapper s').
Proof.
  intros Hw Hn Hi. revert s; induction fuel as [|fuel IH]; intros s E Hs; [done|]. cbn in E.
  destruct (pending_events s) as [|ev rest]; [|by injection E as <- <-].
  destruct (w_poll (wrapper s)) as [[evs|] w] eqn:E1; [by eapply IH; eauto|].
  destruct (inner_poll w) as [[ev|] w1] eqn:E2.
  - destruct (on_inner_command ev w1) as [evs w2] eqn:E3. eapply IH; [exact E|]; cbn. eauto.
  - injection E as <- <-. cbn. eauto.
Qed.

(** ** Runs: any interleaving of polls and events *)

Inductive WOp := OpPoll | OpSwarmEvent (e : SwarmEvent) | OpHandlerEvent (e : HandlerEvent).

Definition wrapped_op (fuel : nat) (op : WOp) (s : Wrapped) : option (list (ToSwarm Ev Cmd) * Wrapped) :=
  match op with
  | OpPoll => '(r, s') ← wrapped_poll fuel s; Some (option_list r, s')
  | OpSwarmEvent e => Some ([], wrapped_on_swarm_event e s)
  | OpHandlerEvent e => Some ([], wrapped_on_handler_event e s)
  end.

Fixpoint wrapped_run (fuel : nat) (ops : list WOp) (s : Wrapped) : option (list (ToSwarm Ev Cmd) * Wrapped) :=
  match ops with
  | [] => Some ([], s)
  | op :: ops =>
      '(out, s) ← wrapped_op fuel op s;
      '(out', s) ← wrapped_run fuel ops s;
      Some (out ++ out', s)
  end.

Lemma wrapped_op_produces fuel op s out s' : wrapped_op fuel op s = Some (out, s') ->
  exists l, produces (wrapper s) l (wrapper s') /\ pending_events s ++ l = out ++ pending_events s'.
Proof.
  destruct op as [|e|e]; cbn.
  - intros ([r s1] & Hp & [= <- <-])%bind_Some.
    apply wrapped_poll_produces in Hp as (l & P & Q & _). eauto.
  - unfold wrapped_on_swarm_event. destruct (w_on_swarm_event _ _) as [evs w] eqn:E. intros [= <- <-]; cbn.
    exists evs. split; [|done]. rewrite <- (app_nil_r evs). eapply produces_swarm; [done|constructor].
  - intros [= <- <-]. exists []. rewrite app_nil_r. split; [|done]. apply (produces_handler _ e). constructor.
Qed.

(** Whatever a run returns is what the wrapper produced. *)
Lemma wrapped_run_produces fuel ops s out s' : wrapped_run fuel ops s = Some (out, s') ->
  exists l, produces (wrapper s) l (wrapper s') /\ pending_events s ++ l = out ++ pending_events s'.
Proof.
  revert s out s'; induction ops as [|op ops IH]; intros s out s' E; cbn in E.
  - injection E as <- <-. exists []. rewrite app_nil_r. split; [constructor|done].
  - apply bind_Some in E as ([o1 s1] & E1 & ([o2 s2] & E2 & [= <- <-])%bind_Some).
    apply wrapped_op_produces in E1 as (l1 & P1 & Q1). apply IH in E2 as (l2 & P2 & Q2).
    exists (l1 ++ l2). split; [by eapply produces_app|]. by rewrite app_assoc, Q1, <- !app_assoc, Q2.
Qed.

(** ** Termination

    The loop spins as long as the wrapper or the inner behaviour is ready
    without anything for the swarm.  If every such round makes progress in some
    measure, a poll ends. *)
Definition quiet_progress (m : W -> nat) : Prop :=
  (forall w w', w_poll w = (Some [], w') -> (m w' < m w)%nat) /\
  (forall w w' , w_poll w = (None, w') -> (m w' <= m w)%nat) /\
  (forall w ev w1 w2, inner_poll w = (Some ev, w1) -> on_inner_command ev w1 = ([], w2) -> (m w2 < m w)%nat).

Lemma wrapped_poll_pending fuel s ev rest : pending_events s = ev :: rest ->
  wrapped_poll (S fuel) s = Some (Some ev, mkWrapped (wrapper s) rest).
Proof. intros E. cbn. by rewrite E. Qed.

Lemma wrapped_poll_terminates m fuel s : quiet_progress m -> (m (wrapper s) + 1 < fuel)%nat ->
  is_Some (wrapped_poll fuel s).
Proof.
  intros (A & B & C). revert s; induction fuel as [|fuel IH]; intros s Hf; [lia|].
  destruct (pending_events s) as [|ev rest] eqn:Ep; [|by rewrite (wrapped_poll_pending _ _ _ _ Ep)].
  assert (Hne : forall w evs, evs <> [] -> is_Some (wrapped_poll fuel (mkWrapped w evs))).
  { intros w [|ev rest] Hn; [done|]. destruct fuel as [|fuel']; [lia|]. by rewrite (wrapped_poll_pending _ _ ev rest). }
  cbn. rewrite Ep. cbn. destruct (w_poll (wrapper s)) as [[evs|] w] eqn:E1.
  - destruct evs as [|ev evs]; [|by apply Hne]. apply IH. cbn. apply A in E1. lia.
  - apply B in E1. destruct (inner_poll w) as [[ev|] w1] eqn:E2; [|done].
    destruct (on_inner_command ev w1) as [[|ev' evs] w2] eqn:E3; [|by apply Hne].
    apply IH. cbn. pose proof (C _ _ _ _ E2 E3). lia.
Qed.

(** [Pending] is answered with an empty queue. *)
Lemma wrapped_poll_none_pending fuel s s' : wrapped_poll fuel s = Some (None, s') -> pending_events s' = [].
Proof.
  revert s; induction fuel as [|fuel IH]; intros s E; [done|]. cbn in E.
  destruct (pending_events s) eqn:Ep; [|done].
  destruct (w_poll (wrapper s)) as [[evs|] w]; [by eapply IH|].
  destruct (inner_poll w) as [[ev|] w1]; [|by simplify_eq].
  destruct (on_inner_command ev w1) as [evs w2]. by eapply IH.
Qed.

(** More fuel changes nothing. *)
Lemma wrapped_poll_fuel fuel fuel' s r : wrapped_poll fuel s = Some r -> (fuel <= fuel')%nat ->
  wrapped_poll fuel' s = Some r.
Proof.
  revert fuel' s; induction fuel as [|fuel IH]; intros [|fuel'] s E Hf; try done; [lia|]. cbn in *.
  destruct (pending_events s); [|done].
  destruct (w_poll (wrapper s)) as [[evs|] w]; [apply IH; [done|lia]|].
  destruct (inner_poll w) as [[ev|] w1]; [|done].
  destruct (on_inner_command ev w1) as [evs w2]. apply IH; [done|lia].
Qed.

Lemma wrapped_run_fuel fuel fuel' ops s r : wrapped_run fuel ops s = Some r -> (fuel <= fuel')%nat ->
  wrapped_run fuel' ops s = Some r.
Proof.
  intros E Hf. revert s r E; induction ops as [|op ops IH]; intros s r E; [done|]. cbn in *.
  apply bind_Some in E as ([o1 s1] & E1 & E2). apply bind_Some in E2 as ([o2 s2] & E2 & E3).
  assert (E1' : wrapped_op fuel' op s = Some (o1, s1)).
  { destruct op; [|done..]. cbn in *. apply bind_Some in E1 as ([r' s'] & Hp & Hr).
    by rewrite (wrapped_poll_fuel _ _ _ _ Hp Hf). }
  rewrite E1'. cbn. rewrite (IH _ _ E2). done.
Qed.

Lemma wrapped_run_terminates m ops s : quiet_progress m -> exists fuel r, wrapped_run fuel ops s = Some r.
Proof.
  intros Hm. revert s; induction ops as [|op ops IH]; intros s; [by exists 0%nat; eexists|].
  assert (exists f1 o1 s1, wrapped_op f1 op s = Some (o1, s1)) as (f1 & o1 & s1 & E1).
  { destruct op as [|e|e]; [|by exists 0%nat; eexists _, _..].
    destruct (wrapped_poll_terminates m (S (S (m (wrapper s)))) s Hm) as [[r s1] Hp]; [lia|].
    eexists _, _, _. cbn -[wrapped_poll]. by rewrite Hp. }
  destruct (IH s1) as (f2 & [o2 s2] & E2). exists (f1 + f2)%nat, (o1 ++ o2, s2). cbn.
  assert (E1' : wrapped_run (f1 + f2) [op] s = Some (o1 ++ [], s1)).
  { apply (wrapped_run_fuel f1); [|lia]. cbn. by rewrite E1. }
  cbn in E1'. apply bind_Some in E1' as ([o s'] & -> & [= Ho ->]). rewrite !app_nil_r in Ho. subst o. cbn.
  by rewrite (wrapped_run_fuel _ (f1 + f2) _ _ _ E2) by lia.
Qed.

(** C28: A wrapped behaviour loses nothing, adds nothing and keeps the order.  If the
    wrapper cannot stay ready for ever without producing anything, every sequence
    of polls, swarm events and handler events runs to its end, and the commands
    the swarm has received followed by those still pending are exactly what the
    wrapper produced, in the order it produced them; a poll that answers
    [Pending] finds and leaves nothing pending. *)
Theorem wrapped_keeps_order m ops w : quiet_progress m ->
  exists fuel out s',
    (forall fuel', (fuel <= fuel')%nat -> wrapped_run fuel' ops (wrapped_from w) = Some (out, s')) /\
    produces w (out ++ pending_events s') (wrapper s') /\
    (forall fuel' s, wrapped_poll fuel' s' = Some (None, s) -> pending_events s = [] /\ pending_events s' = []).
Proof.
  intros Hm. destruct (wrapped_run_terminates m ops (wrapped_from w) Hm) as (fuel & [out s'] & E).
  exists fuel, out, s'. split_and!.
  - intros fuel' Hf. by eapply wrapped_run_fuel.
  - apply wrapped_run_produces in E as (l & P & Q). cbn in *. by rewrite <- Q.
  - intros fuel' s Hp. destruct (pending_events s') as [|ev rest] eqn:Ep.
    + apply wrapped_poll_produces in Hp as (l & _ & _ & N). auto.
    + destruct fuel' as [|fuel']; [done|]. cbn in Hp. by rewrite Ep in Hp.
Qed.

End Wrapped.

Arguments WOp SwarmEvent HandlerEvent : clear implicits.

(** ** request_server.rs

    [Message], [InboundFailure] and the other events of libp2p's
    request_response behaviour; [Chan] is the response channel. *)
Section RequestServer.
Context {PeerId Req Res Chan Cmd : Type}.

Inductive RREvent :=
| RR_Request (peer : PeerId) (request : Req) (channel : Chan)
| RR_Response (peer : PeerId) (response : Res)
| RR_InboundFailure (peer : PeerId)
| RR_Other.

Record RRequest := mkRRequest { rr_peer_id : PeerId; rr_request : Req; rr_response_channel : Chan }.

Definition rr_on_inner_event (ev : RREvent) : list (ToSwarm RRequest Cmd) :=
  match ev with
  | RR_Request peer request channel => [GenerateEvent (mkRRequest peer request channel)]
  | RR_InboundFailure _ => []
  | _ => []
  end.

(** [try_send_response]; the behaviour of libp2p gives the response back when the
    channel is closed. *)
Definition try_send_response {Inner : Type} (send_response : Chan -> Res -> Inner -> res Res unit * Inner)
    (resp_chan : Chan) (response : Res) (inner : Inner) : res Res unit * Inner :=
  send_response resp_chan response inner.

End RequestServer.
