(* ===== verification/BaseWrapped.v ===== *)
(** * The base behaviour behind its wrapper
    (crates/transport/src/behaviour/base.rs, [impl BehaviourWrapper for BaseBehaviour])

    [Wrapped<BaseBehaviour>] is what an actor puts into its swarm: events of the
    swarm go to the inner behaviours and then to [BaseBehaviour], events of the
    inner behaviours are dispatched by kind, and what comes of it is queued and
    handed out one command per poll.  Here the dispatch is an instance of
    [BehaviourWrapper], and a node is the wrapped behaviour together with what the
    swarm knows: the dials under way and the open outbound connections.

    The inner behaviours other than the whitelist and the address cache are
    libp2p's own: what they have ready at their next polls is a list [w_script],
    to which the environment appends.  A panic raises [w_panicked]. *)

From S2P Require Import Prelude RustStd Instances Whitelist AddrCache Base BaseTheory BaseProps Wrapped.
From Stdlib Require Import ZArith Lia.
From stdpp Require Import base sets gmap numbers relations list.

Open Scope Z_scope.

Section BaseWrapped.
  Context {PeerId QueryId : Type} `{Countable PeerId, Countable QueryId}.
  Context `{!AllowList PeerId} `{!LruCache PeerId (gset Multiaddr)} `{!Kademlia PeerId QueryId}
          `{!DelayQueue PeerId} `{!BiHashMap PeerId QueryId}.
  Context `{BuildProfile} (private_network : bool)
          (with_p2p : PeerId -> Multiaddr -> Multiaddr + Multiaddr).
  Context {Record_ ClientError PubsubMsg InnerCmd HandlerEvent : Type}.

Notation BaseB := (BaseBehaviour (PeerId := PeerId) (QueryId := QueryId) (Record_ := Record_)).
Notation BaseOut := (Base.ToSwarm (PeerId := PeerId) Record_).

(** ** Events *)

(** [FromSwarm], as far as the code tells events apart. *)
Inductive FromSwarm :=
| ConnectionEstablished (endpoint : ConnectedPoint) (peer_id : PeerId)
| ConnectionClosed (endpoint : ConnectedPoint) (peer_id : PeerId)
| SwarmDialFailure (peer_id : option PeerId) (error : DialError)
| NewExternalAddr (peer_id : PeerId) (addr : Multiaddr)
| OtherFromSwarm.

(** [identify::Event] *)
Inductive IdentifyEvent :=
| IdentifyReceived (peer_id : PeerId) (listen_addrs : list Multiaddr)
| OtherIdentifyEvent.

(** [autonat::Event] and the [NatStatus] a change reports. *)
Inductive NatStatus := Public (addr : Multiaddr) | Private | Unknown.
Inductive AutonatEvent := StatusChanged (new : NatStatus) | OtherAutonatEvent.

(** [InnerBehaviourEvent], which libp2p derives from the fields of
    [InnerBehaviour]; the last stands for its fields without events of interest. *)
Inductive InnerBehaviourEvent :=
| Identify (ev : IdentifyEvent)
| KademliaEv (ev : KadEvent (PeerId := PeerId) (QueryId := QueryId) (Record_ := Record_))
| Autonat (ev : AutonatEvent)
| Pubsub (msg : PubsubMsg)
| Ping
| WhitelistEv (nodes : NetworkNodes (PeerId := PeerId))
| OtherInnerEvent.

(** ** The dispatch *)

Definition base_on_swarm_event {E : Type} (now : Z) (ev : FromSwarm) (b : BaseB)
  : res E (option BaseOut) * BaseB :=
  match ev with
  | ConnectionEstablished endpoint p => Base.on_connection_established endpoint p b
  | ConnectionClosed endpoint p => Base.on_connection_closed now endpoint p b
  | SwarmDialFailure p e => let '(out, b) := base_on_dial_failure now p e b in (Ok out, b)
  | _ => (Ok None, b)
  end.

(** It only logs, whatever the status. *)
Definition on_autonat_event (ev : AutonatEvent) (b : BaseB) : option BaseOut * BaseB :=
  match ev with
  | StatusChanged (Public _) => (None, b)
  | StatusChanged Private => (None, b)
  | StatusChanged Unknown => (None, b)
  | OtherAutonatEvent => (None, b)
  end.

Definition on_pubsub_event (msg : PubsubMsg) (b : BaseB) : option BaseOut * BaseB := (None, b).

Definition base_on_inner_event (ev : InnerBehaviourEvent) (b : BaseB) : option BaseOut * BaseB :=
  match ev with
  | Identify (IdentifyReceived p addrs) => on_identify_event private_network with_p2p p addrs b
  | Identify OtherIdentifyEvent => (None, b)
  | KademliaEv ev => on_kademlia_event private_network with_p2p ev b
  | Autonat ev => on_autonat_event ev b
  | Pubsub msg => on_pubsub_event msg b
  | Ping => (None, b)
  | WhitelistEv nodes => (None, base_on_nodes_update nodes b)
  | OtherInnerEvent => (None, b)
  end.

(** What [BaseBehaviour] tells the swarm, as the wrapper's type has it: its own
    events, and commands, which are its dials and those of the inner behaviours. *)
Inductive BaseEvent := EvProviderRecord (record : Record_) | EvNetworkConnected (step : Z).
Inductive BaseCmd := CmdDial (peer_id : PeerId) (condition : PeerCondition) | CmdInner (cmd : InnerCmd).

Definition to_swarm (ev : BaseOut) : Wrapped.ToSwarm BaseEvent BaseCmd :=
  match ev with
  | Dial p c => Command (CmdDial p c)
  | ProviderRecord r => GenerateEvent (EvProviderRecord r)
  | NetworkConnected step => GenerateEvent (EvNetworkConnected step)
  end.

(** ** The inner behaviours

    One entry of the script is what the derived [poll] of [InnerBehaviour] finds
    ready next: an event, a read of the chain for the whitelist, a command for the
    swarm, or nothing, in which case time passes. *)
Inductive InnerAct :=
| ActIdentify (ev : IdentifyEvent)
| ActKademlia (ev : KadEvent (PeerId := PeerId) (QueryId := QueryId) (Record_ := Record_))
| ActAutonat (ev : AutonatEvent)
| ActPubsub (msg : PubsubMsg)
| ActPing
| ActOther
| ActChainRead (result : res ClientError (NetworkNodes (PeerId := PeerId)))
| ActCommand (cmd : InnerCmd)
| ActQuiet (now : Z).

Record World := mkWorld {
  w_base : BaseB;
  w_script : list InnerAct;
  w_now : Z;
  w_panicked : bool
}.

Definition set_w_base (b : BaseB) (w : World) : World :=
  mkWorld b (w_script w) (w_now w) (w_panicked w).

(** [InnerBehaviour::poll].  A chain read that changes nothing keeps
    [Wrapped<WhitelistBehavior>] in its loop, so the poll goes on. *)
Fixpoint inner_behaviour_poll (script : list InnerAct) (b : BaseB) (now : Z)
  : option (Wrapped.ToSwarm InnerBehaviourEvent BaseCmd) * BaseB * list InnerAct * Z :=
  match script with
  | [] => (None, b, [], now)
  | ActIdentify ev :: rest => (Some (GenerateEvent (Identify ev)), b, rest, now)
  | ActKademlia ev :: rest => (Some (GenerateEvent (KademliaEv ev)), b, rest, now)
  | ActAutonat ev :: rest => (Some (GenerateEvent (Autonat ev)), b, rest, now)
  | ActPubsub msg :: rest => (Some (GenerateEvent (Pubsub msg)), b, rest, now)
  | ActPing :: rest => (Some (GenerateEvent Ping), b, rest, now)
  | ActOther :: rest => (Some (GenerateEvent OtherInnerEvent), b, rest, now)
  | ActChainRead result :: rest =>
      match whitelist_poll (Some result) (whitelist b) with
      | (Some (Some nodes), w) => (Some (GenerateEvent (WhitelistEv nodes)), set_whitelist w b, rest, now)
      | (_, w) => inner_behaviour_poll rest (set_whitelist w b) now
      end
  | ActCommand cmd :: rest => (Some (Command (CmdInner cmd)), b, rest, now)
  | ActQuiet now :: rest => (None, b, rest, now)
  end.

(** Of the inner behaviours whose state is modelled the address cache reacts. *)
Definition cache_event (ev : FromSwarm) : CacheEvent (PeerId := PeerId) :=
  match ev with
  | NewExternalAddr p a => NewExternalAddrOfPeer p a
  | SwarmDialFailure p e => DialFailure p e
  | _ => OtherEvent
  end.

Definition inner_behaviour_swarm_event (ev : FromSwarm) (b : BaseB) : BaseB :=
  set_address_cache (cache_on_swarm_event private_network with_p2p (cache_event ev) (address_cache b)) b.

(** [impl BehaviourWrapper for BaseBehaviour]; a swarm event comes with the time
    at which it is delivered. *)
#[global] Instance base_wrapper
  : BehaviourWrapper World (Z * FromSwarm) HandlerEvent InnerBehaviourEvent BaseEvent BaseCmd := {|
  inner_on_swarm_event e w :=
    mkWorld (inner_behaviour_swarm_event e.2 (w_base w)) (w_script w) e.1 (w_panicked w);
  inner_on_handler_event _ w := w;
  inner_poll w :=
    let '(ev, b, script, now) := inner_behaviour_poll (w_script w) (w_base w) (w_now w) in
    (ev, mkWorld b script now (w_panicked w));
  w_on_swarm_event e w :=
    match base_on_swarm_event (E := Empty_set) e.1 e.2 (w_base w) with
    | (Ok out, b) => (to_swarm <$> option_list out, set_w_base b w)
    | (_, b) => ([], mkWorld b (w_script w) (w_now w) true)
    end;
  w_on_inner_event ev w :=
    let '(out, b) := base_on_inner_event ev (w_base w) in
    (to_swarm <$> option_list out, set_w_base b w);
  w_poll w :=
    let '(out, b) := base_poll (w_now w) (w_base w) in
    ((fun ev => [to_swarm ev]) <$> out, set_w_base b w)
|}.

Notation WrappedBase := (Wrapped.Wrapped (W := World) (Ev := BaseEvent) (Cmd := BaseCmd)).

(** ** Nodes *)

Record Node := mkNode {
  node_wrapped : WrappedBase;
  node_dialing : Dials PeerId;
  node_open : list PeerId
}.

Definition cmd_dials (evs : list (Wrapped.ToSwarm BaseEvent BaseCmd)) : gset PeerId :=
  list_to_set (omap (fun ev => match ev with Command (CmdDial p _) => Some p | _ => None end) evs).

Definition node_base (n : Node) : BaseB := w_base (wrapper (node_wrapped n)).

(** What the inner behaviours do between polls, in the calls of the swarm. *)
Definition map_world (f : World -> World) (s : WrappedBase) : WrappedBase :=
  mkWrapped (f (wrapper s)) (Wrapped.pending_events s).

(** Steps of a node: a poll, an event of the swarm, or something that happens to
    the inner behaviours: they get ready, the address cache answers for a new
    connection, Kademlia starts a query; a peer is allowed, server mode is set. *)
Inductive nstep : Node -> Node -> Prop :=
| nstep_poll fuel s d o out s' :
    wrapped_poll fuel s = Some (out, s') ->
    nstep (mkNode s d o) (mkNode s' (dialled (cmd_dials (option_list out)) d) o)
| nstep_established now p s d o :
    Z.of_nat (length o) + 1 < 2 ^ 32 ->
    nstep (mkNode s d o)
      (mkNode (wrapped_on_swarm_event (now, ConnectionEstablished Dialer p) s) (answered p d) (p :: o))
| nstep_closed now p s d o o' :
    o ≡ₚ p :: o' ->
    nstep (mkNode s d o) (mkNode (wrapped_on_swarm_event (now, ConnectionClosed Dialer p) s) d o')
| nstep_dial_failed now p e s d o :
    nstep (mkNode s d o)
      (mkNode (wrapped_on_swarm_event (now, SwarmDialFailure (Some p) e) s) (failed p e d) o)
| nstep_other now ev s d o :
    match ev with
    | ConnectionEstablished Listener _ | ConnectionClosed Listener _
    | SwarmDialFailure None _ | NewExternalAddr _ _ | OtherFromSwarm => True
    | _ => False
    end ->
    nstep (mkNode s d o) (mkNode (wrapped_on_swarm_event (now, ev) s) d o)
| nstep_handler ev s d o : nstep (mkNode s d o) (mkNode (wrapped_on_handler_event ev s) d o)
| nstep_ready acts s d o :
    nstep (mkNode s d o)
      (mkNode (map_world (fun w => mkWorld (w_base w) (w_script w ++ acts) (w_now w) (w_panicked w)) s) d o)
| nstep_cache c s d o :
    cache_step private_network with_p2p (address_cache (w_base (wrapper s))) c ->
    nstep (mkNode s d o) (mkNode (map_world (fun w => set_w_base (set_address_cache c (w_base w)) w) s) d o)
| nstep_kad k s d o :
    kad_used (kademlia (w_base (wrapper s))) ⊆ kad_used k ->
    nstep (mkNode s d o) (mkNode (map_world (fun w => set_w_base (set_kademlia k (w_base w)) w) s) d o)
| nstep_allow p s d o :
    nstep (mkNode s d o) (mkNode (map_world (fun w => set_w_base (base_allow_peer p (w_base w)) w) s) d o)
| nstep_server_mode s d o :
    nstep (mkNode s d o) (mkNode (map_world (fun w => set_w_base (set_server_mode (w_base w)) w) s) d o).

Definition init_node (maintain : bool) config boot_nodes k : Node :=
  let b := BaseBehaviour_new config boot_nodes k in
  mkNode (wrapped_from (mkWorld (if maintain then start_maintaining b else b) [] 0 false)) no_dials [].

Definition reachable_node (maintain : bool) (n : Node) : Prop :=
  exists config boot_nodes k, rtc nstep (init_node maintain config boot_nodes k) n.

(** ** Polls end *)

Lemma inner_behaviour_poll_shorter script b now ev b' script' now' :
  inner_behaviour_poll script b now = (Some ev, b', script', now') -> (length script' < length script)%nat.
Proof.
  revert b. induction script as [| a script IH]; intros b E; [done |]. cbn in E |- *.
  destruct a; try (by simplify_eq; lia); try (by apply IH in E; lia).
  repeat case_match; simplify_eq; try lia; apply IH in E; lia.
Qed.

Definition script_left (w : World) : nat := length (w_script w).

Lemma base_quiet_progress : quiet_progress script_left.
Proof.
  split_and!.
  - intros w w'. cbn. destruct (base_poll _ _) as [[out |] b]; cbn; intros [=].
  - intros w w'. cbn. destruct (base_poll _ _) as [[out |] b]; cbn; intros [= <-]. done.
  - intros w ev w1 w2. unfold inner_poll, script_left. cbn.
    destruct (inner_behaviour_poll _ _ _) as [[[ev' b] script] now] eqn:E. intros [= -> <-] E2.
    apply inner_behaviour_poll_shorter in E.
    assert (w_script w2 = script) as ->; [| done].
    destruct ev as [ev | cmd]; cbn in E2; [| done].
    destruct (base_on_inner_event _ _) as [out b2]; cbn in E2. by injection E2 as _ <-.
Qed.

(** Every poll of the wrapped behaviour returns, after at most as many rounds as
    the inner behaviours have things ready, and two. *)
Lemma base_poll_returns s :
  is_Some (wrapped_poll (length (w_script (wrapper s)) + 2) s : option (option _ * WrappedBase)).
Proof. apply (wrapped_poll_terminates script_left); [apply base_quiet_progress | unfold script_left; lia]. Qed.

End BaseWrapped.
