(* ===== verification/BaseNode.v ===== *)
(** * The node built on the wrapped base behaviour: its runs are runs of [BaseProps]

    The invariants of [BaseProps] are proved for a system in which a handler's
    command reaches the swarm at once.  Behind the wrapper commands wait to be
    polled; a simulation shows that this changes nothing, so that the guarantees
    hold of the node as it runs in the swarm. *)

From S2P Require Import Prelude RustStd Instances Whitelist AddrCache Base BaseTheory BaseProps Wrapped BaseWrapped.
From Stdlib Require Import ZArith Lia.
From stdpp Require Import base sets gmap numbers relations list.

Open Scope Z_scope.

Section BaseNode.
  Context {PeerId QueryId : Type} `{Countable PeerId, Countable QueryId}.
  Context `{!AllowList PeerId} `{!LruCache PeerId (gset Multiaddr)} `{!Kademlia PeerId QueryId}
          `{!DelayQueue PeerId} `{!BiHashMap PeerId QueryId}.
  Context `{BuildProfile} (private_network : bool)
          (with_p2p : PeerId -> Multiaddr -> Multiaddr + Multiaddr).
  Context {Record_ ClientError PubsubMsg InnerCmd HandlerEvent : Type}.
  Context `{!AllowListLaws PeerId} `{!KademliaLaws PeerId QueryId} `{!DelayQueueLaws PeerId}
          `{!BiHashMapLaws PeerId QueryId}.

Notation BaseB := (BaseBehaviour (PeerId := PeerId) (QueryId := QueryId) (Record_ := Record_)).
Notation BaseOut := (Base.ToSwarm (PeerId := PeerId) Record_).
Notation NodeT := (Node (PeerId := PeerId) (QueryId := QueryId) (Record_ := Record_)
  (ClientError := ClientError) (PubsubMsg := PubsubMsg) (InnerCmd := InnerCmd)).
Notation SysT := (Sys (PeerId := PeerId) (QueryId := QueryId) (Record_ := Record_)).
Notation WorldT := (World (PeerId := PeerId) (QueryId := QueryId) (Record_ := Record_)
  (ClientError := ClientError) (PubsubMsg := PubsubMsg) (InnerCmd := InnerCmd)).
Notation WrappedT := (Wrapped.Wrapped (W := WorldT) (Ev := BaseEvent (Record_ := Record_))
  (Cmd := BaseCmd (PeerId := PeerId) (InnerCmd := InnerCmd))).
Notation stepB := (bstep private_network with_p2p (PeerId := PeerId) (QueryId := QueryId) (Record_ := Record_)).
Notation stepN := (nstep private_network with_p2p (PeerId := PeerId) (QueryId := QueryId) (Record_ := Record_)
  (ClientError := ClientError) (PubsubMsg := PubsubMsg) (InnerCmd := InnerCmd) (HandlerEvent := HandlerEvent)).
Notation reachableN := (reachable_node private_network with_p2p (PeerId := PeerId) (QueryId := QueryId)
  (Record_ := Record_) (ClientError := ClientError) (PubsubMsg := PubsubMsg) (InnerCmd := InnerCmd)
  (HandlerEvent := HandlerEvent)).
Notation bwrap := (base_wrapper private_network with_p2p (PeerId := PeerId) (QueryId := QueryId)
  (Record_ := Record_) (ClientError := ClientError) (PubsubMsg := PubsubMsg) (InnerCmd := InnerCmd)
  (HandlerEvent := HandlerEvent)).

(** ** The simulation *)

Definition sim (n : NodeT) (s : SysT) : Prop :=
  base s = node_base n /\ open_conns s = node_open n /\
  w_panicked (wrapper (node_wrapped n)) = false /\
  handed_out (dialing s) ⊆ handed_out (node_dialing n) ∪ cmd_dials (Wrapped.pending_events (node_wrapped n)).

Lemma cmd_dials_app (l l' : list (Wrapped.ToSwarm (BaseEvent (Record_ := Record_)) (BaseCmd (PeerId := PeerId) (InnerCmd := InnerCmd)))) :
  cmd_dials (l ++ l') = cmd_dials l ∪ cmd_dials l'.
Proof. unfold cmd_dials. by rewrite omap_app, list_to_set_app_L. Qed.

Lemma cmd_dials_to_swarm (evs : list BaseOut) :
  cmd_dials (to_swarm (InnerCmd := InnerCmd) <$> evs) = dials evs.
Proof.
  unfold cmd_dials, dials. f_equal. induction evs as [| ev evs IH]; [done |].
  cbn. rewrite IH. by destruct ev.
Qed.

(** The inner behaviours' poll changes the whitelist at most. *)
Lemma inner_poll_sim script (b : BaseB) now ev b' script' now' d o :
  inner_behaviour_poll (ClientError := ClientError) (PubsubMsg := PubsubMsg) (InnerCmd := InnerCmd)
    script b now = (ev, b', script', now') ->
  rtc stepB (mkSys b d o) (mkSys b' d o).
Proof.
  revert b. induction script as [| a script IH]; intros b E; cbn in E; [by simplify_eq |].
  destruct a; try (by simplify_eq).
  destruct (Whitelist.on_nodes_update _ _) as [[nodes |] w] eqn:Eu; cbn in E.
  - simplify_eq. apply rtc_once. constructor.
  - eapply rtc_l; [apply (bstep_whitelist _ _ w) | by apply IH].
Qed.

Lemma try_emit_confidence_no_dial (b : BaseB) :
  dials (option_list (fst (try_emit_confidence b))) = ∅.
Proof. unfold try_emit_confidence. cbn zeta. repeat case_match; done. Qed.

Lemma inner_event_sim ev (b : BaseB) out b' d o :
  base_on_inner_event private_network with_p2p (PubsubMsg := PubsubMsg) ev b = (out, b') ->
  rtc stepB (mkSys b d o) (mkSys b' (dialled (dials (option_list out)) d) o).
Proof.
  intros E. assert (forall b2, stepB (mkSys b d o) (mkSys b2 d o) -> dials (option_list out) = ∅ ->
    b' = b2 -> rtc stepB (mkSys b d o) (mkSys b' (dialled (dials (option_list out)) d) o)) as Hq.
  { intros b2 Hs -> ->. rewrite dialled_nobody. by apply rtc_once. }
  assert (forall b2, rtc stepB (mkSys b2 d o) (mkSys b2 (dialled (dials (option_list (None : option BaseOut))) d) o)) as Hno.
  { intros b2. change (dials _) with (∅ : gset PeerId). by rewrite dialled_nobody. }
  destruct ev as [[p addrs |] | ev | ev | msg | | nodes |]; cbn in E.
  - eapply Hq; [apply (bstep_identified private_network with_p2p p addrs) | | by rewrite E].
    replace out with (fst (on_identify_event private_network with_p2p p addrs b)) by (by rewrite E).
    apply try_emit_confidence_no_dial.
  - simplify_eq. apply Hno.
  - apply rtc_once. by eapply bstep_kademlia.
  - destruct ev as [[] |]; cbn in E; simplify_eq; apply Hno.
  - unfold on_pubsub_event in E. simplify_eq. apply Hno.
  - simplify_eq. apply Hno.
  - simplify_eq. by eapply Hq; [apply bstep_nodes | |].
  - simplify_eq. apply Hno.
Qed.

Lemma wrapped_poll_sim fuel (s : WrappedT) out s' d o sys :
  wrapped_poll (BW := bwrap) fuel s = Some (out, s') -> sim (mkNode s d o) sys ->
  exists sys', rtc stepB sys sys' /\ sim (mkNode s' (dialled (cmd_dials (option_list out)) d) o) sys'.
Proof.
  revert s sys. induction fuel as [| fuel IH]; intros s [b sd so] E (Hb & Ho & Hp & Hd); [done |].
  cbn [base open_conns dialing node_open node_dialing node_wrapped] in *. subst so b. cbn -[w_poll inner_poll] in E.
  destruct s as [w pend]. cbn [wrapper Wrapped.pending_events] in *. destruct pend as [| ev rest].
  - assert (handed_out sd ⊆ handed_out d) as Hsd by (unfold cmd_dials in Hd; set_solver).
    cbn [app] in E. destruct (w_poll w) as [ready w1] eqn:Ew. cbn in Ew.
    destruct (base_poll (w_now w) (w_base w)) as [pout b1] eqn:Epoll. injection Ew as <- <-.
    pose proof (bstep_poll private_network with_p2p _ _ sd o _ _ Epoll) as Hstep.
    destruct pout as [ev |]; cbn [fmap option_fmap option_map] in E.
    + apply (IH _ (mkSys b1 (dialled (dials [ev]) sd) o)) in E as (sys' & Hr & Hs).
      * exists sys'. split; [eapply rtc_l; [exact Hstep | exact Hr] | exact Hs].
      * repeat split; try done. cbn [dialing node_dialing node_wrapped Wrapped.pending_events].
        change [to_swarm ev] with (to_swarm (InnerCmd := InnerCmd) <$> [ev]). rewrite cmd_dials_to_swarm, handed_out_dialled. set_solver.
    + set (w1 := set_w_base b1 w) in E.
      assert (rtc stepB (mkSys (w_base w) sd o) (mkSys b1 sd o)) as Hstep'.
      { apply rtc_once. change (dials _) with (∅ : gset PeerId) in Hstep. by rewrite dialled_nobody in Hstep. }
      destruct (inner_poll w1) as [iev w2] eqn:Ei. cbn in Ei.
      destruct (inner_behaviour_poll _ _ _) as [[[ev b2] script] now] eqn:Einner. injection Ei as <- <-.
      apply (inner_poll_sim _ _ _ _ _ _ _ sd o) in Einner.
      destruct ev as [[ev | cmd] |]; cbn in E.
      * destruct (base_on_inner_event _ _ ev b2) as [out2 b3] eqn:Eev.
        apply (inner_event_sim _ _ _ _ sd o) in Eev.
        apply (IH _ (mkSys b3 (dialled (dials (option_list out2)) sd) o)) in E as (sys' & Hr & Hs).
        -- exists sys'. split; [| exact Hs]. do 3 (etrans; [done |]). done.
        -- repeat split; try done. cbn [dialing node_dialing node_wrapped Wrapped.pending_events].
           rewrite cmd_dials_to_swarm, handed_out_dialled. set_solver.
      * apply (IH _ (mkSys b2 sd o)) in E as (sys' & Hr & Hs).
        -- exists sys'. split; [| exact Hs]. do 2 (etrans; [done |]). done.
        -- repeat split; try done. cbn -[handed_out]. set_solver.
      * simplify_eq. exists (mkSys b2 sd o). split; [by etrans |].
        repeat split; try done. cbn -[handed_out]. rewrite handed_out_dialled. set_solver.
  - simplify_eq. exists (mkSys (w_base w) sd o). split; [done |]. repeat split; try done.
    cbn [dialing node_dialing node_wrapped Wrapped.pending_events option_list].
    pose proof (cmd_dials_app [ev] rest) as Happ. cbn [app] in Happ. rewrite Happ in Hd. rewrite handed_out_dialled. set_solver.
Qed.

(** An event of the swarm that is handled without output. *)
Lemma swarm_event_sim now ev (s : WrappedT) b1 d' o' sys sd' :
  base_on_swarm_event (E := Empty_set) now ev
    (inner_behaviour_swarm_event private_network with_p2p ev (w_base (wrapper s))) = (Ok None, b1) ->
  w_panicked (wrapper s) = false ->
  rtc stepB sys (mkSys b1 sd' o') ->
  handed_out sd' ⊆ handed_out d' ∪ cmd_dials (Wrapped.pending_events s) ->
  exists sys', rtc stepB sys sys' /\
    sim (mkNode (wrapped_on_swarm_event (BW := bwrap) (now, ev) s) d' o') sys'.
Proof.
  intros E Hp Hr Hd. exists (mkSys b1 sd' o'). split; [done |].
  unfold sim, node_base, wrapped_on_swarm_event. cbn -[base_on_swarm_event inner_behaviour_swarm_event].
  rewrite E. cbn. by rewrite app_nil_r.
Qed.

Lemma nstep_sim n n' s : stepN n n' -> sim n s -> sys_inv s ->
  exists s', rtc stepB s s' /\ sim n' s'.
Proof.
  intros Hstep Hsim Hinv.
  assert (forall f d o w, n = mkNode w d o -> rtc stepB s (mkSys (w_base (f (wrapper w))) (dialing s) o) ->
    w_panicked (f (wrapper w)) = w_panicked (wrapper w) ->
    exists s', rtc stepB s s' /\ sim (mkNode (map_world f w) d o) s') as Hmap.
  { intros f d o w -> Hr Hp. destruct Hsim as (Hb & Ho & Hpan & Hd).
    eexists; split; [exact Hr |]. repeat split; [| done]. cbn. by rewrite Hp. }
  destruct s as [b sd so]. pose proof Hsim as (Hb & Ho & Hpan & Hd).
  destruct Hstep as [fuel s d o out s' Hpoll | now p s d o Hlen | now p s d o o' Hperm | now p e s d o
                    | now ev s d o Hev | ev s d o | acts s d o | c s d o Hc | k s d o Hk | p s d o | s d o];
    cbn [base open_conns dialing node_base node_open node_dialing node_wrapped] in *; unfold node_base in Hb;
    cbn [node_wrapped] in Hb; subst b so.
  - by eapply wrapped_poll_sim.
  - set (b0 := set_address_cache (address_cache (w_base (wrapper s))) (w_base (wrapper s))).
    pose proof (bstep_cache private_network with_p2p (address_cache (w_base (wrapper s)))
                  (w_base (wrapper s)) sd o) as Hcache. fold b0 in Hcache.
    pose proof (bstep_inv _ _ _ _ Hcache Hinv) as [_ _ Hconn _]. cbn in Hconn.
    eapply swarm_event_sim; [apply (established_run o b0 p); done | done | | ].
    + eapply rtc_l; [exact Hcache |]. apply rtc_once.
      pose proof (bstep_established private_network with_p2p p b0 sd o Hlen) as Hs.
      rewrite (established_run o b0 p Hconn Hlen) in Hs. exact Hs.
    + rewrite !handed_out_answered. clear -Hd. set_solver.
  - set (b0 := set_address_cache (address_cache (w_base (wrapper s))) (w_base (wrapper s))).
    pose proof (bstep_cache private_network with_p2p (address_cache (w_base (wrapper s)))
                  (w_base (wrapper s)) sd o) as Hcache. fold b0 in Hcache.
    pose proof (bstep_inv _ _ _ _ Hcache Hinv) as [_ _ Hconn _]. cbn in Hconn.
    assert (p ∈ o) as Hp by (rewrite Hperm; by left).
    eapply swarm_event_sim; [apply (closed_run now o b0 p); done | done | | exact Hd].
    eapply rtc_l; [exact Hcache |]. apply rtc_once.
    pose proof (bstep_closed private_network with_p2p now p b0 sd o o' Hperm) as Hs.
    rewrite (closed_run now o b0 p Hconn Hp) in Hs. exact Hs.
  - eapply (swarm_event_sim now _ s (snd (dial_failure_event private_network with_p2p now (Some p) e
                                             (w_base (wrapper s))))); [| done | |].
    + unfold dial_failure_event. by destruct e.
    + apply rtc_once. by apply bstep_dial_failed.
    + clear -Hd. destruct (decide (e = OtherDialError)) as [-> | He];
        [rewrite !handed_out_refused | rewrite !handed_out_failed by done]; set_solver.
  - eapply (swarm_event_sim now ev s _ d o _ sd); [| done | | exact Hd].
    + by destruct ev as [[] | [] | [] | |].
    + apply rtc_once. apply bstep_cache.
  - exists (mkSys (w_base (wrapper s)) sd o). done.
  - by apply Hmap.
  - apply Hmap; [done | | done]. apply rtc_once. apply bstep_cache.
  - apply Hmap; [done | | done]. apply rtc_once. by apply bstep_kad_moves.
  - apply Hmap; [done | | done]. apply rtc_once. apply bstep_allow.
  - apply Hmap; [done | | done]. apply rtc_once. apply bstep_server_mode.
Qed.

(** Every run of the node is a run of the system of [BaseProps]. *)
Lemma reachable_node_sim maintain n : reachableN maintain n ->
  exists s, reachable_sys private_network with_p2p maintain s /\ sim n s.
Proof.
  intros (config & boot & k & Hrun).
  assert (exists s, reachable_sys private_network with_p2p maintain s /\
            sim (init_node maintain config boot k) s) as Hi.
  { exists (init_sys maintain config boot k). split; [by exists config, boot, k |].
    unfold sim, init_node, init_sys, node_base. by destruct maintain. }
  revert Hi. induction Hrun as [| x y z Hxy _ IH]; [done |]. intros (s & Hr & Hs). apply IH.
  destruct (nstep_sim x y s Hxy Hs (reachable_sys_inv _ _ _ _ Hr)) as (s' & Hrun & Hs').
  exists s'. split; [| done]. destruct Hr as (c0 & b0 & k0 & Hr). exists c0, b0, k0. by etrans.
Qed.

(** ** Whom the node reaches for it also lets in *)

Definition trusted_ok (b : BaseB) : Prop :=
  registered_workers b ⊆ registered_nodes (whitelist b) /\
  registered_nodes (whitelist b) ⊆ allowed (allow (whitelist b)).

Definition same_trust (b b' : BaseB) : Prop :=
  whitelist b' = whitelist b /\ registered_workers b' = registered_workers b.

#[local] Instance same_trust_preorder : PreOrder same_trust.
Proof. split; [done |]. intros x y z [? ?] [? ?]. split; congruence. Qed.

Lemma trusted_ok_same b b' : same_trust b b' -> trusted_ok b -> trusted_ok b'.
Proof. unfold trusted_ok. by intros [-> ->]. Qed.

Lemma schedule_reconnect_trust now p (b : BaseB) : same_trust b (schedule_reconnect now p b).
Proof. unfold schedule_reconnect. by case_match. Qed.

Lemma enqueue_workers_trust l (b : BaseB) : same_trust b (foldl enqueue_worker b l).
Proof.
  revert b. induction l as [| p l IH]; intros b; [done |]. cbn. etrans; [| apply IH].
  unfold enqueue_worker. by case_match.
Qed.

Lemma drain_expired_trust fuel now (b : BaseB) : same_trust b (drain_expired fuel now b).
Proof.
  revert b. induction fuel as [| fuel IH]; intros b; [done |]. cbn. case_match; [| done].
  case_match. etrans; [| apply IH]. unfold on_expired. by case_match.
Qed.

Lemma find_and_dial_trust p (b : BaseB) : same_trust b (find_and_dial p b).
Proof. unfold find_and_dial. repeat case_match; done. Qed.

Lemma start_lookups_trust pending (b : BaseB) : same_trust b (start_lookups pending b).
Proof.
  revert b. induction pending as [| p rest IH]; intros b; [cbn; by case_match |].
  rewrite start_lookups_cons. case_match; [| done]. etrans; [| apply IH]. unfold start_one. cbn zeta.
  destruct (outbound_conn_exists p _); [done |]. etrans; [| apply find_and_dial_trust]. done.
Qed.

Lemma base_poll_trust now (b : BaseB) : same_trust b (snd (base_poll now b)).
Proof.
  unfold base_poll. cbn zeta. set (b1 := drain_expired _ now b).
  assert (same_trust b (start_lookups (pending_lookups b1) b1))
    by (etrans; [apply drain_expired_trust | apply start_lookups_trust]).
  by case_match.
Qed.

Lemma base_on_nodes_update_trust nodes (b : BaseB) :
  whitelist (base_on_nodes_update nodes b) = whitelist b /\
  registered_workers (base_on_nodes_update nodes b) = workers nodes.
Proof.
  unfold base_on_nodes_update. cbn zeta. set (b2 := if whitelist_initialized _ then _ else _).
  assert (whitelist b2 = whitelist b /\ registered_workers b2 = workers nodes) as Hb2
    by (subst b2; repeat case_match; done).
  destruct (maintain_worker_connections b2); [| done].
  by destruct (enqueue_workers_trust (elements (registered_workers b2)) b2) as [-> ->].
Qed.

Lemma on_nodes_update_trust result (w w' : WhitelistBehavior (PeerId := PeerId)) ev :
  Whitelist.on_nodes_update (ClientError := ClientError) result w = (ev, w') ->
  registered_nodes w ⊆ allowed (allow w) ->
  match ev with
  | None => w' = w
  | Some nodes => workers nodes ⊆ registered_nodes w' /\ registered_nodes w' ⊆ allowed (allow w')
  end.
Proof.
  destruct result as [nodes | |]; [| by intros [= <- <-] ..]. intros E Hw.
  pose proof (on_nodes_update_allowed (ClientError := ClientError) nodes w) as Ha. rewrite E in Ha.
  cbn [snd] in Ha. unfold Whitelist.on_nodes_update in E. case_bool_decide; simplify_eq; [done |].
  rewrite Ha. cbn [registered_nodes].
  unfold all in *. split; [set_solver |]. intros q Hq. destruct (decide (q ∈ registered_nodes w)); set_solver.
Qed.

Lemma inner_behaviour_poll_trust script (b : BaseB) now ev b' script' now' :
  inner_behaviour_poll (ClientError := ClientError) (PubsubMsg := PubsubMsg) (InnerCmd := InnerCmd)
    script b now = (ev, b', script', now') -> trusted_ok b ->
  match ev with
  | Some (GenerateEvent (WhitelistEv nodes)) =>
      workers nodes ⊆ registered_nodes (whitelist b') /\
      registered_nodes (whitelist b') ⊆ allowed (allow (whitelist b'))
  | _ => trusted_ok b'
  end.
Proof.
  revert b. induction script as [| a script IH]; intros b E Hb; cbn in E; [by simplify_eq |].
  destruct a; try (by simplify_eq).
  destruct (Whitelist.on_nodes_update _ _) as [nodes w] eqn:Eu.
  apply on_nodes_update_trust in Eu; [| apply Hb]. destruct nodes as [nodes |]; cbn in E.
  - by simplify_eq.
  - apply IH in E; [done |]. subst w. done.
Qed.

Lemma inner_event_trust ev (b : BaseB) :
  match ev with
  | WhitelistEv nodes => workers nodes ⊆ registered_nodes (whitelist b) /\
                         registered_nodes (whitelist b) ⊆ allowed (allow (whitelist b))
  | _ => trusted_ok b
  end -> trusted_ok (snd (base_on_inner_event private_network with_p2p (PubsubMsg := PubsubMsg) ev b)).
Proof.
  destruct ev as [[p addrs |] | ev | ev | msg | | nodes |]; cbn; try done.
  - apply trusted_ok_same. unfold on_identify_event, try_emit_confidence. cbn zeta.
    repeat case_match; done.
  - apply trusted_ok_same. destruct ev; cbn; try done. repeat case_match; done.
  - by destruct ev as [[] |].
  - destruct (base_on_nodes_update_trust nodes b) as [Hw Hr]. unfold trusted_ok. by rewrite Hw, Hr.
Qed.

Lemma wrapped_poll_trust fuel (s : WrappedT) out s' :
  wrapped_poll (BW := bwrap) fuel s = Some (out, s') ->
  trusted_ok (w_base (wrapper s)) -> trusted_ok (w_base (wrapper s')).
Proof.
  apply (wrapped_poll_inv (fun w => trusted_ok (w_base w))); cbn.
  - intros w o w'. pose proof (base_poll_trust (w_now w) (w_base w)) as Ht.
    destruct (base_poll _ _) as [out' b]. intros [= <- <-]. by apply trusted_ok_same.
  - intros w w'. destruct (inner_behaviour_poll _ _ _) as [[[ev b] script] now] eqn:E. intros [= -> <-] Hw.
    by apply inner_behaviour_poll_trust in E.
  - intros w ev w1 evs w2. destruct (inner_behaviour_poll _ _ _) as [[[ev' b] script] now] eqn:E.
    intros [= -> <-] E2 Hw. apply inner_behaviour_poll_trust in E; [| done].
    destruct ev as [ev | cmd]; cbn in E2; [| by simplify_eq].
    pose proof (inner_event_trust ev b) as Ht.
    destruct (base_on_inner_event _ _ ev b) as [out2 b3]. cbn in E2. injection E2 as <- <-. cbn.
    apply Ht. by destruct ev.
Qed.

Lemma swarm_event_same_trust now ev (s : WrappedT) :
  same_trust (w_base (wrapper s)) (w_base (wrapper (wrapped_on_swarm_event (BW := bwrap) (now, ev) s))).
Proof.
  unfold wrapped_on_swarm_event. cbn -[base_on_swarm_event].
  set (b0 := inner_behaviour_swarm_event _ _ ev _).
  assert (same_trust b0 (snd (base_on_swarm_event (E := Empty_set) now ev b0))) as Ht.
  { destruct ev as [[] p | [] p | [p |] e | |]; cbn; try done; repeat case_match; cbn; simplify_eq; try done;
      (etrans; [| apply schedule_reconnect_trust]; done). }
  destruct (base_on_swarm_event now ev b0) as [[out | [] |] b1]; (etrans; [| exact Ht]); done.
Qed.

Lemma swarm_event_trust now ev (s : WrappedT) :
  trusted_ok (w_base (wrapper s)) ->
  trusted_ok (w_base (wrapper (wrapped_on_swarm_event (BW := bwrap) (now, ev) s))).
Proof. apply trusted_ok_same, swarm_event_same_trust. Qed.

Lemma nstep_trust n n' : stepN n n' -> trusted_ok (node_base n) -> trusted_ok (node_base n').
Proof.
  destruct 1; unfold node_base; cbn -[wrapped_on_swarm_event]; try done.
  - by eapply wrapped_poll_trust.
  - apply swarm_event_trust.
  - apply swarm_event_trust.
  - apply swarm_event_trust.
  - apply swarm_event_trust.
  - intros [Hw Ha]. split; cbn; [done |]. rewrite allowed_add. set_solver.
Qed.

Lemma reachable_node_trusted maintain n : reachableN maintain n -> trusted_ok (node_base n).
Proof.
  intros (config & boot & k & Hrun).
  assert (trusted_ok (node_base (init_node maintain config boot k : NodeT))) as Hi.
  { assert (forall l (w : WhitelistBehavior (PeerId := PeerId)), registered_nodes w = ∅ ->
      registered_nodes (foldl (fun w n => allow_peer n.1 w) w (l : list (PeerId * Multiaddr))) = ∅) as Hl.
    { induction l as [| x l IH]; intros w Hw; [done |]. cbn. by apply IH. }
    assert (trusted_ok (BaseBehaviour_new config boot k)) as Ht.
    { split; cbn; [set_solver |]. rewrite Hl by done. set_solver. }
    by destruct maintain. }
  revert Hi. induction Hrun as [| x y z Hxy _ IH]; [done |]. intros Hx. by apply IH, (nstep_trust x y).
Qed.

(** A node keeps its workers also as it runs in the swarm, behind the wrapper that
    dispatches events and queues commands.  In every reachable state of a node
    that maintains worker connections no handler has panicked and the next poll
    returns; each registered worker is allowed to connect, and it has an outbound
    connection, waits for its cooldown or a lookup, is looked up or dialled, a
    command to dial it waits to be polled, or the swarm refused its last dial with a
    failure that is not retried. *)
Lemma node_tracks_workers n p :
  reachableN true n ->
  let s := node_wrapped n in
  let b := node_base n in
  w_panicked (wrapper s) = false /\
  is_Some (wrapped_poll (BW := bwrap) (length (w_script (wrapper s)) + 2) s) /\
  (p ∈ registered_workers b ->
   p ∈ allowed (allow (whitelist b)) /\
   (p ∈ node_open n \/ p ∈ reconnect_scheduled b \/ is_Some (bm_pairs (ongoing_lookups b) !! p) \/
    p ∈ under_way (node_dialing n) \/ p ∈ refused (node_dialing n) \/
    (exists c, Dial p c ∈ Base.pending_events b) \/
    (exists c, Command (CmdDial p c) ∈ Wrapped.pending_events s))).
Proof.
  intros Hr. cbn zeta. destruct (reachable_node_sim true n Hr) as (s & Hs & Hb & Ho & Hp & Hd).
  split_and!; [done | apply base_poll_returns |]. intros Hreg.
  destruct (reachable_node_trusted true n Hr) as [Ht1 Ht2]. split; [set_solver |].
  rewrite <- Hb, <- Ho in *. destruct (worker_tracked _ _ s p Hs Hreg) as [? | [? | [? | [Hdial | ?]]]]; try tauto.
  apply Hd, elem_of_union in Hdial as [Hdial | Hdial]; [unfold handed_out in Hdial; apply elem_of_union in Hdial; tauto |].
  do 6 right. unfold cmd_dials in Hdial. apply elem_of_list_to_set, list_elem_of_omap in Hdial as (ev & Hev & E).
  destruct ev as [| [p' c |]]; simplify_eq. by exists c.
Qed.

End BaseNode.
