(* ===== verification/BaseRest.v ===== *)
(** * A node left alone comes to rest

    The swarm polls a behaviour until it answers [Pending].  Every poll returns
    ([BaseWrapped.base_poll_returns]); here, so does the swarm's loop around it:
    when nothing new becomes ready in the inner behaviours, the wrapped base
    behaviour has only finitely many events and commands to hand out.

    The measure is lexicographic.  Whatever the inner behaviours have ready may
    put any number of peers into the queues, but uses up an entry of the script;
    without it an event is handed out of the queues, from which a peer only moves
    on: from the delay queue to the waiting lookups, from there to the events. *)

From S2P Require Import Prelude RustStd Instances Whitelist AddrCache Base BaseTheory BaseProps Wrapped BaseWrapped.
From Stdlib Require Import ZArith Lia.
From stdpp Require Import base sets gmap numbers relations list.

Open Scope Z_scope.

Section BaseRest.
  Context {PeerId QueryId : Type} `{Countable PeerId, Countable QueryId}.
  Context `{!AllowList PeerId} `{!LruCache PeerId (gset Multiaddr)} `{!Kademlia PeerId QueryId}
          `{!DelayQueue PeerId} `{!BiHashMap PeerId QueryId}.
  Context `{BuildProfile} (private_network : bool)
          (with_p2p : PeerId -> Multiaddr -> Multiaddr + Multiaddr).
  Context {Record_ ClientError PubsubMsg InnerCmd HandlerEvent : Type}.
  Context `{!DelayQueueLaws PeerId}.

Notation BaseB := (BaseBehaviour (PeerId := PeerId) (QueryId := QueryId) (Record_ := Record_)).
Notation WorldT := (World (PeerId := PeerId) (QueryId := QueryId) (Record_ := Record_)
  (ClientError := ClientError) (PubsubMsg := PubsubMsg) (InnerCmd := InnerCmd)).
Notation EvT := (Wrapped.ToSwarm (BaseEvent (Record_ := Record_)) (BaseCmd (PeerId := PeerId) (InnerCmd := InnerCmd))).
Notation WrappedT := (Wrapped.Wrapped (W := WorldT) (Ev := BaseEvent (Record_ := Record_))
  (Cmd := BaseCmd (PeerId := PeerId) (InnerCmd := InnerCmd))).
Notation bwrap := (base_wrapper private_network with_p2p (PeerId := PeerId) (QueryId := QueryId)
  (Record_ := Record_) (ClientError := ClientError) (PubsubMsg := PubsubMsg) (InnerCmd := InnerCmd)
  (HandlerEvent := HandlerEvent)).

(** ** The swarm's loop *)

(** A poll that hands something out. *)
Definition hands_out (s s' : WrappedT) : Prop :=
  exists fuel ev, wrapped_poll (BW := bwrap) fuel s = Some (Some ev, s').

(** Polls until the answer is [Pending], at most [n] of them; a poll gets the
    fuel [base_poll_returns] asks for. *)
Fixpoint drive (n : nat) (s : WrappedT) : option (list EvT * WrappedT) :=
  match n with
  | O => None
  | S n =>
      '(out, s) ← wrapped_poll (BW := bwrap) (length (w_script (wrapper s)) + 2) s;
      match out with
      | Some ev => '(evs, s) ← drive n s; Some (ev :: evs, s)
      | None => Some ([], s)
      end
  end.

(** ** The queues of the base behaviour *)

Definition backlog (b : BaseB) : nat :=
  (length (Base.pending_events b) + length (pending_lookups b) + length (dq_items (reconnect_queue b)))%nat.

Lemma drain_expired_backlog fuel now (b : BaseB) : (backlog (drain_expired fuel now b) <= backlog b)%nat.
Proof.
  revert b. induction fuel as [| fuel IH]; intros b; cbn; [done |].
  destruct (dq_poll now (reconnect_queue b)) as [[p q] |] eqn:Hp; [| done].
  etrans; [apply IH |]. apply dq_poll_Some in Hp as (d & _ & Hitems%Permutation_length).
  unfold backlog, on_expired. cbn in Hitems. case_match; cbn; rewrite ?length_app; cbn; lia.
Qed.

Lemma start_one_events p (b : BaseB) :
  (length (Base.pending_events (start_one p b)) <= length (Base.pending_events b) + 1)%nat.
Proof.
  unfold start_one, find_and_dial. cbn zeta.
  repeat case_match; cbn; rewrite ?length_app; cbn; lia.
Qed.

Lemma start_lookups_backlog pending (b : BaseB) :
  (length (Base.pending_events (start_lookups pending b)) + length (pending_lookups (start_lookups pending b))
   <= length (Base.pending_events b) + length pending)%nat.
Proof.
  revert b. induction pending as [| p rest IH]; intros b; [cbn; case_match; cbn; lia |].
  rewrite start_lookups_cons. case_match; [| cbn; lia].
  pose proof (IH (start_one p b)). pose proof (start_one_events p b). cbn. lia.
Qed.

(** A peer only moves on in the queues, and an event that is handed out is gone. *)
Lemma base_poll_backlog now (b : BaseB) out b' : base_poll now b = (out, b') ->
  (backlog b' + (if out then 1 else 0) <= backlog b)%nat.
Proof.
  unfold base_poll. intros E. etrans; [| apply (drain_expired_backlog (S (length (dq_items (reconnect_queue b)))) now)].
  set (b1 := drain_expired _ now b) in *. pose proof (start_lookups_backlog (pending_lookups b1) b1) as Hs.
  pose proof (start_lookups_queue (pending_lookups b1) b1) as Hq. unfold backlog.
  set (b2 := start_lookups (pending_lookups b1) b1) in *. rewrite <- Hq.
  destruct (Base.pending_events b2) as [| ev rest] eqn:Ee; injection E as <- <-; cbn in *; rewrite ?Ee; cbn; lia.
Qed.

(** A poll that came back empty-handed has done all there was to do: at the same
    time another one changes nothing. *)
Lemma base_poll_again now (b b' : BaseB) : base_poll now b = (None, b') ->
  Base.pending_events b' = [] /\ base_poll now b' = (None, b').
Proof.
  intros E. assert (Hall := poll_does_all_it_can now b). rewrite E in Hall. destruct Hall as (Hq & Hl & _).
  assert (max_concurrent_lookups b' = max_concurrent_lookups b /\ Base.pending_events b' = []) as [Hm He].
  { unfold base_poll in E. set (b1 := drain_expired _ now b) in E.
    destruct (drain_expired_frame (S (length (dq_items (reconnect_queue b)))) now b) as (_ & _ & _ & Hd).
    destruct (start_lookups_frame (pending_lookups b1) b1) as (_ & _ & _ & Hs).
    destruct (Base.pending_events (start_lookups _ b1)) eqn:Ee; [injection E as <- | done]. split; [by etrans | done]. }
  split; [done |]. unfold base_poll. cbn [drain_expired].
  destruct (dq_poll now (reconnect_queue b')) as [[p q] |] eqn:Hp.
  { apply dq_poll_Some in Hp as (d & Hd & Hi). rewrite Hi, Forall_cons in Hq. cbn in Hq. lia. }
  assert (start_lookups (pending_lookups b') b' = b') as ->; [| by rewrite He].
  rewrite <- Hm in Hl. clear -Hl. destruct b' as [k wl c pe ol oc rw wi ip ls mw pl ml rc rq rs]; cbn in *. destruct pl as [| p pl]; [cbn; by case_match |].
  destruct Hl as [? | Hl%Nat.ltb_ge]; [done |]. rewrite start_lookups_cons. cbn [Base.ongoing_lookups Base.max_concurrent_lookups].
  by rewrite Hl.
Qed.

(** ** Polls of the wrapped behaviour *)

Definition script_of (s : WrappedT) : nat := length (w_script (wrapper s)).

Definition queued (s : WrappedT) : nat :=
  (length (Wrapped.pending_events s) + backlog (w_base (wrapper s)))%nat.

Lemma inner_round_shorter (w : WorldT) ev w1 evs w2 :
  inner_poll (BehaviourWrapper := bwrap) w = (Some ev, w1) -> on_inner_command (BW := bwrap) ev w1 = (evs, w2) ->
  (length (w_script w2) < length (w_script w))%nat.
Proof.
  unfold inner_poll. cbn. destruct (inner_behaviour_poll _ _ _) as [[[ev' b] script] now] eqn:E.
  intros [= -> <-] E2. apply inner_behaviour_poll_shorter in E.
  assert (w_script w2 = script) as ->; [| done].
  destruct ev as [ev | cmd]; cbn in E2; [| by simplify_eq].
  destruct (base_on_inner_event _ _) as [out b2]; cbn in E2. by injection E2 as _ <-.
Qed.

Lemma base_round (w : WorldT) out w' : w_poll (BehaviourWrapper := bwrap) w = (out, w') ->
  w_script w' = w_script w /\ w_now w' = w_now w /\
  (backlog (w_base w') + length (default [] out) <= backlog (w_base w))%nat /\
  (out = None -> base_poll (w_now w) (w_base w) = (None, w_base w')).
Proof.
  cbn. destruct (base_poll (w_now w) (w_base w)) as [o b] eqn:E. apply base_poll_backlog in E as Hb.
  intros [= <- <-]. destruct o; cbn in *; (split_and!; try done; lia).
Qed.

(** What a poll hands out is taken from the script or from the queues. *)
Lemma hands_out_less s s' : hands_out s s' ->
  (script_of s' < script_of s)%nat \/ (script_of s' = script_of s /\ (queued s' < queued s)%nat).
Proof.
  intros (fuel & ev & E). revert s E. induction fuel as [| fuel IH]; intros s E; [done |]. cbn [wrapped_poll] in E.
  destruct (Wrapped.pending_events s) as [| ev0 rest] eqn:Ep.
  2: { simplify_eq. right. unfold queued, script_of. rewrite Ep. cbn. lia. }
  destruct (w_poll (wrapper s)) as [[evs |] w] eqn:E1.
  - apply base_round in E1 as (Hs & _ & Hb & _). apply IH in E. unfold queued, script_of in *.
    rewrite Ep in *. cbn [Wrapped.pending_events wrapper app length default] in *. rewrite Hs in E. cbn in Hb. lia.
  - apply base_round in E1 as (Hs & _).
    destruct (inner_poll w) as [[ev1 |] w1] eqn:E2; [| done].
    destruct (on_inner_command ev1 w1) as [evs w2] eqn:E3. apply IH in E.
    pose proof (inner_round_shorter _ _ _ _ _ E2 E3). unfold script_of in *. cbn in E. rewrite Hs in *. lia.
Qed.

Lemma hands_out_sn s : sn hands_out s.
Proof.
  remember (script_of s) as n eqn:Hn. remember (queued s) as m eqn:Hm. revert m s Hn Hm.
  induction n as [n IHn] using lt_wf_ind. intros m. induction m as [m IHm] using lt_wf_ind. intros s -> ->.
  constructor. intros s' [Hlt | [Heq Hlt]]%hands_out_less; [by eapply IHn | by eapply IHm].
Qed.

(** With nothing ready inside, a poll is a round of the base behaviour. *)
Lemma wrapped_poll_idle fuel s out s' : w_script (wrapper s) = [] ->
  wrapped_poll (BW := bwrap) fuel s = Some (out, s') ->
  w_script (wrapper s') = [] /\
  (out = None -> Base.pending_events (w_base (wrapper s')) = [] /\ wrapped_poll (BW := bwrap) 1 s' = Some (None, s')).
Proof.
  revert s. induction fuel as [| fuel IH]; intros s Hs E; [done |]. cbn [wrapped_poll] in E.
  destruct (Wrapped.pending_events s) as [| ev0 rest] eqn:Ep; [| by simplify_eq].
  destruct (w_poll (wrapper s)) as [[evs |] w] eqn:E1.
  - apply base_round in E1 as (Hs1 & _). apply IH in E; [done |]. cbn. congruence.
  - apply base_round in E1 as (Hs1 & Hn & _ & Hb). specialize (Hb eq_refl).
    destruct w as [b sc now pan]. cbn in Hs1, Hn, Hb. subst now. rewrite Hs in Hs1. subst sc.
    cbn in E. simplify_eq. split; [done |]. intros _.
    apply base_poll_again in Hb as [He Ha]. split; [done |]. cbn. by rewrite Ha.
Qed.

Lemma drive_ends s : exists n evs s', drive n s = Some (evs, s') /\ Wrapped.pending_events s' = [] /\
  (w_script (wrapper s) = [] -> Base.pending_events (w_base (wrapper s')) = [] /\ drive 1 s' = Some ([], s')).
Proof.
  induction (hands_out_sn s) as [s _ IH].
  destruct (base_poll_returns private_network with_p2p (HandlerEvent := HandlerEvent) s) as [[out s1] E].
  destruct out as [ev |].
  - destruct (IH s1) as (n & evs & s' & Hd & Hp & Hi); [by exists (length (w_script (wrapper s)) + 2)%nat, ev |].
    exists (S n), (ev :: evs), s'. cbn [drive]. rewrite E. cbn. rewrite Hd. split_and!; [done | done |].
    intros Hs. apply Hi. by destruct (wrapped_poll_idle _ _ _ _ Hs E).
  - exists 1%nat, [], s1. cbn [drive]. rewrite E. split_and!; [done | by eapply wrapped_poll_none_pending |].
    intros Hs. destruct (wrapped_poll_idle _ _ _ _ Hs E) as [Hs1 Hr]. destruct (Hr eq_refl) as [Hb Ha].
    split; [done |]. by rewrite (wrapped_poll_fuel 1 _ s1 _ Ha) by lia.
Qed.

(** C19: A node left alone comes to rest.  Every poll of the wrapped base
    behaviour returns, after at most two rounds more than the inner behaviours
    have things ready.  No run of polls hands out events and commands for ever,
    whatever is queued and whatever the inner behaviours have ready: the swarm's
    loop, which polls until the answer is [Pending], ends, with nothing left that
    waits to be handed out.  If the inner behaviours had nothing ready, the node
    has then done all it can: its own queue of events is empty too, and polls at
    the same time answer [Pending] and change nothing. *)
Theorem wrapped_node_comes_to_rest s :
  is_Some (wrapped_poll (BW := bwrap) (length (w_script (wrapper s)) + 2) s) /\
  sn hands_out s /\
  exists n evs s', drive n s = Some (evs, s') /\ Wrapped.pending_events s' = [] /\
    (w_script (wrapper s) = [] -> Base.pending_events (w_base (wrapper s')) = [] /\ drive 1 s' = Some ([], s')).
Proof.
  split_and!; [apply base_poll_returns | apply hands_out_sn | apply drive_ends].
Qed.

End BaseRest.
