(* ===== verification/StreamIO.v ===== *)
(** * Requests over raw streams (crates/transport/src/behaviour/stream_client.rs,
      stream_server.rs, codec.rs, util/queue.rs)

    A request and its response are the bytes of the two directions of a stream,
    each ended by closing it; both sides bound how much they read.  The network is
    an argument: what the peer sent and how its direction ended ([Incoming]), and
    for each I/O operation its outcome, [None] standing for one that has not
    finished when the timeout around it elapses. *)

From S2P Require Import Prelude RustStd StreamShared.
From Stdlib Require Import ZArith Lia.
From stdpp Require Import base sets gmap numbers list.

Open Scope Z_scope.

Notation bytes := (list Z).
Notation len b := (Z.of_nat (length b)).

(** ** Reading *)

(** How a direction of a stream ends, after its bytes. *)
Inductive Ending := Eof | Broken (e : IoError) | Stalled.

Record Incoming := mkIncoming { in_data : bytes; in_end : Ending }.

(** [stream.take(limit).read_to_end(&mut buf)]: it stops at [limit] bytes without
    waiting for more. *)
Definition take_read_to_end (limit : Z) (s : Incoming) : option (res IoError bytes) :=
  if limit <=? len (in_data s) then Some (Ok (firstn (Z.to_nat limit) (in_data s)))
  else match in_end s with
       | Eof => Some (Ok (in_data s))
       | Broken e => Some (Err e)
       | Stalled => None
       end.

(** ** util/queue.rs

    The bounded channels of tokio; [From<TrySendError> for QueueFull] of lib.rs
    maps both of its errors. *)
Inductive QueueFull := mkQueueFull.

Section Queue.
Context {Chan T : Type} `{Countable Chan} `{!Mpsc Chan T}.

Definition queue_try_send (c : Chan) (msg : T) (h : Chans Chan T) : res QueueFull unit * Chans Chan T :=
  let '(r, h) := mpsc_try_send c msg h in
  match r with
  | SendOk => (Ok tt, h)
  | SendFull | SendDisconnected => (Err mkQueueFull, h)
  end.

Definition send_lossy (c : Chan) (msg : T) (h : Chans Chan T) : Chans Chan T :=
  snd (queue_try_send c msg h).

Definition queue_recv (c : Chan) (h : Chans Chan T) : option T * Chans Chan T := mpsc_try_next c h.

(** tokio's [mpsc::channel] panics on a capacity of zero. *)
Definition new_queue {E : Type} (size : Z) (h : Chans Chan T) : res E (Chan * Chans Chan T) :=
  if 0 <? size then Ok (mpsc_channel size h) else Panic.

End Queue.

(** ** stream_server.rs *)

Record ServerConfig := mkServerConfig {
  sv_max_request_size : Z;
  sv_max_response_size : Z;
  read_timeout : Z;
  write_timeout : Z;
  incoming_capacity : Z;
  requests_queue_size : Z
}.

(** [ServerConfig::default]; durations in seconds. *)
Definition default_server_config : ServerConfig := mkServerConfig 1024 1024 10 60 128 128.

Inductive ResponseError := RespTimeout | RespTooLarge | RespIo (e : IoError).

(** The handle of a response: the limits it carries and the stream it owns. *)
Record ResponseSender (Stream : Type) := mkResponseSender {
  rs_stream : Stream;
  rs_max_response_size : Z;
  rs_write_timeout : Z
}.
Arguments mkResponseSender {Stream}.
Arguments rs_stream {Stream}.
Arguments rs_max_response_size {Stream}.
Arguments rs_write_timeout {Stream}.

(** [ResponseSender::send]: the result, and the bytes that were handed to the
    stream before it was closed, if it got that far.  [written] and [closed] are
    the outcomes of [write_all] and [close]. *)
Definition response_send {Stream} (rs : ResponseSender Stream) (data : bytes)
    (written closed : option (res IoError unit)) : res ResponseError unit * option bytes :=
  if rs_max_response_size rs <? len data then (Err RespTooLarge, None)
  else match written with
       | Some (Ok _) =>
           match closed with
           | Some (Ok _) => (Ok tt, Some data)
           | Some (Err e) => (Err (RespIo e), None)
           | _ => (Err RespTimeout, None)
           end
       | Some (Err e) => (Err (RespIo e), None)
       | _ => (Err RespTimeout, None)
       end.

Record Request (PeerId Stream : Type) := mkRequest {
  rq_peer_id : PeerId;
  rq_request : bytes;
  rq_response_sender : ResponseSender Stream
}.
Arguments mkRequest {PeerId Stream}.
Arguments rq_peer_id {PeerId Stream}.
Arguments rq_request {PeerId Stream}.
Arguments rq_response_sender {PeerId Stream}.

Section Server.
Context {PeerId Stream Chan : Type} `{Countable Chan}.
Context `{BuildProfile}.
Context `{!Mpsc Chan (Request PeerId Stream)} `{!Mpsc Chan (PeerId * Stream)}.

(** What [read_request] reads: [Ok None] when it returns early. *)
Definition read_bytes {E} (config : ServerConfig) (input : Incoming) : res E (option bytes) :=
  limit ← add_u64 (sv_max_request_size config) 1;
  match take_read_to_end limit input with
  | Some (Ok buf) => if sv_max_request_size config <? len buf then Ok None else Ok (Some buf)
  | _ => Ok None
  end.

(** [read_request], with the requests channel [tx] in the store [h]. *)
Definition read_request {E} (peer : PeerId) (stream : Stream) (input : Incoming) (config : ServerConfig)
    (tx : Chan) (h : Chans Chan (Request PeerId Stream)) : res E unit * Chans Chan (Request PeerId Stream) :=
  match read_bytes config input with
  | Ok (Some buf) =>
      let request := mkRequest peer buf
        (mkResponseSender stream (sv_max_response_size config) (write_timeout config)) in
      (Ok tt, snd (mpsc_try_send tx request h))
  | Ok None => (Ok tt, h)
  | Err e => (Err e, h)
  | Panic => (Panic, h)
  end.

(** [ServerBehaviour]: its ends of the two channels, and the streams handed to
    reading tasks, in order. *)
Record ServerBehaviour := mkServer {
  sv_incoming : Chan;
  sv_config : ServerConfig;
  sv_requests : Chan;
  sv_reading : list (PeerId * Stream)
}.

Definition spawn_read_task (peer : PeerId) (stream : Stream) (s : ServerBehaviour) : ServerBehaviour :=
  mkServer (sv_incoming s) (sv_config s) (sv_requests s) (sv_reading s ++ [(peer, stream)]).

(** The loop over the incoming streams; the fuel bounds its rounds. *)
Fixpoint server_accept (fuel : nat) (s : ServerBehaviour) (inc : Chans Chan (PeerId * Stream))
  : ServerBehaviour * Chans Chan (PeerId * Stream) :=
  match fuel with
  | O => (s, inc)
  | S fuel =>
      match mpsc_try_next (sv_incoming s) inc with
      | (Some (peer, stream), inc) => server_accept fuel (spawn_read_task peer stream s) inc
      | (None, inc) => (s, inc)
      end
  end.

(** [ServerBehaviour::poll]; [Some request] is the event it generates. *)
Definition server_poll (s : ServerBehaviour) (inc : Chans Chan (PeerId * Stream))
    (h : Chans Chan (Request PeerId Stream))
  : option (Request PeerId Stream) * ServerBehaviour * Chans Chan (PeerId * Stream) * Chans Chan (Request PeerId Stream) :=
  let '(s, inc) := server_accept (S (length (mpsc_queue (sv_incoming s) inc))) s inc in
  let '(r, h) := mpsc_try_next (sv_requests s) h in
  (r, s, inc, h).

End Server.

Arguments ServerBehaviour PeerId Stream Chan : clear implicits.

(** ** stream_client.rs *)

Record ClientConfig := mkClientConfig {
  max_concurrent_streams : option Z;
  cl_max_response_size : Z;
  connect_timeout : Z;
  request_timeout : Z
}.

Definition default_client_config : ClientConfig := mkClientConfig (Some 3) 1024 10 60.

Inductive Timeout := TimeoutConnect | TimeoutRequest.

Inductive RequestError :=
| ReqTimeout (t : Timeout)
| ReqUnsupportedProtocol
| ReqResponseTooLarge
| ReqIo (e : IoError).

(** [From<OpenStreamError> for RequestError] *)
Definition from_open_error {Proto} (e : OpenStreamError Proto) : RequestError :=
  match e with
  | UnsupportedProtocol _ => ReqUnsupportedProtocol
  | Io e => ReqIo e
  end.

(** [get_raw_stream], the timeout and the error conversion; [opened] is the
    outcome of acquiring the permit and of [open_stream]. *)
Definition raw_stream_result {Proto Stream} (opened : option (res (OpenStreamError Proto) Stream))
  : res RequestError Stream :=
  match opened with
  | Some (Ok s) => Ok s
  | Some (Err e) => Err (from_open_error e)
  | Some Panic => Panic
  | None => Err (ReqTimeout TimeoutConnect)
  end.

(** The outcomes of the I/O of one call of [request_response]: [None] for what
    does not finish before the request timeout. *)
Record CallIo (Stream : Type) := mkCallIo {
  io_opened : option (res RequestError Stream);
  io_written : option (res IoError unit);
  io_closed : option (res IoError unit);
  io_response : Incoming
}.
Arguments mkCallIo {Stream}.
Arguments io_opened {Stream}.
Arguments io_written {Stream}.
Arguments io_closed {Stream}.
Arguments io_response {Stream}.

(** The future inside [request_response]; [None] while it is not finished. *)
Definition request_response_fut `{BuildProfile} {Stream} (config : ClientConfig) (io : CallIo Stream)
  : option (res RequestError bytes) :=
  match io_opened io with
  | Some (Ok _) =>
      match io_written io with
      | Some (Ok _) =>
          match io_closed io with
          | Some (Ok _) =>
              match add_u64 (E := RequestError) (cl_max_response_size config) 1 with
              | Ok limit =>
                  match take_read_to_end limit (io_response io) with
                  | Some (Ok buf) =>
                      Some (if cl_max_response_size config <? len buf then Err ReqResponseTooLarge else Ok buf)
                  | Some (Err e) => Some (Err (ReqIo e))
                  | Some Panic => Some Panic
                  | None => None
                  end
              | Err e => Some (Err e)
              | Panic => Some Panic
              end
          | Some (Err e) => Some (Err (ReqIo e))
          | Some Panic => Some Panic
          | None => None
          end
      | Some (Err e) => Some (Err (ReqIo e))
      | Some Panic => Some Panic
      | None => None
      end
  | Some (Err e) => Some (Err e)
  | Some Panic => Some Panic
  | None => None
  end.

(** [request_response]: the future under the request timeout. *)
Definition request_response `{BuildProfile} {Stream} (config : ClientConfig) (io : CallIo Stream)
  : res RequestError bytes :=
  match request_response_fut config io with
  | Some r => r
  | None => Err (ReqTimeout TimeoutRequest)
  end.

(** ** codec.rs

    prost is an interface: the encoding of a message and its partial inverse. *)
Class ProstMessage (M : Type) := {
  encode_to_vec : M -> bytes;
  encoded_len : M -> Z;
  pb_decode : bytes -> option M
}.

Class ProstLaws (M : Type) `{ProstMessage M} := {
  encoded_len_length m : encoded_len m = len (encode_to_vec m);
  pb_decode_encode m : pb_decode (encode_to_vec m) = Some m
}.

Inductive CodecError := RequestTooLargeToRead | RequestTooLargeToWrite | ResponseTooLargeToRead
  | ResponseTooLargeToWrite | DecodeError | CodecIo (e : IoError).

Record ProtoCodec := mkProtoCodec { max_req_size : Z; max_res_size : Z }.

Definition codec_read `{BuildProfile} {M} `{ProstMessage M} (max : Z) (too_large : CodecError) (io : Incoming)
  : option (res CodecError M) :=
  match add_u64 (E := CodecError) max 1 with
  | Ok limit =>
      match take_read_to_end limit io with
      | Some (Ok buf) =>
          Some (if max <? len buf then Err too_large
                else match pb_decode buf with Some m => Ok m | None => Err DecodeError end)
      | Some (Err e) => Some (Err (CodecIo e))
      | Some Panic => Some Panic
      | None => None
      end
  | Err e => Some (Err e)
  | Panic => Some Panic
  end.

Definition codec_read_request `{BuildProfile} {Req} `{ProstMessage Req} (c : ProtoCodec) (io : Incoming)
  : option (res CodecError Req) := codec_read (max_req_size c) RequestTooLargeToRead io.

Definition codec_read_response `{BuildProfile} {Res} `{ProstMessage Res} (c : ProtoCodec) (io : Incoming)
  : option (res CodecError Res) := codec_read (max_res_size c) ResponseTooLargeToRead io.

(** The bytes handed to [io.write_all]. *)
Definition codec_write {M} `{ProstMessage M} (max : Z) (too_large : CodecError) (m : M) : res CodecError bytes :=
  if max <? encoded_len m then Err too_large else Ok (encode_to_vec m).

Definition codec_write_request {Req} `{ProstMessage Req} (c : ProtoCodec) (m : Req) : res CodecError bytes :=
  codec_write (max_req_size c) RequestTooLargeToWrite m.

Definition codec_write_response {Res} `{ProstMessage Res} (c : ProtoCodec) (m : Res) : res CodecError bytes :=
  codec_write (max_res_size c) ResponseTooLargeToWrite m.

(** ** Reading back *)

(** A complete direction is read whole if it fits, and is never mistaken for a
    shorter one if it does not. *)
Lemma take_read_whole limit b : len b < limit -> take_read_to_end limit (mkIncoming b Eof) = Some (Ok b).
Proof. intros. unfold take_read_to_end; cbn. destruct (Z.leb_spec limit (len b)); [lia|done]. Qed.

Lemma take_read_long max s : 0 <= max -> max < len (in_data s) ->
  exists b, take_read_to_end (max + 1) s = Some (Ok b) /\ len b = max + 1.
Proof.
  intros. unfold take_read_to_end. destruct (Z.leb_spec (max + 1) (len (in_data s))); [|lia].
  eexists; split; [done|]. rewrite length_firstn. lia.
Qed.

Lemma take_read_prefix limit s b : take_read_to_end limit s = Some (Ok b) -> b `prefix_of` in_data s.
Proof.
  unfold take_read_to_end. destruct (limit <=? _).
  - intros [= <-]. rewrite <- (firstn_skipn (Z.to_nat limit) (in_data s)) at 2. apply prefix_app_r. done.
  - destruct (in_end s); intros [= <-]; done.
Qed.
