(* ===== verification/StreamClient.v ===== *)
(** * The limit on concurrent streams, and a request from end to end

    [StreamClientHandle::get_raw_stream] (behaviour/stream_client.rs) between its
    [await] points, with the semaphores of the handle and the permit that travels
    with the stream (util/stream_with_payload.rs); and what the two ends of
    stream_client.rs and stream_server.rs make of a request. *)

From S2P Require Import Prelude RustStd StreamShared StreamIO.
From Stdlib Require Import ZArith Lia.
From stdpp Require Import base sets gmap numbers relations list.

Open Scope Z_scope.

(** ** Semaphores of tokio *)

(** [sem_acquire] is [None] while [acquire_owned] waits. *)
Class Semaphore := {
  Sem : Type;
  sem_new : Z -> Sem;
  sem_acquire : Sem -> option Sem;
  sem_release : Sem -> Sem;
  sem_permits : Sem -> Z
}.

Class SemaphoreLaws `{Semaphore} := {
  sem_permits_new n : 0 <= n -> sem_permits (sem_new n) = n;
  sem_permits_acquire s s' : sem_acquire s = Some s' -> 0 < sem_permits s /\ sem_permits s' = sem_permits s - 1;
  sem_permits_release s : sem_permits (sem_release s) = sem_permits s + 1
}.

(** ** util/stream_with_payload.rs *)

(** [AsyncRead] and [AsyncWrite]; [None] stands for [Poll::Pending].  A read gives
    the bytes it puts into a buffer of the given length. *)
Class AsyncIo (S : Type) := {
  poll_read : Z -> S -> option (res IoError bytes) * S;
  poll_read_vectored : list Z -> S -> option (res IoError bytes) * S;
  poll_write : bytes -> S -> option (res IoError Z) * S;
  poll_write_vectored : list bytes -> S -> option (res IoError Z) * S;
  poll_flush : S -> option (res IoError unit) * S;
  poll_close : S -> option (res IoError unit) * S
}.

Record StreamWithPayload (S P : Type) := mkStreamWithPayload { stream : S; payload : P }.
Arguments mkStreamWithPayload {S P}.
Arguments stream {S P}.
Arguments payload {S P}.

Definition StreamWithPayload_new {S P} (stream : S) (payload : P) : StreamWithPayload S P :=
  mkStreamWithPayload stream payload.

(** [self.project().stream], and the stream put back by the end of the call. *)
Definition project_stream {S P R} (f : S -> R * S) (w : StreamWithPayload S P) : R * StreamWithPayload S P :=
  let '(r, s) := f (stream w) in (r, mkStreamWithPayload s (payload w)).

Section Forwarding.
Context {S P : Type} `{AsyncIo S}.

Definition payload_poll_read (buf : Z) : StreamWithPayload S P -> _ := project_stream (poll_read buf).
Definition payload_poll_read_vectored (bufs : list Z) : StreamWithPayload S P -> _ :=
  project_stream (poll_read_vectored bufs).
Definition payload_poll_write (buf : bytes) : StreamWithPayload S P -> _ := project_stream (poll_write buf).
Definition payload_poll_write_vectored (bufs : list bytes) : StreamWithPayload S P -> _ :=
  project_stream (poll_write_vectored bufs).
Definition payload_poll_flush : StreamWithPayload S P -> _ := project_stream poll_flush.
Definition payload_poll_close : StreamWithPayload S P -> _ := project_stream poll_close.
End Forwarding.

#[global] Instance payload_io {S P} `{AsyncIo S} : AsyncIo (StreamWithPayload S P) := {|
  poll_read := payload_poll_read;
  poll_read_vectored := payload_poll_read_vectored;
  poll_write := payload_poll_write;
  poll_write_vectored := payload_poll_write_vectored;
  poll_flush := payload_poll_flush;
  poll_close := payload_poll_close
|}.

Inductive IoOp :=
| OpRead (buf : Z) | OpReadVectored (bufs : list Z) | OpWrite (buf : bytes) | OpWriteVectored (bufs : list bytes)
| OpFlush | OpClose.

(** The stream after an operation on it. *)
Definition io_op {S} `{AsyncIo S} (o : IoOp) (s : S) : S :=
  match o with
  | OpRead buf => snd (poll_read buf s)
  | OpReadVectored bufs => snd (poll_read_vectored bufs s)
  | OpWrite buf => snd (poll_write buf s)
  | OpWriteVectored bufs => snd (poll_write_vectored bufs s)
  | OpFlush => snd (poll_flush s)
  | OpClose => snd (poll_close s)
  end.

Lemma io_op_payload {S P} `{AsyncIo S} o (w : StreamWithPayload S P) : payload (io_op o w) = payload w.
Proof.
  assert (forall R (f : S -> R * S), payload (project_stream f w).2 = payload w) as Hp
    by (intros R f; unfold project_stream; by case_match).
  destruct o; apply Hp.
Qed.

Section Handle.
Context {PeerId : Type} `{Countable PeerId} `{Semaphore}.

(** [StreamClientHandle], without its [Control] (see [StreamShared]). *)
Record StreamClientHandle := mkHandle {
  hd_protocol : str;
  hd_config : ClientConfig;
  semaphores : gmap PeerId Sem
}.

(** [ClientBehaviour::new_handle] *)
Definition new_handle (protocol : str) (config : ClientConfig) : StreamClientHandle :=
  mkHandle protocol config ∅.

(** [Clone for StreamClientHandle] *)
Definition clone_handle (h : StreamClientHandle) : StreamClientHandle :=
  mkHandle (hd_protocol h) (hd_config h) ∅.

(** The first statement of [get_raw_stream]: the semaphore of the peer, made with
    the limit if there is none. *)
Definition peer_semaphore (peer : PeerId) (h : StreamClientHandle) : option Sem * StreamClientHandle :=
  match max_concurrent_streams (hd_config h) with
  | None => (None, h)
  | Some limit =>
      let s := default (sem_new limit) (semaphores h !! peer) in
      (Some s, mkHandle (hd_protocol h) (hd_config h) (<[peer := s]> (semaphores h)))
  end.

(** [s.acquire_owned()] on the semaphore of the peer: [None] while it waits. *)
Definition acquire_owned (peer : PeerId) (h : StreamClientHandle) : option StreamClientHandle :=
  s ← semaphores h !! peer;
  s ← sem_acquire s;
  Some (mkHandle (hd_protocol h) (hd_config h) (<[peer := s]> (semaphores h))).

(** What a stream carries: [Option<OwnedSemaphorePermit>], the permit by its peer. *)
#[local] Abbreviation Permit := (option PeerId).

(** Dropping a permit gives it back to its semaphore. *)
Definition drop_permit (permit : Permit) (h : StreamClientHandle) : StreamClientHandle :=
  match permit with
  | None => h
  | Some peer =>
      match semaphores h !! peer with
      | Some s => mkHandle (hd_protocol h) (hd_config h) (<[peer := sem_release s]> (semaphores h))
      | None => h
      end
  end.

(** *** [get_raw_stream], by its [await] points *)

(** A call waits for its permit - [queued] says that there is a semaphore - or for
    [open_stream], with the permit in its hands. *)
Inductive RawCall := Acquiring (queued : bool) | Opening (permit : Permit).

(** Up to [acquire_owned]. *)
Definition raw_stream_start (peer : PeerId) (h : StreamClientHandle) : RawCall * StreamClientHandle :=
  let '(semaphore, h) := peer_semaphore peer h in
  (Acquiring (bool_decide (is_Some semaphore)), h).

(** From there to [open_stream]; without a limit there is nothing to acquire. *)
Definition raw_stream_acquire (peer : PeerId) (queued : bool) (h : StreamClientHandle)
    : option (RawCall * StreamClientHandle) :=
  if queued then h ← acquire_owned peer h; Some (Opening (Some peer), h)
  else Some (Opening None, h).

(** From there to the end: the stream takes the permit along, an error and the
    timeout ([None]) drop it. *)
Definition raw_stream_finish {Proto Stream} (permit : Permit)
    (opened : option (res (OpenStreamError Proto) Stream)) (h : StreamClientHandle)
    : res RequestError (StreamWithPayload Stream Permit) * StreamClientHandle :=
  match raw_stream_result opened with
  | Ok stream => (Ok (StreamWithPayload_new stream permit), h)
  | Err e => (Err e, drop_permit permit h)
  | Panic => (Panic, drop_permit permit h)
  end.

(** The future is dropped: by a timeout while it waits, or by the caller. *)
Definition raw_stream_drop (c : RawCall) (h : StreamClientHandle) : StreamClientHandle :=
  match c with
  | Acquiring _ => h
  | Opening permit => drop_permit permit h
  end.

(** How many permits of [p] are in use. *)
Definition in_use (p : PeerId) (l : list PeerId) : Z := len (filter (.= p) l).

Lemma in_use_cons p q l : in_use p (q :: l) = (if decide (q = p) then 1 else 0) + in_use p l.
Proof.
  unfold in_use. rewrite filter_cons. destruct (decide (q = p)); cbn [length]; lia.
Qed.

Lemma in_use_perm p l l' : l ≡ₚ l' -> in_use p l = in_use p l'.
Proof. intros E. unfold in_use. by rewrite E. Qed.

Lemma in_use_nonneg p l : 0 <= in_use p l.
Proof. unfold in_use. lia. Qed.

Context `{!SemaphoreLaws}.

(** The free permits and those in use add up to the limit. *)
Definition HandleInv (limit : Z) (y : StreamClientHandle * list PeerId) : Prop :=
  max_concurrent_streams (hd_config y.1) = Some limit /\
  forall p, match semaphores y.1 !! p with
            | Some s => 0 <= sem_permits s /\ sem_permits s + in_use p y.2 = limit
            | None => in_use p y.2 = 0
            end.

Lemma handle_inv_queue limit p h l : 0 <= limit ->
  HandleInv limit (h, l) -> HandleInv limit (snd (peer_semaphore p h), l).
Proof.
  intros Hl [Hm I]. unfold peer_semaphore. cbn in *. rewrite Hm. split; [done|]. intros q; cbn.
  destruct (decide (q = p)) as [->|]; [rewrite lookup_insert_eq|rewrite lookup_insert_ne by done; apply I].
  specialize (I p). destruct (semaphores h !! p) as [s|]; cbn; [done|].
  rewrite sem_permits_new by done. lia.
Qed.

Lemma handle_inv_acquire limit p h h' l :
  HandleInv limit (h, l) -> acquire_owned p h = Some h' -> HandleInv limit (h', p :: l).
Proof.
  intros [Hm I] E. unfold acquire_owned in E. destruct (semaphores h !! p) as [s|] eqn:Hs; [|done]. cbn in E.
  destruct (sem_acquire s) as [s'|] eqn:Es; [|done]. injection E as <-. cbn in *. split; [done|].
  intros q; cbn. rewrite in_use_cons. apply sem_permits_acquire in Es as [? ?]. specialize (I q).
  destruct (decide (p = q)) as [->|]; [rewrite lookup_insert_eq|rewrite lookup_insert_ne by done; exact I].
  rewrite Hs in I. lia.
Qed.

Lemma handle_inv_release limit p h l l' :
  HandleInv limit (h, l) -> l ≡ₚ p :: l' -> HandleInv limit (drop_permit (Some p) h, l').
Proof.
  intros [Hm I] Hp. assert (HI : forall q, in_use q l = (if decide (p = q) then 1 else 0) + in_use q l')
    by (intros q; by rewrite (in_use_perm q _ _ Hp), in_use_cons).
  unfold drop_permit. cbn in *. pose proof (I p) as Ip. pose proof (in_use_nonneg p l').
  rewrite HI, decide_True in Ip by done.
  destruct (semaphores h !! p) as [s|] eqn:Es; [|lia]. split; [done|]. intros q; cbn.
  destruct (decide (q = p)) as [->|]; [rewrite lookup_insert_eq, sem_permits_release; lia|].
  rewrite lookup_insert_ne by done. specialize (I q). rewrite HI, decide_False in I by done. exact I.
Qed.

Lemma handle_inv_perm limit h l l' : l ≡ₚ l' -> HandleInv limit (h, l) -> HandleInv limit (h, l').
Proof. intros E [Hm I]. split; [done|]. intros p. cbn. rewrite <- (in_use_perm p _ _ E). apply I. Qed.

(** ** Runs of one handle *)

Context {Proto Stream : Type} `{AsyncIo Stream}.

(** The handle, the calls of [get_raw_stream] under way and the streams that they
    have returned, each with its peer. *)
Record ClientSys := mkClientSys {
  cs_handle : StreamClientHandle;
  cs_calls : list (PeerId * RawCall);
  cs_streams : list (PeerId * StreamWithPayload Stream Permit)
}.

Inductive client_step : ClientSys -> ClientSys -> Prop :=
| cstep_call p h cs ss :
    client_step (mkClientSys h cs ss)
      (mkClientSys (snd (raw_stream_start p h)) ((p, fst (raw_stream_start p h)) :: cs) ss)
| cstep_acquire p queued c h h' cs cs' ss :
    cs ≡ₚ (p, Acquiring queued) :: cs' -> raw_stream_acquire p queued h = Some (c, h') ->
    client_step (mkClientSys h cs ss) (mkClientSys h' ((p, c) :: cs') ss)
| cstep_opened p permit (opened : option (res (OpenStreamError Proto) Stream)) w h h' cs cs' ss :
    cs ≡ₚ (p, Opening permit) :: cs' -> raw_stream_finish permit opened h = (Ok w, h') ->
    client_step (mkClientSys h cs ss) (mkClientSys h' cs' ((p, w) :: ss))
| cstep_failed p permit (opened : option (res (OpenStreamError Proto) Stream)) r h h' cs cs' ss :
    cs ≡ₚ (p, Opening permit) :: cs' -> raw_stream_finish permit opened h = (r, h') -> (forall w, r <> Ok w) ->
    client_step (mkClientSys h cs ss) (mkClientSys h' cs' ss)
| cstep_drop_call p c h cs cs' ss :
    cs ≡ₚ (p, c) :: cs' -> client_step (mkClientSys h cs ss) (mkClientSys (raw_stream_drop c h) cs' ss)
| cstep_io p w o h cs ss ss' :
    ss ≡ₚ (p, w) :: ss' -> client_step (mkClientSys h cs ss) (mkClientSys h cs ((p, io_op o w) :: ss'))
| cstep_drop_stream p w h cs ss ss' :
    ss ≡ₚ (p, w) :: ss' -> client_step (mkClientSys h cs ss) (mkClientSys (drop_permit (payload w) h) cs ss').

Definition client_reachable (protocol : str) (config : ClientConfig) (y : ClientSys) : Prop :=
  rtc client_step (mkClientSys (new_handle protocol config) [] []) y.

(** The peer of a call that is past its semaphore. *)
Definition opening (c : PeerId * RawCall) : option PeerId :=
  match c.2 with Opening _ => Some c.1 | Acquiring _ => None end.

(** The peers of the streams that are opening or open. *)
Definition stream_peers (y : ClientSys) : list PeerId := omap opening (cs_calls y) ++ (cs_streams y).*1.

(** How many of them go to [p]. *)
Definition streams_to (p : PeerId) (y : ClientSys) : Z := in_use p (stream_peers y).

(** Every stream has the permit of its peer, from [open_stream] on. *)
Definition call_ok (c : PeerId * RawCall) : Prop :=
  match c.2 with Acquiring queued => queued = true | Opening permit => permit = Some c.1 end.

Definition ClientInv (limit : Z) (y : ClientSys) : Prop :=
  HandleInv limit (cs_handle y, stream_peers y)
  /\ Forall call_ok (cs_calls y) /\ Forall (fun s => payload s.2 = Some s.1) (cs_streams y).

Lemma client_inv_calls p c cs cs' (ss : list (PeerId * StreamWithPayload Stream Permit)) h :
  cs ≡ₚ (p, c) :: cs' -> Forall call_ok cs ->
  stream_peers (mkClientSys h cs ss) ≡ₚ option_list (opening (p, c)) ++ omap opening cs' ++ ss.*1
  /\ call_ok (p, c) /\ Forall call_ok cs'.
Proof.
  intros E Hc. rewrite E in Hc. apply Forall_cons in Hc as [? ?]. split; [|done].
  unfold stream_peers. cbn [cs_calls cs_streams]. rewrite E. by destruct c.
Qed.

Lemma client_inv_step limit y y' : 0 <= limit -> client_step y y' -> ClientInv limit y -> ClientInv limit y'.
Proof.
  intros Hl [p h cs ss|p queued c h h' cs cs' ss Ep E|p permit opened w h h' cs cs' ss Ep E|p permit opened r h h' cs cs' ss Ep E Hr
    |p c h cs cs' ss Ep|p w o h cs ss ss' Ep|p w h cs ss ss' Ep] (I & Hc & Hs); cbn [cs_handle cs_calls cs_streams] in *.
  - unfold raw_stream_start. apply (handle_inv_queue _ p) in I as I'; [|done]. destruct I as [Hm _].
    destruct (peer_semaphore p h) as [s h'] eqn:E. split; [exact I'|]. split; [|done].
    constructor; [|done]. unfold peer_semaphore in E. cbn in Hm. rewrite Hm in E. by injection E as <- <-.
  - destruct (client_inv_calls p _ cs cs' ss h Ep Hc) as (Hp & -> & Hc'). cbn in Hp, E.
    destruct (acquire_owned p h) as [h1|] eqn:Ea; [|done]. injection E as <- <-.
    split; [|split; [by constructor|done]]. eapply handle_inv_acquire; [|exact Ea].
    by eapply handle_inv_perm.
  - destruct (client_inv_calls p _ cs cs' ss h Ep Hc) as (Hp & Hok & Hc'). cbn in Hp, Hok. subst permit.
    unfold raw_stream_finish in E. destruct (raw_stream_result opened); try done. injection E as <- <-.
    split; [|split; [done|by constructor]]. eapply handle_inv_perm; [|exact I].
    rewrite Hp. unfold stream_peers. cbn. by rewrite <- Permutation_middle.
  - destruct (client_inv_calls p _ cs cs' ss h Ep Hc) as (Hp & Hok & Hc'). cbn in Hp, Hok. subst permit.
    assert (h' = drop_permit (Some p) h) as ->.
    { unfold raw_stream_finish in E. destruct (raw_stream_result opened); [|by injection E..].
      injection E as <- _. by edestruct Hr. }
    split; [|done]. by eapply handle_inv_release.
  - destruct (client_inv_calls p c cs cs' ss h Ep Hc) as (Hp & Hok & Hc'). split; [|done].
    destruct c as [queued|permit]; cbn in Hp, Hok |- *; [by eapply handle_inv_perm|].
    subst permit. by eapply handle_inv_release.
  - rewrite Ep in Hs. apply Forall_cons in Hs as [Hw Hs]. split; [|split; [done|]].
    + eapply handle_inv_perm; [|exact I]. unfold stream_peers. cbn. by rewrite Ep.
    + constructor; [|done]. cbn. by rewrite io_op_payload.
  - rewrite Ep in Hs. apply Forall_cons in Hs as [Hw Hs]. cbn in Hw. split; [|done]. cbn [cs_handle]. rewrite Hw.
    eapply handle_inv_release; [exact I|]. unfold stream_peers. cbn. rewrite Ep. cbn.
    by rewrite <- Permutation_middle.
Qed.

(** C24: The limit on concurrent streams holds.  Whatever calls of [get_raw_stream]
    start, wait, open their streams, fail, time out or are dropped, and whatever is
    done with the streams they return until these are dropped, a handle with
    [max_concurrent_streams = Some limit] never has more than [limit] streams to
    the same peer opening or open at once, and the peer's semaphore has exactly the
    rest of the limit free, so that no permit is lost either. *)
Theorem concurrent_streams_bounded protocol config limit y p :
  max_concurrent_streams config = Some limit -> 0 <= limit ->
  client_reachable protocol config y ->
  streams_to p y <= limit
  /\ forall s, semaphores (cs_handle y) !! p = Some s -> sem_permits s = limit - streams_to p y.
Proof.
  intros Hm Hl Hr.
  assert (I : ClientInv limit y).
  { unfold client_reachable in Hr.
    assert (I0 : ClientInv limit (mkClientSys (new_handle protocol config) [] [])) by (by split_and!).
    revert I0. induction Hr as [y|y1 y2 y3 Hs Hr IH]; [done|]. intros I. by apply IH, (client_inv_step _ y1). }
  destruct I as [[_ I] _]. specialize (I p). cbn in I. unfold streams_to.
  destruct (semaphores (cs_handle y) !! p) as [s|]; [|split; [lia|done]].
  split; [lia|]. intros s' [= <-]. lia.
Qed.

End Handle.

Arguments StreamClientHandle PeerId {_ _ _}.
Arguments RawCall PeerId : clear implicits.


(** ** A request from end to end *)

Section Exchange.
Context `{BuildProfile}.

(** What the client's direction of the stream carries back when the server reads
    [input] and answers a request with [handler]; a response sender that is
    dropped ends the stream as [dropped] says. *)
Definition serve (config : ServerConfig) (handler : bytes -> option bytes) (dropped : Ending) (input : Incoming)
  : Incoming :=
  match read_bytes (E := unit) config input with
  | Ok (Some buf) =>
      match handler buf with
      | Some d =>
          match response_send (mkResponseSender tt (sv_max_response_size config) (write_timeout config)) d
                  (Some (Ok tt)) (Some (Ok tt)) with
          | (Ok _, Some d) => mkIncoming d Eof
          | _ => mkIncoming [] dropped
          end
      | None => mkIncoming [] dropped
      end
  | _ => mkIncoming [] dropped
  end.

(** A call in which the connection itself works. *)
Definition exchange (client : ClientConfig) (server : ServerConfig) (handler : bytes -> option bytes)
    (dropped : Ending) (request : bytes) : res RequestError bytes :=
  request_response client (mkCallIo (Some (Ok tt)) (Some (Ok tt)) (Some (Ok tt))
    (serve server handler dropped (mkIncoming request Eof))).

(** What the client makes of a stream that ends without a response. *)
Definition no_response (dropped : Ending) : res RequestError bytes :=
  match dropped with
  | Eof => Ok []
  | Broken e => Err (ReqIo e)
  | Stalled => Err (ReqTimeout TimeoutRequest)
  end.

Lemma read_bytes_spec {E} config input : 0 <= sv_max_request_size config < u64_max ->
  in_end input = Eof ->
  read_bytes (E := E) config input =
    Ok (if len (in_data input) <=? sv_max_request_size config then Some (in_data input) else None).
Proof.
  intros Hm He. unfold read_bytes. rewrite add_u64_ok by (unfold u64_max in *; lia). cbn.
  destruct (Z.leb_spec (len (in_data input)) (sv_max_request_size config)).
  - destruct input as [d e]; cbn in *; subst e. rewrite take_read_whole by lia.
    destruct (Z.ltb_spec (sv_max_request_size config) (len d)); [lia|done].
  - destruct (take_read_long (sv_max_request_size config) input) as (b & -> & Hb); [lia..|].
    destruct (Z.ltb_spec (sv_max_request_size config) (len b)); [done|lia].
Qed.

Lemma client_reads client d e : 0 <= cl_max_response_size client < u64_max ->
  request_response client (mkCallIo (Some (Ok tt)) (Some (Ok tt)) (Some (Ok tt)) (mkIncoming d e)) =
    if cl_max_response_size client <? len d then Err ReqResponseTooLarge
    else match e with
         | Eof => Ok d
         | Broken e => Err (ReqIo e)
         | Stalled => Err (ReqTimeout TimeoutRequest)
         end.
Proof.
  intros Hm. unfold request_response, request_response_fut. cbn [io_opened io_written io_closed io_response].
  rewrite add_u64_ok by (unfold u64_max in *; lia).
  destruct (Z.ltb_spec (cl_max_response_size client) (len d)).
  - destruct (take_read_long (cl_max_response_size client) (mkIncoming d e)) as (b & -> & Hb); [cbn; lia..|].
    destruct (Z.ltb_spec (cl_max_response_size client) (len b)); [done|lia].
  - unfold take_read_to_end; cbn [in_data in_end].
    destruct (Z.leb_spec (cl_max_response_size client + 1) (len d)); [lia|].
    destruct e; try done. destruct (Z.ltb_spec (cl_max_response_size client) (len d)); [lia|done].
Qed.

(** C25: A request and its response arrive whole or not at all.  With a working
    connection, the handler sees exactly the client's bytes if they fit the
    server's request limit and is not called otherwise; the client gets exactly
    the handler's bytes if they fit both response limits, [ResponseTooLarge] if
    they fit only the server's, and the ending of an unanswered stream in all
    other cases (a request that is too large, a handler that drops its response
    sender, a response the server refuses to send). *)
Theorem exchange_correct client server handler dropped request :
  0 <= sv_max_request_size server < u64_max -> 0 <= cl_max_response_size client < u64_max ->
  exchange client server handler dropped request =
    if len request <=? sv_max_request_size server then
      match handler request with
      | Some d =>
          if len d <=? sv_max_response_size server then
            if len d <=? cl_max_response_size client then Ok d else Err ReqResponseTooLarge
          else no_response dropped
      | None => no_response dropped
      end
    else no_response dropped.
Proof.
  intros Hs Hc. unfold exchange, serve. rewrite read_bytes_spec by done. cbn [in_data].
  assert (Hn : forall e, request_response client
    (mkCallIo (Some (Ok tt)) (Some (Ok tt)) (Some (Ok tt)) (mkIncoming [] e)) = no_response e).
  { intros e. rewrite client_reads by done. change (len (@nil Z)) with 0. destruct (Z.ltb_spec (cl_max_response_size client) 0); [lia|].
    by destruct e. }
  destruct (len request <=? sv_max_request_size server); [|apply Hn].
  destruct (handler request) as [d|]; [|apply Hn]. unfold response_send. cbn [rs_max_response_size].
  destruct (Z.ltb_spec (sv_max_response_size server) (len d)), (Z.leb_spec (len d) (sv_max_response_size server));
    try lia; [apply Hn|].
  rewrite client_reads by done.
  destruct (Z.ltb_spec (cl_max_response_size client) (len d)), (Z.leb_spec (len d) (cl_max_response_size client));
    solve [reflexivity | lia].
Qed.

(** What the codec writes it reads back: a message that fits is written as its
    encoding, and the other side, with the same limits, decodes the same message;
    one that does not fit is refused before anything is written, and its bytes
    would be refused on the other side. *)
Theorem codec_roundtrip {M} `{ProstLaws M} (c : ProtoCodec) (m : M) :
  0 <= max_req_size c < u64_max ->
  match codec_write_request c m with
  | Ok b => codec_read_request c (mkIncoming b Eof) = Some (Ok m) /\ len b <= max_req_size c
  | Err e => e = RequestTooLargeToWrite /\
      codec_read_request (Req := M) c (mkIncoming (encode_to_vec m) Eof) = Some (Err RequestTooLargeToRead)
  | Panic => False
  end.
Proof.
  intros Hm. unfold codec_write_request, codec_write, codec_read_request, codec_read. rewrite encoded_len_length.
  rewrite add_u64_ok by (unfold u64_max in *; lia).
  destruct (Z.ltb_spec (max_req_size c) (len (encode_to_vec m))).
  - split; [done|]. destruct (take_read_long (max_req_size c) (mkIncoming (encode_to_vec m) Eof)) as (b & -> & Hb);
      [cbn; lia..|]. destruct (Z.ltb_spec (max_req_size c) (len b)); [done|lia].
  - split; [|lia]. rewrite take_read_whole by lia. destruct (Z.ltb_spec (max_req_size c) (len (encode_to_vec m))); [lia|].
    by rewrite pb_decode_encode.
Qed.

End Exchange.

(** ** Cloned handles *)

(** A semaphore as its number of free permits. *)
#[global] Instance counter_semaphore : Semaphore := {|
  Sem := Z;
  sem_new n := n;
  sem_acquire n := if 0 <? n then Some (n - 1) else None;
  sem_release n := n + 1;
  sem_permits n := n
|}.

#[global] Instance counter_semaphore_laws : SemaphoreLaws.
Proof.
  split; cbn; [done| |done]. intros s s'. destruct (Z.ltb_spec 0 s); intros [= <-]. lia.
Qed.

(** The configuration the doc comment of [max_concurrent_streams] speaks of. *)
Definition one_stream : ClientConfig := mkClientConfig (Some 1) 1024 10 60.

(** A clone of a handle starts without semaphores, so the limit "per peer" is a
    limit per clone: while the first stream to a peer is opening the handle itself
    admits no second one, its clone does. *)
Theorem clone_does_not_share_limit :
  let h0 := snd (raw_stream_start 7 (new_handle [] one_stream)) in
  exists h : StreamClientHandle Z,
    raw_stream_acquire 7 true h0 = Some (Opening (Some 7), h) /\
    raw_stream_acquire 7 true (snd (raw_stream_start 7 h)) = None /\
    is_Some (raw_stream_acquire 7 true (snd (raw_stream_start 7 (clone_handle h)))).
Proof. eexists; split_and!; [reflexivity|reflexivity|by eexists]. Qed.

(** ** Witnesses *)

(** A stream on which everything succeeds at once. *)
#[global] Instance toy_stream : AsyncIo unit := {|
  poll_read _ s := (Some (Ok []), s);
  poll_read_vectored _ s := (Some (Ok []), s);
  poll_write b s := (Some (Ok (len b)), s);
  poll_write_vectored bs s := (Some (Ok (len (concat bs))), s);
  poll_flush s := (Some (Ok tt), s);
  poll_close s := (Some (Ok tt), s)
|}.

(** The stream to peer 7 is open and a second call waits. *)
Definition one_open : ClientSys (PeerId := Z) (Stream := unit) :=
  mkClientSys (mkHandle [] one_stream {[7 := 0]}) [(7, Acquiring true)] [(7, mkStreamWithPayload tt (Some 7))].

Lemma concurrent_streams_bounded_witness :
  streams_to 7 one_open <= 1
  /\ forall s, semaphores (cs_handle one_open) !! 7 = Some s -> sem_permits s = 1 - streams_to 7 one_open.
Proof.
  apply (concurrent_streams_bounded (Proto := unit) [] one_stream 1 one_open 7); [reflexivity|lia|].
  eapply rtc_l; [apply (cstep_call 7)|].
  eapply rtc_l; [by eapply (cstep_acquire 7 true)|].
  eapply rtc_l; [apply (cstep_call 7)|].
  eapply rtc_l; [eapply (cstep_opened 7 (Some 7) (Some (Ok tt))); [apply perm_swap|reflexivity]|].
  eapply rtc_l; [by eapply (cstep_io 7 _ (OpWrite [1; 2]))|].
  vm_compute. apply rtc_refl.
Defined.

Definition echo (b : bytes) : option bytes := Some b.

Lemma exchange_witness :
  exchange (H := {| overflow_checks := true; debug_assertions := true |})
    default_client_config default_server_config echo Eof [1; 2; 3] = Ok [1; 2; 3].
Proof. rewrite exchange_correct; [reflexivity|cbn; unfold u64_max; lia..]. Defined.

(** Messages that are their own encoding. *)
#[global] Instance raw_message : ProstMessage bytes := {|
  encode_to_vec b := b; encoded_len b := len b; pb_decode := Some
|}.

#[global] Instance raw_message_laws : ProstLaws bytes.
Proof. by split. Qed.

Lemma codec_roundtrip_witness :
  codec_read_request (H := {| overflow_checks := true; debug_assertions := true |})
    (Req := bytes) (mkProtoCodec 4 0) (mkIncoming [1; 2] Eof) = Some (Ok [1; 2]).
Proof.
  exact (proj1 (codec_roundtrip (H := {| overflow_checks := true; debug_assertions := true |})
    (M := bytes) (mkProtoCodec 4 0) [1; 2] ltac:(cbn; unfold u64_max; lia))).
Defined.
