(* ===== verification/Actors.v ===== *)
(** * The actors (crates/transport/src/actors, protocol.rs)

    Each kind of node wraps the base behaviour: what it makes of the events of
    its sub-behaviours, and the calls it offers to the application.  A call over
    the network takes [net : bytes -> CallIo], what the network does with the
    request bytes (see [StreamIO]).  The texts of foreign errors are arguments. *)

From S2P Require Import Prelude RustStd StreamShared StreamIO Base Wrapped.
From Stdlib Require Import ZArith Lia Ascii String SpecFloat.
From stdpp Require Import base sets strings gmap numbers list.

Open Scope Z_scope.

(** ** protocol.rs *)

Definition QUERY_PROTOCOL : str := lit "/sqd/query/1.1.0".
Definition WORKER_LOGS_PROTOCOL : str := lit "/sqd/worker_logs/1.1.0".
Definition WORKER_STATUS_PROTOCOL : str := lit "/sqd/worker_status/1.0.0".
Definition PORTAL_LOGS_PROTOCOL_V1 : str := lit "/sqd/portal_logs/1.0.0".
Definition PORTAL_LOGS_PROTOCOL_V2 : str := lit "/sqd/portal_logs/2.0.0".
Definition SQL_QUERY_PROTOCOL : str := lit "/sqd/sql_query/1.0.0".
Definition KEEP_ALIVE_PROTOCOL : str := lit "/sqd/keep_alive/0.0.1".

Definition MAX_QUERY_MSG_SIZE : Z := 4 * 1024 * 1024 + 1024.
Definition MAX_SQL_QUERY_MSG_SIZE : Z := 257 * 1024.
Definition MAX_QUERY_RESULT_SIZE : Z := 250 * 1024 * 1024.
Definition MAX_LOGS_REQUEST_SIZE : Z := 100.
Definition MAX_LOGS_RESPONSE_SIZE : Z := 10 * 1024 * 1024.
Definition MAX_HEARTBEAT_SIZE : Z := 10 * 1024 * 1024.
Definition MAX_LOG_MSG_SIZE : Z := 257 * 1024.
Definition MAX_LOG_RESULT_SIZE : Z := 0.
Definition MAX_LOGS_MSG_SIZE : Z := 25 * 1024 * 1024.
Definition MAX_LOGS_RESULT_SIZE : Z := 0.

(** ** Events of the base behaviour *)

(** [BaseBehaviourEvent]: the result of a step of a [get_providers] query ([None]
    for an error or for [FinishedWithNoAdditionalRecord]) and whether the step is
    the last, or a rise of the confidence, in tenths. *)
Inductive BaseBehaviourEvent (PeerId QueryId : Type) :=
| BE_ProviderRecord (id : QueryId) (found : option (list PeerId)) (last : bool)
| BE_NetworkConnected (step : nat).
Arguments BE_ProviderRecord {PeerId QueryId} id found last.
Arguments BE_NetworkConnected {PeerId QueryId} step.

(** [step as f32 / 10.0] *)
Definition confidence_of (step : nat) : f32 := f32_div (f32_of_nat step) (f32_of_nat 10).

(** The literal 0.3, rounded to nearest. *)
Definition f32_0_3 : f32 := f32_div (f32_of_nat 3) (f32_of_nat 10).

(** ** Failures of a query: portal.rs and sql_client.rs

    [QueryFailure] and [SQLQueryFailure] have the same variants. *)

Inductive QueryFailure :=
| InvalidRequest (msg : str)
| QueryTimeout (t : Timeout)
| TransportError (msg : str)
| InvalidResponse (msg : str).

Section Calls.
Context `{BuildProfile} {Stream : Type}.
Context (io_display : IoError -> str) (decode_error : bytes -> str).

(** [Display for RequestError]. *)
Definition request_error_to_string (e : RequestError) : str :=
  match e with
  | ReqTimeout TimeoutConnect => lit "connect timeout"
  | ReqTimeout TimeoutRequest => lit "request timeout"
  | ReqUnsupportedProtocol => lit "the remote supports none of the requested protocols"
  | ReqResponseTooLarge => lit "response too large"
  | ReqIo e => io_display e
  end.

(** [From<RequestError> for QueryFailure] *)
Definition query_failure_from (e : RequestError) : QueryFailure :=
  match e with
  | ReqTimeout t => QueryTimeout t
  | e => TransportError (request_error_to_string e)
  end.

(** ** portal.rs: queries *)

Definition portal_query_config : ClientConfig :=
  mkClientConfig (max_concurrent_streams default_client_config) MAX_QUERY_RESULT_SIZE
    (connect_timeout default_client_config) (request_timeout default_client_config).

Section Query.
Context {Query QueryResult : Type} `{!ProstMessage Query} `{!ProstMessage QueryResult}.

Definition send_query (config : ClientConfig) (query : Query) (net : bytes -> CallIo Stream)
  : res QueryFailure QueryResult :=
  let query_size := encoded_len query in
  if MAX_QUERY_MSG_SIZE <? query_size then
    Err (InvalidRequest (lit "Query size too large: " ++ u64_to_string query_size))
  else
    let buf := encode_to_vec query in
    match request_response config (net buf) with
    | Ok [] => Err (InvalidResponse (lit "Empty response"))
    | Ok resp_buf =>
        match pb_decode resp_buf with
        | Some result => Ok result
        | None => Err (InvalidResponse (decode_error resp_buf))
        end
    | Err e => Err (query_failure_from e)
    | Panic => Panic
    end.

(** [send_query_request] hands the stream to the caller once the query is written:
    [raw] is the outcome of [get_raw_stream], the other two those of [write_all]
    and [close]. *)
Definition send_query_request (query : Query) (raw : res RequestError Stream)
    (written : bytes -> res IoError unit) (closed : res IoError unit) : res QueryFailure Stream :=
  let query_size := encoded_len query in
  if MAX_QUERY_MSG_SIZE <? query_size then
    Err (InvalidRequest (lit "Query size too large: " ++ u64_to_string query_size))
  else
    let buf := encode_to_vec query in
    match raw with
    | Ok stream =>
        match written buf with
        | Ok _ =>
            match closed with
            | Ok _ => Ok stream
            | Err e => Err (query_failure_from (ReqIo e))
            | Panic => Panic
            end
        | Err e => Err (query_failure_from (ReqIo e))
        | Panic => Panic
        end
    | Err e => Err (query_failure_from e)
    | Panic => Panic
    end.

(** ** sql_client.rs *)

Definition send_sql_query (config : ClientConfig) (query : Query) (net : bytes -> CallIo Stream)
  : res QueryFailure QueryResult :=
  let query_len := encoded_len query in
  if MAX_SQL_QUERY_MSG_SIZE <? query_len then
    Err (InvalidRequest (lit "SQLQuery message too large (" ++ u64_to_string query_len ++ lit " bytes)"))
  else
    let buf := encode_to_vec query in
    match request_response config (net buf) with
    | Ok [] => Err (InvalidResponse (lit "Empty response"))
    | Ok resp_buf =>
        match pb_decode resp_buf with
        | Some result => Ok result
        | None => Err (InvalidResponse (decode_error resp_buf))
        end
    | Err e => Err (query_failure_from e)
    | Panic => Panic
    end.

End Query.

(** ** logs_collector.rs *)

Inductive FetchLogsError :=
| LogsInvalidRequest (msg : str)
| LogsTimeout (t : Timeout)
| LogsFailure (msg : str)
| LogsInvalidResponse (msg : str).

Definition fetch_logs_error_from (e : RequestError) : FetchLogsError :=
  match e with
  | ReqTimeout t => LogsTimeout t
  | e => LogsFailure (request_error_to_string e)
  end.

Definition logs_request_config : ClientConfig :=
  mkClientConfig (max_concurrent_streams default_client_config) MAX_LOGS_RESPONSE_SIZE
    (connect_timeout default_client_config) (request_timeout default_client_config).

Definition request_logs {LogsRequest QueryLogs} `{!ProstMessage LogsRequest} `{!ProstMessage QueryLogs}
    (config : ClientConfig) (request : LogsRequest) (net : bytes -> CallIo Stream) : res FetchLogsError QueryLogs :=
  let request_len := encoded_len request in
  if MAX_LOGS_REQUEST_SIZE <? request_len then
    Err (LogsInvalidRequest (lit "LogsRequest message too large (" ++ u64_to_string request_len ++ lit " bytes)"))
  else
    let buf := encode_to_vec request in
    match request_response config (net buf) with
    | Ok resp_buf =>
        match pb_decode resp_buf with
        | Some resp => Ok resp
        | None => Err (LogsInvalidResponse (decode_error resp_buf))
        end
    | Err e => Err (fetch_logs_error_from e)
    | Panic => Panic
    end.

(** ** pings_collector.rs *)

(** [ErrorKind::InvalidData] *)
Definition InvalidData : IoErrorKind := OtherKind 0.

Definition pings_config (request_timeout connect_timeout : Z) : ClientConfig :=
  mkClientConfig None MAX_HEARTBEAT_SIZE connect_timeout request_timeout.

Definition request_heartbeat {Heartbeat} `{!ProstMessage Heartbeat} (config : ClientConfig)
    (net : bytes -> CallIo Stream) : res RequestError Heartbeat :=
  match request_response config (net []) with
  | Ok resp =>
      match pb_decode resp with
      | Some heartbeat => Ok heartbeat
      | None => Err (ReqIo (io_new InvalidData (lit "Error decoding heartbeat: " ++ decode_error resp)))
      end
  | Err e => Err e
  | Panic => Panic
  end.

End Calls.

(** ** portal.rs: the listeners of the portal's logs *)

Section Portal.
Context {PeerId QueryId Kad : Type} `{Countable PeerId} `{EqDecision QueryId}.
Context (get_providers : Kad -> QueryId * Kad).

(** [PortalBehaviour]: of its base behaviour only Kademlia is used here. *)
Record PortalBehaviour := mkPortalBehaviour {
  portal_kad : Kad;
  provider_query : option QueryId;
  providers_list : gset PeerId
}.

Definition PortalBehaviour_new (k : Kad) : PortalBehaviour := mkPortalBehaviour k None ∅.

Inductive InternalPortalEvent := LogListeners (listeners : list PeerId).

Definition on_provider_record (id : QueryId) (found : option (list PeerId)) (last : bool) (s : PortalBehaviour)
  : option InternalPortalEvent * PortalBehaviour :=
  if decide (provider_query s = Some id) then
    let s := match found with
             | Some providers =>
                 mkPortalBehaviour (portal_kad s) (provider_query s)
                   (foldl (fun acc p => {[p]} ∪ acc) (providers_list s) providers)
             | None => s
             end in
    if last then
      (Some (LogListeners (elements (providers_list s))), mkPortalBehaviour (portal_kad s) None ∅)
    else (None, s)
  else (None, s).

Definition portal_on_base_event (ev : BaseBehaviourEvent PeerId QueryId) (s : PortalBehaviour)
  : option InternalPortalEvent * PortalBehaviour :=
  match ev with
  | BE_ProviderRecord id found last => on_provider_record id found last s
  | _ => (None, s)
  end.

Definition update_portal_logs_listeners (s : PortalBehaviour) : PortalBehaviour :=
  match provider_query s with
  | Some _ => s
  | None =>
      let '(query_id, k) := get_providers (portal_kad s) in
      mkPortalBehaviour k (Some query_id) (providers_list s)
  end.

Definition portal_on_inner_event {Cmd} (ev : BaseBehaviourEvent PeerId QueryId) (s : PortalBehaviour)
  : list (Wrapped.ToSwarm InternalPortalEvent Cmd) * PortalBehaviour :=
  let '(out, s) := portal_on_base_event ev s in
  (match out with Some e => [GenerateEvent e] | None => [] end, s).

(** What the three steps of a log sending give ([get_raw_stream], [write_all],
    [close]), or that it takes longer than [log_sending_timeout]. *)
Inductive LogSending (Stream : Type) :=
| LogSendingTimedOut
| LogSendingRan (raw : res RequestError Stream) (write close : res IoError unit).
Arguments LogSendingTimedOut {Stream}.
Arguments LogSendingRan {Stream} raw write close.

(** [anyhow::Error] carries either error. *)
Definition send_logs_to_listener {Stream} (io : LogSending Stream) : res (RequestError + IoError) unit :=
  match io with
  | LogSendingTimedOut => Err (inl (ReqTimeout TimeoutConnect))
  | LogSendingRan (Ok _) (Ok _) (Ok _) => Ok tt
  | LogSendingRan (Ok _) (Ok _) (Err e) | LogSendingRan (Ok _) (Err e) _ => Err (inr e)
  | LogSendingRan (Err e) _ _ => Err (inl e)
  | _ => Panic
  end.

(** [send_logs]: the encoded logs go to every listener; the results are only
    logged. *)
Definition send_logs {PortalLogs R} `{!ProstMessage PortalLogs} (send : PeerId -> bytes -> R)
    (log_listeners : list PeerId) (logs : PortalLogs) : list R :=
  let buffer := encode_to_vec logs in
  (fun listener => send listener buffer) <$> log_listeners.

End Portal.

(** ** worker.rs *)

Section Worker.
Context {PeerId Stream : Type}.

Inductive WorkerEvent :=
| WQuery (peer_id : PeerId) (request : bytes) (resp_chan : ResponseSender Stream)
| WSqlQuery (peer_id : PeerId) (request : bytes) (resp_chan : ResponseSender Stream)
| WLogsRequest (peer_id : PeerId) (request : bytes) (resp_chan : ResponseSender Stream)
| WStatusRequest (peer_id : PeerId) (resp_chan : ResponseSender Stream).

(** The closure [server_config] of [WorkerBehaviour::new]; [timeout] is
    [query_execution_timeout]. *)
Definition server_config (timeout max_request_size max_response_size : Z) : ServerConfig :=
  mkServerConfig max_request_size max_response_size timeout timeout
    (incoming_capacity default_server_config) (requests_queue_size default_server_config).

Definition query_server (timeout : Z) : ServerConfig := server_config timeout MAX_QUERY_MSG_SIZE MAX_QUERY_RESULT_SIZE.
Definition sql_query_server (timeout : Z) : ServerConfig :=
  server_config timeout MAX_SQL_QUERY_MSG_SIZE MAX_QUERY_RESULT_SIZE.
Definition logs_server (timeout : Z) : ServerConfig := server_config timeout MAX_LOGS_REQUEST_SIZE MAX_LOGS_RESPONSE_SIZE.
Definition status_server (timeout : Z) : ServerConfig := server_config timeout 0 MAX_HEARTBEAT_SIZE.

Definition on_query (req : Request PeerId Stream) : option WorkerEvent :=
  match rq_request req with
  | [] => None
  | request => Some (WQuery (rq_peer_id req) request (rq_response_sender req))
  end.

Definition on_sql_query (req : Request PeerId Stream) : option WorkerEvent :=
  match rq_request req with
  | [] => None
  | request => Some (WSqlQuery (rq_peer_id req) request (rq_response_sender req))
  end.

Definition on_logs_request (req : Request PeerId Stream) : option WorkerEvent :=
  Some (WLogsRequest (rq_peer_id req) (rq_request req) (rq_response_sender req)).

Definition on_status_request (req : Request PeerId Stream) : option WorkerEvent :=
  Some (WStatusRequest (rq_peer_id req) (rq_response_sender req)).

(** The events of [InnerBehaviour]. *)
Inductive WorkerInnerEvent (BaseEv : Type) :=
| WI_Base (ev : BaseEv)
| WI_Query (req : Request PeerId Stream)
| WI_SqlQuery (req : Request PeerId Stream)
| WI_Logs (req : Request PeerId Stream)
| WI_Status (req : Request PeerId Stream).

Definition worker_on_base_event {BaseEv} (ev : BaseEv) : option WorkerEvent := None.

Definition worker_on_inner_event {BaseEv Cmd} (ev : WorkerInnerEvent BaseEv) : list (Wrapped.ToSwarm WorkerEvent Cmd) :=
  let ev := match ev with
            | WI_Base _ ev => worker_on_base_event ev
            | WI_Query _ req => on_query req
            | WI_SqlQuery _ req => on_sql_query req
            | WI_Logs _ req => on_logs_request req
            | WI_Status _ req => on_status_request req
            end in
  match ev with Some e => [GenerateEvent e] | None => [] end.

End Worker.

Arguments WorkerEvent PeerId Stream : clear implicits.

(** ** portal_logs_collector.rs *)

Section LogsCollector.
Context {PeerId QueryId QueryFinished RespChan : Type}.

Inductive PortalLogsCollectorEvent := LogQuery (peer_id : PeerId) (logs : list QueryFinished).

(** [PortalLogsCollectorBehaviour]: whether advertisement has started, what it has
    asked of Kademlia (newest first), and the responses it has sent. *)
Inductive ProviderCall := StartProviding | StopProviding.

Record LogsCollectorBehaviour := mkLogsCollector {
  advertisement_started : bool;
  provider_calls : list ProviderCall;
  responses_sent : list RespChan
}.

Definition LogsCollectorBehaviour_new : LogsCollectorBehaviour := mkLogsCollector false [] [].

(** [starts] is the outcome of [start_providing]: [true] for [Ok]. *)
Definition collector_on_base_event (starts : bool) (ev : BaseBehaviourEvent PeerId QueryId) (s : LogsCollectorBehaviour)
  : option PortalLogsCollectorEvent * LogsCollectorBehaviour :=
  match ev with
  | BE_NetworkConnected step =>
      if SFleb f32_0_3 (confidence_of step) && negb (advertisement_started s) then
        (None, mkLogsCollector (if starts then true else advertisement_started s)
                 (StartProviding :: provider_calls s) (responses_sent s))
      else (None, s)
  | _ => (None, s)
  end.

Definition on_collector_v1_request (peer_id : PeerId) (request : QueryFinished) (resp_chan : RespChan)
    (s : LogsCollectorBehaviour) : option PortalLogsCollectorEvent * LogsCollectorBehaviour :=
  (Some (LogQuery peer_id [request]),
   mkLogsCollector (advertisement_started s) (provider_calls s) (resp_chan :: responses_sent s)).

(** [request] are the [portal_logs] of the message. *)
Definition on_collector_v2_request (peer_id : PeerId) (request : list QueryFinished) (resp_chan : RespChan)
    (s : LogsCollectorBehaviour) : option PortalLogsCollectorEvent * LogsCollectorBehaviour :=
  (Some (LogQuery peer_id request),
   mkLogsCollector (advertisement_started s) (provider_calls s) (resp_chan :: responses_sent s)).

(** [Drop for PortalLogsCollectorBehaviour] *)
Definition collector_drop (s : LogsCollectorBehaviour) : LogsCollectorBehaviour :=
  mkLogsCollector (advertisement_started s) (StopProviding :: provider_calls s) (responses_sent s).

Inductive CollectorInnerEvent :=
| CI_Base (ev : BaseBehaviourEvent PeerId QueryId)
| CI_CollectorV1 (req : RRequest (PeerId := PeerId) (Req := QueryFinished) (Chan := RespChan))
| CI_CollectorV2 (req : RRequest (PeerId := PeerId) (Req := list QueryFinished) (Chan := RespChan)).

Definition collector_on_inner_event {Cmd} (starts : bool) (ev : CollectorInnerEvent) (s : LogsCollectorBehaviour)
  : list (Wrapped.ToSwarm PortalLogsCollectorEvent Cmd) * LogsCollectorBehaviour :=
  let '(out, s) :=
    match ev with
    | CI_Base ev => collector_on_base_event starts ev s
    | CI_CollectorV1 req => on_collector_v1_request (rr_peer_id req) (rr_request req) (rr_response_channel req) s
    | CI_CollectorV2 req => on_collector_v2_request (rr_peer_id req) (rr_request req) (rr_response_channel req) s
    end in
  (match out with Some e => [GenerateEvent e] | None => [] end, s).

End LogsCollector.

(** ** sql_client.rs and observer.rs: events *)

Inductive SQLClientEvent := Connect (confidence : f32).

Definition sql_on_inner_event {PeerId QueryId Cmd} (ev : BaseBehaviourEvent PeerId QueryId)
  : list (Wrapped.ToSwarm SQLClientEvent Cmd) :=
  match ev with
  | BE_NetworkConnected step => [GenerateEvent (Connect (confidence_of step))]
  | _ => []
  end.

Definition observer_on_inner_event {PeerId QueryId ObserverEvent Cmd} (ev : BaseBehaviourEvent PeerId QueryId)
  : list (Wrapped.ToSwarm ObserverEvent Cmd) := [].
