(* ===== verification/ActorProps.v ===== *)
(** * What the actors promise

    A portal's query against a worker's server; the listeners of portal logs; the
    advertisement of a logs collector; the polling of a server. *)

From S2P Require Import Prelude RustStd Instances Base StreamShared StreamProps Wrapped StreamIO.
From S2P Require Import StreamClient Actors.
From Stdlib Require Import ZArith Lia Ascii String SpecFloat.
From stdpp Require Import base sets strings gmap numbers list.

Open Scope Z_scope.

(** Concrete limits are below the largest u64. *)
Ltac size_limits := repeat split; vm_compute; congruence.

(** ** A query, from the portal to the worker and back *)

Section Query.
Context `{BuildProfile} (io_display : IoError -> str) (decode_error : bytes -> str).
Context {Query QueryResult : Type} `{!ProstMessage Query} `{!ProstMessage QueryResult}.

(** The worker's side: [on_query], then the application, which decodes the query,
    executes it and sends the encoded result, or drops the response sender. *)
Definition worker_answers (execute : Query -> option QueryResult) (buf : bytes) : option bytes :=
  match on_query (mkRequest tt buf (mkResponseSender tt 0 0)) with
  | Some (WQuery _ request _) => q ← pb_decode request; r ← execute q; Some (encode_to_vec r)
  | _ => None
  end.

(** The network between them works, up to how it ends a stream that gets no
    response. *)
Definition to_worker (timeout : Z) (execute : Query -> option QueryResult) (dropped : Ending) (buf : bytes)
  : CallIo unit :=
  mkCallIo (Some (Ok tt)) (Some (Ok tt)) (Some (Ok tt))
    (serve (query_server timeout) (worker_answers execute) dropped (mkIncoming buf Eof)).

(** What a portal reports when no response comes. *)
Definition unanswered (dropped : Ending) : res QueryFailure QueryResult :=
  match dropped with
  | Eof => Err (InvalidResponse (lit "Empty response"))
  | Broken e => Err (TransportError (io_display e))
  | Stalled => Err (QueryTimeout TimeoutRequest)
  end.

Context `{!ProstLaws Query} `{!ProstLaws QueryResult}.

Lemma worker_answers_encoded execute (q : Query) : encode_to_vec q <> [] ->
  worker_answers execute (encode_to_vec q) = encode_to_vec <$> execute q.
Proof.
  intros Hne. unfold worker_answers, on_query. cbn [rq_request].
  destruct (encode_to_vec q) as [|x l] eqn:E; [done|]. rewrite <- E, pb_decode_encode. cbn.
  by destruct (execute q).
Qed.

Lemma query_limits timeout :
  0 <= sv_max_request_size (query_server timeout) < u64_max /\ 0 <= cl_max_response_size portal_query_config < u64_max.
Proof. size_limits. Qed.

(** C23: A query reaches the worker as it was sent and its result comes back as it was
    produced.  Between a portal and a worker with their own limits, [send_query]
    returns exactly the result of executing the query, provided the query is at
    most [MAX_QUERY_MSG_SIZE] bytes and neither encoding is empty and the result
    at most [MAX_QUERY_RESULT_SIZE] bytes; a larger query is refused without
    being sent; and in every other case (the worker gives no answer, or too large
    a one) the portal reports a failure, never a result. *)
Theorem portal_query_correct timeout execute dropped (q : Query) :
  encode_to_vec q <> [] ->
  send_query io_display decode_error portal_query_config q (to_worker timeout execute dropped) =
    if MAX_QUERY_MSG_SIZE <? encoded_len q then
      Err (InvalidRequest (lit "Query size too large: " ++ u64_to_string (encoded_len q)))
    else match execute q with
         | None => unanswered dropped
         | Some r =>
             if MAX_QUERY_RESULT_SIZE <? encoded_len r then unanswered dropped
             else if encoded_len r =? 0 then Err (InvalidResponse (lit "Empty response"))
             else Ok r
         end.
Proof.
  intros Hne. unfold send_query. cbv zeta. destruct (Z.ltb_spec MAX_QUERY_MSG_SIZE (encoded_len q)) as [|Hq]; [done|].
  destruct (query_limits timeout) as [Ls Lc].
  pose proof (exchange_correct portal_query_config (query_server timeout) (worker_answers execute) dropped
    (encode_to_vec q) Ls Lc) as E. unfold exchange in E. unfold to_worker. rewrite E; clear E.
  rewrite worker_answers_encoded by done. rewrite encoded_len_length in Hq.
  change (sv_max_request_size (query_server timeout)) with MAX_QUERY_MSG_SIZE.
  change (sv_max_response_size (query_server timeout)) with MAX_QUERY_RESULT_SIZE.
  change (cl_max_response_size portal_query_config) with MAX_QUERY_RESULT_SIZE.
  rewrite (proj2 (Z.leb_le _ _) Hq). destruct (execute q) as [r|]; cbn [fmap option_fmap option_map].
  - rewrite encoded_len_length. destruct (Z.leb_spec (len (encode_to_vec r)) MAX_QUERY_RESULT_SIZE),
      (Z.ltb_spec MAX_QUERY_RESULT_SIZE (len (encode_to_vec r))); try lia; [|by destruct dropped].
    pose proof (pb_decode_encode r) as D. destruct (encode_to_vec r) as [|x l]; [done|]. rewrite D.
    by destruct (Z.eqb_spec (len (x :: l)) 0).
  - by destruct dropped.
Qed.

End Query.

(** ** Answers that never came *)

Section Empty.
Context `{BuildProfile} (io_display : IoError -> str) (decode_error : bytes -> str).

(** A worker that drops its response sender, over a transport that then ends the
    stream without an error. *)
Definition silent_worker (config : ServerConfig) (buf : bytes) : CallIo unit :=
  mkCallIo (Some (Ok tt)) (Some (Ok tt)) (Some (Ok tt))
    (serve config (fun _ => None) Eof (mkIncoming buf Eof)).

Lemma silent_response client server buf :
  0 <= sv_max_request_size server < u64_max -> 0 <= cl_max_response_size client < u64_max ->
  request_response client (silent_worker server buf) = Ok [].
Proof.
  intros Hs Hc. pose proof (exchange_correct client server (fun _ => None) Eof buf Hs Hc) as E.
  unfold exchange in E. unfold silent_worker. rewrite E. by destruct (_ <=? _).
Qed.

(** C35: An answer that never came is taken for a message.  protobuf decodes no bytes
    as the message with all fields at their defaults, and neither the pings
    collector nor the logs collector checks for an empty response: when a worker
    drops its response sender and the transport ends the stream cleanly, they
    report a default heartbeat, or logs, as a success, while the portal reports a
    failure for the same stream. *)
Theorem dropped_answers_are_taken_for_messages {Heartbeat LogsRequest QueryLogs Query QueryResult}
    `{!ProstMessage Heartbeat} `{!ProstMessage LogsRequest} `{!ProstMessage QueryLogs}
    `{!ProstMessage Query} `{!ProstMessage QueryResult}
    (hb : Heartbeat) (ql : QueryLogs) (request : LogsRequest) (q : Query) timeout rt ct :
  pb_decode [] = Some hb -> pb_decode [] = Some ql ->
  encoded_len request <= MAX_LOGS_REQUEST_SIZE -> encoded_len q <= MAX_QUERY_MSG_SIZE ->
  request_heartbeat decode_error (pings_config rt ct) (silent_worker (status_server timeout)) = Ok hb /\
  request_logs io_display decode_error logs_request_config request (silent_worker (logs_server timeout)) = Ok ql /\
  send_query (QueryResult := QueryResult) io_display decode_error portal_query_config q
    (silent_worker (query_server timeout)) = Err (InvalidResponse (lit "Empty response")).
Proof.
  intros Hh Hl Hr Hq. split_and!.
  - unfold request_heartbeat. rewrite silent_response by size_limits. by rewrite Hh.
  - unfold request_logs. cbv zeta. destruct (Z.ltb_spec MAX_LOGS_REQUEST_SIZE (encoded_len request)); [lia|].
    rewrite silent_response by size_limits. by rewrite Hl.
  - unfold send_query. cbv zeta. destruct (Z.ltb_spec MAX_QUERY_MSG_SIZE (encoded_len q)); [lia|].
    by rewrite silent_response by size_limits.
Qed.

End Empty.

(** ** The listeners of portal logs *)

Section Listeners.
Context {PeerId QueryId Kad : Type} `{Countable PeerId} `{EqDecision QueryId}.
Context (get_providers : Kad -> QueryId * Kad).

Notation PortalBehaviour := (@PortalBehaviour PeerId QueryId Kad _ _).

(** What reaches the portal behaviour: the tick of the lookup interval, or an event
    of the base behaviour. *)
Inductive PortalOp := Tick | BaseEvent (ev : BaseBehaviourEvent PeerId QueryId).

Definition portal_op (op : PortalOp) (s : PortalBehaviour) : option InternalPortalEvent * PortalBehaviour :=
  match op with
  | Tick => (None, update_portal_logs_listeners get_providers s)
  | BaseEvent ev => portal_on_base_event ev s
  end.

Fixpoint portal_run (ops : list PortalOp) (s : PortalBehaviour) : list InternalPortalEvent * PortalBehaviour :=
  match ops with
  | [] => ([], s)
  | op :: ops =>
      let '(out, s) := portal_op op s in
      let '(outs, s) := portal_run ops s in
      (option_list out ++ outs, s)
  end.

(** The providers named by the records of query [id] among [ops]. *)
Definition providers_of (id : QueryId) (ops : list PortalOp) : list PeerId :=
  ops ≫= fun op =>
    match op with
    | BaseEvent (BE_ProviderRecord id' (Some ps) _) => if decide (id' = id) then ps else []
    | _ => []
    end.

(** No record among [ops] ends query [id]. *)
Definition still_running (id : QueryId) (ops : list PortalOp) : Prop :=
  forall found, BaseEvent (BE_ProviderRecord id found true) ∉ ops.

Lemma foldl_insert (l : list PeerId) (acc : gset PeerId) :
  foldl (fun acc p => {[p]} ∪ acc) acc l = list_to_set l ∪ acc.
Proof.
  revert acc; induction l as [|p l IH]; intros acc; cbn; [set_solver|]. rewrite IH. set_solver.
Qed.

Lemma on_provider_record_running (id : QueryId) found (k : Kad) (l : gset PeerId) :
  on_provider_record id found false (mkPortalBehaviour k (Some id) l) =
    (None, mkPortalBehaviour k (Some id) (list_to_set (default [] found) ∪ l)).
Proof.
  unfold on_provider_record. rewrite decide_True by done. destruct found; cbn; [by rewrite foldl_insert|].
  by rewrite (left_id_L ∅ (∪)).
Qed.

(** While query [id] runs, its providers accumulate and nothing is reported. *)
Lemma portal_run_running (id : QueryId) ops (k : Kad) (l : gset PeerId) : still_running id ops ->
  portal_run ops (mkPortalBehaviour k (Some id) l) =
    ([], mkPortalBehaviour k (Some id) (list_to_set (providers_of id ops) ∪ l)).
Proof.
  revert l; induction ops as [|op ops IH]; intros l Hs; cbn; [by rewrite (left_id_L ∅ (∪))|].
  assert (Hs' : still_running id ops) by (intros f Hin; apply (Hs f); by right).
  destruct op as [|[id' found last|step]]; cbn; [by rewrite IH| |by rewrite IH].
  destruct (decide (id' = id)) as [->|Hne].
  - destruct last; [exfalso; apply (Hs found); by left|]. rewrite on_provider_record_running.
    rewrite IH by done. cbn. destruct found as [ps|]; cbn; rewrite ?decide_True by done.
    + rewrite list_to_set_app_L. do 2 f_equal. set_solver.
    + do 2 f_equal. set_solver.
  - unfold on_provider_record. rewrite decide_False by (cbn; congruence). rewrite IH by done. cbn.
    by destruct found.
Qed.

Lemma portal_run_app ops ops' (s : PortalBehaviour) :
  portal_run (ops ++ ops') s =
    let '(outs, s) := portal_run ops s in
    let '(outs', s) := portal_run ops' s in (outs ++ outs', s).
Proof.
  revert s; induction ops as [|op ops IH]; intros s; cbn; [by destruct (portal_run ops' s)|].
  destruct (portal_op op s) as [out s1]. rewrite IH. destruct (portal_run ops s1) as [outs s2].
  destruct (portal_run ops' s2) as [outs' s3]. by rewrite app_assoc.
Qed.

(** The listeners a portal sends its logs to are the providers of the last
    complete lookup.  A tick without a lookup in progress starts one; until its
    last record nothing is reported and further ticks start no second lookup;
    records of other queries are ignored; and the last record reports each peer
    that some record of this lookup named, once, and clears the list for the next
    one. *)
Theorem listeners_are_the_providers k ops found :
  let id := fst (get_providers k) in
  let s0 := mkPortalBehaviour k None ∅ in
  still_running id ops ->
  exists l s,
    portal_run (Tick :: ops ++ [BaseEvent (BE_ProviderRecord id found true)]) s0 = ([LogListeners l], s) /\
    s = mkPortalBehaviour (snd (get_providers k)) None ∅ /\
    NoDup l /\
    (forall p, p ∈ l <-> p ∈ providers_of id (ops ++ [BaseEvent (BE_ProviderRecord id found true)])).
Proof.
  intros id s0 Hs; subst id s0. cbn [portal_run portal_op]. unfold update_portal_logs_listeners. cbn.
  destruct (get_providers k) as [id k'] eqn:Ek. cbn in *.
  rewrite portal_run_app, portal_run_running by exact Hs. cbn.
  unfold on_provider_record. rewrite decide_True by done. cbn.
  eexists _, _; split_and!; [done|by destruct found|apply NoDup_elements|].
  intros p. rewrite elem_of_elements. unfold providers_of. rewrite bind_app, elem_of_app. cbn.
  destruct found as [ps|]; cbn; rewrite ?foldl_insert, ?decide_True, ?app_nil_r by done; set_solver.
Qed.

End Listeners.

(** ** Advertisement *)

(** Confidence 0.3 is reached at the third step, in the arithmetic of [f32]. *)
Lemma advertisement_threshold step : (step <= 10)%nat -> SFleb f32_0_3 (confidence_of step) = (3 <=? step)%nat.
Proof.
  intros Hs. do 11 (destruct step as [|step]; [vm_compute; reflexivity|]). lia.
Qed.

Section Advertise.
Context {PeerId QueryId QueryFinished RespChan : Type}.

Notation Collector := (@LogsCollectorBehaviour RespChan).

(** The base events of a run, each with the outcome [start_providing] would have. *)
Fixpoint collector_run (evs : list (bool * nat)) (s : Collector) : Collector :=
  match evs with
  | [] => s
  | (starts, step) :: evs =>
      collector_run evs (snd (collector_on_base_event (PeerId := PeerId) (QueryId := QueryId)
        (QueryFinished := QueryFinished) starts (BE_NetworkConnected step) s))
  end.

(** The attempts a run makes: at every rise to 0.3 or above, up to and including
    the first that succeeds. *)
Fixpoint attempts (evs : list (bool * nat)) : list bool :=
  match evs with
  | [] => []
  | (starts, step) :: evs =>
      if (3 <=? step)%nat then if starts then [true] else false :: attempts evs else attempts evs
  end.

Lemma collector_run_started evs (s : Collector) : advertisement_started s = true -> collector_run evs s = s.
Proof.
  intros Hs. induction evs as [|[starts step] evs IH]; cbn; [done|]. by rewrite Hs, andb_false_r.
Qed.

(** A logs collector advertises itself once the network confidence reaches 0.3 and
    not before: it asks Kademlia at each rise from there on until one attempt
    succeeds, never after, and knows whether it has succeeded. *)
Theorem collector_advertises_once evs calls resp :
  Forall (fun e => (e.2 <= 10)%nat) evs ->
  let s := collector_run evs (mkLogsCollector false calls resp) in
  provider_calls s = replicate (length (attempts evs)) StartProviding ++ calls /\
  (advertisement_started s = true <-> true ∈ attempts evs) /\
  (forall i, attempts evs !! i = Some true -> S i = length (attempts evs)).
Proof.
  intros Hall. revert calls; induction Hall as [|[starts step] evs Hs Hall IH]; intros calls; cbn -[Nat.leb SFleb].
  - split_and!; [done|split; [done|by intros ?%not_elem_of_nil]|done].
  - cbn in Hs. rewrite advertisement_threshold, andb_true_r by done. destruct (3 <=? step)%nat; cbn -[Nat.leb SFleb]; [|apply IH].
    destruct starts.
    + rewrite collector_run_started by done. cbn. split_and!; [done|set_solver|by intros [|[]]].
    + destruct (IH (StartProviding :: calls)) as (A & B & C). split_and!.
      * rewrite A. change (length (false :: attempts evs)) with (S (length (attempts evs))).
        rewrite replicate_S_end, <- app_assoc. done.
      * rewrite B. set_solver.
      * intros [|i] Hi; cbn in Hi; [done|]. apply C in Hi. cbn. lia.
Qed.

End Advertise.

(** ** The polling of a server *)

Section ServerPoll.
Context {PeerId Stream Chan : Type} `{Countable Chan}.
Context `{!Mpsc Chan (Request PeerId Stream)} `{!Mpsc Chan (PeerId * Stream)}.
Context `{!MpscLaws Chan (PeerId * Stream)} `{!MpscLaws Chan (Request PeerId Stream)}.

(** All that has arrived is taken up, in order; the channel stays as open as it was. *)
Lemma server_accept_all fuel (s : ServerBehaviour PeerId Stream Chan) inc :
  (length (mpsc_queue (sv_incoming s) inc) < fuel)%nat ->
  exists inc', server_accept fuel s inc =
    (mkServer (sv_incoming s) (sv_config s) (sv_requests s) (sv_reading s ++ mpsc_queue (sv_incoming s) inc), inc') /\
    mpsc_queue (sv_incoming s) inc' = [] /\
    mpsc_is_closed (sv_incoming s) inc' = mpsc_is_closed (sv_incoming s) inc.
Proof.
  revert s inc; induction fuel as [|fuel IH]; intros s inc Hf; [lia|]. cbn.
  destruct (mpsc_queue (sv_incoming s) inc) as [|[p st] q] eqn:Eq.
  - destruct (mpsc_try_next_nil _ _ Eq) as (h & -> & _ & Hq & Hc). exists h. rewrite app_nil_r. by destruct s.
  - destruct (mpsc_try_next_cons _ _ _ _ Eq) as (h & -> & _ & Hq & Hc).
    destruct (IH (spawn_read_task p st s) h) as (inc' & -> & Hq' & Hc'); [cbn; rewrite Hq; cbn in Hf; lia|].
    exists inc'. split_and!; [cbn; by rewrite Hq, <- app_assoc|done|]. cbn in Hc'. by rewrite Hc'.
Qed.

(** A poll of a stream server takes up every inbound stream that has arrived,
    in order and each once, and hands out the oldest request that has been read;
    it leaves none of the streams behind. *)
Theorem server_poll_correct (s : ServerBehaviour PeerId Stream Chan) inc h :
  exists inc' h',
    server_poll s inc h =
      (head (mpsc_queue (sv_requests s) h),
       mkServer (sv_incoming s) (sv_config s) (sv_requests s) (sv_reading s ++ mpsc_queue (sv_incoming s) inc),
       inc', h') /\
    mpsc_queue (sv_incoming s) inc' = [] /\
    mpsc_is_closed (sv_incoming s) inc' = mpsc_is_closed (sv_incoming s) inc /\
    mpsc_queue (sv_requests s) h' = tail (mpsc_queue (sv_requests s) h).
Proof.
  unfold server_poll. destruct (server_accept_all (S (length (mpsc_queue (sv_incoming s) inc))) s inc)
    as (inc' & -> & Hq & Hc); [lia|]. cbn. exists inc'.
  destruct (mpsc_queue (sv_requests s) h) as [|r q] eqn:Er.
  - destruct (mpsc_try_next_nil _ _ Er) as (h' & -> & _ & Hq' & _). by exists h'.
  - destruct (mpsc_try_next_cons _ _ _ _ Er) as (h' & -> & _ & Hq' & _). by exists h'.
Qed.

End ServerPoll.

(** * Concrete runs of the actors *)

Definition no_text {A} (_ : A) : str := [].

Lemma portal_query_correct_witness :
  send_query (H := debug_profile) no_text no_text portal_query_config ([1; 2] : list Z)
    (to_worker (H := debug_profile) 20 (fun q : list Z => Some (9 :: q)) Eof) = Ok ([9; 1; 2] : list Z).
Proof.
  rewrite (portal_query_correct (H := debug_profile) no_text no_text (Query := list Z) (QueryResult := list Z)) by done.
  reflexivity.
Defined.

Lemma dropped_answers_witness :
  request_heartbeat (H := debug_profile) (Heartbeat := list Z) no_text (pings_config 15 10)
    (silent_worker (H := debug_profile) (status_server 20)) = Ok [].
Proof.
  exact (proj1 (dropped_answers_are_taken_for_messages (H := debug_profile) no_text no_text
    (Heartbeat := list Z) (LogsRequest := list Z) (QueryLogs := list Z) (Query := list Z) (QueryResult := list Z)
    [] [] [] [] 20 15 10 eq_refl eq_refl ltac:(vm_compute; congruence) ltac:(vm_compute; congruence))).
Defined.

(** Kademlia numbers its queries. *)
Definition demo_get_providers (k : nat) : nat * nat := (k, S k).

Definition demo_record (l : list Z) : PortalOp (PeerId := Z) (QueryId := nat) :=
  BaseEvent (BE_ProviderRecord 0%nat (Some l) false).

Lemma demo_still_running : still_running 0%nat [demo_record [5; 6]; Tick; demo_record [6]].
Proof. intros found Hin. unfold demo_record in Hin. repeat (apply elem_of_cons in Hin as [Hin|Hin]; [discriminate|]). by apply not_elem_of_nil in Hin. Qed.

Lemma listeners_are_the_providers_witness :
  exists l s,
    portal_run demo_get_providers
      (Tick :: [demo_record [5; 6]; Tick; demo_record [6]] ++ [BaseEvent (BE_ProviderRecord 0%nat None true)])
      (mkPortalBehaviour 0%nat None ∅) = ([LogListeners l], s) /\ 6 ∈ l.
Proof.
  destruct (listeners_are_the_providers demo_get_providers 0%nat [demo_record [5; 6]; Tick; demo_record [6]] None
    demo_still_running) as (l & s & E & _ & _ & I).
  exists l, s. split; [exact E|]. apply I. cbn. right. left.
Defined.

Lemma collector_advertises_once_witness :
  provider_calls (collector_run (PeerId := Z) (QueryId := Z) (QueryFinished := Z)
    [(true, 2%nat); (false, 3%nat); (true, 4%nat); (true, 5%nat)] (mkLogsCollector (RespChan := Z) false [] []))
  = [StartProviding; StartProviding].
Proof.
  exact (proj1 (collector_advertises_once (PeerId := Z) (QueryId := Z) (QueryFinished := Z) (RespChan := Z)
    [(true, 2%nat); (false, 3%nat); (true, 4%nat); (true, 5%nat)] [] []
    ltac:(repeat constructor; cbn; lia))).
Defined.

Definition demo_incoming : Chans nat (Z * Z) :=
  tc_set_queue 0 [(5, 50); (6, 60)] (snd (mpsc_channel (Chan := nat) (T := Z * Z) 8 no_chans)).

Definition demo_requests : Chans nat (Request Z Z) := (no_chans : ToyChans (Request Z Z)).

Lemma server_poll_correct_witness :
  exists inc' h', server_poll (PeerId := Z) (Stream := Z) (Chan := nat) (mkServer 0%nat default_server_config 0%nat []) demo_incoming
    demo_requests =
    (None, mkServer 0%nat default_server_config 0%nat [(5, 50); (6, 60)], inc', h').
Proof.
  destruct (server_poll_correct (PeerId := Z) (Stream := Z) (Chan := nat) (mkServer 0%nat default_server_config 0%nat []) demo_incoming
    demo_requests) as (inc' & h' & E & _).
  exists inc', h'. exact E.
Defined.

(** ** Wrapped: a behaviour that counts down, producing an event per poll *)

#[global] Instance countdown : BehaviourWrapper nat Z Z Z nat Z := {|
  inner_on_swarm_event _ w := w;
  inner_on_handler_event _ w := w;
  inner_poll w := (None, w);
  w_on_swarm_event _ w := ([], w);
  w_on_inner_event _ w := ([], w);
  w_poll w := match w with O => (None, O) | S n => (Some [GenerateEvent (S n)], n) end
|}.

Lemma countdown_progress : quiet_progress (BW := countdown) (fun _ => 0%nat).
Proof. split_and!; cbn; [intros [|n] w' E; discriminate|lia|discriminate]. Qed.

Lemma wrapped_keeps_order_witness :
  exists w', produces (BW := countdown) 2%nat [GenerateEvent 2%nat; GenerateEvent 1%nat] w'.
Proof.
  destruct (wrapped_keeps_order (BW := countdown) (fun _ => 0%nat) [OpPoll; OpSwarmEvent 0; OpPoll; OpPoll] 2%nat
    countdown_progress) as (fuel & out & s' & E & P & _).
  specialize (E (fuel + 4)%nat (Nat.le_add_r _ _)).
  assert (R : wrapped_run (BW := countdown) (fuel + 4) [OpPoll; OpSwarmEvent 0; OpPoll; OpPoll] (wrapped_from 2%nat)
    = Some ([GenerateEvent 2%nat; GenerateEvent 1%nat], mkWrapped 0%nat [])).
  { rewrite Nat.add_comm. reflexivity. }
  rewrite R in E. injection E as <- <-. exists 0%nat. exact P.
Defined.
