(* ===== verification/Tasks.v ===== *)
(** * Background tasks (crates/transport/src/util/task_manager.rs)

    [TaskManager] with tokio's tasks by number and its cancellation token as a
    flag that child tokens share; the loop of [spawn_periodic], round by round. *)

From S2P Require Import Prelude.
From Stdlib Require Import ZArith Lia.
From stdpp Require Import base numbers list.

Inductive RuntimeFlavor := CurrentThread | MultiThread.

Record TaskManager := mkTaskManager {
  shutdown_timeout : Z;
  cancelled : bool;
  tasks : list nat
}.

(** [TaskManager::new], called in a runtime of the given flavor. *)
Definition task_manager_new {E} (flavor : RuntimeFlavor) (timeout : Z) : res E TaskManager :=
  match flavor with
  | CurrentThread => Panic
  | MultiThread => Ok (mkTaskManager timeout false [])
  end.

(** [spawn]; [handle] is the task tokio starts. *)
Definition tm_spawn {E} (handle : nat) : comp TaskManager E unit :=
  (s <- cget ;;
   clift (assert (negb (cancelled s))) ;;;
   cmodify (fun s => mkTaskManager (shutdown_timeout s) (cancelled s) (tasks s ++ [handle])))%rust.

Definition tm_cancel (s : TaskManager) : TaskManager := mkTaskManager (shutdown_timeout s) true (tasks s).

(** How the join of a task ends, under the shutdown timeout. *)
Inductive JoinOutcome := Joined | JoinFailed | JoinTimedOut.

(** [await_stop]: every task is joined; the outcomes are only logged. *)
Definition await_stop (join : nat -> JoinOutcome) (s : TaskManager) : list (nat * JoinOutcome) * TaskManager :=
  let s := tm_cancel s in
  ((fun t => (t, join t)) <$> tasks s, mkTaskManager (shutdown_timeout s) (cancelled s) []).

(** [Drop for TaskManager] *)
Definition task_manager_drop (join : nat -> JoinOutcome) (s : TaskManager) : TaskManager := snd (await_stop join s).

(** ** [spawn_periodic]

    A round of the loop, as the environment has it: the token may be cancelled
    from outside before it; [tick_ready] says whether the interval has ticked when
    [select!] looks (if not, the loop waits for whichever comes first); when both
    branches are ready [select!] picks one at random; and the task may cancel its
    own token. *)
Record Round := mkRound {
  cancelled_before : bool;
  tick_ready : bool;
  picks_tick : bool;
  task_cancels : bool
}.

(** How the loop stands after some rounds: the runs of the task so far, each with
    whether the token was already cancelled when it began. *)
Inductive Loop := Running (token_cancelled : bool) | Broken_out.

Definition periodic_round (r : Round) (l : Loop) : list bool * Loop :=
  match l with
  | Broken_out => ([], Broken_out)
  | Running token =>
      let token := token || cancelled_before r in
      let tick := if token then tick_ready r && picks_tick r else true in
      if tick then ([token], Running (token || task_cancels r)) else ([], Broken_out)
  end.

Fixpoint periodic_run (rs : list Round) (l : Loop) : list bool * Loop :=
  match rs with
  | [] => ([], l)
  | r :: rs =>
      let '(runs, l) := periodic_round r l in
      let '(runs', l) := periodic_run rs l in
      (runs ++ runs', l)
  end.

(** A task manager never leaves a task behind: [spawn] starts a task unless the
    manager has been cancelled, in which case it panics and changes nothing;
    stopping joins every task that was started, in order and each once, and leaves
    the manager cancelled and empty, whatever the joins give. *)
Theorem task_manager_correct handles h join s :
  let '(r, s') := tm_spawn (E := unit) h s in
  (cancelled s = false -> r = Ok tt /\ tasks s' = tasks s ++ [h] /\ cancelled s' = false) /\
  (cancelled s = true -> r = Panic /\ s' = s) /\
  (let '(joined, s2) := await_stop join (foldl (fun s h => snd (tm_spawn (E := unit) h s)) s handles) in
   joined.*1 = (if cancelled s then tasks s else tasks s ++ handles) /\
   tasks s2 = [] /\ cancelled s2 = true /\ fst (tm_spawn (E := unit) h s2) = Panic).
Proof.
  assert (G : forall l s, tasks (foldl (fun s h => snd (tm_spawn (E := unit) h s)) s l) =
    if cancelled s then tasks s else tasks s ++ l).
  { induction l as [|x l IH]; intros t; cbn [foldl]; [rewrite app_nil_r; by destruct (cancelled t)|].
    rewrite IH. unfold tm_spawn, cbind, cget, clift, assert, cmodify. destruct t as [d [] ts]; cbn; [done|].
    by rewrite <- app_assoc. }
  destruct (tm_spawn h s) as [r s'] eqn:E. unfold tm_spawn, cbind, cget, clift, assert, cmodify in E.
  split_and!.
  - intros Hc. rewrite Hc in E. cbn in E. by injection E as <- <-.
  - intros Hc. rewrite Hc in E. cbn in E. by injection E as <- <-.
  - unfold await_stop, tm_cancel; cbn. split_and!; try done.
    rewrite <- list_fmap_compose, G. cbn. by destruct (cancelled s); rewrite list_fmap_id.
Qed.

(** A round whose tick comes late stops a cancelled loop. *)
Lemma periodic_stops r token : token || cancelled_before r = true -> tick_ready r = false ->
  periodic_round r (Running token) = ([], Broken_out).
Proof. intros Ht Hr. cbn. by rewrite Ht, Hr. Qed.

(** A periodic task that cancels its own token may be run again.  [select!] picks
    among ready branches at random, so when the interval has already ticked (the
    task took at least that long) the loop can run the task once more although the
    token is cancelled; only a round whose tick is not ready is sure to end it. *)
Theorem periodic_may_run_after_cancel :
  (exists rs, periodic_run rs (Running false) = ([false; true], Running true)) /\
  (forall rs r, snd (periodic_run rs (Running false)) = Running true -> tick_ready r = false ->
     snd (periodic_run (rs ++ [r]) (Running false)) = Broken_out).
Proof.
  split.
  - exists [mkRound false true true true; mkRound false true true false]. reflexivity.
  - intros rs r Hrun Hr.
    enough (G : forall l, snd (periodic_run (rs ++ [r]) l) = snd (periodic_round r (snd (periodic_run rs l)))).
    { rewrite G, Hrun, periodic_stops; done. }
    clear Hrun. induction rs as [|x rs IH]; intros l; cbn [app periodic_run snd].
    + destruct (periodic_round r l) as [o l1]. done.
    + destruct (periodic_round x l) as [o l1]. specialize (IH l1).
      destruct (periodic_run (rs ++ [r]) l1), (periodic_run rs l1). done.
Qed.
