(* ===== verification/Transports.v ===== *)
(** * The transports: event loops, handles and start-up of the actors
    (crates/transport/src/actors)

    Every actor runs its swarm in a task of its own: a loop over [select!] (or
    over [take_until]) that hands the events of the behaviour to the application
    through a bounded queue and ends when its token is cancelled.  A handle keeps
    the task manager alive; dropping the last one cancels the token.

    What the swarm yields is an argument: a loop takes the list of the branches
    that were selected, round by round.  Durations are in seconds. *)

From S2P Require Import Prelude RustStd StreamShared StreamIO StreamClient Base Wrapped Actors Tasks.
From Stdlib Require Import ZArith Lia.
From stdpp Require Import base sets gmap numbers list.

Open Scope Z_scope.

(** libp2p's [SwarmEvent]: an event of the behaviour, or one of the swarm's own. *)
Inductive SwarmEvent (Ev : Type) := BehaviourEv (ev : Ev) | OtherSwarmEvent.
Arguments BehaviourEv {Ev} ev.
Arguments OtherSwarmEvent {Ev}.

Definition DEFAULT_SHUTDOWN_TIMEOUT : Z := 1.

(** ** Loops *)

(** What a round selects: the cancellation, or one of the other branches. *)
Inductive Selected (B : Type) := SelCancelled | SelBranch (b : B).
Arguments SelCancelled {B}.
Arguments SelBranch {B} b.

Inductive LoopState (S : Type) := LoopRunning (s : S) | LoopEnded (s : S).
Arguments LoopRunning {S} s.
Arguments LoopEnded {S} s.

Fixpoint select_loop {B S : Type} (body : B -> S -> S) (rounds : list (Selected B)) (s : S) : LoopState S :=
  match rounds with
  | [] => LoopRunning s
  | SelCancelled :: _ => LoopEnded s
  | SelBranch b :: rounds => select_loop body rounds (body b s)
  end.

(** ** Handles: [Arc<TaskManager>] and the one task spawned *)

Section Start.
Context {E : Type} (flavor : RuntimeFlavor).

(** [XTransportHandle::new]: a manager with the transport's task. *)
Definition transport_handle_new (timeout : Z) : res E TaskManager :=
  match task_manager_new flavor timeout with
  | Ok tm => let '(r, tm) := tm_spawn 0%nat tm in (_ ← r; Ok tm)
  | Err e => Err e
  | Panic => Panic
  end.

(** [new_queue] and the handle, the common part of [start_transport]. *)
Definition start_with_queue {Chan Ev} `{Countable Chan} `{!Mpsc Chan Ev} (size timeout : Z)
    (h : Chans Chan Ev) : res E (Chan * Chans Chan Ev * TaskManager) :=
  q ← new_queue size h;
  tm ← transport_handle_new timeout;
  Ok (q, tm).

End Start.

(** ** worker.rs *)

Section WorkerTransport.
Context {PeerId Stream Chan : Type} `{Countable Chan} `{!Mpsc Chan (WorkerEvent PeerId Stream)}.

Record WorkerConfig := mkWorkerConfig {
  heartbeats_queue_size : Z;
  wk_events_queue_size : Z;
  wk_shutdown_timeout : Z;
  query_execution_timeout : Z;
  send_logs_timeout : Z
}.

Definition default_worker_config : WorkerConfig := mkWorkerConfig 100 100 DEFAULT_SHUTDOWN_TIMEOUT 20 5.

(** [WorkerTransport], without the swarm. *)
Record WorkerTransport := mkWorkerTransport { wt_events_tx : Chan }.

Definition worker_on_swarm_event (t : WorkerTransport) (ev : SwarmEvent (WorkerEvent PeerId Stream))
    (h : Chans Chan (WorkerEvent PeerId Stream)) : Chans Chan (WorkerEvent PeerId Stream) :=
  match ev with
  | BehaviourEv ev => send_lossy (wt_events_tx t) ev h
  | OtherSwarmEvent => h
  end.

Definition worker_run (t : WorkerTransport)
    : list (Selected (SwarmEvent (WorkerEvent PeerId Stream))) ->
      Chans Chan (WorkerEvent PeerId Stream) -> LoopState (Chans Chan (WorkerEvent PeerId Stream)) :=
  select_loop (worker_on_swarm_event t).

(** The events' receiver is the same channel. *)
Definition worker_start_transport {E : Type} (flavor : RuntimeFlavor) (config : WorkerConfig)
    (h : Chans Chan (WorkerEvent PeerId Stream))
    : res E (WorkerTransport * Chans Chan (WorkerEvent PeerId Stream) * TaskManager) :=
  '(tx, h, tm) ← start_with_queue flavor (wk_events_queue_size config) (wk_shutdown_timeout config) h;
  Ok (mkWorkerTransport tx, h, tm).

End WorkerTransport.

(** ** observer.rs *)

Section ObserverTransport.
Context {PeerId Heartbeat Chan : Type} `{Countable Chan}.

Inductive ObserverEvent := ObserverPing (peer_id : PeerId) (ping : Heartbeat).

Context `{!Mpsc Chan ObserverEvent}.

Record ObserverConfig := mkObserverConfig { ob_events_queue_size : Z; ob_shutdown_timeout : Z }.
Definition default_observer_config : ObserverConfig := mkObserverConfig 100 DEFAULT_SHUTDOWN_TIMEOUT.

Record ObserverTransport := mkObserverTransport { ot_events_tx : Chan }.

Definition observer_on_swarm_event (t : ObserverTransport) (ev : SwarmEvent ObserverEvent)
    (h : Chans Chan ObserverEvent) : Chans Chan ObserverEvent :=
  match ev with
  | BehaviourEv ev => send_lossy (ot_events_tx t) ev h
  | OtherSwarmEvent => h
  end.

Definition observer_run (t : ObserverTransport) :
    list (Selected (SwarmEvent ObserverEvent)) -> Chans Chan ObserverEvent -> LoopState (Chans Chan ObserverEvent) :=
  select_loop (observer_on_swarm_event t).

Definition observer_start_transport {E : Type} (flavor : RuntimeFlavor) (config : ObserverConfig)
    (h : Chans Chan ObserverEvent) : res E (ObserverTransport * Chans Chan ObserverEvent * TaskManager) :=
  '(tx, h, tm) ← start_with_queue flavor (ob_events_queue_size config) (ob_shutdown_timeout config) h;
  Ok (mkObserverTransport tx, h, tm).

End ObserverTransport.

(** ** portal_logs_collector.rs *)

Section CollectorTransport.
Context {PeerId QueryFinished Chan : Type} `{Countable Chan}.
Notation CollectorEvent := (PortalLogsCollectorEvent (PeerId := PeerId) (QueryFinished := QueryFinished)).
Context `{!Mpsc Chan CollectorEvent}.

Record PortalLogsCollectorConfig := mkCollectorConfig { lc_events_queue_size : Z; lc_shutdown_timeout : Z }.
Definition default_collector_config : PortalLogsCollectorConfig := mkCollectorConfig 100 DEFAULT_SHUTDOWN_TIMEOUT.

Record PortalLogsCollectorTransport := mkCollectorTransport { lt_events_tx : Chan }.

Definition collector_on_swarm_event (t : PortalLogsCollectorTransport) (ev : SwarmEvent CollectorEvent)
    (h : Chans Chan CollectorEvent) : Chans Chan CollectorEvent :=
  match ev with
  | BehaviourEv ev => send_lossy (lt_events_tx t) ev h
  | OtherSwarmEvent => h
  end.

Definition collector_run (t : PortalLogsCollectorTransport) :
    list (Selected (SwarmEvent CollectorEvent)) -> Chans Chan CollectorEvent -> LoopState (Chans Chan CollectorEvent) :=
  select_loop (collector_on_swarm_event t).

Definition collector_start_transport {E : Type} (flavor : RuntimeFlavor) (config : PortalLogsCollectorConfig)
    (h : Chans Chan CollectorEvent) : res E (PortalLogsCollectorTransport * Chans Chan CollectorEvent * TaskManager) :=
  '(tx, h, tm) ← start_with_queue flavor (lc_events_queue_size config) (lc_shutdown_timeout config) h;
  Ok (mkCollectorTransport tx, h, tm).

End CollectorTransport.

(** ** pings_collector.rs *)

Record PingsCollectorConfig := mkPingsConfig {
  pg_events_queue_size : Z;
  pg_shutdown_timeout : Z;
  pg_request_timeout : Z;
  pg_connect_timeout : Z
}.

Definition default_pings_config : PingsCollectorConfig := mkPingsConfig 1000 DEFAULT_SHUTDOWN_TIMEOUT 15 10.

(** It only records the event. *)
Definition pings_on_swarm_event (ev : SwarmEvent unit) (s : unit) : unit := s.

Definition pings_run : list (Selected (SwarmEvent unit)) -> unit -> LoopState unit :=
  select_loop pings_on_swarm_event.

Section ClientTransports.
Context {PeerId : Type} `{Countable PeerId} `{Semaphore}.

(** The manager and the handle for status requests. *)
Definition pings_start_transport {E : Type} (flavor : RuntimeFlavor) (config : PingsCollectorConfig)
    : res E (TaskManager * StreamClientHandle PeerId) :=
  let stream_handle := new_handle WORKER_STATUS_PROTOCOL
                         (pings_config (pg_request_timeout config) (pg_connect_timeout config)) in
  tm ← transport_handle_new flavor (pg_shutdown_timeout config);
  Ok (tm, stream_handle).

(** ** logs_collector.rs: [take_until] ends the stream once the token is cancelled *)

Record LogsCollectorConfig := mkLogsCollectorConfig { lo_request_config : ClientConfig; lo_shutdown_timeout : Z }.
Definition default_logs_collector_config : LogsCollectorConfig :=
  mkLogsCollectorConfig logs_request_config DEFAULT_SHUTDOWN_TIMEOUT.

Definition logs_collector_run {Ev : Type} : list (Selected (SwarmEvent Ev)) -> unit -> LoopState unit :=
  select_loop (fun _ s => s).

Definition logs_collector_start_transport {E : Type} (flavor : RuntimeFlavor) (config : LogsCollectorConfig)
    : res E (TaskManager * StreamClientHandle PeerId) :=
  let request_handle := new_handle WORKER_LOGS_PROTOCOL (lo_request_config config) in
  tm ← transport_handle_new flavor (lo_shutdown_timeout config);
  Ok (tm, request_handle).

(** ** sql_client.rs: the confidences are broadcast; [sent] are those sent so far,
    and sending without a subscriber is no error *)

Record SQLClientConfig := mkSQLClientConfig { sq_query_config : ClientConfig; sq_shutdown_timeout : Z }.
Definition default_sql_client_config : SQLClientConfig :=
  mkSQLClientConfig portal_query_config DEFAULT_SHUTDOWN_TIMEOUT.

Definition sql_on_swarm_event (ev : SwarmEvent SQLClientEvent) (sent : list f32) : list f32 :=
  match ev with
  | BehaviourEv (Connect confidence) => sent ++ [confidence]
  | OtherSwarmEvent => sent
  end.

Definition sql_run : list (Selected (SwarmEvent SQLClientEvent)) -> list f32 -> LoopState (list f32) :=
  select_loop sql_on_swarm_event.

Definition sql_start_transport {E : Type} (flavor : RuntimeFlavor) (config : SQLClientConfig)
    : res E (TaskManager * StreamClientHandle PeerId * list f32) :=
  let query_handle := new_handle SQL_QUERY_PROTOCOL (sq_query_config config) in
  tm ← transport_handle_new flavor (sq_shutdown_timeout config);
  Ok (tm, query_handle, []).

End ClientTransports.

(** ** portal.rs: two tasks, the swarm's and the one that receives listener lists *)

Section PortalTransport.
Context {PeerId QueryId Kad Chan : Type} `{Countable PeerId} `{EqDecision QueryId} `{Countable Chan}.
Context `{Semaphore} (get_providers : Kad -> QueryId * Kad).

Inductive LogListenersEvent := LogListenersEv (listeners : list PeerId).

Context `{!Mpsc Chan LogListenersEvent}.
Notation Behaviour := (PortalBehaviour (PeerId := PeerId) (QueryId := QueryId) (Kad := Kad)).
Notation Store := (Chans Chan LogListenersEvent).

Record PortalConfig := mkPortalConfig {
  po_query_config : ClientConfig;
  listeners_queue_size : Z;
  po_shutdown_timeout : Z;
  portal_logs_collector_lookup_interval : Z;
  log_sending_timeout : Z
}.

Definition default_portal_config : PortalConfig :=
  mkPortalConfig portal_query_config 20 DEFAULT_SHUTDOWN_TIMEOUT 60 10.

Record PortalTransport := mkPortalTransport { log_listeners_tx : Chan }.

Definition portal_on_swarm_event (t : PortalTransport)
    (ev : SwarmEvent (InternalPortalEvent (PeerId := PeerId))) (h : Store) : Store :=
  match ev with
  | BehaviourEv (LogListeners listeners) => send_lossy (log_listeners_tx t) (LogListenersEv listeners) h
  | OtherSwarmEvent => h
  end.

(** A round of the loop: the interval ticks, or the swarm yields.  In the latter
    case the behaviour has been polled: with an event of the base behaviour, what
    it makes of it is what the swarm yields. *)
Inductive PortalBranch := PortalTick | PortalPolled (ev : BaseBehaviourEvent PeerId QueryId) | PortalOther.

Definition portal_branch (t : PortalTransport) (b : PortalBranch) (st : Behaviour * Store) : Behaviour * Store :=
  let '(s, h) := st in
  match b with
  | PortalTick => (update_portal_logs_listeners get_providers s, h)
  | PortalPolled ev =>
      let '(out, s) := portal_on_base_event ev s in
      (s, match out with Some ev => portal_on_swarm_event t (BehaviourEv ev) h | None => h end)
  | PortalOther => (s, portal_on_swarm_event t OtherSwarmEvent h)
  end.

Definition portal_run (t : PortalTransport) :
    list (Selected PortalBranch) -> Behaviour * Store -> LoopState (Behaviour * Store) :=
  select_loop (portal_branch t).

(** A round of the second task: the next list, if there is one, replaces the shared
    one; an empty queue disables the branch. *)
Definition receive_listeners (t : PortalTransport) (st : Store * list PeerId) : Store * list PeerId :=
  match queue_recv (log_listeners_tx t) (fst st) with
  | (Some (LogListenersEv listeners), h) => (h, listeners)
  | (None, h) => (h, snd st)
  end.

Record PortalTransportHandle := mkPortalHandle {
  ph_task_manager : TaskManager;
  query_handle : StreamClientHandle PeerId;
  logs_handle : StreamClientHandle PeerId;
  log_listeners : list PeerId;
  ph_log_sending_timeout : Z
}.

(** [PortalTransportHandle::new]: tasks 0 and 1 are spawned. *)
Definition portal_handle_new {E : Type} (flavor : RuntimeFlavor) (logs_handle query_handle : StreamClientHandle PeerId)
    (config : PortalConfig) : res E PortalTransportHandle :=
  match transport_handle_new flavor (po_shutdown_timeout config) with
  | Ok tm =>
      let '(r, tm) := tm_spawn 1%nat tm in
      _ ← r; Ok (mkPortalHandle tm query_handle logs_handle [] (log_sending_timeout config))
  | Err e => Err e
  | Panic => Panic
  end.

Definition portal_start_transport {E : Type} (flavor : RuntimeFlavor) (config : PortalConfig) (h : Store)
    : res E (PortalTransport * Store * PortalTransportHandle) :=
  let query := new_handle QUERY_PROTOCOL (po_query_config config) in
  let logs := new_handle PORTAL_LOGS_PROTOCOL_V2 (po_query_config config) in
  q ← new_queue (listeners_queue_size config) h;
  handle ← portal_handle_new flavor logs query config;
  Ok (mkPortalTransport (fst q), snd q, handle).

End PortalTransport.
