(* ===== verification/TransportProps.v ===== *)
(** * What the transports guarantee

    An actor's task, the application that reads its events and the handles it
    holds are a system of parties that take turns: the loop selects a branch, the
    application receives an event or drops its stream, a handle is cloned or
    dropped.  Beside the state, the system records what the loop has handled, what
    the queue took, what it refused, and what the application has received. *)

From S2P Require Import Prelude RustStd Instances Base StreamShared StreamTheory StreamSystem StreamInv.
From S2P Require Import StreamProps Wrapped StreamIO StreamClient Actors Tasks Transports.
From Stdlib Require Import ZArith Lia.
From stdpp Require Import base sets gmap numbers relations list.

Open Scope Z_scope.

(** ** The capacity of a bounded queue

    tokio's channel refuses a message as full only when its capacity is used up. *)
Class BoundedQueue (Chan T : Type) `{Mpsc Chan T} := queue_capacity : Chan -> Chans Chan T -> Z.

Class BoundedQueueLaws (Chan T : Type) `{BoundedQueue Chan T} := {
  capacity_channel n h c h' : mpsc_channel n h = (c, h') -> queue_capacity c h' = n;
  capacity_try_send c x h : queue_capacity c (snd (mpsc_try_send c x h)) = queue_capacity c h;
  capacity_try_next c h : queue_capacity c (snd (mpsc_try_next c h)) = queue_capacity c h;
  capacity_drop_receiver c h : queue_capacity c (snd (mpsc_drop_receiver c h)) = queue_capacity c h;
  try_send_full c x h : fst (mpsc_try_send c x h) = SendFull -> queue_capacity c h <= len (mpsc_queue c h)
}.

(** ** A task with its handles *)

Section Running.
(** [env] is what others do to the state; the flag says whether the token is
    cancelled, which their tasks see too. *)
Context {B S : Type} (body : B -> S -> S) (env : bool -> S -> S -> Prop).

(** [biased]: a loop over [take_until] looks at the token first, so it handles
    nothing once the token is cancelled; [select!] picks among the ready branches. *)
Context (biased : bool).

Record Running := mkRunning {
  rn_state : S;
  rn_manager : TaskManager;
  rn_ended : bool;
  rn_handles : nat
}.

Inductive rstep : Running -> Running -> Prop :=
| rstep_branch b s m n :
    (biased = true -> cancelled m = false) ->
    rstep (mkRunning s m false n) (mkRunning (body b s) m false n)
| rstep_break s m n : cancelled m = true -> rstep (mkRunning s m false n) (mkRunning s m true n)
| rstep_env s s' m e n : env (cancelled m) s s' -> rstep (mkRunning s m e n) (mkRunning s' m e n)
| rstep_clone s m e n : (0 < n)%nat -> rstep (mkRunning s m e n) (mkRunning s m e (1 + n))
| rstep_drop s m e n : rstep (mkRunning s m e (2 + n)) (mkRunning s m e (1 + n))
| rstep_drop_last s m e : rstep (mkRunning s m e 1) (mkRunning s (tm_cancel m) e 0)
| rstep_joined join s m : rstep (mkRunning s m true 0) (mkRunning s (task_manager_drop join m) true 0).

(** The task is told to stop exactly when the last handle is dropped, and does not
    end before. *)
Definition running_ok (r : Running) : Prop :=
  ((0 < rn_handles r)%nat -> cancelled (rn_manager r) = false /\ rn_ended r = false) /\
  (rn_handles r = 0%nat -> cancelled (rn_manager r) = true).

Lemma running_ok_cancelled r : running_ok r -> cancelled (rn_manager r) = true <-> rn_handles r = 0%nat.
Proof.
  intros [Hpos Hzero]. split; [| exact Hzero]. intros Hc. destruct (rn_handles r); [done |].
  destruct Hpos; [lia | congruence].
Qed.

(** A task that has ended handles nothing more. *)
Lemma ended_stays r r' : rtc rstep r r' -> rn_ended r = true ->
  rn_ended r' = true /\ rtc (fun s s' => exists c, env c s s') (rn_state r) (rn_state r').
Proof.
  induction 1 as [| x y z Hxy _ IH]; [done |]. intros He.
  assert (rn_ended y = true /\ rtc (fun s s' => exists c, env c s s') (rn_state x) (rn_state y)) as [Hy Hxs].
  { destruct Hxy; cbn in *; try done. split; [done |]. apply rtc_once. eauto. }
  destruct (IH Hy) as [Hz Hyz]. split; [done |]. by etrans.
Qed.

Lemma rstep_running_ok r r' : rstep r r' -> running_ok r -> running_ok r'.
Proof.
  unfold running_ok. destruct 1; cbn; intros [Hpos Hzero]; split; try tauto; try lia; intros Hn.
  - destruct (Hpos Hn). congruence.
  - apply Hpos. lia.
Qed.

Lemma rtc_running_ok r r' : rtc rstep r r' -> running_ok r -> running_ok r'.
Proof. induction 1; eauto using rstep_running_ok. Qed.

(** What the branches and the environment keep, and the cancellation too, is kept. *)
Lemma rtc_running_inv (I : bool -> S -> Prop) r r' :
  (forall c b s, I c s -> I c (body b s)) -> (forall c s s', env c s s' -> I c s -> I c s') ->
  (forall s, I false s -> I true s) ->
  rtc rstep r r' -> I (cancelled (rn_manager r)) (rn_state r) -> I (cancelled (rn_manager r')) (rn_state r').
Proof.
  intros Hb He Hc. induction 1 as [| x y z Hxy _ IH]; [done |]. intros Hx. apply IH.
  destruct Hxy as [| | | | | s m e | join s m]; cbn in *; eauto; destruct (cancelled m); eauto.
Qed.

(** Once the last handle is gone the loop can end, and then the manager is
    dropped with every task joined. *)
Lemma last_handle_stops r : running_ok r -> rn_handles r = 0%nat ->
  exists r', rtc rstep r r' /\ rn_ended r' = true /\ rn_state r' = rn_state r /\ tasks (rn_manager r') = [].
Proof.
  destruct r as [s m e n]. cbn. intros [_ Hz] ->. specialize (Hz eq_refl). cbn in Hz.
  exists (mkRunning s (task_manager_drop (fun _ => Joined) m) true 0). split_and!; try done.
  assert (rtc rstep (mkRunning s m e 0) (mkRunning s m true 0)) as Hend.
  { destruct e; [done |]. by apply rtc_once, rstep_break. }
  etrans; [exact Hend |]. apply rtc_once, rstep_joined.
Qed.

(** A biased loop handles nothing after the last handle is dropped. *)
Lemma biased_stops_at_once r r' (Hb : biased = true) :
  running_ok r -> rn_handles r = 0%nat -> rstep r r' ->
  rn_handles r' = 0%nat /\ (rn_state r' = rn_state r \/ env true (rn_state r) (rn_state r')).
Proof.
  intros [_ Hz] Hn Hs. destruct Hs; cbn in *; simplify_eq; auto; try lia.
  all: rewrite Hz in *; [| done]; naive_solver.
Qed.

End Running.

Arguments Running S : clear implicits.

(** ** A queue between a loop and its reader *)

Section Observed.
Context {Ev Chan : Type} `{Countable Chan} `{!Mpsc Chan Ev} `{!BoundedQueue Chan Ev}.

Record Observed := mkObserved {
  ob_chans : Chans Chan Ev;
  ob_handled : list Ev;
  ob_accepted : list Ev;
  ob_lost : list (Ev * nat * bool);  (** with how many were unread, and whether the stream was dropped *)
  ob_received : list Ev;
  ob_dropped : bool
}.

Context (tx : Chan).

Definition unread (h : Chans Chan Ev) : nat := length (mpsc_queue tx h).

Definition loop_state {S : Type} (l : LoopState S) : S :=
  match l with LoopRunning s | LoopEnded s => s end.

(** One round of the loop [run]: the store changes as it says; the rest records it. *)
Definition observe (run : list (Selected (SwarmEvent Ev)) -> Chans Chan Ev -> LoopState (Chans Chan Ev))
    (ev : SwarmEvent Ev) (o : Observed) : Observed :=
  let h := ob_chans o in
  let h' := loop_state (run [SelBranch ev] h) in
  match ev with
  | BehaviourEv e =>
      let taken := match fst (mpsc_try_send tx e h) with SendOk => true | _ => false end in
      mkObserved h' (ob_handled o ++ [e])
        (if taken then ob_accepted o ++ [e] else ob_accepted o)
        (if taken then ob_lost o else ob_lost o ++ [(e, unread h, ob_dropped o)])
        (ob_received o) (ob_dropped o)
  | OtherSwarmEvent =>
      mkObserved h' (ob_handled o) (ob_accepted o) (ob_lost o) (ob_received o) (ob_dropped o)
  end.

(** The application polls its stream, or drops it. *)
Inductive reader_step : Observed -> Observed -> Prop :=
| reader_receives h ha ac lo re out h' :
    queue_recv tx h = (out, h') ->
    reader_step (mkObserved h ha ac lo re false) (mkObserved h' ha ac lo (re ++ option_list out) false)
| reader_drops h ha ac lo re :
    reader_step (mkObserved h ha ac lo re false)
      (mkObserved (snd (mpsc_drop_receiver tx h)) ha ac lo re true).

Definition observed_new (h : Chans Chan Ev) : Observed := mkObserved h [] [] [] [] false.

(** A loop that forwards the behaviour's events and ignores the others. *)
Definition forwards (run : list (Selected (SwarmEvent Ev)) -> Chans Chan Ev -> LoopState (Chans Chan Ev)) : Prop :=
  (forall e h, run [SelBranch (BehaviourEv e)] h = LoopRunning (send_lossy tx e h)) /\
  (forall h, run [SelBranch OtherSwarmEvent] h = LoopRunning h).

Record observed_ok (size : Z) (o : Observed) : Prop := {
  oo_capacity : queue_capacity tx (ob_chans o) = size;
  oo_closed : mpsc_is_closed tx (ob_chans o) = ob_dropped o;
  oo_queue : ob_dropped o = false -> ob_accepted o = ob_received o ++ mpsc_queue tx (ob_chans o);
  oo_received : ob_received o `prefix_of` ob_accepted o;
  oo_accepted : ob_accepted o `sublist_of` ob_handled o;
  oo_all : ob_handled o ≡ₚ ob_accepted o ++ (ob_lost o).*1.*1;
  oo_lost : forall e n gone, (e, n, gone) ∈ ob_lost o -> gone = true \/ size <= Z.of_nat n
}.

Context `{!MpscLaws Chan Ev} `{!BoundedQueueLaws Chan Ev}.

Lemma observed_new_ok size h h' : mpsc_channel size h = (tx, h') -> observed_ok size (observed_new h').
Proof.
  intros E. destruct (mpsc_channel_fresh _ _ _ _ E) as (_ & _ & Hq & Hc & _).
  split; cbn; try done.
  - by apply (capacity_channel _ h).
  - intros e n gone []%not_elem_of_nil.
Qed.

Lemma observe_ok size run ev o : forwards run -> observed_ok size o ->
  observed_ok size (observe run ev o).
Proof.
  intros [Hf Ho] [Hcap Hcl Hq Hr Ha Hall Hl]. destruct ev as [e |]; cbn [observe]; [| by split; cbn; rewrite ?Ho].
  pose proof (capacity_try_send tx e (ob_chans o)) as Hc'. pose proof (try_send_full tx e (ob_chans o)) as Hfull.
  assert (loop_state (run [SelBranch (BehaviourEv e)] (ob_chans o)) = snd (mpsc_try_send tx e (ob_chans o))) as Eh.
  { rewrite Hf. unfold send_lossy, queue_try_send. by destruct (mpsc_try_send tx e (ob_chans o)) as [[] ?]. }
  destruct (mpsc_try_send tx e (ob_chans o)) as [r h'] eqn:E. cbn [fst snd] in *.
  apply mpsc_try_send_cases in E. destruct r; cbn.
  - destruct E as (E1 & _ & E2 & E3). rewrite Hcl in E1.
    split; cbn; rewrite ?Eh; try done; try congruence.
    + intros Hd. rewrite E2, app_assoc. f_equal. by apply Hq.
    + by apply prefix_app_r.
    + by apply sublist_app.
    + rewrite Hall, <- !app_assoc. f_equiv. apply Permutation_app_comm.
  - destruct E as [E1 ->]. split; cbn; rewrite ?Eh; try done.
    + by apply sublist_inserts_r.
    + rewrite !fmap_app. cbn. by rewrite Hall, <- app_assoc.
    + intros e' n gone [Hin | Hin]%elem_of_app; [by eapply Hl |].
      apply list_elem_of_singleton in Hin. simplify_eq. right. by apply Hfull.
  - destruct E as [E1 ->]. split; cbn; rewrite ?Eh; try done.
    + by apply sublist_inserts_r.
    + rewrite !fmap_app. cbn. by rewrite Hall, <- app_assoc.
    + intros e' n gone [Hin | Hin]%elem_of_app; [by eapply Hl |].
      apply list_elem_of_singleton in Hin. simplify_eq. left. congruence.
Qed.

Lemma reader_step_ok size o o' : reader_step o o' -> observed_ok size o -> observed_ok size o'.
Proof.
  destruct 1 as [h ha ac lo re out h' E | h ha ac lo re]; intros [Hcap Hcl Hq Hr Ha Hall Hl]; cbn in *.
  - specialize (Hq eq_refl). pose proof (capacity_try_next tx h) as Hc'. unfold queue_recv in E.
    rewrite E in Hc'. cbn in Hc'. destruct (mpsc_queue tx h) as [| x q] eqn:Eq.
    + destruct (mpsc_try_next_nil tx h Eq) as (h2 & E2 & _ & Hq2 & Hcl2). rewrite E in E2. injection E2 as -> ->.
      rewrite app_nil_r in Hq. subst ac. split; cbn; rewrite ?Hq2, ?app_nil_r; try done; congruence.
    + destruct (mpsc_try_next_cons tx x q h Eq) as (h2 & E2 & _ & Hq2 & Hcl2). rewrite E in E2. injection E2 as -> ->.
      assert (re ++ x :: q = (re ++ [x]) ++ q) as Hx by (by rewrite <- app_assoc).
      subst ac. split; cbn; rewrite ?Hq2; try done; try congruence. rewrite Hx. by apply prefix_app_r.
  - destruct (mpsc_drop_receiver_spec tx h) as (h2 & E & _ & Hq2 & Hcl2).
    pose proof (capacity_drop_receiver tx h) as Hc'. rewrite E in *. cbn in *.
    split; cbn; try done; congruence.
Qed.

End Observed.

Arguments Observed Ev Chan {_ _ _}.

(** ** The actors with an event queue *)

Section EventActors.
Context {Ev Chan : Type} `{Countable Chan} `{!Mpsc Chan Ev} `{!BoundedQueue Chan Ev}.
Context `{!MpscLaws Chan Ev} `{!BoundedQueueLaws Chan Ev}.

(** The task of an actor whose loop is [run], its reader and its handles. *)
Definition actor_step (tx : Chan) (run : list (Selected (SwarmEvent Ev)) -> Chans Chan Ev -> LoopState (Chans Chan Ev))
  : Running (Observed Ev Chan) -> Running (Observed Ev Chan) -> Prop :=
  rstep (observe tx run) (fun _ => reader_step tx) false.

Definition actor_start (h : Chans Chan Ev) (m : TaskManager) : Running (Observed Ev Chan) :=
  mkRunning (observed_new h) m false 1.

(** What the application sees of the events, and how long the task runs. *)
Definition delivers (size : Z) (tx : Chan) (r : Running (Observed Ev Chan)) : Prop :=
  let o := rn_state r in
  ob_received o `prefix_of` ob_accepted o /\ ob_accepted o `sublist_of` ob_handled o /\
  (ob_dropped o = false -> ob_accepted o = ob_received o ++ mpsc_queue tx (ob_chans o)) /\
  ob_handled o ≡ₚ ob_accepted o ++ (ob_lost o).*1.*1 /\
  (forall e n gone, (e, n, gone) ∈ ob_lost o -> gone = true \/ size <= Z.of_nat n) /\
  (cancelled (rn_manager r) = true <-> rn_handles r = 0%nat) /\
  (rn_ended r = true -> rn_handles r = 0%nat).

(** After the last handle the task can end, with every task joined, from wherever
    it is, and once it has ended it handles no further event. *)
Definition can_stop (step : Running (Observed Ev Chan) -> Running (Observed Ev Chan) -> Prop)
    (r : Running (Observed Ev Chan)) : Prop :=
  (rn_handles r = 0%nat -> exists r', rtc step r r' /\ rn_ended r' = true /\
     rn_state r' = rn_state r /\ tasks (rn_manager r') = []) /\
  (rn_ended r = true -> forall r', rtc step r r' ->
     rn_ended r' = true /\ ob_handled (rn_state r') = ob_handled (rn_state r)).

Lemma reader_handles_nothing tx (o o' : Observed Ev Chan) :
  rtc (fun s s' => exists _ : bool, reader_step tx s s') o o' -> ob_handled o' = ob_handled o.
Proof. induction 1 as [| x y z [_ Hxy] _ IH]; [done |]. rewrite IH. by destruct Hxy. Qed.

Lemma running_ok_ended (r : Running (Observed Ev Chan)) : running_ok r -> rn_ended r = true -> rn_handles r = 0%nat.
Proof. intros [Hpos _] He. destruct (rn_handles r); [done |]. destruct Hpos; [lia | congruence]. Qed.

Lemma start_with_queue_ok {E : Type} size timeout (h : Chans Chan Ev) : 0 < size ->
  exists tx h' m, start_with_queue (E := E) MultiThread size timeout h = Ok (tx, h', m) /\
    mpsc_channel size h = (tx, h') /\ m = mkTaskManager timeout false [0%nat].
Proof.
  intros Hs. unfold start_with_queue, new_queue. rewrite (proj2 (Z.ltb_lt _ _) Hs).
  destruct (mpsc_channel size h) as [tx h']. by exists tx, h', (mkTaskManager timeout false [0%nat]).
Qed.

Lemma actor_delivers size timeout tx run h h' r :
  forwards tx run -> mpsc_channel size h = (tx, h') ->
  rtc (actor_step tx run) (actor_start h' (mkTaskManager timeout false [0%nat])) r ->
  delivers size tx r /\ can_stop (actor_step tx run) r.
Proof.
  intros Hf Hch Hr.
  assert (observed_ok tx size (rn_state r)) as [Hcap Hcl Hq Hre Ha Hall Hl].
  { eapply (rtc_running_inv _ _ _ (fun _ => observed_ok tx size)); [| | | exact Hr |].
    - intros c b s. by apply observe_ok.
    - intros c s s'. by apply reader_step_ok.
    - done.
    - by apply (observed_new_ok tx size h). }
  assert (running_ok r) as Hok.
  { eapply rtc_running_ok; [exact Hr |]. split; cbn; [done | lia]. }
  split.
  - unfold delivers. split_and!; try done; [by apply running_ok_cancelled | by apply running_ok_ended].
  - split; [by apply last_handle_stops |]. intros He r' Hr'.
    destruct (ended_stays _ _ _ _ _ Hr' He) as [He' Hs]. split; [done |]. by apply (reader_handles_nothing tx).
Qed.

End EventActors.

Section Delivery.
Context {PeerId Stream Chan : Type} `{Countable Chan} `{!Mpsc Chan (WorkerEvent PeerId Stream)}
  `{!BoundedQueue Chan (WorkerEvent PeerId Stream)} `{!MpscLaws Chan (WorkerEvent PeerId Stream)}
  `{!BoundedQueueLaws Chan (WorkerEvent PeerId Stream)}.

(** C31: A worker's application receives the requests its transport handles.  Started
    with a queue of positive size on a runtime of several threads, whatever the
    order in which the loop, the application and the handles take turns: what the
    application has received is a prefix of what the queue took, which is in the
    order the loop handled it, and the rest of it is waiting; each other event was
    refused while [events_queue_size] events were unread or after the application
    dropped its stream.  The loop is told to stop exactly when the last handle is
    dropped and never ends before; from then on it may still handle events that are
    ready, but it can end in every state, with every task joined, and once it has
    ended it handles nothing more. *)
Theorem worker_events_are_delivered {E : Type} config (h : Chans Chan (WorkerEvent PeerId Stream)) :
  0 < wk_events_queue_size config ->
  exists t h' m, worker_start_transport (E := E) MultiThread config h = Ok (t, h', m) /\
    forall r, rtc (actor_step (wt_events_tx t) (worker_run t)) (actor_start h' m) r ->
      delivers (wk_events_queue_size config) (wt_events_tx t) r /\
      can_stop (actor_step (wt_events_tx t) (worker_run t)) r.
Proof.
  intros Hs. destruct (start_with_queue_ok (E := E) (wk_events_queue_size config) (wk_shutdown_timeout config) h Hs)
    as (tx & h' & m & E1 & Hch & ->).
  exists (mkWorkerTransport tx), h', (mkTaskManager (wk_shutdown_timeout config) false [0%nat]).
  split; [by unfold worker_start_transport; rewrite E1 |].
  intros r. apply (actor_delivers _ _ _ _ h); [by split | done].
Qed.

End Delivery.

(** The same of the observer and of the collector of portal logs. *)
Lemma observer_events_are_delivered {E PeerId Heartbeat Chan : Type} `{Countable Chan}
    `{!Mpsc Chan (ObserverEvent (PeerId := PeerId) (Heartbeat := Heartbeat))}
    `{!BoundedQueue Chan (ObserverEvent (PeerId := PeerId) (Heartbeat := Heartbeat))}
    `{!MpscLaws Chan (ObserverEvent (PeerId := PeerId) (Heartbeat := Heartbeat))}
    `{!BoundedQueueLaws Chan (ObserverEvent (PeerId := PeerId) (Heartbeat := Heartbeat))}
    config (h : Chans Chan (ObserverEvent (PeerId := PeerId) (Heartbeat := Heartbeat))) :
  0 < ob_events_queue_size config ->
  exists t h' m, observer_start_transport (E := E) MultiThread config h = Ok (t, h', m) /\
    forall r, rtc (actor_step (ot_events_tx t) (observer_run t)) (actor_start h' m) r ->
      delivers (ob_events_queue_size config) (ot_events_tx t) r.
Proof.
  intros Hs. destruct (start_with_queue_ok (E := E) (ob_events_queue_size config) (ob_shutdown_timeout config) h Hs)
    as (tx & h' & m & E1 & Hch & ->).
  exists (mkObserverTransport tx), h', (mkTaskManager (ob_shutdown_timeout config) false [0%nat]).
  split; [by unfold observer_start_transport; rewrite E1 |].
  intros r Hr. eapply (actor_delivers _ _ _ _ h); [| exact Hch | exact Hr]. by split.
Qed.

Lemma collector_events_are_delivered {E PeerId QueryFinished Chan : Type} `{Countable Chan}
    `{!Mpsc Chan (PortalLogsCollectorEvent (PeerId := PeerId) (QueryFinished := QueryFinished))}
    `{!BoundedQueue Chan (PortalLogsCollectorEvent (PeerId := PeerId) (QueryFinished := QueryFinished))}
    `{!MpscLaws Chan (PortalLogsCollectorEvent (PeerId := PeerId) (QueryFinished := QueryFinished))}
    `{!BoundedQueueLaws Chan (PortalLogsCollectorEvent (PeerId := PeerId) (QueryFinished := QueryFinished))}
    config (h : Chans Chan (PortalLogsCollectorEvent (PeerId := PeerId) (QueryFinished := QueryFinished))) :
  0 < lc_events_queue_size config ->
  exists t h' m, collector_start_transport (E := E) MultiThread config h = Ok (t, h', m) /\
    forall r, rtc (actor_step (lt_events_tx t) (collector_run t)) (actor_start h' m) r ->
      delivers (lc_events_queue_size config) (lt_events_tx t) r.
Proof.
  intros Hs. destruct (start_with_queue_ok (E := E) (lc_events_queue_size config) (lc_shutdown_timeout config) h Hs)
    as (tx & h' & m & E1 & Hch & ->).
  exists (mkCollectorTransport tx), h', (mkTaskManager (lc_shutdown_timeout config) false [0%nat]).
  split; [by unfold collector_start_transport; rewrite E1 |].
  intros r Hr. eapply (actor_delivers _ _ _ _ h); [| exact Hch | exact Hr]. by split.
Qed.

(** ** The portal: from the lookup to the list of listeners *)

Section PortalListeners.
Context {PeerId QueryId Kad Chan : Type} `{Countable PeerId} `{EqDecision QueryId} `{Countable Chan}.
Context `{Semaphore} (get_providers : Kad -> QueryId * Kad).
Notation ListenersEv := (LogListenersEvent (PeerId := PeerId)).
Context `{!Mpsc Chan ListenersEv} `{!BoundedQueue Chan ListenersEv} `{!MpscLaws Chan ListenersEv}
  `{!BoundedQueueLaws Chan ListenersEv}.
Notation Behaviour := (PortalBehaviour (PeerId := PeerId) (QueryId := QueryId) (Kad := Kad)).

(** The two tasks' states: the behaviour, the queue between them, the shared list. *)
Record PortalState := mkPortalState {
  ps_behaviour : Behaviour;
  ps_queue : Observed ListenersEv Chan;
  ps_listeners : list PeerId
}.

(** The list a round reports, if it does. *)
Definition reported_by (b : PortalBranch (PeerId := PeerId) (QueryId := QueryId)) (s : Behaviour)
  : SwarmEvent ListenersEv :=
  match b with
  | PortalPolled ev =>
      match fst (portal_on_base_event ev s) with
      | Some (LogListeners l) => BehaviourEv (LogListenersEv l)
      | None => OtherSwarmEvent
      end
  | _ => OtherSwarmEvent
  end.

(** A round of the swarm's task; what it does to the queue is recorded. *)
Definition portal_round (t : PortalTransport (Chan := Chan)) (b : PortalBranch) (st : PortalState) : PortalState :=
  let after := loop_state (portal_run get_providers t [SelBranch b] (ps_behaviour st, ob_chans (ps_queue st))) in
  mkPortalState (fst after)
    (observe (log_listeners_tx t) (fun _ _ => LoopRunning (snd after)) (reported_by b (ps_behaviour st)) (ps_queue st))
    (ps_listeners st).

(** The receiving task: a round, and its end, which drops the receiver; the flag is
    the token's. *)
Inductive receive_step (t : PortalTransport (Chan := Chan)) : bool -> PortalState -> PortalState -> Prop :=
| receive_round c s h ha ac lo re l h' l' :
    receive_listeners t (h, l) = (h', l') ->
    receive_step t c (mkPortalState s (mkObserved h ha ac lo re false) l)
      (mkPortalState s
         (mkObserved h' ha ac lo (re ++ option_list (fst (queue_recv (log_listeners_tx t) h))) false) l')
| receive_ends s h ha ac lo re l :
    receive_step t true (mkPortalState s (mkObserved h ha ac lo re false) l)
      (mkPortalState s
         (mkObserved (snd (mpsc_drop_receiver (log_listeners_tx t) h)) ha ac lo re true) l).

Definition listeners_of (ev : ListenersEv) : list PeerId := match ev with LogListenersEv l => l end.

Record portal_ok (t : PortalTransport (Chan := Chan)) (size : Z) (c : bool) (st : PortalState) : Prop := {
  po_queue : observed_ok (log_listeners_tx t) size (ps_queue st);
  po_last : ps_listeners st = default [] (listeners_of <$> last (ob_received (ps_queue st)));
  po_nodup : forall ev, ev ∈ ob_handled (ps_queue st) -> NoDup (listeners_of ev);
  po_dropped : c = false -> ob_dropped (ps_queue st) = false;
  po_gone : c = false -> forall ev n gone, (ev, n, gone) ∈ ob_lost (ps_queue st) -> gone = false;
  po_newest : ob_lost (ps_queue st) = [] -> ob_accepted (ps_queue st) = ob_handled (ps_queue st)
}.

Lemma observe_run_ext (tx : Chan) run run' ev (o : Observed ListenersEv Chan) :
  run [SelBranch ev] (ob_chans o) = run' [SelBranch ev] (ob_chans o) -> observe tx run ev o = observe tx run' ev o.
Proof. intros E. unfold observe. by rewrite E. Qed.

Lemma observe_received (tx : Chan) run ev (o : Observed ListenersEv Chan) :
  ob_received (observe tx run ev o) = ob_received o.
Proof. by destruct ev. Qed.

Lemma portal_round_ok t size c b st : portal_ok t size c st -> portal_ok t size c (portal_round t b st).
Proof.
  intros [Hq Hl Hn Hd Hg Hnew]. unfold portal_round. cbn zeta.
  set (fwd := fun rounds h => match rounds : list (Selected (SwarmEvent ListenersEv)) with
    | SelBranch (BehaviourEv e) :: _ => LoopRunning (send_lossy (log_listeners_tx t) e h)
    | _ => LoopRunning h end).
  set (after := loop_state _).
  assert (LoopRunning (snd after) = fwd [SelBranch (reported_by b (ps_behaviour st))] (ob_chans (ps_queue st))) as E.
  { subst after fwd. destruct b as [| ev |]; cbn; [done | | done].
    by destruct (portal_on_base_event ev (ps_behaviour st)) as [[[l] |] s]. }
  rewrite (observe_run_ext _ _ fwd) by exact E.
  assert (observed_ok (log_listeners_tx t) size
            (observe (log_listeners_tx t) fwd (reported_by b (ps_behaviour st)) (ps_queue st))) as Ho
    by (apply (observe_ok (log_listeners_tx t)); [by split | done]).
  split; [exact Ho | | | | |]; cbn [ps_queue ps_listeners].
  - rewrite observe_received. exact Hl.
  - assert (forall l, reported_by b (ps_behaviour st) = BehaviourEv (LogListenersEv l) -> NoDup l) as Hrep.
    { intros l. destruct b as [| ev |]; cbn; try done. destruct ev as [id found lst | step]; cbn; [| done].
      unfold on_provider_record. repeat case_match; cbn in *; intros; simplify_eq; apply NoDup_elements. }
    destruct (reported_by b _) as [[l] |]; cbn; [| done].
    intros ev [Hev | Hev]%elem_of_app; [by apply Hn |]. apply list_elem_of_singleton in Hev as ->. by apply Hrep.
  - by destruct (reported_by b _).
  - intros Hc ev n gone. destruct (reported_by b _) as [e |]; cbn; [| by apply Hg].
    destruct (fst (mpsc_try_send _ _ _)); [by apply Hg | |]; intros [Hin | Hin]%elem_of_app;
      try (by eapply Hg); apply list_elem_of_singleton in Hin; simplify_eq; by apply Hd.
  - destruct (reported_by b _) as [e |]; cbn; [| done].
    destruct (fst (mpsc_try_send _ _ _)); [| by intros []%app_eq_nil ..]. intros E'. by rewrite Hnew.
Qed.

Lemma receive_step_ok t size c st st' : receive_step t c st st' -> portal_ok t size c st -> portal_ok t size c st'.
Proof.
  destruct 1 as [c s h ha ac lo re l h' l' E | s h ha ac lo re l]; intros [Hq Hl Hn Hd Hg Hnew].
  - unfold receive_listeners in E. cbn [fst snd] in E.
    destruct (queue_recv (log_listeners_tx t) h) as [out h2] eqn:Er.
    assert (h2 = h') as -> by (by destruct out as [[]|]; simplify_eq).
    split; cbn [ps_queue ps_listeners ob_received ob_handled]; [| | exact Hn | done | exact Hg | exact Hnew].
    + eapply (reader_step_ok (log_listeners_tx t)); [| exact Hq]. by constructor.
    + cbn in Hl. destruct out as [[l0] |]; cbn; simplify_eq; [by rewrite last_snoc | by rewrite app_nil_r].
  - split; cbn [ps_queue ps_listeners ob_received ob_handled]; [| exact Hl | exact Hn | done | done | exact Hnew].
    eapply (reader_step_ok (log_listeners_tx t)); [| exact Hq]. by constructor.
Qed.

Lemma portal_ok_cancel t size st : portal_ok t size false st -> portal_ok t size true st.
Proof. by intros [Hq Hl Hn Hd Hg Hnew]. Qed.

(** What a portal's tasks make of the reports of its lookups, while it has a handle:
    each report is received, or still in the queue, or was refused by a full queue. *)
Definition reports_kept (tx : Chan) (size : Z) (st : PortalState) : Prop :=
  let q := ps_queue st in
  ob_accepted q = ob_received q ++ mpsc_queue tx (ob_chans q) /\
  (forall ev n gone, (ev, n, gone) ∈ ob_lost q -> size <= Z.of_nat n) /\
  (mpsc_queue tx (ob_chans q) = [] -> ob_lost q = [] ->
   ps_listeners st = default [] (listeners_of <$> last (ob_handled q))).

Lemma portal_ok_kept t size st : portal_ok t size false st -> reports_kept (log_listeners_tx t) size st.
Proof.
  intros [[_ _ Hq _ _ _ Hlost] Hl _ Hd Hg Hnew]. specialize (Hd eq_refl). specialize (Hq Hd).
  split; [done |]. split.
  - intros ev n gone Hin. pose proof (Hg eq_refl _ _ _ Hin) as ->. by destruct (Hlost _ _ _ Hin).
  - intros Hempty Hnone. rewrite Hl, <- (Hnew Hnone), Hq, Hempty, app_nil_r. done.
Qed.

(** C32: The listeners a portal's handle sends logs to are those of the newest lookup
    whose report was delivered.  Started on a runtime of several threads with a
    queue of positive size, in every interleaving of the portal's two tasks and its
    handles: the shared list is the last report received, empty before the first;
    the reports received are the first of those the queue took, which are, in order,
    among those the lookups made, each without duplicates; and every report made was
    taken by the queue or lost.  While a handle is left neither task is told to stop,
    every report the queue took is received or still in it, one was lost only when
    the queue was full, and if none was lost and none waits the shared list is that of
    the newest report made. *)
Theorem portal_listeners_follow_lookups {E : Type} config (k : Kad) (h : Chans Chan ListenersEv) :
  0 < listeners_queue_size config ->
  exists t h' ph, portal_start_transport (E := E) MultiThread config h = Ok (t, h', ph) /\
    log_listeners ph = [] /\ tasks (ph_task_manager ph) = [0%nat; 1%nat] /\
    forall r,
      rtc (rstep (portal_round t) (receive_step t) false)
        (mkRunning (mkPortalState (PortalBehaviour_new k) (observed_new h') (log_listeners ph))
           (ph_task_manager ph) false 1) r ->
      let q := ps_queue (rn_state r) in
      ps_listeners (rn_state r) = default [] (listeners_of <$> last (ob_received q)) /\
      ob_received q `prefix_of` ob_accepted q /\ ob_accepted q `sublist_of` ob_handled q /\
      ob_handled q ≡ₚ ob_accepted q ++ (ob_lost q).*1.*1 /\
      (forall ev, ev ∈ ob_handled q -> NoDup (listeners_of ev)) /\
      ((0 < rn_handles r)%nat ->
       cancelled (rn_manager r) = false /\ rn_ended r = false /\
       reports_kept (log_listeners_tx t) (listeners_queue_size config) (rn_state r)).
Proof.
  intros Hs. unfold portal_start_transport, new_queue. rewrite (proj2 (Z.ltb_lt _ _) Hs).
  destruct (mpsc_channel (listeners_queue_size config) h) as [tx h'] eqn:Hch. cbn.
  eexists _, _, _. split; [reflexivity |]. cbn. split_and!; [done | done |]. intros r Hr.
  assert (portal_ok (mkPortalTransport tx) (listeners_queue_size config) (cancelled (rn_manager r)) (rn_state r)) as Hp.
  { eapply (rtc_running_inv _ _ _ (portal_ok (mkPortalTransport tx) (listeners_queue_size config)));
      [| | | exact Hr |].
    - intros c b s. apply portal_round_ok.
    - intros c s s'. apply receive_step_ok.
    - apply portal_ok_cancel.
    - split; [by apply (observed_new_ok tx _ h) | done | intros ev []%not_elem_of_nil | done |
              intros _ ev n gone []%not_elem_of_nil | done]. }
  assert (running_ok r) as Hok by (eapply rtc_running_ok; [exact Hr |]; split; cbn; [done | lia]).
  pose proof Hp as [[_ _ _ Hre Ha Hall _] Hl Hn _ _ _]. split_and!; [done.. |].
  intros Hh. destruct (proj1 Hok Hh) as [Hc He]. rewrite Hc in Hp. split_and!; [done | done |].
  by apply portal_ok_kept in Hp.
Qed.

End PortalListeners.

(** ** The SQL client broadcasts every confidence, in order *)

Lemma sql_run_sends evs sent :
  sql_run (SelBranch <$> evs) sent
  = LoopRunning (sent ++ omap (fun ev => match ev with
                                         | BehaviourEv (Connect c) => Some c
                                         | OtherSwarmEvent => None
                                         end) evs).
Proof.
  unfold sql_run. revert sent. induction evs as [| [[c] |] evs IH]; intros sent; cbn; [by rewrite app_nil_r | |].
  - rewrite IH. by rewrite <- app_assoc.
  - apply IH.
Qed.

(** * Concrete transports

    The channels of [StreamProps] with their capacity, a worker whose events
    overflow a queue of size one, and a portal that learns its listeners. *)

#[global] Instance toy_bounded (T : Type) : BoundedQueue nat T := fun c h => tc_cap h c.

#[global] Instance toy_bounded_laws (T : Type) : BoundedQueueLaws nat T.
Proof.
  split; unfold queue_capacity, toy_bounded; cbn.
  - intros n h c h' [= <- <-]. cbn. by rewrite fupd_eq.
  - intros c x h. repeat case_match; done.
  - intros c h. by case_match.
  - done.
  - intros c x h. destruct (tc_closed h c); [done |]. destruct (_ <? _) eqn:E; [| done].
    intros _. apply Z.ltb_lt in E. lia.
Qed.

Notation WEvent := (WorkerEvent Z Z).

(** A worker with a queue of size one. *)
Definition small_config : WorkerConfig := mkWorkerConfig 100 1 1 20 5.
Definition small_worker : WorkerTransport := mkWorkerTransport 0%nat.
Definition no_worker_chans : Chans nat WEvent := no_chans.
Definition small_chans : Chans nat WEvent := snd (mpsc_channel 1 (no_chans (T := WEvent))).

Definition demo_sender : ResponseSender Z := mkResponseSender 5 1 1.
Definition ping_from (p : Z) : WEvent := WStatusRequest p demo_sender.

Definition small_step : Running (Observed WEvent nat) -> Running (Observed WEvent nat) -> Prop :=
  actor_step (wt_events_tx small_worker) (worker_run small_worker).

Definition small_start : Running (Observed WEvent nat) := actor_start small_chans (mkTaskManager 1 false [0%nat]).

Definition after_events (ps : list Z) : Observed WEvent nat :=
  foldl (fun o p => observe (wt_events_tx small_worker) (worker_run small_worker) (BehaviourEv (ping_from p)) o)
    (observed_new small_chans) ps.

Lemma small_run ps : rtc small_step small_start (mkRunning (after_events ps) (mkTaskManager 1 false [0%nat]) false 1).
Proof.
  unfold after_events, small_start, actor_start. generalize (observed_new small_chans).
  induction ps as [| p ps IH]; intros o; [done |]. cbn [foldl].
  eapply rtc_l; [| apply IH]. by apply rstep_branch.
Qed.

(** Of three requests the third finds the queue full. *)
Lemma worker_events_are_delivered_witness :
  ob_lost (after_events [1; 2; 3]) = [(ping_from 3, 2%nat, false)] /\
  delivers 1 0%nat (mkRunning (after_events [1; 2; 3]) (mkTaskManager 1 false [0%nat]) false 1).
Proof.
  split; [reflexivity |].
  destruct (worker_events_are_delivered (E := Empty_set) (PeerId := Z) (Stream := Z) (Chan := nat) small_config no_worker_chans eq_refl)
    as (t & h' & m & Es & Hd).
  injection Es as <- <- <-. exact (proj1 (Hd _ (small_run [1; 2; 3]))).
Defined.

(** A portal: the interval ticks, the lookup finds peer 7, the report is received. *)
Definition count_queries (k : nat) : nat * nat := (k, S k).

Definition demo_portal_config : PortalConfig := mkPortalConfig portal_query_config 20 1 60 10.

Notation PState := (PortalState (PeerId := Z) (QueryId := nat) (Kad := nat) (Chan := nat)).
Notation LEvent := (LogListenersEvent (PeerId := Z)).

Definition demo_transport : PortalTransport (Chan := nat) := mkPortalTransport 0%nat.
Definition no_portal_chans : Chans nat LEvent := no_chans.
Definition demo_portal_chans : Chans nat LEvent := snd (mpsc_channel 20 (no_chans (T := LEvent))).

Definition demo_portal_start : PState :=
  mkPortalState (PortalBehaviour_new 0%nat) (observed_new demo_portal_chans) [].

Definition demo_looked_up : PState :=
  portal_round count_queries demo_transport (PortalPolled (BE_ProviderRecord 0%nat (Some [7]) true))
    (portal_round count_queries demo_transport PortalTick demo_portal_start).

Definition demo_received : PState :=
  let o := ps_queue demo_looked_up in
  let got := receive_listeners demo_transport (ob_chans o, []) in
  mkPortalState (ps_behaviour demo_looked_up)
    (mkObserved (fst got) (ob_handled o) (ob_accepted o) (ob_lost o)
       (ob_received o ++ option_list (fst (queue_recv 0%nat (ob_chans o)))) false) (snd got).

Definition portal_manager : TaskManager := mkTaskManager 1 false [0%nat; 1%nat].

Lemma demo_portal_run :
  rtc (rstep (portal_round count_queries demo_transport) (receive_step demo_transport) false)
    (mkRunning demo_portal_start portal_manager false 1) (mkRunning demo_received portal_manager false 1).
Proof.
  eapply rtc_l; [by apply (rstep_branch _ _ _ PortalTick) |].
  eapply rtc_l; [by apply (rstep_branch _ _ _ (PortalPolled (BE_ProviderRecord 0%nat (Some [7]) true))) |].
  apply rtc_once, rstep_env. by apply (receive_round demo_transport false).
Qed.

Lemma portal_listeners_follow_lookups_witness :
  ps_listeners demo_received = [7] /\
  ps_listeners demo_received = default [] (listeners_of <$> last (ob_received (ps_queue demo_received))) /\
  reports_kept 0%nat 20 demo_received.
Proof.
  split; [reflexivity |].
  destruct (portal_listeners_follow_lookups (E := Empty_set) (PeerId := Z) (Chan := nat) count_queries demo_portal_config 0%nat
              no_portal_chans eq_refl) as (t & h' & ph & Es & _ & _ & Hr).
  injection Es as <- <- <-. destruct (Hr _ demo_portal_run) as (Hl & _ & _ & _ & _ & Hk).
  split; [exact Hl | apply Hk; cbn; lia].
Defined.
