(* ===== verification/ContractClient.v ===== *)
(** * The contract client (crates/contract-client/src/client.rs, error.rs, cli.rs)

    The calls of the smart contracts are an interface, [ContractCalls]: one
    operation per contract method the code calls, as it answers at the time of the
    read.  [EthersClient] and [DummyClient] implement the trait [Client] on top of
    it; the loops over pages carry fuel, and run out of it as [None].

    An [Address], a [U256] and a [bytes32] are numbers; a [SystemTime] is the
    seconds since the epoch.  [PeerId] and its conversions are libp2p's. *)

From S2P Require Import Prelude RustStd Whitelist ContractMerge.
From Stdlib Require Import ZArith Lia Ascii String SpecFloat.
From stdpp Require Import base sets strings gmap numbers list.

Open Scope Z_scope.

(** ** Errors *)

(** The errors of other crates that a variant carries are their texts, of a parse
    error of a peer id not even that. *)
Inductive ClientError :=
| InvalidRpcUrl (e : str)
| WsClient (e : str)
| InvalidPeerId
| Contract (msg : str)
| ProviderErr (e : str)
| InvalidProtocol
| HttpClient (e : str)
| TxReceiptMissing
| BlockNotFound.

(** [u32::from_be_bytes] and [u64::from_be_bytes]. *)
Definition from_be_bytes (b : list Z) : Z := foldl (fun acc x => acc * 256 + x) 0 b.

(** error.rs, [decode_error]; a slice [&msg[a..b]] whose end is beyond the message
    would panic, and the length check excludes that. *)
Definition decode_error (from_utf8_lossy : list Z -> str) (msg : list Z) : option str :=
  if Z.of_nat (length msg) <? 64 then None
  else if negb (from_be_bytes (take 4 msg) =? 0x08c379a0) then None
  else if negb (from_be_bytes (take 8 (drop 28 msg)) =? 32) then None
  else Some (from_utf8_lossy (drop 36 msg)).

(** ** Machine integers of the client *)

Definition add_u256 {E} (a b : Z) : res E Z := if u256_max <? a + b then Panic else Ok (a + b).
Definition sub_u256 {E} (a b : Z) : res E Z := if a <? b then Panic else Ok (a - b).

(** [try_into().expect(..)] and [U256::as_u64], [as_u128]: all panic when the value
    does not fit. *)
Definition into_u32 {E} (x : Z) : res E Z := if x <? 2 ^ 32 then Ok x else Panic.
Definition into_u64 {E} (x : Z) : res E Z := if x <? 2 ^ 64 then Ok x else Panic.
Definition into_u128 {E} (x : Z) : res E Z := if x <? 2 ^ 128 then Ok x else Panic.

(** [UNIX_EPOCH + Duration::from_secs(t)]: a [SystemTime] holds signed seconds. *)
Definition unix_time {E} (t : Z) : res E Z := if t <? 2 ^ 63 then Ok t else Panic.

(** [Ratio::new]: a fraction in lowest terms. *)
Definition ratio_new (n d : Z) : Z * Z := (n / Z.gcd n d, d / Z.gcd n d).

Definition SQD_DECIMALS_DENOM : Z := 1000000000000000000.

(** [x as u128] for an [f64]: truncated, saturating, and zero for NaN. *)
Definition f64_as_u128 (x : spec_float) : Z :=
  match x with
  | S754_finite false m e => Z.min (2 ^ 128 - 1) (if 0 <=? e then Z.pos m * 2 ^ e else Z.pos m / 2 ^ (- e))
  | S754_infinity false => 2 ^ 128 - 1
  | _ => 0
  end.

(** [tokio::try_join!]: when both calls fail, whichever fails first is reported. *)
Definition try_join {E A B} (second_first : bool) (a : res E A) (b : res E B) : res E (A * B) :=
  if second_first then y ← b; x ← a; Ok (x, y) else x ← a; y ← b; Ok (x, y).

(** ** cli.rs *)

Inductive Network := Tethys | Mainnet.

Definition gateway_registry_default_addr (n : Network) : Z :=
  match n with
  | Tethys => 0xAB46F688AbA4FcD1920F21E9BD16B229316D8b0a
  | Mainnet => 0x8A90A1cE5fa8Cf71De9e6f76B7d3c0B72feB8c4b
  end.

Definition worker_registration_default_addr (n : Network) : Z :=
  match n with
  | Tethys => 0xCD8e983F8c4202B0085825Cf21833927D1e2b6Dc
  | Mainnet => 0x36E2B147Db67E76aB67a4d07C293670EbeFcAE4E
  end.

Definition network_controller_default_addr (n : Network) : Z :=
  match n with
  | Tethys => 0x018a4EC4B1f5D03F93d34Fd7F0bAfc69B66B97A1
  | Mainnet => 0x159550d2589CfF1Ff604AF715130642256B88847
  end.

Definition allocations_viewer_default_addr (n : Network) : Z :=
  match n with
  | Tethys => 0xC0Af6432947db51e0C179050dAF801F19d40D2B7
  | Mainnet => 0x88CE6D8D70df9Fe049315fd9D6c3d59108C15c4C
  end.

Definition multicall_default_addr (n : Network) : Z :=
  match n with
  | Tethys | Mainnet => 0xcA11bde05977b3631167028862bE2a173976CA11
  end.

Definition portal_registry_default_addr (n : Network) : option Z :=
  match n with
  | Tethys => None
  | Mainnet => Some 0x29edE9EB0ad3C02B6A98B0E41bF99Cd709812850
  end.

Record ContractAddrs := mkContractAddrs {
  gateway_registry_contract_addr : option Z;
  worker_registration_contract_addr : option Z;
  network_controller_contract_addr : option Z;
  allocations_viewer_contract_addr : option Z;
  multicall_contract_addr : option Z;
  portal_registry_contract_addr : option Z
}.

Record RpcArgs := mkRpcArgs {
  rpc_url : str;
  l1_rpc_url : str;
  contract_addrs : ContractAddrs;
  network : Network;
  contract_workers_per_page : Z;
  contract_portals_per_page : Z;
  dummy_client_file_path : option str;
  disable_portal_registry : bool;
  rpc_timeout_sec : Z
}.

Definition gateway_registry_addr (a : RpcArgs) : Z :=
  default (gateway_registry_default_addr (network a)) (gateway_registry_contract_addr (contract_addrs a)).
Definition worker_registration_addr (a : RpcArgs) : Z :=
  default (worker_registration_default_addr (network a)) (worker_registration_contract_addr (contract_addrs a)).
Definition network_controller_addr (a : RpcArgs) : Z :=
  default (network_controller_default_addr (network a)) (network_controller_contract_addr (contract_addrs a)).
Definition allocations_viewer_addr (a : RpcArgs) : Z :=
  default (allocations_viewer_default_addr (network a)) (allocations_viewer_contract_addr (contract_addrs a)).
Definition multicall_addr (a : RpcArgs) : Z :=
  default (multicall_default_addr (network a)) (multicall_contract_addr (contract_addrs a)).

Definition portal_registry_addr (a : RpcArgs) : option Z :=
  match portal_registry_contract_addr (contract_addrs a) with
  | Some addr => Some addr
  | None => portal_registry_default_addr (network a)
  end.

(** ** The contracts *)

(** Rows of the contracts, with the fields the client reads. *)
Record WorkerRow := mkWorkerRow {
  wr_creator : Z; wr_peer_id : list Z; wr_bond : Z; wr_registered_at : Z; wr_deregistered_at : Z
}.
Record ClusterRow := mkClusterRow { cr_operator : Z; cr_total_staked : Z; cr_portals : list (list Z) }.
Record Block := mkBlock { bk_number : option Z; bk_timestamp : Z }.

(** A multicall is an operation of its own: all its calls in one request. *)
Class ContractCalls := {
  (* NetworkController *)
  epoch_number : res ClientError Z;
  next_epoch : res ClientError Z;
  worker_epoch_length : res ClientError Z;
  (* the L1 chain *)
  get_block : Z -> res ClientError (option Block);
  get_latest_block : res ClientError (option Block);
  (* WorkerRegistration *)
  worker_ids : list Z -> res ClientError Z;
  get_active_worker_ids : res ClientError (list Z);
  get_worker : Z -> res ClientError WorkerRow;
  multi_get_worker : list Z -> res ClientError (list WorkerRow);
  (* PortalRegistry *)
  get_cluster_id_by_peer_id : list Z -> res ClientError Z;
  get_computation_units : Z -> res ClientError Z;
  multi_get_computation_units : list Z -> res ClientError (list Z);
  get_cluster : Z -> res ClientError ClusterRow;
  get_active_clusters : Z -> Z -> res ClientError (list Z * list ClusterRow * Z);
  (* GatewayRegistry: the operator of a gateway, the amount of a stake *)
  get_gateway : list Z -> res ClientError Z;
  get_stake : Z -> res ClientError Z;
  get_used_strategy : list Z -> res ClientError Z;
  computation_units_available : list Z -> res ClientError Z;
  get_active_gateways : Z -> Z -> res ClientError (list (list Z));
  (* Strategy, at an address *)
  computation_units_per_epoch : Z -> list Z -> Z -> res ClientError Z;
  multi_computation_units : Z -> list Z -> list Z -> res ClientError (list Z);
  (* AllocationsViewer *)
  get_allocations : Z -> Z -> Z -> res ClientError (list ContractMerge.Allocation)
}.

Section Client.
Context {PeerId : Type} `{Countable PeerId}.
Context (to_bytes : PeerId -> list Z) (from_bytes : list Z -> option PeerId).

(** The trait's data. *)
Record CAllocation := mkCAllocation {
  worker_peer_id : PeerId; worker_onchain_id : Z; computation_units : Z
}.

Record Worker := mkWorker {
  w_peer_id : PeerId; w_onchain_id : Z; w_address : Z; w_bond : Z;
  w_registered_at : Z; w_deregistered_at : option Z
}.

Definition worker_new (worker : WorkerRow) (onchain_id : Z) : res ClientError Worker :=
  peer_id ← ok_or (from_bytes (wr_peer_id worker)) InvalidPeerId;
  let deregistered_at := if 0 <? wr_deregistered_at worker then Some (wr_deregistered_at worker) else None in
  Ok (mkWorker peer_id onchain_id (wr_creator worker) (wr_bond worker) (wr_registered_at worker) deregistered_at).

(** An item of [network_nodes_stream]. *)
Definition network_nodes (second_first : bool) (portals : res ClientError (list PeerId))
    (workers : res ClientError (list Worker)) : res ClientError (NetworkNodes (PeerId := PeerId)) :=
  both ← try_join second_first portals workers;
  Ok (mkNetworkNodes (list_to_set both.1) (list_to_set (w_peer_id <$> both.2))).

(** ** EthersClient *)

Context `{ContractCalls}.

(** The handles of the contracts are the interface; [portal_registry] says whether
    there is one. *)
Record EthersClient := mkEthersClient {
  portal_registry : option Z;
  default_strategy_addr : Z;
  active_workers_per_page : Z;
  portals_per_page : Z
}.

(** [EthersClient::new]; [default_strategy] is the answer of the gateway registry. *)
Definition EthersClient_new (default_strategy : res ClientError Z) (args : RpcArgs) : res ClientError EthersClient :=
  strategy ← default_strategy;
  let registry :=
    match disable_portal_registry args, portal_registry_addr args with
    | true, _ => None
    | false, Some addr => Some addr
    | false, None => None
    end in
  Ok (mkEthersClient registry strategy (contract_workers_per_page args) (contract_portals_per_page args)).

Definition current_epoch : res ClientError Z := epoch ← epoch_number; into_u32 epoch.

Definition current_epoch_start (second_first : bool) : res ClientError Z :=
  both ← try_join second_first next_epoch worker_epoch_length;
  diff ← sub_u256 both.1 both.2;
  block_num ← into_u64 diff;
  found ← get_block block_num;
  block ← ok_or found BlockNotFound;
  t ← into_u64 (bk_timestamp block);
  unix_time t.

Definition epoch_length : res ClientError Z :=
  epoch_length_blocks ← worker_epoch_length;
  latest ← get_latest_block;
  latest_block ← ok_or latest BlockNotFound;
  epoch_length_blocks ← into_u64 epoch_length_blocks;
  number ← expect (bk_number latest_block);
  hist_number ← sub_u256 number epoch_length_blocks;
  hist ← get_block hist_number;
  hist_block ← ok_or hist BlockNotFound;
  diff ← sub_u256 (bk_timestamp latest_block) (bk_timestamp hist_block);
  into_u64 diff.

Definition worker_id (peer_id : PeerId) : res ClientError Z := worker_ids (to_bytes peer_id).

(** [slice::chunks]; [None] for a chunk size of zero, which panics. *)
Fixpoint chunks_fuel {A} (fuel : nat) (n : nat) (l : list A) : list (list A) :=
  match fuel, l with
  | S fuel, _ :: _ => take n l :: chunks_fuel fuel n (drop n l)
  | _, _ => []
  end.

Definition chunks {E A} (n : Z) (l : list A) : res E (list (list A)) :=
  if n =? 0 then Panic else Ok (chunks_fuel (length l) (Z.to_nat n) l).

(** The pages are fetched concurrently; of several failures the first is reported. *)
Definition active_workers (c : EthersClient) : res ClientError (list Worker) :=
  onchain_ids ← get_active_worker_ids;
  pages ← chunks (active_workers_per_page c) onchain_ids;
  workers ← rmap multi_get_worker pages;
  Ok (omap (fun '(worker, onchain_id) =>
              match worker_new worker onchain_id with Ok w => Some w | _ => None end)
           (zip (concat workers) onchain_ids)).

(** The cluster of a portal in the new registry, if there is a registry and it
    knows the portal: the guard that most methods begin with. *)
Definition cluster_of (c : EthersClient) (portal_id : PeerId) : res ClientError (option Z) :=
  match portal_registry c with
  | None => Ok None
  | Some _ =>
      cluster_id ← get_cluster_id_by_peer_id (to_bytes portal_id);
      Ok (if cluster_id =? 0 then None else Some cluster_id)
  end.

Definition is_portal_registered (c : EthersClient) (portal_id : PeerId) : res ClientError bool :=
  cluster ← cluster_of c portal_id;
  match cluster with
  | Some _ => Ok true
  | None => op ← get_gateway (to_bytes portal_id); Ok (negb (op =? 0))
  end.

Definition worker_registration_time (peer_id : PeerId) : res ClientError (option Z) :=
  worker_id ← worker_ids (to_bytes peer_id);
  if worker_id =? 0 then Ok None
  else
    worker ← get_worker worker_id;
    block_num ← into_u64 (wr_registered_at worker);
    found ← get_block block_num;
    match found with
    | None => Ok None
    | Some block => t ← into_u64 (bk_timestamp block); time ← unix_time t; Ok (Some time)
    end.

(** The loop of [active_portals] over the clusters of the new registry. *)
Fixpoint new_portals_loop (fuel : nat) (limit offset : Z) (new_portals : list PeerId)
  : option (res ClientError (list PeerId)) :=
  match fuel with
  | O => None
  | S fuel =>
      match get_active_clusters offset limit with
      | Ok (_, clusters, total_active) =>
          let page_len := Z.of_nat (length clusters) in
          let new_portals := new_portals ++ (clusters ≫= fun c => omap from_bytes (cr_portals c)) in
          match add_u256 (E := ClientError) offset page_len with
          | Ok offset =>
              if (page_len =? 0) || (total_active <=? offset) then Some (Ok new_portals)
              else new_portals_loop fuel limit offset new_portals
          | Err e => Some (Err e)
          | Panic => Some Panic
          end
      | Err e => Some (Err e)
      | Panic => Some Panic
      end
  end.

(** The loop over the legacy gateways.  [page] is an [i32]: the range panics where
    it would overflow, or the conversion of the wrapped value does. *)
Fixpoint legacy_portals_loop (fuel : nat) (limit page : Z) (legacy_portals : list PeerId)
  : option (res ClientError (list PeerId)) :=
  match fuel with
  | O => None
  | S fuel =>
      if 2 ^ 31 <=? page then Some Panic else
      match get_active_gateways page limit with
      | Ok ids =>
          let legacy_portals := legacy_portals ++ omap from_bytes ids in
          if Z.of_nat (length ids) <? limit then Some (Ok legacy_portals)
          else legacy_portals_loop fuel limit (page + 1) legacy_portals
      | Err e => Some (Err e)
      | Panic => Some Panic
      end
  end.

Definition active_portals (fuel : nat) (c : EthersClient) : option (res ClientError (list PeerId)) :=
  match (match portal_registry c with
         | Some _ => new_portals_loop fuel (portals_per_page c) 0 []
         | None => Some (Ok [])
         end) with
  | Some (Ok new_portals) =>
      match legacy_portals_loop fuel (portals_per_page c) 0 [] with
      | Some (Ok legacy_portals) => Some (Ok (merge_active_portals new_portals legacy_portals))
      | r => r
      end
  | r => r
  end.

Definition allocations_for (workers : list Worker) (cus : Z) : list CAllocation :=
  (fun w => mkCAllocation (w_peer_id w) (w_onchain_id w) cus) <$> workers.

Definition current_allocations (c : EthersClient) (portal_id : PeerId) (workers : option (list Worker))
  : res ClientError (list CAllocation) :=
  workers ← match workers with Some workers => Ok workers | None => active_workers c end;
  match workers with
  | [] => Ok []
  | first :: _ =>
      cluster ← cluster_of c portal_id;
      match cluster with
      | Some cluster_id =>
          cus ← get_computation_units cluster_id;
          Ok (allocations_for workers cus)
      | None =>
          strategy_addr ← get_used_strategy (to_bytes portal_id);
          if strategy_addr =? default_strategy_addr c then
            cus ← computation_units_per_epoch strategy_addr (to_bytes portal_id) (w_onchain_id first);
            Ok (allocations_for workers cus)
          else
            compute_units ← multi_computation_units strategy_addr (to_bytes portal_id) (w_onchain_id <$> workers);
            Ok (zip_with (fun w cus => mkCAllocation (w_peer_id w) (w_onchain_id w) cus) workers compute_units)
      end
  end.

Definition portal_compute_units_per_epoch (c : EthersClient) (portal_id : PeerId) : res ClientError Z :=
  cluster ← cluster_of c portal_id;
  match cluster with
  | Some cluster_id => cus ← get_computation_units cluster_id; into_u64 cus
  | None => cus ← computation_units_available (to_bytes portal_id); into_u64 cus
  end.

Definition portal_uses_default_strategy (c : EthersClient) (portal_id : PeerId) : res ClientError bool :=
  cluster ← cluster_of c portal_id;
  match cluster with
  | Some _ => Ok true
  | None =>
      strategy_addr ← get_used_strategy (to_bytes portal_id);
      Ok (strategy_addr =? default_strategy_addr c)
  end.

(** The body of the loop of [portal_clusters]: a cluster with compute units and at
    least one valid portal. *)
Definition cluster_entry (cluster : ClusterRow) (cus_total : Z) : option (PortalCluster (PeerId := PeerId)) :=
  if cus_total =? 0 then None
  else
    match omap from_bytes (cr_portals cluster) with
    | [] => None
    | portal_ids => Some (mkPortalCluster (cr_operator cluster) portal_ids cus_total)
    end.

Fixpoint new_clusters_loop (fuel : nat) (limit offset : Z) (new_clusters : list (PortalCluster (PeerId := PeerId)))
  : option (res ClientError (list (PortalCluster (PeerId := PeerId)))) :=
  match fuel with
  | O => None
  | S fuel =>
      match (page ← get_active_clusters offset limit;
             let '(cluster_ids, clusters, total_active) := page in
             let page_len := Z.of_nat (length clusters) in
             cluster_cus ← match cluster_ids with [] => Ok [] | _ => multi_get_computation_units cluster_ids end;
             let new_clusters := new_clusters ++ omap (fun '(c, cus) => cluster_entry c cus) (zip clusters cluster_cus) in
             offset ← add_u256 offset page_len;
             Ok (new_clusters, offset, (page_len =? 0) || (total_active <=? offset))) with
      | Ok (new_clusters, offset, stop) =>
          if stop : bool then Some (Ok new_clusters) else new_clusters_loop fuel limit offset new_clusters
      | Err e => Some (Err e)
      | Panic => Some Panic
      end
  end.

Fixpoint legacy_allocations_loop (fuel : nat) (worker_id limit page : Z) (acc : list ContractMerge.Allocation)
  : option (res ClientError (list ContractMerge.Allocation)) :=
  match fuel with
  | O => None
  | S fuel =>
      if 2 ^ 31 <=? page then Some Panic else
      match get_allocations worker_id page limit with
      | Ok allocations =>
          let acc := acc ++ allocations in
          if Z.of_nat (length allocations) <? limit then Some (Ok acc)
          else legacy_allocations_loop fuel worker_id limit (page + 1) acc
      | Err e => Some (Err e)
      | Panic => Some Panic
      end
  end.

Definition portal_clusters (fuel : nat) (c : EthersClient) (worker_id : Z)
  : option (res ClientError (list (PortalCluster (PeerId := PeerId)))) :=
  match (match portal_registry c with
         | Some _ => new_clusters_loop fuel (portals_per_page c) 0 []
         | None => Some (Ok [])
         end) with
  | Some (Ok new_clusters) =>
      match legacy_allocations_loop fuel worker_id (portals_per_page c) 0 [] with
      | Some (Ok legacy_allocations) => Some (Ok (merge_portal_clusters from_bytes new_clusters legacy_allocations))
      | Some (Err e) => Some (Err e)
      | Some Panic => Some Panic
      | None => None
      end
  | r => r
  end.

(** [operator.to_string()] is an argument. *)
Definition portal_sqd_locked (address_to_string : Z -> str) (c : EthersClient) (portal_id : PeerId)
  : res ClientError (option (str * (Z * Z))) :=
  let gateway :=
    op ← get_gateway (to_bytes portal_id);
    if op =? 0 then Ok None
    else
      amount ← get_stake op;
      staked ← into_u128 amount;
      Ok (Some (address_to_string op, ratio_new staked SQD_DECIMALS_DENOM)) in
  cluster ← cluster_of c portal_id;
  match cluster with
  | Some cluster_id =>
      row ← get_cluster cluster_id;
      if cr_operator row =? 0 then gateway
      else
        staked ← into_u128 (cr_total_staked row);
        Ok (Some (address_to_string (cr_operator row), ratio_new staked SQD_DECIMALS_DENOM))
  | None => gateway
  end.

End Client.
