(* ===== verification/ContractSetup.v ===== *)
(** * Creating a contract client
    (crates/contract-client/src/client.rs, transport.rs, error.rs)

    The client that reads a file instead of the chain comes first.

    The trait [Client] as a record of operations with its two implementations,
    the streams it provides, the conversions of errors, the RPC transport and
    [get_client].  HTTP and websocket clients, URLs, files and JSON belong to
    other crates and are arguments. *)

From S2P Require Import Prelude RustStd ContractMerge Whitelist ContractClient.
From Stdlib Require Import ZArith Lia Ascii String SpecFloat.
From stdpp Require Import base sets strings gmap numbers list.

Open Scope Z_scope.

(** * The static contract client ([DummyClient] of crates/contract-client/src/client.rs)

    A [Client] backed by the data of a JSON file.  The parsers of libp2p and ethers
    are arguments, with [Err] carried as [None]. *)

Record DummyWorker := mkDummyWorker {
  dw_peer_id : str; dw_onchain_id : str; dw_address : str; dw_bond : str;
  dw_registered_at : Z; dw_deregistered_at : option Z
}.

Record DummyPortalCluster := mkDummyPortalCluster {
  dc_operator_addr : str; dc_portal_ids : list str; dc_allocated_computation_units : str
}.

(** The maps are association lists with distinct keys. *)
Record DummyData := mkDummyData {
  dd_current_epoch : Z;
  dd_current_epoch_start : Z;
  dd_epoch_length_secs : Z;
  dd_workers : list DummyWorker;
  dd_portals : list str;
  dd_portal_clusters : list DummyPortalCluster;
  dd_worker_ids : list (str * str);
  dd_portal_compute_units : list (str * Z);
  dd_portal_uses_default_strategy : list (str * bool);
  dd_portal_sqd_locked : list (str * option (str * spec_float))
}.

Fixpoint map_get {V} (m : list (str * V)) (k : str) : option V :=
  match m with
  | [] => None
  | (k', v) :: m => if str_eqb k' k then Some v else map_get m k
  end.

Section Dummy.
Context {PeerId : Type} `{Countable PeerId}.
Context (peer_to_string : PeerId -> str) (peer_from_str : str -> option PeerId).
Context (u256_from_str address_from_str : str -> option Z).
Context (data : DummyData).

Definition parse_peer_id (s : str) : res ClientError PeerId := ok_or (peer_from_str s) InvalidPeerId.

Definition parse_u256 (s : str) : res ClientError Z :=
  ok_or (u256_from_str s) (Contract (lit "Invalid U256: " ++ s)).

Definition parse_address (s : str) : res ClientError Z :=
  ok_or (address_from_str s) (Contract (lit "Invalid Address: " ++ s)).

Definition dummy_current_epoch : res ClientError Z := Ok (dd_current_epoch data).
Definition dummy_current_epoch_start : res ClientError Z := unix_time (dd_current_epoch_start data).
Definition dummy_epoch_length : res ClientError Z := Ok (dd_epoch_length_secs data).

Definition dummy_worker_id (peer_id : PeerId) : res ClientError Z :=
  match map_get (dd_worker_ids data) (peer_to_string peer_id) with
  | Some id_str => parse_u256 id_str
  | None => Ok 0
  end.

Definition dummy_worker (w : DummyWorker) : res ClientError (Worker (PeerId := PeerId)) :=
  peer_id ← parse_peer_id (dw_peer_id w);
  onchain_id ← parse_u256 (dw_onchain_id w);
  address ← parse_address (dw_address w);
  bond ← parse_u256 (dw_bond w);
  Ok (mkWorker peer_id onchain_id address bond (dw_registered_at w) (dw_deregistered_at w)).

Definition dummy_active_workers : res ClientError (list (Worker (PeerId := PeerId))) :=
  rmap dummy_worker (dd_workers data).

Definition dummy_is_portal_registered (portal_id : PeerId) : res ClientError bool :=
  Ok (bool_decide (peer_to_string portal_id ∈ dd_portals data)).

Definition dummy_worker_registration_time (peer_id : PeerId) : res ClientError (option Z) :=
  match find (fun w => str_eqb (dw_peer_id w) (peer_to_string peer_id)) (dd_workers data) with
  | Some worker =>
      if 0 <? dw_registered_at worker then
        registered_at ← into_u64 (dw_registered_at worker);
        t ← unix_time registered_at;
        Ok (Some t)
      else Ok None
  | None => Ok None
  end.

Definition dummy_active_portals : res ClientError (list PeerId) := rmap parse_peer_id (dd_portals data).

Definition dummy_portal_compute_units_per_epoch (portal_id : PeerId) : res ClientError Z :=
  Ok (default 0 (map_get (dd_portal_compute_units data) (peer_to_string portal_id))).

Definition dummy_current_allocations (portal_id : PeerId) (workers : option (list (Worker (PeerId := PeerId))))
  : res ClientError (list (CAllocation (PeerId := PeerId))) :=
  workers ← match workers with Some workers => Ok workers | None => dummy_active_workers end;
  match workers with
  | [] => Ok []
  | _ =>
      let cus_per_epoch := default 0 (map_get (dd_portal_compute_units data) (peer_to_string portal_id)) in
      Ok (allocations_for workers cus_per_epoch)
  end.

Definition dummy_portal_uses_default_strategy (portal_id : PeerId) : res ClientError bool :=
  Ok (default true (map_get (dd_portal_uses_default_strategy data) (peer_to_string portal_id))).

Definition dummy_cluster (c : DummyPortalCluster) : res ClientError (PortalCluster (PeerId := PeerId)) :=
  operator ← parse_address (dc_operator_addr c);
  ids ← rmap parse_peer_id (dc_portal_ids c);
  cus ← parse_u256 (dc_allocated_computation_units c);
  Ok (mkPortalCluster operator ids cus).

Definition dummy_portal_clusters (worker_id : Z) : res ClientError (list (PortalCluster (PeerId := PeerId))) :=
  rmap dummy_cluster (dd_portal_clusters data).

Definition dummy_portal_sqd_locked (portal_id : PeerId) : res ClientError (option (str * (Z * Z))) :=
  match map_get (dd_portal_sqd_locked data) (peer_to_string portal_id) with
  | Some (Some (addr, ratio)) => Ok (Some (addr, (f64_as_u128 ratio, 1)))
  | Some None => Ok None
  | None => Ok None
  end.

End Dummy.

(** [str::starts_with] *)
Fixpoint starts_with (s prefix : str) : bool :=
  match prefix, s with
  | [], _ => true
  | p :: prefix, c :: s => Ascii.eqb c p && starts_with s prefix
  | _ :: _, [] => false
  end.

(** ** error.rs: conversions *)

(** ethers' [ContractError]: a revert with its data, or another error; [text] is
    what [to_string] prints. *)
Inductive ContractError := Revert (data : list Z) (text : str) | OtherContractError (text : str).

Definition contract_error_into (from_utf8_lossy : list Z -> str) (err : ContractError) : ClientError :=
  Contract match err with
           | Revert bs text => default text (decode_error from_utf8_lossy bs)
           | OtherContractError text => text
           end.

(** [MulticallError], [AbiError], [serde_json::Error] and [std::io::Error], of which
    the text is kept. *)
Definition text_error_into (text : str) : ClientError := Contract text.

(** ** transport.rs *)

Section RpcTransport.
Context {Http Ws HttpError WsError : Type}.

Inductive Transport := THttp (http : Http) | TWs (ws : Ws).
Inductive TransportError := TEHttp (e : HttpError) | TEWs (e : WsError).

Definition transport_error_display (http_text : HttpError -> str) (ws_text : WsError -> str) (e : TransportError) : str :=
  match e with TEHttp e => http_text e | TEWs e => ws_text e end.

(** [as_error_response], [as_serde_error] and the conversion into a
    [ProviderError] hand the question to the error inside. *)
Definition as_error_response {J : Type} (http : HttpError -> option J) (ws : WsError -> option J) (e : TransportError) : option J :=
  match e with TEHttp e => http e | TEWs e => ws e end.

Definition as_serde_error {J : Type} (http : HttpError -> option J) (ws : WsError -> option J) (e : TransportError) : option J :=
  match e with TEHttp e => http e | TEWs e => ws e end.

Definition transport_error_into {P : Type} (http : HttpError -> P) (ws : WsError -> P) (e : TransportError) : P :=
  match e with TEHttp e => http e | TEWs e => ws e end.

(** The clients of reqwest and ethers: an HTTP client is built with a timeout. *)
Context {Url HttpC : Type}.
Context (build_http : Z -> res str HttpC) (parse_url : str -> res str Url)
        (new_with_client : Url -> HttpC -> Http) (ws_connect : str -> res str Ws).

Definition connect (rpc_url : str) (timeout : Z) : res ClientError Transport :=
  if starts_with rpc_url (lit "http") then
    client ← map_err HttpClient (build_http timeout);
    url ← map_err InvalidRpcUrl (parse_url rpc_url);
    Ok (THttp (new_with_client url client))
  else if starts_with rpc_url (lit "ws") then
    ws ← map_err WsClient (ws_connect rpc_url);
    Ok (TWs ws)
  else Err InvalidProtocol.

(** [JsonRpcClient::request] *)
Definition request {R : Type} (http : Http -> str -> list str -> res HttpError R)
    (ws : Ws -> str -> list str -> res WsError R) (t : Transport) (method : str) (params : list str)
  : res TransportError R :=
  match t with
  | THttp provider => map_err TEHttp (http provider method params)
  | TWs provider => map_err TEWs (ws provider method params)
  end.

(** A transport over HTTP carries a client with the timeout it was asked for; the
    scheme of the URL decides which transport it is, and a URL with another scheme
    gives none. *)
Lemma connect_bounds_requests url timeout :
  match connect url timeout with
  | Ok (THttp http) => starts_with url (lit "http") = true /\
      exists u c, build_http timeout = Ok c /\ parse_url url = Ok u /\ http = new_with_client u c
  | Ok (TWs ws) => starts_with url (lit "http") = false /\ starts_with url (lit "ws") = true /\ ws_connect url = Ok ws
  | Err InvalidProtocol => starts_with url (lit "http") = false /\ starts_with url (lit "ws") = false
  | _ => True
  end.
Proof.
  unfold connect. destruct (starts_with url (lit "http")).
  - destruct (build_http timeout) as [c | |]; cbn; [| done..]. destruct (parse_url url) as [u | |]; cbn; [| done..].
    split; [done |]. by exists u, c.
  - destruct (starts_with url (lit "ws")); [| done]. by destruct (ws_connect url).
Qed.

End RpcTransport.

Arguments Transport Http Ws : clear implicits.
Arguments TransportError HttpError WsError : clear implicits.

(** ** The trait *)

Section ClientTrait.
Context {PeerId : Type} `{Countable PeerId}.
Notation Worker := (Worker (PeerId := PeerId)).

(** [trait Client], as it answers at one moment.  The two operations that read page
    by page are [None] when their loops do not end. *)
Record Client := mkClient {
  cl_current_epoch : res ClientError Z;
  cl_current_epoch_start : res ClientError Z;
  cl_epoch_length : res ClientError Z;
  cl_worker_id : PeerId -> res ClientError Z;
  cl_active_workers : res ClientError (list Worker);
  cl_is_portal_registered : PeerId -> res ClientError bool;
  cl_worker_registration_time : PeerId -> res ClientError (option Z);
  cl_active_portals : option (res ClientError (list PeerId));
  cl_current_allocations : PeerId -> option (list Worker) -> res ClientError (list (CAllocation (PeerId := PeerId)));
  cl_portal_compute_units_per_epoch : PeerId -> res ClientError Z;
  cl_portal_uses_default_strategy : PeerId -> res ClientError bool;
  cl_portal_clusters : Z -> option (res ClientError (list (PortalCluster (PeerId := PeerId))));
  cl_portal_sqd_locked : PeerId -> res ClientError (option (str * (Z * Z)))
}.

(** [clone_client]: a clone answers as the client itself. *)
Definition clone_client (c : Client) : Client := c.

(** [network_nodes_stream] and [epoch_stream]: the item of a tick of the interval,
    for a client that answers as [client i] at tick [i]. *)
Definition network_nodes_stream (second_first : nat -> bool) (client : nat -> Client) (i : nat)
  : option (res ClientError (NetworkNodes (PeerId := PeerId))) :=
  let client := clone_client (client i) in
  portals ← cl_active_portals client;
  Some (network_nodes (second_first i) portals (cl_active_workers client)).

Definition epoch_stream (client : nat -> Client) (i : nat) : res ClientError (Z * Z) :=
  let client := clone_client (client i) in
  epoch_number ← cl_current_epoch client;
  epoch_start ← cl_current_epoch_start client;
  Ok (epoch_number, epoch_start).

(** ** [impl Client for EthersClient], [impl Client for DummyClient] *)

Context (to_bytes : PeerId -> list Z) (from_bytes : list Z -> option PeerId) (address_to_string : Z -> str).

Definition ethers_client `{ContractCalls} (fuel : nat) (second_first : bool) (c : EthersClient) : Client :=
  mkClient current_epoch (current_epoch_start second_first) epoch_length (worker_id to_bytes)
    (active_workers from_bytes c) (is_portal_registered to_bytes c) (worker_registration_time to_bytes)
    (active_portals from_bytes fuel c) (current_allocations to_bytes from_bytes c)
    (portal_compute_units_per_epoch to_bytes c) (portal_uses_default_strategy to_bytes c)
    (portal_clusters from_bytes fuel c) (portal_sqd_locked to_bytes address_to_string c).

Context (peer_to_string : PeerId -> str) (peer_from_str : str -> option PeerId)
        (u256_from_str address_from_str : str -> option Z).

(** [DummyClient::new] *)
Definition dummy_client (data : DummyData) : Client :=
  mkClient (dummy_current_epoch data) (dummy_current_epoch_start data) (dummy_epoch_length data)
    (dummy_worker_id peer_to_string u256_from_str data)
    (dummy_active_workers peer_from_str u256_from_str address_from_str data)
    (dummy_is_portal_registered peer_to_string data) (dummy_worker_registration_time peer_to_string data)
    (Some (dummy_active_portals peer_from_str data))
    (dummy_current_allocations peer_to_string peer_from_str u256_from_str address_from_str data)
    (dummy_portal_compute_units_per_epoch peer_to_string data)
    (dummy_portal_uses_default_strategy peer_to_string data)
    (fun w => Some (dummy_portal_clusters peer_from_str u256_from_str address_from_str data w))
    (dummy_portal_sqd_locked peer_to_string data).

(** ** [get_client] *)

Context {Http Ws Url HttpC : Type}.
Context (build_http : Z -> res str HttpC) (parse_url : str -> res str Url)
        (new_with_client : Url -> HttpC -> Http) (ws_connect : str -> res str Ws).
Context (read_file : str -> res str (list Z)) (from_slice : list Z -> res str DummyData).

(** The contracts as they answer at a moment, over the transports to the two chains;
    the first read is that of the default strategy. *)
Context (contracts : Transport Http Ws -> Transport Http Ws -> nat -> ContractCalls)
        (read_default_strategy : Transport Http Ws -> Z -> res ClientError Z).

Definition get_client (fuel : nat) (second_first : nat -> bool) (rpc_args : RpcArgs) : res ClientError (nat -> Client) :=
  match dummy_client_file_path rpc_args with
  | Some path =>
      data ← map_err text_error_into (read_file path);
      dummy_data ← map_err text_error_into (from_slice data);
      Ok (fun _ => dummy_client dummy_data)
  | None =>
      l2_client ← connect build_http parse_url new_with_client ws_connect (rpc_url rpc_args) (rpc_timeout_sec rpc_args);
      l1_client ← connect build_http parse_url new_with_client ws_connect (l1_rpc_url rpc_args) (rpc_timeout_sec rpc_args);
      client ← EthersClient_new (read_default_strategy l2_client (gateway_registry_addr rpc_args)) rpc_args;
      Ok (fun i => ethers_client (H0 := contracts l1_client l2_client i) fuel (second_first i) client)
  end.

End ClientTrait.
