(* ===== verification/ContractProps.v ===== *)
(** * What the contract client reports

    Read page by page from contracts that do not change meanwhile
    ([ContractSnapshot]), the client reports exactly what they hold. *)

From S2P Require Import Prelude RustStd ContractMerge Whitelist ContractClient.
From Stdlib Require Import ZArith Lia Ascii String.
From stdpp Require Import base sets strings gmap numbers list.

Open Scope Z_scope.

Notation len l := (Z.of_nat (length l)).

(** Page [off .. off + n) of a list. *)
Definition slice {A} (off n : Z) (l : list A) : list A := take (Z.to_nat n) (drop (Z.to_nat off) l).

Lemma slice_all {A} off n (l : list A) : 0 <= off -> 0 <= n -> len l <= off + n -> slice off n l = drop (Z.to_nat off) l.
Proof. intros. unfold slice. apply take_ge. rewrite length_drop. lia. Qed.

Lemma length_slice {A} off n (l : list A) : 0 <= off -> 0 <= n ->
  len (slice off n l) = Z.max 0 (Z.min n (len l - off)).
Proof. intros. unfold slice. rewrite length_take, length_drop. lia. Qed.

Lemma slice_drop {A} off n (l : list A) : 0 <= off -> 0 <= n ->
  drop (Z.to_nat off) l = slice off n l ++ drop (Z.to_nat (off + n)) l.
Proof.
  intros. unfold slice. rewrite <- (take_drop (Z.to_nat n) (drop (Z.to_nat off) l)) at 1.
  by rewrite drop_drop, Z2Nat.inj_add.
Qed.

Lemma slice_fmap {A B} (f : A -> B) off n l : slice off n (f <$> l) = f <$> slice off n l.
Proof. unfold slice. by rewrite <- fmap_drop, <- fmap_take. Qed.

(** ** A state of the contracts *)

(** What the contracts hold: the active clusters with their ids and compute units,
    the active gateways, the allocations of each worker, the workers. *)
Class ContractSnapshot `{ContractCalls} := {
  all_clusters : list (Z * ClusterRow);
  cluster_cus : Z -> Z;
  all_gateways : list (list Z);
  all_allocations : Z -> list ContractMerge.Allocation;
  all_workers : list Z;
  worker_row : Z -> WorkerRow;
  snap_clusters off n : 0 <= off -> 0 <= n ->
    get_active_clusters off n = Ok ((slice off n all_clusters).*1, (slice off n all_clusters).*2, len all_clusters);
  snap_cus ids : multi_get_computation_units ids = Ok (cluster_cus <$> ids);
  snap_gateways page n : 0 <= page -> 0 <= n -> get_active_gateways page n = Ok (slice (page * n) n all_gateways);
  snap_allocations w page n : 0 <= page -> 0 <= n -> get_allocations w page n = Ok (slice (page * n) n (all_allocations w));
  snap_worker_ids : get_active_worker_ids = Ok all_workers;
  snap_workers ids : multi_get_worker ids = Ok (worker_row <$> ids)
}.

Section Paging.
Context {PeerId : Type} `{Countable PeerId}.
Context (from_bytes : list Z -> option PeerId).
Context `{ContractSnapshot}.

Lemma add_u256_small {E} a b : a + b < 2 ^ 31 -> add_u256 (E := E) a b = Ok (a + b).
Proof.
  intros. unfold add_u256, u256_max. destruct (Z.ltb_spec (2 ^ 256 - 1) (a + b)); [|done].
  assert (2 ^ 31 < 2 ^ 256) by reflexivity. lia.
Qed.

(** The valid portals of some clusters, in order. *)
Definition portals_in (clusters : list (Z * ClusterRow)) : list PeerId :=
  clusters ≫= fun c => omap from_bytes (cr_portals c.2).

Lemma portals_in_page clusters :
  (clusters.*2 ≫= fun c => omap from_bytes (cr_portals c)) = portals_in clusters.
Proof. unfold portals_in. induction clusters as [|c clusters IH]; [done|]. cbn. by f_equal. Qed.

Lemma portals_in_app a b : portals_in (a ++ b) = portals_in a ++ portals_in b.
Proof. apply bind_app. Qed.

(** The loop over the new registry ends with everything from [off] on. *)
Lemma new_portals_loop_all fuel n off acc :
  0 < n -> 0 <= off -> len all_clusters < 2 ^ 31 -> (length (drop (Z.to_nat off) all_clusters) < fuel)%nat ->
  off <= len all_clusters ->
  new_portals_loop from_bytes fuel n off acc = Some (Ok (acc ++ portals_in (drop (Z.to_nat off) all_clusters))).
Proof.
  intros Hn. revert off acc; induction fuel as [|fuel IH]; intros off acc Ho Hl Hf Hle; [lia|].
  cbn [new_portals_loop]. rewrite snap_clusters by lia. rewrite portals_in_page, !length_fmap.
  pose proof (length_slice off n all_clusters) as Hs. rewrite length_drop in Hf.
  rewrite add_u256_small by lia.
  destruct (Z.leb_spec (len all_clusters) (off + len (slice off n all_clusters))).
  - rewrite orb_true_r. by rewrite (slice_all off n) by lia.
  - assert (Hfull : len (slice off n all_clusters) = n) by lia. rewrite Hfull.
    destruct (Z.eqb_spec n 0); [lia|]. cbn [orb]. rewrite IH; [|lia..|rewrite length_drop; lia|lia].
    by rewrite (slice_drop off n), portals_in_app, app_assoc by lia.
Qed.

(** A page that is not full is the last. *)
Lemma legacy_portals_loop_all fuel n page acc :
  0 < n -> 0 <= page -> page < 2 ^ 31 -> len all_gateways < 2 ^ 31 ->
  (length (drop (Z.to_nat (page * n)) all_gateways) < fuel)%nat ->
  legacy_portals_loop from_bytes fuel n page acc =
    Some (Ok (acc ++ omap from_bytes (drop (Z.to_nat (page * n)) all_gateways))).
Proof.
  intros Hn. revert page acc; induction fuel as [|fuel IH]; intros page acc Hp Hb Hl Hf; [lia|].
  cbn [legacy_portals_loop]. destruct (Z.leb_spec (2 ^ 31) page); [lia|]. rewrite snap_gateways by lia.
  pose proof (length_slice (page * n) n all_gateways) as Hs. rewrite length_drop in Hf.
  destruct (Z.ltb_spec (len (slice (page * n) n all_gateways)) n).
  - by rewrite (slice_all (page * n) n) by lia.
  - assert (Hfull : len (slice (page * n) n all_gateways) = n) by lia.
    assert (page * n + n <= len all_gateways) by lia.
    rewrite IH; [|lia|nia|lia|rewrite length_drop; lia].
    rewrite (slice_drop (page * n) n), omap_app, app_assoc by lia. do 5 f_equal. lia.
Qed.

Lemma legacy_allocations_loop_all fuel w n page acc :
  0 < n -> 0 <= page -> page < 2 ^ 31 -> len (all_allocations w) < 2 ^ 31 ->
  (length (drop (Z.to_nat (page * n)) (all_allocations w)) < fuel)%nat ->
  legacy_allocations_loop fuel w n page acc = Some (Ok (acc ++ drop (Z.to_nat (page * n)) (all_allocations w))).
Proof.
  intros Hn. revert page acc; induction fuel as [|fuel IH]; intros page acc Hp Hb Hl Hf; [lia|].
  cbn [legacy_allocations_loop]. destruct (Z.leb_spec (2 ^ 31) page); [lia|]. rewrite snap_allocations by lia.
  pose proof (length_slice (page * n) n (all_allocations w)) as Hs. rewrite length_drop in Hf.
  destruct (Z.ltb_spec (len (slice (page * n) n (all_allocations w))) n).
  - by rewrite (slice_all (page * n) n) by lia.
  - assert (Hfull : len (slice (page * n) n (all_allocations w)) = n) by lia.
    assert (page * n + n <= len (all_allocations w)) by lia.
    rewrite IH; [|lia|nia|lia|rewrite length_drop; lia].
    rewrite (slice_drop (page * n) n), app_assoc by lia. do 5 f_equal. lia.
Qed.

(** The clusters that count, with their compute units. *)
Definition entries_in (clusters : list (Z * ClusterRow)) : list (PortalCluster (PeerId := PeerId)) :=
  omap (fun c => cluster_entry from_bytes c.2 (cluster_cus c.1)) clusters.

Lemma entries_in_page clusters :
  omap (fun '(c, cus) => cluster_entry from_bytes c cus) (zip clusters.*2 (cluster_cus <$> clusters.*1)) =
    entries_in clusters.
Proof.
  induction clusters as [|[id row] clusters IH]; [done|]. unfold entries_in in *; cbn.
  destruct (cluster_entry from_bytes row (cluster_cus id)); [f_equal|]; exact IH.
Qed.

Lemma new_clusters_loop_all fuel n off acc :
  0 < n -> 0 <= off -> len all_clusters < 2 ^ 31 -> (length (drop (Z.to_nat off) all_clusters) < fuel)%nat ->
  off <= len all_clusters ->
  new_clusters_loop from_bytes fuel n off acc = Some (Ok (acc ++ entries_in (drop (Z.to_nat off) all_clusters))).
Proof.
  intros Hn. revert off acc; induction fuel as [|fuel IH]; intros off acc Ho Hl Hf Hle; [lia|].
  cbn [new_clusters_loop]. rewrite snap_clusters by lia. cbn [mbind res_bind].
  pose proof (length_slice off n all_clusters) as Hs. rewrite length_drop in Hf.
  assert (Hcus : match (slice off n all_clusters).*1 with
                 | [] => Ok [] | _ => multi_get_computation_units (slice off n all_clusters).*1 end =
                 Ok (cluster_cus <$> (slice off n all_clusters).*1)).
  { rewrite snap_cus. by destruct (slice off n all_clusters). }
  rewrite Hcus. cbn [mbind res_bind]. rewrite entries_in_page, !length_fmap.
  rewrite add_u256_small by lia. cbn [mbind res_bind].
  destruct (Z.leb_spec (len all_clusters) (off + len (slice off n all_clusters))).
  - rewrite orb_true_r. by rewrite (slice_all off n) by lia.
  - assert (Hfull : len (slice off n all_clusters) = n) by lia. rewrite Hfull.
    destruct (Z.eqb_spec n 0); [lia|]. cbn [orb]. rewrite IH; [|lia..|rewrite length_drop; lia|lia].
    rewrite (slice_drop off n) by lia. unfold entries_in. by rewrite omap_app, app_assoc.
Qed.

(** ** Workers *)

Lemma concat_chunks {A} fuel n (l : list A) : (0 < n)%nat -> (length l <= fuel)%nat ->
  concat (chunks_fuel fuel n l) = l.
Proof.
  intros Hn. revert l; induction fuel as [|fuel IH]; intros l Hl; [destruct l; [done|cbn in Hl; lia]|].
  destruct l as [|x l]; [done|]. cbn [chunks_fuel concat]. rewrite IH.
  - apply take_drop.
  - rewrite length_drop. cbn in *. lia.
Qed.

Lemma active_workers_all c : 0 < active_workers_per_page c ->
  active_workers from_bytes c =
    Ok (omap (fun id => match worker_new from_bytes (worker_row id) id with Ok w => Some w | _ => None end) all_workers).
Proof.
  intros Hn. unfold active_workers. rewrite snap_worker_ids. cbn [mbind res_bind]. unfold chunks.
  destruct (Z.eqb_spec (active_workers_per_page c) 0); [lia|]. cbn [mbind res_bind].
  rewrite (rmap_ok _ (fun ids : list Z => worker_row <$> ids)) by (intros; apply snap_workers). cbn [mbind res_bind]. f_equal.
  assert (E : concat ((fun ids : list Z => worker_row <$> ids) <$> chunks_fuel (length all_workers) (Z.to_nat (active_workers_per_page c))
    all_workers) = worker_row <$> all_workers).
  { rewrite <- (concat_chunks (length all_workers) (Z.to_nat (active_workers_per_page c)) all_workers) at 3 by lia.
    generalize (chunks_fuel (length all_workers) (Z.to_nat (active_workers_per_page c)) all_workers).
    induction l as [|x l IH]; cbn; [done|]. by rewrite fmap_app, <- IH. }
  rewrite E. clear. induction all_workers as [|id ids IH]; [done|]. cbn.
  destruct (worker_new from_bytes (worker_row id) id); [f_equal| |]; exact IH.
Qed.

(** ** Properties *)

Lemma elem_of_portals_in p clusters :
  p ∈ portals_in clusters <-> exists cl raw, cl ∈ clusters /\ raw ∈ cr_portals cl.2 /\ from_bytes raw = Some p.
Proof.
  unfold portals_in. rewrite list_elem_of_bind. setoid_rewrite list_elem_of_omap. naive_solver.
Qed.

Lemma active_portals_all fuel c :
  0 < portals_per_page c -> len all_clusters < 2 ^ 31 -> len all_gateways < 2 ^ 31 ->
  (length all_clusters < fuel)%nat -> (length all_gateways < fuel)%nat ->
  active_portals from_bytes fuel c =
    Some (Ok (merge_active_portals
      (match portal_registry c with Some _ => portals_in all_clusters | None => [] end)
      (omap from_bytes all_gateways))).
Proof.
  intros Hn Hc Hg Fc Fg. unfold active_portals.
  rewrite (legacy_portals_loop_all fuel (portals_per_page c) 0 []) by (rewrite ?drop_0; cbn; lia).
  destruct (portal_registry c); [|done].
  rewrite (new_portals_loop_all fuel (portals_per_page c) 0 []) by (rewrite ?drop_0; cbn; lia). done.
Qed.

(** C22: The nodes the client reports are the nodes registered on chain.  With page sizes
    of at least one, reading page by page terminates (after at most as many reads
    as there are entries, plus one) and loses nothing: the portals are, once each,
    those with a valid peer id in an active cluster of the new registry (when it is
    enabled) or among the legacy gateways; the workers are the active ones with a
    valid peer id; and these sets are what the whitelist is given. *)
Theorem registered_nodes_correct fuel c order :
  0 < portals_per_page c -> 0 < active_workers_per_page c ->
  len all_clusters < 2 ^ 31 -> len all_gateways < 2 ^ 31 ->
  (length all_clusters < fuel)%nat -> (length all_gateways < fuel)%nat ->
  exists ps ws nodes,
    active_portals from_bytes fuel c = Some (Ok ps) /\ active_workers from_bytes c = Ok ws /\
    network_nodes order (Ok ps) (Ok ws) = Ok nodes /\ NoDup ps /\
    (forall p, p ∈ portals nodes <->
       is_Some (portal_registry c) /\
         (exists cl raw, cl ∈ all_clusters /\ raw ∈ cr_portals cl.2 /\ from_bytes raw = Some p) \/
       (exists raw, raw ∈ all_gateways /\ from_bytes raw = Some p)) /\
    (forall p, p ∈ workers nodes <->
       exists id, id ∈ all_workers /\ from_bytes (wr_peer_id (worker_row id)) = Some p).
Proof.
  intros Hp Hw Hc Hg Fc Fg. eexists _, _, _. split_and!.
  - by apply active_portals_all.
  - by apply active_workers_all.
  - by destruct order.
  - apply NoDup_filter_seen.
  - intros p. cbn. rewrite elem_of_list_to_set. unfold merge_active_portals.
    rewrite elem_of_filter_seen, elem_of_app, list_elem_of_omap.
    destruct (portal_registry c); [rewrite elem_of_portals_in|]; set_solver.
  - intros p. cbn. rewrite elem_of_list_to_set, list_elem_of_fmap. setoid_rewrite list_elem_of_omap.
    unfold worker_new. split.
    + intros (w & -> & id & Hin & E). exists id; split; [done|].
      destruct (from_bytes (wr_peer_id (worker_row id))) eqn:F; cbn in E; by simplify_eq.
    + intros (id & Hin & F). eexists. split; [|exists id; split; [done|]; by rewrite F]. done.
Qed.

(** C34: The clusters a worker is given are the merge of everything on chain: reading page
    by page terminates and combines exactly the active clusters that have compute
    units and a valid portal, each with its own units, with all legacy allocations
    of the worker. *)
Theorem portal_clusters_reads_all fuel c w :
  0 < portals_per_page c -> len all_clusters < 2 ^ 31 -> len (all_allocations w) < 2 ^ 31 ->
  (length all_clusters < fuel)%nat -> (length (all_allocations w) < fuel)%nat ->
  portal_clusters from_bytes fuel c w =
    Some (Ok (merge_portal_clusters from_bytes
      (match portal_registry c with Some _ => entries_in all_clusters | None => [] end)
      (all_allocations w))).
Proof.
  intros Hn Hc Hg Fc Fg. unfold portal_clusters.
  rewrite (legacy_allocations_loop_all fuel w (portals_per_page c) 0 []) by (rewrite ?drop_0; cbn; lia).
  destruct (portal_registry c); [|done].
  rewrite (new_clusters_loop_all fuel (portals_per_page c) 0 []) by (rewrite ?drop_0; cbn; lia). done.
Qed.

End Paging.

(** ** Allocations *)

Section Allocations.
Context {PeerId : Type} `{Countable PeerId}.
Context (to_bytes : PeerId -> list Z) (from_bytes : list Z -> option PeerId).
Context `{ContractCalls}.

(** The reference: one query per worker. *)
Definition allocations_one_by_one (c : EthersClient) (portal_id : PeerId) (workers : list (Worker (PeerId := PeerId)))
  : res ClientError (list CAllocation) :=
  cluster ← cluster_of to_bytes c portal_id;
  cus_of ← match cluster with
           | Some cluster_id => cus ← get_computation_units cluster_id; Ok (fun _ => Ok cus)
           | None => addr ← get_used_strategy (to_bytes portal_id);
                     Ok (computation_units_per_epoch addr (to_bytes portal_id))
           end;
  rmap (fun w => cus ← cus_of (w_onchain_id w); Ok (mkCAllocation (w_peer_id w) (w_onchain_id w) cus)) workers.

Lemma rmap_const {E A B} (f : A -> B) (g : A -> res E B) l : (forall x, g x = Ok (f x)) -> rmap g l = Ok (f <$> l).
Proof. intros Hg. apply rmap_ok. auto. Qed.

(** Asking for one worker is as good as asking for all.  If the default strategy
    gives every worker the same compute units, as it is documented to, and a
    multicall answers like its calls, then [current_allocations], which asks once
    for the whole list where it can, returns what one query per worker would, in
    the order of the workers, failures included. *)
Theorem current_allocations_correct c portal_id first rest :
  (forall w w', computation_units_per_epoch (default_strategy_addr c) (to_bytes portal_id) w =
                computation_units_per_epoch (default_strategy_addr c) (to_bytes portal_id) w') ->
  (forall addr ids, multi_computation_units addr (to_bytes portal_id) ids =
                    rmap (computation_units_per_epoch addr (to_bytes portal_id)) ids) ->
  current_allocations to_bytes from_bytes c portal_id (Some (first :: rest)) =
    allocations_one_by_one c portal_id (first :: rest).
Proof.
  intros Heven Hmulti. unfold current_allocations, allocations_one_by_one. cbn [mbind res_bind].
  destruct (cluster_of to_bytes c portal_id) as [[id|]| |]; cbn [mbind res_bind]; [| |done..].
  - destruct (get_computation_units id) as [cus| |]; cbn [mbind res_bind]; [|done..].
    by rewrite (rmap_const (fun w => mkCAllocation (w_peer_id w) (w_onchain_id w) cus)).
  - destruct (get_used_strategy (to_bytes portal_id)) as [addr| |]; cbn [mbind res_bind]; [|done..].
    destruct (Z.eqb_spec addr (default_strategy_addr c)) as [->|_].
    + destruct (computation_units_per_epoch (default_strategy_addr c) (to_bytes portal_id) (w_onchain_id first))
        as [cus| |] eqn:E; cbn [mbind res_bind]; [|cbn; by rewrite E..].
      rewrite (rmap_const (fun w => mkCAllocation (w_peer_id w) (w_onchain_id w) cus)); [done|].
      intros w. by rewrite (Heven _ (w_onchain_id first)), E.
    + rewrite Hmulti. generalize (first :: rest). induction l as [|w l IH]; [done|]. cbn.
      destruct (computation_units_per_epoch addr (to_bytes portal_id) (w_onchain_id w)) as [cus| |]; cbn; [|done..].
      cbn in IH. rewrite <- IH. by destruct (rmap _ (w_onchain_id <$> l)).
Qed.

(** A page size of zero is not refused.  With [contract_portals_per_page = 0] the loop
    over the legacy gateways does not end before it has read [2 ^ 31] empty pages,
    whatever the registry holds; with [contract_workers_per_page = 0] reading the
    workers panics. *)
Theorem zero_page_size_does_not_work c fuel acc :
  (forall page, get_active_gateways page 0 = Ok []) -> Z.of_nat fuel < 2 ^ 31 ->
  legacy_portals_loop from_bytes fuel 0 0 acc = None /\
  (forall ids, get_active_worker_ids = Ok ids -> active_workers_per_page c = 0 ->
   active_workers from_bytes c = Panic).
Proof.
  intros Hempty Hf. split.
  - enough (G : forall page, 0 <= page -> page + Z.of_nat fuel < 2 ^ 31 ->
      legacy_portals_loop from_bytes fuel 0 page acc = None) by (apply G; lia).
    clear Hf. induction fuel as [|fuel IH]; intros page Hp Hb; [done|]. cbn [legacy_portals_loop].
    destruct (Z.leb_spec (2 ^ 31) page); [lia|]. rewrite Hempty. cbn. rewrite app_nil_r. apply IH; lia.
  - intros ids Hids Hz. unfold active_workers. rewrite Hids. cbn. unfold chunks. by rewrite Hz.
Qed.

End Allocations.

(** ** Revert reasons *)

(** A word of the contract ABI: 32 bytes, big-endian. *)
Definition abi_word (x : Z) : list Z := reverse (to_le_bytes 32 x).

(** [Error(string)] as Solidity encodes it: selector, offset, length, data, padding. *)
Definition abi_error (data padding : list Z) : list Z :=
  [0x08; 0xc3; 0x79; 0xa0] ++ abi_word 32 ++ abi_word (len data) ++ data ++ padding.

(** A decoded revert reason is not the reason.  For every error that Solidity encodes,
    [decode_error] returns the text of everything behind the offset: the length
    word comes before the message and the padding after it. *)
Theorem decode_error_keeps_length_word from_utf8_lossy data padding :
  decode_error from_utf8_lossy (abi_error data padding) =
    Some (from_utf8_lossy (abi_word (len data) ++ data ++ padding)).
Proof.
  assert (L : forall x, length (abi_word x) = 32%nat)
    by (intros; unfold abi_word; by rewrite length_reverse, length_to_le_bytes).
  unfold decode_error, abi_error. rewrite !length_app, !L.
  destruct (Z.ltb_spec (Z.of_nat (length [0x08; 0xc3; 0x79; 0xa0] + (32 + (32 + (length data + length padding))))) 64);
    [cbn in *; lia|].
  set (rest := abi_word (len data) ++ data ++ padding).
  assert (E : [8; 195; 121; 160] ++ abi_word 32 ++ rest = ([8; 195; 121; 160] ++ abi_word 32) ++ rest) by (by rewrite app_assoc).
  rewrite E. rewrite (take_app_le ([8; 195; 121; 160] ++ abi_word 32) rest 4) by (vm_compute; lia).
  rewrite (drop_app_le ([8; 195; 121; 160] ++ abi_word 32) rest 28) by (vm_compute; lia).
  rewrite take_app_le by (vm_compute; lia). rewrite (drop_app_length' ([8; 195; 121; 160] ++ abi_word 32) rest 36) by reflexivity.
  reflexivity.
Qed.

(** * Concrete contracts

    Three clusters, three legacy gateways and two workers, read two at a time. *)

(** A peer id is a number, its bytes are that number. *)
Definition demo_to_bytes (p : Z) : list Z := [p].
Definition demo_from_bytes (b : list Z) : option Z := match b with [p] => Some p | _ => None end.

Definition demo_clusters : list (Z * ClusterRow) :=
  [(1, mkClusterRow 100 5 [[10]; [11]]); (2, mkClusterRow 200 6 [[12]; []]); (3, mkClusterRow 300 7 [[13]])].
Definition demo_gateways : list (list Z) := [[20]; [10]; []].
Definition demo_worker_row (id : Z) : WorkerRow := mkWorkerRow 7 [30 + id] 1 2 0.

#[global] Instance demo_calls : ContractCalls := {|
  epoch_number := Ok 5;
  next_epoch := Ok 1000;
  worker_epoch_length := Ok 100;
  get_block n := Ok (Some (mkBlock (Some n) (n * 12)));
  get_latest_block := Ok (Some (mkBlock (Some 950) 11400));
  worker_ids b := Ok 0;
  get_active_worker_ids := Ok [1; 2];
  get_worker id := Ok (demo_worker_row id);
  multi_get_worker ids := Ok (demo_worker_row <$> ids);
  get_cluster_id_by_peer_id b := Ok 0;
  get_computation_units id := Ok (id * 10);
  multi_get_computation_units ids := Ok ((fun id => id * 10) <$> ids);
  get_cluster id := Ok (mkClusterRow 0 0 []);
  get_active_clusters off n :=
    Ok ((slice off n demo_clusters).*1, (slice off n demo_clusters).*2, len demo_clusters);
  get_gateway b := Ok 0;
  get_stake a := Ok 0;
  get_used_strategy b := Ok 9;
  computation_units_available b := Ok 0;
  get_active_gateways page n := Ok (slice (page * n) n demo_gateways);
  computation_units_per_epoch addr b w := Ok 42;
  multi_computation_units addr b ws := rmap (fun _ => Ok 42) ws;
  get_allocations w page n := Ok (slice (page * n) n [mkAllocation [20] 3 400])
|}.

#[global] Instance demo_snapshot : ContractSnapshot.
Proof.
  refine {| all_clusters := demo_clusters; cluster_cus := fun id => id * 10; all_gateways := demo_gateways;
            all_allocations := fun _ => [mkAllocation [20] 3 400]; all_workers := [1; 2];
            worker_row := demo_worker_row |}; reflexivity.
Defined.

Definition demo_client : EthersClient := mkEthersClient (Some 1) 9 2 2.

Lemma registered_nodes_correct_witness :
  active_portals demo_from_bytes 9 demo_client = Some (Ok [10; 11; 12; 13; 20]) /\
  (exists nodes ps ws, network_nodes false (Ok ps) (Ok ws) = Ok nodes /\ 31 ∈ workers nodes).
Proof.
  split; [reflexivity|].
  destruct (registered_nodes_correct demo_from_bytes 9 demo_client false) as (ps & ws & nodes & _ & _ & E & _ & _ & W);
    [cbn; lia..|].
  exists nodes, ps, ws. split; [exact E|]. apply W. exists 1. split; [left|reflexivity].
Defined.

Lemma portal_clusters_reads_all_witness :
  portal_clusters demo_from_bytes 9 demo_client 1 =
    Some (Ok (merge_portal_clusters demo_from_bytes (entries_in demo_from_bytes demo_clusters)
                [mkAllocation [20] 3 400])).
Proof. exact (portal_clusters_reads_all demo_from_bytes 9 demo_client 1 eq_refl eq_refl
  eq_refl ltac:(cbn; lia) ltac:(cbn; lia)). Defined.

Definition demo_worker : Worker (PeerId := Z) := mkWorker 31 1 7 1 2 None.

Lemma current_allocations_correct_witness :
  current_allocations demo_to_bytes demo_from_bytes demo_client 20 (Some [demo_worker]) =
    Ok [mkCAllocation 31 1 42].
Proof.
  rewrite (current_allocations_correct demo_to_bytes demo_from_bytes demo_client 20 demo_worker []); reflexivity.
Defined.

(** A registry whose pages of size zero are empty is the usual case. *)
Lemma zero_page_size_witness : legacy_portals_loop demo_from_bytes 100 0 0 [] = None.
Proof.
  refine (proj1 (zero_page_size_does_not_work demo_from_bytes demo_client 100 [] _ _)); [|lia].
  intros page. cbn. unfold slice. reflexivity.
Defined.
