(* ===== verification/KeepAlive.v ===== *)
(** * Keep-alive and noise (behaviour/keep_alive.rs, behaviour/noise.rs)

    Two behaviours over [libp2p_stream]: one keeps a stream open on every
    connection so that it is never idle, the other writes random bytes to whoever
    asks.  The bytes of a stream are not modelled; a stream is a token, and how a
    read or a write on it ends is an argument of the task that does it. *)

From S2P Require Import Prelude RustStd Instances StreamShared StreamTheory StreamSystem StreamProps Actors.
From Stdlib Require Import ZArith Lia String.
From stdpp Require Import base sets strings gmap numbers list.

Open Scope Z_scope.

Definition NOISE_PROTOCOL : str := lit "/sqd/noise/0.0.1".

Section KeepAlive.
Context {PeerId ConnId Stream Chan : Type}.
Context `{Countable PeerId} `{Countable ConnId} `{Countable Chan}.
Context `{!Mpsc Chan (NewStream str)} `{!Mpsc Chan (PeerId * Stream)} `{!Mpsc Chan PeerId}.

Notation Shared := (@Shared PeerId ConnId str Stream Chan _ _ _ _ _ _ _ _ _ _ _).
Notation FromSwarm := (@FromSwarm PeerId ConnId).

(** [incoming.poll_next_unpin] until it is pending. *)
Fixpoint accept_streams (fuel : nat) (c : Chan) (inc : Chans Chan (PeerId * Stream))
  : list (PeerId * Stream) * Chans Chan (PeerId * Stream) :=
  match fuel with
  | O => ([], inc)
  | S fuel =>
      let '(r, inc) := mpsc_try_next c inc in
      match r with
      | None => ([], inc)
      | Some x => let '(l, inc) := accept_streams fuel c inc in (x :: l, inc)
      end
  end.

(** ** keep_alive.rs

    Besides the fields of [KeepAliveBehaviour] ([control] shares [ka_stream]), the
    tasks it has spawned: the peers it asks for a stream, and the streams it holds
    for peers that asked. *)
Record KeepAlive := mkKeepAlive {
  ka_stream : Shared;
  ka_incoming : Chan;
  ka_active : bool;
  ka_opening : list PeerId;
  ka_held : list (PeerId * Stream)
}.

Definition set_stream (s : Shared) (k : KeepAlive) : KeepAlive :=
  mkKeepAlive s (ka_incoming k) (ka_active k) (ka_opening k) (ka_held k).

(** [Default], on a fresh [Behaviour]; [expect] panics. *)
Definition keep_alive_default {E : Type} (stream : Shared) : res E KeepAlive :=
  match control_accept KEEP_ALIVE_PROTOCOL stream with
  | (Ok incoming, stream) => Ok (mkKeepAlive stream incoming false [] [])
  | _ => Panic
  end.

Definition keep_all_connections_alive (k : KeepAlive) : KeepAlive :=
  mkKeepAlive (ka_stream k) (ka_incoming k) true (ka_opening k) (ka_held k).

Definition ensure_keep_alive (peer : PeerId) (k : KeepAlive) : KeepAlive :=
  if negb (ka_active k) then k
  else mkKeepAlive (ka_stream k) (ka_incoming k) (ka_active k) (ka_opening k ++ [peer]) (ka_held k).

Definition keep_alive_on_swarm_event (choose : list ConnId -> option ConnId) (event : FromSwarm) (k : KeepAlive)
  : KeepAlive :=
  let k := match event with
           | FS_ConnectionEstablished peer_id _ => ensure_keep_alive peer_id k
           | _ => k
           end in
  set_stream (on_swarm_event choose event (ka_stream k)) k.

(** The result is the peer to dial, if any. *)
Definition keep_alive_poll (k : KeepAlive) : option PeerId * KeepAlive :=
  let s := ka_stream k in
  let '(accepted, inc) := accept_streams (S (length (mpsc_queue (ka_incoming k) (incoming s))))
                            (ka_incoming k) (incoming s) in
  let '(r, s) := behaviour_poll (set_incoming inc s) in
  (r, mkKeepAlive s (ka_incoming k) (ka_active k) (ka_opening k) (ka_held k ++ accepted)).

(** How the read of one byte from a held stream ends: end of stream, data, an
    error.  Every one of them ends the task, which drops the stream. *)
Inductive ReadOutcome := ReadClosed | ReadViolation | ReadFailed.

Definition keep_alive_read_ends (outcome : ReadOutcome) (i : nat) (k : KeepAlive) : KeepAlive :=
  mkKeepAlive (ka_stream k) (ka_incoming k) (ka_active k) (ka_opening k) (delete i (ka_held k)).

(** The spawned task: [open_stream] takes a sender, then sends its request [o]. *)
Definition task_sender (choose : list ConnId -> option ConnId) (peer : PeerId) (k : KeepAlive)
  : res IoError Chan * KeepAlive :=
  let '(r, s) := sender choose peer (ka_stream k) in (r, set_stream s k).

Definition task_send (c : Chan) (o : nat) (k : KeepAlive) : bool * KeepAlive :=
  let '(sent, s) := open_stream_send c (mkNewStream KEEP_ALIVE_PROTOCOL o) (ka_stream k) in (sent, set_stream s k).

(** ** noise.rs *)

Record Noise := mkNoise { nz_stream : Shared; nz_incoming : Chan; nz_writing : list (PeerId * Stream) }.

Definition noise_default {E : Type} (stream : Shared) : res E Noise :=
  match control_accept NOISE_PROTOCOL stream with
  | (Ok incoming, stream) => Ok (mkNoise stream incoming [])
  | _ => Panic
  end.

Definition noise_on_swarm_event (choose : list ConnId -> option ConnId) (event : FromSwarm) (n : Noise) : Noise :=
  mkNoise (on_swarm_event choose event (nz_stream n)) (nz_incoming n) (nz_writing n).

Definition noise_poll (n : Noise) : option PeerId * Noise :=
  let s := nz_stream n in
  let '(accepted, inc) := accept_streams (S (length (mpsc_queue (nz_incoming n) (incoming s))))
                            (nz_incoming n) (incoming s) in
  let '(r, s) := behaviour_poll (set_incoming inc s) in
  (r, mkNoise s (nz_incoming n) (nz_writing n ++ accepted)).

End KeepAlive.

(** The writing task, given the outcomes of its writes and of the final
    [close().await.unwrap()]: the bytes written, or [None] while it goes on. *)
Fixpoint noise_task (writes : list (res IoError Z)) (close : res IoError unit) : option (res IoError Z) :=
  match writes with
  | [] => None
  | Ok n :: writes =>
      match noise_task writes close with
      | Some (Ok m) => Some (Ok (n + m))
      | r => r
      end
  | _ :: _ => match close with Ok _ => Some (Ok 0) | _ => Some Panic end
  end.

(** * Keep-alive: what the behaviour does for a new connection *)

#[local] Arguments KEEP_ALIVE_PROTOCOL : simpl never.

Section Props.
Context {PeerId ConnId Stream Chan : Type}.
Context `{Countable PeerId} `{Countable ConnId} `{Countable Chan}.
Context `{!Mpsc Chan (NewStream str)} `{!Mpsc Chan (PeerId * Stream)} `{!Mpsc Chan PeerId}.
Context `{!MpscLaws Chan (NewStream str)} `{!MpscLaws Chan (PeerId * Stream)} `{!MpscLaws Chan PeerId}.

Notation Shared := (@Shared PeerId ConnId str Stream Chan _ _ _ _ _ _ _ _ _ _ _).
Notation queued s c := (mpsc_queue c (new_streams s)).
Notation closed s c := (mpsc_is_closed c (new_streams s)).
Notation KeepAlive := (@KeepAlive PeerId ConnId Stream Chan _ _ _ _ _ _ _ _ _).

(** The polling loop takes up every stream that has arrived. *)
Lemma accept_streams_all fuel (c : Chan) (inc : Chans Chan (PeerId * Stream)) :
  (length (mpsc_queue c inc) < fuel)%nat ->
  exists inc', accept_streams fuel c inc = (mpsc_queue c inc, inc') /\ mpsc_queue c inc' = [].
Proof.
  revert inc; induction fuel as [|fuel IH]; intros inc Hf; [lia|]. cbn.
  destruct (mpsc_queue c inc) as [|x q] eqn:Eq.
  - destruct (mpsc_try_next_nil _ _ Eq) as (h & -> & _ & Hq & _). by exists h.
  - destruct (mpsc_try_next_cons _ _ _ _ Eq) as (h & -> & _ & Hq & _).
    destruct (IH h) as (inc' & -> & Hq'); [rewrite Hq; cbn in Hf; lia|]. exists inc'. by rewrite Hq.
Qed.

(** A connected peer whose connections have open channels is given one of them; *)
Lemma connected_sender_ready (choose : list ConnId -> option ConnId) (p : PeerId) (conn : ConnId) (s : Shared) :
  valid_choose choose -> connections s !! conn = Some p ->
  (forall conn', connections s !! conn' = Some p -> exists c, senders s !! conn' = Some c /\ closed s c = false) ->
  exists conn' c, connected_sender choose p s = Some c /\ connections s !! conn' = Some p /\
    senders s !! conn' = Some c /\ closed s c = false.
Proof.
  intros V Hc Hall. unfold connected_sender.
  match goal with |- context [choose ?l] => pose proof (V l) as Hl; destruct (choose l) as [c'|] eqn:E end.
  - apply list_elem_of_omap in Hl as ([c2 q] & Hin%elem_of_map_to_list & E'). case_decide; [|done].
    injection E' as ->. subst q. destruct (Hall c' Hin) as (c & Hs & Ho). exists c', c. cbn. by rewrite Hs.
  - assert (conn ∈ @nil ConnId) as []%elem_of_nil. rewrite <- Hl.
    apply list_elem_of_omap. exists (conn, p); split; [by apply elem_of_map_to_list|by rewrite decide_True].
Qed.

(** a peer without one has none. *)
Lemma connected_sender_nobody (choose : list ConnId -> option ConnId) (p : PeerId) (s : Shared) :
  valid_choose choose -> (forall conn, connections s !! conn <> Some p) -> connected_sender choose p s = None.
Proof.
  intros V Hn. destruct (connected_sender choose p s) as [c|] eqn:E; [|done].
  apply connected_sender_Some in E as (conn & Hc & _); [by destruct (Hn conn)|exact V].
Qed.

(** Asking for a peer that is not connected opens a channel and asks for a dial. *)
Lemma sender_dials (choose : list ConnId -> option ConnId) (p : PeerId) (s : Shared) :
  valid_choose choose -> (forall conn, connections s !! conn <> Some p) -> pending_channels s !! p = None ->
  mpsc_is_closed (dial_sender s) (dials s) = false ->
  exists c h ds, sender choose p s =
      (Ok c, set_pending (<[p := c]> (pending_channels s)) (set_new_streams h (set_dials ds s))) /\
    c ∉ mpsc_live (new_streams s) /\ mpsc_queue c h = [] /\ mpsc_is_closed c h = false /\
    (forall c', c' <> c -> mpsc_queue c' h = queued s c' /\ mpsc_is_closed c' h = closed s c') /\
    mpsc_queue (dial_sender s) ds = mpsc_queue (dial_sender s) (dials s) ++ [p].
Proof.
  intros V Hn Hp Hd. unfold sender. rewrite connected_sender_nobody, Hp by done.
  destruct (mpsc_send_open _ p _ Hd) as (ds & -> & _ & Hq & _). cbn.
  destruct (mpsc_channel 0 (new_streams s)) as [c h] eqn:E.
  destruct (mpsc_channel_fresh _ _ _ _ E) as (F & _ & Q & C & O). by exists c, h, ds.
Qed.

(** What waits for a connection to the peer. *)
Definition waiting (p : PeerId) (s : Shared) : list (NewStream str) :=
  match pending_channels s !! p with Some c => queued s c | None => [] end.

(** Asking for a peer that is not connected, in general: the request will wait in the
    peer's pending channel, behind the others, and a new one comes with a dial. *)
Lemma sender_waits (choose : list ConnId -> option ConnId) (p : PeerId) (s : Shared) :
  valid_choose choose -> (forall conn, connections s !! conn <> Some p) ->
  mpsc_is_closed (dial_sender s) (dials s) = false ->
  (forall c, pending_channels s !! p = Some c -> closed s c = false) ->
  exists c s', sender choose p s = (Ok c, s') /\ pending_channels s' !! p = Some c /\
    connections s' = connections s /\ senders s' = senders s /\ answers s' = answers s /\
    closed s' c = false /\ queued s' c = waiting p s /\
    (forall c', c' ∈ mpsc_live (new_streams s) -> pending_channels s !! p <> Some c' ->
       c' <> c /\ queued s' c' = queued s c' /\ closed s' c' = closed s c') /\
    dial_sender s' = dial_sender s /\
    (pending_channels s !! p = None ->
     mpsc_queue (dial_sender s) (dials s') = mpsc_queue (dial_sender s) (dials s) ++ [p]).
Proof.
  intros V Hn Hd Ho. unfold waiting. destruct (pending_channels s !! p) as [c|] eqn:Hp.
  - exists c, s. unfold sender. rewrite connected_sender_nobody, Hp by done.
    split_and!; try done; [by apply Ho|]. intros c' _ Hne. split_and!; [congruence|done..].
  - destruct (sender_dials choose p s) as (c & h & ds & E & Fr & Hq & Hc & Hoth & Hdq); [done..|].
    eexists c, _. split; [exact E|]. cbn. split_and!; try done; [apply lookup_insert_eq|].
    intros c' Hl _. assert (c' <> c) by congruence. split; [done|]. by apply Hoth.
Qed.

(** The steps of a run: the swarm announces the connection, the behaviour is polled,
    the dial a request asked for is refused because the peer is by then connected. *)
Definition ka_announced (choose : list ConnId -> option ConnId) (p : PeerId) (conn : ConnId) (k : KeepAlive) : KeepAlive :=
  set_stream (on_swarm_event choose (FS_ConnectionEstablished p conn) (ka_stream k)) k.

Definition polls (n : nat) (k : KeepAlive) : KeepAlive := Nat.iter n (fun k => (keep_alive_poll k).2) k.

Definition dial_refused (choose : list ConnId -> option ConnId) (p : PeerId) (reason : str) (k : KeepAlive) : KeepAlive :=
  keep_alive_on_swarm_event choose (FS_DialFailure (Some p) DE_DialPeerConditionFalse reason) k.

(** Polls hand out the queued dials in order and leave the requests where they are. *)
Lemma polls_spec n (k : KeepAlive) :
  let s := ka_stream k in let s' := ka_stream (polls n k) in
  connections s' = connections s /\ senders s' = senders s /\ pending_channels s' = pending_channels s /\
  new_streams s' = new_streams s /\ answers s' = answers s /\ dial_sender s' = dial_sender s /\
  mpsc_queue (dial_sender s) (dials s') = drop n (mpsc_queue (dial_sender s) (dials s)) /\
  (keep_alive_poll (polls n k)).1 = mpsc_queue (dial_sender s) (dials s) !! n.
Proof.
  assert (One : forall k : KeepAlive, let s := ka_stream k in let s' := ka_stream (keep_alive_poll k).2 in
    connections s' = connections s /\ senders s' = senders s /\ pending_channels s' = pending_channels s /\
    new_streams s' = new_streams s /\ answers s' = answers s /\ dial_sender s' = dial_sender s /\
    mpsc_queue (dial_sender s) (dials s') = drop 1 (mpsc_queue (dial_sender s) (dials s)) /\
    (keep_alive_poll k).1 = head (mpsc_queue (dial_sender s) (dials s))).
  { clear k n. intros k. unfold keep_alive_poll, behaviour_poll.
    destruct (accept_streams _ _ _) as [acc inc]. cbn.
    destruct (mpsc_queue (dial_sender (ka_stream k)) (dials (ka_stream k))) as [|x q] eqn:Eq.
    - destruct (mpsc_try_next_nil _ _ Eq) as (ds & -> & _ & Hq & _). cbn. by split_and!.
    - destruct (mpsc_try_next_cons _ _ _ _ Eq) as (ds & -> & _ & Hq & _). cbn. by split_and!. }
  induction n as [|n IH]; cbv zeta in *.
  - cbn. split_and!; try done. rewrite (proj2 (proj2 (proj2 (proj2 (proj2 (proj2 (proj2 (One k)))))))).
    by destruct (mpsc_queue _ _).
  - destruct IH as (I1 & I2 & I3 & I4 & I5 & I6 & I7 & _). change (polls (S n) k) with (keep_alive_poll (polls n k)).2.
    set (k1 := polls n k) in *. destruct (One k1) as (O1 & O2 & O3 & O4 & O5 & O6 & O7 & _).
    destruct (One (keep_alive_poll k1).2) as (_ & _ & _ & _ & _ & _ & _ & O8).
    rewrite O8, O1, O2, O3, O4, O5, O6, I6. rewrite I6 in O7. rewrite O7, I7, drop_drop, Nat.add_1_r.
    split_and!; try done. rewrite head_lookup, lookup_drop. by rewrite Nat.add_0_r.
Qed.

Notation keep_alive_request o := (mkNewStream KEEP_ALIVE_PROTOCOL o).

(** A refused dial hands everything that waited for the peer to a connection of it
    and closes the channel it waited in. *)
Lemma dial_refused_spec (choose : list ConnId -> option ConnId) (p : PeerId) (c c' : Chan) reason (k : KeepAlive) :
  connected_sender choose p (ka_stream k) = Some c -> pending_channels (ka_stream k) !! p = Some c' -> c' <> c ->
  closed (ka_stream k) c = false ->
  let k' := dial_refused choose p reason k in
  queued (ka_stream k') c = queued (ka_stream k) c ++ queued (ka_stream k) c' /\
  closed (ka_stream k') c' = true /\ connections (ka_stream k') = connections (ka_stream k) /\
  senders (ka_stream k') = senders (ka_stream k) /\
  pending_channels (ka_stream k') !! p = None /\ answers (ka_stream k') = answers (ka_stream k).
Proof.
  intros Hs Hp N Ho. unfold dial_refused, keep_alive_on_swarm_event. cbn.
  destruct (on_dial_skipped_open choose p c' c (ka_stream k)) as (h & -> & _ & _ & Hq & _ & Hc & _); [done..|].
  cbn. rewrite lookup_delete_eq. done.
Qed.

(** A connection to [p] is about to be announced: it and the connections the peer
    already has have open channels to their handlers, and the pending channel of
    the peer, if there is one, is open and none of these. *)
Record announcing (s : Shared) (p : PeerId) (conn : ConnId) : Prop := {
  an_ready : forall conn', conn' = conn \/ connections s !! conn' = Some p ->
    exists c, senders s !! conn' = Some c /\ c ∈ mpsc_live (new_streams s) /\ closed s c = false;
  an_pending : forall c, pending_channels s !! p = Some c ->
    closed s c = false /\ forall conn', senders s !! conn' <> Some c;
  an_dials : mpsc_is_closed (dial_sender s) (dials s) = false
}.

(** So it is in every reachable state of the stream behaviour in which the handlers
    of these connections are alive. *)
Lemma reachable_announcing `{BuildProfile} (y : System) (conn : ConnId) h :
  StreamInv y -> handlers y !! conn = Some h -> conn ∉ StreamSystem.announced y ->
  mpsc_is_closed (dial_sender (sh y)) (dials (sh y)) = false ->
  (forall conn', connections (sh y) !! conn' = Some (remote h) -> is_Some (handlers y !! conn')) ->
  announcing (sh y) (remote h) conn.
Proof.
  intros (owner & place & IO & _) Hh Ha Hd Hall.
  assert (R : forall conn' h', handlers y !! conn' = Some h' -> is_Some (senders (sh y) !! conn') ->
    exists c, senders (sh y) !! conn' = Some c /\ c ∈ mpsc_live (new_streams (sh y)) /\ closed (sh y) c = false).
  { intros conn' h' Hh' [c Hc]. exists c. split; [done|]. apply (io_live _ _ _ _ _ _ _ IO). exists (inr conn').
    apply (io_handler _ _ _ _ _ _ _ IO). exists h'. split; [done|]. by apply (io_chan _ _ _ _ _ _ _ IO conn'). }
  split; [| |done].
  - intros conn' [->|Hc'].
    + apply (R conn h Hh). apply (io_ann _ _ _ _ _ _ _ IO); [by rewrite Hh|done].
    + destruct (Hall _ Hc') as [h' Hh']. apply (R conn' h' Hh'). apply (io_conn _ _ _ _ _ _ _ IO). by rewrite Hc'.
  - intros c Hc. apply (io_pending _ _ _ _ _ _ _ IO) in Hc. split.
    + by apply (io_live _ _ _ _ _ _ _ IO).
    + intros conn' Hs. apply (io_sender _ _ _ _ _ _ _ IO) in Hs as [_ [?|?]]; congruence.
Qed.

(** The requests [ns] have been added at a connection of the peer. *)
Definition reaches (p : PeerId) (ns : list (NewStream str)) (k k' : KeepAlive) : Prop :=
  exists conn c, connections (ka_stream k') !! conn = Some p /\ senders (ka_stream k') !! conn = Some c /\
    queued (ka_stream k') c = queued (ka_stream k) c ++ ns.

(** Once the connection is announced, the peer's connections have open channels. *)
Lemma connected_after_announcement (choose : list ConnId -> option ConnId) (p : PeerId) (conn : ConnId) (s s' : Shared) :
  valid_choose choose -> announcing s p conn ->
  connections s' = <[conn := p]> (connections s) -> senders s' = senders s ->
  (forall c, c ∈ mpsc_live (new_streams s) -> pending_channels s !! p <> Some c -> closed s' c = closed s c) ->
  exists conn' c, connected_sender choose p s' = Some c /\ connections s' !! conn' = Some p /\
    senders s' !! conn' = Some c /\ c ∈ mpsc_live (new_streams s) /\ pending_channels s !! p <> Some c /\
    closed s' c = false.
Proof.
  intros V [Hr Hp _] Hc Hs Hcl.
  assert (R : forall conn', connections s' !! conn' = Some p -> exists c, senders s' !! conn' = Some c /\
    c ∈ mpsc_live (new_streams s) /\ pending_channels s !! p <> Some c /\ closed s' c = false).
  { intros conn' H'. rewrite Hc in H'. destruct (Hr conn') as (c & Hs' & Hl & Ho).
    { apply lookup_insert_Some in H' as [[<- _]|[_ ?]]; auto. }
    assert (Hne : pending_channels s !! p <> Some c) by (intros E; by apply Hp in E as [_ []%(fun f => f conn')]).
    exists c. rewrite Hs, Hcl by done. done. }
  destruct (connected_sender_ready choose p conn s') as (conn' & c & E & Hc1 & Hs1 & Ho1); [done| | |].
  - by rewrite Hc, lookup_insert_eq.
  - intros conn' H'. destruct (R conn' H') as (c & ? & _ & _ & ?). eauto.
  - destruct (R conn' Hc1) as (c2 & Hs2 & Hl & Hne & _). rewrite Hs1 in Hs2. injection Hs2 as <-. by exists conn', c.
Qed.

(** What a task does that runs after the announcement: *)
Lemma task_after_announcement (choose : list ConnId -> option ConnId) (p : PeerId) (conn : ConnId) (o : nat) (k : KeepAlive) :
  valid_choose choose -> announcing (ka_stream k) p conn ->
  let k1 := ka_announced choose p conn k in
  exists c k', task_sender choose p k1 = (Ok c, k1) /\ task_send c o k1 = (true, k') /\
    reaches p [keep_alive_request o] k k'.
Proof.
  intros V A. cbv zeta.
  destruct (connected_after_announcement choose p conn (ka_stream k) (ka_stream (ka_announced choose p conn k)))
    as (conn' & c & E & Hc & Hs & _ & _ & Ho); [done..|].
  destruct (mpsc_send_open c (keep_alive_request o) _ Ho) as (h & E2 & _ & Hq & _).
  exists c, (set_stream (set_new_streams h (ka_stream (ka_announced choose p conn k))) (ka_announced choose p conn k)).
  unfold task_sender, task_send, open_stream_send, sender. rewrite E, E2. split_and!; [by destruct k|done|].
  exists conn', c. done.
Qed.

(** the task of an unconnected peer that takes its sender before the announcement,
    and what the refusal of the dial makes of what it has sent; *)
Lemma refused_after_announcement (choose : list ConnId -> option ConnId) (p : PeerId) (conn : ConnId) (c : Chan)
    reason n (k k2 : KeepAlive) (sent : list (NewStream str)) :
  valid_choose choose -> announcing (ka_stream k) p conn ->
  connections (ka_stream k2) = <[conn := p]> (connections (ka_stream k)) -> senders (ka_stream k2) = senders (ka_stream k) ->
  pending_channels (ka_stream k2) !! p = Some c -> queued (ka_stream k2) c = waiting p (ka_stream k) ++ sent ->
  (forall c', c' ∈ mpsc_live (new_streams (ka_stream k)) -> pending_channels (ka_stream k) !! p <> Some c' ->
     c' <> c /\ queued (ka_stream k2) c' = queued (ka_stream k) c' /\ closed (ka_stream k2) c' = closed (ka_stream k) c') ->
  let k' := dial_refused choose p reason (polls n k2) in
  reaches p (waiting p (ka_stream k) ++ sent) k k' /\ closed (ka_stream k') c = true /\
  pending_channels (ka_stream k') !! p = None /\ answers (ka_stream k') = answers (ka_stream k2).
Proof.
  intros V A Hc Hs Hp Hw Hoth. cbv zeta. destruct (polls_spec n k2) as (P1 & P2 & P3 & P4 & P5 & _).
  destruct (connected_after_announcement choose p conn (ka_stream k) (ka_stream (polls n k2)))
    as (conn' & c' & E & Hc' & Hs' & Hl & Hne & Ho); [done|done|congruence|congruence| |].
  { intros c' Hl Hne. rewrite P4. by apply Hoth. }
  destruct (Hoth c' Hl Hne) as (Hcc & Hq & _).
  destruct (dial_refused_spec choose p c' c reason (polls n k2)) as (Q & C & R1 & R2 & R3 & R4);
    [done|by rewrite P3|done|done|].
  rewrite P4, Hw, Hq in Q. split_and!; [|done|done|congruence].
  exists conn', c'. rewrite R1, R2. done.
Qed.

(** and the task that takes its sender before, whoever the peer is. *)
Lemma task_before_announcement (choose : list ConnId -> option ConnId) (p : PeerId) (conn : ConnId) (o n : nat)
    (reason : str) (k asked : KeepAlive) :
  valid_choose choose -> announcing (ka_stream k) p conn -> ka_stream asked = ka_stream k ->
  let announced := ka_announced choose p conn in
  let over k := dial_refused choose p reason (polls n k) in
  exists c k1, task_sender choose p asked = (Ok c, k1) /\
     ((exists conn', connections (ka_stream k) !! conn' = Some p) ->
      exists k', task_send c o (announced k1) = (true, k') /\ reaches p [keep_alive_request o] k k') /\
     ((forall conn', connections (ka_stream k) !! conn' <> Some p) ->
      (exists k2, task_send c o (announced k1) = (true, k2) /\ announced (task_send c o k1).2 = k2 /\
         reaches p (waiting p (ka_stream k) ++ [keep_alive_request o]) k (over k2) /\
         pending_channels (ka_stream (over k2)) !! p = None /\
         answers (ka_stream (over k2)) = answers (ka_stream k)) /\
      (pending_channels (ka_stream k) !! p = None ->
       (keep_alive_poll (polls (length (mpsc_queue (dial_sender (ka_stream k)) (dials (ka_stream k)))) (announced k1))).1
       = Some p) /\
      (exists k', task_send c o (over (announced k1)) = (false, k') /\
         answers (ka_stream k') = (o, Cancelled) :: answers (ka_stream k))).
Proof.
  intros V A As announced over.
  destruct (connected_sender choose p (ka_stream k)) as [c|] eqn:Es.
  - destruct (connected_sender_Some choose p c (ka_stream k) V Es) as (conn' & Hc & Hs).
    destruct (an_ready _ _ _ A conn') as (c2 & Hs2 & _ & Ho); [by right|]. simplify_eq.
    exists c, asked. unfold task_sender, sender. rewrite As, Es. split; [by destruct asked; cbn in *; subst|]. split.
    + intros _. destruct (mpsc_send_open c (keep_alive_request o) (new_streams (ka_stream (announced asked)))) as
        (h & E & _ & Hq & _); [cbn; by rewrite As|]. unfold task_send, open_stream_send. rewrite E.
      eexists. split; [done|]. cbn in Hq. rewrite As in Hq. cbn. rewrite As. destruct (decide (conn' = conn)) as [->|N].
      * exists conn, c. cbn. by rewrite lookup_insert_eq.
      * exists conn', c. cbn. by rewrite lookup_insert_ne.
    + intros Hn. by destruct (Hn conn').
  - assert (Hn : forall conn', connections (ka_stream k) !! conn' <> Some p).
    { intros conn' Hc. destruct (connected_sender_ready choose p conn' (ka_stream k) V Hc) as (? & c & E & _); [|congruence].
      intros conn2 Hc2. destruct (an_ready _ _ _ A conn2) as (c & ? & _ & ?); eauto. }
    destruct (sender_waits choose p (ka_stream k) V Hn (an_dials _ _ _ A)) as
      (c & s1 & E1 & Hp & Hc1 & Hs1 & Ha1 & Ho1 & Hq1 & Hoth & Hds & Hdial); [intros c' Hc'; by apply (an_pending _ _ _ A)|].
    exists c, (set_stream s1 asked). unfold task_sender. rewrite As, E1. split; [done|].
    split; [intros [conn' Hc']; by destruct (Hn conn')|]. intros _.
    destruct (mpsc_send_open c (keep_alive_request o) (new_streams s1) Ho1) as (h & E & [_ Hsame] & Hq & _). split_and!.
    + set (k1 := announced (set_stream s1 asked)). set (k2 := set_stream (set_new_streams h (ka_stream k1)) k1).
      destruct (refused_after_announcement choose p conn c reason n k k2 [keep_alive_request o]) as (R & _ & P & An);
        [done|done|cbn; by rewrite Hc1|done|done|cbn; by rewrite Hq, Hq1| |].
      { intros c' Hl Hne. destruct (Hoth c' Hl Hne) as (N & Hq' & Hc'). destruct (Hsame c' N). split_and!; cbn; congruence. }
      exists k2. unfold task_send, open_stream_send. cbn. rewrite E.
      split_and!; [done|done|exact R|exact P|subst over; cbv beta; etrans; [exact An|exact Ha1]].
    + intros Hnone. destruct (polls_spec (length (mpsc_queue (dial_sender (ka_stream k)) (dials (ka_stream k))))
        (announced (set_stream s1 asked))) as (_ & _ & _ & _ & _ & _ & _ & ->). cbn. rewrite Hds, Hdial by done.
      by rewrite lookup_app_r, Nat.sub_diag by done.
    + destruct (refused_after_announcement choose p conn c reason n k (announced (set_stream s1 asked)) []) as (_ & Cl & _ & An);
        cbn; try done; [by rewrite Hc1|by rewrite Hq1, app_nil_r|].
      unfold task_send, open_stream_send. subst over. cbv beta. rewrite (mpsc_send_closed c _ _ Cl).
      eexists; split; [done|]. cbn [ka_stream set_stream answers answer set_new_streams]. rewrite An. cbn. by rewrite Ha1.
Qed.

(** C27: An active keep-alive behaviour asks for one stream to the peer of a connection
    that is announced, a passive one for none, and the request goes to a connection
    of that peer - to this one, if it is the only one.  The state is any reachable one
    in which the behaviour is running and the handlers of the peer's connections
    are alive; other connections of the peer, requests that wait for it and queued
    dials may be there.
    - The task runs after the announcement: its request is queued at a connection of
      the peer.
    - It takes its sender before, and the peer already has another connection: so too.
    - It takes its sender before, and the peer has no other connection: the request
      waits in the peer's pending channel, whether it is sent before or after the
      announcement, behind what waited already, and all of that is queued at a
      connection of the peer when the dial is refused, after any number of polls.
      If nothing waited before, it is this request's dial, which the polls hand out
      after those queued before it.
    - So too, but it is suspended between taking its sender and sending until the
      dial is refused: its request is cancelled, and no other is. *)
Theorem keep_alive_reaches_the_connection `{BuildProfile} (choose : list ConnId -> option ConnId) (y : System)
    (conn : ConnId) h (o n : nat) (reason : str) (k : KeepAlive) :
  valid_choose choose -> stream_reachable y -> ka_stream k = sh y ->
  handlers y !! conn = Some h -> conn ∉ StreamSystem.announced y ->
  mpsc_is_closed (dial_sender (sh y)) (dials (sh y)) = false ->
  (forall conn', connections (sh y) !! conn' = Some (remote h) -> is_Some (handlers y !! conn')) ->
  let p := remote h in
  let asked := ensure_keep_alive p k in
  let announced := ka_announced choose p conn in
  let over k := dial_refused choose p reason (polls n k) in
  keep_alive_on_swarm_event choose (FS_ConnectionEstablished p conn) k = announced asked /\
  ka_opening asked = ka_opening k ++ (if ka_active k then [p] else []) /\
  (exists c k', task_sender choose p (announced asked) = (Ok c, announced asked) /\
     task_send c o (announced asked) = (true, k') /\ reaches p [keep_alive_request o] k k') /\
  (exists c k1, task_sender choose p asked = (Ok c, k1) /\
     ((exists conn', connections (sh y) !! conn' = Some p) ->
      exists k', task_send c o (announced k1) = (true, k') /\ reaches p [keep_alive_request o] k k') /\
     ((forall conn', connections (sh y) !! conn' <> Some p) ->
      (exists k2, task_send c o (announced k1) = (true, k2) /\ announced (task_send c o k1).2 = k2 /\
         reaches p (waiting p (sh y) ++ [keep_alive_request o]) k (over k2) /\
         pending_channels (ka_stream (over k2)) !! p = None /\ answers (ka_stream (over k2)) = answers (sh y)) /\
      (pending_channels (sh y) !! p = None ->
       (keep_alive_poll (polls (length (mpsc_queue (dial_sender (sh y)) (dials (sh y)))) (announced k1))).1 = Some p) /\
      (exists k', task_send c o (over (announced k1)) = (false, k') /\
         answers (ka_stream k') = (o, Cancelled) :: answers (sh y)))).
Proof.
  intros V Hr Ek Hh Ha Hd Hall p asked announced over.
  assert (A : announcing (ka_stream k) p conn)
    by (rewrite Ek; apply (reachable_announcing y conn h); [by apply inv_reachable|done..]).
  rewrite <- Ek. rewrite <- Ek in Hd. clear Hall Hh Ha Hr Ek.
  assert (As : ka_stream asked = ka_stream k) by (unfold asked, ensure_keep_alive; by destruct (ka_active k)).
  split_and!.
  - done.
  - unfold asked, ensure_keep_alive. destruct (ka_active k) eqn:E; cbn; [done|by rewrite app_nil_r].
  - rewrite <- As in A. destruct (task_after_announcement choose p conn o asked V A) as (c & k' & E1 & E2 & R).
    exists c, k'. split_and!; [done|done|]. unfold reaches in *. by rewrite As in R.
  - apply (task_before_announcement choose p conn o n reason k asked); done.
Qed.

(** ** Held streams *)

(** A behaviour made on a fresh stream behaviour: registering its protocol cannot
    fail. *)
Lemma keep_alive_default_ok {E : Type} (d : Chan) ns inc ds :
  exists k, keep_alive_default (E := E) (shared_new d ns inc ds : Shared) = Ok k /\ ka_active k = false /\
    ka_held k = [] /\ mpsc_queue (ka_incoming k) (incoming (ka_stream k)) = [].
Proof.
  unfold keep_alive_default, control_accept, accept, retain_open. cbn. rewrite map_filter_empty.
  rewrite decide_False by (rewrite lookup_empty; apply is_Some_None).
  destruct (mpsc_channel 0 inc) as [c h] eqn:E1. cbn.
  destruct (mpsc_channel_fresh _ _ _ _ E1) as (_ & _ & Q & _). by eexists.
Qed.

(** A poll holds every stream that peers have opened for keep-alive, in order. *)
Lemma keep_alive_poll_holds (k : KeepAlive) :
  ka_held (keep_alive_poll k).2 = ka_held k ++ mpsc_queue (ka_incoming k) (incoming (ka_stream k)) /\
  mpsc_queue (ka_incoming k) (incoming (ka_stream (keep_alive_poll k).2)) = [].
Proof.
  unfold keep_alive_poll, behaviour_poll.
  destruct (accept_streams_all (S (length (mpsc_queue (ka_incoming k) (incoming (ka_stream k)))))
    (ka_incoming k) (incoming (ka_stream k))) as (inc' & -> & Q); [lia|].
  cbn. destruct (mpsc_try_next _ _). done.
Qed.

End Props.

(** The noise task ends in a panic when the stream cannot be closed after the write
    that failed; every byte written until then counts. *)
Lemma noise_task_ends writes e rest close :
  noise_task ((Ok <$> writes) ++ Err e :: rest) close =
    Some (match close with Ok _ => Ok (foldr Z.add 0 writes) | _ => Panic end).
Proof.
  induction writes as [|n writes IH]; cbn; [by destruct close|]. rewrite IH. by destruct close.
Qed.

(** * A concrete connection under keep-alive *)

Notation DemoKeepAlive := (@KeepAlive Z nat Z nat _ _ _ _ _ _ _ _ _).

(** An active behaviour with the handler of connection 3 to peer 7 in place. *)
Definition demo_shared :=
  shared_new (Proto := str) (Stream := Z) (ConnId := nat) (PeerId := Z) 0%nat
    (no_chans : ToyChans (NewStream str)) (no_chans : ToyChans (Z * Z)) (no_chans : ToyChans Z).

Definition demo_keep_alive : DemoKeepAlive :=
  mkKeepAlive (snd (handle_established_inbound_connection 3%nat 7 demo_shared)) 1%nat true [] [].

(** The system around it: the handler exists, its connection is not announced. *)
Definition demo_handlers : gmap nat (Handler Z str nat) := {[3%nat := mkHandler 7 0%nat None]}.

Definition demo_system :=
  mkSystem (ka_stream demo_keep_alive) demo_handlers ∅ 0%nat ∅ ∅.

Lemma demo_system_reachable : stream_reachable (H3 := debug_profile) demo_system.
Proof.
  exists (mkSystem demo_shared ∅ ∅ 0%nat ∅ ∅). split.
  - split_and!; try done. by eexists _, _, _, _.
  - apply rtc_once. exact (step_established (H3 := debug_profile) false 3%nat 7 (mkSystem demo_shared ∅ ∅ 0%nat ∅ ∅)
      (mkHandler 7 0%nat None) (ka_stream demo_keep_alive) ∅ eq_refl (not_elem_of_empty _)
      (conj (empty_subseteq _) (empty_subseteq _)) eq_refl).
Qed.

Lemma keep_alive_reaches_the_connection_witness :
  exists c k', task_send c 4%nat
    (keep_alive_on_swarm_event first_of (FS_ConnectionEstablished 7 3%nat) demo_keep_alive) = (true, k') /\
    reaches 7 [mkNewStream KEEP_ALIVE_PROTOCOL 4%nat] demo_keep_alive k'.
Proof.
  destruct (keep_alive_reaches_the_connection (H2 := debug_profile) first_of demo_system
    3%nat (mkHandler 7 0%nat None) 4%nat 2%nat [] demo_keep_alive first_of_valid demo_system_reachable)
    as (E & _ & (c & k' & _ & S & R) & _);
    [reflexivity|reflexivity|done|reflexivity|intros conn' Hc; change ((∅ : gmap nat Z) !! conn' = Some 7) in Hc; by rewrite lookup_empty in Hc|].
  cbn [remote] in *. rewrite E. exists c, k'. split; [exact S|exact R].
Defined.
