(* ===== verification/StreamServer.v ===== *)
(** * A stream server, assembled (crates/transport/src/behaviour/stream_server.rs,
      libp2p_stream/behaviour.rs, keep_alive.rs, noise.rs)

    [ServerBehaviour] owns a [libp2p_stream::Behaviour] of its own and registers
    its protocol there: inbound streams go through that behaviour's channel to
    reading tasks, and complete requests through a second, bounded channel to the
    swarm.  Here the parts of [StreamShared] and [StreamIO] are put together as
    the code does, behind the wrapper of [Wrapped].  The methods by which
    [KeepAliveBehaviour] and [NoiseBehaviour] pass connections on to their stream
    behaviour are here as well. *)

From S2P Require Import Prelude RustStd AddrCache StreamShared StreamIO Wrapped KeepAlive.
From Stdlib Require Import ZArith Lia.
From stdpp Require Import base sets gmap numbers relations list.

Open Scope Z_scope.

Section StreamServer.
Context {PeerId ConnId Stream Chan : Type}.
Context `{Countable PeerId} `{Countable ConnId} `{Countable Chan} `{BuildProfile}.
Context `{!Mpsc Chan (NewStream str)} `{!Mpsc Chan (PeerId * Stream)} `{!Mpsc Chan PeerId}
  `{!Mpsc Chan (Request PeerId Stream)}.

Notation Shared := (@Shared PeerId ConnId str Stream Chan _ _ _ _ _ _ _ _ _ _ _).
Notation FromSwarm := (@StreamShared.FromSwarm PeerId ConnId).
Notation HandlerS := (@Handler PeerId str Chan).
Notation Req := (Request PeerId Stream).

(** ** libp2p_stream: [Behaviour::new] and [new_control]

    The dial channel is unbounded, so its capacity plays no part.  A control is the
    shared state itself. *)
Definition behaviour_new (ns : Chans Chan (NewStream str)) (inc : Chans Chan (PeerId * Stream))
    (ds : Chans Chan PeerId) : Shared :=
  let '(dial_sender, ds) := mpsc_channel 0 ds in
  shared_new dial_sender ns inc ds.

Definition new_control (s : Shared) : Shared := s.

(** ** The server *)

Record Server := mkServerSys {
  ss_inner : Shared;
  ss_server : ServerBehaviour PeerId Stream Chan;
  ss_store : Chans Chan Req
}.

(** [ServerBehaviour::new]; [expect] panics on a protocol that is registered, tokio's
    channel on a size of zero. *)
Definition server_new {E : Type} (protocol : str) (config : ServerConfig)
    (ns : Chans Chan (NewStream str)) (inc : Chans Chan (PeerId * Stream)) (ds : Chans Chan PeerId)
    (h : Chans Chan Req) : res E Server :=
  match accept_with_capacity protocol (incoming_capacity config) (new_control (behaviour_new ns inc ds)) with
  | (Ok incoming, inner) =>
      q ← new_queue (requests_queue_size config) h;
      Ok (mkServerSys inner (mkServer incoming config (fst q) []) (snd q))
  | _ => Panic
  end.

(** [ServerBehaviour::poll] *)
Definition server_sys_poll (s : Server) : option Req * Server :=
  let '(r, sv, inc, h) := server_poll (ss_server s) (incoming (ss_inner s)) (ss_store s) in
  (r, mkServerSys (set_incoming inc (ss_inner s)) sv h).

(** A handler delivers an inbound stream to the behaviour. *)
Definition server_inbound (protocol : str) (peer : PeerId) (stream : Stream) (s : Server) : Server :=
  mkServerSys (on_inbound_stream peer stream protocol (ss_inner s)) (ss_server s) (ss_store s).

(** The [i]th reading task ends, having read [input]. *)
Definition server_read {E : Type} (i : nat) (input : Incoming) (s : Server) : res E unit * Server :=
  let sv := ss_server s in
  match sv_reading sv !! i with
  | Some (peer, stream) =>
      let '(r, h) := read_request peer stream input (sv_config sv) (sv_requests sv) (ss_store s) in
      (r, mkServerSys (ss_inner s)
            (mkServer (sv_incoming sv) (sv_config sv) (sv_requests sv) (delete i (sv_reading sv))) h)
  | None => (Ok tt, s)
  end.

(** [impl BehaviourWrapper for ServerBehaviour]: its only command is the dial of the
    inner behaviour; [on_swarm_event] and [on_inner_event] are the provided ones. *)
#[global] Instance server_wrapper (choose : list ConnId -> option ConnId)
  : BehaviourWrapper Server FromSwarm Empty_set Empty_set Req PeerId := {|
  inner_on_swarm_event ev s := mkServerSys (on_swarm_event choose ev (ss_inner s)) (ss_server s) (ss_store s);
  inner_on_handler_event := fun ev : Empty_set => match ev with end;
  inner_poll s :=
    let '(dial, inner) := behaviour_poll (ss_inner s) in
    (Command <$> dial, mkServerSys inner (ss_server s) (ss_store s));
  w_on_swarm_event _ s := ([], s);
  w_on_inner_event := fun ev : Empty_set => match ev with end;
  w_poll s := let '(r, s) := server_sys_poll s in ((fun q => [GenerateEvent q]) <$> r, s)
|}.

(** ** Connections: [KeepAliveBehaviour] and [NoiseBehaviour] pass them on

    The stream behaviour denies no connection; it leaves the two methods about
    pending connections to their defaults, which accept and add no address. *)

Definition stream_pending_inbound {D : Type} (s : Shared) : res D unit * Shared := (Ok tt, s).
Definition stream_pending_outbound {D : Type} (peer : option PeerId) (s : Shared) : res D (list Multiaddr) * Shared :=
  (Ok [], s).

(** The connections of a server, behind its wrapper, are those of its stream
    behaviour. *)
#[global] Instance server_connections {Role D : Type}
  : InnerConnections Server ConnId PeerId Multiaddr Role HandlerS D := {|
  inner_pending_inbound _ _ _ s :=
    let '(r, inner) := stream_pending_inbound (ss_inner s) in (r, mkServerSys inner (ss_server s) (ss_store s));
  inner_established_inbound conn peer _ _ s :=
    let '(handler, inner) := handle_established_inbound_connection conn peer (ss_inner s) in
    (Ok handler, mkServerSys inner (ss_server s) (ss_store s));
  inner_pending_outbound _ peer _ _ s :=
    let '(r, inner) := stream_pending_outbound peer (ss_inner s) in (r, mkServerSys inner (ss_server s) (ss_store s));
  inner_established_outbound conn peer _ _ s :=
    let '(handler, inner) := handle_established_outbound_connection conn peer (ss_inner s) in
    (Ok handler, mkServerSys inner (ss_server s) (ss_store s))
|}.

Notation KeepAliveB := (KeepAlive (PeerId := PeerId) (ConnId := ConnId) (Stream := Stream) (Chan := Chan)).
Notation NoiseB := (Noise (PeerId := PeerId) (ConnId := ConnId) (Stream := Stream) (Chan := Chan)).

Definition keep_alive_pending_inbound {D : Type} (k : KeepAliveB) : res D unit * KeepAliveB :=
  let '(r, s) := stream_pending_inbound (ka_stream k) in (r, set_stream s k).

Definition keep_alive_established_inbound (connection_id : ConnId) (peer : PeerId) (k : KeepAliveB)
  : HandlerS * KeepAliveB :=
  let '(handler, s) := handle_established_inbound_connection connection_id peer (ka_stream k) in
  (handler, set_stream s k).

Definition keep_alive_pending_outbound {D : Type} (peer : option PeerId) (k : KeepAliveB)
  : res D (list Multiaddr) * KeepAliveB :=
  let '(r, s) := stream_pending_outbound peer (ka_stream k) in (r, set_stream s k).

Definition keep_alive_established_outbound (connection_id : ConnId) (peer : PeerId) (k : KeepAliveB)
  : HandlerS * KeepAliveB :=
  let '(handler, s) := handle_established_outbound_connection connection_id peer (ka_stream k) in
  (handler, set_stream s k).

(** The event type of the stream behaviour's handler has no values. *)
Definition keep_alive_on_handler_event (ev : Empty_set) (k : KeepAliveB) : KeepAliveB := match ev with end.

Definition set_noise_stream (s : Shared) (n : NoiseB) : NoiseB := mkNoise s (nz_incoming n) (nz_writing n).

Definition noise_pending_inbound {D : Type} (n : NoiseB) : res D unit * NoiseB :=
  let '(r, s) := stream_pending_inbound (nz_stream n) in (r, set_noise_stream s n).

Definition noise_established_inbound (connection_id : ConnId) (peer : PeerId) (n : NoiseB) : HandlerS * NoiseB :=
  let '(handler, s) := handle_established_inbound_connection connection_id peer (nz_stream n) in
  (handler, set_noise_stream s n).

Definition noise_pending_outbound {D : Type} (peer : option PeerId) (n : NoiseB)
  : res D (list Multiaddr) * NoiseB :=
  let '(r, s) := stream_pending_outbound peer (nz_stream n) in (r, set_noise_stream s n).

Definition noise_established_outbound (connection_id : ConnId) (peer : PeerId) (n : NoiseB) : HandlerS * NoiseB :=
  let '(handler, s) := handle_established_outbound_connection connection_id peer (nz_stream n) in
  (handler, set_noise_stream s n).

Definition noise_on_handler_event (ev : Empty_set) (n : NoiseB) : NoiseB := match ev with end.

End StreamServer.
