(* ===== verification/StreamServerProps.v ===== *)
(** * What a stream server guarantees

    Inbound streams arrive, tasks finish reading them, the swarm polls: in any
    order of these the server accounts for every stream. *)

From S2P Require Import Prelude RustStd Instances StreamShared StreamTheory StreamSystem StreamInv StreamProps StreamIO Wrapped ActorProps KeepAlive StreamServer.
From Stdlib Require Import ZArith Lia String.
From stdpp Require Import base sets strings gmap numbers relations list.

Open Scope Z_scope.

Section ServerProps.
Context {PeerId ConnId Stream Chan : Type}.
Context `{Countable PeerId} `{Countable ConnId} `{Countable Chan} `{BuildProfile}.
Context `{!Mpsc Chan (NewStream str)} `{!Mpsc Chan (PeerId * Stream)} `{!Mpsc Chan PeerId}
  `{!Mpsc Chan (Request PeerId Stream)}.

Notation Req := (Request PeerId Stream).
Notation ServerT := (Server (PeerId := PeerId) (ConnId := ConnId) (Stream := Stream) (Chan := Chan)).

(** The server with what has become of the streams: those that arrived, those
    refused on arrival, those whose reading ended without a request handed on, and
    the requests handed to the swarm. *)
Record Accounts := mkAccounts {
  ac_server : ServerT;
  ac_arrived : list (PeerId * Stream);
  ac_refused : list (PeerId * Stream);
  ac_unread : list (PeerId * Stream);
  ac_emitted : list Req;
  ac_panicked : bool
}.

Definition stream_of (r : Req) : PeerId * Stream := (rq_peer_id r, rs_stream (rq_response_sender r)).

(** Whether a channel takes a message. *)
Definition takes {T : Type} `{!Mpsc Chan T} (c : Chan) (x : T) (h : Chans Chan T) : bool :=
  match fst (mpsc_try_send c x h) with SendOk => true | _ => false end.

Definition account_arrival (protocol : str) (peer : PeerId) (stream : Stream) (a : Accounts) : Accounts :=
  let s := ac_server a in
  let taken := takes (sv_incoming (ss_server s)) (peer, stream) (incoming (ss_inner s)) in
  mkAccounts (server_inbound protocol peer stream s) (ac_arrived a ++ [(peer, stream)])
    (if taken then ac_refused a else ac_refused a ++ [(peer, stream)]) (ac_unread a) (ac_emitted a) (ac_panicked a).

Definition account_poll (a : Accounts) : Accounts :=
  let '(r, s) := server_sys_poll (ac_server a) in
  mkAccounts s (ac_arrived a) (ac_refused a) (ac_unread a) (ac_emitted a ++ option_list r) (ac_panicked a).

(** The request a reading task hands on, if it does. *)
Definition request_read (i : nat) (input : Incoming) (s : ServerT) : option Req :=
  let sv := ss_server s in
  '(peer, stream) ← sv_reading sv !! i;
  match read_bytes (E := Empty_set) (sv_config sv) input with
  | Ok (Some buf) =>
      let r := mkRequest peer buf (mkResponseSender stream (sv_max_response_size (sv_config sv)) (write_timeout (sv_config sv))) in
      if takes (sv_requests sv) r (ss_store s) then Some r else None
  | _ => None
  end.

Definition account_read (i : nat) (input : Incoming) (a : Accounts) : Accounts :=
  let '(r, s) := server_read (E := Empty_set) i input (ac_server a) in
  mkAccounts s (ac_arrived a) (ac_refused a)
    (match request_read i input (ac_server a) with
     | Some _ => ac_unread a
     | None => ac_unread a ++ option_list (sv_reading (ss_server (ac_server a)) !! i)
     end) (ac_emitted a) (match r with Panic => true | _ => ac_panicked a end).

(** What else happens to the inner behaviour: connections come and go, handlers are
    asked for their protocols and polled, and outbound upgrades end. *)
Notation SharedT := (@Shared PeerId ConnId str Stream Chan _ _ _ _ _ _ _ _ _ _ _).

Inductive connection_step : SharedT -> SharedT -> Prop :=
| cs_swarm_event choose ev s : connection_step s (on_swarm_event choose ev s)
| cs_behaviour_poll s : connection_step s (snd (behaviour_poll s))
| cs_inbound conn peer s : connection_step s (snd (handle_established_inbound_connection conn peer s))
| cs_outbound conn peer s : connection_step s (snd (handle_established_outbound_connection conn peer s))
| cs_listen s : connection_step s (snd (listen_protocol s))
| cs_handler_poll handler s : connection_step s (snd (handler_poll handler s))
| cs_negotiated stream protocol handler s :
    connection_step s (snd (on_connection_event (E := Empty_set) (FullyNegotiatedOutbound stream protocol) handler s))
| cs_upgrade_error error handler s :
    connection_step s (snd (on_connection_event (E := Empty_set) (DialUpgradeError error) handler s))
| cs_handler_drop handler s : connection_step s (handler_drop handler s).

Inductive server_step (protocol : str) : Accounts -> Accounts -> Prop :=
| server_step_arrival peer stream a : server_step protocol a (account_arrival protocol peer stream a)
| server_step_poll a : server_step protocol a (account_poll a)
| server_step_read i input a : server_step protocol a (account_read i input a)
| server_step_connections inner a :
    connection_step (ss_inner (ac_server a)) inner ->
    server_step protocol a
      (mkAccounts (mkServerSys inner (ss_server (ac_server a)) (ss_store (ac_server a)))
         (ac_arrived a) (ac_refused a) (ac_unread a) (ac_emitted a) (ac_panicked a)).

(** What registration needs of a step of the inner behaviour: the channels of
    inbound streams as they were, and every open registration kept. *)
Definition keeps_inbound (s s' : SharedT) : Prop :=
  incoming s' = incoming s /\
  forall p c, supported_inbound s !! p = Some c -> mpsc_is_closed c (incoming s) = false ->
    supported_inbound s' !! p = Some c.

#[local] Instance keeps_inbound_preorder : PreOrder keeps_inbound.
Proof.
  split; [by intros s |]. intros s1 s2 s3 [E1 K1] [E2 K2]. split; [congruence |]. intros p c Hp Hc.
  apply K2; [by apply K1 | congruence].
Qed.

Lemma drain_keeps_inbound (body : NewStream str -> SharedT -> SharedT) fuel c s :
  (forall ns s, keeps_inbound s (body ns s)) -> keeps_inbound s (drain fuel body c s).
Proof.
  intros Hb. revert s. induction fuel as [| fuel IH]; intros s; cbn; [done |].
  destruct (mpsc_try_next c (new_streams s)) as [[ns |] h]; [| done].
  etrans; [| apply IH]. etrans; [| apply Hb]. done.
Qed.

Lemma forward_keeps_inbound c ns s : keeps_inbound s (forward_request c ns s).
Proof. unfold forward_request. destruct (mpsc_send _ _ _) as [[|] h]; done. Qed.

Lemma drop_receiver_keeps_inbound c s : keeps_inbound s (drop_receiver c s).
Proof.
  unfold drop_receiver. destruct (mpsc_drop_receiver c (new_streams s)) as [l h].
  assert (keeps_inbound s (set_new_streams h s)) as Hs by done. revert Hs. generalize (set_new_streams h s).
  induction l as [| ns l IH]; intros t Ht; cbn; [done |]. apply IH. etrans; [exact Ht | done].
Qed.

Lemma drain_drop_keeps_inbound (body : NewStream str -> SharedT -> SharedT) c m s :
  (forall ns s, keeps_inbound s (body ns s)) ->
  keeps_inbound s (drop_receiver c (drain_all body c (set_pending m s))).
Proof.
  intros Hb. etrans; [| apply drop_receiver_keeps_inbound].
  apply (drain_keeps_inbound body _ c (set_pending m s) Hb).
Qed.

Lemma swarm_event_keeps_inbound choose ev s : keeps_inbound s (on_swarm_event choose ev s).
Proof.
  destruct ev as [peer conn | conn | [peer |] error reason |]; cbn; try done.
  assert (keeps_inbound s (on_dial_failure peer reason s)) as Hf.
  { unfold on_dial_failure. case_match; [| done]. by apply drain_drop_keeps_inbound. }
  destruct error; try done. unfold on_dial_skipped. repeat case_match; try done.
  apply drain_drop_keeps_inbound, forward_keeps_inbound.
Qed.

Lemma receiver_keeps_inbound peer conn s : keeps_inbound s (snd (receiver peer conn s)).
Proof. unfold receiver. repeat case_match; done. Qed.

Lemma connection_step_keeps_inbound s s' : connection_step s s' -> keeps_inbound s s'.
Proof.
  intros [choose ev t | t | conn peer t | conn peer t | t | h t | st p h t | e h t | h t].
  - apply swarm_event_keeps_inbound.
  - unfold behaviour_poll. case_match; done.
  - unfold handle_established_inbound_connection. pose proof (receiver_keeps_inbound peer conn t). by case_match.
  - unfold handle_established_outbound_connection. pose proof (receiver_keeps_inbound peer conn t). by case_match.
  - split; [done |]. intros p c Hp Hc. cbn. apply map_lookup_filter_Some. split; [done |]. cbn. by rewrite Hc.
  - unfold handler_poll. repeat case_match; done.
  - cbn. repeat case_match; done.
  - cbn. repeat case_match; done.
  - unfold handler_drop. pose proof (drop_receiver_keeps_inbound (hreceiver h) t). repeat case_match; done.
Qed.

Definition accounts_new (s : ServerT) : Accounts := mkAccounts s [] [] [] [] false.

Record accounts_ok (protocol : str) (config : ServerConfig) (a : Accounts) : Prop := {
  ao_registered : supported_inbound (ss_inner (ac_server a)) !! protocol = Some (sv_incoming (ss_server (ac_server a)));
  ao_open : mpsc_is_closed (sv_incoming (ss_server (ac_server a))) (incoming (ss_inner (ac_server a))) = false;
  ao_config : sv_config (ss_server (ac_server a)) = config;
  ao_streams : ac_arrived a ≡ₚ
    ac_refused a ++ mpsc_queue (sv_incoming (ss_server (ac_server a))) (incoming (ss_inner (ac_server a))) ++
    sv_reading (ss_server (ac_server a)) ++ ac_unread a ++
    (stream_of <$> mpsc_queue (sv_requests (ss_server (ac_server a))) (ss_store (ac_server a))) ++
    (stream_of <$> ac_emitted a);
  ao_sizes : Forall (fun r => len (rq_request r) <= sv_max_request_size config)
    (mpsc_queue (sv_requests (ss_server (ac_server a))) (ss_store (ac_server a)) ++ ac_emitted a);
  ao_no_panic : ac_panicked a = false
}.

Context `{!MpscLaws Chan (PeerId * Stream)} `{!MpscLaws Chan Req}.

Lemma account_arrival_ok protocol config peer stream a :
  accounts_ok protocol config a -> accounts_ok protocol config (account_arrival protocol peer stream a).
Proof.
  intros [Hreg Hop Hcfg Hst Hsz Hp]. unfold account_arrival, server_inbound, on_inbound_stream, takes. cbn zeta.
  rewrite Hreg. destruct a as [[inner sv store] arr ref unr em pan]; cbn in *.
  destruct (mpsc_try_send (sv_incoming sv) (peer, stream) (incoming inner)) as [r h'] eqn:E.
  apply mpsc_try_send_cases in E. destruct r; cbn.
  - destruct E as (_ & _ & Hq & Hc). split; cbn; try done. rewrite Hst, Hq. solve_Permutation.
  - destruct E as [_ ->]. split; cbn; try done. rewrite Hst. solve_Permutation.
  - destruct E as [E _]. congruence.
Qed.

Lemma account_poll_ok protocol config a :
  accounts_ok protocol config a -> accounts_ok protocol config (account_poll a).
Proof.
  intros [Hreg Hop Hcfg Hst Hsz Hp]. unfold account_poll, server_sys_poll.
  destruct a as [[inner sv store] arr ref unr em pan]; cbn in *.
  destruct (server_poll_correct sv (incoming inner) store) as (inc' & h' & -> & Hq & Hc & Hr). cbn.
  split; cbn; rewrite ?Hq, ?Hr; try done.
  - by rewrite Hc.
  - rewrite Hst. destruct (mpsc_queue (sv_requests sv) store) as [| r q]; cbn; rewrite ?fmap_app; cbn;
      rewrite ?app_nil_r; solve_Permutation.
  - rewrite Forall_forall in *. intros x Hx. apply Hsz.
    destruct (mpsc_queue (sv_requests sv) store) as [| r q]; cbn in *; set_solver.
Qed.

(** What the reader lets through is within the limit. *)
Lemma read_bytes_within {E : Type} config input buf :
  read_bytes (E := E) config input = Ok (Some buf) -> len buf <= sv_max_request_size config.
Proof.
  unfold read_bytes. destruct (add_u64 _ _) as [limit | e |]; cbn; try done.
  destruct (take_read_to_end limit input) as [[b | e |] |]; try done.
  destruct (_ <? _) eqn:Hlt; [done |]. intros [= <-]. apply Z.ltb_ge in Hlt. lia.
Qed.

Lemma read_bytes_total {E : Type} config input :
  0 <= sv_max_request_size config -> sv_max_request_size config + 1 < 2 ^ 64 ->
  exists o, read_bytes (E := E) config input = Ok o.
Proof.
  intros H0' Hmax. unfold read_bytes, add_u64. rewrite (proj2 (Z.ltb_lt _ _)) by lia. cbn.
  destruct (take_read_to_end _ _) as [[b | e |] |]; [case_match |..]; eauto.
Qed.

Lemma account_read_ok protocol config i input a :
  0 <= sv_max_request_size config -> sv_max_request_size config + 1 < 2 ^ 64 ->
  accounts_ok protocol config a -> accounts_ok protocol config (account_read i input a).
Proof.
  intros H0' Hmax [Hreg Hop Hcfg Hst Hsz Hp]. unfold account_read, server_read, request_read. cbn zeta.
  destruct a as [[inner sv store] arr ref unr em pan]; cbn in *.
  destruct (sv_reading sv !! i) as [[peer stream] |] eqn:Ei; cbn.
  2: { split; cbn; rewrite ?app_nil_r; done. }
  pose proof (delete_Permutation _ _ _ Ei) as Hdel. revert Hdel.
  generalize (delete i (sv_reading sv)); intros rest Hdel. unfold read_request. rewrite Hcfg in *.
  destruct (read_bytes_total (E := Empty_set) config input H0' Hmax) as [o Eo]. rewrite Eo.
  destruct o as [buf |]; cbn.
  - pose proof (read_bytes_within _ _ _ Eo) as Hlen. unfold takes. set (r := mkRequest _ _ _).
    destruct (mpsc_try_send (sv_requests sv) r store) as [t h'] eqn:E. apply mpsc_try_send_cases in E.
    destruct t; cbn.
    + destruct E as (_ & _ & Hq & _). split; cbn; rewrite ?Hq; try done.
      * rewrite Hst, Hdel, fmap_app. cbn. solve_Permutation.
      * rewrite <- app_assoc. rewrite Forall_app in *. destruct Hsz as [? ?]. split; [done |]. by constructor.
    + destruct E as [_ ->]. split; cbn; try done. rewrite Hst, Hdel. solve_Permutation.
    + destruct E as [_ ->]. split; cbn; try done. rewrite Hst, Hdel. solve_Permutation.
  - split; cbn; try done. rewrite Hst, Hdel. solve_Permutation.
Qed.

Lemma server_new_ok {E : Type} protocol config ns inc ds h : 0 < requests_queue_size config ->
  exists s, server_new (E := E) protocol config ns inc ds h = Ok s /\ accounts_ok protocol config (accounts_new s).
Proof.
  intros Hs. unfold server_new, accept_with_capacity, accept, new_control, behaviour_new, new_queue.
  rewrite (proj2 (Z.ltb_lt _ _) Hs). destruct (mpsc_channel 0 ds) as [dial ds'].
  rewrite decide_False by (cbn; rewrite map_filter_empty, lookup_empty; by intros []).
  destruct (mpsc_channel (incoming_capacity config) _) as [c inc'] eqn:Ec.
  destruct (mpsc_channel (requests_queue_size config) h) as [rq h'] eqn:Er. cbn.
  eexists; split; [reflexivity |].
  apply mpsc_channel_fresh in Ec as (_ & _ & Hq & Hc & _). apply mpsc_channel_fresh in Er as (_ & _ & Hq' & _).
  split; cbn; rewrite ?Hq, ?Hq'; try done. apply lookup_insert_eq.
Qed.

(** C26: a stream server accounts for every stream.  Creating one does not panic when its
    request queue has room; then, in whatever order streams arrive, tasks finish
    reading, the swarm polls and connections come and go, no task panics, and every stream that arrived is at
    exactly one place: refused because the buffer was full, waiting, being read,
    given up by its reader, waiting as a request, or handed to the swarm as one; and
    no request exceeds the size limit. *)
Theorem server_accounts_for_every_stream {E : Type} protocol config ns inc ds h :
  0 < requests_queue_size config ->
  0 <= sv_max_request_size config -> sv_max_request_size config + 1 < 2 ^ 64 ->
  exists s, server_new (E := E) protocol config ns inc ds h = Ok s /\
    forall a, rtc (server_step protocol) (accounts_new s) a ->
      let t := ac_server a in
      let requests := mpsc_queue (sv_requests (ss_server t)) (ss_store t) in
      ac_panicked a = false /\
      ac_arrived a ≡ₚ ac_refused a ++ mpsc_queue (sv_incoming (ss_server t)) (incoming (ss_inner t)) ++
        sv_reading (ss_server t) ++ ac_unread a ++ (stream_of <$> requests) ++ (stream_of <$> ac_emitted a) /\
      Forall (fun r => len (rq_request r) <= sv_max_request_size config) (requests ++ ac_emitted a).
Proof.
  intros Hs H0' Hmax. destruct (server_new_ok (E := E) protocol config ns inc ds h Hs) as (s & -> & Hok).
  exists s. split; [done |]. intros a Hr.
  assert (accounts_ok protocol config a) as [Hreg Hop Hcfg Hst Hsz Hp]; [| done].
  revert Hok. induction Hr as [| x y z Hxy _ IH]; [done |]. intros Hx. apply IH.
  destruct Hxy as [peer stream a | a | i input a | inner a Hin].
  - by apply account_arrival_ok.
  - by apply account_poll_ok.
  - by apply account_read_ok.
  - apply connection_step_keeps_inbound in Hin as [Hinc Hsup]. destruct Hx as [Hreg Hop Hcfg Hst Hsz Hp].
    split; cbn; rewrite ?Hinc; try done. by apply Hsup.
Qed.

(** Behind its wrapper the server never spins: every poll of it returns. *)
Lemma server_wrapped_poll_returns choose (s : Wrapped.Wrapped (W := ServerT) (Ev := Req) (Cmd := PeerId)) :
  is_Some (wrapped_poll (BW := server_wrapper choose) 2 s).
Proof.
  apply (wrapped_poll_terminates (fun _ => 0%nat)); [| lia]. split_and!.
  - intros w w'. cbn. destruct (server_sys_poll w) as [[r |] s']; cbn; intros [=].
  - intros w w'. cbn. lia.
  - intros w ev w1 w2. cbn. destruct (behaviour_poll (ss_inner w)) as [[p |] inner]; cbn; intros [=]. by subst.
Qed.

End ServerProps.

(** ** A run: a stream arrives, is taken up, read and handed on *)

Section ServerDemo.
#[local] Existing Instance debug_profile.

Definition no_new_streams : Chans nat (NewStream str) := no_chans.
Definition no_incoming : Chans nat (Z * Z) := no_chans.
Definition no_dials : Chans nat Z := no_chans.
Definition no_requests : Chans nat (Request Z Z) := no_chans.

Notation DemoServer := (Server (PeerId := Z) (ConnId := nat) (Stream := Z) (Chan := nat)).
Notation DemoAccounts := (Accounts (PeerId := Z) (ConnId := nat) (Stream := Z) (Chan := nat)).

Definition demo_server : option DemoServer :=
  match server_new (E := Empty_set) (lit "/demo") default_server_config no_new_streams no_incoming no_dials no_requests with
  | Ok s => Some s
  | _ => None
  end.

Definition demo_account_run (s : DemoServer) : DemoAccounts :=
  account_poll (account_read 0 (mkIncoming [1; 2] Eof)
    (account_poll (account_arrival (lit "/demo") 5 50 (accounts_new s)))).

Lemma demo_account_steps s : rtc (server_step (lit "/demo")) (accounts_new s) (demo_account_run s).
Proof.
  eapply rtc_l; [apply server_step_arrival |]. eapply rtc_l; [apply server_step_poll |].
  eapply rtc_l; [apply server_step_read |]. apply rtc_once, server_step_poll.
Qed.

Lemma server_accounts_for_every_stream_witness :
  exists s, demo_server = Some s /\ ac_panicked (demo_account_run s) = false /\
    Forall (fun r => len (rq_request r) <= 1024) (ac_emitted (demo_account_run s)) /\
    (stream_of <$> ac_emitted (demo_account_run s)) = [(5, 50)].
Proof.
  destruct (server_accounts_for_every_stream (E := Empty_set) (ConnId := nat) (lit "/demo") default_server_config no_new_streams
              no_incoming no_dials no_requests eq_refl ltac:(cbn; lia) eq_refl) as (s & Es & Hr).
  exists s. destruct (Hr _ (demo_account_steps s)) as (Hp & _ & Hsz). unfold demo_server. rewrite Es.
  apply Forall_app in Hsz as [_ Hsz]. split_and!; [reflexivity | exact Hp | exact Hsz |].
  vm_compute in Es. injection Es as <-. vm_compute. reflexivity.
Defined.

End ServerDemo.
