(* ===== verification/Setup.v ===== *)
(** * Set-up of a node
    (crates/transport/src/cli.rs, util.rs, lib.rs, builder.rs; [BaseConfig] of
    behaviour/base.rs)

    The command line and the environment, the key file, and the builder up to the
    first calls on the swarm.  Text forms of peer ids and addresses, the key
    algorithm, the file system and the swarm are interfaces; durations are
    numbers of seconds, those of [TransportConfig] milliseconds. *)

From S2P Require Import Prelude RustStd ContractClient.
From Stdlib Require Import ZArith Lia Ascii String.
From stdpp Require Import base sets strings gmap numbers list.

Open Scope Z_scope.

(** ** The standard library: [str::split_whitespace]

    The white space of Unicode, as UTF-8. *)
Definition strip_whitespace (s : str) : option str :=
  match s with
  | [] => None
  | a :: s1 =>
      let a := byte_of a in
      if in_range 9 13 a || (a =? 32) then Some s1
      else match s1 with
      | [] => None
      | b :: s2 =>
          let b := byte_of b in
          if (a =? 194) && ((b =? 133) || (b =? 160)) then Some s2
          else match s2 with
          | [] => None
          | c :: s3 =>
              let c := byte_of c in
              if ((a =? 225) && (b =? 154) && (c =? 128))
                 || ((a =? 226) && (b =? 128) && (in_range 128 138 c || (c =? 168) || (c =? 169) || (c =? 175)))
                 || ((a =? 226) && (b =? 129) && (c =? 159))
                 || ((a =? 227) && (b =? 128) && (c =? 128))
              then Some s3 else None
          end
      end
  end.

(** The words of [s], with the one being read in [word]. *)
Fixpoint split_words (fuel : nat) (word : str) (s : str) : list str :=
  let close rest := match word with [] => rest | _ => word :: rest end in
  match fuel with
  | O => close []
  | S fuel =>
      match strip_whitespace s with
      | Some s => close (split_words fuel [] s)
      | None =>
          match s with
          | [] => close []
          | c :: s => split_words fuel (word ++ [c]) s
          end
      end
  end.

(** Every round but the last consumes a byte. *)
Definition split_whitespace (s : str) : list str := split_words (S (length s)) [] s.

(** [str::parse] for the narrower unsigned integers. *)
Definition parse_below (bound : Z) (s : str) : option Z :=
  x ← parse_u64 s; if x <? bound then Some x else None.

(** ** cli.rs *)

Section Cli.
Context {PeerId Addr : Type}.
Context (parse_peer : str -> option PeerId) (parse_addr : str -> option Addr).

Record BootNode := mkBootNode { bn_peer_id : PeerId; bn_address : Addr }.

Definition BootNode_from_str (s : str) : res string BootNode :=
  let parts := split_whitespace s in
  peer ← ok_or (parts !! 0%nat) "Boot node peer ID missing"%string;
  peer_id ← ok_or (parse_peer peer) "Invalid peer ID"%string;
  addr ← ok_or (parts !! 1%nat) "Boot node address missing"%string;
  address ← ok_or (parse_addr addr) "Invalid address"%string;
  Ok (mkBootNode peer_id address).

End Cli.

(** ** Environment (util.rs, lib.rs, base.rs) *)

Section Env.
Context (env_var : str -> option str).

Definition parse_env_var {T} (from_str : str -> option T) (var : str) (default : T) : T :=
  match (v ← env_var var; from_str v) with Some x => x | None => default end.

Record TransportConfig := mkTransportConfig {
  mtu_discovery_max : Z;
  keep_alive_interval_ms : Z;
  max_idle_timeout_ms : Z;
  idle_connection_timeout_ms : Z
}.

Definition TransportConfig_from_env : TransportConfig :=
  mkTransportConfig
    (parse_env_var (parse_below (2 ^ 16)) (lit "MTU_DISCOVERY_MAX") 1452)
    (parse_env_var (parse_below (2 ^ 32)) (lit "KEEP_ALIVE_INTERVAL_MS") 5000)
    (parse_env_var (parse_below (2 ^ 32)) (lit "MAX_IDLE_TIMEOUT_MS") 60000)
    (parse_env_var (parse_below (2 ^ 32)) (lit "IDLE_CONNECTION_TIMEOUT_MS") 120000).

Definition MAX_PUBSUB_MSG_SIZE : Z := 65536.

(** [BaseConfig] on a 64-bit target. *)
Record FullBaseConfig := mkFullBaseConfig {
  onchain_update_interval : Z;
  autonat_timeout : Z;
  identify_interval : Z;
  kad_query_timeout : Z;
  max_pubsub_msg_size : Z;
  addr_cache_size : Z;
  max_concurrent_lookups : Z;
  reconnect_cooldown : Z
}.

Definition BaseConfig_from_env {E : Type} : res E FullBaseConfig :=
  let onchain := parse_env_var parse_u64 (lit "ONCHAIN_UPDATE_INTERVAL_SEC") 60 in
  let autonat := parse_env_var parse_u64 (lit "AUTONAT_TIMEOUT_SEC") 60 in
  let identify := parse_env_var parse_u64 (lit "IDENTIFY_INTERVAL_SEC") 600 in
  let kad := parse_env_var parse_u64 (lit "KAD_QUERY_TIMEOUT_SEC") 5 in
  let pubsub := parse_env_var parse_u64 (lit "MAX_PUBSUB_MSG_SIZE") MAX_PUBSUB_MSG_SIZE in
  let cache := parse_env_var parse_u64 (lit "ADDR_CACHE_SIZE") 1024 in
  cache ← (if cache =? 0 then Panic else Ok cache);
  let lookups := parse_env_var parse_u64 (lit "MAX_CONCURRENT_LOOKUPS") 20 in
  let cooldown := parse_env_var parse_u64 (lit "RECONNECT_COOLDOWN_SEC") 30 in
  Ok (mkFullBaseConfig onchain autonat identify kad pubsub cache lookups cooldown).

End Env.

Record AgentInfo := mkAgentInfo { agent_name : str; agent_version : str }.

Definition AgentInfo_to_string (a : AgentInfo) : str := agent_name a ++ lit "/" ++ agent_version a.

(** protocol.rs *)
Definition dht_protocol (network : Network) : str :=
  match network with
  | Tethys => lit "/subsquid/dht/tethys/1.0.0"
  | Mainnet => lit "/subsquid/dht/mainnet/1.0.0"
  end.

(** ** The key file (util.rs, [get_keypair]) *)

(** ed25519 keys; [key_generate] takes the random bits it draws. *)
Class KeyPairs (Key Random : Type) := {
  key_generate : Random -> Key;
  key_to_bytes : Key -> list Z;
  key_try_from_bytes : list Z -> option Key
}.

Class KeyPairLaws (Key Random : Type) `{KeyPairs Key Random} := {
  key_bytes_roundtrip k : key_try_from_bytes (key_to_bytes k) = Some k
}.

Inductive KeyError := KeyReadFailed | KeyInvalid | KeyNotAFile | KeyWriteFailed.

(** What is at a path; [Unreadable] stands for a file whose read fails. *)
Inductive FsEntry := Missing | RegularFile (content : list Z) | Unreadable | NotAFile.

Section GetKeypair.
Context {Key Random Path : Type} `{KeyPairs Key Random} `{EqDecision Path}.

(** [writable] decides whether the file can be created; a failed write leaves
    the file as it was. *)
Definition get_keypair (writable : Path -> bool) (rng : Random) (path : option Path) (fs : Path -> FsEntry)
  : res KeyError Key * (Path -> FsEntry) :=
  match path with
  | None => (Ok (key_generate rng), fs)
  | Some path =>
      match fs path with
      | RegularFile content => (ok_or (key_try_from_bytes content) KeyInvalid, fs)
      | Unreadable => (Err KeyReadFailed, fs)
      | NotAFile => (Err KeyNotAFile, fs)
      | Missing =>
          let keypair := key_generate rng in
          if writable path then
            (Ok keypair, fun p => if decide (p = path) then RegularFile (key_to_bytes keypair) else fs p)
          else (Err KeyWriteFailed, fs)
      end
  end.

End GetKeypair.

(** ** builder.rs *)

(** The calls a program makes on its swarm, up to the first that fails. *)
Fixpoint swarm_calls {Call Error : Type} (answer : Call -> res Error unit) (calls : list Call)
  : res Error unit * list Call :=
  match calls with
  | [] => (Ok tt, [])
  | c :: calls =>
      match answer c with
      | Ok _ => let '(r, made) := swarm_calls answer calls in (r, c :: made)
      | r => (r, [c])
      end
  end.

Section Builder.
Context {PeerId Addr Key Client : Type}.
Notation BootNode := (@BootNode PeerId Addr).

Record P2PTransportBuilder := mkBuilder {
  b_keypair : Key;
  b_listen_addrs : list Addr;
  b_public_addrs : list Addr;
  b_boot_nodes : list BootNode;
  b_transport_config : TransportConfig;
  b_base_config : FullBaseConfig;
  b_contract_client : Client;
  b_dht_protocol : str;
  b_agent_info : AgentInfo
}.

Definition with_listen_addrs (addrs : list Addr) (b : P2PTransportBuilder) : P2PTransportBuilder :=
  mkBuilder (b_keypair b) (b_listen_addrs b ++ addrs) (b_public_addrs b) (b_boot_nodes b) (b_transport_config b)
    (b_base_config b) (b_contract_client b) (b_dht_protocol b) (b_agent_info b).

Definition with_public_addrs (addrs : list Addr) (b : P2PTransportBuilder) : P2PTransportBuilder :=
  mkBuilder (b_keypair b) (b_listen_addrs b) (b_public_addrs b ++ addrs) (b_boot_nodes b) (b_transport_config b)
    (b_base_config b) (b_contract_client b) (b_dht_protocol b) (b_agent_info b).

Definition with_boot_nodes (nodes : list BootNode) (b : P2PTransportBuilder) : P2PTransportBuilder :=
  mkBuilder (b_keypair b) (b_listen_addrs b) (b_public_addrs b) (b_boot_nodes b ++ nodes) (b_transport_config b)
    (b_base_config b) (b_contract_client b) (b_dht_protocol b) (b_agent_info b).

Definition with_transport_config (f : TransportConfig -> TransportConfig) (b : P2PTransportBuilder)
  : P2PTransportBuilder :=
  mkBuilder (b_keypair b) (b_listen_addrs b) (b_public_addrs b) (b_boot_nodes b) (f (b_transport_config b))
    (b_base_config b) (b_contract_client b) (b_dht_protocol b) (b_agent_info b).

Definition with_base_config (f : FullBaseConfig -> FullBaseConfig) (b : P2PTransportBuilder)
  : P2PTransportBuilder :=
  mkBuilder (b_keypair b) (b_listen_addrs b) (b_public_addrs b) (b_boot_nodes b) (b_transport_config b)
    (f (b_base_config b)) (b_contract_client b) (b_dht_protocol b) (b_agent_info b).

(** The calls [build_swarm] makes on the swarm once it is built, with what the
    swarm answers: an error of [listen_on] or [dial] ends it. *)
Inductive SwarmCall :=
| ListenOn (addr : Addr)
| AddExternalAddress (addr : Addr)
| DialPeer (peer : PeerId) (addr : Addr).

Definition build_calls (b : P2PTransportBuilder) : list SwarmCall :=
  (ListenOn <$> b_listen_addrs b) ++ (AddExternalAddress <$> b_public_addrs b) ++
  ((fun n => DialPeer (bn_peer_id n) (bn_address n)) <$> b_boot_nodes b).

Definition build_swarm {Error} (answer : SwarmCall -> res Error unit) (b : P2PTransportBuilder)
  : res Error unit * list SwarmCall := swarm_calls answer (build_calls b).

(** The wait of [build_worker].  Poll [i] of the registry happens at [now i] and
    answers [registered i]; the result is the time at which the wait is over. *)
Fixpoint await_registration {Error} (fuel : nat) (registered : nat -> res Error (option Z)) (now : nat -> Z)
    (interval : Z) (i : nat) : option (res Error Z) :=
  match fuel with
  | O => None
  | S fuel =>
      match registered i with
      | Ok None => await_registration fuel registered now interval (S i)
      | Ok (Some reg_time) =>
          let elapsed := if reg_time <=? now i then now i - reg_time else 0 in
          Some (Ok (if elapsed <? interval then now i + (interval - elapsed) else now i))
      | Err e => Some (Err e)
      | Panic => Some Panic
      end
  end.

End Builder.

(** * Set-up: parsing, key file, start of a worker *)

(** ** Boot nodes *)

(** Printable ASCII other than the space: what peer ids and addresses are made of. *)
Definition graphic (c : ascii) : Prop := 33 <= byte_of c <= 126.

Lemma strip_graphic c s : graphic c -> strip_whitespace (c :: s) = None.
Proof.
  intros Hc. unfold graphic in Hc. unfold strip_whitespace, in_range.
  replace ((9 <=? byte_of c) && (byte_of c <=? 13) || (byte_of c =? 32)) with false by lia.
  destruct s as [|b s]; [done|]. replace (byte_of c =? 194) with false by lia. cbn [andb].
  destruct s as [|d s]; [done|].
  replace (byte_of c =? 225) with false by lia. replace (byte_of c =? 226) with false by lia.
  replace (byte_of c =? 227) with false by lia. done.
Qed.

(** The splitter has one unit of fuel per byte left, and one more. *)
Notation words word s := (split_words (S (length s)) word s).

Lemma words_step word c s : strip_whitespace (c :: s) = None -> words word (c :: s) = words (word ++ [c]) s.
Proof. intros E. cbn -[strip_whitespace]. rewrite E. done. Qed.

Lemma words_graphic w word s : Forall graphic w -> words word (w ++ s) = words (word ++ w) s.
Proof.
  intros Hw. revert word; induction Hw as [|c w Hc _ IH]; intros word; [by rewrite app_nil_r|].
  cbn [app]. rewrite words_step by (by apply strip_graphic). rewrite IH, <- app_assoc. done.
Qed.

Definition space : ascii := " "%char.

Lemma words_space word s : words word (space :: s) = (match word with [] => [] | _ => [word] end) ++ words [] s.
Proof. by destruct word. Qed.

Lemma words_spaces n s : words [] (replicate n space ++ s) = words [] s.
Proof. induction n as [|n IH]; cbn [replicate app]; [done|]. by rewrite words_space. Qed.

(** A word that the text ends, or that white space ends. *)
Definition ends_word (s : str) : Prop := s = [] \/ is_Some (strip_whitespace s).

Lemma words_ended word s : word <> [] -> ends_word s -> exists rest, words word s = word :: rest.
Proof.
  intros Hw [->|[s' E]]; cbn [length split_words].
  - destruct word; [done|]. by exists [].
  - rewrite E. destruct word; [done|]. by eexists.
Qed.

Section BootNodes.
Context {PeerId Addr : Type}.
Context (parse_peer : str -> option PeerId) (parse_addr : str -> option Addr).
Context (peer_text : PeerId -> str) (addr_text : Addr -> str).

(** libp2p's text forms: not empty, printable, and parsed back. *)
Record text_forms : Prop := {
  peer_parses p : parse_peer (peer_text p) = Some p;
  addr_parses a : parse_addr (addr_text a) = Some a;
  peer_graphic p : peer_text p <> [] /\ Forall graphic (peer_text p);
  addr_graphic a : addr_text a <> [] /\ Forall graphic (addr_text a)
}.

(** A boot node written as peer id and address, with any number of spaces around
    and between them and anything after further white space, is read back. *)
Theorem boot_node_roundtrip i j p a rest : text_forms -> ends_word rest ->
  BootNode_from_str parse_peer parse_addr
    (replicate i space ++ peer_text p ++ replicate (S j) space ++ addr_text a ++ rest) = Ok (mkBootNode p a).
Proof.
  intros [Pp Pa Gp Ga] Hr. destruct (Gp p) as [Np Fp], (Ga a) as [Na Fa].
  destruct (words_ended (addr_text a) rest Na Hr) as [more E].
  assert (W : split_whitespace (replicate i space ++ peer_text p ++ replicate (S j) space ++ addr_text a ++ rest) =
              peer_text p :: addr_text a :: more).
  { unfold split_whitespace. rewrite words_spaces, words_graphic by done. cbn [replicate app].
    rewrite words_space, words_spaces, words_graphic by done. cbn [app]. rewrite E. by destruct (peer_text p). }
  unfold BootNode_from_str. rewrite W. cbn. rewrite Pp. cbn. rewrite Pa. done.
Qed.

End BootNodes.

(** ** The key file *)

Section Keys.
Context {Key Random Path : Type} `{KeyPairLaws Key Random} `{EqDecision Path}.

(** A node keeps its identity: the first start with a path that has no file
    draws a key and saves it, and every later start, whatever it draws, gets that
    key and leaves the files alone.  No start ever overwrites a file. *)
Theorem keypair_is_stable writable writable' (rng rng' : Random) (path : Path) fs :
  fs path = Missing -> writable path = true ->
  let first := get_keypair writable rng (Some path) fs in
  first.1 = Ok (key_generate rng) /\
  get_keypair writable' rng' (Some path) first.2 = (first.1, first.2) /\
  (forall (w : Path -> bool) (r : Random) (p : option Path) fs' q, fs' q <> Missing -> (get_keypair w r p fs').2 q = fs' q).
Proof.
  intros Hm Hw. cbn. rewrite Hm, Hw. cbn. rewrite decide_True by done. rewrite key_bytes_roundtrip.
  split_and!; [done|done|].
  intros w r [p|] fs' q Hq; [|done]. unfold get_keypair. destruct (fs' p) eqn:E; [|done..].
  destruct (w p); [|done]. cbn. case_decide; [by subst|done].
Qed.

End Keys.

(** ** The start of a worker *)

Lemma await_unregistered {Error} fuel (registered : nat -> res Error (option Z)) now interval n i :
  (forall k, (k < n)%nat -> registered (i + k)%nat = Ok None) ->
  await_registration (n + fuel) registered now interval i = await_registration fuel registered now interval (i + n).
Proof.
  revert i; induction n as [|n IH]; intros i Hr; [by rewrite Nat.add_0_r|].
  pose proof (Hr 0%nat ltac:(lia)) as H0. rewrite Nat.add_0_r in H0.
  cbn [Nat.add await_registration]. rewrite H0, IH; [f_equal; lia|].
  intros k Hk. replace (S i + k)%nat with (i + S k)%nat by lia. apply Hr; lia.
Qed.

(** [build_worker] polls until the worker is registered, and then starts once the
    registration is one update interval old (counted from now if its time lies in
    the future), at once if it already is: by then every node that reads the chain
    at that interval has seen it.  An error of a poll ends the wait. *)
Theorem worker_waits_for_whitelisting {Error} fuel (registered : nat -> res Error (option Z)) now interval n :
  0 <= interval ->
  (forall k, (k < n)%nat -> registered k = Ok None) ->
  (forall t, registered n = Ok (Some t) ->
     await_registration (n + S fuel) registered now interval 0 =
       Some (Ok (Z.max (now n) (Z.min t (now n) + interval)))) /\
  (forall e, registered n = Err e -> await_registration (n + S fuel) registered now interval 0 = Some (Err e)) /\
  await_registration n registered now interval 0 = None.
Proof.
  intros Hi Hr. rewrite (await_unregistered (S fuel) registered now interval n 0 Hr). cbn [Nat.add await_registration].
  split_and!.
  - intros t ->. do 2 f_equal. repeat case_match; lia.
  - by intros e ->.
  - rewrite <- (Nat.add_0_r n) at 1. by rewrite (await_unregistered 0 registered now interval n 0 Hr).
Qed.

(** ** The first calls on the swarm *)

(** Calls are made in order up to the first that fails. *)
Lemma swarm_calls_prefix {Call Error : Type} (answer : Call -> res Error unit) (calls : list Call) :
  let '(r, made) := swarm_calls answer calls in
  made `prefix_of` calls /\ (r = Ok tt <-> made = calls /\ Forall (fun c => answer c = Ok tt) calls).
Proof.
  induction calls as [|c calls IH]; cbn; [by repeat split|].
  destruct (answer c) as [[]|e|] eqn:E.
  - destruct (swarm_calls answer calls) as [r made]. destruct IH as [P Q]. split; [by apply prefix_cons|].
    rewrite Q, Forall_cons. naive_solver.
  - split; [apply prefix_cons, prefix_nil|]. rewrite Forall_cons. naive_solver congruence.
  - split; [apply prefix_cons, prefix_nil|]. rewrite Forall_cons. naive_solver congruence.
Qed.

(** ** Configuration *)

(** The set-up panics exactly when the environment asks for an empty cache. *)
Lemma base_config_panics {E : Type} env_var :
  BaseConfig_from_env (E := E) env_var = Panic <->
  exists v, env_var (lit "ADDR_CACHE_SIZE") = Some v /\ parse_u64 v = Some 0.
Proof.
  set (cache := parse_env_var env_var parse_u64 (lit "ADDR_CACHE_SIZE") 1024).
  assert (C : BaseConfig_from_env (E := E) env_var = Panic <-> cache = 0).
  { unfold BaseConfig_from_env. fold cache. destruct (cache =? 0) eqn:Ec; cbn; split; intros; try done; lia. }
  rewrite C. unfold cache, parse_env_var. destruct (env_var (lit "ADDR_CACHE_SIZE")) as [v|]; cbn [mbind option_bind].
  - destruct (parse_u64 v) as [x|] eqn:P; naive_solver.
  - naive_solver.
Qed.

(** ** Concrete inputs *)

(** Peer ids and addresses that are their own text, not empty and printable. *)
Definition graphic_text : Type := { s : str | bool_decide (s <> [] /\ Forall graphic s) }.

Definition text_of (t : graphic_text) : str := proj1_sig t.
Definition read_text (s : str) : option graphic_text :=
  match decide (bool_decide (s <> [] /\ Forall graphic s)) with left P => Some (exist _ s P) | right _ => None end.

Lemma read_text_of t : read_text (text_of t) = Some t.
Proof.
  destruct t as [s P]. unfold read_text. cbn. destruct (decide _) as [Q|Q]; [|done]. do 2 f_equal. apply proof_irrel.
Qed.

Lemma graphic_text_forms : text_forms read_text read_text text_of text_of.
Proof.
  split; [apply read_text_of..| |]; intros [s P]; cbn; exact (bool_decide_unpack _ P).
Qed.

Definition graphic_lit (s : str) (P : bool_decide (s <> [] /\ Forall graphic s)) : graphic_text := exist _ s P.

Definition demo_peer : graphic_text := graphic_lit (lit "12D3KooW") ltac:(vm_compute; exact I).
Definition demo_addr : graphic_text := graphic_lit (lit "/dns4/node/udp/22345") ltac:(vm_compute; exact I).

Lemma boot_node_roundtrip_witness :
  BootNode_from_str read_text read_text (lit "  12D3KooW /dns4/node/udp/22345 # main") =
    Ok (mkBootNode demo_peer demo_addr).
Proof.
  exact (boot_node_roundtrip read_text read_text text_of text_of 2 0 demo_peer demo_addr (lit " # main")
    graphic_text_forms (or_intror (ex_intro _ _ eq_refl))).
Defined.

#[global] Instance number_keys : KeyPairs Z Z := {|
  key_generate r := r;
  key_to_bytes k := [k];
  key_try_from_bytes b := match b with [k] => Some k | _ => None end
|}.

#[global] Instance number_key_laws : KeyPairLaws Z Z.
Proof. by split. Qed.

Lemma keypair_is_stable_witness :
  (get_keypair (fun _ => true) 9 (Some 1) (get_keypair (fun _ => true) 7 (Some 1) (fun _ : Z => Missing)).2).1 = Ok 7.
Proof.
  destruct (keypair_is_stable (fun _ => true) (fun _ => true) 7 9 1 (fun _ : Z => Missing) eq_refl eq_refl) as (A & B & _).
  rewrite B. exact A.
Defined.

(** Registered at second 100 and seen in the third poll, at second 120. *)
Lemma worker_waits_witness :
  await_registration (Error := unit) 5 (fun i => if (i <? 2)%nat then Ok None else Ok (Some 100))
    (fun i => 60 * Z.of_nat i) 180 0 = Some (Ok 280).
Proof.
  refine (proj1 (worker_waits_for_whitelisting (Error := unit) 2
    (fun i => if (i <? 2)%nat then Ok None else Ok (Some 100)) (fun i => 60 * Z.of_nat i) 180 2 ltac:(lia) _) 100 eq_refl).
  intros k Hk. by rewrite (proj2 (Nat.ltb_lt k 2) Hk).
Defined.
