(* ===== verification/NodeBuild.v ===== *)
(** * From the command line to a running node
    (crates/transport/src/builder.rs, cli.rs, lib.rs; the constructors of the
    behaviours in actors)

    [from_cli] reads key, chain client and environment into a builder; the
    [build_*] methods make the base behaviour, let the actor's constructor set it
    up, give the swarm its first calls and start the transport. *)

From S2P Require Import Prelude RustStd Whitelist AddrCache ContractClient ContractSetup.
From S2P Require Import StreamShared StreamIO StreamClient Base Wrapped BaseWrapped Actors Tasks Transports StreamServer Setup.
From Stdlib Require Import ZArith Lia.
From stdpp Require Import base sets gmap numbers list.

Open Scope Z_scope.

(** ** lib.rs: [Error] and its conversions; errors of libp2p are their texts *)

Inductive Error :=
| ErrTransport (e : str)
| ErrListen (e : str)
| ErrDial (e : str)
| ErrContract (e : ClientError).

Definition error_from_io (e : str) : Error := ErrTransport e.
Definition error_from_dial (e : str) : Error := ErrDial e.
Definition error_from_client (e : ClientError) : Error := ErrContract e.

(** What [from_cli] fails with, as [anyhow::Error]. *)
Inductive CliError := CliKey (e : KeyError) | CliClient (e : ClientError).

Section NodeBuild.
Context {PeerId QueryId : Type} `{Countable PeerId, Countable QueryId}.
Context `{!AllowList PeerId} `{!LruCache PeerId (gset Multiaddr)} `{!Kademlia PeerId QueryId}
        `{!DelayQueue PeerId} `{!BiHashMap PeerId QueryId}.
Context `{BuildProfile}.
Context {Record_ : Type}.
Context {Key Random Path : Type} `{KeyPairs Key Random} `{EqDecision Path}.
Context (key_peer_id : Key -> PeerId).

Notation BaseB := (BaseBehaviour (PeerId := PeerId) (QueryId := QueryId) (Record_ := Record_)).
Notation BootNodeT := (@BootNode PeerId Multiaddr).
Notation ClientT := (nat -> Client (PeerId := PeerId)).
Notation BuilderT := (@P2PTransportBuilder PeerId Multiaddr Key ClientT).
Notation SwarmCallT := (@SwarmCall PeerId Multiaddr).

(** ** cli.rs *)

Record TransportArgs := mkTransportArgs {
  ta_key : Path;
  p2p_listen_addrs : list Multiaddr;
  p2p_public_addrs : list Multiaddr;
  ta_boot_nodes : list BootNodeT;
  ta_rpc : RpcArgs
}.

Definition listen_addrs (args : TransportArgs) : list Multiaddr := p2p_listen_addrs args.

(** ** [from_cli] and accessors *)

Section FromCli.
Context (client_for : RpcArgs -> res ClientError ClientT) (env_var : str -> option str).

(** [client_for] is [get_client] with the environment it runs in. *)
Definition from_cli (args : TransportArgs) (agent_info : AgentInfo) (writable : Path -> bool) (rng : Random)
    (fs : Path -> FsEntry) : res CliError BuilderT * (Path -> FsEntry) :=
  let listen_addrs := listen_addrs args in
  match get_keypair writable rng (Some (ta_key args)) fs with
  | (Ok keypair, fs) =>
      (contract_client ← map_err CliClient (client_for (ta_rpc args));
       let dht_protocol := dht_protocol (network (ta_rpc args)) in
       base_config ← BaseConfig_from_env env_var;
       Ok (mkBuilder keypair listen_addrs (p2p_public_addrs args) (ta_boot_nodes args)
             (TransportConfig_from_env env_var) base_config contract_client dht_protocol agent_info), fs)
  | (Err e, fs) => (Err (CliKey e), fs)
  | (Panic, fs) => (Panic, fs)
  end.

End FromCli.

Definition local_peer_id (b : BuilderT) : PeerId := key_peer_id (b_keypair b).
Definition keypair (b : BuilderT) : Key := b_keypair b.
Definition contract_client (b : BuilderT) : ClientT := fun i => clone_client (b_contract_client b i).

(** ** [build_swarm] *)

(** What the swarm is configured with; times in milliseconds. *)
Record SwarmSettings := mkSwarmSettings {
  mtu_upper_bound : Z;
  keep_alive_interval : Z;
  max_idle_timeout : Z;
  idle_connection_timeout : Z
}.

Record Swarm (T : Type) := mkSwarm { sw_identity : Key; sw_settings : SwarmSettings; sw_behaviour : T }.
Arguments mkSwarm {T}.
Arguments sw_identity {T}.
Arguments sw_settings {T}.
Arguments sw_behaviour {T}.

Definition swarm_settings (c : TransportConfig) : SwarmSettings :=
  mkSwarmSettings (mtu_discovery_max c) (keep_alive_interval_ms c) (max_idle_timeout_ms c)
    (idle_connection_timeout_ms c).

(** The part of the configuration that the state of [BaseBehaviour] depends on. *)
Definition base_config_of (c : FullBaseConfig) : BaseConfig :=
  mkBaseConfig (Z.to_nat (addr_cache_size c)) (Z.to_nat (Setup.max_concurrent_lookups c)) (Setup.reconnect_cooldown c).

(** Kademlia is made for a peer, with a protocol and a query timeout; the calls on
    the swarm and the set-up of DNS may fail. *)
Context (kad_new : PeerId -> str -> Z -> Kad (PeerId := PeerId) (QueryId := QueryId)).
Context (with_dns : res str unit) (listen_on : Multiaddr -> res str unit) (dial : PeerId -> Multiaddr -> res str unit).

Definition new_base (b : BuilderT) : BaseB :=
  BaseBehaviour_new (base_config_of (b_base_config b))
    ((fun n => (bn_peer_id n, bn_address n)) <$> b_boot_nodes b)
    (kad_new (local_peer_id b) (b_dht_protocol b) (kad_query_timeout (b_base_config b))).

Definition swarm_answer (c : SwarmCallT) : res Error unit :=
  match c with
  | ListenOn addr => map_err ErrListen (listen_on addr)
  | AddExternalAddress _ => Ok tt
  | DialPeer peer_id address => map_err error_from_dial (dial peer_id address)
  end.

(** [behaviour] is the closure that makes the actor's behaviour, which may panic. *)
Definition build_node {T : Type} (behaviour : BaseB -> res Error T) (b : BuilderT)
  : res Error (Swarm T) * list SwarmCallT :=
  match (_ ← map_err error_from_io with_dns; behaviour (new_base b)) with
  | Ok t =>
      let '(r, made) := build_swarm swarm_answer b in
      (_ ← r; Ok (mkSwarm (b_keypair b) (swarm_settings (b_transport_config b)) t), made)
  | Err e => (Err e, [])
  | Panic => (Panic, [])
  end.

(** A built swarm with the transport started on it. *)
Definition start_on {T U : Type} (built : res Error (Swarm T) * list SwarmCallT) (start : res Error U)
  : res Error (Swarm T * U) * list SwarmCallT :=
  (swarm ← built.1; started ← start; Ok (swarm, started), built.2).

(** ** The constructors of the behaviours *)

(** portal.rs *)
Definition PortalBehaviour_of (base : BaseB) : BaseB * PortalBehaviour (PeerId := PeerId) (QueryId := QueryId) :=
  let base := start_maintaining base in (base, PortalBehaviour_new (kademlia base)).

(** logs_collector.rs, pings_collector.rs, sql_client.rs and observer.rs: only the base *)
Definition LogsCollectorBehaviour_of (base : BaseB) : BaseB := start_maintaining base.
Definition PingsCollectorBehaviour_of (base : BaseB) : BaseB := start_maintaining base.
Definition SQLClientBehaviour_of (base : BaseB) : BaseB := start_maintaining base.
Definition ObserverBehaviour_of (base : BaseB) : BaseB := base.

(** portal_logs_collector.rs: two request servers, with their codec and protocol *)
Record RequestServerSpec := mkRequestServerSpec {
  rsv_codec : ProtoCodec;
  rsv_protocol : str;
  rsv_request_timeout : Z
}.

Definition REQUEST_TIMEOUT : Z := 5.

Record PortalLogsCollector {RespChan : Type} := mkPortalLogsCollector {
  plc_base : BaseB;
  plc_v1 : RequestServerSpec;
  plc_v2 : RequestServerSpec;
  plc_state : LogsCollectorBehaviour (RespChan := RespChan)
}.
Arguments PortalLogsCollector : clear implicits.

Definition PortalLogsCollectorBehaviour_of {RespChan : Type} (base : BaseB) : PortalLogsCollector RespChan :=
  mkPortalLogsCollector RespChan (set_server_mode base)
    (mkRequestServerSpec (mkProtoCodec MAX_LOG_MSG_SIZE MAX_LOG_RESULT_SIZE) PORTAL_LOGS_PROTOCOL_V1 REQUEST_TIMEOUT)
    (mkRequestServerSpec (mkProtoCodec MAX_LOGS_MSG_SIZE MAX_LOGS_RESULT_SIZE) PORTAL_LOGS_PROTOCOL_V2 REQUEST_TIMEOUT)
    LogsCollectorBehaviour_new.

(** worker.rs: four stream servers *)
Section WorkerServers.
Context {ConnId Stream Chan : Type} `{Countable ConnId} `{Countable Chan}.
Context `{!Mpsc Chan (NewStream str)} `{!Mpsc Chan (PeerId * Stream)} `{!Mpsc Chan PeerId}
  `{!Mpsc Chan (Request PeerId Stream)}.
Notation ServerT := (Server (PeerId := PeerId) (ConnId := ConnId) (Stream := Stream) (Chan := Chan)).

Record WorkerBehaviour := mkWorkerBehaviour {
  wb_base : BaseB;
  wb_query : ServerT;
  wb_sql_query : ServerT;
  wb_logs : ServerT;
  wb_status : ServerT
}.

(** Each server has channels of its own. *)
Definition WorkerBehaviour_of {E : Type} (config : WorkerConfig) (ns : Chans Chan (NewStream str))
    (inc : Chans Chan (PeerId * Stream)) (ds : Chans Chan PeerId) (h : Chans Chan (Request PeerId Stream))
    (base : BaseB) : res E WorkerBehaviour :=
  let base := set_server_mode base in
  let timeout := query_execution_timeout config in
  query ← server_new QUERY_PROTOCOL (query_server timeout) ns inc ds h;
  sql_query ← server_new SQL_QUERY_PROTOCOL (sql_query_server timeout) ns inc ds h;
  logs ← server_new WORKER_LOGS_PROTOCOL (logs_server timeout) ns inc ds h;
  status ← server_new WORKER_STATUS_PROTOCOL (status_server timeout) ns inc ds h;
  Ok (mkWorkerBehaviour base query sql_query logs status).

End WorkerServers.

(** ** The [build_*] methods *)

Section BuildActors.
Context (flavor : RuntimeFlavor) `{Semaphore}.

Definition build_portal {Chan : Type} `{Countable Chan} `{!Mpsc Chan (LogListenersEvent (PeerId := PeerId))}
    (config : PortalConfig) (h : Chans Chan (LogListenersEvent (PeerId := PeerId))) (b : BuilderT) :=
  start_on (build_node (fun base => Ok (PortalBehaviour_of base)) b) (portal_start_transport flavor config h).

Definition build_logs_collector (config : LogsCollectorConfig) (b : BuilderT) :=
  start_on (build_node (fun base => Ok (LogsCollectorBehaviour_of base)) b)
    (logs_collector_start_transport (PeerId := PeerId) flavor config).

Definition build_portal_logs_collector {Chan QueryFinished RespChan : Type} `{Countable Chan}
    `{!Mpsc Chan (PortalLogsCollectorEvent (PeerId := PeerId) (QueryFinished := QueryFinished))}
    (config : PortalLogsCollectorConfig)
    (h : Chans Chan (PortalLogsCollectorEvent (PeerId := PeerId) (QueryFinished := QueryFinished))) (b : BuilderT) :=
  start_on (build_node (fun base => Ok (PortalLogsCollectorBehaviour_of (RespChan := RespChan) base)) b)
    (collector_start_transport flavor config h).

Definition build_observer {Chan Heartbeat : Type} `{Countable Chan}
    `{!Mpsc Chan (ObserverEvent (PeerId := PeerId) (Heartbeat := Heartbeat))}
    (config : ObserverConfig) (h : Chans Chan (ObserverEvent (PeerId := PeerId) (Heartbeat := Heartbeat))) (b : BuilderT) :=
  start_on (build_node (fun base => Ok (ObserverBehaviour_of base)) b) (observer_start_transport flavor config h).

Definition build_pings_collector (config : PingsCollectorConfig) (b : BuilderT) :=
  start_on (build_node (fun base => Ok (PingsCollectorBehaviour_of base)) b)
    (pings_start_transport (PeerId := PeerId) flavor config).

Definition build_sql_client (config : SQLClientConfig) (b : BuilderT) :=
  start_on (build_node (fun base => Ok (SQLClientBehaviour_of base)) b)
    (sql_start_transport (PeerId := PeerId) flavor config).

(** [build_worker] first waits for its registration: poll [i] of the chain is at the
    time [now i].  [None] when the wait takes more than [fuel] polls; the time at
    which it is over comes with the result. *)
Definition build_worker {ConnId Stream Chan : Type} `{Countable ConnId} `{Countable Chan}
    `{!Mpsc Chan (NewStream str)} `{!Mpsc Chan (PeerId * Stream)} `{!Mpsc Chan PeerId}
    `{!Mpsc Chan (Request PeerId Stream)} `{!Mpsc Chan (WorkerEvent PeerId Stream)}
    (fuel : nat) (now : nat -> Z) (config : WorkerConfig) (ns : Chans Chan (NewStream str))
    (inc : Chans Chan (PeerId * Stream)) (ds : Chans Chan PeerId) (h : Chans Chan (Request PeerId Stream))
    (events : Chans Chan (WorkerEvent PeerId Stream)) (b : BuilderT) :=
  let local_peer_id := local_peer_id b in
  let registered i := map_err error_from_client (cl_worker_registration_time (b_contract_client b i) local_peer_id) in
  match await_registration fuel registered now (onchain_update_interval (b_base_config b)) 0 with
  | Some (Ok ready) =>
      let '(r, made) :=
        start_on (build_node (WorkerBehaviour_of (ConnId := ConnId) config ns inc ds h) b)
          (worker_start_transport flavor config events) in
      Some (node ← r; Ok (ready, node), made)
  | Some (Err e) => Some (Err e, [])
  | Some Panic => Some (Panic, [])
  | None => None
  end.

End BuildActors.

End NodeBuild.

Arguments Swarm {Key} T.
Arguments mkSwarm {Key T}.
Arguments sw_identity {Key T}.
Arguments sw_settings {Key T}.
Arguments sw_behaviour {Key T}.
