(* ===== verification/NodeBuildProps.v ===== *)
(** * A node from its builder to its workers

    The chain client, the builder, the actors' constructors and the base behaviour
    behind its wrapper, put together: what a portal, a collector or an SQL client
    that was built does about the workers the chain reports. *)

From S2P Require Import Prelude RustStd Instances Whitelist AddrCache Base BaseTheory BaseProps StreamShared.
From S2P Require Import StreamTheory StreamSystem StreamInv StreamProps Wrapped BaseWrapped BaseNode BaseRest.
From S2P Require Import StreamIO StreamClient Actors Tasks Transports ContractClient ContractSetup.
From S2P Require Import ContractProps StreamServer Setup NodeBuild.
From Stdlib Require Import ZArith Lia String.
From stdpp Require Import base sets gmap numbers relations strings list.

Open Scope Z_scope.

Section Reads.
Context {PeerId QueryId : Type} `{Countable PeerId, Countable QueryId}.
Context `{!AllowList PeerId} `{!LruCache PeerId (gset Multiaddr)} `{!Kademlia PeerId QueryId}
        `{!DelayQueue PeerId} `{!BiHashMap PeerId QueryId}.
Context `{BuildProfile} (private_network : bool)
        (with_p2p : PeerId -> Multiaddr -> Multiaddr + Multiaddr).
Context {Record_ PubsubMsg InnerCmd HandlerEvent : Type}.
Context `{!AllowListLaws PeerId} `{!KademliaLaws PeerId QueryId} `{!DelayQueueLaws PeerId}
        `{!BiHashMapLaws PeerId QueryId}.

Notation BaseB := (BaseBehaviour (PeerId := PeerId) (QueryId := QueryId) (Record_ := Record_)).
Notation NodeT := (Node (PeerId := PeerId) (QueryId := QueryId) (Record_ := Record_)
  (ClientError := ClientError) (PubsubMsg := PubsubMsg) (InnerCmd := InnerCmd)).
Notation WorldT := (World (PeerId := PeerId) (QueryId := QueryId) (Record_ := Record_)
  (ClientError := ClientError) (PubsubMsg := PubsubMsg) (InnerCmd := InnerCmd)).
Notation InnerActT := (InnerAct (PeerId := PeerId) (QueryId := QueryId) (Record_ := Record_)
  (ClientError := ClientError) (PubsubMsg := PubsubMsg) (InnerCmd := InnerCmd)).
Notation stepN := (nstep private_network with_p2p (PeerId := PeerId) (QueryId := QueryId) (Record_ := Record_)
  (ClientError := ClientError) (PubsubMsg := PubsubMsg) (InnerCmd := InnerCmd) (HandlerEvent := HandlerEvent)).
Notation bwrap := (base_wrapper private_network with_p2p (PeerId := PeerId) (QueryId := QueryId)
  (Record_ := Record_) (ClientError := ClientError) (PubsubMsg := PubsubMsg) (InnerCmd := InnerCmd)
  (HandlerEvent := HandlerEvent)).

(** ** Reads of the chain are those of the client *)

Section Items.
Context (item : nat -> option (res ClientError (NetworkNodes (PeerId := PeerId)))).

Definition read_from (a : InnerActT) : Prop :=
  match a with ActChainRead r => exists i, item i = Some r | _ => True end.

Definition reads_from (w : WorldT) : Prop := Forall read_from (w_script w).

(** A step in which what gets ready for the whitelist are items of the stream. *)
Definition client_step (n n' : NodeT) : Prop := stepN n n' /\ reads_from (wrapper (node_wrapped n')).

Definition reported (b : BaseB) : Prop :=
  registered_workers b = ∅ \/
  exists i nodes, item i = Some (Ok nodes) /\ registered_workers b = workers nodes.

Definition reads_ok (w : WorldT) : Prop := reads_from w /\ reported (w_base w).

Lemma reported_same b b' : registered_workers b' = registered_workers b -> reported b -> reported b'.
Proof. unfold reported. by intros ->. Qed.

Lemma inner_event_workers ev (b : BaseB) :
  registered_workers (snd (base_on_inner_event private_network with_p2p (PubsubMsg := PubsubMsg) ev b)) =
  match ev with WhitelistEv nodes => workers nodes | _ => registered_workers b end.
Proof.
  destruct ev as [[p addrs |] | ev | ev | msg | | nodes |]; cbn; try done.
  - unfold on_identify_event, try_emit_confidence. cbn zeta. repeat case_match; done.
  - destruct ev; cbn; try done. repeat case_match; done.
  - by destruct ev as [[] |].
  - apply base_on_nodes_update_trust.
Qed.

Lemma whitelist_event result w nodes w' :
  on_nodes_update (ClientError := ClientError) (PeerId := PeerId) result w = (Some nodes, w') -> result = Ok nodes.
Proof. destruct result; cbn; [| done..]. by case_bool_decide; intros [= <- <-]. Qed.

Lemma inner_poll_reads script (b : BaseB) now ev b' script' now' :
  inner_behaviour_poll script b now = (ev, b', script', now') -> Forall read_from script ->
  Forall read_from script' /\ registered_workers b' = registered_workers b /\
  match ev with
  | Some (GenerateEvent (WhitelistEv nodes)) => exists i, item i = Some (Ok nodes)
  | _ => True
  end.
Proof.
  revert b. induction script as [| a script IH]; intros b E Hs; cbn in E; [by simplify_eq |].
  apply Forall_cons in Hs as [Ha Hs]. destruct a; try (by simplify_eq).
  destruct (on_nodes_update _ _) as [[nodes |] w] eqn:Eu; cbn in E.
  - apply whitelist_event in Eu as ->. by simplify_eq.
  - by apply IH in E.
Qed.

Lemma wrapped_poll_reads fuel s out s' :
  wrapped_poll (BW := bwrap) fuel s = Some (out, s') -> reads_ok (wrapper s) -> reads_ok (wrapper s').
Proof.
  apply (wrapped_poll_inv reads_ok); cbn.
  - intros w o w'. destruct (base_poll_trust (w_now w) (w_base w)) as [_ Ht].
    destruct (base_poll _ _) as [out' b]. intros [= <- <-] [Hr Hp]. split; [done |]. by eapply reported_same.
  - intros w w'. destruct (inner_behaviour_poll _ _ _) as [[[ev b] script] now] eqn:E. intros [= -> <-] [Hr Hp].
    apply inner_poll_reads in E as (Hs & Hw & _); [| done]. split; [done |]. by eapply reported_same.
  - intros w ev w1 evs w2. destruct (inner_behaviour_poll _ _ _) as [[[ev' b] script] now] eqn:E.
    intros [= -> <-] E2 [Hr Hp]. apply inner_poll_reads in E as (Hs & Hw & Hev); [| done].
    destruct ev as [ev | cmd]; cbn in E2.
    2: { simplify_eq. split; [done |]. by eapply reported_same. }
    pose proof (inner_event_workers ev b) as Ht.
    destruct (base_on_inner_event _ _ ev b) as [out2 b3]. cbn in E2, Ht. injection E2 as <- <-. split; [done |]. cbn.
    destruct ev; try (by apply (reported_same (w_base w)); [congruence | done]).
    right. destruct Hev as [i Hi]. by exists i, nodes.
Qed.

Lemma client_step_reads n n' :
  client_step n n' -> reads_ok (wrapper (node_wrapped n)) -> reads_ok (wrapper (node_wrapped n')).
Proof.
  intros [Hstep Hread] [Hr Hp]. destruct Hstep as [fuel s d o out s' Hpoll | | | | | | | | | |].
  1: by eapply wrapped_poll_reads.
  all: split; [exact Hread |]; revert Hp; cbn -[wrapped_on_swarm_event]; try done.
  all: apply reported_same; match goal with
    |- context [wrapped_on_swarm_event (?now, ?ev) ?s] =>
      exact (proj2 (swarm_event_same_trust private_network with_p2p (HandlerEvent := HandlerEvent) now ev s))
    end.
Qed.

End Items.
End Reads.

(** ** Built nodes *)

Section Built.
Context {PeerId QueryId : Type} `{Countable PeerId, Countable QueryId}.
Context `{!AllowList PeerId} `{!LruCache PeerId (gset Multiaddr)} `{!Kademlia PeerId QueryId}
        `{!DelayQueue PeerId} `{!BiHashMap PeerId QueryId}.
Context `{BuildProfile} (private_network : bool)
        (with_p2p : PeerId -> Multiaddr -> Multiaddr + Multiaddr).
Context {Record_ PubsubMsg InnerCmd HandlerEvent : Type}.
Context `{!AllowListLaws PeerId} `{!KademliaLaws PeerId QueryId} `{!DelayQueueLaws PeerId}
        `{!BiHashMapLaws PeerId QueryId}.
Context {Key Random Path : Type} `{KeyPairs Key Random} `{EqDecision Path}.
Context (key_peer_id : Key -> PeerId) (kad_new : PeerId -> str -> Z -> Kad (PeerId := PeerId) (QueryId := QueryId)).
Context (with_dns : res str unit) (listen_on : Multiaddr -> res str unit) (dial : PeerId -> Multiaddr -> res str unit).
Context {Chan : Type} `{Countable Chan} `{!Mpsc Chan (LogListenersEvent (PeerId := PeerId))} `{Semaphore}.
Context (flavor : RuntimeFlavor).

Notation BaseB := (BaseBehaviour (PeerId := PeerId) (QueryId := QueryId) (Record_ := Record_)).
Notation ClientT := (nat -> Client (PeerId := PeerId)).
Notation BuilderT := (@P2PTransportBuilder PeerId Multiaddr Key ClientT).
Notation SwarmCallT := (@SwarmCall PeerId Multiaddr).
Notation NodeT := (Node (PeerId := PeerId) (QueryId := QueryId) (Record_ := Record_)
  (ClientError := ClientError) (PubsubMsg := PubsubMsg) (InnerCmd := InnerCmd)).
Notation bwrap := (base_wrapper private_network with_p2p (PeerId := PeerId) (QueryId := QueryId)
  (Record_ := Record_) (ClientError := ClientError) (PubsubMsg := PubsubMsg) (InnerCmd := InnerCmd)
  (HandlerEvent := HandlerEvent)).
Notation stepC := (client_step private_network with_p2p (PeerId := PeerId) (QueryId := QueryId) (Record_ := Record_)
  (PubsubMsg := PubsubMsg) (InnerCmd := InnerCmd) (HandlerEvent := HandlerEvent)).
Notation portal_built := (build_portal key_peer_id kad_new with_dns listen_on dial flavor (Record_ := Record_)).
Notation logs_built := (build_logs_collector key_peer_id kad_new with_dns listen_on dial flavor (Record_ := Record_)).
Notation pings_built := (build_pings_collector key_peer_id kad_new with_dns listen_on dial flavor (Record_ := Record_)).
Notation sql_built := (build_sql_client key_peer_id kad_new with_dns listen_on dial flavor (Record_ := Record_)).

(** The actors that call workers, with the base behaviour they start from and the
    calls their swarms were given. *)
Inductive client_node (b : BuilderT) : BaseB -> list SwarmCallT -> Prop :=
| cn_portal config (h : Chans Chan LogListenersEvent) swarm t calls :
    portal_built config h b = (Ok (swarm, t), calls) -> client_node b (fst (sw_behaviour swarm)) calls
| cn_logs config swarm t calls :
    logs_built config b = (Ok (swarm, t), calls) -> client_node b (sw_behaviour swarm) calls
| cn_pings config swarm t calls :
    pings_built config b = (Ok (swarm, t), calls) -> client_node b (sw_behaviour swarm) calls
| cn_sql config swarm t calls :
    sql_built config b = (Ok (swarm, t), calls) -> client_node b (sw_behaviour swarm) calls.

Definition node_of (base : BaseB) : NodeT := mkNode (wrapped_from (mkWorld base [] 0 false)) no_dials [].

Notation node_built := (build_node key_peer_id kad_new with_dns listen_on dial (Record_ := Record_)).

(** A build that succeeds has made every call. *)
Lemma build_node_inv {T U : Type} (behaviour : BaseB -> res Error T) b (start : res Error U) swarm u calls :
  start_on (node_built behaviour b) start = (Ok (swarm, u), calls) ->
  behaviour (new_base key_peer_id kad_new b) = Ok (sw_behaviour swarm) /\ calls = build_calls b /\
  sw_identity swarm = b_keypair b /\ with_dns = Ok tt.
Proof.
  unfold start_on, build_node. destruct with_dns as [[] | |]; cbn; [| by intros [=] ..].
  destruct (behaviour _) as [t | |] eqn:Et; cbn; [| by intros [=] ..].
  pose proof (swarm_calls_prefix (swarm_answer listen_on dial) (build_calls b)) as Hc. unfold build_swarm.
  destruct (swarm_calls _ _) as [[[] | |] made]; cbn; [| by intros [=] ..]. destruct Hc as [_ Hc].
  destruct start; cbn; [| by intros [=] ..]. intros [= <- _ <-]. by split_and!; [| apply Hc | |].
Qed.

Lemma client_node_base b base calls : client_node b base calls ->
  base = start_maintaining (new_base key_peer_id kad_new b) /\ calls = build_calls b.
Proof.
  intros [config h swarm t cs E | config swarm t cs E | config swarm t cs E | config swarm t cs E];
    apply build_node_inv in E as (E & -> & _); injection E as <-; done.
Qed.

Lemma allow_all_allowed (l : list (PeerId * Multiaddr)) (w : WhitelistBehavior (PeerId := PeerId)) p :
  p ∈ l.*1 \/ p ∈ allowed (allow w) -> p ∈ allowed (allow (foldl (fun w n => allow_peer n.1 w) w l)).
Proof.
  revert w. induction l as [| n l IH]; intros w Hp; cbn in *; [set_solver |]. apply IH. cbn. rewrite allowed_add. set_solver.
Qed.

Lemma network_nodes_workers order (client : ClientT) i nodes p :
  network_nodes_stream order client i = Some (Ok nodes) -> p ∈ workers nodes ->
  exists ws w, cl_active_workers (client i) = Ok ws /\ w ∈ ws /\ w_peer_id w = p.
Proof.
  unfold network_nodes_stream, network_nodes, clone_client, try_join.
  destruct (cl_active_portals (client i)) as [ps |]; cbn; [| done].
  destruct (cl_active_workers (client i)) as [ws | e |], ps as [ps | e' |], (order i); cbn; try done;
    intros [= <-] Hp; cbn in Hp; apply elem_of_list_to_set, list_elem_of_fmap in Hp as (w & -> & Hw); eauto.
Qed.

(** What a run whose reads come from the client is a run of. *)
Lemma client_run item n n' : rtc (stepC item) n n' ->
  rtc (nstep private_network with_p2p (HandlerEvent := HandlerEvent)) n n' /\
  (reads_ok item (wrapper (node_wrapped n)) -> reads_ok item (wrapper (node_wrapped n'))).
Proof.
  induction 1 as [n | x y z Hxy _ [IH1 IH2]]; [done |]. split; [eapply rtc_l; [apply Hxy | done] |].
  intros Hx. apply IH2. by eapply client_step_reads.
Qed.

(** C8: a portal, logs collector, pings collector or SQL client started from the
    command line follows the chain.  When [from_cli] and the build succeed, every
    listen, external-address and boot-node call was made, in that order, and the
    boot nodes are allowed; and in every state the node then reaches, as long as
    what its whitelist reads is what the client of the command line reports, no
    handler has panicked and the next poll returns, and a registered worker is one
    that a read of the chain listed as active, is allowed to connect, and has a
    connection, waits for its cooldown or lookup, or is looked up or dialled, or the
    swarm refused its last dial with a failure that is not retried. *)
Theorem deployed_node_follows_the_chain client_for env_var (args : TransportArgs (Path := Path)) agent_info
    writable (rng : Random) fs b fs' base calls :
  from_cli client_for env_var args agent_info writable rng fs = (Ok b, fs') ->
  client_node b base calls ->
  exists client, client_for (ta_rpc args) = Ok client /\
    calls = (ListenOn <$> p2p_listen_addrs args) ++ (AddExternalAddress <$> p2p_public_addrs args) ++
            ((fun n => DialPeer (bn_peer_id n) (bn_address n)) <$> ta_boot_nodes args) /\
    (forall node, node ∈ ta_boot_nodes args -> bn_peer_id node ∈ allowed (allow (whitelist base))) /\
    forall order (n : NodeT) p, rtc (stepC (network_nodes_stream order client)) (node_of base) n ->
      let s := node_wrapped n in
      w_panicked (wrapper s) = false /\
      is_Some (wrapped_poll (BW := bwrap) (length (w_script (wrapper s)) + 2) s) /\
      (p ∈ registered_workers (node_base n) ->
       (exists i ws w, cl_active_workers (client i) = Ok ws /\ w ∈ ws /\ w_peer_id w = p) /\
       p ∈ allowed (allow (whitelist (node_base n))) /\
       (p ∈ node_open n \/ p ∈ reconnect_scheduled (node_base n) \/
        is_Some (bm_pairs (ongoing_lookups (node_base n)) !! p) \/ p ∈ under_way (node_dialing n) \/
        p ∈ refused (node_dialing n) \/
        (exists c, Dial p c ∈ Base.pending_events (node_base n)) \/
        (exists c, Command (CmdDial p c) ∈ Wrapped.pending_events s))).
Proof.
  intros Hcli Hnode. apply client_node_base in Hnode as [-> ->]. unfold from_cli in Hcli.
  destruct (get_keypair _ _ _ _) as [[key | |] fs1]; [| done..].
  destruct (client_for (ta_rpc args)) as [client | |]; cbn in Hcli; [| done..].
  destruct (BaseConfig_from_env env_var) as [config | |]; cbn in Hcli; [| done..]. injection Hcli as <- <-.
  exists client. split_and!; [done | done | |].
  - intros node Hn. apply allow_all_allowed. left.
    rewrite <- list_fmap_compose. by apply (list_elem_of_fmap_2 (fun n => bn_peer_id n)).
  - intros order n p Hrun. apply client_run in Hrun as [Hrun Hreads].
    destruct (node_tracks_workers private_network with_p2p (HandlerEvent := HandlerEvent) n p) as (Hp & Hpoll & Hw).
    { eexists _, _, _. exact Hrun. }
    split_and!; [done | done |]. intros Hreg. split; [| by apply Hw].
    destruct Hreads as [_ [He | (i & nodes & Hi & He)]]; [by split; [constructor | left] | |].
    + unfold node_base in Hreg. rewrite He in Hreg. by apply not_elem_of_empty in Hreg.
    + exists i. apply (network_nodes_workers order client i nodes p Hi). rewrite <- He. exact Hreg.
Qed.

End Built.

(** * A pings collector, from its command line to the first worker

    The chain is that of [ContractProps], with the workers 31 and 32. *)

Section Demo.
#[local] Existing Instances debug_profile set_allow_list list_lru toy_kad list_delay_queue map_bimap
  set_allow_list_laws toy_kad_laws list_delay_queue_laws map_bimap_laws.

(** A URL and a client with its timeout; there are no websockets. *)
Definition demo_get_client : RpcArgs -> res ClientError (nat -> Client (PeerId := Z)) :=
  get_client demo_to_bytes demo_from_bytes (fun _ => []) (fun _ => []) (fun _ => None) (fun _ => None) (fun _ => None)
    (Http := str * Z) (Ws := Empty_set) (fun t => Ok t) (fun u => Ok u) pair (fun _ => Err [])
    (fun _ => Err []) (fun _ => Err []) (fun _ _ _ => demo_calls) (fun _ _ => Ok 9) 10 (fun _ => false).

Definition demo_args : TransportArgs (PeerId := Z) (Path := Z) :=
  mkTransportArgs 1 [] [] []
    (mkRpcArgs (lit "https://rpc") (lit "http://l1") (mkContractAddrs None None None None None (Some 1)) Tethys 2 2 None false 20).

Definition demo_agent : AgentInfo := mkAgentInfo (lit "pings") (lit "1").

Notation DemoBuilder := (@P2PTransportBuilder Z Multiaddr Z (nat -> Client (PeerId := Z))).

Definition demo_cli : res CliError DemoBuilder * (Z -> FsEntry) :=
  from_cli demo_get_client (fun _ => None) demo_args demo_agent (fun _ => true) 7 (fun _ => Missing).

Definition demo_chain (i : nat) : Client (PeerId := Z) :=
  ethers_client demo_to_bytes demo_from_bytes (fun _ => []) 10 false demo_client.

Definition demo_builder : DemoBuilder :=
  mkBuilder 7 [] [] [] (mkTransportConfig 1452 5000 60000 120000)
    (mkFullBaseConfig 60 60 600 5 65536 1024 20 30) demo_chain (dht_protocol Tethys) demo_agent.

Lemma demo_get_client_ok : demo_get_client (ta_rpc demo_args) = Ok demo_chain.
Proof. reflexivity. Qed.

Lemma demo_cli_ok : demo_cli = (Ok demo_builder, snd demo_cli).
Proof. reflexivity. Qed.

Definition demo_items : nat -> option (res ClientError (NetworkNodes (PeerId := Z))) :=
  network_nodes_stream (fun _ => false) demo_chain.

Notation DemoBase := (BaseBehaviour (PeerId := Z) (QueryId := nat) (Record_ := unit)).
Notation DemoNode := (Node (PeerId := Z) (QueryId := nat) (Record_ := unit) (ClientError := ClientError)
  (PubsubMsg := unit) (InnerCmd := unit)).
Notation demo_bwrap := (base_wrapper false demo_with_p2p (PeerId := Z) (QueryId := nat) (Record_ := unit)
  (ClientError := ClientError) (PubsubMsg := unit) (InnerCmd := unit) (HandlerEvent := unit)).
Notation demo_step item := (client_step false demo_with_p2p (PeerId := Z) (QueryId := nat) (Record_ := unit)
  (PubsubMsg := unit) (InnerCmd := unit) (HandlerEvent := unit) item).

Definition demo_kad_new : Z -> str -> Z -> Kad (PeerId := Z) (QueryId := nat) := fun _ _ _ => 0%nat.

Notation demo_pings b := (build_pings_collector (Record_ := unit) (fun k : Z => k) demo_kad_new (Ok tt)
  (fun _ => Ok tt) (fun _ _ => Ok tt) MultiThread default_pings_config b).

(** The first read of the chain is ready; a poll handles it. *)
Definition demo_read_ready (nodes : res ClientError (NetworkNodes (PeerId := Z))) (n : DemoNode) : DemoNode :=
  mkNode (map_world (fun w => mkWorld (w_base w) (w_script w ++ [ActChainRead nodes]) (w_now w) (w_panicked w))
            (node_wrapped n)) no_dials [].

Definition demo_poll (n : DemoNode) : DemoNode :=
  match wrapped_poll (BW := demo_bwrap) (length (w_script (wrapper (node_wrapped n))) + 2) (node_wrapped n) with
  | Some (out, s) => mkNode s (dialled (cmd_dials (option_list out)) (node_dialing n)) (node_open n)
  | None => n
  end.

Lemma demo_poll_step item n : reads_from item (wrapper (node_wrapped (demo_poll n))) ->
  demo_step item n (demo_poll n).
Proof.
  intros Hr. split; [| exact Hr]. unfold demo_poll.
  destruct (base_poll_returns false demo_with_p2p (HandlerEvent := unit) (node_wrapped n)) as [[out s] E].
  rewrite E. destruct n. by eapply nstep_poll.
Qed.

Definition demo_built : DemoBase := PingsCollectorBehaviour_of (new_base (fun k => k) demo_kad_new demo_builder).

Lemma demo_pings_ok : demo_pings demo_builder =
  (Ok (mkSwarm 7 (swarm_settings (b_transport_config demo_builder)) demo_built,
       (mkTaskManager 1 false [0%nat], new_handle WORKER_STATUS_PROTOCOL (pings_config 15 10))), []).
Proof. reflexivity. Qed.

Definition demo_ready_node : DemoNode :=
  demo_read_ready (default (Err BlockNotFound) (demo_items 0%nat)) (node_of demo_built).

Definition demo_run : DemoNode := demo_poll demo_ready_node.

Lemma demo_run_steps : rtc (demo_step demo_items) (node_of demo_built) demo_run.
Proof.
  eapply (rtc_l _ _ demo_ready_node).
  - split; [apply (nstep_ready _ _ [ActChainRead (default (Err BlockNotFound) (demo_items 0%nat))]
                     (node_wrapped (node_of demo_built)) no_dials []) |].
    apply Forall_singleton. exists 0%nat. reflexivity.
  - apply rtc_once, demo_poll_step. vm_compute. constructor.
Qed.

Lemma demo_run_registered : 31 ∈ registered_workers (node_base demo_run).
Proof.
  apply (bool_decide_eq_true_1 (31 ∈ registered_workers (node_base demo_run))). vm_compute. reflexivity.
Qed.

Lemma deployed_node_follows_the_chain_witness :
  (exists i ws w, cl_active_workers (demo_chain i) = Ok ws /\ w ∈ ws /\ w_peer_id w = 31) /\
  31 ∈ allowed (allow (whitelist (node_base demo_run))).
Proof.
  destruct (deployed_node_follows_the_chain false demo_with_p2p (PubsubMsg := unit) (InnerCmd := unit)
    (HandlerEvent := unit) (fun k => k) demo_kad_new (Ok tt) (fun _ => Ok tt) (fun _ _ => Ok tt) (Chan := nat)
    MultiThread demo_get_client (fun _ => None) demo_args demo_agent (fun _ => true) 7 (fun _ => Missing) demo_builder
    (snd demo_cli) demo_built [] demo_cli_ok (cn_pings _ _ _ _ _ _ demo_builder default_pings_config _ _ _ demo_pings_ok))
    as (client & Ec & _ & _ & Hrun).
  rewrite demo_get_client_ok in Ec. injection Ec as <-.
  destruct (Hrun (fun _ => false) demo_run 31 demo_run_steps) as (_ & _ & Hw).
  destruct (Hw demo_run_registered) as (Hread & Hallow & _). exact (conj Hread Hallow).
Defined.

(** The collector of this file, polled with its first read of the chain ready. *)
Lemma wrapped_node_comes_to_rest_witness :
  sn (hands_out false demo_with_p2p (HandlerEvent := unit)) (node_wrapped demo_ready_node) /\
  exists n evs s', drive false demo_with_p2p (HandlerEvent := unit) n (node_wrapped demo_ready_node) = Some (evs, s').
Proof.
  destruct (wrapped_node_comes_to_rest false demo_with_p2p (HandlerEvent := unit) (node_wrapped demo_ready_node))
    as (_ & Hsn & n & evs & s' & Hd & _).
  split; [exact Hsn | exists n, evs, s'; exact Hd].
Defined.

End Demo.
