(* ===== verification/ObserverNode.v ===== *)
(** * The observer (crates/observer/src/transport.rs, main.rs, metrics.rs)

    The observer turns what it hears on the network into metrics.  The swarm is
    the sequence of events it yields; topics hash by an argument; durations are
    nanoseconds. *)

From S2P Require Import Prelude RustStd AddrCache BitString ContractClient Setup.
From Stdlib Require Import ZArith Lia Ascii String.
From stdpp Require Import base sets strings gmap numbers list.

Open Scope Z_scope.

(** ** protocol.rs *)

Definition HEARTBEAT_TOPIC : str := lit "/sqd/worker_heartbeats/1.1.0".
Definition PORTAL_LOGS_TOPIC : str := lit "/sqd/portal_logs/1.1.0".
Definition OLD_PING_TOPIC : str := lit "/subsquid/worker_pings/1.0.0".
Definition WORKER_LOGS_TOPIC_1_0 : str := lit "/subsquid/worker_query_logs/1.0.0".
Definition WORKER_LOGS_TOPIC_1_1 : str := lit "/subsquid/worker_query_logs/1.1.0".
Definition LOGS_COLLECTED_TOPIC : str := lit "/subsquid/logs_collected/1.0.0".

Definition KNOWN_TOPICS : list str :=
  [HEARTBEAT_TOPIC; PORTAL_LOGS_TOPIC; OLD_PING_TOPIC; WORKER_LOGS_TOPIC_1_0; WORKER_LOGS_TOPIC_1_1;
   LOGS_COLLECTED_TOPIC].

(** ** metrics.rs: the registered families, by label *)

(** A [u64] counter wraps; a gauge is an [i64], and [as i64] reinterprets. *)
Definition inc_u64 (x : Z) : Z := (x + 1) mod 2 ^ 64.
Definition as_i64 (x : Z) : Z := if x <? 2 ^ 63 then x else x - 2 ^ 64.

Record Metrics := mkMetrics {
  gossipsub_received : gmap (str * str) Z;
  last_seen : gmap (str * str) Z;
  missing_chunks : gmap str Z;
  stored_bytes : gmap str Z;
  assignment_timestamp : gmap str Z;
  pings_total : gmap str Z;
  last_ping_time : gmap str Z
}.

Definition no_metrics : Metrics := mkMetrics ∅ ∅ ∅ ∅ ∅ ∅ ∅.

(** [get_or_create(labels).inc()] *)
Definition inc_counter {K} `{Countable K} (k : K) (m : gmap K Z) : gmap K Z := <[k := inc_u64 (default 0 (m !! k))]> m.

Definition record_message (topic peer_id : str) (m : Metrics) : Metrics :=
  mkMetrics (inc_counter (topic, peer_id) (gossipsub_received m)) (last_seen m) (missing_chunks m) (stored_bytes m)
    (assignment_timestamp m) (pings_total m) (last_ping_time m).

Definition peer_seen (now : Z) (peer_id addr : str) (m : Metrics) : Metrics :=
  mkMetrics (gossipsub_received m) (<[(peer_id, addr) := now]> (last_seen m)) (missing_chunks m) (stored_bytes m)
    (assignment_timestamp m) (pings_total m) (last_ping_time m).

Definition worker_heartbeat (peer_id : str) (missing stored timestamp : Z) (m : Metrics) : Metrics :=
  mkMetrics (gossipsub_received m) (last_seen m) (<[peer_id := as_i64 missing]> (missing_chunks m))
    (<[peer_id := as_i64 stored]> (stored_bytes m)) (<[peer_id := timestamp]> (assignment_timestamp m))
    (pings_total m) (last_ping_time m).

Definition ping (peer_id : str) (duration : Z) (m : Metrics) : Metrics :=
  mkMetrics (gossipsub_received m) (last_seen m) (missing_chunks m) (stored_bytes m) (assignment_timestamp m)
    (inc_counter peer_id (pings_total m)) (<[peer_id := duration]> (last_ping_time m)).

Definition ping_failed (peer_id : str) (m : Metrics) : Metrics :=
  mkMetrics (gossipsub_received m) (last_seen m) (missing_chunks m) (stored_bytes m) (assignment_timestamp m)
    (pings_total m) (delete peer_id (last_ping_time m)).

Section Observer.
Context {PeerId Component Hash : Type} `{Countable Hash}.
Context (topic_hash : str -> Hash) (peer_to_string : PeerId -> str).
Context (is_p2p : Component -> bool) (addr_to_string : list Component -> str).

(** ** transport.rs *)

Record ObservedHeartbeat := mkHeartbeat {
  hb_missing_chunks : option BitString;
  hb_assignment_id : str;
  hb_stored_bytes : option Z
}.

(** A [ping::Event]: the peer, and the round-trip time or a failure. *)
Inductive Event :=
| Gossipsub (peer_id : option PeerId) (topic : str)
| PeerSeen (peer_id : PeerId) (address : list Component)
| WorkerHeartbeat (peer_id : option PeerId) (heartbeat : ObservedHeartbeat)
| Ping (peer_id : PeerId) (result : option Z).

(** What the swarm yields, as far as the observer looks. *)
Inductive ObservedEvent :=
| NewListenAddr
| PingEvent (peer : PeerId) (result : option Z)
| GossipsubMessage (source : option PeerId) (topic : Hash)
| GossipsubOther
| IdentifyEvent
| RoutingUpdated (peer : PeerId) (addresses : list (list Component))
| RoutablePeer (peer : PeerId) (address : list Component)
| KademliaOther
| OtherSwarmEvent.

(** [BTreeMap::from_iter]: a later pair replaces an earlier one of the same key. *)
Definition TOPIC_BY_HASH : gmap Hash str :=
  foldl (fun m t => <[topic_hash t := t]> m) ∅ KNOWN_TOPICS.

Definition parse_topic (topic : Hash) : str := default (lit "unknown") (TOPIC_BY_HASH !! topic).

Definition on_ping (peer : PeerId) (result : option Z) (events : list Event) : list Event := events ++ [Ping peer result].

Definition on_kademlia (ev : ObservedEvent) (events : list Event) : list Event :=
  match ev with
  | RoutingUpdated peer addresses => events ++ (PeerSeen peer <$> addresses)
  | RoutablePeer peer address => events ++ [PeerSeen peer address]
  | _ => events
  end.

Definition on_gossipsub (source : option PeerId) (topic : Hash) (events : list Event) : list Event :=
  events ++ [Gossipsub source (parse_topic topic)].

(** The body of the loop of [poll_event]. *)
Definition on_observed (ev : ObservedEvent) (events : list Event) : list Event :=
  match ev with
  | NewListenAddr | OtherSwarmEvent | GossipsubOther | IdentifyEvent => events
  | PingEvent peer result => on_ping peer result events
  | GossipsubMessage source topic => on_gossipsub source topic events
  | RoutingUpdated _ _ | RoutablePeer _ _ | KademliaOther => on_kademlia ev events
  end.

(** [available] are the events the swarm has ready; the result is the event of
    [Poll::Ready], the queue and what the swarm has left. *)
Fixpoint poll_event (available : list ObservedEvent) (events : list Event)
  : option Event * list Event * list ObservedEvent :=
  match events with
  | e :: events => (Some e, events, available)
  | [] =>
      match available with
      | [] => (None, [], [])
      | ev :: available => poll_event available (on_observed ev [])
      end
  end.

(** ** main.rs, the loop of [run_transport] *)

(** [while let Some(P2p(_)) = address.iter().last() { address.pop(); }] *)
Fixpoint pop_p2p (reversed : list Component) : list Component :=
  match reversed with
  | c :: rest => if is_p2p c then pop_p2p rest else reversed
  | [] => []
  end.

Definition strip_p2p (address : list Component) : list Component := reverse (pop_p2p (reverse address)).

Definition run_transport (parse_time : str -> option Z) (now : Z) (e : Event) (m : Metrics) : Metrics :=
  match e with
  | Gossipsub peer_id topic => record_message topic (default (lit "unknown") (peer_to_string <$> peer_id)) m
  | PeerSeen peer_id address => peer_seen now (peer_to_string peer_id) (addr_to_string (strip_p2p address)) m
  | WorkerHeartbeat peer_id hb =>
      worker_heartbeat (default (lit "unknown") (peer_to_string <$> peer_id))
        (default 0 (ones <$> hb_missing_chunks hb)) (default 0 (hb_stored_bytes hb))
        (default 0 (parse_time (hb_assignment_id hb))) m
  | Ping peer (Some duration) => ping (peer_to_string peer) duration m
  | Ping peer None => ping_failed (peer_to_string peer) m
  end.

End Observer.

Arguments Event PeerId Component : clear implicits.
Arguments ObservedEvent PeerId Component Hash : clear implicits.

(** ** [Transport::build] *)

Section Build.
Context {PeerId Addr Key Random Path : Type} `{KeyPairs Key Random} `{EqDecision Path}.
Notation BootNode := (@BootNode PeerId Addr).

(** cli.rs *)
Record ObserverCli := mkObserverCli {
  oc_port : Z;
  oc_key : Path;
  oc_listen_addrs : list Addr;
  oc_public_addrs : list Addr;
  oc_boot_nodes : list BootNode;
  oc_network : Network
}.

(** The calls on the swarm and its behaviours; listening, dialling and subscribing
    may fail. *)
Inductive ObserverCall :=
| OListenOn (addr : Addr)
| OAddExternalAddress (addr : Addr)
| OAddAddress (peer_id : PeerId) (addr : Addr)
| ODial (peer_id : PeerId)
| OSubscribe (topic : str).

Definition observer_calls (args : ObserverCli) : list ObserverCall :=
  (OListenOn <$> oc_listen_addrs args) ++ (OAddExternalAddress <$> oc_public_addrs args) ++
  (oc_boot_nodes args ≫= fun node => [OAddAddress (bn_peer_id node) (bn_address node); ODial (bn_peer_id node)]) ++
  (OSubscribe <$> KNOWN_TOPICS).

(** [Behaviour::new] panics on nothing but what its configurations rule out; the
    swarm's identity is the key.  The queue of events starts empty. *)
Definition observer_build {E : Type} (key_error : KeyError -> E) (with_dns : res E unit)
    (answer : ObserverCall -> res E unit) (args : ObserverCli) (writable : Path -> bool) (rng : Random)
    (fs : Path -> FsEntry) : res E (Key * list (Event PeerId Addr)) * list ObserverCall * (Path -> FsEntry) :=
  match get_keypair writable rng (Some (oc_key args)) fs with
  | (r, fs) =>
      match (keypair ← map_err key_error r; _ ← with_dns; Ok keypair) with
      | Ok keypair =>
          let '(r, made) := swarm_calls answer (observer_calls args) in
          (_ ← r; Ok (keypair, []), made, fs)
      | Err e => (Err e, [], fs)
      | Panic => (Panic, [], fs)
      end
  end.

End Build.

(** * The observer's metrics *)

Section Topics.
Context {Hash : Type} `{Countable Hash} (topic_hash : str -> Hash).

(** The hash does not confuse the known topics. *)
Definition topics_distinct : Prop :=
  forall t u, t ∈ KNOWN_TOPICS -> u ∈ KNOWN_TOPICS -> topic_hash t = topic_hash u -> t = u.

Lemma insert_topics (l : list str) (m : gmap Hash str) h t :
  (forall t u, t ∈ l -> u ∈ l -> topic_hash t = topic_hash u -> t = u) ->
  foldl (fun m t => <[topic_hash t := t]> m) m l !! h = Some t <->
  (t ∈ l /\ topic_hash t = h) \/ ((forall u, u ∈ l -> topic_hash u <> h) /\ m !! h = Some t).
Proof.
  revert m; induction l as [|x l IH]; intros m Hd; cbn [foldl]; [set_solver|].
  rewrite IH by (intros u v Hu Hv; apply Hd; by right). split.
  - intros [[Ht <-]|[Hn Hm]]; [left; split; [by right|done]|].
    destruct (decide (topic_hash x = h)) as [<-|Hne].
    + rewrite lookup_insert_eq in Hm. injection Hm as <-. left; split; [by left|done].
    + rewrite lookup_insert_ne in Hm by done. right. split; [|done].
      intros u [->|Hu]%elem_of_cons; [done|by apply Hn].
  - intros [[[->|Ht]%elem_of_cons <-]|[Hn Hm]].
    + destruct (decide (x ∈ l)) as [Hx|Hx]; [by left|]. right. rewrite lookup_insert_eq. split; [|done].
      intros u Hu E. apply Hx. by rewrite (Hd x u) by (done || by left || by right).
    + by left.
    + right. split; [intros u Hu; apply Hn; by right|]. rewrite lookup_insert_ne by (apply Hn; by left). done.
Qed.

(** A known topic is named, any other is "unknown". *)
Lemma parse_topic_spec : topics_distinct ->
  (forall t, t ∈ KNOWN_TOPICS -> parse_topic topic_hash (topic_hash t) = t) /\
  (forall h, (forall t, t ∈ KNOWN_TOPICS -> topic_hash t <> h) -> parse_topic topic_hash h = lit "unknown").
Proof.
  intros Hd. unfold parse_topic, TOPIC_BY_HASH. split.
  - intros t Ht. rewrite (proj2 (insert_topics KNOWN_TOPICS ∅ (topic_hash t) t Hd)); [done|]. by left.
  - intros h Hn. destruct (foldl _ _ _ !! h) as [t|] eqn:E; [|done].
    apply insert_topics in E as [[Ht Eh]|[_ Ef]]; [by destruct (Hn t)|by rewrite lookup_empty in Ef|done].
Qed.
End Topics.

Section Run.
Context {PeerId Component Hash : Type} `{Countable Hash}.
Context (topic_hash : str -> Hash) (peer_to_string : PeerId -> str).
Context (is_p2p : Component -> bool) (addr_to_string : list Component -> str) (parse_time : str -> option Z).

Notation Event := (Event PeerId Component).
Notation ObservedEvent := (ObservedEvent PeerId Component Hash).
Notation record := (run_transport peer_to_string is_p2p addr_to_string parse_time).
Notation poll := (poll_event topic_hash).

(** The events an event of the swarm becomes. *)
Definition events_of (ev : ObservedEvent) : list Event := on_observed topic_hash ev [].

(** A poll hands out the first event there is or will be. *)
Lemma poll_event_spec available events :
  match poll available events with
  | (Some e, events', available') => events ++ (available ≫= events_of) = e :: events' ++ (available' ≫= events_of)
  | (None, events', available') => events ++ (available ≫= events_of) = []
  end.
Proof.
  revert events; induction available as [|ev available IH]; intros [|e events]; cbn; try done.
  specialize (IH (on_observed topic_hash ev [])). cbn in IH. fold (events_of ev) in *.
  destruct (poll available (events_of ev)) as [[[e|] es] av]; done.
Qed.

(** The loop of [run_transport] until the swarm has nothing left; [clock i] is the
    time at which the [i]-th event is recorded. *)
Fixpoint observe (fuel : nat) (clock : nat -> Z) (i : nat) (available : list ObservedEvent) (events : list Event)
    (m : Metrics) : Metrics :=
  match fuel with
  | O => m
  | S fuel =>
      match poll available events with
      | (Some e, events, available) => observe fuel clock (S i) available events (record (clock i) e m)
      | (None, _, _) => m
      end
  end.

Fixpoint record_all (clock : nat -> Z) (i : nat) (l : list Event) (m : Metrics) : Metrics :=
  match l with
  | [] => m
  | e :: l => record_all clock (S i) l (record (clock i) e m)
  end.

Lemma observe_records fuel clock i available events m :
  (length (events ++ (available ≫= events_of)) < fuel)%nat ->
  observe fuel clock i available events m = record_all clock i (events ++ (available ≫= events_of)) m.
Proof.
  revert i available events m; induction fuel as [|fuel IH]; intros i available events m Hf; [lia|].
  cbn [observe]. pose proof (poll_event_spec available events) as Hp.
  destruct (poll available events) as [[[e|] es] av]; rewrite Hp; cbn [record_all]; [|done].
  rewrite Hp in Hf. cbn in Hf. apply IH. lia.
Qed.

(** The messages of one topic and peer in a run of the swarm. *)
Definition is_message (topic peer : str) (ev : ObservedEvent) : bool :=
  match ev with
  | GossipsubMessage source h =>
      bool_decide (parse_topic topic_hash h = topic /\ default (lit "unknown") (peer_to_string <$> source) = peer)
  | _ => false
  end.

Definition is_message_event (topic peer : str) (e : Event) : bool :=
  match e with
  | Gossipsub source t => bool_decide (t = topic /\ default (lit "unknown") (peer_to_string <$> source) = peer)
  | _ => false
  end.

Notation count f l := (Z.of_nat (length (filter (fun x => f x = true) l))).

Lemma record_counts now topic peer e m :
  default 0 (gossipsub_received (record now e m) !! (topic, peer)) =
    if is_message_event topic peer e then inc_u64 (default 0 (gossipsub_received m !! (topic, peer)))
    else default 0 (gossipsub_received m !! (topic, peer)).
Proof.
  destruct e as [src t|p a|p hb|p [d|]]; cbn -[lit]; try done. unfold inc_counter. case_bool_decide as E.
  - destruct E as [<- <-]. by rewrite lookup_insert_eq.
  - rewrite lookup_insert_ne; [done|]. intros [= ??]. by apply E.
Qed.

Lemma record_all_counts clock i l m topic peer : 0 <= default 0 (gossipsub_received m !! (topic, peer)) < 2 ^ 64 ->
  default 0 (gossipsub_received (record_all clock i l m) !! (topic, peer)) =
    (default 0 (gossipsub_received m !! (topic, peer)) + count (is_message_event topic peer) l) mod 2 ^ 64.
Proof.
  revert i m; induction l as [|e l IH]; intros i m Hm; cbn [record_all].
  - cbn [filter list_filter length]. rewrite Z.add_0_r, Z.mod_small; done.
  - rewrite filter_cons, IH; rewrite record_counts; unfold inc_u64.
    + destruct (is_message_event topic peer e); [rewrite decide_True by done|by rewrite decide_False by done].
      cbn [length]. rewrite Zplus_mod_idemp_l. f_equal. lia.
    + destruct (is_message_event topic peer e); [apply Z.mod_pos_bound; lia|done].
Qed.

Lemma count_events (l : list ObservedEvent) topic peer :
  count (is_message_event topic peer) (l ≫= events_of) = count (is_message topic peer) l.
Proof.
  induction l as [|ev l IH]; [done|]. rewrite filter_cons. cbn [mbind list_bind].
  rewrite filter_app, length_app, Nat2Z.inj_add, IH.
  assert (Hs : forall (p : PeerId) (l : list (list Component)),
    filter (fun x => is_message_event topic peer x = true) (PeerSeen p <$> l) = []).
  { intros p l'. induction l'; [done|]. cbn. by rewrite decide_False. }
  destruct ev as [|p r|src h| | |p l'|p a| |]; cbn -[lit]; rewrite ?Hs; cbn -[lit];
    repeat (rewrite decide_False by done); cbn -[lit]; try lia.
  case_bool_decide; cbn -[lit]; repeat case_decide; try done; cbn -[lit]; lia.
Qed.

(** The observer records what the swarm yields completely and in order: over any run
    the message counter of a topic and a peer is the number of gossipsub messages
    of that topic and peer, modulo the width of the counter; a known topic is
    counted under its name and any other as "unknown". *)
Theorem observer_counts_messages fuel clock available topic peer : topics_distinct topic_hash ->
  (length (available ≫= events_of) < fuel)%nat ->
  observe fuel clock 0 available [] no_metrics = record_all clock 0 (available ≫= events_of) no_metrics /\
  default 0 (gossipsub_received (observe fuel clock 0 available [] no_metrics) !! (topic, peer)) =
    count (is_message topic peer) available mod 2 ^ 64 /\
  (forall t, t ∈ KNOWN_TOPICS -> parse_topic topic_hash (topic_hash t) = t) /\
  (forall h, (forall t, t ∈ KNOWN_TOPICS -> topic_hash t <> h) -> parse_topic topic_hash h = lit "unknown").
Proof.
  intros Hd Hf. rewrite observe_records by done. cbn [app]. split; [done|]. split; [|by apply parse_topic_spec].
  rewrite record_all_counts; change (gossipsub_received no_metrics) with (∅ : gmap (str * str) Z);
    rewrite lookup_empty; [|done].
  by rewrite count_events.
Qed.

(** Stripping leaves no trailing [p2p] component and removes nothing else. *)
Lemma strip_p2p_spec (a : list Component) :
  exists tail, a = strip_p2p is_p2p a ++ tail /\ Forall (fun c => is_p2p c = true) tail /\
    (forall c, last (strip_p2p is_p2p a) = Some c -> is_p2p c = false).
Proof.
  unfold strip_p2p. assert (P : exists hd, reverse a = hd ++ pop_p2p is_p2p (reverse a) /\
    Forall (fun c => is_p2p c = true) hd /\ (forall c, head (pop_p2p is_p2p (reverse a)) = Some c -> is_p2p c = false)).
  { induction (reverse a) as [|c l (hd & E & F & L)]; cbn; [by exists []|]. destruct (is_p2p c) eqn:Ec.
    - exists (c :: hd). split_and!; [by rewrite E at 1|by constructor|done].
    - exists []. split_and!; [done|done|]. intros c' [= <-]. done. }
  destruct P as (hd & E & F & L). exists (reverse hd). split_and!.
  - rewrite <- reverse_app, <- E. by rewrite reverse_involutive.
  - by apply Forall_reverse.
  - intros c. rewrite last_reverse. apply L.
Qed.
End Run.

(** ** The start *)

(** An observer that was built has subscribed to every known topic, knows and has
    dialled every boot node, and its identity is the key of its file. *)
Lemma observer_build_complete {PeerId Addr Key Random Path E : Type} `{KeyPairs Key Random} `{EqDecision Path}
    key_error with_dns answer (args : ObserverCli (PeerId := PeerId) (Addr := Addr) (Path := Path)) writable
    (rng : Random) fs key events made fs' :
  observer_build (E := E) key_error with_dns answer args writable rng fs = (Ok (key, events), made, fs') ->
  get_keypair writable rng (Some (oc_key args)) fs = (Ok key, fs') /\ events = [] /\ made = observer_calls args /\
  (forall t, t ∈ KNOWN_TOPICS -> OSubscribe t ∈ made /\ answer (OSubscribe t) = Ok tt).
Proof.
  unfold observer_build. destruct (get_keypair _ _ _ _) as [[k | |] fs1]; cbn; [| done..].
  destruct with_dns; cbn; [| done..]. pose proof (swarm_calls_prefix answer (observer_calls args)) as Hc.
  destruct (swarm_calls answer (observer_calls args)) as [[[] | |] made'] eqn:Es; cbn; [| done..].
  destruct Hc as [_ [Hc _]]. destruct (Hc eq_refl) as [-> Hall]. intros [= -> <- <- ->]. split_and!; [done.. |].
  intros t Ht. assert (OSubscribe t ∈ observer_calls args) as Hin.
  { unfold observer_calls. rewrite !elem_of_app. do 3 right. by apply list_elem_of_fmap_2. }
  split; [done |]. by apply (proj1 (Forall_forall _ _) Hall).
Qed.

(** ** A concrete run: two messages of peer 7 on the ping topic among other events *)

Definition demo_name (p : Z) : str := lit "peer" ++ u64_to_string p.

Definition demo_events : list (ObservedEvent Z Z str) :=
  [NewListenAddr; GossipsubMessage (Some 7) OLD_PING_TOPIC; RoutingUpdated 3 [[1; 2]; [4]];
   GossipsubMessage (Some 8) OLD_PING_TOPIC; GossipsubMessage (Some 7) OLD_PING_TOPIC; PingEvent 7 None].

Lemma observer_counts_messages_witness :
  default 0 (gossipsub_received (observe (fun t => t) demo_name (fun _ => false) (fun _ => []) (fun _ => None) 9
    (fun _ => 0) 0 demo_events [] no_metrics) !! (OLD_PING_TOPIC, demo_name 7)) = 2.
Proof.
  refine (eq_trans (proj1 (proj2 (observer_counts_messages (fun t => t) demo_name (fun _ => false) (fun _ => [])
    (fun _ => None) 9 (fun _ => 0) demo_events OLD_PING_TOPIC (demo_name 7) _ _))) _).
  - intros t u _ _ E. exact E.
  - vm_compute. lia.
  - vm_compute. reflexivity.
Defined.
