(* ===== verification/DebugTool.v ===== *)
(** * The debug tool (crates/transport/examples/debug.rs)

    A node that runs only the protocols named on its command line and prints what
    they report.  Its output is its log, so that here the log is modelled: every
    event of the swarm becomes one line, with its level. *)

From S2P Require Import Prelude RustStd AddrCache ContractClient Setup ObserverNode.
From Stdlib Require Import ZArith Lia Ascii String.
From stdpp Require Import base sets strings gmap numbers list.

Open Scope Z_scope.

Section DebugTool.
Context {PeerId Addr Key Random Path Hash : Type} `{KeyPairs Key Random} `{EqDecision Path} `{Countable Hash}.
Context (parse_addr : str -> option Addr) (parse_peer_id : str -> option PeerId).

Record DebugCli := mkDebugCli {
  dc_key : Path;
  dc_network : Network;
  dc_listen : option Z;
  dc_dial : list Addr;
  dc_ping : bool;
  dc_identify : bool;
  dc_kad : bool;
  dc_autonat : bool;
  dc_gossipsub : bool
}.

(** ** The behaviour: which of its [Toggle]s are on *)

Record DebugBehaviour := mkDebugBehaviour {
  db_ping : bool;
  db_identify : bool;
  db_autonat : bool;
  db_kad : bool;
  db_gossipsub : bool
}.

Definition debug_behaviour_new (cli : DebugCli) : DebugBehaviour :=
  let ping_enabled := dc_ping cli in
  let identify_enabled := dc_identify cli || dc_autonat cli in
  let autonat_enabled := dc_autonat cli in
  let kad_enabled := dc_kad cli || dc_gossipsub cli in
  let gossipsub_enabled := dc_gossipsub cli in
  mkDebugBehaviour ping_enabled identify_enabled autonat_enabled kad_enabled gossipsub_enabled.

(** ** The boot nodes it knows; both [parse] are unwrapped *)

Definition bootnode_strings (network : Network) : list (str * str) :=
  match network with
  | Mainnet =>
      [(lit "/dns4/mainnet.subsquid.io/udp/22445/quic-v1", lit "12D3KooW9tLMANc4Vnxp27Ypyq8m8mUv45nASahj3eSnMbGWSk1b");
       (lit "/dns4/mainnet.subsquid.io/udp/22446/quic-v1", lit "12D3KooWEhPC7rsHAcifstVwJ3Cj55sWn7zXWuHrtAQUCGhGYnQz");
       (lit "/dns4/mainnet.subsquid.io/udp/32445/quic-v1", lit "12D3KooWS5N8ygU6fRy4EZtzdHf4QZnkCaZrwCha9eYKH3LwNvsP")]
  | Tethys =>
      [(lit "/dns4/testnet.subsquid.io/udp/22445/quic-v1", lit "12D3KooWSRvKpvNbsrGbLXGFZV7GYdcrYNh4W2nipwHHMYikzV58");
       (lit "/dns4/testnet.subsquid.io/udp/22446/quic-v1", lit "12D3KooWQC9tPzj2ShLn39RFHS5SGbvbP2pEd7bJ61kSW2LwxGSB")]
  end.

Fixpoint parse_bootnodes {E} (nodes : list (str * str)) : res E (list (Addr * PeerId)) :=
  match nodes with
  | [] => Ok []
  | (a, p) :: nodes =>
      match parse_addr a, parse_peer_id p with
      | Some a, Some p => rest ← parse_bootnodes nodes; Ok ((a, p) :: rest)
      | _, _ => Panic
      end
  end.

Definition bootnodes {E} (network : Network) : res E (list (Addr * PeerId)) :=
  parse_bootnodes (bootnode_strings network).

(** ** [main] up to the loop *)

(** The calls on the swarm and its behaviours.  The address to listen on is parsed
    where the call is made; the answer says whether that or the call fails. *)
Inductive DebugCall :=
| DAddAddress (peer_id : PeerId) (addr : Addr)
| DAddServer (peer_id : PeerId) (addr : Addr)
| DListenOn (addr : str)
| DDial (addr : Addr)
| DSubscribe (topic : str).

Definition listen_string (port : Z) : str := lit "/ip4/0.0.0.0/udp/" ++ u64_to_string port ++ lit "/quic-v1".

(** One of the two blocks that hand the boot nodes to a behaviour that is on. *)
Definition bootnode_calls {E} (enabled : bool) (network : Network) (call : PeerId -> Addr -> DebugCall)
  : res E (list DebugCall) :=
  if enabled then
    nodes ← bootnodes (E := E) network;
    Ok (map (fun n => call (snd n) (fst n)) nodes)
  else Ok [].

(** The boot nodes come first, and adding them cannot fail. *)
Definition debug_calls {E} (cli : DebugCli) (b : DebugBehaviour) : res E (list DebugCall) :=
  kad ← bootnode_calls (db_kad b) (dc_network cli) DAddAddress;
  autonat ← bootnode_calls (db_autonat b) (dc_network cli) DAddServer;
  Ok (kad ++ autonat ++ ((fun port => DListenOn (listen_string port)) <$> option_list (dc_listen cli))
      ++ (DDial <$> dc_dial cli) ++ (if db_gossipsub b then DSubscribe <$> KNOWN_TOPICS else [])).

(** The configurations that [Behaviour::new] unwraps are valid. *)
Definition debug_start {E : Type} (key_error : KeyError -> E) (with_dns : res E unit) (answer : DebugCall -> res E unit)
    (cli : DebugCli) (writable : Path -> bool) (rng : Random) (fs : Path -> FsEntry)
  : res E (Key * DebugBehaviour) * list DebugCall * (Path -> FsEntry) :=
  let '(r, fs) := get_keypair writable rng (Some (dc_key cli)) fs in
  let b := debug_behaviour_new cli in
  match (keypair ← map_err key_error r; _ ← with_dns; calls ← debug_calls cli b; Ok (keypair, calls)) with
  | Ok (keypair, calls) =>
      let '(r, made) := swarm_calls answer calls in
      (_ ← r; Ok (keypair, b), made, fs)
  | Err e => (Err e, [], fs)
  | Panic => (Panic, [], fs)
  end.

(** ** The loop *)

Inductive DebugEvent :=
| DNewListenAddr
| DPing
| DAutonat
| DGossipsubMessage (topic : Hash)
| DGossipsubOther
| DIdentify
| DKad
| DOtherEvent.

Inductive Level := LevelError | LevelInfo | LevelDebug.

(** A line of the log: its level, and the topic a message is said to be of. *)
Definition on_gossipsub_message (topic_hash : str -> Hash) (topic : Hash) : Level * option str :=
  match TOPIC_BY_HASH topic_hash !! topic with
  | Some t => (LevelInfo, Some t)
  | None => (LevelError, None)
  end.

Definition debug_log (topic_hash : str -> Hash) (cli : DebugCli) (ev : DebugEvent) : Level * option str :=
  match ev with
  | DNewListenAddr | DPing | DAutonat | DGossipsubOther => (LevelInfo, None)
  | DGossipsubMessage topic => on_gossipsub_message topic_hash topic
  | DIdentify => (if dc_identify cli then LevelInfo else LevelDebug, None)
  | DKad => (if dc_kad cli then LevelInfo else LevelDebug, None)
  | DOtherEvent => (LevelDebug, None)
  end.

(** ** What a run does *)

Lemma parse_bootnodes_Ok {E} nodes l : parse_bootnodes (E := E) nodes = Ok l ->
  Forall2 (fun n x => parse_addr n.1 = Some x.1 /\ parse_peer_id n.2 = Some x.2) nodes l.
Proof.
  revert l. induction nodes as [| [a p] nodes IH]; cbn; intros l Hl; [injection Hl as <-; constructor |].
  destruct (parse_addr a) eqn:Ea; [| done]. destruct (parse_peer_id p) eqn:Ep; [| done].
  destruct (parse_bootnodes nodes); [| done..]. injection Hl as <-. constructor; [done | by apply IH].
Qed.

Lemma bootnode_calls_Ok {E} enabled network call calls :
  bootnode_calls (E := E) enabled network call = Ok calls ->
  (forall c, c ∈ calls -> exists p a, c = call p a) /\
  (enabled = true -> forall nodes a p, bootnodes (E := E) network = Ok nodes -> (a, p) ∈ nodes -> call p a ∈ calls).
Proof.
  unfold bootnode_calls. destruct enabled; [| intros [= <-]; set_solver].
  destruct (bootnodes network) as [nodes | |]; cbn; [| done..]. intros [= <-]. split.
  - intros c ([a p] & -> & _)%list_elem_of_fmap. by exists p, a.
  - intros _ nodes' a p [= <-] Hin. by apply (list_elem_of_fmap_2 (fun n => call n.2 n.1) _ (a, p)).
Qed.

Lemma Ok_inj {E A} (x y : A) : @Ok E A x = Ok y -> x = y.
Proof. by intros [=]. Qed.

(** A tool that enters its loop has made all its calls.  A protocol is on exactly
    if it is named on the command line or one that is named needs it, Kademlia
    knows and AutoNAT asks all boot nodes of the network, and it is subscribed to
    the known topics if gossipsub is on and to none otherwise. *)
Theorem debug_tool_starts {E} key_error with_dns answer cli writable rng fs key b made fs' :
  debug_start (E := E) key_error with_dns answer cli writable rng fs = (Ok (key, b), made, fs') ->
  get_keypair writable rng (Some (dc_key cli)) fs = (Ok key, fs') /\
  b = debug_behaviour_new cli /\ Forall (fun c => answer c = Ok tt) made /\
  (forall nodes a p, bootnodes (E := E) (dc_network cli) = Ok nodes -> (a, p) ∈ nodes ->
     (dc_kad cli || dc_gossipsub cli = true -> DAddAddress p a ∈ made) /\
     (dc_autonat cli = true -> DAddServer p a ∈ made)) /\
  (forall t, DSubscribe t ∈ made <-> dc_gossipsub cli = true /\ t ∈ KNOWN_TOPICS).
Proof.
  unfold debug_start. destruct (get_keypair _ _ _ _) as [[k | |] fs1]; cbn -[debug_calls]; [| done..].
  destruct with_dns; cbn -[debug_calls]; [| done..].
  destruct (debug_calls cli (debug_behaviour_new cli)) as [calls | |] eqn:Ec; cbn; [| done..].
  pose proof (swarm_calls_prefix answer calls) as Hc.
  destruct (swarm_calls answer calls) as [[[] | |] made'] eqn:Es; cbn; [| done..].
  destruct Hc as [_ [Hc _]]. destruct (Hc eq_refl) as [-> Hall]. intros [= -> <- <- ->]. unfold debug_calls in Ec.
  destruct (bootnode_calls _ _ DAddAddress) as [kad | |] eqn:Ek; cbn -[KNOWN_TOPICS] in Ec; [| done..].
  destruct (bootnode_calls _ _ DAddServer) as [autonat | |] eqn:Ea; cbn -[KNOWN_TOPICS] in Ec; [| done..]. apply Ok_inj in Ec as <-.
  apply bootnode_calls_Ok in Ek as [Hk Hk'], Ea as [Ha Ha']. split_and!; [done.. | |].
  - intros nodes x p Hn Hin. rewrite !elem_of_app. eauto 10.
  - intros t. rewrite !elem_of_app. split; [| intros [-> Ht]; do 4 right; by apply list_elem_of_fmap_2].
    intros [(? & ? & ?)%Hk | [(? & ? & ?)%Ha | [Hl | [Hd | Hs]]]]; [done | done | | |].
    + by apply list_elem_of_fmap in Hl as (? & ? & _).
    + by apply list_elem_of_fmap in Hd as (? & ? & _).
    + destruct (dc_gossipsub cli); [| by apply elem_of_nil in Hs].
      apply list_elem_of_fmap in Hs as (? & [= ->] & ?). done.
Qed.

(** A message of a known topic is printed with the topic's name, one of another
    topic is reported as an error; nothing a protocol named on the command line
    reports is only printed for debugging. *)
Lemma debug_log_spec (topic_hash : str -> Hash) cli : topics_distinct topic_hash ->
  (forall t, t ∈ KNOWN_TOPICS -> debug_log topic_hash cli (DGossipsubMessage (topic_hash t)) = (LevelInfo, Some t)) /\
  (forall h, (forall t, t ∈ KNOWN_TOPICS -> topic_hash t <> h) ->
     debug_log topic_hash cli (DGossipsubMessage h) = (LevelError, None)) /\
  (dc_identify cli = true -> fst (debug_log topic_hash cli DIdentify) = LevelInfo) /\
  (dc_kad cli = true -> fst (debug_log topic_hash cli DKad) = LevelInfo).
Proof.
  intros Hd. split_and!; cbn; [| | by intros -> | by intros ->]; unfold on_gossipsub_message, TOPIC_BY_HASH.
  - intros t Ht. rewrite (proj2 (insert_topics topic_hash KNOWN_TOPICS ∅ (topic_hash t) t Hd)); [done |]. by left.
  - intros h Hn. destruct (foldl _ _ _ !! h) as [t |] eqn:E; [| done].
    apply insert_topics in E as [[Ht Eh] | [_ Ef]]; [by destruct (Hn t) | by rewrite lookup_empty in Ef | done].
Qed.

End DebugTool.

(** The tool with [--gossipsub --listen 4000] on the test network: Kademlia comes
    along with its boot nodes, and the six topics are subscribed to. *)
Example debug_demo_calls :
  let cli := mkDebugCli 0 Tethys (Some 4000) [] false false false false true in
  (fun calls => (length calls, nth 2 calls (DListenOn []))) <$>
    (match debug_calls (E := unit) (PeerId := str) Some Some (Path := Z) cli (debug_behaviour_new cli) with
     | Ok calls => Some calls | _ => None end)
  = Some (9%nat, DListenOn (lit "/ip4/0.0.0.0/udp/4000/quic-v1")).
Proof. vm_compute. reflexivity. Qed.
