(* ===== verification/Bootnode.v ===== *)
(** * The boot node and the key generator
    (crates/bootnode/src/main.rs, crates/keygen/src/main.rs)

    [main] of the boot node, from its arguments to its end: key, chain client,
    whitelist, swarm, the other boot nodes and the allowed ones, and the loop over
    the events of the swarm until a signal comes.  Of its behaviours the whitelist
    and Kademlia have state that the code looks at or changes. *)

From S2P Require Import Prelude RustStd Instances Whitelist AddrCache Transports ContractClient ContractSetup.
From S2P Require Import Setup NodeBuild.
From Stdlib Require Import ZArith Lia.
From stdpp Require Import base sets gmap numbers list.

Open Scope Z_scope.

Section Bootnode.
Context {PeerId : Type} `{AllowList PeerId}.
Context {Kad : Type} (kad_add_address : PeerId -> Multiaddr -> Kad -> Kad).

Record Bootnode := mkBootnode { bt_whitelist : WhitelistBehavior (PeerId := PeerId); bt_kademlia : Kad; bt_dialed : list PeerId }.

(** The loop over the other boot nodes; [dial] may refuse, which ends [main]. *)
Fixpoint connect_boot_nodes {E} (dial : PeerId -> res E unit) (local_peer_id : PeerId) (nodes : list (PeerId * Multiaddr))
    (b : Bootnode) : res E unit * Bootnode :=
  match nodes with
  | [] => (Ok tt, b)
  | (peer_id, address) :: nodes =>
      if decide (peer_id = local_peer_id) then connect_boot_nodes dial local_peer_id nodes b
      else
        let b := mkBootnode (allow_peer peer_id (bt_whitelist b)) (kad_add_address peer_id address (bt_kademlia b))
                   (bt_dialed b ++ [peer_id]) in
        match dial peer_id with
        | Ok _ => connect_boot_nodes dial local_peer_id nodes b
        | r => (r, b)
        end
  end.

Definition allow_nodes (nodes : list PeerId) (b : Bootnode) : Bootnode :=
  mkBootnode (foldl (fun w p => allow_peer p w) (bt_whitelist b) nodes) (bt_kademlia b) (bt_dialed b).

(** The arm of the event loop that acts: [identify::Event::Received]. *)
Definition bootnode_on_identify (private_network : bool) (peer_id : PeerId) (listen_addrs : list Multiaddr) (b : Bootnode)
  : Bootnode :=
  mkBootnode (bt_whitelist b)
    (foldl (fun k addr => kad_add_address peer_id addr k) (bt_kademlia b)
       (filter (fun addr => addr_is_reachable private_network addr = true) listen_addrs))
    (bt_dialed b).

(** ** The loop

    What the swarm yields.  While it is polled the whitelist reads the chain; the
    event that comes of it is one of the others, which the loop ignores. *)
Inductive BootEvent :=
| BootIdentify (peer_id : PeerId) (listen_addrs : list Multiaddr)
| BootChainRead (result : res ClientError (NetworkNodes (PeerId := PeerId)))
| BootConnectionError (peer_id : option PeerId)
| BootOther.

Definition bootnode_event (private_network : bool) (ev : BootEvent) (b : Bootnode) : Bootnode :=
  match ev with
  | BootIdentify peer_id listen_addrs => bootnode_on_identify private_network peer_id listen_addrs b
  | BootChainRead result => mkBootnode (snd (whitelist_poll (Some result) (bt_whitelist b))) (bt_kademlia b) (bt_dialed b)
  | BootConnectionError _ | BootOther => b
  end.

(** [SelCancelled] is one of the two signals. *)
Definition bootnode_loop (private_network : bool) : list (Selected BootEvent) -> Bootnode -> LoopState Bootnode :=
  select_loop (bootnode_event private_network).

(** ** [main] up to the loop *)

Context {Key Random Path : Type} `{KeyPairs Key Random} `{EqDecision Path}.
Context (key_peer_id : Key -> PeerId) (kad_new : PeerId -> str -> Kad) (kad_set_server_mode : Kad -> Kad).
Context (client_for : RpcArgs -> res ClientError (nat -> Client (PeerId := PeerId))).
Context (with_dns : res str unit) (listen_on : Multiaddr -> res str unit) (dial : PeerId -> res str unit)
        (signals : res str unit).

Record BootCli := mkBootCli { bc_transport : TransportArgs (PeerId := PeerId) (Path := Path); allowed_nodes : list PeerId }.

Inductive BootError :=
| BootKey (e : KeyError)
| BootClient (e : ClientError)
| BootIo (e : str)
| BootListen (e : str)
| BootDial (e : str).

Definition boot_answer (c : @SwarmCall PeerId Multiaddr) : res BootError unit :=
  match c with
  | ListenOn addr => map_err BootListen (listen_on addr)
  | AddExternalAddress _ => Ok tt
  | DialPeer peer _ => map_err BootDial (dial peer)
  end.

(** The behaviour of the boot node, new. *)
Definition bootnode_new (local_peer_id : PeerId) (network : Network) : Bootnode :=
  mkBootnode WhitelistBehavior_new (kad_new local_peer_id (dht_protocol network)) [].

Definition boot_nodes_of (args : TransportArgs (PeerId := PeerId) (Path := Path)) : list (PeerId * Multiaddr) :=
  (fun n => (bn_peer_id n, bn_address n)) <$> ta_boot_nodes args.

(** The client, whose stream the whitelist reads, and the boot node as it enters
    the loop. *)
Definition bootnode_start (cli : BootCli) (writable : Path -> bool) (rng : Random) (fs : Path -> FsEntry)
  : res BootError ((nat -> Client (PeerId := PeerId)) * Bootnode) * (Path -> FsEntry) :=
  let args := bc_transport cli in
  match get_keypair writable rng (Some (ta_key args)) fs with
  | (Ok keypair, fs) =>
      let local_peer_id := key_peer_id keypair in
      (client ← map_err BootClient (client_for (ta_rpc args));
       _ ← map_err BootIo with_dns;
       let b := bootnode_new local_peer_id (network (ta_rpc args)) in
       _ ← (swarm_calls boot_answer
              ((ListenOn <$> listen_addrs args) ++ (AddExternalAddress <$> p2p_public_addrs args))).1;
       let b := mkBootnode (bt_whitelist b) (kad_set_server_mode (bt_kademlia b)) (bt_dialed b) in
       let '(r, b) := connect_boot_nodes (fun p => map_err BootDial (dial p)) local_peer_id (boot_nodes_of args) b in
       _ ← r;
       let b := allow_nodes (allowed_nodes cli) b in
       _ ← map_err BootIo signals;
       Ok (client, b), fs)
  | (Err e, fs) => (Err (BootKey e), fs)
  | (Panic, fs) => (Panic, fs)
  end.

(** ** keygen: the peer id of the key at a path, which is made if need be *)

Definition keygen (filename : Path) (writable : Path -> bool) (rng : Random) (fs : Path -> FsEntry)
  : res KeyError PeerId * (Path -> FsEntry) :=
  let '(r, fs) := get_keypair writable rng (Some filename) fs in
  (keypair ← r; Ok (key_peer_id keypair), fs).

End Bootnode.

Arguments BootEvent PeerId {_ _}.

(** * Whom a boot node lets in *)

Section BootnodeProps.
Context {PeerId : Type} `{AllowListLaws PeerId}.
Context {Kad : Type} (kad_add_address : PeerId -> Multiaddr -> Kad -> Kad).
Context (private_network : bool).

Notation BootnodeT := (Bootnode (PeerId := PeerId) (Kad := Kad)).
Notation loop := (bootnode_loop kad_add_address private_network).

(** ** The loop *)

(** The reads of the chain in the rounds before the first signal, and whether
    there is one. *)
Fixpoint chain_reads (rounds : list (Selected (BootEvent PeerId))) : list (res ClientError (NetworkNodes (PeerId := PeerId))) :=
  match rounds with
  | [] | SelCancelled :: _ => []
  | SelBranch (BootChainRead r) :: rounds => r :: chain_reads rounds
  | SelBranch _ :: rounds => chain_reads rounds
  end.

Definition signalled (rounds : list (Selected (BootEvent PeerId))) : bool :=
  existsb (fun r => match r with SelCancelled => true | _ => false end) rounds.

Lemma loop_updates rounds (b : BootnodeT) : exists b',
  loop rounds b = (if signalled rounds then LoopEnded b' else LoopRunning b') /\
  bt_whitelist b' = updates (chain_reads rounds) (bt_whitelist b) /\ bt_dialed b' = bt_dialed b.
Proof.
  revert b. induction rounds as [| [| ev] rounds IH]; intros b; cbn; [by exists b | by exists b |].
  destruct (IH (bootnode_event kad_add_address private_network ev b)) as (b' & E & Hw & Hd).
  exists b'. split; [exact E |]. destruct ev; cbn in *; try done. rewrite Hw, Hd. by destruct (on_nodes_update _ _).
Qed.

(** ** The start *)

(** The whitelist while peers are allowed by hand. *)
Definition by_hand (manual : gset PeerId) (w : WhitelistBehavior (PeerId := PeerId)) : Prop :=
  registered_nodes w = ∅ /\ allowed (allow w) = manual.

Lemma allow_by_hand p manual w : by_hand manual w -> by_hand ({[p]} ∪ manual) (allow_peer p w).
Proof. intros [Hr Ha]. split; cbn; [done |]. by rewrite allowed_add, Ha. Qed.

Lemma allow_nodes_by_hand nodes manual (b : BootnodeT) : by_hand manual (bt_whitelist b) ->
  by_hand (list_to_set nodes ∪ manual) (bt_whitelist (allow_nodes nodes b)).
Proof.
  unfold allow_nodes. cbn. generalize (bt_whitelist b). revert manual.
  induction nodes as [| p nodes IH]; intros manual w Hw; cbn; [by rewrite (left_id_L ∅ (∪)) |].
  replace ({[p]} ∪ list_to_set nodes ∪ manual) with (list_to_set nodes ∪ ({[p]} ∪ manual)) by set_solver.
  by apply IH, allow_by_hand.
Qed.

Lemma connect_by_hand {E : Type} (dial : PeerId -> res E unit) local nodes manual (b b' : BootnodeT) :
  connect_boot_nodes kad_add_address dial local nodes b = (Ok tt, b') -> by_hand manual (bt_whitelist b) ->
  by_hand ((list_to_set nodes.*1 ∖ {[local]}) ∪ manual) (bt_whitelist b') /\
  bt_dialed b' = bt_dialed b ++ filter (fun p => p <> local) nodes.*1.
Proof.
  revert manual b. induction nodes as [| [p a] nodes IH]; intros manual b E1 Hb; cbn [connect_boot_nodes] in E1.
  { injection E1 as <-. cbn. rewrite app_nil_r. split; [| done]. by replace (∅ ∖ {[local]} ∪ manual) with manual by set_solver. }
  rewrite fmap_cons, list_to_set_cons, filter_cons. cbn [fst]. destruct (decide (p = local)) as [-> | Hp].
  - destruct (IH manual b E1 Hb) as [Hb' Hd]. rewrite decide_False by (by intros ?). split; [| done].
    by replace (({[local]} ∪ list_to_set nodes.*1) ∖ {[local]} ∪ manual) with (list_to_set nodes.*1 ∖ {[local]} ∪ manual)
      by set_solver.
  - destruct (dial p) as [[] | |]; [| done..].
    apply (IH ({[p]} ∪ manual)) in E1 as [Hb' Hd]; [| by apply allow_by_hand]. rewrite decide_True by done.
    cbn in Hd. rewrite <- app_assoc in Hd. split; [| exact Hd].
    by replace (({[p]} ∪ list_to_set nodes.*1) ∖ {[local]} ∪ manual)
      with (list_to_set nodes.*1 ∖ {[local]} ∪ ({[p]} ∪ manual)) by set_solver.
Qed.

Lemma by_hand_follows manual w us : by_hand manual w ->
  registered_nodes (updates (ClientError := ClientError) us w) = current us ∅ /\
  allowed (allow (updates us w)) = current us ∅ ∪ (manual ∖ ever us).
Proof.
  intros [Hr Ha]. destruct (updates_follow us manual ∅ w) as [[_ Hal] Hreg].
  { split; rewrite Hr; [done |]. rewrite Ha. set_solver. }
  rewrite Hr in Hreg. rewrite Hal, Hreg. split; [done |]. by rewrite (left_id_L ∅ (∪)).
Qed.

(** ** From the start through the loop *)

Context {Key Random Path : Type} `{KeyPairs Key Random} `{EqDecision Path}.
Context (key_peer_id : Key -> PeerId) (kad_new : PeerId -> str -> Kad) (kad_set_server_mode : Kad -> Kad).
Context (client_for : RpcArgs -> res ClientError (nat -> Client (PeerId := PeerId))).
Context (with_dns : res str unit) (listen_on : Multiaddr -> res str unit) (dial : PeerId -> res str unit)
        (signals : res str unit).

Notation start := (bootnode_start kad_add_address key_peer_id kad_new kad_set_server_mode client_for with_dns listen_on
  dial signals).

(** C17: a boot node that started lets in whom it should, for as long as it runs.  It has
    dialled every other boot node of its command line once, in order, and never
    itself.  It runs until the first signal and ends then; at any time before and
    at its end the peers its whitelist lets through are exactly those of the last
    successful read of the chain, failed reads in between included, together with
    the other boot nodes and the nodes allowed on the command line, of those that
    no read ever listed. *)
Theorem bootnode_lets_in (cli : BootCli (PeerId := PeerId) (Path := Path)) writable (rng : Random) fs client
    (b : BootnodeT) fs' :
  start cli writable rng fs = (Ok (client, b), fs') ->
  exists keypair, get_keypair writable rng (Some (ta_key (bc_transport cli))) fs = (Ok keypair, fs') /\
    let local := key_peer_id keypair in
    let boot := bn_peer_id <$> ta_boot_nodes (bc_transport cli) in
    let manual : gset PeerId := list_to_set (allowed_nodes cli) ∪ list_to_set boot ∖ {[local]} in
    client_for (ta_rpc (bc_transport cli)) = Ok client /\
    bt_dialed b = filter (fun p => p <> local) boot /\
    forall rounds, exists b',
      loop rounds b = (if signalled rounds then LoopEnded b' else LoopRunning b') /\
      let reads := chain_reads rounds in
      registered_nodes (bt_whitelist b') = current reads ∅ /\
      allowed (allow (bt_whitelist b')) = current reads ∅ ∪ (manual ∖ ever reads).
Proof.
  unfold bootnode_start. destruct (get_keypair _ _ _ _) as [[key | |] fs1]; [| done..]. intros E.
  injection E as E <-. exists key. split; [done |].
  destruct (client_for _) as [cl | |]; cbn in E; [| done..]. destruct with_dns; cbn in E; [| done..].
  destruct (swarm_calls _ _) as [[[] | |] made]; cbn in E; [| done..].
  destruct (connect_boot_nodes _ _ _ _ _) as [[[] | |] b1] eqn:Ec; cbn in E; [| done..].
  destruct signals; cbn in E; [| done..]. injection E as <- <-.
  apply (connect_by_hand _ _ _ ∅) in Ec as [Hb Hd]; [| by split; cbn; rewrite ?allowed_default].
  unfold boot_nodes_of in Hb, Hd. rewrite <- list_fmap_compose in Hb, Hd. cbn in Hd. split_and!; [done | done |].
  intros rounds. destruct (loop_updates rounds (allow_nodes (allowed_nodes cli) b1)) as (b' & El & Hw & _).
  exists b'. split; [exact El |]. rewrite Hw. apply (allow_nodes_by_hand (allowed_nodes cli)) in Hb.
  rewrite (right_id_L ∅ (∪)) in Hb. by apply by_hand_follows.
Qed.

End BootnodeProps.

(** ** A run: boot node 7 with the other boot node 8 and the allowed node 9; the chain
    lists 1 and 8, and then only 1. *)

Section Demo.
#[local] Existing Instances set_allow_list set_allow_list_laws.

Definition demo_boot_cli : BootCli (PeerId := Z) (Path := Z) :=
  mkBootCli
    (mkTransportArgs 1 [] [] [mkBootNode 7 []; mkBootNode 8 []]
       (mkRpcArgs [] [] (mkContractAddrs None None None None None None) Tethys 2 2 None false 20)) [9].

Definition no_client : RpcArgs -> res ClientError (nat -> Client (PeerId := Z)) :=
  fun _ => Ok (fun _ => dummy_client (fun _ => []) (fun _ => None) (fun _ => None) (fun _ => None)
                          (mkDummyData 0 0 0 [] [] [] [] [] [] [])).

Notation demo_boot_start := (bootnode_start (Kad := list (Z * Multiaddr)) (fun p a k => (p, a) :: k) (fun k : Z => k)
  (fun _ _ => []) (fun k => k) no_client (Ok tt) (fun _ => Ok tt) (fun _ => Ok tt) (Ok tt)).

Definition demo_rounds : list (Selected (BootEvent Z)) :=
  [SelBranch (BootChainRead (Ok (mkNetworkNodes {[1]} {[8]}))); SelBranch BootOther;
   SelBranch (BootChainRead (Err BlockNotFound)); SelBranch (BootChainRead (Ok (mkNetworkNodes {[1]} ∅))); SelCancelled].

Lemma bootnode_lets_in_witness : exists client b b' fs',
  demo_boot_start demo_boot_cli (fun _ => true) 7 (fun _ => Missing) = (Ok (client, b), fs') /\
  bt_dialed b = [8] /\
  bootnode_loop (fun p a k => (p, a) :: k) false demo_rounds b = LoopEnded b' /\
  1 ∈ allowed (allow (bt_whitelist b')) /\ 9 ∈ allowed (allow (bt_whitelist b')) /\
  8 ∉ allowed (allow (bt_whitelist b')).
Proof.
  destruct (demo_boot_start demo_boot_cli (fun _ => true) 7 (fun _ => Missing)) as [[[client b] | |] fs'] eqn:E;
    [| discriminate E ..].
  pose proof (bootnode_lets_in _ false _ _ _ _ _ _ _ _ _ _ _ _ _ _ _ E) as (key & Ek & _ & Hd & Hrun).
  injection Ek as <- _. destruct (Hrun demo_rounds) as (b' & El & _ & Ha). exists client, b, b', fs'.
  split_and!; [done | exact Hd | exact El | ..]; rewrite Ha; vm_compute; set_solver.
Defined.

End Demo.
